(* ===== verification/_CoqProject ===== *)
-Q . S2P
Prelude.v
Memory.v
Types.v
Queue.v
QueueSpec.v
Atomic.v
QueueSteps.v
Linear.v
QueueOrder.v
StartRace.v
Restart.v
QueueWitness.v
World.v
Shm.v
ShmSpec.v
Traffic.v
Delivery.v
Ownership.v
Clients.v
ChannelSteps.v
ChannelProto.v
Concurrent.v
Unmanaged.v
UnmanagedSteps.v
ChannelCalls.v
Hostile.v
RxLoop.v
UnmanagedConc.v
Init.v
Boot.v
Startup.v
Instance.v
InstanceSpec.v
AllInstances.v
Mscm.v
Router.v
S32gen1.v
S32g3xx.v
S32r47.v
S32v234.v
HwSpec.v
KernelOs.v
Resources.v
KernelRes.v
KernelLife.v
KernelSpec.v
XenOs.v
UioModule.v
UserOs.v
UioSpec.v
UioLife.v
UserSpec.v
UserRes.v
UserLife.v
OsSpec.v
System.v
SampleLib.v
CfgSample.v
CfgSampleUser.v
CfgMulti.v
CfgMultiUser.v
CfgXen.v
CfgSpec.v
SampleEnv.v
Sample.v
MultiSample.v
XenSample.v
XenDom0less.v
UserSample.v
MultiUserSample.v
CopySpec.v
MessageSpec.v
DemoLoop.v
DemoSpec.v
SampleSystem.v
Witness.v
WitnessChannel.v
WitnessBoot.v
WitnessOs.v
WitnessSample.v
