(* ===== verification/Prelude.v ===== *)
(** * The IPCF shared-memory driver: a verification library

    The program is the inter-platform communication framework driver of
    src/: two cores of a system on chip exchange messages through two blocks of
    shared memory, one written by each, and an inter-core interrupt.  The
    driver is a stack of four layers, and the library follows it.

    ** The program and its model

    - _Dual-ring queues_ (src/ipc-queue.h, src/ipc-queue.c).  A ring per
      direction, the index of the consumer kept in the consumer's own ring, so
      that each end writes its own block only.  [Queue] translates the file;
      [Memory] is the byte-addressed shared memory it works on.  [QueueSteps]
      resolves push, pop and initialisation into single loads and stores, over
      the programs and threads of [Atomic]; run without interruption they are
      the functions of [Queue].
    - _The driver core_ (src/ipc-shm.c, src/ipc-shm.h, src/ipc-types.h).
      Instances, managed channels (pools of buffers whose descriptors travel
      through queues), unmanaged channels (one block of memory and a counter),
      initialisation, transmission, the receive loops.  [Types] has the
      configuration structures, [World] the private data and the state
      ([w_mem], [w_priv], [w_plat]), [Shm] one definition per function.
      [ChannelSteps] has the calls on a managed channel once more, as programs
      that load words and operate on queues ([Clients]), [UnmanagedSteps] the calls
      on an unmanaged channel as programs of single accesses; [ChannelCalls] shows
      that without interruption they are the functions of [Shm].
    - _Interrupt hardware_ (src/hw).  [Mscm] has C structure layout, register
      access and the interface [HwOps] of src/hw/ipc-hw.h; [Router] the code the
      files of S32gen1 and S32g3xx share; [S32gen1], [S32g3xx], [S32r47] and
      [S32v234] the tables and functions of each platform file.
    - _Operating system layers_.  [KernelOs] is src/os_kernel/ipc-os.c,
      [XenOs] is src/os_kernel/ipc-xen.c, [UioModule] is the kernel half of
      the user-space build, src/os_kernel/ipc-uio.c, and [UserOs] its user
      half, src/os_uio/ipc-os.c.
    - _Sample applications_ (src/sample, src/sample_user, src/sample_multi_instance,
      src/sample_multi_instance_user, src/sample_xen).  Each sends numbered
      messages to a peer that echoes them.  [Sample], [UserSample],
      [MultiSample], [MultiUserSample], [XenSample] and [XenDom0less] translate
      the six programs, one definition per function; [SampleLib] is what they
      use of C strings and number formats.  Their configurations, a file per
      system on chip, are the data of [CfgSample], [CfgSampleUser], [CfgMulti],
      [CfgMultiUser] and [CfgXen].

    The layers meet at interfaces that are type classes.  [World.Platform] is
    what ipc-shm.c calls (the functions of ipc-hw.h and ipc-os.h) and
    [World.PlatformLaws] what its theorems use of them: the base addresses are
    stable and the interrupt functions return without touching shared memory.
    [World.App] is the application, that is the receive callbacks, about which
    nothing is assumed in general.  [Mscm.HwOps] and [Mscm.HwOpsLaws] play the
    same part between an operating system layer and a platform file.
    [KernelSpec], [OsSpec] and [UserSpec] discharge [PlatformLaws] for the kernel, the
    Xen and the user-space build, [HwSpec] discharges [HwOpsLaws] for S32gen1, S32g3xx and
    S32R47.  Services of Linux and of POSIX are not code of the repository: they
    are the operations of the classes [KernelOs.Kernel], [UioModule.UioKernel]
    and [UserOs.Posix], for the samples [SampleEnv.SampleKernel], [SampleWait],
    [SamplePosix] and [SamplePosixWait], and the laws a theorem needs of them ([KernelRes.KernelLaws],
    [BusLaws], [PosixLaws], [UserRes.PosixResources], [UioLife.UioResources], ...) are separate classes with instances for the
    simulated kernels of [System], [SampleSystem] and [WitnessOs].

    ** Conventions

    A C function over a state [S] is a computation [M S A]: it returns a value
    and a new state, or [Fault], which stands for undefined behaviour (an
    unmapped address, NULL included, an index outside an array, a division by
    zero, a call through a null function pointer).  Error codes are values.
    Integers are [Z] with the wrap-around of their C type written out ([u8],
    [u16], [u32], [u64], [i8], [i32]); pointers and [uintptr_t] are 64-bit
    addresses.  A pointer parameter the code compares with NULL is an [option]
    or an address compared with [NULL]; an out parameter is part of the result.
    Functions of a file keep their names; a loop or a group of error labels that
    becomes a definition of its own is named after what it does and quotes its
    place in the source.

    Loops.  [cfor n i body] runs [body] for [i], [i+1], ... [n] times with an
    early exit, which is a C [for] with a constant or loaded bound.  Loops
    without such a bound take fuel: [Shm.managed_rx_loop] the budget (each turn
    counts one message or leaves), [Shm.rx_rounds] the budget and one more (each
    round but the last does some work), [UioModule.mmap_pages] the number of
    pages, [UserOs.softirq_drain] a parameter.  [ipc_shm_rx_terminates],
    [ipc_cdev_mmap_pages] and [softirq_drain_terminates] prove the fuel enough.
    In the samples, scans of a string take one turn per mapped byte
    ([SampleLib.scan_fuel_enough]: a longer scan has left the mapped memory), the
    demos one turn per message ([DemoLoop.message_loop_sends]) and at most 256
    channels (the number comes from a [uint8_t]), the copy loops one turn per byte
    ([ipc_memcpy_is_memcpy]); loops that wait for another activity are followed
    for [spin] turns, a parameter, with [meanwhile] for what the rest of the
    system does in a turn.

    ** What the theorems show

    - [QueueSpec] (C1, C6, C7, C10): a well-formed queue is a pair of bounded
      FIFOs, for one call and for every sequence of calls of both ends; each end
      writes its own ring only, whatever is in memory; start-up handshake and restart,
      after which a channel queue is empty and a pool queue full; corrupted indexes are
      refused by both operations, a missing sentinel by popping.
    - [Linear], [QueueOrder] (C2, C3, C5): the queue under concurrent use.  Each
      end has a thread that pushes and one that pops, their accesses interleaved
      in any way; a rely and a guarantee per role give a simulation by two FIFOs
      with atomic operations, hence linearizability, order of delivery at every
      moment of an execution, and wait-freedom.
    - [Clients], [ChannelProto], [Concurrent], [ChannelCalls] (C4, C14, C17): a
      managed channel under concurrent use.  [Clients] lifts linearizability from
      one queue to programs over several; [ChannelProto] says which thread may do
      what with which queue and that each call keeps to it; [Concurrent] shows by
      an invariant over all interleavings of the four calls of both ends that no
      call faults, that sending and releasing never fail and that every buffer is
      in exactly one place at every moment; [ChannelCalls] bounds the accesses of
      a call (at most four pools, 13 accesses per operation on a queue of 8-byte
      descriptors) and relates the calls to those of [Shm].
    - [Hostile] (C15): nothing is assumed of the other core, which may store anything
      anywhere between two accesses of a call.  A call on a managed channel still
      makes a bounded number of accesses, all to mapped memory, writes its own rings
      only and keeps buffers inside the halves; the one exception is the pool number
      of a received descriptor ([WitnessChannel.forged_pool_number]).
    - [UnmanagedConc] (C16): an unmanaged channel under concurrent use.  On each end one
      thread sends and one receives, access by access; the channel is a pair of
      counters with atomic operations.  The simulation gives the results, and
      counting over the executions of the counters what a client can rely on: no
      more callbacks than transmissions, none lost short of 2^32 of them.
    - [StartRace] (C8): both ends initialise a queue at once.  From a memory
      without marks every interleaving ends well;
      [QueueWitness.simultaneous_restarts_redeliver] is an interleaving of two
      restarts over the marks of an earlier run that does not.
    - [Restart] (C9): one end restarts in the middle of traffic, access by access.
      While the other end only sends, the restart is one atomic clearing of both
      directions; [QueueWitness.restart_during_reception_redelivers] is a restart
      while the other end receives, and it is not.
    - [Traffic], [Delivery], [Ownership] (C11 to C13, C18): what sending and
      acquiring do on a managed channel over any platform that satisfies
      [PlatformLaws]; a message reaches the callback of the peer with address,
      size and payload; sequences of calls of the two ends on their own worlds, with
      receive callbacks that call the driver themselves, account for every buffer of
      both ends exactly once, and no queue overflows.
    - [Boot], [Startup], [Instance], [InstanceSpec], [AllInstances] (C19 to C21):
      start-up of an instance with all its channels, of its two ends one after
      the other, which reaches the states the invariants of [Ownership] and
      [Concurrent] start from, and of all instances of a configuration.
    - [RxLoop] (C22, C23): the receive loops end, the work of [ipc_shm_rx] is
      bounded by its budget, every call refuses an unused instance;
      acquiring a buffer of a pool, sending and polling refuse a remote that is not
      ready.
    - [Unmanaged] (C24): without interruption, a transmission bumps the counter and is
      noticed by the peer exactly once.
    - [Init] (C25): life cycle of an instance, refusal of bad
      configurations, exactness of the check of a channel's pools.
    - [HwSpec] (C26 to C28): register layouts and the registers the driver functions
      access against the documented offsets; which configurations initialisation
      accepts, and its register accesses ([HwTrace]); the register a sender raises is
      the one the receiver acknowledges.
    - [KernelSpec] (C29): the transmit path down to the register write.
    - [Resources], [KernelRes], [KernelLife] (C30): initialisation and release of the kernel layer as
      triples over the services of the kernel, and the resources the layer holds
      over every sequence of both: memory regions, and interrupt lines that several
      instances share.  [WitnessOs.refused_line_never_requested] is the case the
      theorem excludes when it says that every line in use is requested.
    - [OsSpec] (C31): polling in all three operating system layers; [PlatformLaws] for
      the Xen layer.
    - [UioSpec] (C32, C34): one owner of a UIO device at most under every
      interleaving of the atomic operations of open and release; page mapping.
      [UioLife] (C33): what the UIO module holds from probe to remove, its character
      device and a UIO device per enabled instance with an interrupt, over every
      sequence of requests up to an initialisation after which tables and devices
      disagree ([UioLife.slip]); [WitnessOs.Uio.free_without_device] and
      [WitnessOs.Uio.probe_succeeds_without_node] are runs of what it singles out.
    - [UserRes], [UserLife] (C35): the same account for the user-space layer, over
      the system calls: mappings, threads and descriptors, the search for the UIO
      device and every error label included.  [UserSpec] has [PlatformLaws] and
      the receive thread of that layer.
      [WitnessOs.User.module_stays_loaded] is a run the account explains.
    - [CfgSpec] (C36): every configuration in the repository is accepted by the
      driver and by the platform it is built for.
    - [CopySpec] (C37), [MessageSpec] (C38): the copy routines of the user-space
      samples are a memory copy; the number written into a message is the number
      read back, within exact limits.
    - [DemoLoop], [DemoSpec] (C39, C40): the demos of the kernel sample
      and of the Xen samples send every message once, in order, and the second
      returns 0 only when all replies are in.  [DemoLoop] has the nest of loops
      all demos share, and that driver calls leave the application's data
      alone.
    - [WitnessOs.failed_init_keeps_mappings] runs an error path that does not do
      what it means to.

    [QueueWitness], [Witness], [WitnessChannel], [WitnessBoot], [WitnessOs] and
    [WitnessSample] apply the theorems to concrete systems.  [System] builds the main one by running [ipc_shm_init] for both
    ends over a simulated S32gen1, so that the hypotheses on well-formed
    channels are met by what the driver itself sets up.  [SampleSystem] loads the
    kernel sample and the Xen sample over it, with an echoing peer; their demos
    run through the whole stack.

    ** What is not modelled

    - Memory barriers and the order in which another core sees the writes of one
      call: memory is sequentially consistent.  The operations of a queue
      and the calls on a managed and on an unmanaged channel interleave access by
      access, the copy of an element byte by byte; the other calls of the driver interleave call by
      call (the claims on the UIO counter, whose code uses atomic operations,
      interleave single operations).  A queue has one pushing and one popping
      thread per end, as the driver's documentation asks for, hence a channel one
      thread per end for each of the four calls, and on an unmanaged channel one thread
      that sends and one that receives (two that send would lose counts: the counter is
      not bumped atomically); a single queue can restart in traffic, the ends of a channel
      start without.
    - What printf makes of a conversion without an argument: the user-space layer
      takes the name of a UIO directory entry as a format; [UserOs.format_alone] leaves
      what follows a percent sign to the environment ([no_argument]).
    - Log messages and the warnings (WARN_ON) of the kernel samples, version
      strings, and licence macros.
    - The firmware of the remote core the samples talk to, which is not in the
      repository.
    - Signals that arrive in the middle of a function of the user-space samples:
      the handlers are functions, what waiting lets happen is a parameter.
    - The tasklet and thread schedulers: softirq, hardirq and the receive thread
      are functions; which of them runs when is up to the kernel.

    ** Plan

    Next: the restart of a whole channel, pools included, access by access; the demos
    of the other samples over [DemoLoop]; what unloading a sample leaves in the shared
    memory; what the Xen layer holds after a failed initialisation. *)

From stdpp Require Export base list list_numbers gmap numbers tactics.
From Stdlib Require Export ZArith Lia.

#[global] Open Scope Z_scope.

(** ** Notations and monad

    A C function that works on a state [S] is a function of type [M S A].
    [Fault] stands for undefined behaviour of the C program: an access through
    a pointer that is not mapped (NULL included), an index outside a static
    array, a division by zero.  Error codes are ordinary values. *)

Declare Scope ipc_scope.
Delimit Scope ipc_scope with ipc.
#[global] Open Scope ipc_scope.

Inductive outcome (S A : Type) : Type :=
| Ret (a : A) (s : S)
| Fault.
Arguments Ret {S A} a s.
Arguments Fault {S A}.

Definition M (S A : Type) : Type := S -> outcome S A.

Definition cret {S A} (a : A) : M S A := fun s => Ret a s.
Definition cfault {S A} : M S A := fun _ => Fault.
Definition cbind {S A B} (c : M S A) (k : A -> M S B) : M S B :=
  fun s => match c s with
           | Ret a s' => k a s'
           | Fault => Fault
           end.
Definition cget {S} : M S S := fun s => Ret s s.
Definition cput {S} (s : S) : M S unit := fun _ => Ret tt s.
Definition cmodify {S} (f : S -> S) : M S unit := fun s => Ret tt (f s).
Definition cgets {S A} (f : S -> A) : M S A := fun s => Ret (f s) s.

(** The value of an array cell or pointed-to object, [Fault] when there is none. *)
Definition copt {S A} (o : option A) : M S A :=
  match o with
  | Some a => cret a
  | None => cfault
  end.

Notation "'let*' x ':=' c 'in' k" := (cbind c (fun x => k))
  (at level 10, x name, c at level 100, k at level 200,
   format "'[v' 'let*'  x  ':='  c  'in' '/' k ']'") : ipc_scope.
Notation "'let*' ' p ':=' c 'in' k" :=
  (cbind c (fun x => match x with p => k end))
  (at level 10, p strict pattern, c at level 100, k at level 200) : ipc_scope.
Notation "c ;;; k" := (cbind c (fun _ : unit => k))
  (at level 199, right associativity) : ipc_scope.

(** Run an operation on a part of the state. *)
Definition czoom {S T A} (getp : S -> T) (setp : T -> S -> S) (c : M T A) : M S A :=
  fun s => match c (getp s) with
           | Ret a t => Ret a (setp t s)
           | Fault => Fault
           end.

(** A [for (i = lo; i < lo + n; i++)] loop whose body may leave the enclosing
    function early with a value of type [R] ([inr]); [inl] is normal completion. *)
Fixpoint cfor {St R} (n : nat) (i : Z) (body : Z -> M St (unit + R)) : M St (unit + R) :=
  match n with
  | O => cret (inl tt)
  | S k =>
      let* r := body i in
      match r with
      | inl _ => cfor k (i + 1) body
      | inr v => cret (inr v)
      end
  end.

(** ** Machine integers *)

Definition u8 (z : Z) : Z := z mod 2 ^ 8.
Definition u16 (z : Z) : Z := z mod 2 ^ 16.
Definition u32 (z : Z) : Z := z mod 2 ^ 32.
Definition u64 (z : Z) : Z := z mod 2 ^ 64.
Definition i8 (z : Z) : Z := (z + 2 ^ 7) mod 2 ^ 8 - 2 ^ 7.
Definition i16 (z : Z) : Z := (z + 2 ^ 15) mod 2 ^ 16 - 2 ^ 15.
Definition i32 (z : Z) : Z := (z + 2 ^ 31) mod 2 ^ 32 - 2 ^ 31.

(** The null pointer. *)
Definition NULL : Z := 0.

(** ** Errno values (asm-generic) *)

Definition ENOENT : Z := 2.
Definition EIO : Z := 5.
Definition ENXIO : Z := 6.
Definition EAGAIN : Z := 11.
Definition ENOMEM : Z := 12.
Definition EACCES : Z := 13.
Definition EFAULT : Z := 14.
Definition EBUSY : Z := 16.
Definition EEXIST : Z := 17.
Definition ENODEV : Z := 19.
Definition EINVAL : Z := 22.
Definition ENONET : Z := 64.
Definition EOPNOTSUPP : Z := 95.
Definition EADDRINUSE : Z := 98.
Definition ENOBUFS : Z := 105.

(** ** Tactics *)

(** Split conjunctions and existentials of the context. *)
Ltac inv_all :=
  repeat match goal with
  | H : _ /\ _ |- _ => destruct H
  | H : exists _, _ |- _ => destruct H
  | H : Ret _ _ = Ret _ _ |- _ => inversion H; clear H; subst
  | H : Fault = Ret _ _ |- _ => discriminate H
  | H : Ret _ _ = Fault |- _ => discriminate H
  | H : Some _ = Some _ |- _ => inversion H; clear H; subst
  end.

(** Turn boolean tests on [Z] of the context into propositions. *)
Ltac bool_to_prop :=
  repeat match goal with
  | H : context [_ || _ = true] |- _ => rewrite orb_true_iff in H
  | H : context [_ || _ = false] |- _ => rewrite orb_false_iff in H
  | H : context [_ && _ = true] |- _ => rewrite andb_true_iff in H
  | H : context [_ && _ = false] |- _ => rewrite andb_false_iff in H
  | H : negb _ = true |- _ => rewrite negb_true_iff in H
  | H : negb _ = false |- _ => rewrite negb_false_iff in H
  | H : (_ =? _) = true |- _ => apply Z.eqb_eq in H
  | H : (_ =? _) = false |- _ => apply Z.eqb_neq in H
  | H : (_ <? _) = true |- _ => apply Z.ltb_lt in H
  | H : (_ <? _) = false |- _ => apply Z.ltb_ge in H
  | H : (_ <=? _) = true |- _ => apply Z.leb_le in H
  | H : (_ <=? _) = false |- _ => apply Z.leb_gt in H
  | H : _ /\ _ |- _ => destruct H
  end.

(** Unfold the monad in the goal. *)
Ltac cunfold := unfold cbind, cret, cfault, cget, cput, cmodify, cgets, copt.

Create HintDb ipc discriminated.
Create Rewrite HintDb ipc.

(** ** Lemmas on machine integers *)

Lemma u8_range z : 0 <= u8 z < 256.
Proof. unfold u8; apply Z.mod_pos_bound; lia. Qed.

Lemma u16_range z : 0 <= u16 z < 65536.
Proof. unfold u16; apply Z.mod_pos_bound; lia. Qed.

Lemma u32_range z : 0 <= u32 z < 4294967296.
Proof. unfold u32; apply Z.mod_pos_bound; lia. Qed.

Lemma u64_range z : 0 <= u64 z < 18446744073709551616.
Proof. unfold u64; apply Z.mod_pos_bound; lia. Qed.

Lemma u8_small z : 0 <= z < 256 -> u8 z = z.
Proof. intros; apply Z.mod_small; lia. Qed.

Lemma u16_small z : 0 <= z < 65536 -> u16 z = z.
Proof. intros; apply Z.mod_small; lia. Qed.

Lemma u32_small z : 0 <= z < 4294967296 -> u32 z = z.
Proof. intros; apply Z.mod_small; lia. Qed.

Lemma u64_small z : 0 <= z < 18446744073709551616 -> u64 z = z.
Proof. intros; apply Z.mod_small; lia. Qed.

Lemma i8_small z : -128 <= z < 128 -> i8 z = z.
Proof. intros; unfold i8. rewrite Z.mod_small by lia. lia. Qed.

Lemma i16_small z : -32768 <= z < 32768 -> i16 z = z.
Proof. intros; unfold i16. rewrite Z.mod_small by lia. lia. Qed.

Lemma i32_small z : - 2 ^ 31 <= z < 2 ^ 31 -> i32 z = z.
Proof. intros; unfold i32. rewrite Z.mod_small by lia. lia. Qed.

#[export] Hint Resolve u8_range u16_range u32_range u64_range : ipc.

(** ** Lemmas on the monad *)

Lemma cbind_Ret {S A B} (c : M S A) (k : A -> M S B) s a s' :
  c s = Ret a s' -> cbind c k s = k a s'.
Proof. unfold cbind; intros ->; reflexivity. Qed.

Lemma cbind_cret {S A B} (a : A) (k : A -> M S B) s : cbind (cret a) k s = k a s.
Proof. reflexivity. Qed.

Lemma if_cret {S A} (b : bool) (x y : A) (s : S) :
  (if b then cret x else cret y) s = Ret (if b then x else y) s.
Proof. now destruct b. Qed.

Lemma cbind_copt {S A B} (a : A) (k : A -> M S B) s : cbind (copt (Some a)) k s = k a s.
Proof. reflexivity. Qed.

Lemma cbind_inv {S A B} (c : M S A) (k : A -> M S B) s b s2 :
  cbind c k s = Ret b s2 ->
  exists a s1, c s = Ret a s1 /\ k a s1 = Ret b s2.
Proof. unfold cbind; destruct (c s) eqn:E; intros; [eauto | discriminate]. Qed.

Lemma cret_inv {S A} (a b : A) (s s' : S) : cret a s = Ret b s' -> b = a /\ s' = s.
Proof. unfold cret; intros E; inversion E; auto. Qed.

Lemma cbind_assoc {S A B C} (c : M S A) (k : A -> M S B) (h : B -> M S C) s :
  cbind (cbind c k) h s = cbind c (fun a => cbind (k a) h) s.
Proof. unfold cbind; destruct (c s); reflexivity. Qed.

(** Rule for a loop that never leaves early: an invariant indexed by the
    counter carries the state from [i] to [i + n]. *)
Lemma cfor_inv {St R} (I : Z -> St -> Prop) (body : Z -> M St (unit + R)) n i s :
  I i s ->
  (forall j t, i <= j < i + Z.of_nat n -> I j t ->
     exists t', body j t = Ret (inl tt) t' /\ I (j + 1) t') ->
  exists s', cfor n i body s = Ret (inl tt) s' /\ I (i + Z.of_nat n) s'.
Proof.
  revert i s; induction n as [|n IH]; intros i s Hi Hstep; simpl.
  - exists s; split; [reflexivity | now rewrite Z.add_0_r].
  - destruct (Hstep i s) as (t & Hb & Ht); [lia | assumption |].
    rewrite (cbind_Ret _ _ _ _ _ Hb).
    destruct (IH (i + 1) t Ht) as (s' & Hs' & HI).
    { intros j u Hj; apply Hstep; lia. }
    exists s'; split; [exact Hs' |].
    now replace (i + Z.of_nat (S n)) with (i + 1 + Z.of_nat n) by lia.
Qed.

(** Rule for a search loop: the body reads, and leaves at the first hit. *)
Lemma cfor_search {St} (b : Z -> bool) (body : Z -> M St (unit + unit)) n i s :
  (forall j, i <= j < i + Z.of_nat n ->
     body j s = Ret (if b j then inr tt else inl tt) s) ->
  cfor n i body s
    = Ret (if existsb b (map (fun k => i + Z.of_nat k) (seq 0 n)) then inr tt else inl tt) s.
Proof.
  revert i; induction n as [|n IH]; intros i Hb; [reflexivity |].
  cbn [cfor]. rewrite (cbind_Ret _ _ _ _ _ (Hb i ltac:(lia))).
  cbn [seq map existsb]. rewrite Z.add_0_r. destruct (b i); cbn [orb]; [reflexivity |].
  rewrite IH by (intros; apply Hb; lia). rewrite <- seq_shift, map_map.
  erewrite map_ext; [reflexivity |]. intros k; cbn beta; lia.
Qed.

(** ** Modular arithmetic *)

(** Congruent numbers at distance less than the modulus are equal. *)
Lemma mod_inj_range x y n : 0 < n -> Z.abs (x - y) < n -> x mod n = y mod n -> x = y.
Proof.
  intros Hn Hd He.
  assert (H : (x - y) mod n = 0) by (rewrite Zminus_mod, He, Z.sub_diag; apply Zmod_0_l).
  apply Z.mod_divide in H as [k Hk]; [| lia].
  rewrite Hk, Z.abs_mul, (Z.abs_eq n) in Hd by lia.
  assert (Z.abs k < 1) by nia. nia.
Qed.

Lemma succ_mod_range x n : 0 < n -> 0 <= (x + 1) mod n < n.
Proof. intros; apply Z.mod_pos_bound; lia. Qed.
