(* ===== verification/Memory.v ===== *)
(** * Byte-addressed memory

    The shared memory the driver works on, and the C objects it reads and
    writes there.  A memory is the list of address ranges that are mapped and
    the bytes stored in them.  An access outside a mapped range is a [Fault].
    Integers are little-endian, as on the Arm cores the driver runs on. *)

From S2P Require Import Prelude.

Record memory : Type := Memory {
  mem_regions : list (Z * Z);   (* base address and size of each mapped range *)
  mem_bytes : gmap Z Z
}.

(** [n] bytes at [a] lie in the range [r]. *)
Definition in_region (a n : Z) (r : Z * Z) : bool :=
  (r.1 <=? a) && (a + n <=? r.1 + r.2).

Definition mapped (m : memory) (a n : Z) : bool :=
  (0 <? a) && existsb (in_region a n) (mem_regions m).

Definition map_region (base size : Z) (m : memory) : memory :=
  Memory ((base, size) :: mem_regions m) (mem_bytes m).

(** Drop the ranges that start at [base]. *)
Definition unmap_region (base : Z) (m : memory) : memory :=
  Memory (List.filter (fun r => negb (r.1 =? base)) (mem_regions m)) (mem_bytes m).

Definition byte_at (f : gmap Z Z) (a : Z) : Z := default 0 (f !! a).

Fixpoint load_bytes (f : gmap Z Z) (a : Z) (n : nat) : list Z :=
  match n with
  | O => []
  | S k => byte_at f a :: load_bytes f (a + 1) k
  end.

Fixpoint store_bytes (f : gmap Z Z) (a : Z) (bs : list Z) : gmap Z Z :=
  match bs with
  | [] => f
  | b :: r => <[a := b]> (store_bytes f (a + 1) r)
  end.

(** Little-endian integers. *)
Fixpoint le_decode (bs : list Z) : Z :=
  match bs with
  | [] => 0
  | b :: r => b + 256 * le_decode r
  end.

Fixpoint le_encode (n : nat) (v : Z) : list Z :=
  match n with
  | O => []
  | S k => v mod 256 :: le_encode k (v / 256)
  end.

(** The unsigned [n]-byte integer stored at [a]. *)
Definition uint_at (n : nat) (m : memory) (a : Z) : Z :=
  le_decode (load_bytes (mem_bytes m) a n).

Definition set_bytes (m : memory) (a : Z) (bs : list Z) : memory :=
  Memory (mem_regions m) (store_bytes (mem_bytes m) a bs).

(** ** Accesses *)

Definition read_uint (n : nat) (a : Z) : M memory Z := fun m =>
  if mapped m a (Z.of_nat n) then Ret (uint_at n m a) m else Fault.

Definition write_uint (n : nat) (a v : Z) : M memory unit := fun m =>
  if mapped m a (Z.of_nat n) then Ret tt (set_bytes m a (le_encode n v)) else Fault.

(** [memcpy] out of and into the shared memory. *)
Definition read_bytes (n : nat) (a : Z) : M memory (list Z) := fun m =>
  if mapped m a (Z.of_nat n) then Ret (load_bytes (mem_bytes m) a n) m else Fault.

Definition write_bytes (a : Z) (bs : list Z) : M memory unit := fun m =>
  if mapped m a (Z.of_nat (length bs)) then Ret tt (set_bytes m a bs) else Fault.

(** ** What an operation leaves alone *)

(** [m'] has the mapping of [m] and its bytes outside [P]. *)
Definition same_except (P : Z -> Prop) (m m' : memory) : Prop :=
  mem_regions m' = mem_regions m /\
  forall a, ~ P a -> byte_at (mem_bytes m') a = byte_at (mem_bytes m) a.

(** The [n] addresses from [a]. *)
Definition range (a n : Z) : Z -> Prop := fun x => a <= x < a + n.

Definition disjoint_ranges (a n b k : Z) : Prop := a + n <= b \/ b + k <= a.

(** ** Lemmas on bytes *)

Lemma load_bytes_length f a n : length (load_bytes f a n) = n.
Proof. revert a; induction n; intros; simpl; auto. Qed.

Lemma load_bytes_lookup f n : forall a k,
  (k < n)%nat -> load_bytes f a n !! k = Some (byte_at f (a + Z.of_nat k)).
Proof.
  induction n as [|n IH]; intros a k Hk; [lia |]. destruct k as [|k]; simpl; [now rewrite Z.add_0_r |].
  rewrite IH by lia. do 2 f_equal. lia.
Qed.

Lemma load_bytes_snoc f a n :
  load_bytes f a (S n) = load_bytes f a n ++ [byte_at f (a + Z.of_nat n)].
Proof.
  revert a; induction n as [|n IH]; intros a; [simpl; now rewrite Z.add_0_r |].
  change (load_bytes f a (S (S n))) with (byte_at f a :: load_bytes f (a + 1) (S n)).
  rewrite IH. cbn [load_bytes app]. do 4 f_equal. lia.
Qed.

Lemma le_encode_length n v : length (le_encode n v) = n.
Proof. revert v; induction n; intros; simpl; auto. Qed.

Lemma byte_at_insert f a b x :
  byte_at (<[a := b]> f) x = if decide (a = x) then b else byte_at f x.
Proof. unfold byte_at. rewrite lookup_insert. case_decide; reflexivity. Qed.

Lemma byte_at_store_ne f a bs x :
  ~ range a (Z.of_nat (length bs)) x -> byte_at (store_bytes f a bs) x = byte_at f x.
Proof.
  revert a; induction bs as [|b r IH]; intros a Hx; simpl; [reflexivity |].
  unfold range in Hx; simpl in Hx.
  rewrite byte_at_insert; case_decide; [lia |].
  apply IH; unfold range; lia.
Qed.

Lemma load_bytes_ext f g a n :
  (forall x, range a (Z.of_nat n) x -> byte_at f x = byte_at g x) ->
  load_bytes f a n = load_bytes g a n.
Proof.
  unfold range; revert a; induction n as [|n IH]; intros a H; simpl; [reflexivity |].
  f_equal; [apply H | apply IH; intros; apply H]; lia.
Qed.

Lemma load_store_same f a bs : load_bytes (store_bytes f a bs) a (length bs) = bs.
Proof.
  revert a; induction bs as [|b r IH]; intros a; simpl; [reflexivity |].
  rewrite byte_at_insert; case_decide; [| lia].
  f_equal. rewrite <- (IH (a + 1)) at 3.
  apply load_bytes_ext; unfold range; intros x Hx.
  rewrite byte_at_insert; case_decide; [lia | reflexivity].
Qed.

Lemma load_store_disjoint f a bs b n :
  disjoint_ranges a (Z.of_nat (length bs)) b (Z.of_nat n) ->
  load_bytes (store_bytes f a bs) b n = load_bytes f b n.
Proof.
  intros Hd; apply load_bytes_ext; intros x Hx.
  apply byte_at_store_ne; unfold range, disjoint_ranges in *; lia.
Qed.

Lemma le_decode_encode n v : le_decode (le_encode n v) = v mod 256 ^ Z.of_nat n.
Proof.
  revert v; induction n as [|n IH]; intros v.
  - now rewrite Z.mod_1_r.
  - cbn [le_encode le_decode]. rewrite IH, Nat2Z.inj_succ, Z.pow_succ_r by lia.
    now rewrite Z.rem_mul_r by (try apply Z.pow_nonzero; lia).
Qed.

(** A value that fits its width is read back unchanged. *)
Lemma le_decode_encode_small n v :
  0 <= v < 256 ^ Z.of_nat n -> le_decode (le_encode n v) = v.
Proof. intros; rewrite le_decode_encode; now apply Z.mod_small. Qed.

(** ** Lemmas on memories *)

Lemma set_bytes_same_except (P : Z -> Prop) m a bs :
  (forall x, range a (Z.of_nat (length bs)) x -> P x) -> same_except P m (set_bytes m a bs).
Proof.
  intros HP; split; [reflexivity |]. intros x Hx; simpl.
  apply byte_at_store_ne; auto.
Qed.

#[export] Instance same_except_refl P : Reflexive (same_except P).
Proof. intros m; split; auto. Qed.

#[export] Instance same_except_trans P : Transitive (same_except P).
Proof.
  intros m1 m2 m3 [R1 B1] [R2 B2]; split; [congruence |].
  intros a Ha; rewrite B2, B1; auto.
Qed.

Lemma same_except_mono (P Q : Z -> Prop) m m' :
  (forall a, P a -> Q a) -> same_except P m m' -> same_except Q m m'.
Proof. intros HPQ [HR HB]; split; auto. Qed.

Lemma same_except_mapped P m m' a n :
  same_except P m m' -> mapped m' a n = mapped m a n.
Proof. intros [HR _]; unfold mapped; now rewrite HR. Qed.

Lemma same_except_load P m m' a n :
  same_except P m m' -> (forall x, range a (Z.of_nat n) x -> ~ P x) ->
  load_bytes (mem_bytes m') a n = load_bytes (mem_bytes m) a n.
Proof. intros [_ HB] Hd; apply load_bytes_ext; auto. Qed.

Lemma same_except_uint P m m' a n :
  same_except P m m' -> (forall x, range a (Z.of_nat n) x -> ~ P x) ->
  uint_at n m' a = uint_at n m a.
Proof. intros H Hd; unfold uint_at; erewrite same_except_load by eauto; reflexivity. Qed.

Lemma uint_at_set_same n m a v :
  0 <= v < 256 ^ Z.of_nat n -> uint_at n (set_bytes m a (le_encode n v)) a = v.
Proof.
  intros Hv; unfold uint_at, set_bytes; simpl.
  rewrite <- (le_encode_length n v) at 2.
  rewrite load_store_same; now apply le_decode_encode_small.
Qed.

Lemma uint_at_set_disjoint n m a bs b :
  disjoint_ranges a (Z.of_nat (length bs)) b (Z.of_nat n) ->
  uint_at n (set_bytes m a bs) b = uint_at n m b.
Proof. intros; unfold uint_at, set_bytes; simpl. now rewrite load_store_disjoint. Qed.

Lemma mapped_sub m a n b k :
  mapped m a n = true -> a <= b -> b + k <= a + n -> mapped m b k = true.
Proof.
  unfold mapped, in_region; intros H H1 H2.
  apply andb_true_iff in H as [Ha He]. apply Z.ltb_lt in Ha.
  apply existsb_exists in He as (r & Hin & Hr); bool_to_prop.
  apply andb_true_iff; split; [apply Z.ltb_lt; lia |].
  apply existsb_exists; exists r; split; [exact Hin |].
  apply andb_true_iff; split; apply Z.leb_le; lia.
Qed.

(** A value as wide as its cell. *)
Definition bytes_ok (bs : list Z) : Prop := Forall (fun b => 0 <= b < 256) bs.

Lemma le_encode_ok n v : bytes_ok (le_encode n v).
Proof.
  revert v; induction n as [|n IH]; intros v; simpl; constructor; [| apply IH].
  apply Z.mod_pos_bound; lia.
Qed.

Lemma le_decode_range bs : bytes_ok bs -> 0 <= le_decode bs < 256 ^ Z.of_nat (length bs).
Proof.
  induction 1 as [|b r Hb Hr IH]; simpl le_decode; [simpl; lia |].
  cbn [length]; rewrite Nat2Z.inj_succ, Z.pow_succ_r by lia. lia.
Qed.

Lemma le_encode_decode bs : bytes_ok bs -> le_encode (length bs) (le_decode bs) = bs.
Proof.
  induction 1 as [|b r Hb Hr IH]; simpl; [reflexivity |].
  replace (b + 256 * le_decode r) with (b + le_decode r * 256) by lia.
  rewrite Z.mod_add, Z.mod_small, Z.div_add, Z.div_small, Z.add_0_l by lia.
  now rewrite IH.
Qed.

(** ** Evaluation of accesses *)

Lemma read_uint_ok n a m :
  mapped m a (Z.of_nat n) = true -> read_uint n a m = Ret (uint_at n m a) m.
Proof. unfold read_uint; intros ->; reflexivity. Qed.

Lemma write_uint_ok n a v m :
  mapped m a (Z.of_nat n) = true ->
  write_uint n a v m = Ret tt (set_bytes m a (le_encode n v)).
Proof. unfold write_uint; intros ->; reflexivity. Qed.

Lemma read_bytes_ok n a m :
  mapped m a (Z.of_nat n) = true ->
  read_bytes n a m = Ret (load_bytes (mem_bytes m) a n) m.
Proof. unfold read_bytes; intros ->; reflexivity. Qed.

Lemma write_bytes_ok a bs m :
  mapped m a (Z.of_nat (length bs)) = true ->
  write_bytes a bs m = Ret tt (set_bytes m a bs).
Proof. unfold write_bytes; intros ->; reflexivity. Qed.

Lemma read_uint_inv n a m v m' :
  read_uint n a m = Ret v m' -> m' = m /\ v = uint_at n m a /\ mapped m a (Z.of_nat n) = true.
Proof. unfold read_uint; case_match; intros E; inversion E; auto. Qed.

Lemma write_uint_inv n a v m u m' :
  write_uint n a v m = Ret u m' ->
  m' = set_bytes m a (le_encode n v) /\ mapped m a (Z.of_nat n) = true.
Proof. unfold write_uint; case_match; intros E; inversion E; auto. Qed.

Lemma read_bytes_inv n a m v m' :
  read_bytes n a m = Ret v m' ->
  m' = m /\ v = load_bytes (mem_bytes m) a n /\ mapped m a (Z.of_nat n) = true.
Proof. unfold read_bytes; case_match; intros E; inversion E; auto. Qed.

Lemma write_bytes_inv a bs m u m' :
  write_bytes a bs m = Ret u m' ->
  m' = set_bytes m a bs /\ mapped m a (Z.of_nat (length bs)) = true.
Proof. unfold write_bytes; case_match; intros E; inversion E; auto. Qed.

Lemma mapped_set m a bs b n : mapped (set_bytes m a bs) b n = mapped m b n.
Proof. reflexivity. Qed.

#[export] Hint Rewrite mapped_set load_bytes_length le_encode_length : ipc.

(** Every stored byte is a byte. *)
Definition mem_ok (m : memory) : Prop := forall x, 0 <= byte_at (mem_bytes m) x < 256.

Lemma load_bytes_ok m a n : mem_ok m -> bytes_ok (load_bytes (mem_bytes m) a n).
Proof.
  intros H; revert a; induction n as [|n IH]; intros a; constructor; [apply H | apply IH].
Qed.

Lemma uint_at_range n m a : mem_ok m -> 0 <= uint_at n m a < 256 ^ Z.of_nat n.
Proof.
  intros H. assert (E := le_decode_range _ (load_bytes_ok m a n H)).
  now rewrite load_bytes_length in E.
Qed.

Lemma set_bytes_ok m a bs : mem_ok m -> bytes_ok bs -> mem_ok (set_bytes m a bs).
Proof.
  unfold mem_ok, set_bytes; simpl. intros H Hb; revert a; induction Hb as [|b r Hb Hr IH];
    intros a x; [apply H |]. cbn [store_bytes]. rewrite byte_at_insert. case_decide; auto.
Qed.

(** Read a computation that returned from its result backwards. *)
Ltac cinv :=
  repeat match goal with
  | H : cbind _ _ _ = Ret _ _ |- _ =>
      let E := fresh "E" in apply cbind_inv in H as (? & ? & E & H)
  | H : read_uint _ _ _ = Ret _ _ |- _ => apply read_uint_inv in H as (-> & -> & ?)
  | H : write_uint _ _ _ _ = Ret _ _ |- _ => apply write_uint_inv in H as (-> & ?)
  | H : read_bytes _ _ _ = Ret _ _ |- _ => apply read_bytes_inv in H as (-> & -> & ?)
  | H : write_bytes _ _ _ = Ret _ _ |- _ => apply write_bytes_inv in H as (-> & ?)
  | H : cret _ _ = Ret ?b _ |- _ => apply cret_inv in H as [?E ->]; try subst b
  | H : cfault _ = Ret _ _ |- _ => discriminate H
  | H : (if ?b then _ else _) _ = Ret _ _ |- _ => destruct b eqn:?
  end.

#[global] Arguments load_bytes : simpl never.
#[global] Arguments store_bytes : simpl never.
#[global] Arguments le_encode : simpl never.
#[global] Arguments le_decode : simpl never.
