(* ===== verification/Types.v ===== *)
(** * Configuration data (src/ipc-types.h)

    The constants and the configuration structures an application passes to
    the driver.  Pointers to functions and opaque arguments are addresses
    ([NULL] is 0); a pointer to a configuration array is an [option] of the
    list of its elements. *)

From S2P Require Import Prelude.

(** ** Constants *)

Definition IPC_UINT16_MAX : Z := 0xFFFF.
Definition IPC_SHM_MAX_BUFS_PER_CHANNEL : Z := IPC_UINT16_MAX - 1.
Definition IPC_SHM_MAX_UMNG_SIZE : Z := IPC_UINT16_MAX.

(** Magic numbers of a queue that is being initialised and of one that is. *)
Definition IPC_QUEUE_INIT_IN_PROGRESS : Z := 0x54494E4946435049.
Definition IPC_QUEUE_INIT_DONE : Z := 0x474E495246435049.

Definition IPC_IRQ_NONE : Z := -1.
Definition IPC_SHM_MAX_CHANNELS : Z := 8.
Definition IPC_SHM_MAX_POOLS : Z := 4.
Definition IPC_SHM_MAX_BUFS_PER_POOL : Z := 4096.
Definition IPC_SHM_MAX_INSTANCES : Z := 4.

(** ** Enumerations

    The last constructor of the first two holds a value outside the
    enumeration, which the driver checks for. *)

Inductive ipc_shm_channel_type : Type :=
| IPC_SHM_MANAGED
| IPC_SHM_UNMANAGED
| IPC_SHM_TYPE_UNKNOWN (v : Z).

Inductive ipc_shm_queue_type : Type :=
| IPC_SHM_CHANNEL_QUEUE
| IPC_SHM_POOL_QUEUE
| IPC_SHM_QUEUE_UNKNOWN (v : Z).

Inductive ipc_shm_core_type : Type :=
| IPC_CORE_DEFAULT
| IPC_CORE_A53
| IPC_CORE_M7
| IPC_CORE_M4
| IPC_CORE_Z7
| IPC_CORE_Z4
| IPC_CORE_Z2
| IPC_CORE_R52
| IPC_CORE_M33
| IPC_CORE_BBE32
| IPC_CORE_KQ8.

(** Core indexes are bits of a mask. *)
Definition IPC_CORE_INDEX_0 : Z := 0x01.
Definition IPC_CORE_INDEX_1 : Z := 0x02.
Definition IPC_CORE_INDEX_2 : Z := 0x04.
Definition IPC_CORE_INDEX_3 : Z := 0x08.
Definition IPC_CORE_INDEX_4 : Z := 0x10.
Definition IPC_CORE_INDEX_5 : Z := 0x20.
Definition IPC_CORE_INDEX_6 : Z := 0x40.
Definition IPC_CORE_INDEX_7 : Z := 0x80.

#[export] Instance channel_type_eq_dec : EqDecision ipc_shm_channel_type.
Proof. solve_decision. Defined.

#[export] Instance queue_type_eq_dec : EqDecision ipc_shm_queue_type.
Proof. solve_decision. Defined.

#[export] Instance core_type_eq_dec : EqDecision ipc_shm_core_type.
Proof. solve_decision. Defined.

(** ** Structures *)

Record ipc_shm_pool_cfg : Type := PoolCfg {
  pc_num_bufs : Z;   (* uint16_t *)
  pc_buf_size : Z    (* uint32_t *)
}.

Record ipc_shm_managed_cfg : Type := ManagedCfg {
  mc_num_pools : Z;  (* uint8_t *)
  mc_pools : option (list ipc_shm_pool_cfg);
  mc_rx_cb : Z;
  mc_cb_arg : Z
}.

Record ipc_shm_unmanaged_cfg : Type := UnmanagedCfg {
  uc_size : Z;       (* uint32_t *)
  uc_rx_cb : Z;
  uc_cb_arg : Z
}.

(** The type tag with the union member it selects. *)
Inductive ipc_shm_channel_cfg : Type :=
| ChannelManaged (c : ipc_shm_managed_cfg)
| ChannelUnmanaged (c : ipc_shm_unmanaged_cfg)
| ChannelUnknown (v : Z).

Definition cc_type (c : ipc_shm_channel_cfg) : ipc_shm_channel_type :=
  match c with
  | ChannelManaged _ => IPC_SHM_MANAGED
  | ChannelUnmanaged _ => IPC_SHM_UNMANAGED
  | ChannelUnknown v => IPC_SHM_TYPE_UNKNOWN v
  end.

Record ipc_shm_remote_core : Type := RemoteCore {
  rc_type : ipc_shm_core_type;
  rc_index : Z
}.

Record ipc_shm_local_core : Type := LocalCore {
  lc_type : ipc_shm_core_type;
  lc_index : Z;
  lc_trusted : Z     (* uint32_t *)
}.

Record ipc_shm_cfg : Type := ShmCfg {
  cfg_local_shm_addr : Z;       (* uintptr_t *)
  cfg_remote_shm_addr : Z;      (* uintptr_t *)
  cfg_shm_size : Z;             (* uint32_t *)
  cfg_inter_core_tx_irq : Z;    (* int16_t *)
  cfg_inter_core_rx_irq : Z;    (* int16_t *)
  cfg_local_core : ipc_shm_local_core;
  cfg_remote_core : ipc_shm_remote_core;
  cfg_num_channels : Z;         (* uint8_t *)
  cfg_channels : option (list ipc_shm_channel_cfg)
}.

Record ipc_shm_instances_cfg : Type := InstancesCfg {
  ic_num_instances : Z;         (* uint8_t *)
  ic_shm_cfg : list ipc_shm_cfg
}.
