(* ===== verification/Queue.v ===== *)
(** * Dual-ring queue (src/ipc-queue.h, src/ipc-queue.c)

    A queue has a push ring in local shared memory and a pop ring in remote
    shared memory.  A ring is a header (sentinel, write index, read index)
    followed by [elem_num] slots of [elem_size] bytes.  The read index of a
    direction is kept in the header of the *consumer's* ring, so that every
    operation writes local memory only. *)

From S2P Require Import Prelude Memory Types.

(** ** struct ipc_ring: field offsets and accessors *)

Definition RING_SENTINEL : Z := 0.
Definition RING_WRITE : Z := 8.
Definition RING_READ : Z := 12.
Definition RING_DATA : Z := 16.
(** sizeof(struct ipc_ring), the data member being a flexible array. *)
Definition RING_SIZE : Z := 16.

Definition ring_sentinel (r : Z) : M memory Z := read_uint 8 (r + RING_SENTINEL).
Definition ring_write (r : Z) : M memory Z := read_uint 4 (r + RING_WRITE).
Definition ring_read (r : Z) : M memory Z := read_uint 4 (r + RING_READ).
Definition set_ring_sentinel (r v : Z) : M memory unit := write_uint 8 (r + RING_SENTINEL) v.
Definition set_ring_write (r v : Z) : M memory unit := write_uint 4 (r + RING_WRITE) v.
Definition set_ring_read (r v : Z) : M memory unit := write_uint 4 (r + RING_READ) v.

(** ** struct ipc_queue, struct ipc_queue_data *)

Record ipc_queue : Type := Queue {
  elem_size : Z;     (* uint8_t *)
  elem_num : Z;      (* uint16_t *)
  push_ring : Z;
  pop_ring : Z
}.

Record ipc_queue_data : Type := QueueData {
  qd_elem_size : Z;  (* uint8_t *)
  qd_elem_num : Z;   (* uint16_t *)
  qd_queue_type : ipc_shm_queue_type;
  qd_push_addr : Z;
  qd_pop_addr : Z
}.

(** Unsigned remainder; a zero divisor is undefined. *)
Definition umod (a b : Z) : M memory Z :=
  if b =? 0 then cfault else cret (a mod b).

Definition ipc_queue_check_integrity (q : ipc_queue) : M memory Z :=
  let* s1 := ring_sentinel (pop_ring q) in
  if negb (IPC_QUEUE_INIT_DONE =? s1) then cret (- EINVAL) else
  let* s2 := ring_sentinel (push_ring q) in
  if IPC_QUEUE_INIT_DONE =? s2 then cret 0 else cret (- EINVAL).

(** [buf] is the destination; the second component is what [memcpy] stored
    there, [None] when nothing was copied. *)
Definition ipc_queue_pop (queue : option ipc_queue) (buf : bool) :
    M memory (Z * option (list Z)) :=
  match queue with
  | None => cret (- EINVAL, None)
  | Some q =>
    if negb buf then cret (- EINVAL, None) else
    if (push_ring q =? NULL) || (pop_ring q =? NULL) then cret (- EINVAL, None) else
    let* write := ring_write (pop_ring q) in
    (* read indexes of push/pop rings are swapped *)
    let* read := ring_read (push_ring q) in
    let* ok := ipc_queue_check_integrity q in
    if negb (ok =? 0) || (elem_num q <=? read) || (elem_num q <=? write) then
      cret (- EINVAL, None)
    else if read =? write then cret (- ENOBUFS, None)
    else
      let* e := read_bytes (Z.to_nat (elem_size q))
                  (pop_ring q + RING_DATA + u32 (read * elem_size q)) in
      let* next := umod (u32 (read + 1)) (elem_num q) in
      set_ring_read (push_ring q) next ;;;
      cret (0, Some e)
  end.

(** [buf] is the element to copy, [None] for a null pointer; copying more than
    it holds is undefined. *)
Definition ipc_queue_push (queue : option ipc_queue) (buf : option (list Z)) : M memory Z :=
  match queue, buf with
  | Some q, Some b =>
    if (push_ring q =? NULL) || (pop_ring q =? NULL) then cret (- EINVAL) else
    let* write := ring_write (push_ring q) in
    (* read indexes of push/pop rings are swapped *)
    let* read := ring_read (pop_ring q) in
    if (elem_num q <=? read) || (elem_num q <=? write) then cret (- EINVAL) else
    let* next := umod (u32 (write + 1)) (elem_num q) in
    if next =? read then cret (- ENOMEM) else
    if Z.of_nat (length b) <? elem_size q then cfault else
    write_bytes (push_ring q + RING_DATA + u32 (write * elem_size q))
      (take (Z.to_nat (elem_size q)) b) ;;;
    let* next := umod (u32 (write + 1)) (elem_num q) in
    set_ring_write (push_ring q) next ;;;
    cret 0
  | _, _ => cret (- EINVAL)
  end.

Definition ipc_queue_sync_index (q : ipc_queue) (t : ipc_shm_queue_type) : M memory Z :=
  let* s := ring_sentinel (pop_ring q) in
  if s =? IPC_QUEUE_INIT_IN_PROGRESS then cret (- EAGAIN) else
  set_ring_sentinel (push_ring q) IPC_QUEUE_INIT_IN_PROGRESS ;;;
  let* s := ring_sentinel (pop_ring q) in
  if s =? IPC_QUEUE_INIT_DONE then
    let* r := ring_read (pop_ring q) in
    set_ring_write (push_ring q) r ;;;
    let* w := ring_write (pop_ring q) in
    let* v := match t with
              | IPC_SHM_CHANNEL_QUEUE => umod w (elem_num q)
              | _ => umod (u32 (w + 1)) (elem_num q)
              end in
    set_ring_read (push_ring q) v ;;;
    cret 0
  else
    set_ring_write (push_ring q) 0 ;;;
    set_ring_read (push_ring q) 0 ;;;
    cret 0.

(** The structure behind [queue] as the function leaves it is the second
    component. *)
Definition ipc_queue_init (queue : option ipc_queue) (d : ipc_queue_data) :
    M memory (Z * option ipc_queue) :=
  match queue with
  | None => cret (- EINVAL, None)
  | Some q0 =>
    if (qd_push_addr d =? NULL) || (qd_pop_addr d =? NULL)
       || (qd_elem_num d =? 0) || (qd_elem_size d =? 0)
       || negb (qd_elem_size d mod 8 =? 0)
       || match qd_queue_type d with IPC_SHM_QUEUE_UNKNOWN _ => true | _ => false end
    then cret (- EINVAL, Some q0) else
    let q := Queue (qd_elem_size d) (u16 (qd_elem_num d + 1))
                   (qd_push_addr d) (qd_pop_addr d) in
    let* err := ipc_queue_sync_index q (qd_queue_type d) in
    cret (err, Some q)
  end.

Definition ipc_queue_free (queue : option ipc_queue) : M memory (option ipc_queue) :=
  match queue with
  | None => cret None
  | Some q =>
    if push_ring q =? NULL then cret (Some q) else
    let* s := ring_sentinel (push_ring q) in
    if (s =? IPC_QUEUE_INIT_DONE) || (s =? IPC_QUEUE_INIT_IN_PROGRESS) then
      set_ring_sentinel (push_ring q) 0 ;;;
      set_ring_write (push_ring q) 0 ;;;
      set_ring_read (push_ring q) 0 ;;;
      cret (Some (Queue 0 0 NULL (pop_ring q)))
    else
      cret (Some (Queue (elem_size q) (elem_num q) NULL (pop_ring q)))
  end.

Definition ipc_queue_mem_size (q : ipc_queue) : Z :=
  u32 (RING_SIZE + u32 (elem_num q * elem_size q)).

#[global] Arguments ipc_queue_pop : simpl never.
#[global] Arguments ipc_queue_push : simpl never.
#[global] Arguments ipc_queue_init : simpl never.
#[global] Arguments ipc_queue_free : simpl never.
