(* ===== verification/QueueSpec.v ===== *)
(** * The queue as a bounded FIFO

    One direction of a queue (a [link]) is a ring of the producer, which holds
    the write index and the slots, and the read index in the header of the
    consumer's ring.  [contents] reads the abstract FIFO off the memory; the
    operations of [Queue] are shown to implement the list operations
    [fifo_push] and [fifo_pop], for one call and for every sequence of calls
    of the two ends. *)

From S2P Require Import Prelude Memory Types Queue.

(** ** Abstract specification *)

Definition fifo_push (cap : Z) (l : list (list Z)) (e : list Z) : Z * list (list Z) :=
  if Z.of_nat (length l) <? cap then (0, l ++ [e]) else (- ENOMEM, l).

Definition fifo_pop (l : list (list Z)) : Z * option (list Z) * list (list Z) :=
  match l with
  | [] => (- ENOBUFS, None, [])
  | e :: r => (0, Some e, r)
  end.

(** ** Abstraction of a link *)

Record link : Type := Link {
  l_prod : Z;    (* ring of the producer: write index and slots *)
  l_cons : Z;    (* ring of the consumer: read index *)
  l_num : Z;
  l_size : Z
}.

Definition tx_link (q : ipc_queue) : link :=
  Link (push_ring q) (pop_ring q) (elem_num q) (elem_size q).
Definition rx_link (q : ipc_queue) : link :=
  Link (pop_ring q) (push_ring q) (elem_num q) (elem_size q).

(** The queue of the other end. *)
Definition mirror (q : ipc_queue) : ipc_queue :=
  Queue (elem_size q) (elem_num q) (pop_ring q) (push_ring q).

Definition link_write (m : memory) (l : link) : Z := uint_at 4 m (l_prod l + RING_WRITE).
Definition link_read (m : memory) (l : link) : Z := uint_at 4 m (l_cons l + RING_READ).
Definition slot_addr (l : link) (i : Z) : Z := l_prod l + RING_DATA + i * l_size l.
Definition slot (m : memory) (l : link) (i : Z) : list Z :=
  load_bytes (mem_bytes m) (slot_addr l i) (Z.to_nat (l_size l)).
Definition link_count (m : memory) (l : link) : Z :=
  (link_write m l - link_read m l) mod l_num l.
Definition contents (m : memory) (l : link) : list (list Z) :=
  (fun k : nat => slot m l ((link_read m l + Z.of_nat k) mod l_num l))
    <$> seq 0 (Z.to_nat (link_count m l)).

(** Bytes a ring of the link occupies. *)
Definition ring_bytes (l : link) : Z := RING_SIZE + l_num l * l_size l.

(** The rings of a link are mapped, apart, and at most as long as the 16-bit
    element count and 8-bit element size allow. *)
Record link_shape (m : memory) (l : link) : Prop := {
  ls_num : 0 < l_num l < 65536;
  ls_size : 0 < l_size l < 256;
  ls_prod : mapped m (l_prod l) (ring_bytes l) = true;
  ls_cons : mapped m (l_cons l) (ring_bytes l) = true;
  ls_disj : disjoint_ranges (l_prod l) (ring_bytes l) (l_cons l) (ring_bytes l)
}.

(** ... and the indexes are inside the ring. *)
Record link_wf (m : memory) (l : link) : Prop := {
  lw_shape :> link_shape m l;
  lw_write : 0 <= link_write m l < l_num l;
  lw_read : 0 <= link_read m l < l_num l
}.

Definition ring_done (m : memory) (r : Z) : Prop :=
  uint_at 8 m (r + RING_SENTINEL) = IPC_QUEUE_INIT_DONE.

(** Both directions in order and both sentinels set. *)
Record queue_wf (m : memory) (q : ipc_queue) : Prop := {
  qw_tx : link_wf m (tx_link q);
  qw_rx : link_wf m (rx_link q);
  qw_push_done : ring_done m (push_ring q);
  qw_pop_done : ring_done m (pop_ring q)
}.

(** Addresses a push may write: one slot and the write index, both in the
    producer's ring. *)
Definition push_footprint (m : memory) (l : link) (x : Z) : Prop :=
  range (slot_addr l (link_write m l)) (l_size l) x \/ range (l_prod l + RING_WRITE) 4 x.

(** ** Index arithmetic *)

Lemma count_range w r n : 0 < n -> 0 <= (w - r) mod n < n.
Proof. intros; apply Z.mod_pos_bound; lia. Qed.

Lemma count_next w r n : 0 < n -> 0 <= w < n -> (r + (w - r) mod n) mod n = w.
Proof.
  intros Hn Hw. rewrite Zplus_mod_idemp_r.
  replace (r + (w - r)) with w by lia. now apply Z.mod_small.
Qed.

Lemma succ_full w r n :
  0 < n -> 0 <= w < n -> 0 <= r < n ->
  ((w + 1) mod n = r <-> (w - r) mod n = n - 1).
Proof.
  intros Hn Hw Hr.
  assert (Hc := count_range w r n Hn). assert (Hx := count_next w r n Hn Hw).
  split; intros H.
  - assert (E : ((w - r) mod n + 1) mod n = 0).
    { rewrite Zplus_mod_idemp_l. replace (w - r + 1) with (w + 1 - r) by lia.
      rewrite <- Zminus_mod_idemp_l, H, Z.sub_diag. apply Zmod_0_l. }
    destruct (Z.eq_dec ((w - r) mod n) (n - 1)); [assumption |].
    rewrite Z.mod_small in E by lia. lia.
  - rewrite <- Hx, Zplus_mod_idemp_l, H.
    replace (r + (n - 1) + 1) with (r + 1 * n) by lia.
    rewrite Z.mod_add by lia. now apply Z.mod_small.
Qed.

Lemma count_push w r n :
  0 < n -> 0 <= w < n -> 0 <= r < n -> (w + 1) mod n <> r ->
  ((w + 1) mod n - r) mod n = (w - r) mod n + 1.
Proof.
  intros Hn Hw Hr Hne.
  assert (Hc := count_range w r n Hn).
  assert (Hf : (w - r) mod n <> n - 1) by (intros E; apply Hne, succ_full; auto).
  rewrite Zminus_mod_idemp_l. replace (w + 1 - r) with ((w - r) + 1) by lia.
  rewrite <- Zplus_mod_idemp_l. apply Z.mod_small; lia.
Qed.

Lemma count_zero w r n : 0 < n -> 0 <= w < n -> 0 <= r < n -> ((w - r) mod n = 0 <-> r = w).
Proof.
  intros Hn Hw Hr; split; intros H; [| subst; rewrite Z.sub_diag; apply Zmod_0_l].
  assert (Hx := count_next w r n Hn Hw). rewrite H, Z.add_0_r, Z.mod_small in Hx; lia.
Qed.

Lemma count_pop w r n :
  0 < n -> 0 <= w < n -> 0 <= r < n -> r <> w ->
  (w - (r + 1) mod n) mod n = (w - r) mod n - 1.
Proof.
  intros Hn Hw Hr Hne.
  assert (Hc := count_range w r n Hn).
  assert ((w - r) mod n <> 0) by (rewrite count_zero; auto).
  rewrite Zminus_mod_idemp_r. replace (w - (r + 1)) with ((w - r) + - 1) by lia.
  rewrite <- Zplus_mod_idemp_l, Z.mod_small; lia.
Qed.

(** Positions of queued elements are not the write position. *)
Lemma queued_ne_write w r n k :
  0 < n -> 0 <= w < n -> 0 <= k < (w - r) mod n -> (r + k) mod n <> w.
Proof.
  intros Hn Hw Hk E.
  assert (Hc := count_range w r n Hn). assert (Hx := count_next w r n Hn Hw).
  rewrite <- Hx in E. apply mod_inj_range in E; lia.
Qed.

(** ** Layout of a ring *)

Lemma slot_in_ring l i :
  0 < l_size l -> 0 <= i < l_num l ->
  l_prod l + RING_DATA <= slot_addr l i /\
  slot_addr l i + l_size l <= l_prod l + ring_bytes l.
Proof. unfold slot_addr, ring_bytes, RING_DATA, RING_SIZE; intros; nia. Qed.

Lemma slots_disjoint l i j :
  0 < l_size l -> i <> j ->
  disjoint_ranges (slot_addr l i) (l_size l) (slot_addr l j) (l_size l).
Proof. unfold slot_addr, disjoint_ranges; intros; nia. Qed.

Lemma slot_mul_u32 m l i :
  link_shape m l -> 0 <= i < l_num l -> u32 (i * l_size l) = i * l_size l.
Proof. intros [] Hi; apply u32_small; nia. Qed.

Lemma header_mapped m r n off k :
  mapped m r (RING_SIZE + n) = true -> 0 <= n -> 0 <= off -> off + k <= RING_SIZE ->
  mapped m (r + off) k = true.
Proof. intros; eapply mapped_sub; eauto; lia. Qed.

Lemma ring_bytes_ge m l : link_shape m l -> RING_SIZE <= ring_bytes l.
Proof. intros []; unfold ring_bytes; nia. Qed.

Lemma link_header_mapped m l off k :
  link_shape m l -> 0 <= off -> off + k <= RING_SIZE ->
  mapped m (l_prod l + off) k = true /\ mapped m (l_cons l + off) k = true.
Proof. intros []; intros; split; eapply header_mapped; eauto; nia. Qed.

Lemma slot_mapped m l i :
  link_shape m l -> 0 <= i < l_num l -> mapped m (slot_addr l i) (l_size l) = true.
Proof.
  intros H Hi. destruct (slot_in_ring l i) as [H1 H2]; [apply H | exact Hi |].
  eapply mapped_sub; [apply (ls_prod _ _ H) | |]; unfold RING_DATA in *; lia.
Qed.

Lemma link_ring_nonnull m l : link_shape m l -> l_prod l <> NULL /\ l_cons l <> NULL.
Proof.
  intros []; unfold mapped, NULL in *.
  apply andb_true_iff in ls_prod0 as [H1 _]; apply andb_true_iff in ls_cons0 as [H2 _].
  bool_to_prop; lia.
Qed.

(** ** [contents] under a change of memory *)

Lemma contents_ext m m' l :
  link_write m' l = link_write m l -> link_read m' l = link_read m l ->
  (forall i, 0 <= i < l_num l -> slot m' l i = slot m l i) -> 0 < l_num l ->
  contents m' l = contents m l.
Proof.
  intros Hw Hr Hs Hn. unfold contents, link_count. rewrite Hw, Hr.
  apply list_fmap_ext; intros k x _. apply Hs, Z.mod_pos_bound, Hn.
Qed.

Lemma contents_length m l : 0 < l_num l -> Z.of_nat (length (contents m l)) = link_count m l.
Proof.
  intros. unfold contents. rewrite length_fmap, length_seq, Z2Nat.id; [reflexivity |].
  apply count_range; assumption.
Qed.

Lemma contents_empty m l :
  0 < l_num l -> link_read m l = link_write m l -> contents m l = [].
Proof.
  intros Hn E. unfold contents, link_count. now rewrite E, Z.sub_diag, Zmod_0_l.
Qed.

(** Writing the slot at the write index and advancing it appends. *)
Lemma contents_push m m' l e :
  link_wf m l ->
  (link_write m l + 1) mod l_num l <> link_read m l ->
  link_write m' l = (link_write m l + 1) mod l_num l ->
  link_read m' l = link_read m l ->
  slot m' l (link_write m l) = e ->
  (forall i, 0 <= i < l_num l -> i <> link_write m l -> slot m' l i = slot m l i) ->
  contents m' l = contents m l ++ [e].
Proof.
  intros Hwf Hne Hw Hr He Hs.
  assert (Hn := ls_num _ _ (lw_shape _ _ Hwf)).
  destruct Hwf as [_ Hw0 Hr0].
  unfold contents, link_count. rewrite Hw, Hr, count_push by lia.
  assert (Hc := count_range (link_write m l) (link_read m l) (l_num l)).
  rewrite Z2Nat.inj_add, Nat.add_1_r, seq_S, fmap_app by lia. f_equal.
  - apply list_fmap_ext; intros k x Hk.
    apply lookup_seq in Hk as [-> Hk]. simpl.
    apply Hs; [apply Z.mod_pos_bound; lia | apply queued_ne_write; lia].
  - simpl. rewrite Z2Nat.id, count_next by lia. now rewrite He.
Qed.

(** Advancing the read index drops the head, which is the slot at that index. *)
Lemma contents_pop m m' l :
  link_wf m l -> link_read m l <> link_write m l ->
  link_read m' l = (link_read m l + 1) mod l_num l ->
  link_write m' l = link_write m l ->
  (forall i, 0 <= i < l_num l -> slot m' l i = slot m l i) ->
  contents m l = slot m l (link_read m l) :: contents m' l.
Proof.
  intros Hwf Hne Hr Hw Hs.
  assert (Hn := ls_num _ _ (lw_shape _ _ Hwf)).
  destruct Hwf as [_ Hw0 Hr0].
  unfold contents at 2, link_count. rewrite Hw, Hr, count_pop by lia.
  unfold contents, link_count.
  assert (Hc := count_range (link_write m l) (link_read m l) (l_num l)).
  assert ((link_write m l - link_read m l) mod l_num l <> 0) by (rewrite count_zero; lia).
  replace (Z.to_nat ((link_write m l - link_read m l) mod l_num l))
    with (S (Z.to_nat ((link_write m l - link_read m l) mod l_num l - 1))) by lia.
  cbn [seq fmap list_fmap]. f_equal.
  - rewrite Z.add_0_r, Z.mod_small by lia; reflexivity.
  - change list_fmap with (@fmap list list_fmap). rewrite <- fmap_S_seq, <- list_fmap_compose.
    apply list_fmap_ext; intros k x _; simpl.
    rewrite Hs by (apply Z.mod_pos_bound; lia).
    rewrite Zplus_mod_idemp_l. do 2 f_equal; lia.
Qed.

(** ** Evaluation of the operations *)

(** The memory after a push that finds room. *)
Definition push_result (m : memory) (l : link) (e : list Z) : memory :=
  set_bytes (set_bytes m (slot_addr l (link_write m l)) e) (l_prod l + RING_WRITE)
    (le_encode 4 ((link_write m l + 1) mod l_num l)).

(** The memory after a pop that finds an element. *)
Definition pop_result (m : memory) (l : link) : memory :=
  set_bytes m (l_cons l + RING_READ) (le_encode 4 ((link_read m l + 1) mod l_num l)).

Lemma umod_ok a b m : b <> 0 -> umod a b m = Ret (a mod b) m.
Proof. unfold umod; intros H. apply Z.eqb_neq in H as ->. reflexivity. Qed.

Lemma index_small l i : 0 < l_num l < 65536 -> 0 <= i < l_num l -> u32 (i + 1) = i + 1.
Proof. intros; apply u32_small; lia. Qed.

(** Memory accesses at addresses known to be mapped. *)
Ltac cstep :=
  first [ erewrite cbind_Ret by (apply read_uint_ok; assumption || (simpl; assumption))
        | erewrite cbind_Ret by (apply write_uint_ok; assumption || (simpl; assumption))
        | erewrite cbind_Ret by (apply umod_ok; lia) ];
  cbv beta.

Lemma ring_nonnull_test m q :
  link_shape m (tx_link q) -> (push_ring q =? NULL) || (pop_ring q =? NULL) = false.
Proof.
  intros H; destruct (link_ring_nonnull m _ H) as [H1 H2]; simpl in H1, H2.
  apply orb_false_iff; split; apply Z.eqb_neq; assumption.
Qed.

Lemma link_shape_mirror m q : link_shape m (tx_link q) -> link_shape m (rx_link q).
Proof.
  intros [? ? ? ? Hd]; constructor; auto. unfold disjoint_ranges in *.
  change (ring_bytes (rx_link q)) with (ring_bytes (tx_link q)). simpl in *; lia.
Qed.

Lemma index_test n r w :
  0 <= r < n -> 0 <= w < n -> (n <=? r) || (n <=? w) = false.
Proof. intros; apply orb_false_iff; split; apply Z.leb_gt; lia. Qed.

Lemma ipc_queue_push_eval q b m :
  link_wf m (tx_link q) -> elem_size q <= Z.of_nat (length b) ->
  ipc_queue_push (Some q) (Some b) m =
    let l := tx_link q in
    if (link_write m l + 1) mod l_num l =? link_read m l then Ret (- ENOMEM) m
    else Ret 0 (push_result m l (take (Z.to_nat (elem_size q)) b)).
Proof.
  intros Hwf Hb. assert (Hs := lw_shape _ _ Hwf).
  assert (Hn := ls_num _ _ Hs). assert (Hz := ls_size _ _ Hs).
  destruct (link_header_mapped m _ RING_WRITE 4 Hs) as [Mw _]; [easy .. |].
  destruct (link_header_mapped m _ RING_READ 4 Hs) as [_ Mr]; [easy .. |].
  destruct Hwf as [_ Hw Hr]. assert (Ms := slot_mapped _ _ _ Hs Hw).
  assert (Hm := slot_mul_u32 _ _ _ Hs Hw). assert (Hi := index_small _ _ Hn Hw).
  unfold ipc_queue_push. rewrite (ring_nonnull_test m) by assumption.
  unfold ring_write, ring_read, set_ring_write.
  repeat (cstep).
  change (uint_at 4 m (pop_ring q + RING_READ)) with (link_read m (tx_link q)).
  change (uint_at 4 m (push_ring q + RING_WRITE)) with (link_write m (tx_link q)).
  change (elem_num q) with (l_num (tx_link q)).
  rewrite index_test, Hi by assumption. cstep. cbv zeta.
  destruct (Z.eqb_spec ((link_write m (tx_link q) + 1) mod l_num (tx_link q))
              (link_read m (tx_link q))); [reflexivity |].
  replace (Z.of_nat (length b) <? elem_size q) with false
    by (symmetry; apply Z.ltb_ge; assumption).
  change (elem_size q) with (l_size (tx_link q)) in *. rewrite Hm.
  assert (Hl : length (take (Z.to_nat (l_size (tx_link q))) b)
               = Z.to_nat (l_size (tx_link q))) by (rewrite length_take; lia).
  erewrite cbind_Ret by (apply write_bytes_ok; rewrite Hl, Z2Nat.id by lia; exact Ms).
  cstep. erewrite cbind_Ret by (apply write_uint_ok; rewrite mapped_set; exact Mw).
  reflexivity.
Qed.

Lemma ipc_queue_check_integrity_eval q m :
  link_shape m (tx_link q) -> ring_done m (push_ring q) -> ring_done m (pop_ring q) ->
  ipc_queue_check_integrity q m = Ret 0 m.
Proof.
  intros Hs H1 H2.
  destruct (link_header_mapped m _ RING_SENTINEL 8 Hs) as [M1 M2]; [easy .. |].
  unfold ipc_queue_check_integrity, ring_sentinel.
  cstep. rewrite H2. rewrite Z.eqb_refl. cbv [negb].
  cstep. rewrite H1. rewrite Z.eqb_refl. reflexivity.
Qed.

Lemma ipc_queue_pop_eval q m :
  link_wf m (rx_link q) -> ring_done m (push_ring q) -> ring_done m (pop_ring q) ->
  ipc_queue_pop (Some q) true m =
    let l := rx_link q in
    if link_read m l =? link_write m l then Ret (- ENOBUFS, None) m
    else Ret (0, Some (slot m l (link_read m l))) (pop_result m l).
Proof.
  intros Hwf D1 D2. assert (Hs := lw_shape _ _ Hwf).
  assert (Hn := ls_num _ _ Hs). assert (Hz := ls_size _ _ Hs).
  assert (Hs' : link_shape m (tx_link q)) by exact (link_shape_mirror m (mirror q) Hs).
  destruct (link_header_mapped m _ RING_WRITE 4 Hs) as [Mw _]; [easy .. |].
  destruct (link_header_mapped m _ RING_READ 4 Hs) as [_ Mr]; [easy .. |].
  destruct Hwf as [_ Hw Hr]. assert (Ms := slot_mapped _ _ _ Hs Hr).
  assert (Hm := slot_mul_u32 _ _ _ Hs Hr). assert (Hi := index_small _ _ Hn Hr).
  unfold ipc_queue_pop. cbv [negb]. rewrite (ring_nonnull_test m) by assumption.
  unfold ring_write, ring_read, set_ring_read.
  repeat cstep.
  erewrite cbind_Ret by (apply ipc_queue_check_integrity_eval; assumption).
  change (uint_at 4 m (pop_ring q + RING_WRITE)) with (link_write m (rx_link q)).
  change (uint_at 4 m (push_ring q + RING_READ)) with (link_read m (rx_link q)).
  change (elem_num q) with (l_num (rx_link q)). change (elem_size q) with (l_size (rx_link q)).
  change (negb (0 =? 0)) with false. rewrite orb_false_l, index_test, Hi, Hm by assumption.
  cbv zeta.
  destruct (Z.eqb_spec (link_read m (rx_link q)) (link_write m (rx_link q))); [reflexivity |].
  change (pop_ring q + RING_DATA + link_read m (rx_link q) * l_size (rx_link q))
    with (slot_addr (rx_link q) (link_read m (rx_link q))).
  erewrite cbind_Ret by (apply read_bytes_ok; rewrite Z2Nat.id by lia; exact Ms).
  cstep. erewrite cbind_Ret by (apply write_uint_ok; exact Mr). reflexivity.
Qed.

(** ** Effect of a push and of a pop *)

Lemma push_footprint_ring m l x :
  link_wf m l -> push_footprint m l x ->
  range (l_prod l + RING_WRITE) 4 x \/ range (l_prod l + RING_DATA) (l_num l * l_size l) x.
Proof.
  intros Hwf. assert (Hz := ls_size _ _ (lw_shape _ _ Hwf)).
  destruct (slot_in_ring l (link_write m l)) as [H1 H2]; [lia | apply Hwf |].
  unfold push_footprint, range, ring_bytes, RING_SIZE, RING_DATA in *.
  intros [H | H]; [right | left]; lia.
Qed.

Lemma push_result_frame m l e :
  link_wf m l -> length e = Z.to_nat (l_size l) ->
  same_except (push_footprint m l) m (push_result m l e).
Proof.
  intros Hwf He. assert (Hz := ls_size _ _ (lw_shape _ _ Hwf)).
  etransitivity; apply set_bytes_same_except; intros x Hx.
  - left. now rewrite He, Z2Nat.id in Hx by lia.
  - right. now rewrite le_encode_length in Hx.
Qed.

Lemma same_except_shape P m m' l : same_except P m m' -> link_shape m l -> link_shape m' l.
Proof.
  intros HP []; constructor; auto; now rewrite (same_except_mapped _ _ _ _ _ HP).
Qed.

(** A link whose ring fields are outside the written addresses is unchanged. *)
Lemma link_unchanged P m m' l :
  same_except P m m' -> link_wf m l ->
  (forall x, range (l_prod l + RING_WRITE) 4 x -> ~ P x) ->
  (forall x, range (l_cons l + RING_READ) 4 x -> ~ P x) ->
  (forall x, range (l_prod l + RING_DATA) (l_num l * l_size l) x -> ~ P x) ->
  contents m' l = contents m l /\ link_wf m' l.
Proof.
  intros HP Hwf H1 H2 H3. assert (Hs := lw_shape _ _ Hwf).
  assert (Ew : link_write m' l = link_write m l) by (apply (same_except_uint P); auto).
  assert (Er : link_read m' l = link_read m l) by (apply (same_except_uint P); auto).
  split.
  - apply contents_ext; auto; [| apply Hs]. intros i Hi. apply (same_except_load P); auto.
    intros x Hx; apply H3. destruct (slot_in_ring l i) as [A B]; [apply Hs | auto |].
    assert (Hz := ls_size _ _ Hs). unfold range, ring_bytes, RING_SIZE, RING_DATA in *. lia.
  - constructor; [eapply same_except_shape; eauto | rewrite Ew | rewrite Er]; apply Hwf.
Qed.

Lemma push_result_link m l e :
  link_wf m l -> length e = Z.to_nat (l_size l) ->
  (link_write m l + 1) mod l_num l <> link_read m l ->
  contents (push_result m l e) l = contents m l ++ [e] /\ link_wf (push_result m l e) l.
Proof.
  intros Hwf He Hne. assert (Hs := lw_shape _ _ Hwf).
  assert (Hf := push_result_frame m l e Hwf He).
  assert (Hn := ls_num _ _ Hs). assert (Hz := ls_size _ _ Hs). assert (Hd := ls_disj _ _ Hs).
  assert (Hsucc := succ_mod_range (link_write m l) (l_num l)).
  destruct (slot_in_ring l (link_write m l)) as [B1 B2]; [lia | apply Hwf |].
  assert (Ew : link_write (push_result m l e) l = (link_write m l + 1) mod l_num l).
  { unfold push_result. unfold link_write at 1. apply uint_at_set_same; simpl; lia. }
  assert (Er : link_read (push_result m l e) l = link_read m l).
  { apply (same_except_uint (push_footprint m l)); [exact Hf |]. intros x Hx Hp.
    apply push_footprint_ring in Hp; [| exact Hwf].
    unfold range, disjoint_ranges, ring_bytes, RING_SIZE, RING_DATA, RING_WRITE, RING_READ in *.
    lia. }
  split.
  - apply contents_push; auto.
    + unfold slot, push_result; simpl. rewrite load_store_disjoint.
      * rewrite <- He. apply load_store_same.
      * left. rewrite le_encode_length. unfold RING_WRITE, RING_DATA in *. lia.
    + intros i Hi Hiw. apply (same_except_load (push_footprint m l)); [exact Hf |].
      intros x Hx [Hp | Hp]; destruct (slot_in_ring l i) as [C1 C2]; auto; try lia;
        destruct (slots_disjoint l i (link_write m l)); auto;
        unfold range, RING_WRITE, RING_DATA in *; lia.
  - constructor; [eapply same_except_shape; eauto | rewrite Ew; lia | rewrite Er; apply Hwf].
Qed.

Lemma pop_result_frame m l :
  same_except (range (l_cons l + RING_READ) 4) m (pop_result m l).
Proof. apply set_bytes_same_except; intros x; now rewrite le_encode_length. Qed.

Lemma pop_result_link m l :
  link_wf m l -> link_read m l <> link_write m l ->
  contents m l = slot m l (link_read m l) :: contents (pop_result m l) l /\
  link_wf (pop_result m l) l.
Proof.
  intros Hwf Hne. assert (Hs := lw_shape _ _ Hwf).
  assert (Hf := pop_result_frame m l).
  assert (Hn := ls_num _ _ Hs). assert (Hz := ls_size _ _ Hs). assert (Hd := ls_disj _ _ Hs).
  assert (Hb : 0 <= l_num l * l_size l) by nia.
  assert (Hsucc := succ_mod_range (link_read m l) (l_num l)).
  assert (Er : link_read (pop_result m l) l = (link_read m l + 1) mod l_num l).
  { unfold pop_result. unfold link_read at 1. apply uint_at_set_same; simpl; lia. }
  assert (Ew : link_write (pop_result m l) l = link_write m l).
  { apply (same_except_uint _ _ _ _ _ Hf). intros x Hx Hp.
    unfold range, disjoint_ranges, ring_bytes, RING_SIZE, RING_WRITE, RING_READ in *. lia. }
  split.
  - apply contents_pop; auto. intros i Hi. apply (same_except_load _ _ _ _ _ Hf).
    intros x Hx Hp. destruct (slot_in_ring l i) as [C1 C2]; [lia | auto |].
    unfold range, disjoint_ranges, ring_bytes, RING_SIZE, RING_DATA, RING_READ in *. lia.
  - constructor; [eapply same_except_shape; eauto | rewrite Ew; apply Hwf | rewrite Er; lia].
Qed.

Lemma ring_done_frame P m m' r :
  same_except P m m' -> ring_done m r ->
  (forall x, range (r + RING_SENTINEL) 8 x -> ~ P x) -> ring_done m' r.
Proof. unfold ring_done; intros HP <- Hx. now apply (same_except_uint P). Qed.

Lemma queue_wf_mirror m q : queue_wf m q -> queue_wf m (mirror q).
Proof. intros []; constructor; auto. Qed.

(** Ring headers and slots of a queue, as address facts for [lia]. *)
Ltac ring_facts H :=
  let Hd := fresh "Hd" in let Hn := fresh "Hn" in let Hz := fresh "Hz" in
  assert (Hd := ls_disj _ _ (lw_shape _ _ (qw_tx _ _ H)));
  assert (Hn := ls_num _ _ (lw_shape _ _ (qw_tx _ _ H)));
  assert (Hz := ls_size _ _ (lw_shape _ _ (qw_tx _ _ H)));
  unfold disjoint_ranges, ring_bytes, tx_link, rx_link in *; simpl in *.

Ltac range_lia :=
  unfold range, RING_SIZE, RING_DATA, RING_READ, RING_WRITE, RING_SENTINEL in *; nia.

Lemma queue_wf_push m q e :
  queue_wf m q -> length e = Z.to_nat (elem_size q) ->
  (link_write m (tx_link q) + 1) mod elem_num q <> link_read m (tx_link q) ->
  let m' := push_result m (tx_link q) e in
  contents m' (tx_link q) = contents m (tx_link q) ++ [e] /\
  contents m' (rx_link q) = contents m (rx_link q) /\
  queue_wf m' q.
Proof.
  intros Hq He Hne m'.
  assert (Hf := push_result_frame m (tx_link q) e (qw_tx _ _ Hq) He). fold m' in Hf.
  assert (Hp := fun x => push_footprint_ring m (tx_link q) x (qw_tx _ _ Hq)).
  destruct (push_result_link m (tx_link q) e) as [C1 W1]; auto using qw_tx.
  destruct (link_unchanged _ m m' (rx_link q) Hf (qw_rx _ _ Hq)) as [C2 W2];
    try (intros x Hx Px; apply Hp in Px; ring_facts Hq; range_lia).
  split; [exact C1 | split; [exact C2 |]].
  constructor; auto.
  - apply (ring_done_frame _ _ _ _ Hf (qw_push_done _ _ Hq)).
    intros x Hx Px; apply Hp in Px; ring_facts Hq; range_lia.
  - apply (ring_done_frame _ _ _ _ Hf (qw_pop_done _ _ Hq)).
    intros x Hx Px; apply Hp in Px; ring_facts Hq; range_lia.
Qed.

Lemma queue_wf_pop m q :
  queue_wf m q -> link_read m (rx_link q) <> link_write m (rx_link q) ->
  let m' := pop_result m (rx_link q) in
  contents m (rx_link q)
    = slot m (rx_link q) (link_read m (rx_link q)) :: contents m' (rx_link q) /\
  contents m' (tx_link q) = contents m (tx_link q) /\
  queue_wf m' q.
Proof.
  intros Hq Hne m'.
  assert (Hf := pop_result_frame m (rx_link q)). fold m' in Hf.
  destruct (pop_result_link m (rx_link q)) as [C1 W1]; auto using qw_rx.
  destruct (link_unchanged _ m m' (tx_link q) Hf (qw_tx _ _ Hq)) as [C2 W2];
    try (intros x Hx Px; ring_facts Hq; range_lia).
  split; [exact C1 | split; [exact C2 |]].
  constructor; auto.
  - apply (ring_done_frame _ _ _ _ Hf (qw_push_done _ _ Hq)).
    intros x Hx Px; ring_facts Hq; range_lia.
  - apply (ring_done_frame _ _ _ _ Hf (qw_pop_done _ _ Hq)).
    intros x Hx Px; ring_facts Hq; range_lia.
Qed.

(** ** One operation against the specification *)

(** What one end can do, and the result it sees. *)
Inductive qop : Type :=
| OpPush (e : list Z)
| OpPop.

Definition run_op (q : ipc_queue) (op : qop) : M memory (Z * option (list Z)) :=
  match op with
  | OpPush e => let* r := ipc_queue_push (Some q) (Some e) in cret (r, None)
  | OpPop => ipc_queue_pop (Some q) true
  end.

(** Abstract state seen from one end: what it has sent and not yet been
    received, and what it has not yet received. *)
Definition spec_op (cap : Z) (op : qop) (s : list (list Z) * list (list Z)) :
    (Z * option (list Z)) * (list (list Z) * list (list Z)) :=
  match op with
  | OpPush e => let p := fifo_push cap s.1 e in ((p.1, None), (p.2, s.2))
  | OpPop => let p := fifo_pop s.2 in (p.1, (s.1, p.2))
  end.

Definition op_fits (q : ipc_queue) (op : qop) : Prop :=
  match op with
  | OpPush e => length e = Z.to_nat (elem_size q)
  | OpPop => True
  end.

Lemma run_op_push q e m :
  queue_wf m q -> length e = Z.to_nat (elem_size q) ->
  exists m',
    ipc_queue_push (Some q) (Some e) m
      = Ret (fifo_push (elem_num q - 1) (contents m (tx_link q)) e).1 m' /\
    contents m' (tx_link q) = (fifo_push (elem_num q - 1) (contents m (tx_link q)) e).2 /\
    contents m' (rx_link q) = contents m (rx_link q) /\
    queue_wf m' q /\ same_except (push_footprint m (tx_link q)) m m'.
Proof.
  intros Hq He.
  assert (Hn := ls_num _ _ (lw_shape _ _ (qw_tx _ _ Hq))).
  assert (Hz := ls_size _ _ (lw_shape _ _ (qw_tx _ _ Hq))).
  destruct (qw_tx _ _ Hq) as [Hs Hw Hr].
  rewrite ipc_queue_push_eval by (try apply Hq; simpl in *; lia). cbv zeta.
  assert (Hc := contents_length m (tx_link q) (proj1 Hn)). unfold link_count in Hc.
  assert (Hcr := count_range (link_write m (tx_link q)) (link_read m (tx_link q)) _ (proj1 Hn)).
  unfold fifo_push; rewrite Hc. rewrite take_ge by lia.
  change (elem_num q) with (l_num (tx_link q)).
  destruct (Z.eqb_spec ((link_write m (tx_link q) + 1) mod l_num (tx_link q))
              (link_read m (tx_link q))) as [E | E].
  - apply succ_full in E; [| lia ..].
    rewrite E, Z.ltb_irrefl. exists m; split_and!; auto; reflexivity.
  - assert (E' := E). rewrite succ_full in E' by lia.
    replace (_ <? _) with true by (symmetry; apply Z.ltb_lt; lia).
    destruct (queue_wf_push m q e) as (C1 & C2 & W); auto.
    eexists; split_and!; eauto. apply push_result_frame; auto; apply Hq.
Qed.

Lemma push_full q e m :
  queue_wf m q -> length e = Z.to_nat (elem_size q) ->
  elem_num q - 1 <= Z.of_nat (length (contents m (tx_link q))) ->
  ipc_queue_push (Some q) (Some e) m = Ret (- ENOMEM) m.
Proof.
  intros Hq He Hf. destruct (qw_tx _ _ Hq) as [Hs Hw Hr].
  assert (Hn := ls_num _ _ Hs). assert (Hz := ls_size _ _ Hs).
  rewrite ipc_queue_push_eval by (try apply Hq; simpl in *; lia). cbv zeta.
  rewrite contents_length in Hf by lia.
  assert (Hc := count_range (link_write m (tx_link q)) (link_read m (tx_link q)) _ (proj1 Hn)).
  unfold link_count in Hf. change (l_num (tx_link q)) with (elem_num q) in *.
  replace (_ =? _) with true; [reflexivity |].
  symmetry; apply Z.eqb_eq, succ_full; lia.
Qed.

Lemma run_op_pop q m :
  queue_wf m q ->
  exists m',
    ipc_queue_pop (Some q) true m = Ret (fifo_pop (contents m (rx_link q))).1 m' /\
    contents m' (rx_link q) = (fifo_pop (contents m (rx_link q))).2 /\
    contents m' (tx_link q) = contents m (tx_link q) /\
    queue_wf m' q /\ same_except (range (push_ring q + RING_READ) 4) m m'.
Proof.
  intros Hq.
  assert (Hn := ls_num _ _ (lw_shape _ _ (qw_rx _ _ Hq))).
  destruct (qw_rx _ _ Hq) as [Hs Hw Hr].
  rewrite ipc_queue_pop_eval by apply Hq. cbv zeta.
  destruct (Z.eqb_spec (link_read m (rx_link q)) (link_write m (rx_link q))) as [E | E].
  - exists m. rewrite (contents_empty m (rx_link q)) by (auto; lia).
    split_and!; auto; reflexivity.
  - destruct (queue_wf_pop m q Hq E) as (C1 & C2 & W). rewrite C1.
    eexists; split_and!; eauto. apply pop_result_frame.
Qed.

Lemma run_op_refines q op m :
  queue_wf m q -> op_fits q op ->
  exists m',
    run_op q op m
      = Ret (spec_op (elem_num q - 1) op (contents m (tx_link q), contents m (rx_link q))).1 m' /\
    (contents m' (tx_link q), contents m' (rx_link q))
      = (spec_op (elem_num q - 1) op (contents m (tx_link q), contents m (rx_link q))).2 /\
    queue_wf m' q.
Proof.
  intros Hq Hop; destruct op as [e |]; simpl in *.
  - destruct (run_op_push q e m) as (m' & E & C1 & C2 & W & _); auto.
    exists m'. rewrite (cbind_Ret _ _ _ _ _ E). split_and!; auto; congruence.
  - destruct (run_op_pop q m) as (m' & E & C1 & C2 & W & _); auto.
    exists m'. rewrite E. split_and!; auto; congruence.
Qed.

(** ** Sequences of operations of the two ends *)

Inductive endpoint : Type := Near | Far.

Definition peer (d : endpoint) : endpoint := match d with Near => Far | Far => Near end.

Definition end_queue (q : ipc_queue) (d : endpoint) : ipc_queue :=
  match d with Near => q | Far => mirror q end.

Fixpoint run_ops (q : ipc_queue) (ops : list (endpoint * qop)) :
    M memory (list (Z * option (list Z))) :=
  match ops with
  | [] => cret []
  | (d, op) :: r =>
      let* x := run_op (end_queue q d) op in
      let* xs := run_ops q r in
      cret (x :: xs)
  end.

(** Both FIFOs: near to far and far to near. *)
Definition swap_at {A} (d : endpoint) (s : A * A) : A * A :=
  match d with Near => s | Far => (s.2, s.1) end.

Fixpoint spec_ops (cap : Z) (ops : list (endpoint * qop))
    (s : list (list Z) * list (list Z)) :
    list (Z * option (list Z)) * (list (list Z) * list (list Z)) :=
  match ops with
  | [] => ([], s)
  | (d, op) :: r =>
      let p := spec_op cap op (swap_at d s) in
      let p' := spec_ops cap r (swap_at d p.2) in
      (p.1 :: p'.1, p'.2)
  end.

(** Elements an end has successfully pushed, and those the other has popped. *)
Fixpoint pushed (d : endpoint) (ops : list (endpoint * qop))
    (rs : list (Z * option (list Z))) : list (list Z) :=
  match ops, rs with
  | (d', OpPush e) :: ops, (c, _) :: rs =>
      (if (c =? 0) && match d, d' with Near, Near | Far, Far => true | _, _ => false end
       then [e] else []) ++ pushed d ops rs
  | _ :: ops, _ :: rs => pushed d ops rs
  | _, _ => []
  end.

Fixpoint popped (d : endpoint) (ops : list (endpoint * qop))
    (rs : list (Z * option (list Z))) : list (list Z) :=
  match ops, rs with
  | (d', OpPop) :: ops, (_, Some e) :: rs =>
      (if match d, d' with Near, Near | Far, Far => true | _, _ => false end
       then [e] else []) ++ popped d ops rs
  | _ :: ops, _ :: rs => popped d ops rs
  | _, _ => []
  end.

(** Abstractly: what was queued, then pushed, is what was popped, then queued. *)
Lemma spec_ops_fifo cap ops s :
  let p := spec_ops cap ops s in
  s.1 ++ pushed Near ops p.1 = popped Far ops p.1 ++ p.2.1 /\
  s.2 ++ pushed Far ops p.1 = popped Near ops p.1 ++ p.2.2.
Proof.
  revert s; induction ops as [|[d op] ops IH]; intros [s1 s2]; simpl;
    [now rewrite !app_nil_r |].
  destruct d, op as [e |]; simpl; unfold fifo_push;
    [destruct (_ <? _) | destruct s2 | destruct (_ <? _) | destruct s1]; simpl;
    match goal with
    | |- context [spec_ops _ _ ?t] => destruct (IH t) as [H1 H2]; simpl in H1, H2
    end; rewrite <- ?app_assoc in *; simpl in *; rewrite ?H1, ?H2; auto.
Qed.

(** The abstract state of the pair: near to far, far to near. *)
Definition fifos (q : ipc_queue) (m : memory) : list (list Z) * list (list Z) :=
  (contents m (tx_link q), contents m (rx_link q)).

Lemma end_op_refines q d op m :
  queue_wf m q -> op_fits q op ->
  exists m',
    run_op (end_queue q d) op m
      = Ret (spec_op (elem_num q - 1) op (swap_at d (fifos q m))).1 m' /\
    fifos q m' = swap_at d (spec_op (elem_num q - 1) op (swap_at d (fifos q m))).2 /\
    queue_wf m' q.
Proof.
  intros Hq Hop; destruct d; simpl.
  - apply run_op_refines; auto.
  - destruct (run_op_refines (mirror q) op m) as (m' & E & C & W);
      [now apply queue_wf_mirror | assumption |].
    exists m'; split_and!; [exact E | | destruct q; now apply queue_wf_mirror in W].
    change (elem_num (mirror q)) with (elem_num q) in C.
    change (tx_link (mirror q)) with (rx_link q) in C.
    change (rx_link (mirror q)) with (tx_link q) in C. unfold fifos; simpl. now rewrite <- C.
Qed.

(** ** Initialisation and release *)

(** A queue description [ipc_queue_init] accepts, whose rings are mapped. *)
Record init_ok (m : memory) (d : ipc_queue_data) : Prop := {
  io_num : 0 < qd_elem_num d < 65535;
  io_size : 0 < qd_elem_size d < 256;
  io_align : qd_elem_size d mod 8 = 0;
  io_type : qd_queue_type d = IPC_SHM_CHANNEL_QUEUE \/ qd_queue_type d = IPC_SHM_POOL_QUEUE;
  io_shape : link_shape m (Link (qd_push_addr d) (qd_pop_addr d)
                             (qd_elem_num d + 1) (qd_elem_size d))
}.

Definition init_queue (d : ipc_queue_data) : ipc_queue :=
  Queue (qd_elem_size d) (qd_elem_num d + 1) (qd_push_addr d) (qd_pop_addr d).

(** Header of the push ring after the indexes were set. *)
Definition sync_result (m : memory) (r w v : Z) : memory :=
  set_bytes
    (set_bytes (set_bytes m (r + RING_SENTINEL) (le_encode 8 IPC_QUEUE_INIT_IN_PROGRESS))
       (r + RING_WRITE) (le_encode 4 w))
    (r + RING_READ) (le_encode 4 v).

(** The read index [ipc_queue_sync_index] starts from when the remote ring is live. *)
Definition sync_read (m : memory) (d : ipc_queue_data) : Z :=
  let w := uint_at 4 m (qd_pop_addr d + RING_WRITE) in
  match qd_queue_type d with
  | IPC_SHM_CHANNEL_QUEUE => w mod (qd_elem_num d + 1)
  | _ => u32 (w + 1) mod (qd_elem_num d + 1)
  end.

Lemma header_disjoint m d off k :
  init_ok m d -> 0 <= off -> off + k <= RING_SIZE ->
  disjoint_ranges (qd_push_addr d) RING_SIZE (qd_pop_addr d + off) k.
Proof.
  intros H Ho Hk. assert (Hd := ls_disj _ _ (io_shape _ _ H)).
  assert (Hb := ring_bytes_ge _ _ (io_shape _ _ H)). unfold disjoint_ranges in *. simpl in *. lia.
Qed.

Lemma ipc_queue_init_eval q0 d m :
  init_ok m d ->
  let s := uint_at 8 m (qd_pop_addr d + RING_SENTINEL) in
  ipc_queue_init (Some q0) d m =
    if s =? IPC_QUEUE_INIT_IN_PROGRESS then Ret (- EAGAIN, Some (init_queue d)) m
    else if s =? IPC_QUEUE_INIT_DONE then
      Ret (0, Some (init_queue d))
        (sync_result m (qd_push_addr d) (uint_at 4 m (qd_pop_addr d + RING_READ))
           (sync_read m d))
    else Ret (0, Some (init_queue d)) (sync_result m (qd_push_addr d) 0 0).
Proof.
  intros H s. assert (Hs := io_shape _ _ H). assert (Hn := io_num _ _ H).
  assert (Hz := io_size _ _ H).
  destruct (link_ring_nonnull m _ Hs) as [N1 N2]; simpl in N1, N2.
  destruct (link_header_mapped m _ RING_SENTINEL 8 Hs) as [M1 M2]; [easy .. |].
  destruct (link_header_mapped m _ RING_WRITE 4 Hs) as [M3 M4]; [easy .. |].
  destruct (link_header_mapped m _ RING_READ 4 Hs) as [M5 M6]; [easy .. |]. simpl in *.
  assert (D1 := header_disjoint m d RING_SENTINEL 8 H). assert (D2 := header_disjoint m d RING_READ 4 H).
  assert (D3 := header_disjoint m d RING_WRITE 4 H).
  unfold ipc_queue_init, sync_read, init_queue.
  replace (_ || _) with false.
  2: { symmetry. rewrite (io_align _ _ H).
       destruct (io_type _ _ H) as [-> | ->]; rewrite !orb_false_iff, !Z.eqb_neq; simpl; lia. }
  rewrite u16_small by lia. unfold ipc_queue_sync_index, ring_sentinel, set_ring_sentinel,
    ring_read, ring_write, set_ring_write, set_ring_read. simpl push_ring; simpl pop_ring; simpl elem_num.
  rewrite cbind_assoc. cstep. fold s.
  destruct (Z.eqb_spec s IPC_QUEUE_INIT_IN_PROGRESS); [reflexivity |].
  rewrite cbind_assoc. cstep. rewrite cbind_assoc. cstep.
  rewrite uint_at_set_disjoint by
    (rewrite le_encode_length; unfold disjoint_ranges, RING_SENTINEL, RING_SIZE in *; lia).
  fold s. destruct (Z.eqb_spec s IPC_QUEUE_INIT_DONE).
  2: { rewrite cbind_assoc. cstep. rewrite cbind_assoc. cstep. reflexivity. }
  rewrite cbind_assoc. cstep. rewrite cbind_assoc. cstep. rewrite cbind_assoc. cstep.
  rewrite !uint_at_set_disjoint by
    (rewrite ?le_encode_length; unfold disjoint_ranges, RING_SENTINEL, RING_SIZE, RING_READ,
       RING_WRITE in *; lia).
  destruct (io_type _ _ H) as [-> | ->]; rewrite cbind_assoc; cstep; rewrite cbind_assoc; cstep;
    reflexivity.
Qed.
(** ... when the remote ring is live. *)
Lemma ipc_queue_init_live q0 d m :
  init_ok m d -> ring_done m (qd_pop_addr d) ->
  ipc_queue_init (Some q0) d m =
    Ret (0, Some (init_queue d))
      (sync_result m (qd_push_addr d) (uint_at 4 m (qd_pop_addr d + RING_READ)) (sync_read m d)).
Proof.
  intros H Hd. rewrite ipc_queue_init_eval by exact H. unfold ring_done in Hd. cbv zeta.
  rewrite !Hd. reflexivity.
Qed.

Lemma sync_result_frame m r w v : same_except (range r RING_SIZE) m (sync_result m r w v).
Proof.
  repeat (etransitivity; [| apply set_bytes_same_except];
          [| intros x; rewrite le_encode_length; unfold range, RING_SIZE, RING_SENTINEL,
             RING_WRITE, RING_READ; lia]); reflexivity.
Qed.

Lemma sync_result_fields m r w v :
  0 <= w < 2 ^ 32 -> 0 <= v < 2 ^ 32 ->
  uint_at 8 (sync_result m r w v) (r + RING_SENTINEL) = IPC_QUEUE_INIT_IN_PROGRESS /\
  uint_at 4 (sync_result m r w v) (r + RING_WRITE) = w /\
  uint_at 4 (sync_result m r w v) (r + RING_READ) = v.
Proof.
  intros Hw Hv; unfold sync_result.
  split_and!;
    repeat rewrite uint_at_set_disjoint by (rewrite ?le_encode_length; unfold disjoint_ranges,
      RING_SENTINEL, RING_WRITE, RING_READ; lia);
    apply uint_at_set_same; unfold IPC_QUEUE_INIT_IN_PROGRESS; lia.
Qed.

(** Setting the sentinel, as the callers of [ipc_queue_init] do when they are
    done, leaves the rest of the memory alone. *)
Definition mark_done (r : Z) (m : memory) : memory :=
  set_bytes m (r + RING_SENTINEL) (le_encode 8 IPC_QUEUE_INIT_DONE).

Lemma mark_done_frame r m : same_except (range r 8) m (mark_done r m).
Proof.
  apply set_bytes_same_except; intros x; rewrite le_encode_length; unfold range, RING_SENTINEL. lia.
Qed.

Lemma mark_done_sentinel r m : ring_done (mark_done r m) r.
Proof. apply uint_at_set_same; unfold IPC_QUEUE_INIT_DONE; lia. Qed.

(** State of the pair after the near end of [d] has set its indexes to [w]
    (write) and [v] (read) and marked its ring, the far ring being live. *)
Lemma resync_wf m d w v :
  init_ok m d -> ring_done m (qd_pop_addr d) ->
  let q := init_queue d in
  0 <= uint_at 4 m (pop_ring q + RING_WRITE) < elem_num q ->
  0 <= uint_at 4 m (pop_ring q + RING_READ) < elem_num q ->
  0 <= w < elem_num q -> 0 <= v < elem_num q ->
  let m' := mark_done (push_ring q) (sync_result m (push_ring q) w v) in
  queue_wf m' q /\ same_except (range (push_ring q) RING_SIZE) m m' /\
  link_write m' (tx_link q) = w /\ link_read m' (rx_link q) = v /\
  link_read m' (tx_link q) = uint_at 4 m (pop_ring q + RING_READ) /\
  link_write m' (rx_link q) = uint_at 4 m (pop_ring q + RING_WRITE).
Proof.
  intros H Hd q Hpw Hpr Hw Hv m'. assert (Hs := io_shape _ _ H).
  change (Link _ _ _ _) with (tx_link q) in Hs.
  assert (Hn := io_num _ _ H). assert (Hb := ring_bytes_ge _ _ Hs).
  assert (Hdj := ls_disj _ _ Hs). unfold disjoint_ranges in Hdj. simpl in Hdj.
  assert (F : same_except (range (push_ring q) RING_SIZE) m m').
  { etransitivity; [apply sync_result_frame |]. eapply same_except_mono; [| apply mark_done_frame].
    unfold range, RING_SIZE; intros; lia. }
  destruct (sync_result_fields m (push_ring q) w v) as (_ & Ew & Er); [simpl in *; lia .. |].
  assert (G := mark_done_frame (push_ring q) (sync_result m (push_ring q) w v)). fold m' in G.
  assert (Lw : link_write m' (tx_link q) = w).
  { rewrite <- Ew. apply (same_except_uint _ _ _ _ _ G).
    unfold range, RING_WRITE; simpl; intros; lia. }
  assert (Lr : link_read m' (rx_link q) = v).
  { rewrite <- Er. apply (same_except_uint _ _ _ _ _ G).
    unfold range, RING_READ; simpl; intros; lia. }
  assert (Pr : link_read m' (tx_link q) = uint_at 4 m (pop_ring q + RING_READ)).
  { apply (same_except_uint _ _ _ _ _ F). unfold range, RING_READ, RING_SIZE in *; simpl; intros; lia. }
  assert (Pw : link_write m' (rx_link q) = uint_at 4 m (pop_ring q + RING_WRITE)).
  { apply (same_except_uint _ _ _ _ _ F). unfold range, RING_WRITE, RING_SIZE in *; simpl; intros; lia. }
  assert (S1 := same_except_shape _ _ _ _ F Hs). assert (S2 := link_shape_mirror _ _ S1).
  split_and!; auto. constructor.
  - constructor; [exact S1 | rewrite Lw | rewrite Pr]; assumption.
  - constructor; [exact S2 | rewrite Pw | rewrite Lr]; assumption.
  - apply mark_done_sentinel.
  - apply (ring_done_frame _ _ _ _ F Hd).
    unfold range, RING_SENTINEL, RING_SIZE in *; simpl; intros; lia.
Qed.

Lemma run_ops_refines q ops m :
  queue_wf m q -> Forall (fun o => op_fits q o.2) ops ->
  exists m',
    run_ops q ops m = Ret (spec_ops (elem_num q - 1) ops (fifos q m)).1 m' /\
    fifos q m' = (spec_ops (elem_num q - 1) ops (fifos q m)).2 /\ queue_wf m' q.
Proof.
  intros Hq Hops; revert m Hq; induction Hops as [|[d op] ops Hop Hops IH]; intros m Hq;
    [now exists m |].
  destruct (end_op_refines q d op m Hq Hop) as (m1 & E1 & C1 & W1).
  destruct (IH m1 W1) as (m2 & E2 & C2 & W2).
  cbn [run_ops spec_ops]. rewrite (cbind_Ret _ _ _ _ _ E1), (cbind_Ret _ _ _ _ _ E2).
  exists m2. rewrite <- C1. auto.
Qed.

(** *** Operations with arbitrary memory contents *)

Lemma write_slot_in_ring q i :
  0 <= elem_size q < 256 -> 0 <= i < elem_num q -> elem_num q < 65536 ->
  push_ring q + RING_DATA + u32 (i * elem_size q) + elem_size q
    <= push_ring q + (RING_SIZE + elem_num q * elem_size q) /\
  0 <= u32 (i * elem_size q).
Proof.
  intros Hz Hi Hn. rewrite u32_small by nia. unfold RING_DATA, RING_SIZE. nia.
Qed.

Lemma set_bytes_range m a bs r n :
  r <= a -> a + Z.of_nat (length bs) <= r + n -> same_except (range r n) m (set_bytes m a bs).
Proof. intros; apply set_bytes_same_except; unfold range; intros; lia. Qed.

Ltac header_frame :=
  apply set_bytes_range; rewrite ?le_encode_length;
  unfold RING_SIZE, RING_SENTINEL, RING_WRITE, RING_READ in *; try lia.

(** Read-only prefixes leave the memory as it is. *)
Lemma ipc_queue_check_integrity_pure q m e m' :
  ipc_queue_check_integrity q m = Ret e m' -> m' = m.
Proof. unfold ipc_queue_check_integrity, ring_sentinel; intros H; cinv; reflexivity. Qed.

Lemma ipc_queue_push_frame q b m e m' :
  0 <= elem_size q < 256 -> 0 <= elem_num q < 65536 -> mem_ok m ->
  ipc_queue_push (Some q) (Some b) m = Ret e m' ->
  same_except (range (push_ring q) (RING_SIZE + elem_num q * elem_size q)) m m'.
Proof.
  intros Hz Hn Hm H. assert (Hp : 0 <= elem_num q * elem_size q) by nia.
  unfold ipc_queue_push, ring_write, ring_read, set_ring_write, umod in H.
  cinv; try reflexivity. bool_to_prop.
  assert (Hw := uint_at_range 4 m (push_ring q + RING_WRITE) Hm).
  destruct (write_slot_in_ring q (uint_at 4 m (push_ring q + RING_WRITE))) as [B1 B2]; try lia.
  etransitivity; [apply set_bytes_range | header_frame].
  - unfold RING_DATA; lia.
  - rewrite length_take. lia.
Qed.

Lemma ipc_queue_pop_frame q b m r m' :
  0 <= elem_size q -> 0 <= elem_num q ->
  ipc_queue_pop (Some q) b m = Ret r m' ->
  same_except (range (push_ring q) (RING_SIZE + elem_num q * elem_size q)) m m'.
Proof.
  intros Hz Hn H. assert (Hp : 0 <= elem_num q * elem_size q) by nia.
  unfold ipc_queue_pop, ring_write, ring_read, set_ring_read, umod in H.
  cinv; try (apply ipc_queue_check_integrity_pure in E1; subst);
    cinv; try reflexivity; header_frame.
Qed.

Lemma ipc_queue_init_frame q0 d m r m' :
  ipc_queue_init (Some q0) d m = Ret r m' ->
  same_except (range (qd_push_addr d) RING_SIZE) m m'.
Proof.
  unfold ipc_queue_init, ipc_queue_sync_index, ring_sentinel, set_ring_sentinel, ring_read,
    set_ring_read, ring_write, set_ring_write, umod; intros H.
  cinv; simpl in *; try reflexivity; destruct (qd_queue_type d); cinv;
    repeat (etransitivity; [| header_frame]); reflexivity.
Qed.

Lemma ipc_queue_free_frame q m r m' :
  ipc_queue_free (Some q) m = Ret r m' ->
  same_except (range (push_ring q) RING_SIZE) m m'.
Proof.
  unfold ipc_queue_free, ring_sentinel, set_ring_sentinel, set_ring_write, set_ring_read;
    intros H; cinv; try reflexivity; repeat (etransitivity; [| header_frame]); reflexivity.
Qed.

(** ** Theorems *)

(** C1: the two ends of a queue, calling push and pop in any order, get the
    results of two bounded FIFOs of capacity [elem_num - 1] (the number of
    elements the queue was configured for), and the FIFOs read off the memory
    are those of the specification; every call returns and the queue stays
    well formed. *)
Theorem queue_ends_refine_fifos q ops m :
  queue_wf m q -> Forall (fun o => op_fits q o.2) ops ->
  exists m',
    run_ops q ops m
      = Ret (spec_ops (elem_num q - 1) ops (fifos q m)).1 m' /\
    fifos q m' = (spec_ops (elem_num q - 1) ops (fifos q m)).2 /\
    queue_wf m' q.
Proof. apply run_ops_refines. Qed.

(** FIFO order without loss or duplication: for every sequence of calls of
    the two ends, what was queued followed by what an end pushed successfully
    is what the other end popped, in that order, followed by what is still
    queued. *)
Lemma queue_delivers_in_order q ops m rs m' :
  queue_wf m q -> Forall (fun o => op_fits q o.2) ops ->
  run_ops q ops m = Ret rs m' ->
  contents m (tx_link q) ++ pushed Near ops rs
    = popped Far ops rs ++ contents m' (tx_link q) /\
  contents m (rx_link q) ++ pushed Far ops rs
    = popped Near ops rs ++ contents m' (rx_link q).
Proof.
  intros Hq Hops E.
  destruct (run_ops_refines q ops m Hq Hops) as (m2 & E2 & C & _). rewrite E in E2. inversion E2; subst.
  assert (F := spec_ops_fifo (elem_num q - 1) ops (fifos q m)). cbv zeta in F.
  rewrite <- C in F. exact F.
Qed.

(** C6: freedom from interference: whatever the shared memory holds, an
    operation that returns has written nothing outside the local push ring
    (its header only, for pop, init and free). *)
Theorem queue_ops_write_local_ring q b d q0 m :
  0 <= elem_size q < 256 -> 0 <= elem_num q < 65536 -> mem_ok m ->
  let ring := range (push_ring q) (RING_SIZE + elem_num q * elem_size q) in
  (forall e m', ipc_queue_push (Some q) b m = Ret e m' -> same_except ring m m') /\
  (forall buf r m', ipc_queue_pop (Some q) buf m = Ret r m' -> same_except ring m m') /\
  (forall r m', ipc_queue_init (Some q0) d m = Ret r m' ->
     same_except (range (qd_push_addr d) RING_SIZE) m m') /\
  (forall r m', ipc_queue_free (Some q) m = Ret r m' ->
     same_except (range (push_ring q) RING_SIZE) m m').
Proof.
  intros Hz Hn Hm ring; split_and!.
  - intros e m' H. destruct b as [b |]; [eapply ipc_queue_push_frame; eauto |].
    inversion H; reflexivity.
  - intros buf r m' H. eapply ipc_queue_pop_frame; eauto; lia.
  - intros r m'. apply ipc_queue_init_frame.
  - intros r m'. apply ipc_queue_free_frame.
Qed.

(** A channel queue takes over the peer's indexes. *)
Lemma channel_resync q0 d m :
  init_ok m d -> qd_queue_type d = IPC_SHM_CHANNEL_QUEUE ->
  ring_done m (qd_pop_addr d) ->
  0 <= uint_at 4 m (qd_pop_addr d + RING_WRITE) < qd_elem_num d + 1 ->
  0 <= uint_at 4 m (qd_pop_addr d + RING_READ) < qd_elem_num d + 1 ->
  exists m1,
    ipc_queue_init (Some q0) d m = Ret (0, Some (init_queue d)) m1 /\
    let m2 := mark_done (qd_push_addr d) m1 in
    queue_wf m2 (init_queue d) /\ fifos (init_queue d) m2 = ([], []) /\
    same_except (range (qd_push_addr d) RING_SIZE) m m2.
Proof.
  intros H Ht Hd Hw Hr. rewrite (ipc_queue_init_live _ _ _ H Hd). unfold sync_read.
  rewrite Ht, Z.mod_small by exact Hw. eexists; split; [reflexivity |]. cbv zeta.
  destruct (resync_wf m d (uint_at 4 m (qd_pop_addr d + RING_READ))
              (uint_at 4 m (qd_pop_addr d + RING_WRITE)) H Hd Hw Hr Hr Hw)
    as (Q & F & L1 & L2 & L3 & L4).
  split_and!; [exact Q | | exact F]. assert (Hn := io_num _ _ H).
  unfold fifos; rewrite !contents_empty; [reflexivity | simpl; lia | | simpl; lia |].
  - exact (eq_trans L2 (eq_sym L4)).
  - exact (eq_trans L3 (eq_sym L1)).
Qed.

(** The slots of the remote ring are apart from the local header. *)
Lemma init_ok_data_apart m d :
  init_ok m d -> forall y,
  range (l_prod (rx_link (init_queue d)) + RING_DATA)
    ((qd_elem_num d + 1) * l_size (rx_link (init_queue d))) y ->
  ~ range (qd_push_addr d) RING_SIZE y.
Proof.
  intros H y Hy. assert (Hdj := ls_disj _ _ (io_shape _ _ H)).
  assert (Hb := ring_bytes_ge _ _ (io_shape _ _ H)). assert (Hz := io_size _ _ H).
  assert (Hn := io_num _ _ H).
  unfold range, disjoint_ranges, ring_bytes, RING_DATA, RING_SIZE in *. simpl in *. lia.
Qed.

(** The slots of a ring with [n + 1] of them, from the one behind index [w] on. *)
Definition slots_behind (m : memory) (l : link) (n w : Z) : list (list Z) :=
  (fun k : nat => slot m l ((w + 1 + Z.of_nat k) mod (n + 1))) <$> seq 0 (Z.to_nat n).

(** They stay as they are while the data part of the ring is not written. *)
Lemma slots_behind_frame (S : Z -> Prop) m m' l n w :
  0 < l_size l -> 0 < n + 1 -> same_except S m m' ->
  (forall y, range (l_prod l + RING_DATA) ((n + 1) * l_size l) y -> ~ S y) ->
  slots_behind m' l n w = slots_behind m l n w.
Proof.
  intros Hz Hn F HS. apply list_fmap_ext; intros i k _.
  apply (same_except_load _ _ _ _ _ F). intros y Hy. apply HS.
  assert (Hp := Z.mod_pos_bound (w + 1 + Z.of_nat k) (n + 1) Hn).
  unfold range, slot_addr in *. rewrite Z2Nat.id in Hy by lia.
  set (j := _ mod _) in *. nia.
Qed.

(** A pool queue takes the remote ring for full. *)
Lemma pool_resync q0 d m :
  init_ok m d -> qd_queue_type d = IPC_SHM_POOL_QUEUE ->
  ring_done m (qd_pop_addr d) ->
  0 <= uint_at 4 m (qd_pop_addr d + RING_WRITE) < qd_elem_num d + 1 ->
  0 <= uint_at 4 m (qd_pop_addr d + RING_READ) < qd_elem_num d + 1 ->
  let w := uint_at 4 m (qd_pop_addr d + RING_WRITE) in
  let q := init_queue d in
  exists m1,
    ipc_queue_init (Some q0) d m = Ret (0, Some q) m1 /\
    let m2 := mark_done (qd_push_addr d) m1 in
    queue_wf m2 q /\ contents m2 (tx_link q) = [] /\
    contents m2 (rx_link q) = slots_behind m (rx_link q) (qd_elem_num d) w /\
    same_except (range (qd_push_addr d) RING_SIZE) m m2.
Proof.
  intros H Ht Hd Hw Hr w q. rewrite (ipc_queue_init_live _ _ _ H Hd). unfold sync_read.
  assert (Hn := io_num _ _ H). fold w in Hw |- *.
  rewrite Ht, (u32_small (w + 1)) by lia. eexists; split; [reflexivity |]. cbv zeta.
  assert (Hs := succ_mod_range w (qd_elem_num d + 1)).
  destruct (resync_wf m d (uint_at 4 m (qd_pop_addr d + RING_READ)) ((w + 1) mod (qd_elem_num d + 1))
              H Hd Hw Hr Hr) as (Q & F & L1 & L2 & L3 & L4); [simpl; lia |].
  fold q in Q, F, L1, L2, L3, L4.
  split_and!; [exact Q | | | exact F].
  - apply contents_empty; [simpl; lia |]. exact (eq_trans L3 (eq_sym L1)).
  - rewrite <- (slots_behind_frame _ _ _ (rx_link q) (qd_elem_num d) w (proj1 (io_size _ _ H))
                  ltac:(lia) F (init_ok_data_apart _ _ H)).
    unfold slots_behind, contents, link_count. change (qd_push_addr d) with (push_ring q).
    rewrite L2, L4. simpl l_num.
    change (uint_at 4 m (pop_ring q + RING_WRITE)) with w.
    rewrite Zminus_mod_idemp_r. replace (w - (w + 1)) with (qd_elem_num d + (-1) * (qd_elem_num d + 1)) by lia.
    rewrite Z.mod_add, (Z.mod_small (qd_elem_num d)) by lia.
    apply list_fmap_ext; intros i k _. now rewrite Zplus_mod_idemp_l.
Qed.

(** An end initialises a queue whose remote ring is live. *)
Lemma resync_live q0 d m :
  init_ok m d -> ring_done m (qd_pop_addr d) ->
  0 <= uint_at 4 m (qd_pop_addr d + RING_WRITE) < qd_elem_num d + 1 ->
  0 <= uint_at 4 m (qd_pop_addr d + RING_READ) < qd_elem_num d + 1 ->
  let w := uint_at 4 m (qd_pop_addr d + RING_WRITE) in
  let q := init_queue d in
  exists m1,
    ipc_queue_init (Some q0) d m = Ret (0, Some q) m1 /\
    let m2 := mark_done (qd_push_addr d) m1 in
    queue_wf m2 q /\ contents m2 (tx_link q) = [] /\
    contents m2 (rx_link q) =
      match qd_queue_type d with
      | IPC_SHM_CHANNEL_QUEUE => []
      | _ => slots_behind m (rx_link q) (qd_elem_num d) w
      end /\
    same_except (range (qd_push_addr d) RING_SIZE) m m2.
Proof.
  intros H Hd Hw Hr w q. destruct (io_type _ _ H) as [Ht | Ht]; rewrite Ht.
  - destruct (channel_resync q0 d m H Ht Hd Hw Hr) as (m1 & E & Q & F & S).
    exists m1. injection F as F1 F2. split_and!; auto.
  - exact (pool_resync q0 d m H Ht Hd Hw Hr).
Qed.

(** The first end initialises its side of a queue over memory whose remote ring
    shows neither magic number, then the second end its own, as a restart against
    the cleared indexes of the first. *)
Lemma handshake_wf q0 d m :
  let d' := QueueData (qd_elem_size d) (qd_elem_num d) (qd_queue_type d)
              (qd_pop_addr d) (qd_push_addr d) in
  let q := init_queue d in
  init_ok m d ->
  uint_at 8 m (qd_pop_addr d + RING_SENTINEL) <> IPC_QUEUE_INIT_IN_PROGRESS ->
  uint_at 8 m (qd_pop_addr d + RING_SENTINEL) <> IPC_QUEUE_INIT_DONE ->
  exists m1 m2,
    ipc_queue_init (Some q0) d m = Ret (0, Some q) m1 /\
    ipc_queue_init (Some q0) d' (mark_done (qd_push_addr d) m1) = Ret (0, Some (mirror q)) m2 /\
    let m3 := mark_done (qd_pop_addr d) m2 in
    queue_wf m3 q /\ contents m3 (rx_link q) = [] /\
    contents m3 (tx_link q) =
      match qd_queue_type d with
      | IPC_SHM_CHANNEL_QUEUE => []
      | _ => slots_behind m (tx_link q) (qd_elem_num d) 0
      end.
Proof.
  intros d' q H Hp Hd. rewrite ipc_queue_init_eval by exact H.
  apply Z.eqb_neq in Hp as ->, Hd as ->.
  set (m1 := sync_result m (qd_push_addr d) 0 0). set (m2 := mark_done (qd_push_addr d) m1).
  destruct (sync_result_fields m (qd_push_addr d) 0 0) as (_ & Ew & Er); [lia .. |]. fold m1 in Ew, Er.
  assert (G := mark_done_frame (qd_push_addr d) m1). fold m2 in G.
  assert (F : same_except (range (qd_push_addr d) RING_SIZE) m m2).
  { etransitivity; [apply sync_result_frame |]. eapply same_except_mono; [| exact G].
    unfold range, RING_SIZE; intros; lia. }
  assert (W : uint_at 4 m2 (qd_push_addr d + RING_WRITE) = 0).
  { rewrite <- Ew. apply (same_except_uint _ _ _ _ _ G). unfold range, RING_WRITE; intros; lia. }
  assert (R : uint_at 4 m2 (qd_push_addr d + RING_READ) = 0).
  { rewrite <- Er. apply (same_except_uint _ _ _ _ _ G). unfold range, RING_READ; intros; lia. }
  assert (H' : init_ok m2 d').
  { destruct H; constructor; auto. simpl.
    apply (link_shape_mirror m2 (init_queue d)). eapply same_except_shape; eauto. }
  assert (Hn := io_num _ _ H). assert (Hz := io_size _ _ H).
  destruct (resync_live q0 d' m2 H' (mark_done_sentinel _ _)) as (m3 & E & Q & Ct & Cr & _);
    simpl; rewrite ?W, ?R; try lia.
  exists m1, m3; split_and!; [reflexivity | exact E | | exact Ct |].
  - apply queue_wf_mirror in Q; exact Q.
  - etransitivity; [exact Cr |]. simpl. destruct (qd_queue_type d); [reflexivity | |];
      rewrite W; apply (slots_behind_frame (range (qd_push_addr d) RING_SIZE));
      simpl; auto; try lia; unfold range, RING_DATA, RING_SIZE; lia.
Qed.

(** C7: start and restart of a queue.  When the first end initialises its side
    over memory whose remote ring shows neither magic number, and then the second
    end initialises its own, each marking its ring when done, both calls succeed,
    the queue is well formed for both ends and what the second end sends is empty.
    In a channel queue what the first end sends is empty too; in a pool queue it
    is full, of the [elem_num] slots behind index 0: the second end takes every
    buffer of its peer for free.  When an end initialises a queue whose remote ring is
    live (done magic, both indexes inside the ring), it takes over the peer's
    indexes; once it has marked its ring the queue is well formed and its sending
    direction is empty.  In a channel queue the receiving direction is empty too;
    a pool queue holds the [elem_num] slots that follow the peer's write index, in
    order, so that every buffer can be acquired again.  Only the header of the
    local ring is written by the restart. *)
Theorem queue_start_and_restart q0 d m :
  init_ok m d ->
  let d' := QueueData (qd_elem_size d) (qd_elem_num d) (qd_queue_type d) (qd_pop_addr d) (qd_push_addr d) in
  let q := init_queue d in let remote off := uint_at 8 m (qd_pop_addr d + off) in
  (remote RING_SENTINEL <> IPC_QUEUE_INIT_IN_PROGRESS -> remote RING_SENTINEL <> IPC_QUEUE_INIT_DONE ->
   exists m1 m2,
     ipc_queue_init (Some q0) d m = Ret (0, Some q) m1 /\
     ipc_queue_init (Some q0) d' (mark_done (qd_push_addr d) m1) = Ret (0, Some (mirror q)) m2 /\
     let m3 := mark_done (qd_pop_addr d) m2 in
     queue_wf m3 q /\ contents m3 (rx_link q) = [] /\
     contents m3 (tx_link q) =
       match qd_queue_type d with
       | IPC_SHM_CHANNEL_QUEUE => []
       | _ => slots_behind m (tx_link q) (qd_elem_num d) 0
       end) /\
  (let w := uint_at 4 m (qd_pop_addr d + RING_WRITE) in let r := uint_at 4 m (qd_pop_addr d + RING_READ) in
   ring_done m (qd_pop_addr d) -> 0 <= w < qd_elem_num d + 1 -> 0 <= r < qd_elem_num d + 1 ->
   exists m1,
     ipc_queue_init (Some q0) d m = Ret (0, Some q) m1 /\
     let m2 := mark_done (qd_push_addr d) m1 in
     queue_wf m2 q /\ contents m2 (tx_link q) = [] /\
     contents m2 (rx_link q) =
       match qd_queue_type d with
       | IPC_SHM_CHANNEL_QUEUE => []
       | _ => slots_behind m (rx_link q) (qd_elem_num d) w
       end /\
     same_except (range (qd_push_addr d) RING_SIZE) m m2).
Proof.
  intros H d' q remote. split; [now apply handshake_wf | intros w r Hd Hw Hr].
  now apply resync_live.
Qed.

(** A push needs the indexes of its direction only: with these inside the ring
    it is the push of the bounded FIFO, whatever the two sentinels hold. *)
Lemma push_without_sentinels q b m :
  link_wf m (tx_link q) -> Z.of_nat (length b) = elem_size q ->
  exists m',
    ipc_queue_push (Some q) (Some b) m
      = Ret (fifo_push (elem_num q - 1) (contents m (tx_link q)) b).1 m' /\
    contents m' (tx_link q) = (fifo_push (elem_num q - 1) (contents m (tx_link q)) b).2.
Proof.
  intros Hwf Hb. rewrite ipc_queue_push_eval by (assumption || lia). cbv zeta.
  rewrite take_ge by lia.
  assert (Hn := ls_num _ _ (lw_shape _ _ Hwf)).
  assert (Hc := count_range (link_write m (tx_link q)) (link_read m (tx_link q)) (l_num (tx_link q))
                  ltac:(lia)).
  assert (Hf := succ_full (link_write m (tx_link q)) (link_read m (tx_link q)) (l_num (tx_link q))
                  ltac:(lia) (lw_write _ _ Hwf) (lw_read _ _ Hwf)).
  unfold fifo_push. rewrite contents_length by lia. change (elem_num q) with (l_num (tx_link q)).
  fold (link_count m (tx_link q)) in Hc, Hf.
  destruct (Z.eqb_spec ((link_write m (tx_link q) + 1) mod l_num (tx_link q)) (link_read m (tx_link q)))
    as [E | E]; destruct (Z.ltb_spec (link_count m (tx_link q)) (l_num (tx_link q) - 1)); try lia.
  - exists m; split; reflexivity.
  - eexists; split; [reflexivity |]. apply push_result_link; auto. simpl; lia.
Qed.

(** C10: defects of the peer are reported, never followed.  With mapped rings, an
    index outside the ring makes a push return -EINVAL; a pop returns -EINVAL for
    an index outside the ring and also for a sentinel of either ring that is not
    the "done" magic; the memory is left unchanged.  A push does not look at the
    sentinels: with both indexes inside the ring it behaves as the push of the
    bounded FIFO whatever they hold. *)
Theorem queue_rejects_corruption q b m :
  link_shape m (tx_link q) ->
  (elem_num q <= link_write m (tx_link q) \/ elem_num q <= link_read m (tx_link q) ->
     ipc_queue_push (Some q) (Some b) m = Ret (- EINVAL) m) /\
  (~ ring_done m (push_ring q) \/ ~ ring_done m (pop_ring q) \/
   elem_num q <= link_write m (rx_link q) \/ elem_num q <= link_read m (rx_link q) ->
     ipc_queue_pop (Some q) true m = Ret (- EINVAL, None) m) /\
  (link_wf m (tx_link q) -> Z.of_nat (length b) = elem_size q ->
   let r := fifo_push (elem_num q - 1) (contents m (tx_link q)) b in
   exists m', ipc_queue_push (Some q) (Some b) m = Ret r.1 m' /\ contents m' (tx_link q) = r.2).
Proof.
  intros Hs.
  destruct (link_header_mapped m _ RING_WRITE 4 Hs) as [M1 M2]; [easy .. |].
  destruct (link_header_mapped m _ RING_READ 4 Hs) as [M3 M4]; [easy .. |].
  destruct (link_header_mapped m _ RING_SENTINEL 8 Hs) as [M5 M6]; [easy .. |].
  split_and!; [intros H | intros H | apply push_without_sentinels];
    revert H; unfold ipc_queue_push, ipc_queue_pop, ring_write, ring_read, ipc_queue_check_integrity,
      ring_sentinel, ring_done, link_write, link_read; cbn [negb tx_link rx_link l_prod l_cons] in *;
    rewrite (ring_nonnull_test m) by exact Hs; intros H; repeat cstep.
  - replace (_ || _) with true; [reflexivity |].
    symmetry; rewrite orb_true_iff, !Z.leb_le; lia.
  - rewrite cbind_assoc. cstep.
    destruct (Z.eqb_spec IPC_QUEUE_INIT_DONE (uint_at 8 m (pop_ring q + RING_SENTINEL)));
      cbn [negb]; [| reflexivity].
    rewrite cbind_assoc. cstep.
    destruct (Z.eqb_spec IPC_QUEUE_INIT_DONE (uint_at 8 m (push_ring q + RING_SENTINEL)));
      [| reflexivity].
    erewrite cbind_Ret by reflexivity. cbv beta.
    replace (_ || _) with true; [reflexivity |].
    symmetry. change (negb (0 =? 0)) with false.
    rewrite orb_false_l, orb_true_iff, !Z.leb_le. destruct H as [H | [H | H]]; [congruence .. | lia].
Qed.
