(* ===== verification/Atomic.v ===== *)
(** * Programs as sequences of memory accesses

    The operations of [Queue] run from call to return; here a C function is
    resolved into its single loads and stores, so that several threads can be
    interleaved between them.  [run] executes such a program without
    interruption, and the programs of [QueueSteps] run that way are the functions
    of [Queue].  Memory is sequentially consistent. *)

From S2P Require Import Prelude Memory.
#[local] Open Scope Z_scope.

(** ** Accesses and programs *)

Inductive access : Type :=
| Load (n : nat) (a : Z)
| Store (n : nat) (a v : Z).

Definition do_access (x : access) : M memory Z :=
  match x with
  | Load n a => read_uint n a
  | Store n a v => write_uint n a v ;;; cret 0
  end.

(** [Wrong] is undefined behaviour other than an unmapped access. *)
Inductive prog (A : Type) : Type :=
| Done (a : A)
| Wrong
| Access (x : access) (k : Z -> prog A).
Arguments Done {A} a.
Arguments Wrong {A}.
Arguments Access {A} x k.

Fixpoint pbind {A B} (p : prog A) (f : A -> prog B) : prog B :=
  match p with
  | Done a => f a
  | Wrong => Wrong
  | Access x k => Access x (fun v => pbind (k v) f)
  end.

Notation "'let+' x := p 'in' k" := (pbind p (fun x => k))
  (at level 10, x name, p at level 100, k at level 200,
   format "'[v' 'let+'  x  ':='  p  'in' '/' k ']'") : ipc_scope.

Definition load (n : nat) (a : Z) : prog Z := Access (Load n a) Done.
Definition store (n : nat) (a v : Z) : prog unit := Access (Store n a v) (fun _ => Done tt).
Definition pmod (a b : Z) : prog Z := if b =? 0 then Wrong else Done (a mod b).

(** [memcpy] to and from shared memory, byte by byte. *)
Fixpoint store_seq (a : Z) (bs : list Z) : prog unit :=
  match bs with
  | [] => Done tt
  | b :: r => let+ _ := store 1 a b in store_seq (a + 1) r
  end.

Fixpoint load_onto (acc : list Z) (n : nat) (a : Z) : prog (list Z) :=
  match n with
  | O => Done acc
  | S k => let+ b := load 1 a in load_onto (acc ++ [b]) k (a + 1)
  end.
Definition load_seq (n : nat) (a : Z) : prog (list Z) := load_onto [] n a.

Fixpoint run {A} (p : prog A) : M memory A :=
  match p with
  | Done a => cret a
  | Wrong => cfault
  | Access x k => let* v := do_access x in run (k v)
  end.

(** ** Running without interruption *)

Lemma run_pbind {A B} (p : prog A) (f : A -> prog B) m :
  run (pbind p f) m = (let* a := run p in run (f a)) m.
Proof.
  revert m; induction p as [a | | x k IH]; intros m; cbn [pbind run]; [now rewrite cbind_cret | reflexivity |].
  rewrite cbind_assoc. unfold cbind. destruct (do_access x m); [apply IH | reflexivity].
Qed.

Lemma store_bytes_insert f a b c r :
  a < c -> store_bytes (<[a := b]> f) c r = <[a := b]> (store_bytes f c r).
Proof.
  revert c; induction r as [|x r IH]; intros c Hc; [reflexivity |].
  change (<[c := x]> (store_bytes (<[a := b]> f) (c + 1) r) = <[a := b]> (<[c := x]> (store_bytes f (c + 1) r))).
  rewrite IH by lia. apply insert_insert_ne. lia.
Qed.

Lemma set_bytes_cons m a b r : set_bytes (set_bytes m a [b]) (a + 1) r = set_bytes m a (b :: r).
Proof.
  unfold set_bytes. cbn [mem_regions mem_bytes]. f_equal.
  change (store_bytes (mem_bytes m) a [b]) with (<[a := b]> (mem_bytes m)).
  rewrite store_bytes_insert by lia. reflexivity.
Qed.

Lemma byte_encode b : 0 <= b < 256 -> le_encode 1 b = [b].
Proof. intros H. change (le_encode 1 b) with [b mod 256]. now rewrite Z.mod_small. Qed.

Lemma byte_load m a : uint_at 1 m a = byte_at (mem_bytes m) a.
Proof. unfold uint_at. cbv [load_bytes le_decode]. lia. Qed.

Lemma run_store_seq bs : forall a m,
  bytes_ok bs -> mapped m a (Z.of_nat (length bs)) = true ->
  run (store_seq a bs) m = Ret tt (set_bytes m a bs).
Proof.
  induction bs as [|b r IH]; intros a m Hb Hm; cbn [store_seq].
  - cbn [run]. unfold cret. now destruct m.
  - apply Forall_cons_1 in Hb as [Hb Hr]. cbn [length] in Hm. rewrite run_pbind.
    assert (M1 : mapped m a 1 = true) by (eapply mapped_sub; [exact Hm | lia | lia]).
    unfold store. cbn [run do_access]. rewrite !cbind_assoc.
    rewrite (cbind_Ret _ _ _ _ _ (write_uint_ok 1 a b m M1)), !cbind_cret, byte_encode by exact Hb.
    rewrite IH, set_bytes_cons; [reflexivity | exact Hr |].
    rewrite mapped_set. eapply mapped_sub; [exact Hm | lia | lia].
Qed.

Lemma run_load_onto n : forall acc a m,
  mapped m a (Z.of_nat n) = true ->
  run (load_onto acc n a) m = Ret (acc ++ load_bytes (mem_bytes m) a n) m.
Proof.
  induction n as [|n IH]; intros acc a m Hm; cbn [load_onto].
  - cbn [run]. unfold cret. change (load_bytes _ a 0) with (@nil Z). now rewrite app_nil_r.
  - assert (M1 : mapped m a 1 = true) by (eapply mapped_sub; [exact Hm | lia | lia]).
    rewrite run_pbind. unfold load. cbn [run do_access]. rewrite !cbind_assoc.
    rewrite (cbind_Ret _ _ _ _ _ (read_uint_ok 1 a m M1)), cbind_cret, IH.
    + rewrite byte_load, <- app_assoc. reflexivity.
    + eapply mapped_sub; [exact Hm | lia | lia].
Qed.

Lemma run_load_seq n a m :
  mapped m a (Z.of_nat n) = true -> run (load_seq n a) m = Ret (load_bytes (mem_bytes m) a n) m.
Proof. apply run_load_onto. Qed.

(** ** Length of a program *)

(** [p] makes at most [n] accesses, whatever they return. *)
Fixpoint within {A} (n : nat) (p : prog A) {struct p} : Prop :=
  match p with
  | Done _ | Wrong => True
  | Access _ k =>
      match n with
      | O => False
      | S n => forall v, within n (k v)
      end
  end.

Lemma within_mono {A} (p : prog A) : forall n n', (n <= n')%nat -> within n p -> within n' p.
Proof.
  induction p as [a | | x k IH]; intros n n' Hn H; [exact I | exact I |].
  destruct n; [easy |]. destruct n' as [|n']; [lia |]. intros v. apply (IH v n); [lia | apply H].
Qed.

Lemma within_pbind {A B} (p : prog A) (f : A -> prog B) : forall n k,
  within n p -> (forall a, within k (f a)) -> within (n + k) (pbind p f).
Proof.
  induction p as [a | | x h IH]; intros n k Hp Hf; cbn [pbind].
  - eapply within_mono; [| apply Hf]. lia.
  - exact Hp.
  - destruct n; [easy |]. cbn [within Nat.add]. intros v. apply IH; [apply Hp | exact Hf].
Qed.

Lemma within_store_seq bs : forall a, within (length bs) (store_seq a bs).
Proof. induction bs as [|b r IH]; intros a; [exact I |]. intros v. apply IH. Qed.

Lemma within_load_onto n : forall acc a, within n (load_onto acc n a).
Proof. induction n as [|n IH]; intros acc a; [exact I |]. intros v. apply IH. Qed.

(** ** Threads *)

Section Threads.
Context {T : Type} `{EqDecision T} {O R : Type}.

(** What a thread of the object can be seen doing. *)
Inductive event : Type :=
| ECall (t : T) (op : O)
| EAccess (t : T)
| EReturn (t : T) (r : R).

Inductive thread : Type :=
| Idle
| Running (p : prog R).

Definition upd {X} (f : T -> X) (t : T) (x : X) : T -> X := fun t' => if decide (t' = t) then x else f t'.

Lemma upd_same {X} (f : T -> X) t x : upd f t x t = x.
Proof. unfold upd. now destruct (decide (t = t)). Qed.

Lemma upd_other {X} (f : T -> X) t t' x : t' <> t -> upd f t x t' = f t'.
Proof. intros H. unfold upd. now destruct (decide (t' = t)). Qed.

Definition conf : Type := memory * (T -> thread).

(** One step of some thread: [allowed] says which operation it may call, [code]
    is the program of the operation. *)
Context (allowed : T -> O -> Prop) (code : T -> O -> prog R).

Inductive step : conf -> event -> conf -> Prop :=
| step_call m th t op :
    th t = Idle -> allowed t op -> step (m, th) (ECall t op) (m, upd th t (Running (code t op)))
| step_access m th t x k v m' :
    th t = Running (Access x k) -> do_access x m = Ret v m' ->
    step (m, th) (EAccess t) (m', upd th t (Running (k v)))
| step_return m th t r :
    th t = Running (Done r) -> step (m, th) (EReturn t r) (m, upd th t Idle).

(** An access that faults, or other undefined behaviour, is next. *)
Definition faults (c : conf) (t : T) : Prop :=
  match c.2 t with
  | Running Wrong => True
  | Running (Access x _) => do_access x c.1 = Fault
  | _ => False
  end.

(** What thread [t] does next, calling [op] if it is idle. *)
Definition turn (c : conf) (t : T) (op : O) : option (event * conf) :=
  match c.2 t with
  | Idle => Some (ECall t op, (c.1, upd c.2 t (Running (code t op))))
  | Running (Done r) => Some (EReturn t r, (c.1, upd c.2 t Idle))
  | Running Wrong => None
  | Running (Access x k) =>
      match do_access x c.1 with
      | Ret v m' => Some (EAccess t, (m', upd c.2 t (Running (k v))))
      | Fault => None
      end
  end.

(** The threads take turns as [plan] says, until one is stuck. *)
Fixpoint play (plan : list (T * O)) (c : conf) : list event * conf :=
  match plan with
  | [] => ([], c)
  | (t, op) :: plan =>
      match turn c t op with
      | Some (e, c1) => let r := play plan c1 in (e :: r.1, r.2)
      | None => ([], c)
      end
  end.

Lemma turn_step c t op e c' : allowed t op -> turn c t op = Some (e, c') -> step c e c'.
Proof.
  destruct c as [m th]. unfold turn. cbn [fst snd]. intros Ha.
  destruct (th t) as [| [r | | x k]] eqn:Et; [.. | destruct (do_access x m) as [v m' |] eqn:Ed];
    intros [= <- <-]; econstructor; eauto.
Qed.

(** The object with atomic operations: an operation takes effect at one moment
    between its call and its return. *)
Context {S : Type} (effect : T -> O -> S -> R * S).

Inductive pending : Type :=
| AIdle
| ACalled (op : O)
| ADone (r : R).

Inductive astep : S * (T -> pending) -> option event -> S * (T -> pending) -> Prop :=
| astep_call s th t op :
    th t = AIdle -> allowed t op -> astep (s, th) (Some (ECall t op)) (s, upd th t (ACalled op))
| astep_effect s th t op :
    th t = ACalled op -> astep (s, th) None ((effect t op s).2, upd th t (ADone (effect t op s).1))
| astep_return s th t r :
    th t = ADone r -> astep (s, th) (Some (EReturn t r)) (s, upd th t AIdle).

End Threads.
Arguments event : clear implicits.
Arguments thread : clear implicits.
Arguments pending : clear implicits.
Arguments conf : clear implicits.

(** ** Executions *)

Section Executions.
Context {C E : Type}.

(** Labels of the steps, in order. *)
Inductive exec (step : C -> E -> C -> Prop) : C -> list E -> C -> Prop :=
| exec_nil c : exec step c [] c
| exec_cons c e c1 es c' : step c e c1 -> exec step c1 es c' -> exec step c (e :: es) c'.

Lemma exec_app (step : C -> E -> C -> Prop) c es c1 es' c' :
  exec step c es c1 -> exec step c1 es' c' -> exec step c (es ++ es') c'.
Proof. induction 1; [easy |]. intros H'. econstructor; eauto. Qed.

Lemma exec_inv (step : C -> E -> C -> Prop) (I : C -> Prop) c es c' :
  (forall c e c', I c -> step c e c' -> I c') -> exec step c es c' -> I c -> I c'.
Proof. intros Hs. induction 1; eauto. Qed.

End Executions.

(** ** Executions of threads *)

Section ThreadExecutions.
Context {T : Type} `{EqDecision T} {O R : Type}.
Context (allowed : T -> O -> Prop) (code : T -> O -> prog R).

Lemma play_exec plan c :
  Forall (fun p => allowed p.1 p.2) plan -> exec (step allowed code) c (play code plan c).1 (play code plan c).2.
Proof.
  intros Hp. revert c. induction Hp as [| [t op] plan Ha _ IH]; intros c; cbn [play]; [apply exec_nil |].
  destruct (turn code c t op) as [[e c1] |] eqn:Et; [| apply exec_nil].
  econstructor; [exact (turn_step allowed code c t op e c1 Ha Et) | apply IH].
Qed.

(** Accesses of a thread in an execution. *)
Definition accesses (t : T) (es : list (event T O R)) : nat :=
  length (List.filter (fun e => match e with EAccess t' => bool_decide (t' = t) | _ => false end) es).

Lemma accesses_bounded t c es c' :
  exec (step allowed code) c es c' -> forall p n, c.2 t = Running p -> within n p ->
  (forall v, EReturn t v ∉ es) ->
  exists p', c'.2 t = Running p' /\ (accesses t es <= n)%nat /\ within (n - accesses t es) p'.
Proof.
  induction 1 as [c | c e c1 es c' Hs He IH]; intros p n Hp Hn Hr.
  - exists p. cbn. rewrite Nat.sub_0_r. split_and!; auto. lia.
  - assert (Hr' : forall v, EReturn t v ∉ es) by (intros v Hv; apply (Hr v); now right).
    destruct Hs as [m th t' op Hi Ha | m th t' x k v m' Hx Hd | m th t' v Hd]; cbn [fst snd] in *.
    + assert (t <> t') as Hne by (intros ->; congruence).
      apply (IH p n); auto. now rewrite upd_other.
    + destruct (decide (t' = t)) as [-> | Hne].
      * rewrite Hp in Hx. injection Hx as ->. destruct n as [|n]; [easy |].
        destruct (IH (k v) n) as (p' & E & Hc & Hw); [now rewrite upd_same | apply Hn | exact Hr' |].
        exists p'. unfold accesses in *. cbn [List.filter]. rewrite bool_decide_true by reflexivity. cbn [length].
        split_and!; [exact E | lia | exact Hw].
      * destruct (IH p n) as (p' & E & Hc & Hw); [now rewrite upd_other | exact Hn | exact Hr' |].
        exists p'. unfold accesses in *. cbn [List.filter]. rewrite bool_decide_false by exact Hne. auto.
    + assert (t <> t') as Hne by (intros ->; apply (Hr v); now left).
      apply (IH p n); auto. now rewrite upd_other.
Qed.


(** A thread in an operation that does not fault has a next step. *)
Lemma running_steps c t p :
  c.2 t = Running p -> ~ faults c t ->
  exists e c', step allowed code c e c' /\ (e = EAccess t \/ exists v, e = EReturn t v).
Proof.
  destruct c as [m th]. unfold faults. cbn [fst snd]. intros E. rewrite E. intros Hf.
  destruct p as [v | | x k]; [| easy |].
  - exists (EReturn t v), (m, upd th t Idle). split; [now apply step_return | eauto].
  - destruct (do_access x m) as [v m' |] eqn:Ed; [| easy].
    exists (EAccess t), (m', upd th t (Running (k v))). split; [now apply step_access with x | auto].
Qed.

End ThreadExecutions.

(** Calls and returns of an execution: what a client sees. *)
Definition visible {T O R} (es : list (event T O R)) : list (event T O R) :=
  List.filter (fun e => match e with EAccess _ => false | _ => true end) es.

(** Labels of an execution of the atomic object. *)
Definition labels {E} (es : list (option E)) : list E := omap id es.

(** A relation every step of an implementation keeps, with steps of the object
    that show the same calls and returns, keeps executions the same way. *)
Lemma simulation_exec {C A T O R} (istep : C -> event T O R -> C -> Prop)
    (ostep : A -> option (event T O R) -> A -> Prop) (rel : C -> A -> Prop) :
  (forall c e c' a, rel c a -> istep c e c' ->
     exists ls a', exec ostep a ls a' /\ labels ls = visible [e] /\ rel c' a') ->
  forall c es c', exec istep c es c' -> forall a, rel c a ->
  exists ls a', exec ostep a ls a' /\ labels ls = visible es /\ rel c' a'.
Proof.
  intros Hstep. induction 1 as [c | c e c1 es c' Hs _ IH]; intros a Ha;
    [exists [], a; split_and!; [constructor | reflexivity | exact Ha] |].
  destruct (Hstep c e c1 a Ha Hs) as (l1 & a1 & E1 & L1 & S1).
  destruct (IH a1 S1) as (l2 & a2 & E2 & L2 & S2). exists (l1 ++ l2), a2. split_and!; auto.
  - eapply exec_app; eauto.
  - unfold labels in *. rewrite omap_app, L1, L2. change (e :: es) with ([e] ++ es).
    unfold visible. now rewrite filter_app.
Qed.
