(* ===== verification/QueueSteps.v ===== *)
(** * Push and pop, access by access (src/ipc-queue.c)

    The programs of [ipc_queue_push] and [ipc_queue_pop]: every load and store of
    the shared memory in program order, the indexes as 32-bit accesses, the
    element byte by byte.  Run without interruption they are the functions of
    [Queue]. *)

From S2P Require Import Prelude Memory Types Queue QueueSpec Atomic.
#[local] Open Scope Z_scope.

(** ** Programs *)

(** copy element from buffer in queue, increment write index with wrap around *)
Definition push_store (q : ipc_queue) (b : list Z) (write : Z) : prog Z :=
  if Z.of_nat (length b) <? elem_size q then Wrong else
  let+ _ := store_seq (push_ring q + RING_DATA + u32 (write * elem_size q))
              (take (Z.to_nat (elem_size q)) b) in
  let+ next := pmod (u32 (write + 1)) (elem_num q) in
  let+ _ := store 4 (push_ring q + RING_WRITE) next in
  Done 0.

Definition push_test (q : ipc_queue) (b : list Z) (write read : Z) : prog Z :=
  if (elem_num q <=? read) || (elem_num q <=? write) then Done (- EINVAL) else
  let+ next := pmod (u32 (write + 1)) (elem_num q) in
  if next =? read then Done (- ENOMEM) else push_store q b write.

Definition ipc_queue_push_steps (queue : option ipc_queue) (buf : option (list Z)) : prog Z :=
  match queue, buf with
  | Some q, Some b =>
    if (push_ring q =? NULL) || (pop_ring q =? NULL) then Done (- EINVAL) else
    let+ write := load 4 (push_ring q + RING_WRITE) in
    let+ read := load 4 (pop_ring q + RING_READ) in
    push_test q b write read
  | _, _ => Done (- EINVAL)
  end.

Definition ipc_queue_check_integrity_steps (q : ipc_queue) : prog Z :=
  let+ s1 := load 8 (pop_ring q + RING_SENTINEL) in
  if negb (IPC_QUEUE_INIT_DONE =? s1) then Done (- EINVAL) else
  let+ s2 := load 8 (push_ring q + RING_SENTINEL) in
  if IPC_QUEUE_INIT_DONE =? s2 then Done 0 else Done (- EINVAL).

(** increment read index with wrap around *)
Definition pop_store (q : ipc_queue) (read : Z) (e : list Z) : prog (Z * option (list Z)) :=
  let+ next := pmod (u32 (read + 1)) (elem_num q) in
  let+ _ := store 4 (push_ring q + RING_READ) next in
  Done (0, Some e).

Definition pop_test (q : ipc_queue) (write read ok : Z) : prog (Z * option (list Z)) :=
  if negb (ok =? 0) || (elem_num q <=? read) || (elem_num q <=? write) then
    Done (- EINVAL, None)
  else if read =? write then Done (- ENOBUFS, None)
  else
    let+ e := load_seq (Z.to_nat (elem_size q)) (pop_ring q + RING_DATA + u32 (read * elem_size q)) in
    pop_store q read e.

Definition ipc_queue_pop_steps (queue : option ipc_queue) (buf : bool) : prog (Z * option (list Z)) :=
  match queue with
  | None => Done (- EINVAL, None)
  | Some q =>
    if negb buf then Done (- EINVAL, None) else
    if (push_ring q =? NULL) || (pop_ring q =? NULL) then Done (- EINVAL, None) else
    let+ write := load 4 (pop_ring q + RING_WRITE) in
    let+ read := load 4 (push_ring q + RING_READ) in
    let+ ok := ipc_queue_check_integrity_steps q in
    pop_test q write read ok
  end.

(** The program of an operation of one end. *)
Definition op_steps (q : ipc_queue) (op : qop) : prog (Z * option (list Z)) :=
  match op with
  | OpPush e => let+ r := ipc_queue_push_steps (Some q) (Some e) in Done (r, None)
  | OpPop => ipc_queue_pop_steps (Some q) true
  end.

(** ** Without interruption: the functions of [Queue] *)

Lemma run_load n a m : run (load n a) m = read_uint n a m.
Proof. unfold load. cbn [run do_access]. unfold cbind, cret. now destruct (read_uint n a m). Qed.

Lemma run_store n a v m : run (store n a v) m = write_uint n a v m.
Proof. unfold store. cbn [run do_access]. unfold cbind, cret. now destruct (write_uint n a v m) as [[] |]. Qed.

Lemma run_pmod a b m : run (pmod a b) m = umod a b m.
Proof. unfold pmod, umod. now destruct (b =? 0). Qed.

Lemma bind_run {A B} (p : prog A) (c : M memory A) (f : A -> prog B) (k : A -> M memory B) m :
  (forall m, run p m = c m) -> (forall a m, run (f a) m = k a m) -> run (pbind p f) m = cbind c k m.
Proof. intros H1 H2. rewrite run_pbind. unfold cbind. rewrite H1. destruct (c m); auto. Qed.

(** The same binding on both sides. *)
Ltac same_bind :=
  match goal with
  | |- run (pbind (load _ _) _) _ = _ => rewrite run_pbind; unfold cbind; rewrite run_load
  | |- run (pbind (store _ _ _) _) _ = _ => rewrite run_pbind; unfold cbind; rewrite run_store
  | |- run (pbind (pmod _ _) _) _ = _ => rewrite run_pbind; unfold cbind; rewrite run_pmod
  end.

(** Resolved into accesses, the operations are the functions of [Queue]. *)
Lemma push_steps_run q b m :
  link_shape m (tx_link q) -> mem_ok m -> bytes_ok b ->
  run (ipc_queue_push_steps (Some q) (Some b)) m = ipc_queue_push (Some q) (Some b) m.
Proof.
  intros Hs Hok Hb. unfold ipc_queue_push_steps, ipc_queue_push.
  destruct (_ || _); [reflexivity |].
  destruct (link_header_mapped m _ RING_WRITE 4 Hs) as [Mw _]; [easy .. |].
  destruct (link_header_mapped m _ RING_READ 4 Hs) as [_ Mr]; [easy .. |].
  cbn [tx_link l_prod l_cons] in Mw, Mr. unfold ring_write, ring_read.
  same_bind. rewrite (read_uint_ok 4 _ m Mw). same_bind. rewrite (read_uint_ok 4 _ m Mr).
  set (w := uint_at 4 m (push_ring q + RING_WRITE)). set (r := uint_at 4 m (pop_ring q + RING_READ)).
  unfold push_test. destruct (_ || _) eqn:Ei; [reflexivity |]. same_bind.
  destruct (umod _ _ m) as [nx m' |] eqn:En; [| reflexivity].
  assert (m' = m) as -> by (unfold umod in En; destruct (_ =? 0); [discriminate | now injection En as _ <-]).
  destruct (nx =? r); [reflexivity |]. unfold push_store. destruct (_ <? _) eqn:El; [reflexivity |].
  apply Z.ltb_ge in El. assert (Hw := uint_at_range 4 m (push_ring q + RING_WRITE) Hok). fold w in Hw.
  bool_to_prop. assert (Hz := ls_size _ _ Hs).
  assert (Hi : 0 <= w < l_num (tx_link q)) by (cbn; lia).
  rewrite (slot_mul_u32 m (tx_link q) w Hs Hi : u32 (w * elem_size q) = w * elem_size q).
  assert (Ms := slot_mapped m (tx_link q) w Hs Hi). unfold slot_addr in Ms. cbn in Ms, Hz.
  assert (Hl : Z.of_nat (length (take (Z.to_nat (elem_size q)) b)) = elem_size q) by (rewrite length_take; lia).
  rewrite run_pbind, (cbind_Ret _ _ _ _ _ (run_store_seq (take (Z.to_nat (elem_size q)) b) _ m
    ltac:(now apply Forall_take) ltac:(rewrite Hl; exact Ms))).
  rewrite (write_bytes_ok _ _ m ltac:(rewrite Hl; exact Ms)). same_bind.
  destruct (umod _ _ (set_bytes _ _ _)); [| reflexivity]. same_bind.
  unfold set_ring_write. now destruct (write_uint _ _ _ _).
Qed.

Lemma integrity_steps_run q m : run (ipc_queue_check_integrity_steps q) m = ipc_queue_check_integrity q m.
Proof.
  unfold ipc_queue_check_integrity_steps, ipc_queue_check_integrity, ring_sentinel.
  apply bind_run; [intros; apply run_load |]. intros a m'. destruct (negb _); [reflexivity |].
  apply bind_run; [intros; apply run_load |]. intros b m''. now destruct (_ =? _).
Qed.

Lemma pop_steps_run q m :
  link_shape m (rx_link q) -> mem_ok m ->
  run (ipc_queue_pop_steps (Some q) true) m = ipc_queue_pop (Some q) true m.
Proof.
  intros Hs Hok. unfold ipc_queue_pop_steps, ipc_queue_pop. cbn [negb].
  destruct (_ || _); [reflexivity |].
  destruct (link_header_mapped m _ RING_WRITE 4 Hs) as [Mw _]; [easy .. |].
  destruct (link_header_mapped m _ RING_READ 4 Hs) as [_ Mr]; [easy .. |].
  cbn [rx_link l_prod l_cons] in Mw, Mr. unfold ring_write, ring_read.
  same_bind. rewrite (read_uint_ok 4 _ m Mw). same_bind. rewrite (read_uint_ok 4 _ m Mr).
  set (w := uint_at 4 m (pop_ring q + RING_WRITE)). set (r := uint_at 4 m (push_ring q + RING_READ)).
  rewrite run_pbind. unfold cbind at 1. rewrite integrity_steps_run.
  destruct (ipc_queue_check_integrity q m) as [ok m' |] eqn:Ec; [| reflexivity].
  assert (m' = m) as -> by (unfold ipc_queue_check_integrity, ring_sentinel in Ec; cinv; reflexivity).
  unfold pop_test. destruct (_ || _) eqn:Ei; [reflexivity |]. destruct (r =? w); [reflexivity |].
  assert (Hr := uint_at_range 4 m (push_ring q + RING_READ) Hok). fold r in Hr. bool_to_prop.
  assert (Hz := ls_size _ _ Hs). assert (Hi : 0 <= r < l_num (rx_link q)) by (cbn; lia).
  rewrite (slot_mul_u32 m (rx_link q) r Hs Hi : u32 (r * elem_size q) = r * elem_size q).
  assert (Ms := slot_mapped m (rx_link q) r Hs Hi). unfold slot_addr in Ms. cbn in Ms, Hz.
  assert (Mz : mapped m (pop_ring q + RING_DATA + r * elem_size q) (Z.of_nat (Z.to_nat (elem_size q))) = true)
    by (rewrite Z2Nat.id by lia; exact Ms).
  rewrite run_pbind, (cbind_Ret _ _ _ _ _ (run_load_seq _ _ _ Mz)), (read_bytes_ok _ _ _ Mz).
  unfold pop_store. same_bind. destruct (umod _ _ _); [| reflexivity].
  same_bind. unfold set_ring_read. now destruct (write_uint _ _ _ _).
Qed.

(** ** Initialisation *)

(** Use values from remote if it is already initialized *)
Definition sync_take (q : ipc_queue) (t : ipc_shm_queue_type) : prog Z :=
  let+ r := load 4 (pop_ring q + RING_READ) in
  let+ _ := store 4 (push_ring q + RING_WRITE) r in
  let+ w := load 4 (pop_ring q + RING_WRITE) in
  let+ v := (match t with
             | IPC_SHM_CHANNEL_QUEUE => pmod w (elem_num q)
             | _ => pmod (u32 (w + 1)) (elem_num q)
             end) in
  let+ _ := store 4 (push_ring q + RING_READ) v in
  Done 0.

Definition sync_reset (q : ipc_queue) : prog Z :=
  let+ _ := store 4 (push_ring q + RING_WRITE) 0 in
  let+ _ := store 4 (push_ring q + RING_READ) 0 in
  Done 0.

Definition sync_indexes (q : ipc_queue) (t : ipc_shm_queue_type) : prog Z :=
  let+ s := load 8 (pop_ring q + RING_SENTINEL) in
  if s =? IPC_QUEUE_INIT_DONE then sync_take q t else sync_reset q.

Definition ipc_queue_sync_index_steps (q : ipc_queue) (t : ipc_shm_queue_type) : prog Z :=
  let+ s := load 8 (pop_ring q + RING_SENTINEL) in
  if s =? IPC_QUEUE_INIT_IN_PROGRESS then Done (- EAGAIN) else
  let+ _ := store 8 (push_ring q + RING_SENTINEL) IPC_QUEUE_INIT_IN_PROGRESS in
  sync_indexes q t.

Lemma sync_steps_run q t m : run (ipc_queue_sync_index_steps q t) m = ipc_queue_sync_index q t m.
Proof.
  unfold ipc_queue_sync_index_steps, ipc_queue_sync_index, ring_sentinel, set_ring_sentinel.
  apply bind_run; [intros; apply run_load |]. intros s m1. destruct (_ =? _); [reflexivity |].
  apply bind_run; [intros; apply run_store |]. intros _ m2. unfold sync_indexes.
  apply bind_run; [intros; apply run_load |]. intros s2 m3.
  unfold sync_take, sync_reset, ring_read, ring_write, set_ring_read, set_ring_write. destruct (_ =? _).
  - apply bind_run; [intros; apply run_load |]. intros r m4.
    apply bind_run; [intros; apply run_store |]. intros _ m5.
    apply bind_run; [intros; apply run_load |]. intros w m6.
    apply bind_run; [intros; destruct t; apply run_pmod |]. intros v m7.
    apply bind_run; [intros; apply run_store |]. reflexivity.
  - apply bind_run; [intros; apply run_store |]. intros _ m4.
    apply bind_run; [intros; apply run_store |]. reflexivity.
Qed.

(** Start of one end of a channel queue: the indexes, then the mark
    [managed_channel_init] leaves behind. *)
Definition start_steps (q : ipc_queue) : prog Z :=
  let+ err := ipc_queue_sync_index_steps q IPC_SHM_CHANNEL_QUEUE in
  if negb (err =? 0) then Done err else
  let+ _ := store 8 (push_ring q + RING_SENTINEL) IPC_QUEUE_INIT_DONE in
  Done 0.
