(* ===== verification/Linear.v ===== *)
(** * The queue under concurrent use

    Two ends, each with one thread that pushes and one that pops, interleaved
    access by access.  The queue behaves as two FIFOs with atomic operations:
    every execution has the calls and returns of an execution of that object. *)

From S2P Require Import Prelude Memory Types Queue QueueSpec Atomic QueueSteps.
#[local] Open Scope Z_scope.

(** ** Threads of the queue *)

Inductive role : Type := Pusher | Popper.
#[export] Instance role_eq_dec : EqDecision role.
Proof. solve_decision. Defined.
#[export] Instance endpoint_eq_dec : EqDecision endpoint.
Proof. solve_decision. Defined.

Abbreviation tid := (endpoint * role)%type.
Abbreviation result := (Z * option (list Z))%type.

(** Single producer, single consumer: a thread pushes elements of the queue's
    size, or it pops. *)
Definition allowed (q : ipc_queue) (t : tid) (op : qop) : Prop :=
  match t.2, op with
  | Pusher, OpPush e => length e = Z.to_nat (elem_size q) /\ bytes_ok e
  | Popper, OpPop => True
  | _, _ => False
  end.

Definition code (q : ipc_queue) (t : tid) (op : qop) : prog result := op_steps (end_queue q t.1) op.

(** The two FIFOs with atomic operations. *)
Definition fifo_effect (cap : Z) (t : tid) (op : qop) (s : list (list Z) * list (list Z)) :
    result * (list (list Z) * list (list Z)) :=
  let p := spec_op cap op (swap_at t.1 s) in (p.1, swap_at t.1 p.2).

Abbreviation qstep q := (step (allowed q) (code q)).
Abbreviation fstep q := (astep (allowed q) (fifo_effect (elem_num q - 1))).

(** ** What a thread does to the memory *)

Definition full (m : memory) (l : link) : Prop := (link_write m l + 1) mod l_num l = link_read m l.
#[export] Instance full_dec m l : Decision (full m l).
Proof. unfold full. apply _. Defined.

(** The producer writes the free slot, or publishes it. *)
Definition push_guar (l : link) (m m' : memory) : Prop :=
  same_except (range (slot_addr l (link_write m l)) (l_size l)) m m' \/
  same_except (range (l_prod l + RING_WRITE) 4) m m' /\
    ~ full m l /\ link_write m' l = (link_write m l + 1) mod l_num l.

(** The consumer gives the first slot back. *)
Definition pop_guar (l : link) (m m' : memory) : Prop :=
  m' = m \/
  same_except (range (l_cons l + RING_READ) 4) m m' /\
    link_read m l <> link_write m l /\ link_read m' l = (link_read m l + 1) mod l_num l.

(** What the producer and the consumer of a link rely on. *)
Record push_rely (l : link) (m m' : memory) : Prop := {
  pr_write : link_write m' l = link_write m l;
  pr_room : ~ full m l -> ~ full m' l;
  pr_slot : forall x, range (slot_addr l (link_write m l)) (l_size l) x ->
    byte_at (mem_bytes m') x = byte_at (mem_bytes m) x
}.

Record pop_rely (l : link) (m m' : memory) : Prop := {
  cr_read : link_read m' l = link_read m l;
  cr_some : link_read m l <> link_write m l -> link_read m' l <> link_write m' l;
  cr_slot : link_read m l <> link_write m l -> slot m' l (link_read m l) = slot m l (link_read m l)
}.

(** ** One link: contents under the steps of its producer and consumer *)

Section Link.
Context (m m' : memory) (l : link) (Hl : link_wf m l).

Lemma link_bounds :
  0 < l_num l < 65536 /\ 0 < l_size l < 256 /\ 0 <= link_write m l < l_num l /\
  0 <= link_read m l < l_num l /\ disjoint_ranges (l_prod l) (ring_bytes l) (l_cons l) (ring_bytes l).
Proof. destruct Hl as [[] ? ?]. auto. Qed.

(** Writing the free slot changes nothing that is queued. *)
Lemma slot_write_link :
  same_except (range (slot_addr l (link_write m l)) (l_size l)) m m' ->
  contents m' l = contents m l /\ link_wf m' l /\ link_write m' l = link_write m l /\
  link_read m' l = link_read m l /\
  forall i, 0 <= i < l_num l -> i <> link_write m l -> slot m' l i = slot m l i.
Proof.
  intros HP. destruct link_bounds as (Hn & Hz & Hw & Hr & Hd).
  destruct (slot_in_ring l (link_write m l)) as [B1 B2]; [lia | exact Hw |].
  unfold ring_bytes, disjoint_ranges, RING_SIZE, RING_DATA in *.
  assert (Ew : link_write m' l = link_write m l).
  { apply (same_except_uint _ _ _ _ _ HP). intros x Hx Px. unfold range, RING_WRITE in *. lia. }
  assert (Er : link_read m' l = link_read m l).
  { apply (same_except_uint _ _ _ _ _ HP). intros x Hx Px. unfold range, RING_READ in *. nia. }
  assert (Es : forall i, 0 <= i < l_num l -> i <> link_write m l -> slot m' l i = slot m l i).
  { intros i Hi Hne. apply (same_except_load _ _ _ _ _ HP). intros x Hx Px.
    destruct (slots_disjoint l i (link_write m l) ltac:(lia) Hne); unfold range in *; lia. }
  split_and!; auto.
  - unfold contents, link_count. rewrite Ew, Er. apply list_fmap_ext. intros k x Hk.
    apply lookup_seq in Hk as [-> Hk]. apply Es; [apply Z.mod_pos_bound; lia |].
    apply queued_ne_write; lia.
  - constructor; [eapply same_except_shape; [exact HP | apply Hl] | lia | lia].
Qed.

(** Publishing the slot. *)
Lemma publish_link :
  same_except (range (l_prod l + RING_WRITE) 4) m m' -> ~ full m l ->
  link_write m' l = (link_write m l + 1) mod l_num l ->
  contents m' l = contents m l ++ [slot m l (link_write m l)] /\ link_wf m' l /\
  link_read m' l = link_read m l /\ forall i, 0 <= i < l_num l -> slot m' l i = slot m l i.
Proof.
  intros HP Hf Ew. destruct link_bounds as (Hn & Hz & Hw & Hr & Hd).
  assert (Hs := succ_mod_range (link_write m l) (l_num l)).
  unfold ring_bytes, disjoint_ranges, RING_SIZE, RING_DATA in *.
  assert (Er : link_read m' l = link_read m l).
  { apply (same_except_uint _ _ _ _ _ HP). intros x Hx Px. unfold range, RING_READ, RING_WRITE in *. nia. }
  assert (Es : forall i, 0 <= i < l_num l -> slot m' l i = slot m l i).
  { intros i Hi. apply (same_except_load _ _ _ _ _ HP). intros x Hx Px.
    destruct (slot_in_ring l i ltac:(lia) Hi). unfold range, RING_WRITE, RING_DATA in *. lia. }
  split_and!; auto.
  - apply contents_push; auto.
  - constructor; [eapply same_except_shape; [exact HP | apply Hl] | lia | lia].
Qed.

(** Taking the first element. *)
Lemma take_link :
  same_except (range (l_cons l + RING_READ) 4) m m' -> link_read m l <> link_write m l ->
  link_read m' l = (link_read m l + 1) mod l_num l ->
  contents m l = slot m l (link_read m l) :: contents m' l /\ link_wf m' l /\
  link_write m' l = link_write m l /\ forall i, 0 <= i < l_num l -> slot m' l i = slot m l i.
Proof.
  intros HP Hne Er. destruct link_bounds as (Hn & Hz & Hw & Hr & Hd).
  assert (Hs := succ_mod_range (link_read m l) (l_num l)).
  unfold ring_bytes, disjoint_ranges, RING_SIZE, RING_DATA in *.
  assert (Ew : link_write m' l = link_write m l).
  { apply (same_except_uint _ _ _ _ _ HP). intros x Hx Px. unfold range, RING_READ, RING_WRITE in *. nia. }
  assert (Es : forall i, 0 <= i < l_num l -> slot m' l i = slot m l i).
  { intros i Hi. apply (same_except_load _ _ _ _ _ HP). intros x Hx Px.
    destruct (slot_in_ring l i ltac:(lia) Hi).
    unfold range, ring_bytes, RING_SIZE, RING_READ, RING_DATA in *. nia. }
  split_and!; auto.
  - apply contents_pop; auto.
  - constructor; [eapply same_except_shape; [exact HP | apply Hl] | lia | lia].
Qed.

(** A link the writes do not touch. *)
Lemma untouched_rely (P : Z -> Prop) :
  same_except P m m' ->
  (forall x, range (l_prod l + RING_WRITE) 4 x -> ~ P x) ->
  (forall x, range (l_cons l + RING_READ) 4 x -> ~ P x) ->
  (forall x, range (l_prod l + RING_DATA) (l_num l * l_size l) x -> ~ P x) ->
  push_rely l m m' /\ pop_rely l m m'.
Proof.
  intros HP H1 H2 H3. destruct link_bounds as (Hn & Hz & Hw & Hr & _).
  assert (Ew : link_write m' l = link_write m l) by (apply (same_except_uint P); auto).
  assert (Er : link_read m' l = link_read m l) by (apply (same_except_uint P); auto).
  assert (Hin : forall i x, 0 <= i < l_num l -> range (slot_addr l i) (l_size l) x -> ~ P x).
  { intros i x Hi Hx. apply H3. destruct (slot_in_ring l i ltac:(lia) Hi).
    unfold range, ring_bytes, RING_SIZE, RING_DATA in *. lia. }
  split; constructor; unfold full; rewrite ?Ew, ?Er; auto.
  - intros x Hx. apply (proj2 HP). exact (Hin _ x Hw Hx).
  - intros _. apply (same_except_load P); [exact HP |]. intros x Hx. apply (Hin _ x Hr).
    now rewrite Z2Nat.id in Hx by lia.
Qed.

Lemma push_guar_pop_rely : push_guar l m m' -> pop_rely l m m'.
Proof.
  destruct link_bounds as (Hn & Hz & Hw & Hr & _). intros [HP | (HP & Hf & Ew)].
  - destruct (slot_write_link HP) as (_ & _ & Ew & Er & Es). constructor; auto; rewrite ?Ew, ?Er; auto.
  - destruct (publish_link HP Hf Ew) as (_ & _ & Er & Es). constructor; auto.
    rewrite Er, Ew. intros Hne E. apply Hf. unfold full. congruence.
Qed.

Lemma pop_guar_push_rely : pop_guar l m m' -> push_rely l m m'.
Proof.
  destruct link_bounds as (Hn & Hz & Hw & Hr & Hd). intros [-> | (HP & Hne & Er)]; [now constructor |].
  destruct (take_link HP Hne Er) as (_ & _ & Ew & Es). constructor; auto.
  - unfold full. rewrite Ew, Er. intros _ E. apply mod_inj_range in E; lia.
  - intros x Hx. apply (proj2 HP). intros Px. destruct (slot_in_ring l (link_write m l) ltac:(lia) Hw).
    unfold range, disjoint_ranges, ring_bytes, RING_SIZE, RING_READ, RING_DATA in *. nia.
Qed.

End Link.

(** ** The whole queue *)

Definition guar (r : role) (q : ipc_queue) : memory -> memory -> Prop :=
  match r with
  | Pusher => push_guar (tx_link q)
  | Popper => pop_guar (rx_link q)
  end.

Definition rely (r : role) (q : ipc_queue) : memory -> memory -> Prop :=
  match r with
  | Pusher => push_rely (tx_link q)
  | Popper => pop_rely (rx_link q)
  end.

(** Where a thread writes: its own ring, the sentinel excepted. *)
Definition footprint (r : role) (q : ipc_queue) (x : Z) : Prop :=
  match r with
  | Pusher => range (push_ring q + RING_WRITE) 4 x \/
              range (push_ring q + RING_DATA) (elem_num q * elem_size q) x
  | Popper => range (push_ring q + RING_READ) 4 x
  end.

Lemma push_footprint q m m' : link_wf m (tx_link q) -> push_guar (tx_link q) m m' -> same_except (footprint Pusher q) m m'.
Proof.
  intros Hl [H | H].
  - eapply same_except_mono; [| exact H]. intros x Hx. right.
    destruct (link_bounds m _ Hl) as (_ & Hz & Hw & _).
    destruct (slot_in_ring (tx_link q) (link_write m (tx_link q)) ltac:(lia) Hw).
    unfold range, ring_bytes, RING_SIZE, RING_DATA in *. cbn in *. lia.
  - eapply same_except_mono; [| exact (proj1 H)]. now left.
Qed.

Lemma guar_footprint r q m m' :
  queue_wf m q -> guar r q m m' -> same_except (footprint r q) m m'.
Proof.
  intros Hq. destruct r; cbn [guar]; [apply push_footprint, Hq |]. intros [H | H]; [subst; reflexivity | exact (proj1 H)].
Qed.

(** The link in the other direction does not notice. *)
Lemma other_link r q m m' :
  queue_wf m q -> guar r q m m' ->
  let l := match r with Pusher => rx_link q | Popper => tx_link q end in
  contents m' l = contents m l /\ link_wf m' l /\ push_rely l m m' /\ pop_rely l m m'.
Proof.
  intros Hq Hg l. assert (HP := guar_footprint r q m m' Hq Hg).
  assert (Hl : link_wf m l) by (destruct r; apply Hq).
  assert (H : (forall x, range (l_prod l + RING_WRITE) 4 x -> ~ footprint r q x) /\
              (forall x, range (l_cons l + RING_READ) 4 x -> ~ footprint r q x) /\
              (forall x, range (l_prod l + RING_DATA) (l_num l * l_size l) x -> ~ footprint r q x)).
  { ring_facts Hq. unfold l. destruct r; cbn in *; split_and!; intros x Hx Px;
      unfold footprint in Px; range_lia. }
  destruct H as (H1 & H2 & H3). destruct (link_unchanged _ m m' l HP Hl H1 H2 H3).
  destruct (untouched_rely m m' l Hl _ HP H1 H2 H3). auto.
Qed.

Lemma guar_done r q m m' :
  queue_wf m q -> guar r q m m' -> ring_done m' (push_ring q) /\ ring_done m' (pop_ring q).
Proof.
  intros Hq Hg. assert (HP := guar_footprint r q m m' Hq Hg).
  split; (eapply ring_done_frame; [exact HP | apply Hq |]); intros x Hx Px; ring_facts Hq;
    destruct r; unfold footprint in Px; range_lia.
Qed.

(** Every other thread can rely on what a thread guarantees. *)
Lemma rely_same_end r q m m' :
  queue_wf m q -> guar r q m m' -> rely (match r with Pusher => Popper | Popper => Pusher end) q m m'.
Proof. intros Hq Hg. destruct (other_link r q m m' Hq Hg) as (_ & _ & H1 & H2). now destruct r. Qed.

Lemma rely_other_end r r' q m m' :
  queue_wf m q -> guar r q m m' -> rely r' (mirror q) m m'.
Proof.
  intros Hq Hg. destruct (other_link r q m m' Hq Hg) as (_ & _ & H1 & H2).
  destruct r, r'; cbn [rely].
  - exact H1.
  - exact (push_guar_pop_rely m m' _ (qw_tx _ _ Hq) Hg).
  - exact (pop_guar_push_rely m m' _ (qw_rx _ _ Hq) Hg).
  - exact H2.
Qed.

(** ** Where a thread is in its program, and what the FIFO has done for it *)

Definition in_result (p : prog Z) : prog result := let+ r := p in Done (r, None).

Definition push_read (q : ipc_queue) (e : list Z) (w : Z) : prog Z :=
  let+ read := load 4 (pop_ring q + RING_READ) in push_test q e w read.
Definition push_copy (q : ipc_queue) (w a : Z) (bs : list Z) : prog Z :=
  let+ _ := store_seq a bs in
  let+ next := pmod (u32 (w + 1)) (elem_num q) in
  let+ _ := store 4 (push_ring q + RING_WRITE) next in
  Done 0.

Definition elem_ok (q : ipc_queue) (e : list Z) : Prop := length e = Z.to_nat (elem_size q) /\ bytes_ok e.

Inductive push_at (q : ipc_queue) (m : memory) : thread result -> pending qop result -> Prop :=
| push_idle : push_at q m Idle AIdle
| push_start e :
    elem_ok q e -> push_at q m (Running (op_steps q (OpPush e))) (ACalled (OpPush e))
| push_loaded e :
    elem_ok q e ->
    push_at q m (Running (in_result (push_read q e (link_write m (tx_link q))))) (ACalled (OpPush e))
| push_copying e k :
    elem_ok q e -> ~ full m (tx_link q) -> (k <= length e)%nat ->
    let w := link_write m (tx_link q) in let a := slot_addr (tx_link q) w in
    load_bytes (mem_bytes m) a k = take k e ->
    push_at q m (Running (in_result (push_copy q w (a + Z.of_nat k) (drop k e)))) (ACalled (OpPush e))
| push_returns r : push_at q m (Running (Done r)) (ADone r).

(** The pop program once it has the write index [w], up to the tests. *)
Definition pop_checked (q : ipc_queue) (w r : Z) : prog result :=
  let+ ok := ipc_queue_check_integrity_steps q in pop_test q w r ok.
Definition pop_checked2 (q : ipc_queue) (w r : Z) : prog result :=
  let+ ok := (let+ s2 := load 8 (push_ring q + RING_SENTINEL) in
              if IPC_QUEUE_INIT_DONE =? s2 then Done 0 else Done (- EINVAL)) in
  pop_test q w r ok.
Inductive pop_phase (q : ipc_queue) (w r : Z) : prog result -> Prop :=
| phase_read : pop_phase q w r (let+ read := load 4 (push_ring q + RING_READ) in pop_checked q w read)
| phase_check : pop_phase q w r (pop_checked q w r)
| phase_check2 : pop_phase q w r (pop_checked2 q w r).

Definition pop_copy (q : ipc_queue) (r : Z) (acc : list Z) (n : nat) (a : Z) : prog result :=
  let+ e := load_onto acc n a in pop_store q r e.

Inductive pop_at (q : ipc_queue) (m : memory) : thread result -> pending qop result -> Prop :=
| pop_idle : pop_at q m Idle AIdle
| pop_start : pop_at q m (Running (op_steps q OpPop)) (ACalled OpPop)
| pop_some w p :
    let r := link_read m (rx_link q) in
    r <> link_write m (rx_link q) -> w <> r -> 0 <= w < elem_num q -> pop_phase q w r p ->
    pop_at q m (Running p) (ACalled OpPop)
| pop_none p :
    let r := link_read m (rx_link q) in
    pop_phase q r r p -> pop_at q m (Running p) (ADone (- ENOBUFS, None))
| pop_copying k :
    let r := link_read m (rx_link q) in let s := slot m (rx_link q) r in
    r <> link_write m (rx_link q) -> (k <= Z.to_nat (elem_size q))%nat ->
    pop_at q m
      (Running (pop_copy q r (take k s) (Z.to_nat (elem_size q) - k)
                  (slot_addr (rx_link q) r + Z.of_nat k)))
      (ACalled OpPop)
| pop_returns r : pop_at q m (Running (Done r)) (ADone r).

Definition thread_at (r : role) : ipc_queue -> memory -> thread result -> pending qop result -> Prop :=
  match r with
  | Pusher => push_at
  | Popper => pop_at
  end.

(** Other threads do not disturb a thread; a pusher needs its own link only. *)
Lemma push_at_rely q m m' x y :
  link_wf m (tx_link q) -> push_rely (tx_link q) m m' -> push_at q m x y -> push_at q m' x y.
Proof.
  intros Hl [H1 H2 H3] Hat. inversion Hat as [| e He | e He | e k He Hf Hk w a Hb | r]; subst; try constructor; auto.
  - rewrite <- H1. now constructor.
  - unfold a, w in *. rewrite <- H1. constructor; auto. rewrite H1, <- Hb. apply load_bytes_ext.
    intros z Hz. apply H3. destruct (link_bounds m _ Hl) as (_ & Hs & _).
    destruct He as [He _]. unfold range in *. cbn in *. lia.
Qed.

Lemma thread_at_rely r q m m' x y :
  queue_wf m q -> rely r q m m' -> thread_at r q m x y -> thread_at r q m' x y.
Proof.
  intros Hq. destruct r; cbn [rely thread_at]; [apply push_at_rely, Hq |]. intros [H1 H2 H3] Hat.
  inversion Hat as [| | w p r Hne Hw Hr Hp | p r Hp | k r s Hne Hk | r]; subst.
  - apply pop_idle.
  - apply pop_start.
  - unfold r in *. rewrite <- H1 in Hw, Hp. eapply pop_some; eauto.
  - unfold r in *. rewrite <- H1 in Hp. now apply pop_none.
  - unfold s, r in *. rewrite <- (H3 Hne), <- H1. apply pop_copying; auto.
  - apply pop_returns.
Qed.

(** ** A step of one thread *)

(** The FIFO keeps still, or performs the operation. *)
Definition moves (q : ipc_queue) (m m' : memory) (a a' : pending qop result) : Prop :=
  a' = a /\ fifos q m' = fifos q m \/
  exists op, a = ACalled op /\ let p := spec_op (elem_num q - 1) op (fifos q m) in
    a' = ADone p.1 /\ fifos q m' = p.2.

(** A thread at its next access. *)
Definition thread_moves (r : role) (q : ipc_queue) (m : memory) (p : prog result) (a : pending qop result) : Prop :=
  match p with
  | Done v => a = ADone v
  | Wrong => False
  | Access x k =>
      exists v m' a', do_access x m = Ret v m' /\ guar r q m m' /\ queue_wf m' q /\
        moves q m m' a a' /\ thread_at r q m' (Running (k v)) a'
  end.

Lemma guar_refl r q m : guar r q m m.
Proof. destruct r; left; reflexivity. Qed.

(** A load: the memory stays. *)
Lemma load_moves r q m n ad (k : Z -> prog result) a a' :
  queue_wf m q -> mapped m ad (Z.of_nat n) = true ->
  a' = a \/ (exists op, a = ACalled op /\ let p := spec_op (elem_num q - 1) op (fifos q m) in
             a' = ADone p.1 /\ fifos q m = p.2) ->
  thread_at r q m (Running (k (uint_at n m ad))) a' ->
  thread_moves r q m (Access (Load n ad) k) a.
Proof.
  intros Hq Hm Ha Hat. exists (uint_at n m ad), m, a'. split_and!; auto.
  - exact (read_uint_ok n ad m Hm).
  - apply guar_refl.
  - destruct Ha as [-> | (op & -> & H)]; [left; auto | right; eauto].
Qed.

Lemma store_access n ad v m :
  mapped m ad (Z.of_nat n) = true -> do_access (Store n ad v) m = Ret 0 (set_bytes m ad (le_encode n v)).
Proof. intros H. cbn [do_access]. now rewrite (cbind_Ret _ _ _ _ _ (write_uint_ok n ad v m H)). Qed.

(** Queue after a step of its pusher. *)
Lemma pusher_wf q m m' :
  queue_wf m q -> guar Pusher q m m' -> link_wf m' (tx_link q) -> queue_wf m' q.
Proof.
  intros Hq Hg Hl. destruct (guar_done _ _ _ _ Hq Hg). destruct (other_link _ _ _ _ Hq Hg) as (_ & ? & _).
  now constructor.
Qed.

Lemma popper_wf q m m' :
  queue_wf m q -> guar Popper q m m' -> link_wf m' (rx_link q) -> queue_wf m' q.
Proof.
  intros Hq Hg Hl. destruct (guar_done _ _ _ _ Hq Hg). destruct (other_link _ _ _ _ Hq Hg) as (_ & ? & _).
  now constructor.
Qed.

(** What a pusher does, in terms of the link it produces for. *)
Definition push_effect (q : ipc_queue) (m m' : memory) (a a' : pending qop result) : Prop :=
  a' = a /\ contents m' (tx_link q) = contents m (tx_link q) \/
  exists e, a = ACalled (OpPush e) /\ let p := fifo_push (elem_num q - 1) (contents m (tx_link q)) e in
    a' = ADone (p.1, None) /\ contents m' (tx_link q) = p.2.

Definition push_moves (q : ipc_queue) (m : memory) (p : prog result) (a : pending qop result) : Prop :=
  match p with
  | Done v => a = ADone v
  | Wrong => False
  | Access x k =>
      exists v m' a', do_access x m = Ret v m' /\ push_guar (tx_link q) m m' /\
        push_effect q m m' a a' /\ push_at q m' (Running (k v)) a'
  end.

Lemma push_load_moves q m n ad (k : Z -> prog result) a a' :
  mapped m ad (Z.of_nat n) = true -> push_effect q m m a a' -> push_at q m (Running (k (uint_at n m ad))) a' ->
  push_moves q m (Access (Load n ad) k) a.
Proof.
  intros Hm Ha Hat. exists (uint_at n m ad), m, a'. split_and!; auto; [exact (read_uint_ok n ad m Hm) | now left].
Qed.

Section Push.
Context (q : ipc_queue) (m : memory) (Hl : link_wf m (tx_link q)).
Abbreviation l := (tx_link q).
Abbreviation w := (link_write m l).

Lemma next_index i : 0 <= i < elem_num q -> pmod (u32 (i + 1)) (elem_num q) = Done ((i + 1) mod elem_num q).
Proof.
  intros Hi. destruct (link_bounds m _ Hl) as (Hn & _). cbn in Hn.
  unfold pmod. rewrite u32_small by lia. destruct (Z.eqb_spec (elem_num q) 0); [lia | reflexivity].
Qed.

Lemma push_start_moves e :
  elem_ok q e -> push_moves q m (op_steps q (OpPush e)) (ACalled (OpPush e)).
Proof.
  intros He. assert (Hs := lw_shape _ _ Hl). unfold op_steps, ipc_queue_push_steps.
  rewrite (ring_nonnull_test m) by exact Hs. unfold load. cbn [pbind].
  destruct (link_header_mapped m _ RING_WRITE 4 Hs) as [Mw _]; [easy .. |].
  apply push_load_moves with (a' := ACalled (OpPush e)); [assumption | left; auto |]. exact (push_loaded q m e He).
Qed.

(** Full or not is decided when the read index is loaded. *)
Lemma push_loaded_moves e :
  elem_ok q e -> push_moves q m (in_result (push_read q e w)) (ACalled (OpPush e)).
Proof.
  intros He. assert (Hs := lw_shape _ _ Hl).
  destruct (link_bounds m _ Hl) as (Hn & Hz & Hw & Hr & _).
  destruct (link_header_mapped m _ RING_READ 4 Hs) as [_ Mr]; [easy .. |].
  unfold in_result, push_read, load. cbn [pbind].
  assert (Hlen := contents_length m l (proj1 Hn)). unfold link_count in Hlen.
  destruct (decide (full m l)) as [Hf | Hf].
  - apply push_load_moves with (a' := ADone (- ENOMEM, None)); [assumption | |].
    + right. exists e. split; [reflexivity |]. unfold full in Hf. apply succ_full in Hf; [| lia ..]. unfold fifo_push. rewrite Hlen, Hf.
      change (l_num l) with (elem_num q). now rewrite Z.ltb_irrefl.
    + change (uint_at 4 m (pop_ring q + RING_READ)) with (link_read m l). unfold push_test.
      change (elem_num q) with (l_num l). rewrite index_test by lia.
      change (l_num l) with (elem_num q). rewrite (next_index w Hw). cbn [pbind].
      unfold full in Hf. change (l_num l) with (elem_num q) in Hf. rewrite Hf, Z.eqb_refl. apply push_returns.
  - apply push_load_moves with (a' := ACalled (OpPush e)); [assumption | left; auto |].
    change (uint_at 4 m (pop_ring q + RING_READ)) with (link_read m l). unfold push_test.
    change (elem_num q) with (l_num l). rewrite index_test by lia.
    change (l_num l) with (elem_num q). rewrite (next_index w Hw). cbn [pbind].
    destruct (Z.eqb_spec ((w + 1) mod elem_num q) (link_read m l)) as [E | _]; [now destruct Hf |].
    destruct He as [He Hb]. unfold push_store.
    replace (Z.of_nat (length e) <? elem_size q) with false by (symmetry; apply Z.ltb_ge; cbn in Hz; lia).
    rewrite take_ge by (rewrite He; lia).
    rewrite (slot_mul_u32 m l w Hs Hw : u32 (w * elem_size q) = w * elem_size q).
    assert (H := push_copying q m e 0 (conj He Hb) Hf ltac:(lia) eq_refl).
    cbv zeta in H. rewrite Z.add_0_r in H. exact H.
Qed.

(** The index is stored: the element is in the queue. *)
Lemma push_publish_moves e :
  elem_ok q e -> ~ full m l -> load_bytes (mem_bytes m) (slot_addr l w) (length e) = e ->
  push_moves q m (in_result (push_copy q w (slot_addr l w + Z.of_nat (length e)) [])) (ACalled (OpPush e)).
Proof.
  intros [He Hb] Hf Hc. assert (Hs := lw_shape _ _ Hl).
  destruct (link_bounds m _ Hl) as (Hn & Hz & Hw & Hr & _).
  unfold in_result, push_copy. cbn [store_seq pbind].
  rewrite (next_index w Hw). unfold store. cbn [pbind].
  destruct (link_header_mapped m _ RING_WRITE 4 Hs) as [Mw _]; [easy .. |].
  set (m' := set_bytes m (push_ring q + RING_WRITE) (le_encode 4 ((w + 1) mod elem_num q))).
  assert (HP : same_except (range (l_prod l + RING_WRITE) 4) m m').
  { apply set_bytes_same_except. intros x. now rewrite le_encode_length. }
  assert (Ew : link_write m' l = (w + 1) mod l_num l).
  { apply uint_at_set_same. assert (H := succ_mod_range w (l_num l)). cbn in *. lia. }
  assert (Hg : push_guar l m m') by (right; auto).
  destruct (publish_link m m' l Hl HP Hf Ew) as (C1 & W1 & _).
  exists 0, m', (ADone (0, None)). split_and!; auto; [apply store_access; exact Mw | |].
  + right. exists e. split; [reflexivity |]. cbv zeta. rewrite C1. assert (Hlen := contents_length m l (proj1 Hn)). unfold link_count in Hlen.
    unfold full in Hf. rewrite succ_full in Hf by lia. assert (Hcr := count_range w (link_read m l) _ (proj1 Hn)).
    unfold fifo_push. rewrite Hlen. change (elem_num q) with (l_num l).
    replace (_ <? _) with true by (symmetry; apply Z.ltb_lt; lia).
    assert (Es : slot m l w = e) by (unfold slot; rewrite <- Hc, He; reflexivity). now rewrite Es.
  + apply push_returns.
Qed.

(** One byte is stored in the free slot. *)
Lemma push_byte_moves e k b r :
  elem_ok q e -> ~ full m l -> (k < length e)%nat -> drop k e = b :: r ->
  load_bytes (mem_bytes m) (slot_addr l w) k = take k e ->
  push_moves q m (in_result (push_copy q w (slot_addr l w + Z.of_nat k) (b :: r))) (ACalled (OpPush e)).
Proof.
  intros [He Hb] Hf Hlt Ed Hc. assert (Hs := lw_shape _ _ Hl).
  destruct (link_bounds m _ Hl) as (Hn & Hz & Hw & Hr & _).
  assert (Ms := slot_mapped m l w Hs Hw).
  assert (Eb : e !! k = Some b) by (rewrite <- (Nat.add_0_r k), <- lookup_drop, Ed; reflexivity).
  assert (Er : drop (S k) e = r) by (rewrite <- Nat.add_1_r, <- drop_drop, Ed; reflexivity).
  unfold in_result, push_copy. cbn [store_seq]. unfold store at 1. cbn [pbind].
  set (ad := slot_addr l w + Z.of_nat k).
  assert (Mb : mapped m ad 1 = true) by (eapply mapped_sub; [exact Ms | unfold ad; lia | unfold ad; cbn in *; lia]).
  assert (Hb' : 0 <= b < 256) by exact (Forall_lookup_1 _ _ _ _ Hb Eb).
  set (m' := set_bytes m ad [b]).
  assert (HP : same_except (range (slot_addr l w) (l_size l)) m m').
  { apply set_bytes_same_except. intros x Hx. unfold range, ad in *. cbn in *. lia. }
  assert (Hg : push_guar l m m') by now left.
  destruct (slot_write_link m m' l Hl HP) as (C1 & W1 & Ew & Er' & _).
  exists 0, m', (ACalled (OpPush e)). split_and!; auto.
  + rewrite store_access by exact Mb. now rewrite byte_encode.
  + left. split; [reflexivity | exact C1].
  + assert (H := push_copying q m' e (S k) (conj He Hb)). cbv zeta in H. rewrite Ew, Er in H.
    replace (slot_addr l w + Z.of_nat (S k)) with (ad + 1) in H by (unfold ad; lia).
    apply H; [unfold full; rewrite Ew, Er'; exact Hf | lia |].
    rewrite (take_S_r _ _ _ Eb), <- Hc, load_bytes_snoc. f_equal.
    * apply (same_except_load (range ad 1)); [apply set_bytes_same_except; intros x; exact (fun h => h) |].
      intros x Hx. unfold range, ad in *. lia.
    * fold ad. unfold m'. cbn [set_bytes mem_bytes]. change (store_bytes (mem_bytes m) ad [b]) with (<[ad := b]> (mem_bytes m)).
      rewrite byte_at_insert. now case_decide.
Qed.

(** The rest of a copy, then the index. *)
Lemma push_copying_moves e k :
  elem_ok q e -> ~ full m l -> (k <= length e)%nat ->
  load_bytes (mem_bytes m) (slot_addr l w) k = take k e ->
  push_moves q m (in_result (push_copy q w (slot_addr l w + Z.of_nat k) (drop k e))) (ACalled (OpPush e)).
Proof.
  intros He Hf Hk Hc. destruct (drop k e) as [|b r] eqn:Ed.
  - assert (k = length e) as -> by (apply (f_equal length) in Ed; rewrite length_drop in Ed; cbn in Ed; lia).
    rewrite firstn_all in Hc. now apply push_publish_moves.
  - apply (push_byte_moves e); auto. destruct (le_lt_dec (length e) k); [rewrite drop_ge in Ed by lia; discriminate Ed | lia].
Qed.

Lemma push_sim p a : push_at q m (Running p) a -> push_moves q m p a.
Proof.
  intros Hat. inversion Hat as [| e He | e He | e k He Hf Hk w' a' Hb | v]; subst.
  - now apply push_start_moves.
  - now apply push_loaded_moves.
  - now apply push_copying_moves.
  - reflexivity.
Qed.

End Push.

Lemma push_guar_wf m m' l : link_wf m l -> push_guar l m m' -> link_wf m' l.
Proof.
  intros Hl [HP | (HP & Hf & Ew)]; [apply (slot_write_link m m' l Hl HP) | apply (publish_link m m' l Hl HP Hf Ew)].
Qed.

(** In a well-formed queue the other direction does not notice. *)
Lemma push_thread_moves q m p a : queue_wf m q -> push_moves q m p a -> thread_moves Pusher q m p a.
Proof.
  intros Hq. destruct p as [| | x k]; cbn [push_moves thread_moves]; [auto | auto |].
  intros (v & m' & a' & E & Hg & Hm & Hat). assert (Hw := push_guar_wf m m' _ (qw_tx _ _ Hq) Hg).
  destruct (other_link Pusher q m m' Hq Hg) as (C & _). exists v, m', a'. split_and!; auto; [now apply (pusher_wf q m) |].
  unfold moves, fifos. rewrite C. destruct Hm as [[-> ->] | (e & -> & Hp)]; [left; auto | right]. exists (OpPush e).
  split; [reflexivity |]. cbn [spec_op fst snd]. cbv zeta in Hp |- *. destruct Hp as [-> ->]. split; reflexivity.
Qed.


Section Pop.
Context (q : ipc_queue) (m : memory) (Hq : queue_wf m q).
Abbreviation l := (rx_link q).
Abbreviation r := (link_read m l).

(** Empty or not is decided when the write index is loaded. *)
Lemma pop_start_moves : thread_moves Popper q m (op_steps q OpPop) (ACalled OpPop).
Proof.
  assert (Hs := lw_shape _ _ (qw_tx _ _ Hq)). unfold op_steps, ipc_queue_pop_steps. cbn [negb].
  rewrite (ring_nonnull_test m) by exact Hs. unfold load at 1. cbn [pbind].
  destruct (link_header_mapped m _ RING_WRITE 4 Hs) as [_ Mw]; [easy .. |].
  destruct (link_bounds m _ (qw_rx _ _ Hq)) as (Hn & _ & Hw & _).
  destruct (decide (r = link_write m l)) as [E | E].
  - apply load_moves with (a' := ADone (- ENOBUFS, None)); auto.
    + right. exists OpPop. split; [reflexivity |]. unfold fifos. cbn [spec_op fst snd].
      rewrite (contents_empty m l) by (auto; lia). now split.
    + change (uint_at 4 m (pop_ring q + RING_WRITE)) with (link_write m l). rewrite <- E.
      apply pop_none, phase_read.
  - apply load_moves with (a' := ACalled OpPop); auto.
    apply (pop_some q m (link_write m l)); auto; apply phase_read.
Qed.

(** The three loads between the write index and the tests. *)
Lemma pop_phase_moves w p a :
  0 <= w < elem_num q -> pop_phase q w r p ->
  (forall p', pop_phase q w r p' -> pop_at q m (Running p') a) ->
  pop_at q m (Running (pop_test q w r 0)) a ->
  thread_moves Popper q m p a.
Proof.
  intros Hw Hp Hnext Hlast. assert (Hs := lw_shape _ _ (qw_tx _ _ Hq)).
  destruct (link_header_mapped m _ RING_READ 4 Hs) as [Mr _]; [easy .. |].
  destruct (link_header_mapped m _ RING_SENTINEL 8 Hs) as [M1 M2]; [easy .. |].
  destruct Hp.
  - unfold load. cbn [pbind]. apply load_moves with (a' := a); auto. apply Hnext, phase_check.
  - unfold pop_checked, ipc_queue_check_integrity_steps, load at 1. cbn [pbind].
    apply load_moves with (a' := a); auto. rewrite (qw_pop_done _ _ Hq), Z.eqb_refl. cbn [negb].
    apply Hnext, phase_check2.
  - unfold pop_checked2, load. cbn [pbind]. apply load_moves with (a' := a); auto.
    rewrite (qw_push_done _ _ Hq), Z.eqb_refl. exact Hlast.
Qed.

Lemma pop_test_some w :
  r <> link_write m l -> w <> r -> 0 <= w < elem_num q ->
  pop_at q m (Running (pop_test q w r 0)) (ACalled OpPop).
Proof.
  intros Hne Hw Hi. assert (Hs := lw_shape _ _ (qw_rx _ _ Hq)).
  destruct (link_bounds m _ (qw_rx _ _ Hq)) as (Hn & Hz & _ & Hr & _). unfold pop_test.
  cbn [Z.eqb negb orb]. change (elem_num q) with (l_num l). rewrite index_test by (cbn in *; lia).
  destruct (Z.eqb_spec r w); [congruence |].
  rewrite (slot_mul_u32 m l r Hs Hr : u32 (r * elem_size q) = r * elem_size q).
  assert (H := pop_copying q m 0 Hne ltac:(lia)). cbv zeta in H.
  rewrite Nat.sub_0_r, Z.add_0_r in H. exact H.
Qed.

Lemma pop_test_none : pop_at q m (Running (pop_test q r r 0)) (ADone (- ENOBUFS, None)).
Proof.
  destruct (link_bounds m _ (qw_rx _ _ Hq)) as (Hn & Hz & _ & Hr & _). unfold pop_test.
  cbn [Z.eqb negb orb]. change (elem_num q) with (l_num l). rewrite index_test by lia.
  rewrite Z.eqb_refl. apply pop_returns.
Qed.

(** One byte of the first slot, then the index. *)
Lemma pop_copying_moves k :
  r <> link_write m l -> (k <= Z.to_nat (elem_size q))%nat ->
  let s := slot m l r in
  thread_moves Popper q m
    (pop_copy q r (take k s) (Z.to_nat (elem_size q) - k) (slot_addr l r + Z.of_nat k)) (ACalled OpPop).
Proof.
  intros Hne Hk s. assert (Hs := lw_shape _ _ (qw_rx _ _ Hq)).
  destruct (link_bounds m _ (qw_rx _ _ Hq)) as (Hn & Hz & Hw & Hr & _).
  assert (Ms := slot_mapped m l r Hs Hr).
  assert (Hl : length s = Z.to_nat (elem_size q)) by apply load_bytes_length.
  destruct (Z.to_nat (elem_size q) - k)%nat as [|n] eqn:En; unfold pop_copy; cbn [load_onto].
  - assert (k = Z.to_nat (elem_size q)) as -> by lia. rewrite take_ge by lia. cbn [pbind]. unfold pop_store.
    rewrite (next_index q m (qw_tx _ _ Hq) r Hr). unfold store. cbn [pbind].
    destruct (link_header_mapped m _ RING_READ 4 Hs) as [_ Mr]; [easy .. |].
    set (m' := set_bytes m (push_ring q + RING_READ) (le_encode 4 ((r + 1) mod elem_num q))).
    assert (HP : same_except (range (l_cons l + RING_READ) 4) m m').
    { apply set_bytes_same_except. intros x. now rewrite le_encode_length. }
    assert (Er : link_read m' l = (r + 1) mod l_num l).
    { apply uint_at_set_same. assert (H := succ_mod_range r (l_num l)). cbn in *. lia. }
    assert (Hg : guar Popper q m m') by (right; auto).
    destruct (take_link m m' l (qw_rx _ _ Hq) HP Hne Er) as (C1 & W1 & _).
    destruct (other_link Popper q m m' Hq Hg) as (C2 & _).
    exists 0, m', (ADone (0, Some s)). split_and!; auto; [apply store_access; exact Mr | now apply (popper_wf q m) | |].
    + right. exists OpPop. split; [reflexivity |]. cbv zeta. unfold fifos. cbn [spec_op fst snd].
      rewrite C1, C2. now split.
    + apply pop_returns.
  - unfold load. cbn [pbind].
    assert (Mb : mapped m (slot_addr l r + Z.of_nat k) 1 = true)
      by (eapply mapped_sub; [exact Ms | lia | cbn in *; lia]).
    apply load_moves with (a' := ACalled OpPop); auto.
    assert (H := pop_copying q m (S k) Hne ltac:(lia)). cbv zeta in H. fold s in H.
    replace (Z.to_nat (elem_size q) - S k)%nat with n in H by lia.
    replace (slot_addr l r + Z.of_nat (S k)) with (slot_addr l r + Z.of_nat k + 1) in H by lia.
    assert (Es : s !! k = Some (uint_at 1 m (slot_addr l r + Z.of_nat k))).
    { rewrite byte_load. apply load_bytes_lookup. cbn. lia. }
    rewrite (take_S_r _ _ _ Es) in H. exact H.
Qed.

End Pop.

Lemma thread_sim r q m p a :
  queue_wf m q -> thread_at r q m (Running p) a -> thread_moves r q m p a.
Proof.
  intros Hq. destruct r; cbn [thread_at]; intros Hat.
  - apply push_thread_moves, push_sim; [exact Hq | apply Hq | exact Hat].
  - inversion Hat as [| | w p' r Hne Hw Hr Hp | p' r Hp | k r s Hne Hk | v]; subst.
    + now apply pop_start_moves.
    + apply (pop_phase_moves q m Hq w); auto; [intros; eapply pop_some; eauto | now apply pop_test_some].
    + apply (pop_phase_moves q m Hq r); auto; [apply (qw_rx _ _ Hq) | intros; now apply pop_none | now apply pop_test_none].
    + now apply pop_copying_moves.
    + reflexivity.
Qed.

(** ** All threads *)

Definition qconf : Type := conf tid result.
Definition fconf : Type := ((list (list Z) * list (list Z)) * (tid -> pending qop result))%type.

Record sim (q : ipc_queue) (c : qconf) (a : fconf) : Prop := {
  sim_wf : queue_wf c.1 q;
  sim_fifos : a.1 = fifos q c.1;
  sim_threads : forall d r, thread_at r (end_queue q d) c.1 (c.2 (d, r)) (a.2 (d, r))
}.

Lemma end_wf q d m : queue_wf m (end_queue q d) <-> queue_wf m q.
Proof. destruct d; [reflexivity |]. split; intros H; apply queue_wf_mirror in H; [destruct q |]; exact H. Qed.

Lemma end_fifos q d m : fifos (end_queue q d) m = swap_at d (fifos q m).
Proof. now destruct d. Qed.

Lemma swap_swap {A} d (s : A * A) : swap_at d (swap_at d s) = s.
Proof. now destruct d, s. Qed.

(** A step of thread [t] leaves every other thread where it was. *)
Lemma others_stay q m m' d r d' r' x y :
  queue_wf m q -> guar r (end_queue q d) m m' -> (d', r') <> (d, r) ->
  thread_at r' (end_queue q d') m x y -> thread_at r' (end_queue q d') m' x y.
Proof.
  intros Hq Hg Hne. apply thread_at_rely; [now apply end_wf |].
  assert (Hq' := proj2 (end_wf q d m) Hq).
  destruct (decide (d' = d)) as [-> | Hd].
  - assert (Hr : r' = match r with Pusher => Popper | Popper => Pusher end) by (destruct r, r'; congruence).
    rewrite Hr. now apply rely_same_end.
  - assert (E : end_queue q d' = mirror (end_queue q d)) by (destruct d, d', q; easy).
    rewrite E. now apply rely_other_end with r.
Qed.

Lemma threads_upd q m m' th ath d r x y :
  queue_wf m q -> guar r (end_queue q d) m m' ->
  (forall d r, thread_at r (end_queue q d) m (th (d, r)) (ath (d, r))) ->
  thread_at r (end_queue q d) m' x y ->
  forall d' r', thread_at r' (end_queue q d') m' (upd th (d, r) x (d', r')) (upd ath (d, r) y (d', r')).
Proof.
  intros Hq Hg Hall Hat d' r'. destruct (decide ((d', r') = (d, r))) as [E | E].
  - injection E as -> ->. now rewrite !upd_same.
  - rewrite !upd_other by exact E. eapply others_stay; eauto.
Qed.

(** The simulation: a call or return is one of the object, an access is nothing
    or the moment an operation takes effect. *)
Lemma sim_step q c e c' a :
  sim q c a -> qstep q c e c' ->
  exists ls a', exec (fstep q) a ls a' /\ labels ls = visible [e] /\ sim q c' a'.
Proof.
  intros [Hq Hf Hall] Hstep. destruct a as [s ath]. cbn [fst snd] in Hf. subst s.
  destruct Hstep as [m th [d r] op Hi Ha | m th [d r] x k v m' Hx Hd | m th [d r] v Hr]; cbn [fst snd] in *;
    assert (Ht := Hall d r).
  - rewrite Hi in Ht. assert (Ea : ath (d, r) = AIdle) by (destruct r; inversion Ht; auto).
    exists [Some (ECall (d, r) op)], (fifos q m, upd ath (d, r) (ACalled op)). split_and!.
    + econstructor; [now apply astep_call | constructor].
    + reflexivity.
    + constructor; auto. apply (threads_upd q m m); auto using guar_refl. unfold code. cbn [fst].
      unfold allowed in Ha. cbn [fst snd] in Ha.
      destruct r, op as [el |]; try easy; [| apply pop_start].
      apply push_start. destruct d, q; exact Ha.
  - rewrite Hx in Ht. assert (Hq' := proj2 (end_wf q d m) Hq).
    destruct (thread_sim r _ m _ _ Hq' Ht) as (v' & m1 & y & E & Hg & Hw & Hm & Hat).
    rewrite Hd in E. injection E as <- <-. apply end_wf in Hw.
    destruct Hm as [(-> & Ef) | (op & Ea & -> & Ef)].
    + exists [], (fifos q m, ath). split_and!; [constructor | reflexivity |]. constructor; auto.
      * cbn [fst]. rewrite <- (swap_swap d (fifos q m)), <- end_fifos, <- Ef, end_fifos. apply swap_swap.
      * cbn [fst snd]. intros d' r'. destruct (decide ((d', r') = (d, r))) as [E | E].
        -- injection E as -> ->. rewrite upd_same. exact Hat.
        -- rewrite upd_other by exact E. exact (others_stay q m m' d r d' r' _ _ Hq Hg E (Hall d' r')).
    + exists [None], ((fifo_effect (elem_num q - 1) (d, r) op (fifos q m)).2,
                      upd ath (d, r) (ADone (fifo_effect (elem_num q - 1) (d, r) op (fifos q m)).1)).
      assert (En : elem_num (end_queue q d) = elem_num q) by now destruct d.
      rewrite En, (end_fifos q d m) in *. rewrite (end_fifos q d m') in Ef. split_and!.
      * econstructor; [apply astep_effect; exact Ea | apply exec_nil].
      * reflexivity.
      * constructor; auto.
        -- cbn [fst]. unfold fifo_effect. cbn [fst snd]. rewrite <- Ef. apply swap_swap.
        -- exact (threads_upd q m m' th ath d r _ _ Hq Hg Hall Hat).
  - rewrite Hr in Ht. assert (Hq' := proj2 (end_wf q d m) Hq).
    assert (Ea := thread_sim r _ m _ _ Hq' Ht). cbn [thread_moves] in Ea.
    exists [Some (EReturn (d, r) v)], (fifos q m, upd ath (d, r) AIdle). split_and!.
    + econstructor; [now apply astep_return | constructor].
    + reflexivity.
    + constructor; auto. apply (threads_upd q m m); auto using guar_refl. destruct r; constructor.
Qed.

Lemma sim_exec q c es c' :
  exec (qstep q) c es c' -> forall a, sim q c a ->
  exists ls a', exec (fstep q) a ls a' /\ labels ls = visible es /\ sim q c' a'.
Proof. intros He. apply (simulation_exec (qstep q) (fstep q) (sim q)) with (2 := He). apply sim_step. Qed.

Lemma sim_no_fault q c a t : sim q c a -> ~ faults c t.
Proof.
  intros [Hq _ Hall]. destruct c as [m th], t as [d r]. assert (Ht := Hall d r). unfold faults. cbn [fst snd] in *.
  destruct (th (d, r)) as [| p]; [easy |]. assert (H := thread_sim r _ m p _ (proj2 (end_wf q d m) Hq) Ht).
  destruct p as [| | x k]; cbn [thread_moves] in H; [easy | easy |].
  destruct H as (v & m' & _ & E & _). rewrite E. discriminate.
Qed.

Definition all_idle (m : memory) : qconf := (m, fun _ => Idle).

Lemma sim_idle q m : queue_wf m q -> sim q (all_idle m) (fifos q m, fun _ => AIdle).
Proof. intros Hq. constructor; auto. intros d r. destruct r; constructor. Qed.

(** C2: thread safety of the queue.  Two ends use a well-formed queue at the same
    time, each with one pushing and one popping thread, in any interleaving of
    their single memory accesses.  No access is ever undefined, the queue stays
    well formed, and every execution is linearizable: its calls, returns and
    results are those of an execution of two bounded FIFOs whose operations take
    effect at one moment between call and return, and the FIFOs are then what
    the memory holds. *)
Theorem queue_linearizable q m es c :
  queue_wf m q -> exec (qstep q) (all_idle m) es c ->
  (forall t, ~ faults c t) /\ queue_wf c.1 q /\
  exists ls ath, exec (fstep q) (fifos q m, fun _ => AIdle) ls (fifos q c.1, ath) /\
    labels ls = visible es.
Proof.
  intros Hq He. destruct (sim_exec q _ _ _ He _ (sim_idle q m Hq)) as (ls & [s ath] & E & L & S).
  split_and!; [intros t; eapply sim_no_fault; eauto | apply S |].
  exists ls, ath. assert (Es := sim_fifos _ _ _ S). cbn in Es. subst s. now split.
Qed.

(** ** Wait-freedom *)

Lemma within_check {A} q (f : Z -> prog A) k : (forall ok, within k (f ok)) -> within (2 + k) (pbind (ipc_queue_check_integrity_steps q) f).
Proof.
  intros Hf v. cbn [pbind]. destruct (negb _); [apply (within_mono _ k); [lia | apply Hf] |].
  intros v2. cbn [pbind]. destruct (_ =? _); apply Hf.
Qed.

Lemma within_pmod {A} a b (f : Z -> prog A) k : (forall i, within k (f i)) -> within k (pbind (pmod a b) f).
Proof. intros Hf. unfold pmod. destruct (b =? 0); [exact I | apply Hf]. Qed.

Lemma within_op q op : within (Z.to_nat (elem_size q) + 5) (op_steps q op).
Proof.
  destruct op as [e |]; unfold op_steps, ipc_queue_push_steps, ipc_queue_pop_steps; cbn [negb];
    (destruct (_ || _); [exact I |]).
  - apply (within_mono _ (S (S (Z.to_nat (elem_size q) + 1)))); [lia |]. intros w r. cbn [pbind].
    unfold push_test. destruct (_ || _); [exact I |]. rewrite <- (Nat.add_0_r (_ + 1)).
    apply within_pbind; [| intros; exact I]. apply within_pmod. intros n. destruct (_ =? r); [exact I |].
    unfold push_store. destruct (_ <? _); [exact I |]. apply within_pbind.
    + eapply within_mono; [| apply within_store_seq]. rewrite length_take. lia.
    + intros _. apply within_pmod. intros i v. exact I.
  - apply (within_mono _ (S (S (2 + (Z.to_nat (elem_size q) + 1))))); [lia |]. intros w r. cbn [pbind].
    apply within_check. intros ok. unfold pop_test. destruct (_ || _ || _); [exact I |].
    destruct (r =? w); [exact I |]. apply within_pbind; [apply within_load_onto |].
    intros e. unfold pop_store. apply within_pmod. intros i v. exact I.
Qed.

(** C5: wait-freedom.  An operation that was called returns after at most
    [elem_size + 5] memory accesses of its own thread, whatever the other threads
    do in between and even if they stop in the middle of theirs; until then its
    thread can always take its next step. *)
Theorem queue_wait_free q m es1 c1 t op c2 es2 c3 :
  queue_wf m q -> exec (qstep q) (all_idle m) es1 c1 ->
  qstep q c1 (ECall t op) c2 -> exec (qstep q) c2 es2 c3 -> (forall v, EReturn t v ∉ es2) ->
  (accesses t es2 <= Z.to_nat (elem_size q) + 5)%nat /\
  exists e c4, qstep q c3 e c4 /\ (e = EAccess t \/ exists v, e = EReturn t v).
Proof.
  intros Hq He1 Hc He2 Hr.
  destruct (sim_exec q _ _ _ He1 _ (sim_idle q m Hq)) as (_ & a1 & _ & _ & S1).
  assert (S3 : exists a, sim q c3 a).
  { destruct (sim_step q _ _ _ _ S1 Hc) as (_ & a2 & _ & _ & S2).
    destruct (sim_exec q _ _ _ He2 _ S2) as (_ & a3 & _ & _ & S3). eauto. }
  destruct S3 as [a3 S3]. assert (Hf := sim_no_fault q c3 a3 t S3).
  inversion Hc as [m1 th t' op' Hi Ha | |]; subst.
  destruct (accesses_bounded _ _ t _ _ _ He2 (code q t op) (Z.to_nat (elem_size q) + 5)) as (p & Hp & Hn & _).
  - cbn [snd]. now rewrite upd_same.
  - replace (elem_size q) with (elem_size (end_queue q t.1)) by now destruct t as [[] ?].
    apply within_op.
  - exact Hr.
  - split; [exact Hn | exact (running_steps _ _ c3 t p Hp Hf)].
Qed.
