(* ===== verification/QueueOrder.v ===== *)
(** * Order of delivery under concurrent use

    What the ends of a queue send and receive in an execution of [Linear], read
    off its calls and returns. *)

From S2P Require Import Prelude Memory Types Queue QueueSpec Atomic QueueSteps Linear.
#[local] Open Scope Z_scope.

(** ** Histories *)

Abbreviation qevent := (event tid qop result).

(** The element end [d] is pushing, and the ones it pushed successfully. *)
Definition track (d : endpoint) (s : option (list Z) * list (list Z)) (e : qevent) :
    option (list Z) * list (list Z) :=
  match e with
  | ECall t (OpPush x) => if decide (t = (d, Pusher)) then (Some x, s.2) else s
  | EReturn t r =>
      if decide (t = (d, Pusher)) then
        (None, s.2 ++ match s.1 with Some x => if r.1 =? 0 then [x] else [] | None => [] end)
      else s
  | _ => s
  end.
Definition pushing (d : endpoint) (es : list qevent) : option (list Z) := (foldl (track d) (None, []) es).1.
Definition sent (d : endpoint) (es : list qevent) : list (list Z) := (foldl (track d) (None, []) es).2.

(** The elements end [d] popped. *)
Definition received (d : endpoint) (es : list qevent) : list (list Z) :=
  omap (fun e => match e with
                 | EReturn t r => if decide (t = (d, Popper)) then r.2 else None
                 | _ => None
                 end) es.

Lemma track_snoc d es e :
  (pushing d (es ++ [e]), sent d (es ++ [e])) = track d (pushing d es, sent d es) e.
Proof.
  unfold pushing, sent. rewrite foldl_app. cbn [foldl]. now rewrite <- !surjective_pairing.
Qed.

Lemma received_snoc d es e : received d (es ++ [e]) = received d es ++ received d [e].
Proof. apply omap_app. Qed.

Lemma track_visible d es : forall s, foldl (track d) s (visible es) = foldl (track d) s es.
Proof.
  induction es as [|e es IH]; intros s; [reflexivity |].
  destruct e; unfold visible; cbn [List.filter foldl]; apply IH.
Qed.

Lemma received_visible d es : received d (visible es) = received d es.
Proof.
  induction es as [|e es IH]; [reflexivity |]. unfold received, visible in *.
  destruct e; cbn [List.filter omap list_omap]; fold (@omap list list_omap) in *; rewrite IH; reflexivity.
Qed.

(** ** The FIFOs with atomic operations *)

(** What a push and a pop in progress have already moved. *)
Definition in_flight_push (cur : option (list Z)) (p : pending qop result) : list (list Z) :=
  match p, cur with
  | ADone r, Some x => if r.1 =? 0 then [x] else []
  | _, _ => []
  end.
Definition in_flight_pop (p : pending qop result) : list (list Z) :=
  match p with ADone (_, Some x) => [x] | _ => [] end.

(** History [h] of the object from contents [s0] of the FIFO from [d] to its peer. *)
Record order_inv (d : endpoint) (s0 : list (list Z)) (h : list qevent) (a : fconf) : Prop := {
  oi_push : forall op, a.2 (d, Pusher) = ACalled op -> exists e, op = OpPush e /\ pushing d h = Some e;
  oi_pusher : forall d' op, a.2 (d', Pusher) = ACalled op -> exists e, op = OpPush e;
  oi_popper : forall d' op, a.2 (d', Popper) = ACalled op -> op = OpPop;
  oi_idle : a.2 (d, Pusher) = AIdle -> pushing d h = None;
  oi_eq : s0 ++ sent d h ++ in_flight_push (pushing d h) (a.2 (d, Pusher))
          = received (peer d) h ++ in_flight_pop (a.2 (peer d, Popper)) ++ (swap_at d a.1).1
}.

Lemma sent_snoc d h e : sent d (h ++ [e]) = (track d (pushing d h, sent d h) e).2.
Proof. now rewrite <- track_snoc. Qed.

Lemma pushing_snoc d h e : pushing d (h ++ [e]) = (track d (pushing d h, sent d h) e).1.
Proof. now rewrite <- track_snoc. Qed.

Section History.
Context (q : ipc_queue) (d : endpoint) (s0 : list (list Z)).

Lemma track_other h t r : t <> (d, Pusher) -> forall e, e = EReturn t r \/ (exists op, e = ECall t op) ->
  track d (pushing d h, sent d h) e = (pushing d h, sent d h).
Proof.
  intros Hne e [-> | [op ->]]; cbn [track]; [| destruct op; [| reflexivity]]; now rewrite decide_False.
Qed.

Lemma order_call h s th t op :
  order_inv d s0 h (s, th) -> th t = AIdle -> allowed q t op ->
  order_inv d s0 (h ++ [ECall t op]) (s, upd th t (ACalled op)).
Proof.
  intros [H1 H2 H3 H4 H5] Ht Ha. cbn [fst snd] in *.
  assert (Er : received (peer d) (h ++ [ECall t op]) = received (peer d) h) by (rewrite received_snoc; apply app_nil_r).
  assert (Hro : forall d' op', upd th t (ACalled op) (d', Popper) = ACalled op' -> op' = OpPop).
  { intros d' op'. destruct (decide ((d', Popper) = t)) as [<- | Hne]; [| rewrite upd_other by exact Hne; apply H3].
    rewrite upd_same. intros [= <-]. unfold allowed in Ha. destruct op; easy. }
  assert (Hpu : forall d' op', upd th t (ACalled op) (d', Pusher) = ACalled op' -> exists e, op' = OpPush e).
  { intros d' op'. destruct (decide ((d', Pusher) = t)) as [<- | Hne]; [| rewrite upd_other by exact Hne; apply H2].
    rewrite upd_same. intros [= <-]. unfold allowed in Ha. destruct op; [eauto | easy]. }
  assert (Ep : in_flight_pop (upd th t (ACalled op) (peer d, Popper)) = in_flight_pop (th (peer d, Popper))).
  { destruct (decide ((peer d, Popper) = t)) as [<- | Hne]; [now rewrite upd_same, Ht | now rewrite upd_other]. }
  destruct (decide (t = (d, Pusher))) as [-> | Hne].
  - destruct (Hpu d op (upd_same _ _ _)) as [e ->]. rewrite Ht in H5.
    constructor; cbn [fst snd]; auto; rewrite ?pushing_snoc, ?sent_snoc; cbn [track fst snd];
      rewrite ?decide_True by reflexivity; rewrite ?upd_same; cbn [fst snd]; try easy.
    + intros op' [= <-]. eauto.
    + rewrite Er, Ep. exact H5.
  - assert (Et := track_other h t (0, None) Hne _ (or_intror (ex_intro _ op eq_refl))).
    constructor; cbn [fst snd]; auto; rewrite ?pushing_snoc, ?sent_snoc, ?Et; cbn [fst snd];
      rewrite ?(upd_other _ t (d, Pusher)) by congruence; auto.
    rewrite Er, Ep. exact H5.
Qed.

Lemma order_effect h s th t op :
  order_inv d s0 h (s, th) -> th t = ACalled op ->
  order_inv d s0 h ((fifo_effect (elem_num q - 1) t op s).2,
                    upd th t (ADone (fifo_effect (elem_num q - 1) t op s).1)).
Proof.
  intros [H1 H2 H3 H4 H5] Ht. cbn [fst snd] in *.
  assert (Hcall : forall t' x op', upd th t (ADone x) t' = ACalled op' -> th t' = ACalled op').
  { intros t' x op'. destruct (decide (t' = t)) as [-> | Hne]; [rewrite upd_same | rewrite upd_other by exact Hne]; easy. }
  constructor; cbn [fst snd].
  - intros op' E. apply H1. eauto.
  - intros d' op' E. apply (H2 d'). eauto.
  - intros d' op' E. apply (H3 d'). eauto.
  - destruct (decide ((d, Pusher) = t)) as [<- | Hne]; [rewrite upd_same; easy | now rewrite upd_other].
  - destruct t as [d' []].
    + destruct (H2 d' op Ht) as [e ->]. rewrite (upd_other _ _ (peer d, Popper)) by discriminate.
      destruct (decide (d' = d)) as [-> | Hne].
      * destruct (H1 _ Ht) as (e' & [= <-] & Ee). rewrite upd_same, Ee. rewrite Ht in H5. cbn [in_flight_push] in H5.
        rewrite app_nil_r in H5. unfold fifo_effect, spec_op, fifo_push. cbn [fst snd].
        rewrite swap_swap. destruct (_ <? _); cbn [fst snd in_flight_push Z.eqb Z.opp].
        -- rewrite !app_assoc in *. now rewrite H5.
        -- now rewrite app_nil_r.
      * rewrite (upd_other _ _ (d, Pusher)) by congruence. rewrite H5. do 2 f_equal.
        unfold fifo_effect, spec_op. cbn [fst snd]. now destruct d, d', s.
    + rewrite (H3 d' op Ht) in *. rewrite (upd_other _ _ (d, Pusher)) by discriminate.
      destruct (decide (d' = peer d)) as [-> | Hne].
      * rewrite upd_same, H5, Ht. cbn [in_flight_pop app]. f_equal.
        unfold fifo_effect, spec_op, fifo_pop. cbn [fst snd]. destruct d, s as [[] []]; reflexivity.
      * rewrite (upd_other _ _ (peer d, Popper)) by congruence. rewrite H5. do 2 f_equal.
        unfold fifo_effect, spec_op, fifo_pop. cbn [fst snd]. destruct d, d', s as [[] []]; easy.
Qed.

Lemma order_return h s th t r :
  order_inv d s0 h (s, th) -> th t = ADone r ->
  order_inv d s0 (h ++ [EReturn t r]) (s, upd th t AIdle).
Proof.
  intros [H1 H2 H3 H4 H5] Ht. cbn [fst snd] in *.
  assert (Hcall : forall t' op', upd th t AIdle t' = ACalled op' -> th t' = ACalled op').
  { intros t' op'. destruct (decide (t' = t)) as [-> | Hne]; [rewrite upd_same | rewrite upd_other by exact Hne]; easy. }
  destruct (decide (t = (d, Pusher))) as [-> | Hne].
  - constructor; cbn [fst snd]; rewrite ?pushing_snoc, ?sent_snoc; cbn [track fst snd];
      rewrite ?decide_True by reflexivity; cbn [fst snd]; eauto.
    + rewrite upd_same. easy.
    + rewrite upd_same, (upd_other _ _ (peer d, Popper)) by discriminate. rewrite Ht in H5. cbn [in_flight_push] in *.
      rewrite app_nil_r, received_snoc. cbn [received omap list_omap].
      rewrite decide_False by discriminate. rewrite app_nil_r. exact H5.
  - assert (Et := track_other h t r Hne _ (or_introl eq_refl)).
    constructor; cbn [fst snd]; rewrite ?pushing_snoc, ?sent_snoc, ?Et; cbn [fst snd];
      rewrite ?(upd_other _ t (d, Pusher)) by congruence; eauto.
    rewrite H5, received_snoc, <- app_assoc. f_equal. cbn [received omap list_omap].
    destruct (decide (t = (peer d, Popper))) as [-> | Hp].
    + rewrite upd_same, Ht. destruct r as [c []]; reflexivity.
    + now rewrite upd_other by congruence.
Qed.

Lemma order_exec a ls a' :
  exec (fstep q) a ls a' -> forall h, order_inv d s0 h a -> order_inv d s0 (h ++ labels ls) a'.
Proof.
  induction 1 as [a | a o a1 ls a' Hs _ IH]; intros h Hh; [now rewrite app_nil_r |].
  assert (H1 : order_inv d s0 (h ++ labels [o]) a1).
  { destruct Hs; cbn [labels omap list_omap id].
    - now apply order_call.
    - rewrite app_nil_r. now apply order_effect.
    - now apply order_return. }
  replace (h ++ labels (o :: ls)) with ((h ++ labels [o]) ++ labels ls); [now apply IH |].
  rewrite <- app_assoc. f_equal. unfold labels. symmetry. apply (omap_app id [o] ls).
Qed.

End History.

(** ** Order of delivery *)

Lemma in_flight_short cur p : (length (in_flight_push cur p) <= 1)%nat /\ (length (in_flight_pop p) <= 1)%nat.
Proof.
  unfold in_flight_push, in_flight_pop. destruct p as [| | [? []]], cur; cbn; try destruct (_ =? _); cbn; lia.
Qed.

(** C3: FIFO order without loss or duplication while both ends work at the same
    time, their accesses interleaved in any way: what was queued at the start,
    followed by what an end has sent, is what the other end has received, in that
    order, followed by what the memory holds, up to one element of a push and one
    of a pop that have not returned. *)
Theorem queue_delivers_in_order_concurrently q m es c d :
  queue_wf m q -> exec (qstep q) (all_idle m) es c ->
  exists out ins,
    contents m (tx_link (end_queue q d)) ++ sent d es ++ out
      = received (peer d) es ++ ins ++ contents c.1 (tx_link (end_queue q d)) /\
    (length out <= 1)%nat /\ (length ins <= 1)%nat /\
    (c.2 (d, Pusher) = Idle -> out = []) /\ (c.2 (peer d, Popper) = Idle -> ins = []).
Proof.
  intros Hq He. destruct (sim_exec q _ _ _ He _ (sim_idle q m Hq)) as (ls & [s ath] & E & L & [_ Es Ht]).
  cbn [fst snd] in Es, Ht. subst s.
  assert (H0 : order_inv d (swap_at d (fifos q m)).1 [] (fifos q m, fun _ => AIdle)).
  { constructor; try easy. apply app_nil_r. }
  destruct (order_exec q d _ _ _ _ E [] H0) as [_ _ _ _ H]. cbn [app fst snd] in H. rewrite L in H.
  unfold sent in H. rewrite track_visible, received_visible in H. fold (sent d es) in H.
  rewrite <- !end_fifos in H. cbn [fst] in H.
  eexists _, _. split_and!; [exact H | apply in_flight_short | apply (in_flight_short None) | |].
  - intros Hi. specialize (Ht d Pusher). rewrite Hi in Ht. now inversion Ht.
  - intros Hi. specialize (Ht (peer d) Popper). rewrite Hi in Ht. now inversion Ht.
Qed.
