(* ===== verification/StartRace.v ===== *)
(** * Both ends start at once

    [ipc_queue_sync_index] and the mark that ends the initialisation, run by the
    two ends of a channel queue concurrently and access by access.  From a fresh
    memory the rings agree in every interleaving; when both rings still carry the
    mark of an earlier run, the check and the store of the sentinel can be
    separated and the ends can disagree. *)

From S2P Require Import Prelude Memory Types Queue QueueSpec Atomic QueueSteps Linear.
#[local] Open Scope Z_scope.

(** ** The starting ends *)

Definition start_code (q : ipc_queue) (d : endpoint) (_ : unit) : prog Z := start_steps (end_queue q d).
Abbreviation sstep q := (step (fun _ _ => True) (start_code q)).

(** ** Header fields of the two rings *)

Inductive field : Type := Sentinel | Write | Read.
#[export] Instance field_eq_dec : EqDecision field.
Proof. solve_decision. Defined.

Definition width (f : field) : nat := match f with Sentinel => 8 | _ => 4 end.
Definition offset (f : field) : Z :=
  match f with Sentinel => RING_SENTINEL | Write => RING_WRITE | Read => RING_READ end.
Definition cell (q : ipc_queue) (d : endpoint) (f : field) : Z := push_ring (end_queue q d) + offset f.
Definition val (m : memory) (q : ipc_queue) (d : endpoint) (f : field) : Z := uint_at (width f) m (cell q d f).

(** The end has its mark of a finished initialisation. *)
Definition started (m : memory) (q : ipc_queue) (d : endpoint) : Prop := val m q d Sentinel = IPC_QUEUE_INIT_DONE.
Definition starting (m : memory) (q : ipc_queue) (d : endpoint) : Prop :=
  val m q d Sentinel = IPC_QUEUE_INIT_IN_PROGRESS.
Definition zeros (m : memory) (q : ipc_queue) (d : endpoint) : Prop := val m q d Write = 0 /\ val m q d Read = 0.

(** [m'] is [m] with one field of [d] set. *)
Record sets (q : ipc_queue) (d : endpoint) (f : field) (v : Z) (m m' : memory) : Prop := {
  st_regions : mem_regions m' = mem_regions m;
  st_val : forall d' f', val m' q d' f' = if decide ((d', f') = (d, f)) then v else val m q d' f'
}.

Lemma cell_mapped m q d f :
  link_shape m (tx_link q) -> mapped m (cell q d f) (Z.of_nat (width f)) = true.
Proof.
  intros Hs. destruct (link_header_mapped m _ (offset f) (Z.of_nat (width f)) Hs) as [H1 H2];
    [destruct f; easy | destruct f; easy |].
  destruct d; assumption.
Qed.

Lemma read_cell m q d f : link_shape m (tx_link q) -> do_access (Load (width f) (cell q d f)) m = Ret (val m q d f) m.
Proof. intros Hs. exact (read_uint_ok _ _ m (cell_mapped m q d f Hs)). Qed.

Lemma write_cell m q d f v :
  link_shape m (tx_link q) -> 0 <= v < 256 ^ Z.of_nat (width f) ->
  exists m', do_access (Store (width f) (cell q d f) v) m = Ret 0 m' /\ sets q d f v m m'.
Proof.
  intros Hs Hv. eexists. split; [exact (store_access _ _ v m (cell_mapped m q d f Hs)) |].
  constructor; [reflexivity |]. intros d' f'. unfold val. case_decide as E.
  - injection E as -> ->. now apply uint_at_set_same.
  - apply uint_at_set_disjoint. rewrite le_encode_length.
    assert (Hd := ls_disj _ _ Hs). assert (Hb := ring_bytes_ge _ _ Hs). unfold disjoint_ranges in *.
    unfold cell. destruct d, d', f, f'; try congruence; cbn in *;
      unfold RING_SENTINEL, RING_WRITE, RING_READ, RING_SIZE in *; lia.
Qed.

(** ** Where a starting end is in its program *)

Definition ready (m : memory) (q : ipc_queue) (d : endpoint) : Prop := started m q d \/ starting m q d.

(** The rest of the program from the indexes on, from the second index on, and
    once the indexes are set. *)
Definition finish (q : ipc_queue) (p : prog Z) : prog Z :=
  let+ err := p in
  if negb (err =? 0) then Done err else
  let+ _ := store 8 (push_ring q + RING_SENTINEL) IPC_QUEUE_INIT_DONE in
  Done 0.
Definition take_read (q : ipc_queue) : prog Z :=
  let+ w := load 4 (pop_ring q + RING_WRITE) in
  let+ v := pmod w (elem_num q) in
  let+ _ := store 4 (push_ring q + RING_READ) v in
  Done 0.
Definition reset_read (q : ipc_queue) : prog Z :=
  let+ _ := store 4 (push_ring q + RING_READ) 0 in Done 0.

Inductive start_at (q : ipc_queue) (m : memory) (d : endpoint) : thread Z -> Prop :=
| at_idle : ~ starting m q d -> start_at q m d Idle
| at_call : ~ starting m q d -> start_at q m d (Running (start_steps (end_queue q d)))
| at_checked :
    ~ starting m q d ->
    start_at q m d (Running (finish (end_queue q d)
      (let+ _ := store 8 (push_ring (end_queue q d) + RING_SENTINEL) IPC_QUEUE_INIT_IN_PROGRESS in
       sync_indexes (end_queue q d) IPC_SHM_CHANNEL_QUEUE)))
| at_marked :
    starting m q d ->
    start_at q m d (Running (finish (end_queue q d) (sync_indexes (end_queue q d) IPC_SHM_CHANNEL_QUEUE)))
| at_take :
    starting m q d -> zeros m q (peer d) ->
    start_at q m d (Running (finish (end_queue q d) (sync_take (end_queue q d) IPC_SHM_CHANNEL_QUEUE)))
| at_take_write :
    starting m q d -> zeros m q (peer d) ->
    start_at q m d (Running (finish (end_queue q d)
      (let+ _ := store 4 (push_ring (end_queue q d) + RING_WRITE) 0 in take_read (end_queue q d))))
| at_take_read :
    starting m q d -> zeros m q (peer d) -> val m q d Write = 0 ->
    start_at q m d (Running (finish (end_queue q d) (take_read (end_queue q d))))
| at_reset :
    starting m q d ->
    start_at q m d (Running (finish (end_queue q d) (sync_reset (end_queue q d))))
| at_reset_read :
    starting m q d -> val m q d Write = 0 ->
    start_at q m d (Running (finish (end_queue q d) (reset_read (end_queue q d))))
| at_last :
    starting m q d -> zeros m q d -> start_at q m d (Running (finish (end_queue q d) (Done 0)))
| at_done : started m q d -> start_at q m d (Running (Done 0))
| at_refused : ~ starting m q d -> ready m q (peer d) -> start_at q m d (Running (Done (- EAGAIN))).

Record start_inv (q : ipc_queue) (c : conf endpoint Z) : Prop := {
  si_shape : link_shape c.1 (tx_link q);
  si_zeros : forall d, started c.1 q d -> zeros c.1 q d;
  si_at : forall d, start_at q c.1 d (c.2 d)
}.

(** ** What an end does to the memory *)

(** Nothing, one of its own fields set: an index to zero, or the sentinel, to
    the final mark only when both indexes are zero. *)
Definition start_guar (q : ipc_queue) (d : endpoint) (m m' : memory) : Prop :=
  m' = m \/
  exists f v, sets q d f v m m' /\
    match f with
    | Sentinel => v = IPC_QUEUE_INIT_IN_PROGRESS \/ v = IPC_QUEUE_INIT_DONE /\ zeros m q d
    | _ => v = 0
    end.

(** What that preserves, at either end. *)
Lemma start_guar_stable q d m m' d' :
  start_guar q d m m' ->
  (zeros m q d' -> zeros m' q d') /\ (ready m q d' -> ready m' q d') /\
  (d' <> d -> forall f, val m' q d' f = val m q d' f).
Proof.
  intros [-> | (f & v & [_ Hv] & Hf)]; [auto |]. unfold zeros, ready, started, starting.
  rewrite !Hv. split_and!.
  - destruct d, d', f; cbn; intuition.
  - destruct d, d', f; cbn; intuition.
  - intros Hne f'. rewrite Hv. case_decide as E; [injection E as -> ->; easy | reflexivity].
Qed.

Lemma start_guar_zeros q d m m' :
  start_guar q d m m' -> (forall d', started m q d' -> zeros m q d') ->
  forall d', started m' q d' -> zeros m' q d'.
Proof.
  intros Hg Hz d' Hd. destruct (start_guar_stable q d m m' d' Hg) as (Sz & _ & _). apply Sz.
  destruct Hg as [-> | (f & v & [_ Hv] & Hf)]; [auto |]. unfold started in Hd. rewrite Hv in Hd.
  case_decide as E; [| now apply Hz]. injection E as -> <-.
  destruct Hf as [-> | [_ Hf]]; [discriminate Hd | exact Hf].
Qed.

Lemma peer_ne d : peer d <> d.
Proof. now destruct d. Qed.

Lemma start_at_stable q d m m' d' x :
  start_guar q d m m' -> d' <> d -> start_at q m d' x -> start_at q m' d' x.
Proof.
  intros Hg Hne Hat. destruct (start_guar_stable q d m m' d' Hg) as (Sz & _ & Sv).
  destruct (start_guar_stable q d m m' (peer d') Hg) as (Pz & Pr & _). specialize (Sv Hne).
  destruct Hat; econstructor; unfold started, starting in *; rewrite ?Sv; auto.
Qed.

(** ** A step of one end *)

Definition start_moves (q : ipc_queue) (m : memory) (d : endpoint) (p : prog Z) : Prop :=
  match p with
  | Done v => v = 0 /\ started m q d \/ v = - EAGAIN /\ ready m q (peer d)
  | Wrong => False
  | Access x k =>
      exists v m', do_access x m = Ret v m' /\ start_guar q d m m' /\ start_at q m' d (Running (k v))
  end.

Section Step.
Context (q : ipc_queue) (m : memory) (d : endpoint) (Hs : link_shape m (tx_link q)).

Lemma load_start f a n (k : Z -> prog Z) :
  a = cell q (peer d) f -> n = width f ->
  start_at q m d (Running (k (val m q (peer d) f))) -> start_moves q m d (Access (Load n a) k).
Proof.
  intros -> -> Hat. exists (val m q (peer d) f), m. split_and!; [exact (read_cell m q _ f Hs) | now left | exact Hat].
Qed.

Lemma store_start f v a n (k : Z -> prog Z) :
  a = cell q d f -> n = width f -> 0 <= v < 256 ^ Z.of_nat n ->
  match f with
  | Sentinel => v = IPC_QUEUE_INIT_IN_PROGRESS \/ v = IPC_QUEUE_INIT_DONE /\ zeros m q d
  | _ => v = 0
  end ->
  (forall m', sets q d f v m m' -> start_at q m' d (Running (k 0))) ->
  start_moves q m d (Access (Store n a v) k).
Proof.
  intros -> -> Hv Hf Hk. destruct (write_cell m q d f v Hs Hv) as (m' & E & Hset).
  exists 0, m'. split_and!; [exact E | right; eauto | auto].
Qed.

(** Fields after one of them was set. *)
Ltac set_fields H :=
  destruct H as [_ H]; unfold zeros, started, starting in *; rewrite ?H;
  destruct d; cbn; intuition (congruence || discriminate).

Lemma load_sentinel_start :
  ~ starting m q d -> start_moves q m d (start_steps (end_queue q d)).
Proof.
  intros Hn. apply (load_start Sentinel); [now destruct d | reflexivity |]. cbn [pbind].
  destruct (Z.eqb_spec (val m q (peer d) Sentinel) IPC_QUEUE_INIT_IN_PROGRESS) as [E | E].
  - apply at_refused; [exact Hn | now right].
  - exact (at_checked q m d Hn).
Qed.

Lemma load_again_start :
  (forall d', started m q d' -> zeros m q d') -> starting m q d ->
  start_moves q m d (finish (end_queue q d) (sync_indexes (end_queue q d) IPC_SHM_CHANNEL_QUEUE)).
Proof.
  intros Hz Hd. apply (load_start Sentinel); [now destruct d | reflexivity |]. cbn [pbind].
  destruct (Z.eqb_spec (val m q (peer d) Sentinel) IPC_QUEUE_INIT_DONE) as [E | E].
  - apply at_take; auto.
  - now apply at_reset.
Qed.

(** Both indexes of the peer are zero: so is what is taken over. *)
Lemma take_read_start :
  0 < elem_num q -> starting m q d -> zeros m q (peer d) -> val m q d Write = 0 ->
  start_moves q m d (finish (end_queue q d) (take_read (end_queue q d))).
Proof.
  intros Hn Hd Hz Hw. apply (load_start Write); [now destruct d | reflexivity |]. cbn [pbind].
  rewrite (proj1 Hz). unfold pmod.
  replace (elem_num (end_queue q d) =? 0) with false by (symmetry; apply Z.eqb_neq; destruct d; cbn; lia).
  rewrite Zmod_0_l. exact (at_reset_read q m d Hd Hw).
Qed.

Lemma start_step p :
  0 < elem_num q -> (forall d', started m q d' -> zeros m q d') ->
  start_at q m d (Running p) -> start_moves q m d p.
Proof.
  intros Hn Hz Hat. inversion Hat; subst; clear Hat.
  - now apply load_sentinel_start.
  - apply (store_start Sentinel); [now destruct d | reflexivity | easy | now left |].
    intros m' H'. apply at_marked. set_fields H'.
  - now apply load_again_start.
  - apply (load_start Read); [now destruct d | reflexivity |]. cbn [pbind].
    match goal with H : zeros _ _ _ |- _ => rewrite (proj2 H) end. now apply at_take_write.
  - apply (store_start Write); [now destruct d | reflexivity | easy | reflexivity |].
    intros m' H'. apply at_take_read; set_fields H'.
  - now apply take_read_start.
  - apply (store_start Write); [now destruct d | reflexivity | easy | reflexivity |].
    intros m' H'. apply at_reset_read; set_fields H'.
  - apply (store_start Read); [now destruct d | reflexivity | easy | reflexivity |].
    intros m' H'. apply at_last; set_fields H'.
  - apply (store_start Sentinel); [now destruct d | reflexivity | easy | auto |].
    intros m' H'. apply at_done. set_fields H'.
  - left; auto.
  - right; auto.
Qed.

End Step.

(** ** Executions *)

(** What holds of the end once it has returned from a start. *)
Definition returned (q : ipc_queue) (m : memory) (d : endpoint) (v : Z) : Prop :=
  v = 0 /\ ready m q d \/ v = - EAGAIN /\ ready m q (peer d).

Lemma start_inv_step q c e c' :
  start_inv q c -> sstep q c e c' ->
  start_inv q c' /\ (forall d, ready c.1 q d -> ready c'.1 q d) /\
  (forall d v, e = EReturn d v -> returned q c'.1 d v).
Proof.
  intros [Hs Hz Hat] Hstep. assert (Hn : 0 < elem_num q) by apply Hs.
  destruct Hstep as [m th d [] Hi _ | m th d x k v m' Hx Hd | m th d v Hr]; cbn [fst snd] in *;
    assert (Hd0 := Hat d).
  - rewrite Hi in Hd0. split_and!; [constructor; auto | auto | easy]. cbn [fst snd]. intros d'.
    destruct (decide (d' = d)) as [-> |]; [| now rewrite upd_other].
    rewrite upd_same. apply at_call. now inversion Hd0.
  - rewrite Hx in Hd0. destruct (start_step q m d Hs _ Hn Hz Hd0) as (v' & m1 & E & Hg & Hk).
    rewrite Hd in E. injection E as <- <-. split_and!; [constructor | | easy]; cbn [fst snd].
    + destruct Hg as [-> | (f & w & [Hm _] & _)]; [exact Hs |].
      destruct Hs; constructor; unfold mapped in *; rewrite ?Hm; auto.
    + exact (start_guar_zeros q d m m' Hg Hz).
    + intros d'. destruct (decide (d' = d)) as [-> | Hne]; [now rewrite upd_same |].
      rewrite upd_other by exact Hne. exact (start_at_stable q d m m' d' _ Hg Hne (Hat d')).
    + intros d'. apply (start_guar_stable q d m m' d' Hg).
  - rewrite Hr in Hd0. assert (Hv := start_step q m d Hs _ Hn Hz Hd0). cbn [start_moves] in Hv.
    split_and!; [constructor; auto | auto |]; cbn [fst snd].
    + intros d'. destruct (decide (d' = d)) as [-> |]; [| now rewrite upd_other].
      rewrite upd_same. apply at_idle. unfold starting, started in *.
      inversion Hd0; subst; unfold starting, started in *; first [assumption | intros E; match goal with H : _ = IPC_QUEUE_INIT_DONE |- _ => rewrite H in E end; discriminate E].
    + intros d' v' [= <- <-]. unfold returned, ready in *. tauto.
Qed.

Lemma start_inv_exec q c es c' :
  exec (sstep q) c es c' -> start_inv q c ->
  start_inv q c' /\ (forall d, ready c.1 q d -> ready c'.1 q d) /\
  (forall d v, EReturn d v ∈ es -> returned q c'.1 d v).
Proof.
  induction 1 as [c | c e c1 es c' Hs He IH]; intros Hi.
  - split_and!; [exact Hi | auto | intros d v Hv; now apply not_elem_of_nil in Hv].
  - destruct (start_inv_step q c e c1 Hi Hs) as (H1 & R1 & V1). destruct (IH H1) as (H2 & R2 & V2).
    split_and!; [exact H2 | auto |]. intros d v Hv. apply elem_of_cons in Hv as [E | Hv]; [| auto].
    specialize (V1 d v (eq_sym E)). unfold returned in *. intuition.
Qed.

Lemma start_inv_no_fault q c d : start_inv q c -> ~ faults c d.
Proof.
  intros [Hs Hz Hat]. assert (Hd := Hat d). unfold faults. destruct (c.2 d) as [| p]; [easy |].
  assert (H := start_step q c.1 d Hs p ltac:(apply Hs) Hz Hd).
  destruct p as [| | x k]; cbn [start_moves] in H; [easy | easy |].
  destruct H as (v & m' & E & _). rewrite E. discriminate.
Qed.

(** An idle end that is ready has the mark. *)
Lemma idle_ready_started q c d : start_inv q c -> c.2 d = Idle -> ready c.1 q d -> started c.1 q d.
Proof.
  intros [_ _ Hat] Hi [Hr | Hr]; [exact Hr |]. assert (Hd := Hat d). rewrite Hi in Hd. now inversion Hd.
Qed.

Lemma both_zeros_wf q m :
  link_shape m (tx_link q) -> (forall d, started m q d) -> (forall d, zeros m q d) ->
  queue_wf m q /\ fifos q m = ([], []).
Proof.
  intros Hs Hd Hz. assert (Hn := ls_num _ _ Hs). destruct (Hz Near) as [W1 R1], (Hz Far) as [W2 R2].
  assert (Hm := link_shape_mirror m q Hs). unfold val in *.
  change (uint_at 4 m (push_ring q + RING_WRITE) = 0) in W1.
  change (uint_at 4 m (push_ring q + RING_READ) = 0) in R1.
  change (uint_at 4 m (pop_ring q + RING_WRITE) = 0) in W2.
  change (uint_at 4 m (pop_ring q + RING_READ) = 0) in R2. split.
  - constructor; [constructor | constructor | exact (Hd Near) | exact (Hd Far)];
      auto; unfold link_write, link_read; cbn in *; lia.
  - unfold fifos. f_equal; apply contents_empty; unfold link_write, link_read; cbn in *; lia.
Qed.

Lemma start_within q t : elem_num q <> 0 -> within 8 (start_steps (end_queue q t)).
Proof.
  intros Hn. assert (E : (elem_num (end_queue q t) =? 0) = false) by (apply Z.eqb_neq; now destruct t).
  unfold start_steps, ipc_queue_sync_index_steps. cbn [pbind load]. intros s.
  destruct (s =? _); [exact I |]. cbn [pbind store]. intros _. unfold sync_indexes, load. cbn [pbind]. intros s2.
  unfold sync_take, sync_reset, pmod. rewrite E. destruct (s2 =? _); cbn; auto.
Qed.

(** C8: concurrent start.  Neither ring carries a mark of an earlier run and its
    indexes are arbitrary; the two ends start, any number of times each, their
    accesses interleaved in any way.  No access faults and a start takes at most
    eight accesses of its own end.  A start that returns 0 leaves the mark of its
    end; one that is refused finds the other end starting, so that they never
    refuse each other.  Whenever both marks are there, both directions are in
    order and empty. *)
Theorem concurrent_start q m es c :
  link_shape m (tx_link q) -> (forall d, ~ started m q d /\ ~ starting m q d) ->
  exec (sstep q) (m, fun _ => Idle) es c ->
  (forall d, ~ faults c d) /\
  (forall d, within 8 (start_code q d tt)) /\
  (forall d v, EReturn d v ∈ es ->
    v = 0 /\ (c.2 d = Idle -> started c.1 q d) \/
    v = - EAGAIN /\ (c.2 (peer d) = Idle -> started c.1 q (peer d))) /\
  ((forall d, started c.1 q d) -> queue_wf c.1 q /\ fifos q c.1 = ([], [])).
Proof.
  intros Hs H0 He.
  assert (Hi : start_inv q (m, fun _ => Idle)).
  { constructor; [exact Hs | intros d Hd; now destruct (H0 d) | intros d; apply at_idle, H0]. }
  destruct (start_inv_exec q _ _ _ He Hi) as (Hc & _ & Hv). split_and!.
  - intros d. now apply start_inv_no_fault with q.
  - intros d. apply start_within. destruct Hs. cbn in *. lia.
  - intros d v Hr. destruct (Hv d v Hr) as [[-> Hd] | [-> Hd]]; [left | right];
      split; auto; intros Hd'; now apply (idle_ready_started q c).
  - intros Hd. apply both_zeros_wf; [apply Hc | exact Hd |]. intros d. now apply Hc.
Qed.
