(* ===== verification/Restart.v ===== *)
(** * Restart of an end while the other one sends

    One end runs [ipc_queue_sync_index] and sets its mark again in the middle of
    its own traffic, while the other end keeps pushing; access by access.  The
    restart takes effect at one moment, which empties both directions, and
    everything sent after that moment arrives.  That the other end does not pop in
    the meantime is needed: [QueueWitness.restart_during_reception_redelivers]. *)

From S2P Require Import Prelude Memory Types Queue QueueSpec Atomic QueueSteps Linear StartRace.
#[local] Open Scope Z_scope.

(** ** Threads *)

(** What an end calls: a restart, or an operation on the queue. *)
Inductive rop : Type :=
| Restart
| Plain (op : qop).

Abbreviation rresult := (Z + result)%type.

Definition restarting (p : prog Z) : prog rresult := let+ v := p in Done (inl v).
Definition plain (p : prog result) : prog rresult := let+ r := p in Done (inr r).

Definition restart_code (q : ipc_queue) (d : endpoint) (op : rop) : prog rresult :=
  match op with
  | Restart => restarting (start_steps (end_queue q d))
  | Plain op => plain (op_steps (end_queue q d) op)
  end.

(** The near end restarts, pushes and pops in one thread; the far end pushes. *)
Definition restart_allowed (q : ipc_queue) (d : endpoint) (op : rop) : Prop :=
  match d, op with
  | Near, Restart | Near, Plain OpPop => True
  | _, Plain (OpPush e) => elem_ok q e
  | _, _ => False
  end.

Abbreviation istep q := (step (restart_allowed q) (restart_code q)).

(** ** The object: two FIFOs that the near end can clear *)

Abbreviation fifo_pair := (list (list Z) * list (list Z))%type.
Definition rconf : Type := (fifo_pair * (endpoint -> pending rop rresult))%type.

(** Operations and restarts take effect at one moment between call and return.
    A push during a restart may be refused although there is room: the places of
    the cleared elements are free only when the restart returns. *)
Inductive rstep (q : ipc_queue) : rconf -> option (event endpoint rop rresult) -> rconf -> Prop :=
| rstep_call s th d op :
    th d = AIdle -> restart_allowed q d op -> rstep q (s, th) (Some (ECall d op)) (s, upd th d (ACalled op))
| rstep_op s th d op :
    th d = ACalled (Plain op) ->
    rstep q (s, th) None
      (swap_at d (spec_op (elem_num q - 1) op (swap_at d s)).2,
       upd th d (ADone (inr (spec_op (elem_num q - 1) op (swap_at d s)).1)))
| rstep_restart s th :
    th Near = ACalled Restart -> rstep q (s, th) None (([], []), upd th Near (ADone (inl 0)))
| rstep_busy s th e :
    th Far = ACalled (Plain (OpPush e)) -> th Near = ADone (inl 0) ->
    rstep q (s, th) None (s, upd th Far (ADone (inr (- ENOMEM, None))))
| rstep_return s th d v :
    th d = ADone v -> rstep q (s, th) (Some (EReturn d v)) (s, upd th d AIdle).

(** ** Stores to the header of the near ring *)

(** The consumer moves on to a later element: it drops the first [k]. *)
Lemma skip_link m m' l k :
  link_wf m l -> same_except (range (l_cons l + RING_READ) 4) m m' -> (k <= length (contents m l))%nat ->
  link_read m' l = (link_read m l + Z.of_nat k) mod l_num l ->
  contents m' l = drop k (contents m l) /\ link_wf m' l /\ push_rely l m m'.
Proof.
  intros Hl HP Hk Er. destruct (link_bounds m l Hl) as (Hn & Hz & Hw & Hr & Hd).
  assert (Hlen := contents_length m l (proj1 Hn)).
  assert (Hcr := count_range (link_write m l) (link_read m l) _ (proj1 Hn)). unfold link_count in Hlen.
  unfold ring_bytes, disjoint_ranges, RING_SIZE, RING_DATA in *.
  assert (Ew : link_write m' l = link_write m l).
  { apply (same_except_uint _ _ _ _ _ HP). intros x Hx Px. unfold range, RING_READ, RING_WRITE in *. nia. }
  assert (Es : forall i, 0 <= i < l_num l -> slot m' l i = slot m l i).
  { intros i Hi. apply (same_except_load _ _ _ _ _ HP). intros x Hx Px.
    destruct (slot_in_ring l i ltac:(lia) Hi). unfold range, ring_bytes, RING_SIZE, RING_READ, RING_DATA in *. nia. }
  assert (Ec : link_count m' l = link_count m l - Z.of_nat k).
  { unfold link_count. rewrite Ew, Er, Zminus_mod_idemp_r.
    replace (link_write m l - (link_read m l + Z.of_nat k)) with ((link_write m l - link_read m l) - Z.of_nat k) by lia.
    rewrite <- Zminus_mod_idemp_l. apply Z.mod_small. lia. }
  split_and!.
  - unfold contents. rewrite Ec, Er. rewrite <- fmap_drop, drop_seq, Nat.add_0_l. unfold link_count.
    replace (Z.to_nat ((link_write m l - link_read m l) mod l_num l - Z.of_nat k))
      with (Z.to_nat ((link_write m l - link_read m l) mod l_num l) - k)%nat by lia.
    set (n := (_ - k)%nat). replace (seq k n) with (Nat.add k <$> seq 0 n) by (rewrite fmap_add_seq; f_equal; lia).
    rewrite <- list_fmap_compose.
    apply list_fmap_ext. intros i x Hx. unfold compose. rewrite Es by (apply Z.mod_pos_bound; lia).
    rewrite Zplus_mod_idemp_l. f_equal. f_equal. lia.
  - constructor; [eapply same_except_shape; [exact HP | apply Hl] | lia |]. rewrite Er. apply Z.mod_pos_bound. lia.
  - constructor; [exact Ew | |].
    + unfold full. rewrite Ew, Er. intros Hf E. apply Hf.
      rewrite succ_full by lia.
      assert (E2 : (link_write m l + 1) mod l_num l = (link_read m l + Z.of_nat k) mod l_num l) by exact E. clear E.
      assert (E3 : ((link_write m l - link_read m l) mod l_num l + 1 - Z.of_nat k) mod l_num l = 0).
      { replace ((link_write m l - link_read m l) mod l_num l + 1 - Z.of_nat k)
          with ((link_write m l - link_read m l) mod l_num l + (1 - Z.of_nat k)) by lia.
        rewrite Zplus_mod_idemp_l.
        replace (link_write m l - link_read m l + (1 - Z.of_nat k))
          with ((link_write m l + 1) - (link_read m l + Z.of_nat k)) by lia.
        rewrite Zminus_mod, E2, Z.sub_diag. apply Zmod_0_l. }
      apply Z.mod_divide in E3 as [z Hz3]; [| lia]. set (c := (link_write m l - link_read m l) mod l_num l) in *.
      assert (0 < z <= 1) by (clear - Hz3 Hcr Hlen Hk Hn; split; nia). assert (z = 1) as -> by lia. lia.
    + intros x Hx. apply (proj2 HP). intros Px. destruct (slot_in_ring l (link_write m l) ltac:(lia) Hw).
      unfold range, ring_bytes, RING_SIZE, RING_READ, RING_DATA in *. nia.
Qed.

(** What a step of either end leaves in order. *)
Record links_ok (m : memory) (q : ipc_queue) : Prop := {
  lo_tx : link_wf m (tx_link q);
  lo_rx : link_wf m (rx_link q);
  lo_far : ring_done m (pop_ring q)
}.

Lemma links_queue m q : links_ok m q -> ring_done m (push_ring q) -> queue_wf m q.
Proof. intros []. now constructor. Qed.

(** Address facts of a queue whose links are in order. *)
Ltac links_facts H :=
  let Hd := fresh "Hd" in let Hn := fresh "Hn" in let Hz := fresh "Hz" in
  assert (Hd := ls_disj _ _ (lw_shape _ _ (lo_tx _ _ H)));
  assert (Hn := ls_num _ _ (lw_shape _ _ (lo_tx _ _ H)));
  assert (Hz := ls_size _ _ (lw_shape _ _ (lo_tx _ _ H)));
  unfold disjoint_ranges, ring_bytes, tx_link, rx_link in *; simpl in *.

Section Near.
Context (q : ipc_queue) (m m' : memory) (Hq : links_ok m q).

(** The near end writes its header, the read index excepted: nothing that comes in
    changes, and the far end does not notice. *)
Lemma header_rx (P : Z -> Prop) :
  same_except P m m' ->
  (forall x, P x -> range (push_ring q + RING_WRITE) 4 x \/ range (push_ring q + RING_SENTINEL) 8 x) ->
  contents m' (rx_link q) = contents m (rx_link q) /\ link_wf m' (rx_link q) /\
  push_rely (rx_link q) m m' /\ ring_done m' (pop_ring q).
Proof.
  intros HP Hx.
  assert (H1 : forall x, range (pop_ring q + RING_WRITE) 4 x -> ~ P x) by (intros x Hr Px; apply Hx in Px; links_facts Hq; range_lia).
  assert (H2 : forall x, range (push_ring q + RING_READ) 4 x -> ~ P x) by (intros x Hr Px; apply Hx in Px; links_facts Hq; range_lia).
  assert (H3 : forall x, range (pop_ring q + RING_DATA) (elem_num q * elem_size q) x -> ~ P x)
    by (intros x Hr Px; apply Hx in Px; links_facts Hq; range_lia).
  destruct (link_unchanged P m m' (rx_link q) HP (lo_rx _ _ Hq)) as [C W]; auto.
  destruct (untouched_rely m m' (rx_link q) (lo_rx _ _ Hq) P HP) as [R _]; auto.
  split_and!; auto. apply (ring_done_frame P m m' _ HP (lo_far _ _ Hq)).
  intros x Hr Px. apply Hx in Px. links_facts Hq. range_lia.
Qed.

(** It writes its header, the write index excepted: nothing that goes out changes. *)
Lemma header_tx (P : Z -> Prop) :
  same_except P m m' ->
  (forall x, P x -> range (push_ring q + RING_READ) 4 x \/ range (push_ring q + RING_SENTINEL) 8 x) ->
  contents m' (tx_link q) = contents m (tx_link q) /\ link_wf m' (tx_link q) /\ ring_done m' (pop_ring q).
Proof.
  intros HP Hx.
  destruct (link_unchanged P m m' (tx_link q) HP (lo_tx _ _ Hq)) as [C W];
    try (intros x Hr Px; apply Hx in Px; links_facts Hq; range_lia).
  split_and!; auto. apply (ring_done_frame P m m' _ HP (lo_far _ _ Hq)).
  intros x Hr Px. apply Hx in Px. links_facts Hq. range_lia.
Qed.

End Near.

(** The stores of a restart. *)
Section Stores.
Context (q : ipc_queue) (m : memory) (Hq : links_ok m q).

Definition stored (f : field) (v : Z) : memory := set_bytes m (cell q Near f) (le_encode (width f) v).

Lemma stored_frame f v : same_except (range (cell q Near f) (Z.of_nat (width f))) m (stored f v).
Proof. apply set_bytes_same_except. intros x. now rewrite le_encode_length. Qed.

Lemma stored_access f v : do_access (Store (width f) (cell q Near f) v) m = Ret 0 (stored f v).
Proof. apply store_access, cell_mapped, Hq. Qed.

Lemma stored_value f v : 0 <= v < 256 ^ Z.of_nat (width f) -> uint_at (width f) (stored f v) (cell q Near f) = v.
Proof. intros Hv. now apply uint_at_set_same. Qed.

(** The sentinel: only the mark changes. *)
Lemma store_sentinel v :
  fifos q (stored Sentinel v) = fifos q m /\ links_ok (stored Sentinel v) q /\ push_rely (rx_link q) m (stored Sentinel v).
Proof.
  assert (HP := stored_frame Sentinel v).
  destruct (header_rx q m _ Hq _ HP) as (C1 & W1 & R & D); [auto |].
  destruct (header_tx q m _ Hq _ HP) as (C2 & W2 & _); [auto |].
  split_and!; [unfold fifos; now rewrite C1, C2 | now constructor | exact R].
Qed.

(** The write index, with the read index of the far end: nothing is on its way. *)
Lemma store_write :
  let m' := stored Write (link_read m (tx_link q)) in
  contents m' (tx_link q) = [] /\ contents m' (rx_link q) = contents m (rx_link q) /\ links_ok m' q /\ push_rely (rx_link q) m m'.
Proof.
  intros m'. assert (HP := stored_frame Write (link_read m (tx_link q))). fold m' in HP.
  destruct (header_rx q m _ Hq _ HP) as (C1 & W1 & R & D); [auto |].
  destruct (link_bounds m _ (lo_tx _ _ Hq)) as (Hn & Hz & Hw & Hr & _).
  assert (Ew : link_write m' (tx_link q) = link_read m (tx_link q)) by (apply (stored_value Write); cbn in *; lia).
  assert (Er : link_read m' (tx_link q) = link_read m (tx_link q)).
  { apply (same_except_uint _ _ _ _ _ HP). intros x Hx Px. unfold cell in Px. cbn in Px. links_facts Hq. range_lia. }
  split_and!; [apply contents_empty; [lia | congruence] | exact C1 | | exact R].
  constructor; [| exact W1 | exact D]. constructor; [eapply same_except_shape; [exact HP | apply Hq] | lia | lia].
Qed.

(** The read index, past the first [k] elements. *)
Lemma store_read k :
  (k <= length (contents m (rx_link q)))%nat ->
  let m' := stored Read ((link_read m (rx_link q) + Z.of_nat k) mod elem_num q) in
  contents m' (tx_link q) = contents m (tx_link q) /\ contents m' (rx_link q) = drop k (contents m (rx_link q)) /\
  links_ok m' q /\ push_rely (rx_link q) m m'.
Proof.
  intros Hk m'. destruct (link_bounds m _ (lo_rx _ _ Hq)) as (Hn & _). set (v := (link_read m (rx_link q) + Z.of_nat k) mod elem_num q) in *.
  assert (HP := stored_frame Read v). fold m' in HP.
  destruct (header_tx q m _ Hq _ HP) as (C2 & W2 & D); [auto |].
  assert (Er : link_read m' (rx_link q) = v).
  { apply (stored_value Read). assert (H := Z.mod_pos_bound (link_read m (rx_link q) + Z.of_nat k) (elem_num q)). cbn in *. unfold v. lia. }
  destruct (skip_link m m' (rx_link q) k (lo_rx _ _ Hq) HP Hk Er) as (C1 & W1 & R).
  split_and!; auto. now constructor.
Qed.

End Stores.

(** ** Where the threads are, and what the object has done for them *)

Definition lift (a : pending qop result) : pending rop rresult :=
  match a with
  | AIdle => AIdle
  | ACalled op => ACalled (Plain op)
  | ADone r => ADone (inr r)
  end.

(** The rest of a restart from its first access, from the store of the sentinel,
    and from the indexes on. *)
Inductive beginning (q : ipc_queue) : prog Z -> Prop :=
| begin_call : beginning q (start_steps q)
| begin_checked : beginning q (finish q
    (let+ _ := store 8 (push_ring q + RING_SENTINEL) IPC_QUEUE_INIT_IN_PROGRESS in sync_indexes q IPC_SHM_CHANNEL_QUEUE))
| begin_marked : beginning q (finish q (sync_indexes q IPC_SHM_CHANNEL_QUEUE))
| begin_take : beginning q (finish q (sync_take q IPC_SHM_CHANNEL_QUEUE)).

Inductive near_at (q : ipc_queue) (m : memory) (s : fifo_pair) : thread rresult -> pending rop rresult -> Prop :=
| near_idle : ring_done m (push_ring q) -> s = fifos q m -> near_at q m s Idle AIdle
| near_plain r p a :
    ring_done m (push_ring q) -> s = fifos q m -> thread_at r q m (Running p) a ->
    near_at q m s (Running (plain p)) (lift a)
| near_begin p :
    beginning q p -> s = fifos q m -> near_at q m s (Running (restarting p)) (ACalled Restart)
| near_write :
    s = fifos q m ->
    near_at q m s (Running (restarting (finish q
      (let+ _ := store 4 (push_ring q + RING_WRITE) (link_read m (tx_link q)) in take_read q)))) (ACalled Restart)
| near_cleared :
    contents m (tx_link q) = [] -> s.2 = contents m (rx_link q) ->
    near_at q m s (Running (restarting (finish q (take_read q)))) (ACalled Restart)
| near_taken old :
    contents m (tx_link q) = [] -> s.1 = [] -> contents m (rx_link q) = old ++ s.2 ->
    near_at q m s (Running (restarting (finish q
      (let+ _ := store 4 (push_ring q + RING_READ)
                   ((link_read m (rx_link q) + Z.of_nat (length old)) mod elem_num q) in Done 0)))) (ADone (inl 0))
| near_last : s = fifos q m -> near_at q m s (Running (restarting (finish q (Done 0)))) (ADone (inl 0))
| near_returns : ring_done m (push_ring q) -> s = fifos q m -> near_at q m s (Running (Done (inl 0))) (ADone (inl 0)).

Inductive far_at (q : ipc_queue) (m : memory) : thread rresult -> pending rop rresult -> Prop :=
| far_idle : far_at q m Idle AIdle
| far_push p a : push_at (mirror q) m (Running p) a -> far_at q m (Running (plain p)) (lift a).

(** ** A step of the near end *)

Definition near_effect (q : ipc_queue) (s s' : fifo_pair) (a a' : pending rop rresult) : Prop :=
  s' = s /\ a' = a \/
  (exists op, a = ACalled (Plain op) /\ s' = (spec_op (elem_num q - 1) op s).2 /\
     a' = ADone (inr (spec_op (elem_num q - 1) op s).1)) \/
  a = ACalled Restart /\ s' = ([], []) /\ a' = ADone (inl 0).

Definition near_moves (q : ipc_queue) (m : memory) (s : fifo_pair) (p : prog rresult) (a : pending rop rresult) : Prop :=
  match p with
  | Done v => a = ADone v /\ ring_done m (push_ring q) /\ s = fifos q m
  | Wrong => False
  | Access x k =>
      exists v m' s' a', do_access x m = Ret v m' /\ push_rely (rx_link q) m m' /\ links_ok m' q /\
        near_effect q s s' a a' /\ near_at q m' s' (Running (k v)) a'
  end.

Lemma push_rely_refl l m : push_rely l m m.
Proof. now constructor. Qed.

Lemma plain_moves q m s r p a :
  queue_wf m q -> s = fifos q m -> thread_at r q m (Running p) a -> near_moves q m s (plain p) (lift a).
Proof.
  intros Hq -> Hat. assert (Ht := thread_sim r q m p a Hq Hat).
  destruct p as [v | | x k]; cbn [thread_moves] in Ht; [subst a; cbn; auto using qw_push_done | easy |].
  destruct Ht as (v & m' & a' & E & Hg & Hw & Hm & Hat').
  exists v, m', (fifos q m'), (lift a'). split_and!; [exact E | | | |].
  - exact (rely_other_end r Pusher q m m' Hq Hg).
  - now constructor; apply Hw.
  - destruct Hm as [[-> Ef] | (op & -> & Hp)]; [left; auto | right; left]. exists op. cbv zeta in Hp. destruct Hp as [-> ->]. auto.
  - apply near_plain with r; auto. apply Hw.
Qed.

Section NearStep.
Context (q : ipc_queue) (m : memory) (s : fifo_pair) (Hq : links_ok m q).

Lemma near_load d f n ad (k : Z -> prog rresult) a s' a' :
  ad = cell q d f -> n = width f -> near_effect q s s' a a' -> near_at q m s' (Running (k (val m q d f))) a' ->
  near_moves q m s (Access (Load n ad) k) a.
Proof.
  intros -> -> He Hat. exists (val m q d f), m, s', a'.
  split_and!; [apply read_cell; apply Hq | apply push_rely_refl | exact Hq | exact He | exact Hat].
Qed.

Lemma near_store f v n ad (k : Z -> prog rresult) a :
  ad = cell q Near f -> n = width f ->
  push_rely (rx_link q) m (stored q m f v) -> links_ok (stored q m f v) q -> near_at q (stored q m f v) s (Running (k 0)) a ->
  near_moves q m s (Access (Store n ad v) k) a.
Proof.
  intros -> -> Hr Hl Hat. exists 0, (stored q m f v), s, a. split_and!; auto; [now apply stored_access | now left].
Qed.

Lemma far_sentinel : val m q Far Sentinel = IPC_QUEUE_INIT_DONE.
Proof. exact (lo_far _ _ Hq). Qed.

Lemma begin_moves p : beginning q p -> s = fifos q m -> near_moves q m s (restarting p) (ACalled Restart).
Proof.
  intros Hp Hs. assert (Hsame : forall a, near_effect q s s a a) by now left. destruct Hp.
  - apply (near_load Far Sentinel _ _ _ _ s (ACalled Restart)); auto. cbn [pbind]. rewrite far_sentinel. apply (near_begin q m s _ (begin_checked q) Hs).
  - destruct (store_sentinel q m Hq IPC_QUEUE_INIT_IN_PROGRESS) as (Ef & Hl & Hr).
    apply (near_store Sentinel); auto. apply (near_begin q _ s _ (begin_marked q)). congruence.
  - apply (near_load Far Sentinel _ _ _ _ s (ACalled Restart)); auto. cbn [pbind]. rewrite far_sentinel. apply (near_begin q m s _ (begin_take q) Hs).
  - apply (near_load Far Read _ _ _ _ s (ACalled Restart)); auto. exact (near_write q m s Hs).
Qed.

Lemma write_moves :
  s = fifos q m ->
  near_moves q m s (restarting (finish q
      (let+ _ := store 4 (push_ring q + RING_WRITE) (link_read m (tx_link q)) in take_read q))) (ACalled Restart).
Proof.
  intros Hs. destruct (store_write q m Hq) as (C1 & C2 & Hl & Hr). apply (near_store Write); auto.
  apply near_cleared; [exact C1 | now rewrite Hs, C2].
Qed.

(** The write index of the far end is loaded: what is queued now is dropped. *)
Lemma cleared_moves :
  contents m (tx_link q) = [] -> s.2 = contents m (rx_link q) ->
  near_moves q m s (restarting (finish q (take_read q))) (ACalled Restart).
Proof.
  intros Htx Hs. apply (near_load Far Write _ _ _ _ ([], []) (ADone (inl 0))); [reflexivity | reflexivity | right; right; auto |].
  cbn [pbind]. destruct (link_bounds m _ (lo_rx _ _ Hq)) as (Hn & Hz & Hw & Hr & _). cbn in Hn.
  unfold pmod. destruct (Z.eqb_spec (elem_num q) 0); [lia |]. cbn [pbind].
  assert (H := near_taken q m ([], []) (contents m (rx_link q)) Htx eq_refl (eq_sym (app_nil_r _))).
  rewrite contents_length in H by (cbn; lia). unfold link_count in H. rewrite count_next in H by (cbn in *; lia).
  change (val m q Far Write) with (link_write m (rx_link q)). rewrite Z.mod_small by exact Hw. exact H.
Qed.

Lemma taken_moves old :
  contents m (tx_link q) = [] -> s.1 = [] -> contents m (rx_link q) = old ++ s.2 ->
  near_moves q m s (restarting (finish q
      (let+ _ := store 4 (push_ring q + RING_READ)
                   ((link_read m (rx_link q) + Z.of_nat (length old)) mod elem_num q) in Done 0))) (ADone (inl 0)).
Proof.
  intros Htx H1 Hrx. destruct (store_read q m Hq (length old)) as (C1 & C2 & Hl & Hr); [rewrite Hrx, length_app; lia |].
  apply (near_store Read); auto. apply near_last. unfold fifos. rewrite C1, C2, Hrx, Htx, drop_app_length, <- H1. now destruct s.
Qed.

Lemma last_moves : s = fifos q m -> near_moves q m s (restarting (finish q (Done 0))) (ADone (inl 0)).
Proof.
  intros Hs. destruct (store_sentinel q m Hq IPC_QUEUE_INIT_DONE) as (Ef & Hl & Hr). apply (near_store Sentinel); auto.
  apply near_returns; [apply (stored_value q m Sentinel); easy | congruence].
Qed.

End NearStep.

Lemma near_sim q m s p a : links_ok m q -> near_at q m s (Running p) a -> near_moves q m s p a.
Proof.
  intros Hq Hat. inversion Hat; subst; auto using begin_moves, write_moves, cleared_moves, taken_moves, last_moves.
  - apply plain_moves with r; auto. now apply links_queue.
  - now apply taken_moves.
  - cbn. auto.
Qed.

(** ** A step of the far end *)

Section FarStep.
Context (q : ipc_queue) (m m' : memory) (Hq : links_ok m q) (Hg : push_guar (rx_link q) m m').

(** The near end's ring is out of reach of the far end's pushes. *)
Lemma far_frame :
  links_ok m' q /\ contents m' (tx_link q) = contents m (tx_link q) /\
  link_read m' (tx_link q) = link_read m (tx_link q) /\ link_read m' (rx_link q) = link_read m (rx_link q) /\
  (ring_done m (push_ring q) -> ring_done m' (push_ring q)).
Proof.
  assert (HP := push_footprint (mirror q) m m' (lo_rx _ _ Hq) Hg).
  destruct (link_unchanged _ m m' (tx_link q) HP (lo_tx _ _ Hq)) as [C W];
    try (intros x Hx Px; links_facts Hq; cbn [footprint] in Px; cbn in Px; range_lia).
  split_and!.
  - constructor; [exact W | exact (push_guar_wf _ _ _ (lo_rx _ _ Hq) Hg) |].
    apply (ring_done_frame _ _ _ _ HP (lo_far _ _ Hq)). intros x Hx Px. links_facts Hq. cbn in Px. range_lia.
  - exact C.
  - apply (same_except_uint _ _ _ _ _ HP). intros x Hx Px. links_facts Hq. cbn in Px. range_lia.
  - apply (same_except_uint _ _ _ _ _ HP). intros x Hx Px. links_facts Hq. cbn in Px. range_lia.
  - intros Hd. apply (ring_done_frame _ _ _ _ HP Hd). intros x Hx Px. links_facts Hq. cbn in Px. range_lia.
Qed.

(** The near end stays where it is while elements come in. *)
Lemma near_at_incoming s x a new :
  contents m' (rx_link q) = contents m (rx_link q) ++ new -> near_at q m s x a -> near_at q m' (s.1, s.2 ++ new) x a.
Proof.
  intros Hc Hat. destruct far_frame as (Hl & Ct & Rt & Rr & Hd).
  assert (Hf : s = fifos q m -> (s.1, s.2 ++ new) = fifos q m') by (intros ->; unfold fifos; cbn [fst snd]; now rewrite Ct, Hc).
  destruct Hat.
  - apply near_idle; auto.
  - apply near_plain with r; auto. apply (thread_at_rely r q m); auto; [now apply links_queue |].
    apply (rely_other_end Pusher r (mirror q) m m'); [now apply queue_wf_mirror, links_queue | exact Hg].
  - apply near_begin; auto.
  - rewrite <- Rt. apply near_write; auto.
  - apply near_cleared; [congruence | cbn [snd]; congruence].
  - rewrite <- Rr. apply near_taken; [congruence | assumption |]. cbn [snd]. rewrite Hc, app_assoc. congruence.
  - apply near_last; auto.
  - apply near_returns; auto.
Qed.

End FarStep.

(** What the object has queued for the near end, and what the memory has. *)
Lemma near_incoming q m s x a :
  near_at q m s x a -> exists old, contents m (rx_link q) = old ++ s.2 /\ (old = [] \/ a = ADone (inl 0)).
Proof.
  intros Hat. destruct Hat; subst; cbn [fifos snd]; try (exists []; split; [symmetry; easy || reflexivity | now left]).
  exists old. split; [assumption | now right].
Qed.

Definition far_effect (q : ipc_queue) (s s' : fifo_pair) (an a a' : pending rop rresult) : Prop :=
  s' = s /\ a' = a \/
  (exists e, a = ACalled (Plain (OpPush e)) /\ s' = (s.1, (fifo_push (elem_num q - 1) s.2 e).2) /\
     a' = ADone (inr ((fifo_push (elem_num q - 1) s.2 e).1, None))) \/
  exists e, a = ACalled (Plain (OpPush e)) /\ an = ADone (inl 0) /\ s' = s /\ a' = ADone (inr (- ENOMEM, None)).

(** A push of the far end, as the object sees it. *)
Lemma push_seen q m m' s x an a a' :
  links_ok m q -> push_guar (rx_link q) m m' -> near_at q m s x an -> push_effect (mirror q) m m' a a' ->
  exists s', far_effect q s s' an (lift a) (lift a') /\ near_at q m' s' x an.
Proof.
  intros Hq Hg Hat He. destruct (near_incoming q m s x an Hat) as (old & Eo & Ho).
  assert (Hsame : contents m' (rx_link q) = contents m (rx_link q) -> near_at q m' s x an).
  { intros E. assert (H := near_at_incoming q m m' Hq Hg s x an []). rewrite !app_nil_r in H. destruct s. auto. }
  destruct He as [[-> Ec] | (e & -> & Hp)]; [exists s; split; [now left | auto] |].
  cbv zeta in Hp. destruct Hp as [-> Ec]. unfold fifo_push in Ec |- *. change (tx_link (mirror q)) with (rx_link q) in *.
  change (elem_num (mirror q)) with (elem_num q) in *.
  destruct (Z.ltb_spec (Z.of_nat (length (contents m (rx_link q)))) (elem_num q - 1)) as [Hlt | Hge]; cbn [fst snd] in Ec |- *.
  - exists (s.1, s.2 ++ [e]). split; [| now apply near_at_incoming with m]. right; left. exists e. unfold fifo_push.
    rewrite Eo, length_app in Hlt. replace (_ <? _) with true by (symmetry; apply Z.ltb_lt; lia). auto.
  - exists s. split; [| auto]. destruct Ho as [-> | ->]; right; [left | right; exists e; auto]. exists e. unfold fifo_push.
    cbn [app] in Eo. rewrite Eo in Hge. replace (_ <? _) with false by (symmetry; apply Z.ltb_ge; lia). cbn. destruct s; auto.
Qed.

(** ** The simulation *)

Record restart_sim (q : ipc_queue) (c : conf endpoint rresult) (a : rconf) : Prop := {
  rs_links : links_ok c.1 q;
  rs_near : near_at q c.1 a.1 (c.2 Near) (a.2 Near);
  rs_far : far_at q c.1 (c.2 Far) (a.2 Far)
}.

Lemma far_at_stable q m m' x a : links_ok m q -> push_rely (rx_link q) m m' -> far_at q m x a -> far_at q m' x a.
Proof.
  intros Hq Hr [| p pa Hat]; constructor. now apply (push_at_rely (mirror q) m m'); [apply (lo_rx _ _ Hq) | |].
Qed.

(** One step of the object, or none. *)
Definition rsteps (q : ipc_queue) (e : option (event endpoint rop rresult)) (a a' : rconf) : Prop :=
  exists ls, exec (rstep q) a ls a' /\ labels ls = option_list e.

Lemma rsteps_none q a : rsteps q None a a.
Proof. exists []. split; [constructor | reflexivity]. Qed.

Lemma rsteps_one q e a a' : rstep q a e a' -> rsteps q e a a'.
Proof. intros H. exists [e]. split; [econstructor; [exact H | constructor] | now destruct e]. Qed.

(** Two threads: one is set, the other is as before. *)
Lemma upd_ends {X} (f : endpoint -> X) d x : upd f d x d = x /\ upd f d x (peer d) = f (peer d).
Proof. split; [apply upd_same | apply upd_other, peer_ne]. Qed.

Lemma near_access q m th s ath x k v m' :
  restart_sim q (m, th) (s, ath) -> th Near = Running (Access x k) -> do_access x m = Ret v m' ->
  exists a', rsteps q None (s, ath) a' /\ restart_sim q (m', upd th Near (Running (k v))) a'.
Proof.
  intros [Hl Hn Hf] Hx Hd. cbn [fst snd] in *. rewrite Hx in Hn.
  destruct (near_sim q m s _ _ Hl Hn) as (v' & m1 & s' & a' & E & Hr & Hl' & He & Hn'). rewrite Hd in E. injection E as <- <-.
  assert (Hf' := far_at_stable q m m' _ _ Hl Hr Hf).
  assert (Hsim : restart_sim q (m', upd th Near (Running (k v))) (s', upd ath Near a')).
  { constructor; cbn [fst snd]; [exact Hl' | | rewrite !upd_other by easy; exact Hf']. now rewrite !upd_same. }
  destruct He as [[-> ->] | [(op & Ea & -> & ->) | (Ea & -> & ->)]].
  - exists (s, ath). split; [apply rsteps_none |]. constructor; cbn [fst snd]; [exact Hl' | now rewrite upd_same | now rewrite upd_other].
  - eexists. split; [apply rsteps_one, (rstep_op q s ath Near op Ea) | exact Hsim].
  - eexists. split; [apply rsteps_one, (rstep_restart q s ath Ea) | exact Hsim].
Qed.

Lemma far_access q m th s ath x k v m' :
  restart_sim q (m, th) (s, ath) -> th Far = Running (Access x k) -> do_access x m = Ret v m' ->
  exists a', rsteps q None (s, ath) a' /\ restart_sim q (m', upd th Far (Running (k v))) a'.
Proof.
  intros [Hl Hn Hf] Hx Hd. cbn [fst snd] in *. rewrite Hx in Hf. inversion Hf as [| p pa Hat Ep Ea]; subst.
  destruct p as [| | x' h]; try discriminate Ep. injection Ep as <- Ek. subst k. change (let+ r := h v in Done (inr r)) with (plain (h v)).
  destruct (push_sim (mirror q) m (lo_rx _ _ Hl) _ _ Hat) as (v' & m1 & pa' & E & Hg & He & Hat'). rewrite Hd in E. injection E as <- <-.
  destruct (push_seen q m m' s _ _ _ _ Hl Hg Hn He) as (s' & Hm & Hn'). destruct (far_frame q m m' Hl Hg) as (Hl' & _).
  assert (Hsim : restart_sim q (m', upd th Far (Running (plain (h v)))) (s', upd ath Far (lift pa'))).
  { constructor; cbn [fst snd]; [exact Hl' | rewrite !upd_other by easy; exact Hn' |]. rewrite !upd_same. now constructor. }
  rewrite Ea in Hm. destruct Hm as [[-> Es] | [(e & Ec & -> & Es) | (e & Ec & Ed & -> & Es)]].
  - exists (s, ath). split; [apply rsteps_none |]. constructor; cbn [fst snd]; [exact Hl' | now rewrite upd_other | rewrite upd_same].
    rewrite <- Es. now constructor.
  - rewrite Es in Hsim. eexists. split; [apply rsteps_one, (rstep_op q s ath Far (OpPush e) Ec) | exact Hsim].
  - rewrite Es in Hsim. eexists. split; [apply rsteps_one, (rstep_busy q s ath e Ec Ed) | exact Hsim].
Qed.

Lemma restart_sim_step q c e c' a :
  restart_sim q c a -> istep q c e c' ->
  exists ls a', exec (rstep q) a ls a' /\ labels ls = visible [e] /\ restart_sim q c' a'.
Proof.
  destruct a as [s ath]. intros Hsim Hstep.
  destruct Hstep as [m th d op Hi Ha | m th d x k v m' Hx Hd | m th d v Hr].
  - assert (Ea : ath d = AIdle) by (destruct Hsim as [_ Hn Hf]; cbn in Hn, Hf; destruct d;
      [rewrite Hi in Hn; now inversion Hn | rewrite Hi in Hf; now inversion Hf]).
    exists [Some (ECall d op)], (s, upd ath d (ACalled op)). split_and!; [econstructor; [now apply rstep_call | constructor] | reflexivity |].
    destruct Hsim as [Hl Hn Hf]. cbn [fst snd] in *. constructor; cbn [fst snd]; [exact Hl | |]; destruct d;
      rewrite ?upd_same, ?upd_other by easy; auto.
    + rewrite Hi in Hn. inversion Hn as [Hd Es | | | | | | |]; subst. destruct op as [| [el |]].
      * apply near_begin; [constructor | reflexivity].
      * apply (near_plain q m _ Pusher _ (ACalled (OpPush el))); auto. now apply push_start.
      * apply (near_plain q m _ Popper _ (ACalled OpPop)); auto. apply pop_start.
    + destruct op as [| [el |]]; try easy. apply (far_push q m _ (ACalled (OpPush el))). apply push_start. now destruct q.
  - assert (H : exists a', rsteps q None (s, ath) a' /\ restart_sim q (m', upd th d (Running (k v))) a')
      by (destruct d; [eapply near_access | eapply far_access]; eauto).
    destruct H as (a' & (ls & He & El) & Hs). exists ls, a'. auto.
  - assert (Ea : ath d = ADone v /\ (d = Near -> ring_done m (push_ring q) /\ s = fifos q m)).
    { destruct Hsim as [Hl Hn Hf]. cbn in Hl, Hn, Hf. destruct d.
      - rewrite Hr in Hn. destruct (near_sim q m s _ _ Hl Hn) as (E & H). auto.
      - split; [| easy]. rewrite Hr in Hf. inversion Hf as [| p pa Hat Ep Ea]. destruct p as [r | |]; try discriminate Ep.
        injection Ep as <-. now rewrite (push_sim (mirror q) m (lo_rx _ _ Hl) _ _ Hat). }
    destruct Ea as [Ea Hend]. exists [Some (EReturn d v)], (s, upd ath d AIdle).
    split_and!; [econstructor; [now apply rstep_return | constructor] | reflexivity |].
    destruct Hsim as [Hl Hn Hf]. cbn [fst snd] in *. constructor; cbn [fst snd]; [exact Hl | |]; destruct d;
      rewrite ?upd_same, ?upd_other by easy; auto; [| constructor]. destruct (Hend eq_refl). now apply near_idle.
Qed.

Lemma restart_no_fault q c a d : restart_sim q c a -> ~ faults c d.
Proof.
  intros [Hl Hn Hf]. unfold faults. destruct d.
  - destruct (c.2 Near) as [| p]; [easy |]. assert (H := near_sim q c.1 a.1 p _ Hl Hn).
    destruct p as [| | x k]; cbn [near_moves] in H; [easy | easy |]. destruct H as (v & m' & s' & a' & E & _). now rewrite E.
  - inversion Hf as [| p pa Hat Ep Ea]; [easy |]. assert (H := push_sim (mirror q) c.1 (lo_rx _ _ Hl) _ _ Hat).
    destruct p as [| | x k]; cbn [push_moves plain pbind] in *; [easy | easy |]. destruct H as (v & m' & a' & E & _). now rewrite E.
Qed.

Lemma restart_within q d op : elem_num q <> 0 -> within (Z.to_nat (elem_size q) + 8) (restart_code q d op).
Proof.
  intros Hn. unfold restart_code, restarting, plain. destruct op as [| op].
  - apply (within_mono _ (8 + 0)); [lia |]. apply within_pbind; [now apply start_within | intros; exact I].
  - apply (within_mono _ (Z.to_nat (elem_size q) + 5 + 0)); [lia |]. apply within_pbind; [| intros; exact I].
    replace (elem_size q) with (elem_size (end_queue q d)) by now destruct d. apply within_op.
Qed.

(** C9: restart of an end in traffic.  The near end of a well-formed queue restarts
    any number of times between its own operations, while the far end keeps
    pushing; their accesses are interleaved in any way.  No access faults, every
    call returns after at most [elem_size + 8] accesses of its own end, and whenever
    the near end is between two calls the queue is well formed.  Every execution
    has the calls, returns and results of two bounded FIFOs in which a restart takes
    effect at one moment, returns 0 and leaves both directions empty: nothing pushed
    after that moment is lost, nothing older arrives later.  The one difference is
    that a push during a restart may find the queue full. *)
Theorem restart_in_traffic q m es c :
  queue_wf m q -> exec (istep q) (m, fun _ => Idle) es c ->
  (forall d, ~ faults c d) /\
  (forall d op, within (Z.to_nat (elem_size q) + 8) (restart_code q d op)) /\
  (c.2 Near = Idle -> queue_wf c.1 q) /\
  exists ls s ath, exec (rstep q) (fifos q m, fun _ => AIdle) ls (s, ath) /\ labels ls = visible es /\
    (c.2 Near = Idle -> s = fifos q c.1).
Proof.
  intros Hq He.
  assert (H0 : restart_sim q (m, fun _ => Idle) (fifos q m, fun _ => AIdle)).
  { constructor; cbn [fst snd]; [constructor; apply Hq | apply near_idle; [apply Hq | reflexivity] | constructor]. }
  destruct (simulation_exec (istep q) (rstep q) (restart_sim q) (fun c e c' a => restart_sim_step q c e c' a) _ _ _ He _ H0)
    as (ls & [s ath] & E & L & Hs).
  assert (Hend : c.2 Near = Idle -> ring_done c.1 (push_ring q) /\ s = fifos q c.1).
  { intros Hi. assert (Hn := rs_near _ _ _ Hs). rewrite Hi in Hn. cbn [fst] in Hn. inversion Hn; auto. }
  split_and!.
  - intros d. now apply restart_no_fault with q (s, ath).
  - intros d op. apply restart_within. destruct (link_bounds m _ (qw_tx _ _ Hq)) as (Hn & _). cbn in Hn. lia.
  - intros Hi. apply links_queue; [apply Hs | now apply Hend].
  - exists ls, s, ath. split_and!; auto. intros Hi. now apply Hend.
Qed.
