(* ===== verification/QueueWitness.v ===== *)
(** * Concrete queues

    A channel queue of three 8-byte elements over two mapped 1 KiB regions, run
    through the theorems of [QueueSpec], [Linear],
    [QueueOrder] and [StartRace], and through an
    interleaving of two restarts that disagree. *)

From S2P Require Import Prelude Memory Types Queue QueueSpec Atomic QueueSteps Linear QueueOrder StartRace Restart.

Definition ex_mem : memory := Memory [(0x1000, 0x400); (0x2000, 0x400)] ∅.
Definition ex_data : ipc_queue_data := QueueData 8 3 IPC_SHM_CHANNEL_QUEUE 0x1000 0x2000.
Definition ex_pool_data : ipc_queue_data := QueueData 8 3 IPC_SHM_POOL_QUEUE 0x1000 0x2000.
Definition ex_queue : ipc_queue := init_queue ex_data.

(** Both rings initialised and marked. *)
Definition ex_live : memory :=
  mark_done 0x2000 (sync_result (mark_done 0x1000 (sync_result ex_mem 0x1000 0 0)) 0x2000 0 0).

Definition ex_elem (x : Z) : list Z := le_encode 8 x.

(** Near sends four (the queue holds three), far receives two. *)
Definition ex_ops : list (endpoint * qop) :=
  [(Near, OpPush (ex_elem 10)); (Near, OpPush (ex_elem 20)); (Near, OpPush (ex_elem 30));
   (Near, OpPush (ex_elem 40)); (Far, OpPop); (Far, OpPop); (Near, OpPop)].

Lemma ex_shape m :
  mem_regions m = mem_regions ex_mem -> link_shape m (tx_link ex_queue).
Proof.
  intros H; constructor; try (simpl; lia); unfold mapped; rewrite ?H; try reflexivity.
  left; vm_compute; discriminate.
Qed.

Lemma ex_live_wf : queue_wf ex_live ex_queue.
Proof.
  constructor; [constructor | constructor | |]; try (apply ex_shape; reflexivity);
    try (apply (link_shape_mirror _ ex_queue), ex_shape; reflexivity);
    vm_compute; intuition discriminate.
Qed.

Lemma ex_init_ok : init_ok ex_mem ex_data.
Proof.
  constructor; [simpl; lia .. | reflexivity | now left | now apply ex_shape].
Qed.

Lemma ex_live_init_ok : init_ok ex_live ex_data.
Proof.
  constructor; [simpl; lia .. | reflexivity | now left | now apply ex_shape].
Qed.

Lemma ex_live_pool_init_ok : init_ok ex_live ex_pool_data.
Proof.
  constructor; [simpl; lia .. | reflexivity | now right | now apply ex_shape].
Qed.

Lemma ex_ops_fit : Forall (fun o => op_fits ex_queue o.2) ex_ops.
Proof. repeat constructor. Qed.

Lemma ex_mem_ok : mem_ok ex_mem.
Proof. intros x; unfold byte_at, ex_mem; simpl. rewrite lookup_empty. simpl; lia. Qed.

(** The fourth push is refused, the pops return the first two elements. *)
Example ex_run : spec_ops 3 ex_ops ([], []) =
  ([(0, None); (0, None); (0, None); (-12, None);
    (0, Some (ex_elem 10)); (0, Some (ex_elem 20)); (-105, None)],
   ([ex_elem 30], [])).
Proof. reflexivity. Qed.

Lemma queue_ends_refine_fifos_witness :
  exists m', run_ops ex_queue ex_ops ex_live
    = Ret (spec_ops 3 ex_ops (fifos ex_queue ex_live)).1 m' /\ queue_wf m' ex_queue.
Proof.
  destruct (queue_ends_refine_fifos ex_queue ex_ops ex_live ex_live_wf ex_ops_fit)
    as (m' & E & _ & W).
  exists m'; split; [exact E | exact W].
Defined.

Lemma queue_ops_write_local_ring_witness :
  exists r m', ipc_queue_init (Some ex_queue) ex_data ex_mem = Ret r m' /\
    same_except (range 0x1000 RING_SIZE) ex_mem m'.
Proof.
  eexists; eexists; split; [vm_compute; reflexivity |].
  refine (proj1 (proj2 (proj2
    (queue_ops_write_local_ring ex_queue None ex_data ex_queue ex_mem _ _ ex_mem_ok))) _ _ _).
  - simpl; lia.
  - simpl; lia.
  - vm_compute; reflexivity.
Defined.

Lemma ex_pool_init_ok : init_ok ex_mem ex_pool_data.
Proof.
  constructor; [simpl; lia .. | reflexivity | now right | now apply ex_shape].
Qed.

(** A channel queue and a pool queue start; the same two are restarted against a
    live peer. *)
Lemma queue_start_and_restart_witness :
  (exists m1 m2,
    ipc_queue_init (Some ex_queue) ex_data ex_mem = Ret (0, Some ex_queue) m1 /\
    ipc_queue_init (Some ex_queue) (QueueData 8 3 IPC_SHM_CHANNEL_QUEUE 0x2000 0x1000)
      (mark_done 0x1000 m1) = Ret (0, Some (mirror ex_queue)) m2) /\
  (exists m3, contents m3 (rx_link ex_queue) = [] /\ length (contents m3 (tx_link ex_queue)) = 3%nat) /\
  (exists m1, ipc_queue_init (Some ex_queue) ex_data ex_live = Ret (0, Some ex_queue) m1) /\
  exists m1, ipc_queue_init (Some ex_queue) ex_pool_data ex_live
    = Ret (0, Some (init_queue ex_pool_data)) m1.
Proof.
  split_and!.
  - destruct (proj1 (queue_start_and_restart ex_queue ex_data ex_mem ex_init_ok)) as (m1 & m2 & E1 & E2 & _);
      [vm_compute; discriminate .. |].
    exists m1, m2; split; [exact E1 | exact E2].
  - destruct (proj1 (queue_start_and_restart ex_queue ex_pool_data ex_mem ex_pool_init_ok))
      as (m1 & m2 & _ & _ & _ & Cr & Ct); [vm_compute; discriminate .. |].
    eexists; split; [exact Cr | exact (f_equal (@length _) Ct)].
  - destruct (proj2 (queue_start_and_restart ex_queue ex_data ex_live ex_live_init_ok))
      as (m1 & E & _); [reflexivity | vm_compute; intuition discriminate .. |].
    exists m1; exact E.
  - destruct (proj2 (queue_start_and_restart ex_queue ex_pool_data ex_live ex_live_pool_init_ok))
      as (m1 & E & _); [reflexivity | vm_compute; intuition discriminate .. |].
    exists m1; exact E.
Defined.

(** An unmarked memory: the pop is refused, the push is not. *)
Lemma queue_rejects_corruption_witness :
  ipc_queue_pop (Some ex_queue) true ex_mem = Ret (- EINVAL, None) ex_mem /\
  exists m', ipc_queue_push (Some ex_queue) (Some (ex_elem 7)) ex_mem = Ret 0 m'.
Proof.
  destruct (queue_rejects_corruption ex_queue (ex_elem 7) ex_mem (ex_shape ex_mem eq_refl))
    as (_ & Hpop & Hpush). split.
  - apply Hpop. left; vm_compute; discriminate.
  - destruct Hpush as (m' & E & _); [| reflexivity | exists m'; exact E].
    constructor; [apply ex_shape; reflexivity | vm_compute; intuition discriminate ..].
Defined.

(** ** Interleavings *)

(** Near's pusher copies three bytes of an element, far's popper finds the queue
    empty; near's pusher finishes, far's popper is half-way through the element. *)
Definition ex_turns : list (tid * qop) :=
  let near := ((Near, Pusher), OpPush (ex_elem 10)) in let far := ((Far, Popper), OpPop) in
  repeat near 6 ++ repeat far 6 ++ repeat near 7 ++ repeat far 9.

Lemma ex_turns_allowed : Forall (fun p => allowed ex_queue p.1 p.2) ex_turns.
Proof.
  assert (H1 : allowed ex_queue (Near, Pusher) (OpPush (ex_elem 10))) by (split; [reflexivity | apply le_encode_ok]).
  apply List.Forall_forall. intros p Hp. unfold ex_turns in Hp. rewrite !in_app_iff in Hp.
  destruct Hp as [Hp | [Hp | [Hp | Hp]]]; apply repeat_spec in Hp as ->; try exact H1; exact I.
Qed.

Definition ex_play : list (event tid qop result) * qconf := play (code ex_queue) ex_turns (all_idle ex_live).

Lemma queue_linearizable_witness :
  exists ls ath, exec (fstep ex_queue) (([], []), fun _ => AIdle) ls (fifos ex_queue ex_play.2.1, ath) /\
    labels ls = [ECall (Near, Pusher) (OpPush (ex_elem 10)); ECall (Far, Popper) OpPop;
                 EReturn (Far, Popper) (- ENOBUFS, None); EReturn (Near, Pusher) (0, None); ECall (Far, Popper) OpPop].
Proof.
  destruct (queue_linearizable ex_queue ex_live _ _ ex_live_wf
              (play_exec _ (code ex_queue) _ (all_idle ex_live) ex_turns_allowed))
    as (_ & _ & ls & ath & E & L).
  exists ls, ath. split; [exact E | rewrite L; vm_compute; reflexivity].
Defined.

(** The element near sent is in far's popper's hands. *)
Lemma queue_delivers_in_order_concurrently_witness :
  sent Near ex_play.1 = [ex_elem 10] /\ received Far ex_play.1 = [] /\
  exists ins, [ex_elem 10] = ins ++ contents ex_play.2.1 (tx_link ex_queue) /\ (length ins <= 1)%nat.
Proof.
  split; [vm_compute; reflexivity |]. split; [vm_compute; reflexivity |].
  destruct (queue_delivers_in_order_concurrently ex_queue ex_live _ _ Near ex_live_wf
              (play_exec _ (code ex_queue) _ (all_idle ex_live) ex_turns_allowed))
    as (out & ins & E & _ & Hi & Ho & _).
  exists ins. split; [| exact Hi]. rewrite (Ho eq_refl) in E. exact E.
Defined.

(** Near's pusher has stopped in the middle of its copy; far's popper goes on. *)
Definition ex_stopped : list (event tid qop result) * qconf :=
  play (code ex_queue) (repeat ((Near, Pusher), OpPush (ex_elem 10)) 6) (all_idle ex_live).
Definition ex_called : qconf :=
  (ex_stopped.2.1, upd ex_stopped.2.2 (Far, Popper) (Running (code ex_queue (Far, Popper) OpPop))).
Definition ex_alone : list (event tid qop result) * qconf :=
  play (code ex_queue) (repeat ((Far, Popper), OpPop) 3) ex_called.

Lemma ex_repeat_exec t op n c :
  allowed ex_queue t op ->
  exec (qstep ex_queue) c (play (code ex_queue) (repeat (t, op) n) c).1 (play (code ex_queue) (repeat (t, op) n) c).2.
Proof. intros H. apply play_exec, List.Forall_forall. intros p Hp. apply repeat_spec in Hp as ->. exact H. Qed.

Lemma queue_wait_free_witness :
  (accesses (Far, Popper) ex_alone.1 <= 13)%nat /\
  exists e c, qstep ex_queue ex_alone.2 e c /\ (e = EAccess (Far, Popper) \/ exists v, e = EReturn (Far, Popper) v).
Proof.
  apply (queue_wait_free ex_queue ex_live ex_stopped.1 ex_stopped.2 (Far, Popper) OpPop ex_called).
  - exact ex_live_wf.
  - apply ex_repeat_exec. split; [reflexivity | apply le_encode_ok].
  - apply step_call; [reflexivity | exact I].
  - now apply ex_repeat_exec.
  - intros v Hv. change (ex_alone.1) with (repeat (EAccess (Far, Popper) : event tid qop result) 3) in Hv.
    apply list_elem_of_In, repeat_spec in Hv. discriminate.
Defined.

(** ** Starts *)

(** Both ends find the other one's ring without a mark and start. *)
Definition ex_starts : list (endpoint * unit) :=
  [(Near, tt); (Far, tt); (Near, tt); (Far, tt)] ++ repeat (Near, tt) 5 ++ repeat (Far, tt) 8 ++ [(Near, tt)].
Definition ex_both : list (event endpoint unit Z) * conf endpoint Z :=
  play (start_code ex_queue) ex_starts (ex_mem, fun _ => Idle).

Lemma ex_start_exec c plan :
  exec (sstep ex_queue) c (play (start_code ex_queue) plan c).1 (play (start_code ex_queue) plan c).2.
Proof. apply play_exec, List.Forall_forall. easy. Qed.

Lemma concurrent_start_witness :
  visible ex_both.1 = [ECall Near tt; ECall Far tt; EReturn Far 0; EReturn Near 0] /\
  queue_wf ex_both.2.1 ex_queue /\ fifos ex_queue ex_both.2.1 = ([], []).
Proof.
  split; [vm_compute; reflexivity |].
  refine (proj2 (proj2 (proj2 (concurrent_start ex_queue ex_mem ex_both.1 ex_both.2 (ex_shape ex_mem eq_refl) _ _))) _).
  - intros d. split; destruct d; vm_compute; discriminate.
  - apply ex_start_exec.
  - intros d. destruct d; vm_compute; reflexivity.
Defined.

(** ** Restarts that disagree *)

(** Near has sent two elements and far has taken both. *)
Definition ex_used : memory :=
  match run_ops ex_queue [(Near, OpPush (ex_elem 10)); (Near, OpPush (ex_elem 20)); (Far, OpPop); (Far, OpPop)]
          ex_live with
  | Ret _ m => m
  | Fault => ex_live
  end.

(** Both ends restart.  Each finds the mark of the other one's last run; near
    marks its ring and decides to take over far's indexes, then far marks its own,
    finds near starting and resets its indexes to zero, the one that near has not
    read yet among them. *)
Definition ex_restarts : list (endpoint * unit) :=
  [(Near, tt); (Far, tt); (Near, tt); (Far, tt)] ++ repeat (Near, tt) 4 ++ repeat (Far, tt) 6 ++ repeat (Near, tt) 4.
Definition ex_raced : list (event endpoint unit Z) * conf endpoint Z :=
  play (start_code ex_queue) ex_restarts (ex_used, fun _ => Idle).

(** Two restarts at once, without any traffic: both ends return 0 and both marks
    are there, and the two elements that far had taken are queued again. *)
Theorem simultaneous_restarts_redeliver :
  queue_wf ex_used ex_queue /\ fifos ex_queue ex_used = ([], []) /\
  exec (sstep ex_queue) (ex_used, fun _ => Idle) ex_raced.1 ex_raced.2 /\
  visible ex_raced.1 = [ECall Near tt; ECall Far tt; EReturn Far 0; EReturn Near 0] /\
  queue_wf ex_raced.2.1 ex_queue /\ fifos ex_queue ex_raced.2.1 = ([ex_elem 10; ex_elem 20], []).
Proof.
  assert (Hwf : forall m, mem_regions m = mem_regions ex_mem ->
            (forall d, started m ex_queue d) ->
            (forall d f, f <> Sentinel -> 0 <= val m ex_queue d f < 4) -> queue_wf m ex_queue).
  { intros m Hm Hd Hv. constructor; [constructor | constructor | exact (Hd Near) | exact (Hd Far)];
      try (now apply ex_shape); try (now apply (link_shape_mirror _ ex_queue), ex_shape);
      first [apply (Hv Near Write) | apply (Hv Far Read) | apply (Hv Far Write) | apply (Hv Near Read)]; discriminate. }
  split_and!.
  - apply Hwf; [reflexivity | intros []; vm_compute; reflexivity |].
    intros [] []; vm_compute; intuition discriminate.
  - vm_compute. reflexivity.
  - apply ex_start_exec.
  - vm_compute. reflexivity.
  - apply Hwf; [reflexivity | intros []; vm_compute; reflexivity |].
    intros [] []; vm_compute; intuition discriminate.
  - vm_compute. reflexivity.
Qed.

(** ** A restart in traffic *)

(** Three elements wait for near, which has sent one. *)
Definition ex_inbox : memory :=
  let sent d b := (d, OpPush (ex_elem b)) in
  match run_ops ex_queue [sent Far 10; sent Far 20; sent Far 30; sent Near 40] ex_live with
  | Ret _ m => m
  | Fault => ex_live
  end.

Lemma ex_inbox_wf : queue_wf ex_inbox ex_queue.
Proof.
  constructor; [constructor | constructor | ..]; try (vm_compute; intuition discriminate);
    first [now apply ex_shape | now apply (link_shape_mirror _ ex_queue), ex_shape | vm_compute; reflexivity].
Qed.

(** Near restarts; before it has stored its read index far finds the queue full.
    Then far sends an element and near takes it. *)
Definition ex_restart_plan : list (endpoint * rop) :=
  repeat (Near, Restart) 7 ++ repeat (Far, Plain (OpPush (ex_elem 50))) 4 ++ repeat (Near, Restart) 3 ++
  repeat (Far, Plain (OpPush (ex_elem 60))) 13 ++ repeat (Near, Plain OpPop) 15.
Definition ex_restarted : list (event endpoint rop rresult) * conf endpoint rresult :=
  play (restart_code ex_queue) ex_restart_plan (ex_inbox, fun _ => Idle).

Lemma restart_in_traffic_witness :
  queue_wf ex_restarted.2.1 ex_queue /\
  exists ls s ath, exec (rstep ex_queue) (([ex_elem 40], [ex_elem 10; ex_elem 20; ex_elem 30]), fun _ => AIdle) ls (s, ath) /\
    labels ls = [ECall Near Restart; ECall Far (Plain (OpPush (ex_elem 50))); EReturn Far (inr (- ENOMEM, None));
                 EReturn Near (inl 0); ECall Far (Plain (OpPush (ex_elem 60))); EReturn Far (inr (0, None));
                 ECall Near (Plain OpPop); EReturn Near (inr (0, Some (ex_elem 60)))] /\
    s = ([], []).
Proof.
  destruct (restart_in_traffic ex_queue ex_inbox ex_restarted.1 ex_restarted.2 ex_inbox_wf) as (_ & _ & Hwf & ls & s & ath & E & L & Hs).
  { apply play_exec, List.Forall_forall. intros p Hp. unfold ex_restart_plan in Hp. rewrite !in_app_iff in Hp.
    destruct Hp as [Hp | [Hp | [Hp | [Hp | Hp]]]]; apply repeat_spec in Hp as ->; try exact I; (split; [reflexivity | apply le_encode_ok]). }
  assert (Hi : ex_restarted.2.2 Near = Idle) by (vm_compute; reflexivity).
  split; [exact (Hwf Hi) |]. exists ls, s, ath. split_and!.
  - exact E.
  - rewrite L. vm_compute. reflexivity.
  - rewrite (Hs Hi). vm_compute. reflexivity.
Defined.

(** ** A restart during a reception *)

(** Near has sent three elements, far has taken them, and near has sent a fourth. *)
Definition ex_fourth : memory :=
  let sent b := (Near, OpPush (ex_elem b)) in let taken := (Far, OpPop) in
  match run_ops ex_queue [sent 10; sent 20; sent 30; taken; taken; taken; sent 40] ex_live with
  | Ret _ m => m
  | Fault => ex_live
  end.

(** Near restarts, far pops. *)
Definition mixed_code (d : endpoint) (_ : unit) : prog result :=
  match d with
  | Near => let+ e := start_steps ex_queue in Done (e, None)
  | Far => op_steps (end_queue ex_queue Far) OpPop
  end.
Abbreviation mixed_step := (step (fun _ _ => True) mixed_code).

(** Far has read the indexes and found both marks; near restarts from start to
    end and takes over far's read index as it still is; far finishes. *)
Definition ex_mixed_plan : list (endpoint * unit) := repeat (Far, tt) 5 ++ repeat (Near, tt) 10 ++ repeat (Far, tt) 10.
Definition ex_mixed : list (event endpoint unit result) * conf endpoint result :=
  play mixed_code ex_mixed_plan (ex_fourth, fun _ => Idle).

(** One end restarts while its peer takes an element: both calls succeed, far gets
    the fourth element, and the three it had taken before are queued again. *)
Theorem restart_during_reception_redelivers :
  fifos ex_queue ex_fourth = ([ex_elem 40], []) /\
  exec mixed_step (ex_fourth, fun _ => Idle) ex_mixed.1 ex_mixed.2 /\
  visible ex_mixed.1 = [ECall Far tt; ECall Near tt; EReturn Near (0, None); EReturn Far (0, Some (ex_elem 40))] /\
  ring_done ex_mixed.2.1 (push_ring ex_queue) /\ ring_done ex_mixed.2.1 (pop_ring ex_queue) /\
  fifos ex_queue ex_mixed.2.1 = ([ex_elem 10; ex_elem 20; ex_elem 30], []).
Proof.
  split_and!; [vm_compute; reflexivity | | vm_compute; reflexivity ..].
  apply play_exec, List.Forall_forall. easy.
Qed.
