(* ===== verification/World.v ===== *)
(** * Driver state and the interfaces it is built on

    The private data of src/ipc-shm.c, the state a driver function runs in
    (shared memory, private data, platform), and the interfaces of the two
    parties the driver calls: the platform (src/hw/ipc-hw.h, ipc-os.h of
    src/os_kernel and src/os_uio) and the receive callbacks of the application. *)

From S2P Require Import Prelude Memory Types Queue.

(** ** Buffer descriptors (struct ipc_shm_bd, 8 bytes) *)

Record ipc_shm_bd : Type := BD {
  bd_pool_id : Z;    (* int16_t *)
  bd_buf_id : Z;     (* uint16_t *)
  bd_data_size : Z   (* uint32_t *)
}.

Definition SIZEOF_BD : Z := 8.

(** The bytes of a descriptor, and a descriptor read from bytes. *)
Definition bd_encode (bd : ipc_shm_bd) : list Z :=
  le_encode 2 (bd_pool_id bd) ++ le_encode 2 (bd_buf_id bd) ++ le_encode 4 (bd_data_size bd).
Definition bd_decode (bs : list Z) : ipc_shm_bd :=
  BD (i16 (le_decode (take 2 bs))) (le_decode (take 2 (drop 2 bs)))
     (le_decode (take 4 (drop 4 bs))).

(** ** Private data *)

Record ipc_shm_pool : Type := Pool {
  num_bufs : Z;          (* uint16_t *)
  buf_size : Z;          (* uint32_t *)
  shm_size : Z;          (* uint32_t *)
  local_pool_addr : Z;
  remote_pool_addr : Z;
  pool_bd_queue : ipc_queue
}.

Record ipc_managed_channel : Type := MChan {
  bd_queue : ipc_queue;
  num_pools : Z;         (* uint16_t *)
  pools : list ipc_shm_pool;
  m_rx_cb : Z;
  m_cb_arg : Z
}.

(** Unmanaged channel memory: control words, then the application's bytes. *)
Definition UMEM_SENTINEL : Z := 0.
Definition UMEM_TX_COUNT : Z := 4.
Definition UMEM_REMOTE_TX_COUNT : Z := 8.
Definition UMEM_MEM : Z := 16.
Definition UMEM_SIZE : Z := 16.

Record ipc_unmanaged_channel : Type := UChan {
  u_size : Z;            (* uint32_t *)
  local_mem : Z;
  remote_mem : Z;
  u_rx_cb : Z;
  u_cb_arg : Z
}.

(** [ch] is a union.  Its two members keep the pair of ring (memory) pointers
    in the same place, and the driver relies on no other overlap: a write
    through one member sets these pointers in both ([set_mng], [set_umng]). *)
Record ipc_shm_channel : Type := Chan {
  ch_id : Z;
  ch_type : ipc_shm_channel_type;
  ch_mng : ipc_managed_channel;
  ch_umng : ipc_unmanaged_channel
}.

Definition set_mng (c : ipc_shm_channel) (m : ipc_managed_channel) : ipc_shm_channel :=
  let u := ch_umng c in
  Chan (ch_id c) (ch_type c) m
    (UChan (u_size u) (push_ring (bd_queue m)) (pop_ring (bd_queue m)) (u_rx_cb u) (u_cb_arg u)).

Definition set_umng (c : ipc_shm_channel) (u : ipc_unmanaged_channel) : ipc_shm_channel :=
  let m := ch_mng c in let q := bd_queue m in
  Chan (ch_id c) (ch_type c)
    (MChan (Queue (elem_size q) (elem_num q) (local_mem u) (remote_mem u))
       (num_pools m) (pools m) (m_rx_cb m) (m_cb_arg m)) u.

Record ipc_shm_priv : Type := Priv {
  p_shm_size : Z;        (* uint32_t *)
  p_num_channels : Z;    (* uint8_t *)
  p_channels : list ipc_shm_channel;
  p_global : Z           (* address of the local struct ipc_shm_global *)
}.

(** Static storage starts zeroed. *)
Definition queue_zero : ipc_queue := Queue 0 0 NULL NULL.
Definition pool_zero : ipc_shm_pool := Pool 0 0 0 0 0 queue_zero.
Definition mchan_zero : ipc_managed_channel :=
  MChan queue_zero 0 (replicate (Z.to_nat IPC_SHM_MAX_POOLS) pool_zero) NULL NULL.
Definition chan_zero : ipc_shm_channel :=
  Chan 0 IPC_SHM_MANAGED mchan_zero (UChan 0 NULL NULL NULL NULL).
Definition priv_zero : ipc_shm_priv :=
  Priv 0 0 (replicate (Z.to_nat IPC_SHM_MAX_CHANNELS) chan_zero) NULL.
Definition priv_data_zero : list ipc_shm_priv :=
  replicate (Z.to_nat IPC_SHM_MAX_INSTANCES) priv_zero.

(** ** The state of the driver *)

Record world (P : Type) : Type := World {
  w_mem : memory;
  w_priv : list ipc_shm_priv;
  w_plat : P
}.
Arguments World {P} w_mem w_priv w_plat.
Arguments w_mem {P} w.
Arguments w_priv {P} w.
Arguments w_plat {P} w.

Definition on_mem {P A} : M memory A -> M (world P) A :=
  czoom w_mem (fun m w => World m (w_priv w) (w_plat w)).
Definition on_plat {P A} : M (memory * P) A -> M (world P) A :=
  czoom (fun w => (w_mem w, w_plat w)) (fun mp w => World mp.1 (w_priv w) mp.2).
Definition set_priv_data {P} (l : list ipc_shm_priv) (w : world P) : world P :=
  World (w_mem w) l (w_plat w).

(** Array access with a C index. *)
Definition nthZ {A} (l : list A) (i : Z) : option A :=
  if i <? 0 then None else l !! Z.to_nat i.
Definition setZ {A} (l : list A) (i : Z) (x : A) : list A := <[Z.to_nat i := x]> l.

Lemma nthZ_setZ {A} (l : list A) i x y : nthZ l i = Some y -> nthZ (setZ l i x) i = Some x.
Proof.
  unfold nthZ, setZ. destruct (i <? 0); [discriminate |]. intros E.
  apply list_lookup_insert_eq. eapply lookup_lt_Some; eauto.
Qed.

Lemma nthZ_setZ_ne {A} (l : list A) i j x : 0 <= i -> i <> j -> nthZ (setZ l i x) j = nthZ l j.
Proof.
  intros Hi Hne. unfold nthZ, setZ. destruct (Z.ltb_spec j 0); [reflexivity |]. apply list_lookup_insert_ne. lia.
Qed.

Lemma setZ_setZ {A} (l : list A) i x y : setZ (setZ l i x) i y = setZ l i y.
Proof. apply list_insert_insert_eq. Qed.

Lemma setZ_same {A} (l : list A) i x : nthZ l i = Some x -> setZ l i x = l.
Proof. unfold nthZ, setZ. destruct (i <? 0); [discriminate |]. apply list_insert_id. Qed.

Lemma setZ_length {A} (l : list A) i x : length (setZ l i x) = length l.
Proof. apply length_insert. Qed.

Lemma nthZ_total {A} (l : list A) i :
  length l = 4%nat -> 0 <= i < 4 -> is_Some (nthZ l i).
Proof.
  intros Hl Hi. unfold nthZ. destruct (Z.ltb_spec i 0); [lia |]. apply lookup_lt_is_Some. lia.
Qed.

(** ** Interfaces *)

(** The function pointer handed to the platform at initialisation. *)
Inductive rx_fn : Type := RX_NULL | RX_IPC_SHM_RX.

(** Platform: interrupt hardware and operating system services.  Functions
    that map memory or touch registers run on the memory and the platform's own
    state; [ipc_os_poll_channels] calls back into the driver. *)
Class Platform (P : Type) : Type := {
  ipc_hw_init : Z -> ipc_shm_cfg -> M (memory * P) Z;
  ipc_hw_free : Z -> M (memory * P) unit;
  ipc_hw_irq_enable : Z -> M (memory * P) unit;
  ipc_hw_irq_disable : Z -> M (memory * P) unit;
  ipc_hw_irq_notify : Z -> M (memory * P) unit;
  ipc_os_init : Z -> ipc_shm_cfg -> rx_fn -> M (memory * P) Z;
  ipc_os_free : Z -> M (memory * P) unit;
  ipc_os_get_local_shm : Z -> M (memory * P) Z;
  ipc_os_get_remote_shm : Z -> M (memory * P) Z;
  ipc_os_poll_channels : (Z -> Z -> M (world P) Z) -> Z -> M (world P) Z
}.

(** Application: the functions behind [rx_cb] (address, argument, instance,
    channel, buffer address, size). *)
Class App (P : Type) : Type := {
  managed_rx_cb : Z -> Z -> Z -> Z -> Z -> Z -> M (world P) unit;
  unmanaged_rx_cb : Z -> Z -> Z -> Z -> Z -> M (world P) unit
}.

(** What the driver relies on from a platform: for an instance that is live
    (which depends on the platform's state and on what is mapped), the two base addresses are fixed, and interrupt control neither fails nor
    touches the shared memory nor the bases. *)
Class PlatformLaws (P : Type) `{Platform P} : Type := {
  plat_live : Z -> list (Z * Z) -> P -> Prop;
  local_base : Z -> P -> Z;
  remote_base : Z -> P -> Z;
  same_bases (pl pl' : P) : Prop :=
    forall i, local_base i pl' = local_base i pl /\ remote_base i pl' = remote_base i pl;
  get_local_law i m pl :
    plat_live i (mem_regions m) pl -> ipc_os_get_local_shm i (m, pl) = Ret (local_base i pl) (m, pl);
  get_remote_law i m pl :
    plat_live i (mem_regions m) pl -> ipc_os_get_remote_shm i (m, pl) = Ret (remote_base i pl) (m, pl);
  irq_enable_law i m pl :
    plat_live i (mem_regions m) pl -> exists pl', ipc_hw_irq_enable i (m, pl) = Ret tt (m, pl') /\
      plat_live i (mem_regions m) pl' /\ same_bases pl pl';
  irq_disable_law i m pl :
    plat_live i (mem_regions m) pl -> exists pl', ipc_hw_irq_disable i (m, pl) = Ret tt (m, pl') /\
      plat_live i (mem_regions m) pl' /\ same_bases pl pl';
  irq_notify_law i m pl :
    plat_live i (mem_regions m) pl -> exists pl', ipc_hw_irq_notify i (m, pl) = Ret tt (m, pl') /\
      plat_live i (mem_regions m) pl' /\ same_bases pl pl'
}.
