(* ===== verification/Shm.v ===== *)
(** * The driver core (src/ipc-shm.c)

    One definition per function of the file, over an arbitrary [Platform] and
    [App].  Log messages are left out.  Integer arithmetic keeps the C widths;
    [uintptr_t] is 64 bits. *)

From S2P Require Import Prelude Memory Types Queue World.

Definition IPC_SHM_STATE_READY : Z := 0x3252455646435049.
Definition IPC_SHM_STATE_CLEAR : Z := 0.
Definition IPC_SHM_UCHAN_INIT_IN_PROGRESS : Z := 0x54494E49.
Definition IPC_UCHAN_INIT_DONE : Z := 0x55435049.
Definition IPC_BUFFER_FROM_LOCAL : Z := 0.
Definition IPC_BUFFER_FROM_REMOTE : Z := 1.
(** sizeof(struct ipc_shm_global) *)
Definition SIZEOF_GLOBAL : Z := 8.

Inductive ipc_shm_instance_state : Type :=
| IPC_SHM_INSTANCE_USED
| IPC_SHM_INSTANCE_FREE
| IPC_SHM_INSTANCE_ERROR.

#[export] Instance instance_state_eq_dec : EqDecision ipc_shm_instance_state.
Proof. solve_decision. Defined.

(** struct ipc_shm_pool_addr *)
Record ipc_shm_pool_addr : Type := PoolAddr {
  local_pool_shm : Z;
  remote_pool_shm : Z
}.

Section Shm.
Context {P : Type} `{PL : Platform P} `{AP : App P}.

(** ** Private data *)

Definition get_priv (instance : Z) : M (world P) ipc_shm_priv := fun w =>
  match nthZ (w_priv w) instance with
  | Some p => Ret p w
  | None => Fault
  end.

Definition set_priv (instance : Z) (p : ipc_shm_priv) : M (world P) unit := fun w =>
  match nthZ (w_priv w) instance with
  | Some _ => Ret tt (set_priv_data (setZ (w_priv w) instance p) w)
  | None => Fault
  end.

Definition set_global (instance g : Z) : M (world P) unit :=
  let* p := get_priv instance in
  set_priv instance (Priv (p_shm_size p) (p_num_channels p) (p_channels p) g).

(** get channel without validation *)
Definition get_channel_priv (instance chan_id : Z) : M (world P) ipc_shm_channel :=
  let* p := get_priv instance in
  copt (nthZ (p_channels p) chan_id).

Definition set_channel_priv (instance chan_id : Z) (c : ipc_shm_channel) : M (world P) unit :=
  let* p := get_priv instance in
  let* _ := copt (nthZ (p_channels p) chan_id) in
  set_priv instance
    (Priv (p_shm_size p) (p_num_channels p) (setZ (p_channels p) chan_id c) (p_global p)).

(** get channel with validation; [None] is a null pointer *)
Definition get_channel (instance chan_id : Z) : M (world P) (option ipc_shm_channel) :=
  let* p := get_priv instance in
  if p_num_channels p <=? chan_id then cret None else
  let* c := get_channel_priv instance chan_id in
  cret (Some c).

Definition get_managed_chan (instance chan_id : Z) : M (world P) (option ipc_managed_channel) :=
  let* chan := get_channel instance chan_id in
  match chan with
  | None => cret None
  | Some c =>
      match ch_type c with
      | IPC_SHM_MANAGED => cret (Some (ch_mng c))
      | _ => cret None
      end
  end.

Definition get_unmanaged_chan (instance chan_id : Z) :
    M (world P) (option ipc_unmanaged_channel) :=
  let* chan := get_channel instance chan_id in
  match chan with
  | None => cret None
  | Some c =>
      match ch_type c with
      | IPC_SHM_UNMANAGED => cret (Some (ch_umng c))
      | _ => cret None
      end
  end.

(** Assignments through a pointer into a channel. *)
Definition upd_mchan (instance chan_id : Z)
    (f : ipc_managed_channel -> ipc_managed_channel) : M (world P) unit :=
  let* c := get_channel_priv instance chan_id in
  set_channel_priv instance chan_id (set_mng c (f (ch_mng c))).

Definition upd_uchan (instance chan_id : Z)
    (f : ipc_unmanaged_channel -> ipc_unmanaged_channel) : M (world P) unit :=
  let* c := get_channel_priv instance chan_id in
  set_channel_priv instance chan_id (set_umng c (f (ch_umng c))).

Definition get_pool (instance chan_id pool_id : Z) : M (world P) ipc_shm_pool :=
  let* c := get_channel_priv instance chan_id in
  copt (nthZ (pools (ch_mng c)) pool_id).

Definition set_pool (instance chan_id pool_id : Z) (p : ipc_shm_pool) : M (world P) unit :=
  let* _ := get_pool instance chan_id pool_id in
  upd_mchan instance chan_id (fun m =>
    MChan (bd_queue m) (num_pools m) (setZ (pools m) pool_id p) (m_rx_cb m) (m_cb_arg m)).

Definition set_bd_queue (instance chan_id : Z) (q : ipc_queue) : M (world P) unit :=
  upd_mchan instance chan_id (fun m => MChan q (num_pools m) (pools m) (m_rx_cb m) (m_cb_arg m)).

(** ** Integrity checks *)

Definition umem_get (off a : Z) : M (world P) Z := on_mem (read_uint 4 (a + off)).
Definition umem_set (off a v : Z) : M (world P) unit := on_mem (write_uint 4 (a + off) v).

Definition ipc_check_uchan_integrity (u : ipc_unmanaged_channel) : M (world P) Z :=
  let* s := umem_get UMEM_SENTINEL (local_mem u) in
  if negb (s =? IPC_UCHAN_INIT_DONE) then cret (- EINVAL) else
  let* s := umem_get UMEM_SENTINEL (remote_mem u) in
  if s =? IPC_UCHAN_INIT_DONE then cret 0 else cret (- EINVAL).

Definition ipc_check_uchan_local_integrity (u : ipc_unmanaged_channel) : M (world P) Z :=
  let* s := umem_get UMEM_SENTINEL (local_mem u) in
  if s =? IPC_UCHAN_INIT_DONE then cret 0 else cret (- EINVAL).

Definition ipc_check_mchan_integrity (m : ipc_managed_channel) : M (world P) Z :=
  let* e := on_mem (ipc_queue_check_integrity (bd_queue m)) in
  if 0 =? e then
    let* r := cfor (Z.to_nat (num_pools m)) 0 (fun pool_id =>
      let* pool := copt (nthZ (pools m) pool_id) in
      let* e := on_mem (ipc_queue_check_integrity (pool_bd_queue pool)) in
      if negb (0 =? e) then cret (inr (- EINVAL)) else cret (inl tt)) in
    match r with
    | inl _ => cret 0
    | inr e => cret e
    end
  else cret (- EINVAL).

(** ** Reception *)

(** Calls through the receive callback pointers. *)
Definition call_managed_cb (cb arg instance chan_id buf size : Z) : M (world P) unit :=
  if cb =? NULL then cfault else managed_rx_cb cb arg instance chan_id buf size.
Definition call_unmanaged_cb (cb arg instance chan_id mem : Z) : M (world P) unit :=
  if cb =? NULL then cfault else unmanaged_rx_cb cb arg instance chan_id mem.

(** One iteration of the loop on received descriptors: [false] when the queue
    gave no descriptor.  The pool index comes from the descriptor. *)
Definition managed_rx_one (instance chan_id : Z) : M (world P) bool :=
  let* chan := get_channel_priv instance chan_id in
  let mchan := ch_mng chan in
  let* r := on_mem (ipc_queue_pop (Some (bd_queue mchan)) true) in
  if negb (r.1 =? 0) then cret false else
  let bd := bd_decode (default [] r.2) in
  let* pool := copt (nthZ (pools mchan) (bd_pool_id bd)) in
  let buf_addr := u64 (remote_pool_addr pool + u32 (bd_buf_id bd * buf_size pool)) in
  let* remote := on_plat (ipc_os_get_remote_shm instance) in
  let* p := get_priv instance in
  (if (remote <=? buf_addr)
      && (u64 (buf_addr + buf_size pool) <=? u64 (remote + p_shm_size p)) then
     call_managed_cb (m_rx_cb mchan) (m_cb_arg mchan) instance (ch_id chan)
       buf_addr (bd_data_size bd)
   else cret tt) ;;;
  cret true.

Fixpoint managed_rx_loop (fuel : nat) (instance chan_id budget work : Z) : M (world P) Z :=
  if work <? budget then
    match fuel with
    | O => cfault
    | S k =>
        let* more := managed_rx_one instance chan_id in
        if more then managed_rx_loop k instance chan_id budget (work + 1) else cret work
    end
  else cret work.

(** Every iteration adds one to the work done, so [budget] rounds are enough. *)
Definition ipc_channel_rx (instance chan_id budget : Z) : M (world P) Z :=
  let* chan := get_channel_priv instance chan_id in
  match ch_type chan with
  | IPC_SHM_UNMANAGED =>
      let uchan := ch_umng chan in
      let* ok := ipc_check_uchan_integrity uchan in
      if 0 =? ok then
        let* remote_tx_count := umem_get UMEM_TX_COUNT (remote_mem uchan) in
        let* seen := umem_get UMEM_REMOTE_TX_COUNT (local_mem uchan) in
        if negb (remote_tx_count =? seen) then
          umem_set UMEM_REMOTE_TX_COUNT (local_mem uchan) remote_tx_count ;;;
          call_unmanaged_cb (u_rx_cb uchan) (u_cb_arg uchan) instance (ch_id chan)
            (remote_mem uchan + UMEM_MEM) ;;;
          cret budget
        else cret 0
      else cret 0
  | _ => managed_rx_loop (Z.to_nat budget) instance chan_id budget 0
  end.

Definition global_state (a : Z) : M (world P) Z := on_mem (read_uint 8 a).
Definition set_global_state (a v : Z) : M (world P) unit := on_mem (write_uint 8 a v).

Definition ipc_instance_is_free (instance : Z) : M (world P) ipc_shm_instance_state :=
  if IPC_SHM_MAX_INSTANCES <=? instance then cret IPC_SHM_INSTANCE_ERROR else
  let* p := get_priv instance in
  if p_global p =? NULL then cret IPC_SHM_INSTANCE_FREE else
  let* s := global_state (p_global p) in
  if s =? IPC_SHM_STATE_CLEAR then cret IPC_SHM_INSTANCE_FREE
  else cret IPC_SHM_INSTANCE_USED.

(** One pass over the channels: work done so far, whether one used its budget. *)
Fixpoint rx_channels (n : nat) (instance chan_id chan_budget work : Z) (more : bool) :
    M (world P) (Z * bool) :=
  match n with
  | O => cret (work, more)
  | S k =>
      let* chan_work := ipc_channel_rx instance chan_id chan_budget in
      rx_channels k instance (chan_id + 1) chan_budget (u32 (work + chan_work))
        (more || (chan_work =? chan_budget))
  end.

Fixpoint rx_rounds (fuel : nat) (instance num_chans budget work : Z) (more : bool) :
    M (world P) Z :=
  if (work <? u32 budget) && more then
    match fuel with
    | O => cfault
    | S k =>
        if num_chans =? 0 then cfault else
        let share := u32 (budget - work) / num_chans in
        let chan_budget := if share =? 0 then 1 else share in
        let* r := rx_channels (Z.to_nat num_chans) instance 0 chan_budget work false in
        rx_rounds k instance num_chans budget r.1 r.2
    end
  else cret work.

(** A round that leaves [more_work] set has done some work: one round per unit
    of budget, and one to notice the end, are enough. *)
Definition ipc_shm_rx (instance budget : Z) : M (world P) Z :=
  let* p := get_priv instance in
  let num_chans := p_num_channels p in
  let* st := ipc_instance_is_free instance in
  if decide (st = IPC_SHM_INSTANCE_USED) then
    rx_rounds (S (Z.to_nat (u32 budget))) instance num_chans budget 0 true
  else cret 0.

(** ** Initialisation of channels *)

(** populate bd_queue with free BDs from remote pool *)
Fixpoint populate_bds (n : nat) (q : ipc_queue) (pool_id buf_id : Z) : M (world P) Z :=
  match n with
  | O => cret 0
  | S k =>
      let* err := on_mem (ipc_queue_push (Some q) (Some (bd_encode (BD pool_id buf_id 0)))) in
      if negb (err =? 0) then cret err else populate_bds k q pool_id (buf_id + 1)
  end.

Definition ipc_buf_pool_init (instance chan_id pool_id : Z) (mng_pool : ipc_shm_pool_addr)
    (cfg : ipc_shm_pool_cfg) : M (world P) Z :=
  let* chan := get_managed_chan instance chan_id in
  let* chan := copt chan in
  let* pool := copt (nthZ (pools chan) pool_id) in
  if IPC_SHM_MAX_BUFS_PER_POOL <? pc_num_bufs cfg then cret (- EINVAL) else
  let pool1 := Pool (pc_num_bufs cfg) (pc_buf_size cfg) (shm_size pool)
                 (local_pool_addr pool) (remote_pool_addr pool) (pool_bd_queue pool) in
  let queue_data := QueueData (u8 SIZEOF_BD) (u16 (pc_num_bufs cfg)) IPC_SHM_POOL_QUEUE
                      (local_pool_shm mng_pool) (remote_pool_shm mng_pool) in
  set_pool instance chan_id pool_id pool1 ;;;
  let* r := on_mem (ipc_queue_init (Some (pool_bd_queue pool1)) queue_data) in
  let q := default (pool_bd_queue pool1) r.2 in
  set_pool instance chan_id pool_id
    (Pool (num_bufs pool1) (buf_size pool1) (shm_size pool1)
       (local_pool_addr pool1) (remote_pool_addr pool1) q) ;;;
  if negb (r.1 =? 0) then cret r.1 else
  let queue_mem_size := ipc_queue_mem_size q in
  let psize := u32 (queue_mem_size + u32 (pc_buf_size cfg * pc_num_bufs cfg)) in
  set_pool instance chan_id pool_id
    (Pool (num_bufs pool1) (buf_size pool1) psize
       (u64 (local_pool_shm mng_pool + queue_mem_size))
       (u64 (remote_pool_shm mng_pool + queue_mem_size)) q) ;;;
  let* local := on_plat (ipc_os_get_local_shm instance) in
  let* p := get_priv instance in
  if u64 (local + p_shm_size p) <? u64 (local_pool_shm mng_pool + psize) then cret (- ENOMEM) else
  let* err := populate_bds (Z.to_nat (num_bufs pool1)) q (i16 pool_id) 0 in
  if negb (err =? 0) then cret err else
  on_mem (set_ring_sentinel (push_ring q) IPC_QUEUE_INIT_DONE) ;;;
  cret 0.

(** Sum over the pools of the configuration: 0 when they are not sorted by
    buffer size or hold too many buffers. *)
Fixpoint total_bufs_loop (n : nat) (ps : list ipc_shm_pool_cfg) (prev total : Z) : M (world P) Z :=
  match n with
  | O => cret total
  | S k =>
      let* pool_cfg := copt (head ps) in
      if pc_buf_size pool_cfg <? prev then cret 0 else
      let total := u32 (total + pc_num_bufs pool_cfg) in
      if IPC_SHM_MAX_BUFS_PER_CHANNEL <? total then cret 0
      else total_bufs_loop k (tail ps) (pc_buf_size pool_cfg) total
  end.

Definition ipc_get_total_buf_per_chan (instance chan_id : Z) (cfg : ipc_shm_managed_cfg) :
    M (world P) Z :=
  upd_mchan instance chan_id (fun m =>
    MChan (bd_queue m) (mc_num_pools cfg) (pools m) (mc_rx_cb cfg) (mc_cb_arg cfg)) ;;;
  total_bufs_loop (Z.to_nat (mc_num_pools cfg)) (default [] (mc_pools cfg)) 0 0.

(** init&map buffer pools, one after the other *)
Fixpoint init_pools (n : nat) (instance chan_id pool_id : Z) (addr : ipc_shm_pool_addr)
    (ps : list ipc_shm_pool_cfg) : M (world P) Z :=
  match n with
  | O => cret 0
  | S k =>
      let* pcfg := copt (head ps) in
      let* err := ipc_buf_pool_init instance chan_id pool_id addr pcfg in
      if negb (err =? 0) then cret err else
      let* pool := get_pool instance chan_id pool_id in
      init_pools k instance chan_id (pool_id + 1)
        (PoolAddr (u64 (local_pool_shm addr + shm_size pool))
                  (u64 (remote_pool_shm addr + shm_size pool))) (tail ps)
  end.

Definition managed_channel_init (instance chan_id local_shm remote_shm : Z)
    (cfg : ipc_shm_managed_cfg) : M (world P) Z :=
  if mc_rx_cb cfg =? NULL then cret (- EINVAL) else
  match mc_pools cfg with
  | None => cret (- EINVAL)
  | Some ps =>
    if IPC_SHM_MAX_POOLS <? mc_num_pools cfg then cret (- EINVAL) else
    let* total_bufs := ipc_get_total_buf_per_chan instance chan_id cfg in
    if total_bufs =? 0 then cret (- EINVAL) else
    let queue_data := QueueData (u8 SIZEOF_BD) (u16 total_bufs) IPC_SHM_CHANNEL_QUEUE
                        local_shm remote_shm in
    let* chan := get_managed_chan instance chan_id in
    let* chan := copt chan in
    let* r := on_mem (ipc_queue_init (Some (bd_queue chan)) queue_data) in
    let q := default (bd_queue chan) r.2 in
    set_bd_queue instance chan_id q ;;;
    if negb (r.1 =? 0) then cret r.1 else
    on_mem (set_ring_sentinel (push_ring q) IPC_QUEUE_INIT_DONE) ;;;
    let queue_mem_size := ipc_queue_mem_size q in
    let addr := PoolAddr (u64 (local_shm + queue_mem_size)) (u64 (remote_shm + queue_mem_size)) in
    let* local := on_plat (ipc_os_get_local_shm instance) in
    let* p := get_priv instance in
    if u64 (local + p_shm_size p) <? local_pool_shm addr then cret (- ENOMEM) else
    init_pools (Z.to_nat (num_pools chan)) instance chan_id 0 addr ps
  end.

Definition unmanaged_channel_init (instance chan_id local_shm remote_shm : Z)
    (cfg : ipc_shm_unmanaged_cfg) : M (world P) Z :=
  let* chan := get_unmanaged_chan instance chan_id in
  if (uc_rx_cb cfg =? NULL) || (IPC_SHM_MAX_UMNG_SIZE <? uc_size cfg) then cret (- EINVAL) else
  let* _ := copt chan in
  upd_uchan instance chan_id (fun _ =>
    UChan (uc_size cfg) local_shm remote_shm (uc_rx_cb cfg) (uc_cb_arg cfg)) ;;;
  let* s := umem_get UMEM_SENTINEL remote_shm in
  if s =? IPC_SHM_UCHAN_INIT_IN_PROGRESS then cret (- EAGAIN) else
  umem_set UMEM_SENTINEL local_shm IPC_SHM_UCHAN_INIT_IN_PROGRESS ;;;
  let* s := umem_get UMEM_SENTINEL remote_shm in
  (if s =? IPC_UCHAN_INIT_DONE then
     let* c := umem_get UMEM_REMOTE_TX_COUNT remote_shm in
     umem_set UMEM_TX_COUNT local_shm c ;;;
     let* c := umem_get UMEM_TX_COUNT remote_shm in
     umem_set UMEM_REMOTE_TX_COUNT local_shm c
   else
     umem_set UMEM_TX_COUNT local_shm 0 ;;;
     umem_set UMEM_REMOTE_TX_COUNT local_shm 0) ;;;
  umem_set UMEM_SENTINEL local_shm IPC_UCHAN_INIT_DONE ;;;
  cret 0.

Definition ipc_shm_init_channels (instance chan_id local_shm remote_shm : Z)
    (cfg : option ipc_shm_channel_cfg) : M (world P) Z :=
  let* chan := get_channel_priv instance chan_id in
  match cfg with
  | None => cret (- EINVAL)
  | Some cfg =>
      set_channel_priv instance chan_id
        (Chan (u8 chan_id) (cc_type cfg) (ch_mng chan) (ch_umng chan)) ;;;
      match cfg with
      | ChannelManaged c => managed_channel_init instance chan_id local_shm remote_shm c
      | ChannelUnmanaged c => unmanaged_channel_init instance chan_id local_shm remote_shm c
      | ChannelUnknown _ => cret (- EINVAL)
      end
  end.

(** ** Release of channels *)

Definition sentinel_live (s : Z) : bool :=
  (s =? IPC_QUEUE_INIT_DONE) || (s =? IPC_QUEUE_INIT_IN_PROGRESS).

Definition ipc_shm_free_managed_channel (instance chan_id : Z) : M (world P) unit :=
  let* c := get_channel_priv instance chan_id in
  let mchan := ch_mng c in
  let* s := on_mem (ring_sentinel (push_ring (bd_queue mchan))) in
  if sentinel_live s then
    let* q := on_mem (ipc_queue_free (Some (bd_queue mchan))) in
    set_bd_queue instance chan_id (default (bd_queue mchan) q) ;;;
    let* _ := cfor (R := unit) (Z.to_nat (num_pools mchan)) 0 (fun pool_id =>
      let* pool := get_pool instance chan_id pool_id in
      let pq := pool_bd_queue pool in
      if push_ring pq =? NULL then cret (inl tt) else
      let* s := on_mem (ring_sentinel (push_ring pq)) in
      if sentinel_live s then
        let* pq' := on_mem (ipc_queue_free (Some pq)) in
        set_pool instance chan_id pool_id
          (Pool (num_bufs pool) (buf_size pool) (shm_size pool) (local_pool_addr pool)
             (remote_pool_addr pool) (default pq pq')) ;;;
        cret (inl tt)
      else cret (inl tt)) in
    cret tt
  else cret tt.

Definition ipc_shm_free_channel (instance chan_id : Z) (t : ipc_shm_channel_type) :
    M (world P) unit :=
  match t with
  | IPC_SHM_MANAGED =>
      let* c := get_channel_priv instance chan_id in
      if negb (push_ring (bd_queue (ch_mng c)) =? NULL)
      then ipc_shm_free_managed_channel instance chan_id
      else cret tt
  | IPC_SHM_UNMANAGED =>
      let* c := get_channel_priv instance chan_id in
      let u := ch_umng c in
      if negb (local_mem u =? NULL) then
        umem_set UMEM_SENTINEL (local_mem u) 0 ;;;
        umem_set UMEM_TX_COUNT (local_mem u) 0 ;;;
        umem_set UMEM_REMOTE_TX_COUNT (local_mem u) 0 ;;;
        upd_uchan instance chan_id (fun u =>
          UChan (u_size u) NULL (remote_mem u) (u_rx_cb u) (u_cb_arg u))
      else cret tt
  | _ => cret tt
  end.

(** Get channel local mapped memory size *)
Definition get_chan_memmap_size (instance chan_id : Z) : M (world P) Z :=
  let* chan := get_channel_priv instance chan_id in
  match ch_type chan with
  | IPC_SHM_UNMANAGED => cret (u32 (UMEM_SIZE + u_size (ch_umng chan)))
  | _ =>
      let* mchan := get_managed_chan instance chan_id in
      let* mchan := copt mchan in
      let* ps := copt (if Z.of_nat (length (pools mchan)) <? num_pools mchan then None
                       else Some (take (Z.to_nat (num_pools mchan)) (pools mchan))) in
      cret (fold_left (fun size pool => u32 (size + shm_size pool)) ps
              (ipc_queue_mem_size (bd_queue mchan)))
  end.

(** ** Instances *)

(** Release the channels [chan_id], [chan_id + 1], ... with the given types. *)
Fixpoint free_channels (n : nat) (instance chan_id : Z)
    (type_of : Z -> M (world P) ipc_shm_channel_type) : M (world P) unit :=
  match n with
  | O => cret tt
  | S k =>
      let* t := type_of chan_id in
      ipc_shm_free_channel instance chan_id t ;;;
      free_channels k instance (chan_id + 1) type_of
  end.

(** &cfg->channels[chan_id] *)
Definition channel_cfg_ptr (chs : option (list ipc_shm_channel_cfg)) (chan_id : Z) :
    M (world P) (option ipc_shm_channel_cfg) :=
  match chs with
  | None => if chan_id =? 0 then cret None else cfault
  | Some l => let* c := copt (nthZ l chan_id) in cret (Some c)
  end.

Fixpoint init_channels (n : nat) (instance chan_id local_chan_shm remote_chan_shm : Z)
    (chs : option (list ipc_shm_channel_cfg)) : M (world P) Z :=
  match n with
  | O => cret 0
  | S k =>
      let* c := channel_cfg_ptr chs chan_id in
      let* err := ipc_shm_init_channels instance chan_id local_chan_shm remote_chan_shm c in
      if negb (err =? 0) then
        set_global instance NULL ;;;
        let* p := get_priv instance in
        (match chs with
         | None => cret tt
         | Some l => free_channels (Z.to_nat (p_num_channels p)) instance 0
                       (fun i => let* c := copt (nthZ l i) in cret (cc_type c))
         end) ;;;
        on_plat (ipc_os_free instance) ;;;
        on_plat (ipc_hw_free instance) ;;;
        cret err
      else
        let* chan_size := get_chan_memmap_size instance chan_id in
        init_channels k instance (chan_id + 1) (u64 (local_chan_shm + chan_size))
          (u64 (remote_chan_shm + chan_size)) chs
  end.

Definition ipc_shm_init_instance (instance : Z) (cfg : option ipc_shm_cfg) : M (world P) Z :=
  let chan_offset := SIZEOF_GLOBAL in
  let* st := ipc_instance_is_free instance in
  if decide (st = IPC_SHM_INSTANCE_USED) then cret (- EINVAL) else
  match cfg with
  | None => cret (- EINVAL)
  | Some cfg =>
    if (cfg_local_shm_addr cfg =? NULL) || (cfg_remote_shm_addr cfg =? NULL)
    then cret (- EINVAL) else
    if (cfg_num_channels cfg <? 1) || (IPC_SHM_MAX_CHANNELS <? cfg_num_channels cfg)
    then cret (- EINVAL) else
    (* save api params *)
    let* p := get_priv instance in
    set_priv instance
      (Priv (cfg_shm_size cfg) (cfg_num_channels cfg) (p_channels p) (p_global p)) ;;;
    let* err := on_plat (ipc_hw_init instance cfg) in
    if negb (i8 err =? 0) then cret (i8 err) else
    let* err := on_plat (ipc_os_init instance cfg RX_IPC_SHM_RX) in
    if negb (i8 err =? 0) then on_plat (ipc_hw_free instance) ;;; cret (i8 err) else
    (* global data stored at beginning of local shared memory *)
    let* local_shm := on_plat (ipc_os_get_local_shm instance) in
    set_global instance local_shm ;;;
    set_global_state local_shm IPC_SHM_STATE_CLEAR ;;;
    let local_chan_shm := u64 (local_shm + chan_offset) in
    let* remote_shm := on_plat (ipc_os_get_remote_shm instance) in
    let remote_chan_shm := u64 (remote_shm + chan_offset) in
    let* err := init_channels (Z.to_nat (cfg_num_channels cfg)) instance 0
                  local_chan_shm remote_chan_shm (cfg_channels cfg) in
    if negb (err =? 0) then cret err else
    (* enable interrupt notifications *)
    on_plat (ipc_hw_irq_enable instance) ;;;
    let* p := get_priv instance in
    set_global_state (p_global p) IPC_SHM_STATE_READY ;;;
    cret 0
  end.

Definition ipc_shm_free_instance (instance : Z) : M (world P) unit :=
  let* st := ipc_instance_is_free instance in
  if decide (st = IPC_SHM_INSTANCE_USED) then
    (* reset state *)
    let* p := get_priv instance in
    set_global_state (p_global p) IPC_SHM_STATE_CLEAR ;;;
    set_global instance NULL ;;;
    (* disable hardirq *)
    on_plat (ipc_hw_irq_disable instance) ;;;
    let* p := get_priv instance in
    free_channels (Z.to_nat (p_num_channels p)) instance 0
      (fun i => let* c := get_channel_priv instance i in cret (ch_type c)) ;;;
    on_plat (ipc_os_free instance) ;;;
    on_plat (ipc_hw_free instance)
  else cret tt.

Definition ipc_shm_free : M (world P) unit :=
  let* _ := cfor (R := unit) (Z.to_nat IPC_SHM_MAX_INSTANCES) 0 (fun instance_id =>
    let* st := ipc_instance_is_free instance_id in
    if decide (st = IPC_SHM_INSTANCE_USED) then
      ipc_shm_free_instance instance_id ;;; cret (inl tt)
    else cret (inl tt)) in
  cret tt.

Definition ipc_shm_init (cfg : option ipc_shm_instances_cfg) : M (world P) Z :=
  match cfg with
  | None => cret (- EINVAL)
  | Some cfg =>
    if (IPC_SHM_MAX_INSTANCES <? ic_num_instances cfg) || (ic_num_instances cfg =? 0)
    then cret (- EINVAL) else
    let* r := cfor (Z.to_nat (ic_num_instances cfg)) 0 (fun instance_id =>
      let* st := ipc_instance_is_free instance_id in
      (* Skip initialization of initialized instance *)
      if decide (st = IPC_SHM_INSTANCE_USED) then cret (inl tt) else
      let* c := copt (nthZ (ic_shm_cfg cfg) instance_id) in
      let* err := ipc_shm_init_instance instance_id (Some c) in
      if negb (err =? 0) then cret (inr err) else cret (inl tt)) in
    match r with
    | inl _ => cret 0
    | inr err => cret err
    end
  end.

(** ** Data path *)

Definition ipc_shm_is_remote_ready (instance : Z) : M (world P) Z :=
  let* st := ipc_instance_is_free instance in
  if negb (bool_decide (st = IPC_SHM_INSTANCE_USED)) then cret (- EINVAL) else
  let* remote_global := on_plat (ipc_os_get_remote_shm instance) in
  let* s := global_state remote_global in
  if negb (s =? IPC_SHM_STATE_READY) then cret (- EAGAIN) else cret 0.

(** find first non-empty pool that accommodates the requested size *)
Fixpoint acquire_from_pools (ps : list ipc_shm_pool) (mem_size : Z) :
    M (world P) (option (ipc_shm_pool * ipc_shm_bd)) :=
  match ps with
  | [] => cret None
  | pool :: ps =>
      if buf_size pool <? mem_size then acquire_from_pools ps mem_size else
      let* r := on_mem (ipc_queue_pop (Some (pool_bd_queue pool)) true) in
      if r.1 =? 0 then cret (Some (pool, bd_decode (default [] r.2)))
      else acquire_from_pools ps mem_size
  end.

(** The result is the address of the buffer, [NULL] when there is none. *)
Definition ipc_shm_acquire_buf (instance chan_id mem_size : Z) : M (world P) Z :=
  let* ready := ipc_shm_is_remote_ready instance in
  if negb (ready =? 0) then cret NULL else
  let* chan := get_managed_chan instance chan_id in
  match chan with
  | None => cret NULL
  | Some chan =>
    if mem_size =? 0 then cret NULL else
    let* ok := ipc_check_mchan_integrity chan in
    if negb (ok =? 0) then cret NULL else
    let* ps := copt (if Z.of_nat (length (pools chan)) <? num_pools chan then None
                     else Some (take (Z.to_nat (num_pools chan)) (pools chan))) in
    let* r := acquire_from_pools ps mem_size in
    match r with
    | None => cret NULL
    | Some (pool, bd) =>
      let buf_addr := u64 (local_pool_addr pool + u32 (bd_buf_id bd * buf_size pool)) in
      let* local := on_plat (ipc_os_get_local_shm instance) in
      let* p := get_priv instance in
      if (buf_addr <? local)
         || (u64 (local + p_shm_size p) <? u64 (buf_addr + buf_size pool))
      then cret NULL else cret buf_addr
    end
  end.

(** Index of the pool that owns the buffer, -EINVAL when there is none. *)
Fixpoint find_pool_for_buf (n : nat) (ps : list ipc_shm_pool) (pool_id buf remote : Z) :
    M (world P) Z :=
  match n with
  | O => cret (- EINVAL)
  | S k =>
      let* pool := copt (head ps) in
      let addr := if remote =? IPC_BUFFER_FROM_REMOTE then remote_pool_addr pool
                  else local_pool_addr pool in
      let pool_size := u32 (num_bufs pool * buf_size pool) in
      if (addr <=? buf) && (buf <? u64 (addr + pool_size)) then cret (i16 pool_id)
      else find_pool_for_buf k (tail ps) (pool_id + 1) buf remote
  end.

Definition udiv (a b : Z) : M (world P) Z :=
  if b =? 0 then cfault else cret (a / b).

Definition ipc_shm_release_buf (instance chan_id buf : Z) : M (world P) Z :=
  let* st := ipc_instance_is_free instance in
  if negb (bool_decide (st = IPC_SHM_INSTANCE_USED)) then cret (- EINVAL) else
  let* chan := get_managed_chan instance chan_id in
  match chan with
  | None => cret (- EINVAL)
  | Some chan =>
    if buf =? NULL then cret (- EINVAL) else
    let* ok := ipc_check_mchan_integrity chan in
    if negb (ok =? 0) then cret (- EINVAL) else
    let* pool_id := find_pool_for_buf (Z.to_nat (num_pools chan)) (pools chan) 0 buf
                      IPC_BUFFER_FROM_REMOTE in
    if pool_id =? - EINVAL then cret (- EINVAL) else
    let* pool := copt (nthZ (pools chan) pool_id) in
    let* buf_id := udiv (u64 (buf - remote_pool_addr pool)) (buf_size pool) in
    on_mem (ipc_queue_push (Some (pool_bd_queue pool))
              (Some (bd_encode (BD pool_id (u16 buf_id) 0))))
  end.

Definition ipc_shm_tx (instance chan_id buf size : Z) : M (world P) Z :=
  let* ready := ipc_shm_is_remote_ready instance in
  if negb (ready =? 0) then cret (- EINVAL) else
  let* chan := get_managed_chan instance (u8 chan_id) in
  match chan with
  | None => cret (- EINVAL)
  | Some chan =>
    if (buf =? NULL) || (size =? 0) then cret (- EINVAL) else
    let* ok := ipc_check_mchan_integrity chan in
    if negb (ok =? 0) then cret (- EINVAL) else
    let* pool_id := find_pool_for_buf (Z.to_nat (num_pools chan)) (pools chan) 0 buf
                      IPC_BUFFER_FROM_LOCAL in
    if pool_id =? - EINVAL then cret (- EINVAL) else
    let* pool := copt (nthZ (pools chan) pool_id) in
    let* buf_id := udiv (u64 (buf - local_pool_addr pool)) (buf_size pool) in
    let* err := on_mem (ipc_queue_push (Some (bd_queue chan))
                  (Some (bd_encode (BD pool_id (u16 buf_id) size)))) in
    if negb (err =? 0) then cret (i8 err) else
    (* notify remote that data is available *)
    on_plat (ipc_hw_irq_notify instance) ;;;
    cret 0
  end.

Definition ipc_shm_unmanaged_acquire (instance chan_id : Z) : M (world P) Z :=
  let* st := ipc_instance_is_free instance in
  if negb (bool_decide (st = IPC_SHM_INSTANCE_USED)) then cret NULL else
  let* chan := get_unmanaged_chan instance chan_id in
  match chan with
  | None => cret NULL
  | Some chan =>
    let* ok := ipc_check_uchan_local_integrity chan in
    if negb (ok =? 0) then cret NULL else cret (local_mem chan + UMEM_MEM)
  end.

Definition ipc_shm_unmanaged_tx (instance chan_id : Z) : M (world P) Z :=
  let* ready := ipc_shm_is_remote_ready instance in
  if negb (ready =? 0) then cret (- EINVAL) else
  let* chan := get_unmanaged_chan instance chan_id in
  match chan with
  | None => cret (- EINVAL)
  | Some chan =>
    let* ok := ipc_check_uchan_integrity chan in
    if negb (ok =? 0) then cret (- EINVAL) else
    (* bump Tx counter *)
    let* c := umem_get UMEM_TX_COUNT (local_mem chan) in
    umem_set UMEM_TX_COUNT (local_mem chan) (u32 (c + 1)) ;;;
    on_plat (ipc_hw_irq_notify instance) ;;;
    cret 0
  end.

Definition ipc_shm_poll_channels (instance : Z) : M (world P) Z :=
  let* st := ipc_instance_is_free instance in
  if negb (bool_decide (st = IPC_SHM_INSTANCE_USED)) then cret (- EINVAL) else
  let* remote_global := on_plat (ipc_os_get_remote_shm instance) in
  let* s := global_state remote_global in
  if negb (s =? IPC_SHM_STATE_READY) then cret (- EAGAIN) else
  ipc_os_poll_channels ipc_shm_rx instance.

End Shm.
