(* ===== verification/ShmSpec.v ===== *)
(** * The data path: well-formed channels and evaluation lemmas

    When is a channel ready for traffic, what the accessors of [Shm] then
    return, and the round trip of buffer descriptors through a queue. *)

From S2P Require Import Prelude Memory Types Queue QueueSpec World Shm.

(** ** Descriptors *)

Definition bd_ok (bd : ipc_shm_bd) : Prop :=
  -32768 <= bd_pool_id bd < 32768 /\ 0 <= bd_buf_id bd < 65536 /\
  0 <= bd_data_size bd < 4294967296.

Lemma bd_encode_length bd : length (bd_encode bd) = 8%nat.
Proof. reflexivity. Qed.

Lemma i16_of_u16 z : -32768 <= z < 32768 -> i16 (z mod 65536) = z.
Proof.
  intros Hz. unfold i16. change (2 ^ 15) with 32768; change (2 ^ 16) with 65536.
  rewrite Zplus_mod_idemp_l, Z.mod_small by lia. lia.
Qed.

Lemma bd_decode_encode bd : bd_ok bd -> bd_decode (bd_encode bd) = bd.
Proof.
  destruct bd as [p b s]; intros (Hp & Hb & Hs); simpl in *.
  unfold bd_decode, bd_encode. cbn [bd_pool_id bd_buf_id bd_data_size].
  assert (D : drop 4 (le_encode 2 p ++ le_encode 2 b ++ le_encode 4 s) = le_encode 4 s).
  { rewrite app_assoc. apply drop_app_length'. now rewrite length_app, !le_encode_length. }
  rewrite D, drop_app_length', !take_app_length' by now rewrite le_encode_length.
  rewrite take_ge by (rewrite le_encode_length; lia).
  rewrite !le_decode_encode.
  change (256 ^ Z.of_nat 2) with 65536. change (256 ^ Z.of_nat 4) with 4294967296.
  rewrite i16_of_u16, !Z.mod_small by assumption. reflexivity.
Qed.

Lemma bd_encode_ok bd : bytes_ok (bd_encode bd).
Proof. unfold bytes_ok, bd_encode. rewrite !Forall_app. split_and!; apply le_encode_ok. Qed.

(** ** Ready pools and channels *)

(** The queue of a pool has one slot more than buffers, and its buffers lie at
    representable addresses. *)
Record pool_wf (m : memory) (p : ipc_shm_pool) : Prop := {
  pw_queue : queue_wf m (pool_bd_queue p);
  pw_elem : elem_size (pool_bd_queue p) = SIZEOF_BD;
  pw_num : 0 < num_bufs p <= IPC_SHM_MAX_BUFS_PER_POOL;
  pw_cap : elem_num (pool_bd_queue p) = num_bufs p + 1;
  pw_size : 0 < buf_size p;
  pw_bytes : num_bufs p * buf_size p < 2 ^ 32;
  pw_local : 0 < local_pool_addr p /\ local_pool_addr p + num_bufs p * buf_size p < 2 ^ 64;
  pw_remote : 0 < remote_pool_addr p /\ remote_pool_addr p + num_bufs p * buf_size p < 2 ^ 64
}.

Definition active_pools (c : ipc_managed_channel) : list ipc_shm_pool :=
  take (Z.to_nat (num_pools c)) (pools c).

Record mchan_wf (m : memory) (c : ipc_managed_channel) : Prop := {
  mw_num : 0 < num_pools c <= IPC_SHM_MAX_POOLS;
  mw_len : length (pools c) = Z.to_nat IPC_SHM_MAX_POOLS;
  mw_queue : queue_wf m (bd_queue c);
  mw_elem : elem_size (bd_queue c) = SIZEOF_BD;
  mw_pools : Forall (pool_wf m) (active_pools c)
}.

(** Address of buffer [j] of a pool, in the local and in the remote half. *)
Definition local_buf (p : ipc_shm_pool) (j : Z) : Z := local_pool_addr p + j * buf_size p.
Definition remote_buf (p : ipc_shm_pool) (j : Z) : Z := remote_pool_addr p + j * buf_size p.

(** Pools of a half do not overlap. *)
Definition pools_apart (addr : ipc_shm_pool -> Z) (ps : list ipc_shm_pool) : Prop :=
  forall i j p q, ps !! i = Some p -> ps !! j = Some q -> i <> j ->
    disjoint_ranges (addr p) (num_bufs p * buf_size p) (addr q) (num_bufs q * buf_size q).

Section Spec.
Context {P : Type} `{PL : Platform P} `{AP : App P}.
Implicit Types (w : world P) (i ch : Z).

Definition with_mem (w : world P) (m : memory) : world P := World m (w_priv w) (w_plat w).

Lemma on_mem_Ret {A} (c : M memory A) (w : world P) a m :
  c (w_mem w) = Ret a m -> on_mem c w = Ret a (with_mem w m).
Proof. unfold on_mem, czoom; intros ->; reflexivity. Qed.

Lemma with_mem_same (w : world P) : with_mem w (w_mem w) = w.
Proof. now destruct w. Qed.

Lemma with_mem_twice (w : world P) m m' : with_mem (with_mem w m) m' = with_mem w m'.
Proof. reflexivity. Qed.

Lemma on_mem_read {A} (c : M memory A) (w : world P) a :
  c (w_mem w) = Ret a (w_mem w) -> on_mem c w = Ret a w.
Proof. intros H. rewrite (on_mem_Ret _ _ _ _ H). now rewrite with_mem_same. Qed.

Lemma on_plat_Ret {A} (c : M (memory * P) A) (w : world P) a m pl :
  c (w_mem w, w_plat w) = Ret a (m, pl) -> on_plat c w = Ret a (World m (w_priv w) pl).
Proof. unfold on_plat, czoom; intros ->; reflexivity. Qed.

(** ** Live instances *)

(** Instance [i] is initialised: its private data is there and its global
    state word is set. *)
Record used (w : world P) (i : Z) (p : ipc_shm_priv) : Prop := {
  us_range : 0 <= i < IPC_SHM_MAX_INSTANCES;
  us_priv : nthZ (w_priv w) i = Some p;
  us_global : p_global p <> NULL;
  us_mapped : mapped (w_mem w) (p_global p) 8 = true;
  us_state : uint_at 8 (w_mem w) (p_global p) <> IPC_SHM_STATE_CLEAR
}.

(** Remote end at [r]: its state word says ready. *)
Record remote_ready (w : world P) (i r : Z) : Prop := {
  rr_addr : on_plat (ipc_os_get_remote_shm i) w = Ret r w;
  rr_mapped : mapped (w_mem w) r 8 = true;
  rr_state : uint_at 8 (w_mem w) r = IPC_SHM_STATE_READY
}.

(** [c] is the managed channel [ch] of an instance. *)
Record has_managed (p : ipc_shm_priv) (ch : Z) (c : ipc_managed_channel) : Prop := {
  hm_range : 0 <= ch < p_num_channels p;
  hm_chan : exists k, nthZ (p_channels p) ch = Some k /\
              ch_type k = IPC_SHM_MANAGED /\ ch_mng k = c
}.

Lemma get_priv_eval w i p : nthZ (w_priv w) i = Some p -> get_priv i w = Ret p w.
Proof. unfold get_priv; intros ->; reflexivity. Qed.

Lemma ipc_instance_is_free_used w i p :
  used w i p -> ipc_instance_is_free i w = Ret IPC_SHM_INSTANCE_USED w.
Proof.
  intros []. unfold ipc_instance_is_free.
  replace (_ <=? i) with false by (symmetry; apply Z.leb_gt; lia).
  rewrite (cbind_Ret _ _ _ _ _ (get_priv_eval _ _ _ us_priv0)).
  apply Z.eqb_neq in us_global0 as ->.
  unfold global_state. erewrite cbind_Ret by (apply on_mem_read, read_uint_ok; exact us_mapped0).
  apply Z.eqb_neq in us_state0 as ->. reflexivity.
Qed.

Lemma ipc_shm_is_remote_ready_eval w i p r :
  used w i p -> remote_ready w i r -> ipc_shm_is_remote_ready i w = Ret 0 w.
Proof.
  intros Hu []. unfold ipc_shm_is_remote_ready.
  rewrite (cbind_Ret _ _ _ _ _ (ipc_instance_is_free_used _ _ _ Hu)).
  rewrite bool_decide_eq_true_2 by reflexivity. cbn [negb].
  rewrite (cbind_Ret _ _ _ _ _ rr_addr0). unfold global_state.
  erewrite cbind_Ret by (apply on_mem_read, read_uint_ok; exact rr_mapped0).
  rewrite rr_state0. reflexivity.
Qed.

Lemma get_channel_priv_eval w i p ch k :
  nthZ (w_priv w) i = Some p -> nthZ (p_channels p) ch = Some k ->
  get_channel_priv i ch w = Ret k w.
Proof.
  intros Hp Hk. unfold get_channel_priv.
  rewrite (cbind_Ret _ _ _ _ _ (get_priv_eval _ _ _ Hp)). now rewrite Hk.
Qed.

Lemma get_managed_chan_eval w i p ch c :
  nthZ (w_priv w) i = Some p -> has_managed p ch c ->
  get_managed_chan i ch w = Ret (Some c) w.
Proof.
  intros Hp [Hr (k & Hk & Ht & <-)]. unfold get_managed_chan, get_channel.
  rewrite cbind_assoc, (cbind_Ret _ _ _ _ _ (get_priv_eval _ _ _ Hp)).
  replace (_ <=? ch) with false by (symmetry; apply Z.leb_gt; lia).
  rewrite cbind_assoc, (cbind_Ret _ _ _ _ _ (get_channel_priv_eval _ _ _ _ _ Hp Hk)).
  rewrite cbind_cret. cbv beta iota. now rewrite Ht.
Qed.

(** ** Integrity of a ready channel *)

Lemma nthZ_nat {A} (l : list A) (i : nat) : nthZ l (Z.of_nat i) = l !! i.
Proof.
  unfold nthZ. replace (_ <? 0) with false by (symmetry; apply Z.ltb_ge; lia).
  now rewrite Nat2Z.id.
Qed.

Lemma nthZ_Some {A} (l : list A) i x :
  nthZ l i = Some x <-> 0 <= i /\ l !! Z.to_nat i = Some x.
Proof.
  unfold nthZ. destruct (Z.ltb_spec i 0); split; [discriminate | lia | auto | tauto].
Qed.

Lemma active_lookup c i (p : ipc_shm_pool) :
  0 <= i < num_pools c -> nthZ (pools c) i = Some p <-> active_pools c !! Z.to_nat i = Some p.
Proof.
  intros Hi. rewrite nthZ_Some. unfold active_pools. rewrite lookup_take_lt by lia. tauto.
Qed.

Lemma active_length m c :
  mchan_wf m c -> length (active_pools c) = Z.to_nat (num_pools c).
Proof.
  intros H. unfold active_pools. rewrite length_take, (mw_len _ _ H).
  assert (Hn := mw_num _ _ H). unfold IPC_SHM_MAX_POOLS in *. lia.
Qed.

Lemma active_is_Some m c i :
  mchan_wf m c -> 0 <= i < num_pools c -> exists p, nthZ (pools c) i = Some p /\ pool_wf m p.
Proof.
  intros H Hi. destruct (lookup_lt_is_Some_2 (active_pools c) (Z.to_nat i)) as [p Hp].
  { rewrite (active_length m) by assumption. lia. }
  exists p. rewrite active_lookup by assumption. split; [exact Hp |].
  exact (Forall_lookup_1 _ _ _ _ (mw_pools _ _ H) Hp).
Qed.

Lemma integrity_queue_eval (w : world P) q :
  queue_wf (w_mem w) q -> on_mem (ipc_queue_check_integrity q) w = Ret 0 w.
Proof.
  intros Hq. apply on_mem_read, ipc_queue_check_integrity_eval; apply Hq.
Qed.

Lemma ipc_check_mchan_integrity_eval w c :
  mchan_wf (w_mem w) c -> ipc_check_mchan_integrity c w = Ret 0 w.
Proof.
  intros H. unfold ipc_check_mchan_integrity.
  rewrite (cbind_Ret _ _ _ _ _ (integrity_queue_eval _ _ (mw_queue _ _ H))). cbn [Z.eqb].
  assert (Hn := mw_num _ _ H).
  match goal with
  | |- cbind (cfor ?n ?i ?b) _ _ = _ =>
      destruct (cfor_inv (fun _ t => t = w) b n i w) as (w' & E & ->); [reflexivity | |]
  end.
  - intros j t Hj ->. destruct (active_is_Some _ _ j H) as (p & Hp & Hw); [lia |].
    exists w; split; [| reflexivity]. rewrite Hp.
    rewrite cbind_copt, (cbind_Ret _ _ _ _ _ (integrity_queue_eval _ _ (pw_queue _ _ Hw))).
    reflexivity.
  - rewrite (cbind_Ret _ _ _ _ _ E). reflexivity.
Qed.

(** ** Owner of a buffer *)

Definition addr_of (remote : Z) (p : ipc_shm_pool) : Z :=
  if remote =? IPC_BUFFER_FROM_REMOTE then remote_pool_addr p else local_pool_addr p.

Definition pool_bytes (p : ipc_shm_pool) : Z := num_bufs p * buf_size p.

Lemma pool_wf_bytes m p : pool_wf m p -> u32 (num_bufs p * buf_size p) = pool_bytes p.
Proof.
  intros H. assert (Hn := pw_num _ _ H). assert (Hs := pw_size _ _ H).
  assert (Hb := pw_bytes _ _ H). assert (0 <= num_bufs p * buf_size p) by nia.
  unfold pool_bytes; apply u32_small; lia.
Qed.

Lemma pool_wf_addr m p remote :
  pool_wf m p -> 0 < addr_of remote p /\ addr_of remote p + pool_bytes p < 2 ^ 64 /\
  0 < pool_bytes p.
Proof.
  intros H. assert (Hn := pw_num _ _ H). assert (Hs := pw_size _ _ H).
  assert (Hl := pw_local _ _ H). assert (Hr := pw_remote _ _ H).
  assert (0 < num_bufs p * buf_size p) by nia.
  unfold addr_of, pool_bytes; case_match; lia.
Qed.

Lemma find_pool_for_buf_eval m remote buf k : forall ps id p n w,
  Forall (pool_wf m) (take n ps) -> ps !! k = Some p -> (k < n)%nat ->
  range (addr_of remote p) (pool_bytes p) buf ->
  (forall (i : nat) q, (i < k)%nat -> ps !! i = Some q ->
     ~ range (addr_of remote q) (pool_bytes q) buf) ->
  find_pool_for_buf n ps id buf remote w = Ret (i16 (id + Z.of_nat k)) w.
Proof.
  induction k as [|k IH]; intros [|q ps] id p [|n] w Hwf Hk Hn Hin Hout; try discriminate; try lia;
    cbn [find_pool_for_buf head tail]; rewrite cbind_copt; cbv beta zeta;
    change (if remote =? IPC_BUFFER_FROM_REMOTE then remote_pool_addr q else local_pool_addr q)
      with (addr_of remote q);
    inversion Hwf as [|? ? Hq Hps]; subst;
    rewrite (pool_wf_bytes _ _ Hq);
    destruct (pool_wf_addr _ _ remote Hq) as (A1 & A2 & A3);
    rewrite u64_small by lia.
  - simpl in Hk; inversion Hk; subst. unfold range in Hin.
    replace (_ && _) with true; [now rewrite Z.add_0_r |].
    symmetry; apply andb_true_iff; rewrite Z.leb_le, Z.ltb_lt; lia.
  - assert (Hno := Hout 0%nat q ltac:(lia) eq_refl). unfold range in Hno.
    replace (_ && _) with false.
    2: { symmetry; apply andb_false_iff; rewrite Z.leb_gt, Z.ltb_ge; lia. }
    rewrite (IH ps (id + 1) p n w Hps Hk ltac:(lia) Hin).
    + do 2 f_equal; lia.
    + intros i r Hi Hr. apply (Hout (S i) r); [lia | exact Hr].
Qed.

(** Buffer [j] of pool [k] is found in pool [k], and its index is [j]. *)
Lemma buf_owner m c remote k j p w :
  mchan_wf m c -> pools_apart (addr_of remote) (active_pools c) ->
  0 <= k < num_pools c -> nthZ (pools c) k = Some p -> 0 <= j < num_bufs p ->
  let buf := addr_of remote p + j * buf_size p in
  find_pool_for_buf (Z.to_nat (num_pools c)) (pools c) 0 buf remote w = Ret k w /\
  u64 (buf - addr_of remote p) / buf_size p = j /\ buf <> NULL /\
  u16 j = j /\ pool_wf m p.
Proof.
  intros Hc Hap Hk Hp Hj buf.
  assert (Ha := proj1 (active_lookup _ _ _ Hk) Hp).
  assert (Hw := Forall_lookup_1 _ _ _ _ (mw_pools _ _ Hc) Ha).
  assert (Hn := pw_num _ _ Hw). assert (Hs := pw_size _ _ Hw).
  destruct (pool_wf_addr _ _ remote Hw) as (A1 & A2 & A3).
  assert (Hin : range (addr_of remote p) (pool_bytes p) buf)
    by (unfold range, pool_bytes, buf; nia).
  apply nthZ_Some in Hp as [_ Hp]. assert (Hkm := mw_num _ _ Hc).
  split_and!; auto.
  - rewrite (find_pool_for_buf_eval m remote buf (Z.to_nat k) (pools c) 0 p);
      [| apply Hc | exact Hp | lia | exact Hin |].
    + rewrite Z2Nat.id, Z.add_0_l, i16_small by (unfold IPC_SHM_MAX_POOLS in *; lia). reflexivity.
    + intros i q Hi Hq Hin'. assert (Hq' : active_pools c !! i = Some q).
      { unfold active_pools. rewrite lookup_take_lt by lia. exact Hq. }
      destruct (Hap i (Z.to_nat k) q p Hq' Ha ltac:(lia)); unfold range, pool_bytes in *; lia.
  - unfold buf. replace (_ - _) with (j * buf_size p) by lia.
    unfold range, pool_bytes, buf in *. rewrite u64_small by lia. apply Z.div_mul; lia.
  - unfold NULL, range in *; lia.
  - apply u16_small; unfold IPC_SHM_MAX_BUFS_PER_POOL in *; lia.
Qed.

End Spec.
