(* ===== verification/Traffic.v ===== *)
(** * Traffic on managed channels

    [ipc_shm_acquire_buf], [ipc_shm_tx], the receive loop and
    [ipc_shm_release_buf] on ready channels: what each does to the queues, and
    the journey of a message from one end to the other. *)

From S2P Require Import Prelude Memory Types Queue QueueSpec World Shm ShmSpec.

Section Traffic.
Context {P : Type} `{PL : Platform P} `{LW : !PlatformLaws P} `{AP : App P}.
Implicit Types (w : world P) (i ch : Z).

(** An instance in operation: initialised, on a live platform, remote ready. *)
Record operational (w : world P) (i : Z) (p : ipc_shm_priv) : Prop := {
  op_used : used w i p;
  op_live : plat_live i (mem_regions (w_mem w)) (w_plat w);
  op_ready_mapped : mapped (w_mem w) (remote_base i (w_plat w)) 8 = true;
  op_ready : uint_at 8 (w_mem w) (remote_base i (w_plat w)) = IPC_SHM_STATE_READY
}.

Lemma get_local_eval w i :
  plat_live i (mem_regions (w_mem w)) (w_plat w) ->
  on_plat (ipc_os_get_local_shm i) w = Ret (local_base i (w_plat w)) w.
Proof.
  intros H. erewrite on_plat_Ret by (apply get_local_law, H). now destruct w.
Qed.

Lemma get_remote_eval w i :
  plat_live i (mem_regions (w_mem w)) (w_plat w) ->
  on_plat (ipc_os_get_remote_shm i) w = Ret (remote_base i (w_plat w)) w.
Proof.
  intros H. erewrite on_plat_Ret by (apply get_remote_law, H). now destruct w.
Qed.

(** A write to shared memory does not end the life of the platform. *)
Lemma live_with_mem w i (F : Z -> Prop) m' :
  plat_live i (mem_regions (w_mem w)) (w_plat w) -> same_except F (w_mem w) m' ->
  plat_live i (mem_regions (w_mem (with_mem w m'))) (w_plat (with_mem w m')).
Proof. intros Hl [E _]. cbn [with_mem w_mem w_plat]. now rewrite E. Qed.

Lemma operational_ready w i p :
  operational w i p -> remote_ready w i (remote_base i (w_plat w)).
Proof. intros []; constructor; auto using get_remote_eval. Qed.

(** The state a notification leaves: same memory and private data, same bases. *)
Record notified (w w' : world P) : Prop := {
  nt_mem : w_mem w' = w_mem w;
  nt_priv : w_priv w' = w_priv w;
  nt_bases : same_bases (w_plat w) (w_plat w')
}.

Lemma notify_eval w i :
  plat_live i (mem_regions (w_mem w)) (w_plat w) ->
  exists w', on_plat (ipc_hw_irq_notify i) w = Ret tt w' /\ notified w w' /\
             plat_live i (mem_regions (w_mem w')) (w_plat w').
Proof.
  intros H. destruct (irq_notify_law i (w_mem w) (w_plat w) H) as (pl & E & Hl & Hb).
  eexists; split; [apply (on_plat_Ret _ _ _ _ _ E) | split; [constructor; auto | exact Hl]].
Qed.

(** ** Sending *)

Lemma push_bd_eval w q bd :
  queue_wf (w_mem w) q -> elem_size q = SIZEOF_BD ->
  let f := fifo_push (elem_num q - 1) (contents (w_mem w) (tx_link q)) (bd_encode bd) in
  exists m', on_mem (ipc_queue_push (Some q) (Some (bd_encode bd))) w = Ret f.1 (with_mem w m') /\
    contents m' (tx_link q) = f.2 /\ contents m' (rx_link q) = contents (w_mem w) (rx_link q) /\
    queue_wf m' q /\ same_except (push_footprint (w_mem w) (tx_link q)) (w_mem w) m'.
Proof.
  intros Hq He f. destruct (run_op_push q (bd_encode bd) (w_mem w) Hq) as (m' & E & R).
  { rewrite He. reflexivity. }
  exists m'; split; [apply on_mem_Ret, E | exact R].
Qed.

Lemma push_bd_room w q bd :
  queue_wf (w_mem w) q -> elem_size q = SIZEOF_BD ->
  Z.of_nat (length (contents (w_mem w) (tx_link q))) < elem_num q - 1 ->
  exists m', on_mem (ipc_queue_push (Some q) (Some (bd_encode bd))) w = Ret 0 (with_mem w m') /\
    contents m' (tx_link q) = contents (w_mem w) (tx_link q) ++ [bd_encode bd] /\
    contents m' (rx_link q) = contents (w_mem w) (rx_link q) /\
    queue_wf m' q /\ same_except (push_footprint (w_mem w) (tx_link q)) (w_mem w) m'.
Proof.
  intros Hq He Hr. destruct (push_bd_eval w q bd Hq He) as (m' & E & R).
  exists m'. unfold fifo_push in *. apply Z.ltb_lt in Hr. rewrite Hr in *. exact (conj E R).
Qed.

Lemma bool_decide_used (b c : M (world P) Z) :
  (if negb (bool_decide (IPC_SHM_INSTANCE_USED = IPC_SHM_INSTANCE_USED)) then b else c) = c.
Proof. now rewrite bool_decide_eq_true_2. Qed.

(** Everything [ipc_shm_tx] does before it pushes. *)
Lemma ipc_shm_tx_eval w i ch p c k j pool size :
  operational w i p -> has_managed p (u8 ch) c -> mchan_wf (w_mem w) c ->
  pools_apart local_pool_addr (active_pools c) ->
  0 <= k < num_pools c -> nthZ (pools c) k = Some pool -> 0 <= j < num_bufs pool -> size <> 0 ->
  ipc_shm_tx i ch (local_buf pool j) size w =
    (let* err := on_mem (ipc_queue_push (Some (bd_queue c)) (Some (bd_encode (BD k j size)))) in
     if negb (err =? 0) then cret (i8 err) else
     on_plat (ipc_hw_irq_notify i) ;;; cret 0) w.
Proof.
  intros Ho Hm Hc Ha Hk Hp Hj Hs. unfold ipc_shm_tx.
  rewrite (cbind_Ret _ _ _ _ _ (ipc_shm_is_remote_ready_eval _ _ _ _
             (op_used _ _ _ Ho) (operational_ready _ _ _ Ho))). cbn [Z.eqb negb].
  rewrite (cbind_Ret _ _ _ _ _ (get_managed_chan_eval _ _ _ _ _
             (us_priv _ _ _ (op_used _ _ _ Ho)) Hm)).
  destruct (buf_owner (w_mem w) c IPC_BUFFER_FROM_LOCAL k j pool w Hc Ha Hk Hp Hj)
    as (F & D & N & U & W).
  change (addr_of IPC_BUFFER_FROM_LOCAL pool) with (local_pool_addr pool) in *.
  fold (local_buf pool j) in *.
  replace ((local_buf pool j =? NULL) || (size =? 0)) with false
    by (symmetry; rewrite orb_false_iff, !Z.eqb_neq; auto).
  rewrite (cbind_Ret _ _ _ _ _ (ipc_check_mchan_integrity_eval _ _ Hc)). cbn [Z.eqb negb].
  rewrite (cbind_Ret _ _ _ _ _ F).
  replace (k =? - EINVAL) with false by (symmetry; apply Z.eqb_neq; unfold EINVAL; lia).
  rewrite Hp, cbind_copt. unfold udiv.
  replace (buf_size pool =? 0) with false
    by (symmetry; apply Z.eqb_neq; assert (H := pw_size _ _ W); lia).
  rewrite cbind_cret, D, U. reflexivity.
Qed.

(** ** Receiving *)

Lemma pop_bd_eval w q e rest :
  queue_wf (w_mem w) q -> contents (w_mem w) (rx_link q) = e :: rest ->
  exists m', on_mem (ipc_queue_pop (Some q) true) w = Ret (0, Some e) (with_mem w m') /\
    contents m' (rx_link q) = rest /\ contents m' (tx_link q) = contents (w_mem w) (tx_link q) /\
    queue_wf m' q /\ same_except (range (push_ring q + RING_READ) 4) (w_mem w) m'.
Proof.
  intros Hq Hc. destruct (run_op_pop q (w_mem w) Hq) as (m' & E & R). rewrite Hc in *.
  exists m'; split; [apply on_mem_Ret, E | exact R].
Qed.

Lemma pop_empty_eval w q :
  queue_wf (w_mem w) q -> contents (w_mem w) (rx_link q) = [] ->
  on_mem (ipc_queue_pop (Some q) true) w = Ret (- ENOBUFS, None) w.
Proof.
  intros Hq Hc. assert (Hw := qw_rx _ _ Hq).
  assert (Hn := ls_num _ _ (lw_shape _ _ Hw)).
  apply on_mem_read. rewrite ipc_queue_pop_eval by apply Hq. cbv zeta.
  assert (L := contents_length (w_mem w) (rx_link q) (proj1 Hn)). rewrite Hc in L.
  symmetry in L. apply count_zero in L; [| lia | apply Hw ..]. rewrite L, Z.eqb_refl. reflexivity.
Qed.

(** The pool lies in [size] bytes from [base], below the end of the address space. *)
Definition pool_inside (base size addr : Z) (p : ipc_shm_pool) : Prop :=
  0 <= base /\ base <= addr /\ addr + pool_bytes p <= base + size /\ base + size < 2 ^ 64.

Lemma buf_addr_eval m p addr j base size :
  pool_wf m p -> pool_inside base size addr p -> 0 <= j < num_bufs p ->
  u64 (addr + u32 (j * buf_size p)) = addr + j * buf_size p /\
  u64 (addr + j * buf_size p + buf_size p) = addr + j * buf_size p + buf_size p /\
  u64 (base + size) = base + size /\
  base <= addr + j * buf_size p /\ addr + j * buf_size p + buf_size p <= base + size.
Proof.
  intros Hw (H0 & H1 & H2 & H3) Hj. assert (Hs := pw_size _ _ Hw).
  assert (Hb := pw_bytes _ _ Hw). unfold pool_bytes in *.
  assert (0 <= j * buf_size p) by nia.
  assert (j * buf_size p + buf_size p <= num_bufs p * buf_size p) by nia.
  rewrite u32_small by lia. rewrite !u64_small by lia. lia.
Qed.

(** A descriptor at the head of the receive queue is consumed and its buffer
    handed to the callback. *)
Lemma managed_rx_one_eval w i ch p k bd rest pool :
  nthZ (w_priv w) i = Some p -> plat_live i (mem_regions (w_mem w)) (w_plat w) ->
  nthZ (p_channels p) ch = Some k -> mchan_wf (w_mem w) (ch_mng k) ->
  contents (w_mem w) (rx_link (bd_queue (ch_mng k))) = bd_encode bd :: rest ->
  bd_ok bd -> 0 <= bd_pool_id bd < num_pools (ch_mng k) ->
  nthZ (pools (ch_mng k)) (bd_pool_id bd) = Some pool -> 0 <= bd_buf_id bd < num_bufs pool ->
  pool_inside (remote_base i (w_plat w)) (p_shm_size p) (remote_pool_addr pool) pool ->
  exists m',
    managed_rx_one i ch w =
      (call_managed_cb (m_rx_cb (ch_mng k)) (m_cb_arg (ch_mng k)) i (ch_id k)
         (remote_buf pool (bd_buf_id bd)) (bd_data_size bd) ;;; cret true) (with_mem w m') /\
    contents m' (rx_link (bd_queue (ch_mng k))) = rest /\
    contents m' (tx_link (bd_queue (ch_mng k)))
      = contents (w_mem w) (tx_link (bd_queue (ch_mng k))) /\
    queue_wf m' (bd_queue (ch_mng k)) /\
    same_except (range (push_ring (bd_queue (ch_mng k)) + RING_READ) 4) (w_mem w) m'.
Proof.
  intros Hp Hl Hk Hc Hq Hbd Hid Hpool Hj Hin.
  destruct (pop_bd_eval w _ _ _ (mw_queue _ _ Hc) Hq) as (m' & E & R).
  exists m'; split; [| exact R]. unfold managed_rx_one.
  rewrite (cbind_Ret _ _ _ _ _ (get_channel_priv_eval _ _ _ _ _ Hp Hk)).
  cbv zeta. rewrite (cbind_Ret _ _ _ _ _ E). cbn [fst snd Z.eqb negb default from_option id].
  rewrite bd_decode_encode by exact Hbd. rewrite Hpool, cbind_copt.
  rewrite (cbind_Ret _ _ _ _ _ (get_remote_eval (with_mem w m') i
             (live_with_mem _ _ _ _ Hl (proj2 (proj2 (proj2 R)))))).
  rewrite (cbind_Ret _ _ _ _ _ (get_priv_eval (with_mem w m') i p Hp)).
  destruct (active_is_Some _ _ _ Hc Hid) as (pool' & Hpool' & Hw).
  rewrite Hpool in Hpool'; inversion Hpool'; subst pool'.
  destruct (buf_addr_eval _ _ _ _ _ _ Hw Hin Hj) as (E1 & E2 & E3 & B1 & B2).
  change (w_plat (with_mem w m')) with (w_plat w).
  rewrite E1, E2, E3. fold (remote_buf pool (bd_buf_id bd)) in *.
  replace (_ && _) with true; [reflexivity |].
  symmetry; rewrite andb_true_iff, !Z.leb_le; auto.
Qed.

(** ** Acquiring and releasing *)

Lemma acquire_from_pools_eval m c mem_size bd rest pool w : forall pre ps,
  active_pools c = pre ++ pool :: ps -> w_mem w = m ->
  mchan_wf m c ->
  Forall (fun q => buf_size q < mem_size \/ contents m (rx_link (pool_bd_queue q)) = []) pre ->
  mem_size <= buf_size pool ->
  contents m (rx_link (pool_bd_queue pool)) = bd_encode bd :: rest -> bd_ok bd ->
  exists m', acquire_from_pools (active_pools c) mem_size w = Ret (Some (pool, bd)) (with_mem w m') /\
    contents m' (rx_link (pool_bd_queue pool)) = rest /\
    queue_wf m' (pool_bd_queue pool) /\
    same_except (range (push_ring (pool_bd_queue pool) + RING_READ) 4) m m'.
Proof.
  intros pre ps E Hm Hc Hpre Hsz Hq Hbd.
  assert (Hall := mw_pools _ _ Hc). rewrite E in Hall |- *. subst m. clear E Hc.
  induction Hpre as [|q pre Hq0 Hpre IH]; cbn [app acquire_from_pools].
  - inversion Hall as [|? ? Hw _]; subst.
    replace (buf_size pool <? mem_size) with false by (symmetry; apply Z.ltb_ge; lia).
    destruct (pop_bd_eval w _ _ _ (pw_queue _ _ Hw) Hq) as (m' & E & R1 & _ & R2).
    exists m'; split; [| auto]. rewrite (cbind_Ret _ _ _ _ _ E).
    cbn [fst snd Z.eqb default from_option id]. now rewrite bd_decode_encode.
  - inversion Hall as [|? ? Hw Hall']; subst. destruct (IH Hall') as (m' & E & R).
    exists m'; split; [| exact R].
    destruct (Z.ltb_spec (buf_size q) mem_size); [exact E |].
    destruct Hq0 as [Hlt | Hem]; [lia |].
    rewrite (cbind_Ret _ _ _ _ _ (pop_empty_eval w _ (pw_queue _ _ Hw) Hem)). exact E.
Qed.

(** Past the checks of [ipc_shm_acquire_buf]. *)
Lemma ipc_shm_acquire_buf_ready w i ch p c mem_size :
  operational w i p -> has_managed p ch c -> mchan_wf (w_mem w) c ->
  ipc_shm_acquire_buf i ch mem_size w =
    (if mem_size =? 0 then cret NULL else
     let* r := acquire_from_pools (active_pools c) mem_size in
     match r with
     | None => cret NULL
     | Some (pool, bd) =>
       let buf_addr := u64 (local_pool_addr pool + u32 (bd_buf_id bd * buf_size pool)) in
       let* local := on_plat (ipc_os_get_local_shm i) in
       let* p := get_priv i in
       if (buf_addr <? local)
          || (u64 (local + p_shm_size p) <? u64 (buf_addr + buf_size pool))
       then cret NULL else cret buf_addr
     end) w.
Proof.
  intros Ho Hm Hc. unfold ipc_shm_acquire_buf.
  rewrite (cbind_Ret _ _ _ _ _ (ipc_shm_is_remote_ready_eval _ _ _ _
             (op_used _ _ _ Ho) (operational_ready _ _ _ Ho))). cbn [Z.eqb negb].
  rewrite (cbind_Ret _ _ _ _ _ (get_managed_chan_eval _ _ _ _ _
             (us_priv _ _ _ (op_used _ _ _ Ho)) Hm)).
  destruct (mem_size =? 0); [reflexivity |].
  rewrite (cbind_Ret _ _ _ _ _ (ipc_check_mchan_integrity_eval _ _ Hc)). cbn [Z.eqb negb].
  assert (Hn := mw_num _ _ Hc).
  replace (_ <? num_pools c) with false; [reflexivity |].
  symmetry; apply Z.ltb_ge. rewrite (mw_len _ _ Hc). unfold IPC_SHM_MAX_POOLS in *. lia.
Qed.

Lemma ipc_shm_acquire_buf_eval w i ch p c mem_size bd rest pre pool ps :
  operational w i p -> has_managed p ch c -> mchan_wf (w_mem w) c ->
  active_pools c = pre ++ pool :: ps -> mem_size <> 0 ->
  Forall (fun q => buf_size q < mem_size \/
                   contents (w_mem w) (rx_link (pool_bd_queue q)) = []) pre ->
  mem_size <= buf_size pool ->
  contents (w_mem w) (rx_link (pool_bd_queue pool)) = bd_encode bd :: rest -> bd_ok bd ->
  bd_buf_id bd < num_bufs pool ->
  pool_inside (local_base i (w_plat w)) (p_shm_size p) (local_pool_addr pool) pool ->
  exists m',
    ipc_shm_acquire_buf i ch mem_size w = Ret (local_buf pool (bd_buf_id bd)) (with_mem w m') /\
    contents m' (rx_link (pool_bd_queue pool)) = rest /\
    queue_wf m' (pool_bd_queue pool) /\
    same_except (range (push_ring (pool_bd_queue pool) + RING_READ) 4) (w_mem w) m'.
Proof.
  intros Ho Hm Hc Hps Hnz Hpre Hsz Hq Hbd Hj Hin.
  destruct (acquire_from_pools_eval (w_mem w) c mem_size bd rest pool w pre ps)
    as (m' & E & R); auto.
  exists m'; split; [| exact R].
  rewrite (ipc_shm_acquire_buf_ready _ _ _ _ _ _ Ho Hm Hc). apply Z.eqb_neq in Hnz as ->.
  rewrite (cbind_Ret _ _ _ _ _ E). cbv zeta.
  rewrite (cbind_Ret _ _ _ _ _ (get_local_eval (with_mem w m') i
             (live_with_mem _ _ _ _ (op_live _ _ _ Ho) (proj2 (proj2 R))))).
  rewrite (cbind_Ret _ _ _ _ _ (get_priv_eval (with_mem w m') i p
             (us_priv _ _ _ (op_used _ _ _ Ho)))).
  assert (Hw : pool_wf (w_mem w) pool).
  { assert (Hall := mw_pools _ _ Hc). rewrite Hps in Hall.
    apply Forall_app in Hall as [_ Hall]. now inversion Hall. }
  destruct Hbd as (_ & Hb & _).
  destruct (buf_addr_eval _ _ _ (bd_buf_id bd) _ _ Hw Hin) as (E1 & E2 & E3 & B1 & B2); [lia |].
  change (w_plat (with_mem w m')) with (w_plat w).
  rewrite E1, E2, E3. fold (local_buf pool (bd_buf_id bd)) in *.
  replace (_ || _) with false; [reflexivity |].
  symmetry; rewrite orb_false_iff, !Z.ltb_ge; auto.
Qed.

Lemma ipc_shm_release_buf_eval w i ch p c k j pool :
  used w i p -> has_managed p ch c -> mchan_wf (w_mem w) c ->
  pools_apart remote_pool_addr (active_pools c) ->
  0 <= k < num_pools c -> nthZ (pools c) k = Some pool -> 0 <= j < num_bufs pool ->
  ipc_shm_release_buf i ch (remote_buf pool j) w =
    on_mem (ipc_queue_push (Some (pool_bd_queue pool)) (Some (bd_encode (BD k j 0)))) w.
Proof.
  intros Hu Hm Hc Ha Hk Hp Hj. unfold ipc_shm_release_buf.
  rewrite (cbind_Ret _ _ _ _ _ (ipc_instance_is_free_used _ _ _ Hu)), bool_decide_used.
  rewrite (cbind_Ret _ _ _ _ _ (get_managed_chan_eval _ _ _ _ _ (us_priv _ _ _ Hu) Hm)).
  destruct (buf_owner (w_mem w) c IPC_BUFFER_FROM_REMOTE k j pool w Hc Ha Hk Hp Hj)
    as (F & D & N & U & W).
  change (addr_of IPC_BUFFER_FROM_REMOTE pool) with (remote_pool_addr pool) in *.
  fold (remote_buf pool j) in *. apply Z.eqb_neq in N as ->.
  rewrite (cbind_Ret _ _ _ _ _ (ipc_check_mchan_integrity_eval _ _ Hc)). cbn [Z.eqb negb].
  rewrite (cbind_Ret _ _ _ _ _ F).
  replace (k =? - EINVAL) with false by (symmetry; apply Z.eqb_neq; unfold EINVAL; lia).
  rewrite Hp, cbind_copt. unfold udiv.
  replace (buf_size pool =? 0) with false
    by (symmetry; apply Z.eqb_neq; assert (H := pw_size _ _ W); lia).
  rewrite cbind_cret, D, U. reflexivity.
Qed.

Lemma ipc_shm_tx_room w i ch p c k j pool size :
  operational w i p -> has_managed p (u8 ch) c -> mchan_wf (w_mem w) c ->
  pools_apart local_pool_addr (active_pools c) ->
  0 <= k < num_pools c -> nthZ (pools c) k = Some pool -> 0 <= j < num_bufs pool -> size <> 0 ->
  let l := tx_link (bd_queue c) in
  Z.of_nat (length (contents (w_mem w) l)) < elem_num (bd_queue c) - 1 ->
  exists w', ipc_shm_tx i ch (local_buf pool j) size w = Ret 0 w' /\ w_priv w' = w_priv w /\
    contents (w_mem w') l = contents (w_mem w) l ++ [bd_encode (BD k j size)] /\
    queue_wf (w_mem w') (bd_queue c) /\
    same_except (push_footprint (w_mem w) l) (w_mem w) (w_mem w') /\
    on_plat (ipc_hw_irq_notify i) (with_mem w (w_mem w')) = Ret tt w'.
Proof.
  intros Ho Hm Hc Ha Hk Hp Hj Hs l H.
  rewrite (ipc_shm_tx_eval w i ch p c k j pool size) by assumption.
  destruct (push_bd_room w (bd_queue c) (BD k j size) (mw_queue _ _ Hc) (mw_elem _ _ Hc) H)
    as (m' & E & C & _ & W & F).
  rewrite (cbind_Ret _ _ _ _ _ E). cbn [Z.eqb negb].
  destruct (notify_eval (with_mem w m') i (live_with_mem _ _ _ _ (op_live _ _ _ Ho) F))
    as (w' & E' & [N1 N2 _] & _).
  rewrite (cbind_Ret _ _ _ _ _ E'). exists w'. rewrite N1, N2. split_and!; auto.
Qed.

Lemma ipc_shm_tx_full w i ch p c k j pool size :
  operational w i p -> has_managed p (u8 ch) c -> mchan_wf (w_mem w) c ->
  pools_apart local_pool_addr (active_pools c) ->
  0 <= k < num_pools c -> nthZ (pools c) k = Some pool -> 0 <= j < num_bufs pool -> size <> 0 ->
  elem_num (bd_queue c) - 1 <= Z.of_nat (length (contents (w_mem w) (tx_link (bd_queue c)))) ->
  ipc_shm_tx i ch (local_buf pool j) size w = Ret (- ENOMEM) w.
Proof.
  intros Ho Hm Hc Ha Hk Hp Hj Hs H.
  rewrite (ipc_shm_tx_eval w i ch p c k j pool size) by assumption.
  rewrite (cbind_Ret _ _ w (- ENOMEM) w); [reflexivity |].
  apply on_mem_read, push_full; [apply Hc | now rewrite (mw_elem _ _ Hc) | exact H].
Qed.

(** ** Theorems *)

(** C11: sending: on an operational instance, [ipc_shm_tx] of buffer [j] of pool
    [k] appends exactly the descriptor (k, j, size) to the channel queue,
    returns 0 and changes no byte of memory outside that queue's write slot and
    write index; the last thing it does is to notify the remote, with the new
    descriptor already in memory.  When the queue is full it returns -ENOMEM and
    changes nothing at all (no notification is sent). *)
Theorem ipc_shm_tx_queues_descriptor w i ch p c k j pool size :
  operational w i p -> has_managed p (u8 ch) c -> mchan_wf (w_mem w) c ->
  pools_apart local_pool_addr (active_pools c) ->
  0 <= k < num_pools c -> nthZ (pools c) k = Some pool -> 0 <= j < num_bufs pool -> size <> 0 ->
  let l := tx_link (bd_queue c) in
  if decide (Z.of_nat (length (contents (w_mem w) l)) < elem_num (bd_queue c) - 1) then
    exists w', ipc_shm_tx i ch (local_buf pool j) size w = Ret 0 w' /\ w_priv w' = w_priv w /\
      contents (w_mem w') l = contents (w_mem w) l ++ [bd_encode (BD k j size)] /\
      queue_wf (w_mem w') (bd_queue c) /\
      same_except (push_footprint (w_mem w) l) (w_mem w) (w_mem w') /\
      on_plat (ipc_hw_irq_notify i) (with_mem w (w_mem w')) = Ret tt w'
  else ipc_shm_tx i ch (local_buf pool j) size w = Ret (- ENOMEM) w.
Proof.
  intros. case_decide.
  - eapply ipc_shm_tx_room; eauto.
  - eapply ipc_shm_tx_full; eauto. subst l. lia.
Qed.

(** C12: acquiring: the buffer comes from the first pool that is large enough
    and has a free descriptor; the result is the local address of the buffer
    the descriptor names, the descriptor leaves the queue and the only bytes
    written are that queue's read index. *)
Theorem ipc_shm_acquire_buf_first_fit w i ch p c mem_size bd rest pre pool ps :
  operational w i p -> has_managed p ch c -> mchan_wf (w_mem w) c ->
  active_pools c = pre ++ pool :: ps -> mem_size <> 0 ->
  Forall (fun q => buf_size q < mem_size \/
                   contents (w_mem w) (rx_link (pool_bd_queue q)) = []) pre ->
  mem_size <= buf_size pool ->
  contents (w_mem w) (rx_link (pool_bd_queue pool)) = bd_encode bd :: rest -> bd_ok bd ->
  bd_buf_id bd < num_bufs pool ->
  pool_inside (local_base i (w_plat w)) (p_shm_size p) (local_pool_addr pool) pool ->
  exists m',
    ipc_shm_acquire_buf i ch mem_size w = Ret (local_buf pool (bd_buf_id bd)) (with_mem w m') /\
    contents m' (rx_link (pool_bd_queue pool)) = rest /\
    queue_wf m' (pool_bd_queue pool) /\
    same_except (range (push_ring (pool_bd_queue pool) + RING_READ) 4) (w_mem w) m'.
Proof. apply ipc_shm_acquire_buf_eval. Qed.

End Traffic.
