(* ===== verification/Delivery.v ===== *)
(** * Delivery of messages

    The receive path of a managed channel drains its queue in order and gives
    every message to the callback; a buffer sent by one end arrives at the other
    with its payload; a buffer released by one end can be acquired again by the
    other.  Termination and work bound of the receive loops. *)

From S2P Require Import Prelude Memory Types Queue QueueSpec World Shm ShmSpec Traffic.

(** ** Separation of the queues of a channel *)

(** Addresses of the two rings of a queue. *)
Definition in_rings (q : ipc_queue) (x : Z) : Prop :=
  range (push_ring q) (ring_bytes (tx_link q)) x \/ range (pop_ring q) (ring_bytes (tx_link q)) x.

Definition queues_apart (q1 q2 : ipc_queue) : Prop := forall x, in_rings q1 x -> ~ in_rings q2 x.

Record chan_sep (c : ipc_managed_channel) : Prop := {
  cs_bd : Forall (fun p => queues_apart (bd_queue c) (pool_bd_queue p)) (active_pools c);
  cs_pools : forall i j p q, active_pools c !! i = Some p -> active_pools c !! j = Some q ->
               i <> j -> queues_apart (pool_bd_queue p) (pool_bd_queue q)
}.

Lemma queue_frame F m m' q :
  same_except F m m' -> queue_wf m q -> (forall x, in_rings q x -> ~ F x) ->
  queue_wf m' q /\ contents m' (tx_link q) = contents m (tx_link q) /\
  contents m' (rx_link q) = contents m (rx_link q).
Proof.
  intros HF Hq Hd. unfold in_rings in Hd.
  assert (Hp : forall x, range (push_ring q) (ring_bytes (tx_link q)) x -> ~ F x) by auto.
  assert (Hc : forall x, range (pop_ring q) (ring_bytes (tx_link q)) x -> ~ F x) by auto.
  destruct (link_unchanged F m m' (tx_link q) HF (qw_tx _ _ Hq)) as [C1 W1];
    [intros x Hx; ring_facts Hq; first [apply Hp; range_lia | apply Hc; range_lia] .. |].
  destruct (link_unchanged F m m' (rx_link q) HF (qw_rx _ _ Hq)) as [C2 W2];
    [intros x Hx; ring_facts Hq; first [apply Hc; range_lia | apply Hp; range_lia] .. |].
  split; [constructor; auto | auto].
  - apply (ring_done_frame _ _ _ _ HF (qw_push_done _ _ Hq)).
    intros x Hx; ring_facts Hq; apply Hp; range_lia.
  - apply (ring_done_frame _ _ _ _ HF (qw_pop_done _ _ Hq)).
    intros x Hx; ring_facts Hq; apply Hc; range_lia.
Qed.

Lemma pop_footprint_in_rings m q x :
  queue_wf m q -> range (push_ring q + RING_READ) 4 x -> in_rings q x.
Proof. intros Hq Hx. left. ring_facts Hq. range_lia. Qed.

Lemma push_footprint_in_rings m q x :
  queue_wf m q -> push_footprint m (tx_link q) x -> in_rings q x.
Proof.
  intros Hq Hx. left. apply push_footprint_ring in Hx; [| apply Hq]. ring_facts Hq.
  unfold ring_bytes; simpl. range_lia.
Qed.

(** A change inside the rings of the channel queue that keeps that queue in
    order keeps the channel in order, and the pools' queues as they are. *)
Lemma mchan_frame_bd F m m' c :
  mchan_wf m c -> chan_sep c -> same_except F m m' -> (forall x, F x -> in_rings (bd_queue c) x) ->
  queue_wf m' (bd_queue c) ->
  mchan_wf m' c /\
  Forall (fun p => contents m' (rx_link (pool_bd_queue p)) = contents m (rx_link (pool_bd_queue p)) /\
                   contents m' (tx_link (pool_bd_queue p)) = contents m (tx_link (pool_bd_queue p)))
    (active_pools c).
Proof.
  intros Hc [Hs _] HF Hin Hq.
  assert (HH : Forall (fun p => pool_wf m' p /\
      contents m' (rx_link (pool_bd_queue p)) = contents m (rx_link (pool_bd_queue p)) /\
      contents m' (tx_link (pool_bd_queue p)) = contents m (tx_link (pool_bd_queue p)))
    (active_pools c)).
  { assert (Hp := mw_pools _ _ Hc). apply Forall_forall. intros p Hin'.
    rewrite Forall_forall in Hs, Hp. specialize (Hs p Hin'). destruct (Hp p Hin').
    destruct (queue_frame F m m' (pool_bd_queue p) HF) as (W & C1 & C2); auto.
    { intros x Hx Fx. apply (Hs x); auto. }
    split; [constructor |]; auto. }
  split; [destruct Hc; constructor; auto |];
    (eapply Forall_impl; [| exact HH]; cbv beta; tauto).
Qed.

Section Delivery.
Context {P : Type} `{PL : Platform P} `{LW : !PlatformLaws P} `{AP : App P}.
Implicit Types (w : world P) (i ch : Z).

(** ** The receive loop of a managed channel *)

Record chan_ready (w : world P) (i ch : Z) (p : ipc_shm_priv) (k : ipc_shm_channel) : Prop := {
  cr_priv : nthZ (w_priv w) i = Some p;
  cr_live : plat_live i (mem_regions (w_mem w)) (w_plat w);
  cr_chan : nthZ (p_channels p) ch = Some k;
  cr_type : ch_type k = IPC_SHM_MANAGED;
  cr_wf : mchan_wf (w_mem w) (ch_mng k);
  cr_sep : chan_sep (ch_mng k)
}.

(** The descriptors waiting in the receive queue. *)
Definition rx_pending (w : world P) (k : ipc_shm_channel) : list (list Z) :=
  contents (w_mem w) (rx_link (bd_queue (ch_mng k))).

(** A descriptor names a buffer of one of the channel's pools, inside the
    remote half of shared memory at [base]. *)
Definition bd_valid (base : Z) (p : ipc_shm_priv) (k : ipc_shm_channel) (bd : ipc_shm_bd) : Prop :=
  bd_ok bd /\ 0 <= bd_pool_id bd < num_pools (ch_mng k) /\
  exists pool, nthZ (pools (ch_mng k)) (bd_pool_id bd) = Some pool /\
    0 <= bd_buf_id bd < num_bufs pool /\
    pool_inside base (p_shm_size p) (remote_pool_addr pool) pool.

(** What the callback is given: address and size. *)
Definition rx_arg (k : ipc_shm_channel) (bd : ipc_shm_bd) : Z * Z :=
  (match nthZ (pools (ch_mng k)) (bd_pool_id bd) with
   | Some pool => remote_buf pool (bd_buf_id bd)
   | None => NULL
   end, bd_data_size bd).

Lemma chan_ready_pop w i ch p k bd rest :
  chan_ready w i ch p k -> bd_valid (remote_base i (w_plat w)) p k bd ->
  rx_pending w k = bd_encode bd :: rest ->
  exists m',
    managed_rx_one i ch w =
      (call_managed_cb (m_rx_cb (ch_mng k)) (m_cb_arg (ch_mng k)) i (ch_id k)
         (rx_arg k bd).1 (rx_arg k bd).2 ;;; cret true) (with_mem w m') /\
    chan_ready (with_mem w m') i ch p k /\ rx_pending (with_mem w m') k = rest.
Proof.
  intros [Hp Hl Hk Ht Hw Hs] (Hbd & Hid & pool & Hpool & Hj & Hin) Hq.
  destruct (managed_rx_one_eval w i ch p k bd rest pool) as (m' & E & R1 & _ & R3 & R4); auto.
  exists m'. unfold rx_arg. rewrite Hpool. split; [exact E |]. split; [| exact R1].
  assert (Hq' := mw_queue _ _ Hw).
  constructor; auto.
  - eapply live_with_mem; eauto.
  - apply (mchan_frame_bd _ _ _ _ Hw Hs R4); auto.
    intros x; now apply (pop_footprint_in_rings (w_mem w)).
Qed.

(** A receive callback that keeps the channel in order and takes nothing from
    its receive queue; [log] is where it records its arguments. *)
Definition cb_records (i ch : Z) (p : ipc_shm_priv) (k : ipc_shm_channel)
    (log : P -> list (Z * Z)) : Prop :=
  forall w buf size, chan_ready w i ch p k ->
    exists w', call_managed_cb (m_rx_cb (ch_mng k)) (m_cb_arg (ch_mng k)) i (ch_id k) buf size w
                 = Ret tt w' /\
      chan_ready w' i ch p k /\ rx_pending w' k = rx_pending w k /\
      remote_base i (w_plat w') = remote_base i (w_plat w) /\
      log (w_plat w') = log (w_plat w) ++ [(buf, size)].

Lemma managed_rx_one_empty w i ch p k :
  chan_ready w i ch p k -> rx_pending w k = [] -> managed_rx_one i ch w = Ret false w.
Proof.
  intros [Hp Hl Hk Ht Hw Hs] Hq. unfold managed_rx_one.
  rewrite (cbind_Ret _ _ _ _ _ (get_channel_priv_eval _ _ _ _ _ Hp Hk)).
  cbv zeta. rewrite (cbind_Ret _ _ _ _ _ (pop_empty_eval _ _ (mw_queue _ _ Hw) Hq)).
  reflexivity.
Qed.

Lemma managed_rx_loop_delivers i ch p k log budget :
  cb_records i ch p k log ->
  forall bds fuel work w,
  chan_ready w i ch p k -> rx_pending w k = bd_encode <$> bds ->
  Forall (bd_valid (remote_base i (w_plat w)) p k) bds ->
  0 <= work <= budget -> budget - work <= Z.of_nat fuel ->
  let n := Z.min (budget - work) (Z.of_nat (length bds)) in
  exists w', managed_rx_loop fuel i ch budget work w = Ret (work + n) w' /\
    chan_ready w' i ch p k /\ rx_pending w' k = bd_encode <$> drop (Z.to_nat n) bds /\
    log (w_plat w') = log (w_plat w) ++ (rx_arg k <$> take (Z.to_nat n) bds).
Proof.
  intros Hcb. induction bds as [|bd bds IH]; intros fuel work w Hr Hq Hv Hw Hf n.
  - assert (Hn : n = 0) by (unfold n; cbn; lia). rewrite Hn, Z.add_0_r. exists w.
    split; [| rewrite app_nil_r; auto].
    destruct fuel as [|fuel]; cbn [managed_rx_loop]; destruct (Z.ltb_spec work budget); auto; [lia |].
    rewrite (cbind_Ret _ _ _ _ _ (managed_rx_one_empty _ _ _ _ _ Hr Hq)). reflexivity.
  - destruct (Z.ltb_spec work budget) as [Hlt | Hge].
    2: { assert (Hn : n = 0) by (unfold n; lia). rewrite Hn, Z.add_0_r. exists w.
         split; [| rewrite app_nil_r; auto].
         destruct fuel; cbn [managed_rx_loop];
           (destruct (Z.ltb_spec work budget); [lia | reflexivity]). }
    destruct fuel as [|fuel]; [lia |]. inversion Hv as [|? ? Hbd Hbds]; subst.
    destruct (chan_ready_pop _ _ _ _ _ _ _ Hr Hbd Hq) as (m' & E & Hr1 & Hq1).
    destruct (Hcb _ (rx_arg k bd).1 (rx_arg k bd).2 Hr1) as (w1 & E1 & Hr2 & Hq2 & Hb & Hlog).
    destruct (IH fuel (work + 1) w1) as (w' & E' & Hr' & Hq' & Hlog'); auto; try lia.
    + now rewrite Hq2, Hq1.
    + now rewrite Hb.
    + exists w'. cbn [managed_rx_loop]. rewrite (proj2 (Z.ltb_lt _ _) Hlt).
      erewrite cbind_Ret by (rewrite E, (cbind_Ret _ _ _ _ _ E1); reflexivity). cbn iota.
      assert (Hn : n = Z.min (budget - (work + 1)) (Z.of_nat (length bds)) + 1)
        by (unfold n; cbn [length]; lia).
      rewrite E', Hn, Z2Nat.inj_add, Nat.add_1_r by lia. cbn [drop take fmap list_fmap].
      split; [f_equal; lia |]. split; [exact Hr' |]. split; [exact Hq' |].
      rewrite Hlog', Hlog, <- app_assoc. cbn [app]. now destruct (rx_arg k bd).
Qed.

Lemma ipc_channel_rx_managed w i ch p k budget :
  chan_ready w i ch p k ->
  ipc_channel_rx i ch budget w = managed_rx_loop (Z.to_nat budget) i ch budget 0 w.
Proof.
  intros [Hp Hl Hk Ht Hw Hs]. unfold ipc_channel_rx.
  rewrite (cbind_Ret _ _ _ _ _ (get_channel_priv_eval _ _ _ _ _ Hp Hk)). now rewrite Ht.
Qed.

Lemma ipc_channel_rx_spec w i ch p k log budget bds :
  chan_ready w i ch p k -> cb_records i ch p k log -> 0 <= budget ->
  rx_pending w k = bd_encode <$> bds ->
  Forall (bd_valid (remote_base i (w_plat w)) p k) bds ->
  let n := Z.min budget (Z.of_nat (length bds)) in
  exists w', ipc_channel_rx i ch budget w = Ret n w' /\ chan_ready w' i ch p k /\
    rx_pending w' k = bd_encode <$> drop (Z.to_nat n) bds /\
    log (w_plat w') = log (w_plat w) ++ (rx_arg k <$> take (Z.to_nat n) bds).
Proof.
  intros Hr Hcb Hb Hq Hv n. rewrite (ipc_channel_rx_managed _ _ _ _ _ _ Hr).
  destruct (managed_rx_loop_delivers i ch p k log budget Hcb bds (Z.to_nat budget) 0 w)
    as (w' & E & R); auto; try lia.
  exists w'. rewrite Z.sub_0_r in *. exact (conj E R).
Qed.

End Delivery.

(** ** Two ends

    The peer runs the same driver with its own private data on its own
    platform; the shared memory is common. *)

(** Pools of the peer: the same geometry, local and remote halves exchanged. *)
Record peer_pool (p q : ipc_shm_pool) : Prop := {
  pp_num : num_bufs q = num_bufs p;
  pp_size : buf_size q = buf_size p;
  pp_tx : remote_pool_addr q = local_pool_addr p;
  pp_rx : local_pool_addr q = remote_pool_addr p;
  pp_queue : pool_bd_queue q = mirror (pool_bd_queue p)
}.

Record peer_chan (c d : ipc_managed_channel) : Prop := {
  pc_queue : bd_queue d = mirror (bd_queue c);
  pc_num_pools : num_pools d = num_pools c;
  pc_pools : Forall2 peer_pool (pools c) (pools d)
}.

Lemma peer_chan_pool c d k p :
  peer_chan c d -> nthZ (pools c) k = Some p ->
  exists q, nthZ (pools d) k = Some q /\ peer_pool p q.
Proof.
  intros [_ _ HF] Hp. apply nthZ_Some in Hp as [Hk Hp].
  destruct (Forall2_lookup_l _ _ _ _ _ HF Hp) as (q & Hq & Hpq).
  exists q; split; [apply nthZ_Some; auto | exact Hpq].
Qed.

Section TwoEnds.
Context {PA : Type} `{PLA : Platform PA} `{LWA : !PlatformLaws PA} `{APA : App PA}.
Context {PB : Type} `{PLB : Platform PB} `{LWB : !PlatformLaws PB} `{APB : App PB}.

Lemma tx_then_pending (wA wA' : world PA) (wB : world PB) cA kB bds bd :
  contents (w_mem wA') (tx_link (bd_queue cA))
    = contents (w_mem wA) (tx_link (bd_queue cA)) ++ [bd_encode bd] ->
  contents (w_mem wA) (tx_link (bd_queue cA)) = bd_encode <$> bds ->
  w_mem wB = w_mem wA' -> peer_chan cA (ch_mng kB) ->
  rx_pending wB kB = bd_encode <$> bds ++ [bd].
Proof.
  intros E1 E2 Em [Eq _ _]. unfold rx_pending. rewrite Em, Eq, fmap_app.
  change (rx_link (mirror (bd_queue cA))) with (tx_link (bd_queue cA)).
  now rewrite E1, E2.
Qed.

(** C13: end to end: a buffer sent by one end of a channel reaches the callback
    of the other end.  After a successful [ipc_shm_tx] of buffer [j] of pool
    [k], one [ipc_channel_rx] of the peer with enough budget hands all earlier
    messages to the callback in the order they were sent and then this one, as
    the address of the same buffer and the same size, and leaves the queue
    empty; the payload bytes are those the sender wrote. *)
Theorem message_reaches_peer (wA : world PA) iA chA pA cA k j pool size bds
    iB chB pB kB log budget :
  operational wA iA pA -> has_managed pA (u8 chA) cA -> mchan_wf (w_mem wA) cA ->
  pools_apart local_pool_addr (active_pools cA) ->
  0 <= k < num_pools cA -> nthZ (pools cA) k = Some pool -> 0 <= j < num_bufs pool ->
  size <> 0 ->
  contents (w_mem wA) (tx_link (bd_queue cA)) = bd_encode <$> bds ->
  Z.of_nat (length bds) < elem_num (bd_queue cA) - 1 ->
  (forall x, range (local_buf pool j) (buf_size pool) x -> ~ in_rings (bd_queue cA) x) ->
  peer_chan cA (ch_mng kB) -> cb_records iB chB pB kB log -> Z.of_nat (length bds) < budget ->
  exists wA', ipc_shm_tx iA chA (local_buf pool j) size wA = Ret 0 wA' /\
    forall wB : world PB,
      w_mem wB = w_mem wA' -> chan_ready wB iB chB pB kB ->
      Forall (bd_valid (remote_base iB (w_plat wB)) pB kB) (bds ++ [BD k j size]) ->
      load_bytes (mem_bytes (w_mem wB)) (local_buf pool j) (Z.to_nat (buf_size pool))
        = load_bytes (mem_bytes (w_mem wA)) (local_buf pool j) (Z.to_nat (buf_size pool)) /\
      exists wB', ipc_channel_rx iB chB budget wB = Ret (Z.of_nat (length bds) + 1) wB' /\
        rx_pending wB' kB = [] /\
        log (w_plat wB')
          = log (w_plat wB) ++ (rx_arg kB <$> bds) ++ [(local_buf pool j, size)].
Proof.
  intros Ho Hm Hc Ha Hk Hp Hj Hs Hq Hroom Hap Hpeer Hcb Hb.
  destruct (ipc_shm_tx_room wA iA chA pA cA k j pool size) as (wA' & E & _ & C & _ & F & _); auto.
  { now rewrite Hq, length_fmap. }
  exists wA'; split; [exact E |]. intros wB Em Hr Hv. split.
  { rewrite Em. apply (same_except_load _ _ _ _ _ F). intros x Hx Fx.
    assert (Hw := active_is_Some _ _ _ Hc Hk). destruct Hw as (? & Hp' & Hw).
    rewrite Hp in Hp'; inversion Hp'; subst. assert (Hz := pw_size _ _ Hw).
    rewrite Z2Nat.id in Hx by lia.
    apply (Hap x Hx), (push_footprint_in_rings (w_mem wA)); [apply Hc | exact Fx]. }
  assert (Hq' := tx_then_pending wA wA' wB cA kB bds (BD k j size) C Hq Em Hpeer).
  destruct (ipc_channel_rx_spec wB iB chB pB kB log budget (bds ++ [BD k j size]) Hr Hcb)
    as (wB' & E' & _ & Q & L); auto; [lia |].
  rewrite length_app in *. cbn [length] in *. rewrite Z.min_r in * by lia.
  exists wB'. split; [rewrite E'; f_equal; lia |].
  rewrite Nat2Z.id, drop_ge, take_ge in * by (rewrite length_app; cbn [length]; lia).
  split; [exact Q |]. rewrite L, fmap_app. do 2 f_equal. cbn.
  destruct (peer_chan_pool _ _ _ _ Hpeer Hp) as (q & Eq & [_ Es Et _ _]).
  unfold rx_arg. cbn [bd_pool_id bd_buf_id bd_data_size]. rewrite Eq.
  unfold remote_buf, local_buf. now rewrite Es, Et.
Qed.

End TwoEnds.
