(* ===== verification/Ownership.v ===== *)
(** * Ownership of buffers

    The buffers of the pools of one end circulate: free in the pool queues, held by
    the application of that end, in flight in the channel queue, held by the
    application of the other end.  The calls of the two ends, the receive loop with
    its callbacks included, keep an invariant that accounts for each buffer of
    either end exactly once; it follows that no buffer is lost or handed out twice,
    and that the queues never overflow. *)

From S2P Require Import Prelude Memory Types Queue QueueSpec World Shm ShmSpec Traffic Delivery.
From stdpp Require Import relations.
#[local] Open Scope Z_scope.

(** ** Buffers of a channel *)

Definition pool_bufs (p : ipc_shm_pool) : list Z :=
  (fun j : nat => local_buf p (Z.of_nat j)) <$> seq 0 (Z.to_nat (num_bufs p)).

Definition all_bufs (c : ipc_managed_channel) : list Z := concat (pool_bufs <$> active_pools c).

(** The buffer a descriptor of the channel names. *)
Definition bd_buf (c : ipc_managed_channel) (bd : ipc_shm_bd) : Z :=
  match nthZ (pools c) (bd_pool_id bd) with
  | Some p => local_buf p (bd_buf_id bd)
  | None => NULL
  end.

(** [bd] names a buffer of [p], pool number [k]. *)
Definition bd_names (k : nat) (p : ipc_shm_pool) (bd : ipc_shm_bd) : Prop :=
  bd_ok bd /\ bd_pool_id bd = Z.of_nat k /\ 0 <= bd_buf_id bd < num_bufs p.

Lemma elem_of_pool_bufs p a :
  a ∈ pool_bufs p <-> exists j, 0 <= j < num_bufs p /\ a = local_buf p j.
Proof.
  unfold pool_bufs. rewrite list_elem_of_fmap. split.
  - intros (j & -> & Hj). apply elem_of_seq in Hj. exists (Z.of_nat j); split; [lia | reflexivity].
  - intros (j & Hj & ->). exists (Z.to_nat j).
    rewrite Z2Nat.id, elem_of_seq by lia. split; [reflexivity | lia].
Qed.

Lemma elem_of_all_bufs c a :
  a ∈ all_bufs c <-> exists (k : nat) p j, active_pools c !! k = Some p /\
    0 <= j < num_bufs p /\ a = local_buf p j.
Proof.
  unfold all_bufs. rewrite list_elem_of_In, in_concat. split.
  - intros (l & Hl & Ha). apply list_elem_of_In in Hl; apply list_elem_of_In in Ha.
    apply list_elem_of_fmap in Hl as (p & -> & Hp). apply list_elem_of_lookup in Hp as [k Hk].
    apply elem_of_pool_bufs in Ha as (j & Hj & ->). eauto 6.
  - intros (k & p & j & Hk & Hj & ->). exists (pool_bufs p). split; apply list_elem_of_In.
    + apply list_elem_of_fmap. exists p; split; [reflexivity |].
      eapply list_elem_of_lookup_2; eauto.
    + apply elem_of_pool_bufs; eauto.
Qed.

Lemma bd_buf_names m c k p bd :
  mchan_wf m c -> active_pools c !! k = Some p -> bd_names k p bd ->
  bd_buf c bd = local_buf p (bd_buf_id bd) /\ bd_buf c bd ∈ pool_bufs p /\ bd_buf c bd ∈ all_bufs c.
Proof.
  intros Hc Hk (_ & Hid & Hj).
  assert (E : bd_buf c bd = local_buf p (bd_buf_id bd)).
  { unfold bd_buf. rewrite Hid, nthZ_nat.
    unfold active_pools in Hk. apply lookup_take_Some in Hk as [-> _]. reflexivity. }
  rewrite E. split_and!; auto; [apply elem_of_pool_bufs; eauto |].
  apply elem_of_all_bufs; eauto 6.
Qed.

Lemma pool_bufs_NoDup m p : pool_wf m p -> NoDup (pool_bufs p).
Proof.
  intros Hw. unfold pool_bufs. apply NoDup_fmap_2_strong; [| apply NoDup_seq].
  intros x y _ _ E. unfold local_buf in E. assert (Hz := pw_size _ _ Hw). nia.
Qed.

Lemma all_bufs_NoDup m c :
  mchan_wf m c -> pools_apart local_pool_addr (active_pools c) -> NoDup (all_bufs c).
Proof.
  intros Hc. assert (Hw := mw_pools _ _ Hc). unfold all_bufs. clear Hc.
  induction Hw as [|p ps Hp Hps IH]; intros Ha; cbn [fmap list_fmap concat]; [constructor |].
  apply NoDup_app. split_and!.
  - eapply pool_bufs_NoDup; eauto.
  - intros x Hx Hy. apply elem_of_pool_bufs in Hx as (j & Hj & ->).
    rewrite list_elem_of_In, in_concat in Hy. destruct Hy as (l & Hl & Hx).
    apply list_elem_of_In in Hl; apply list_elem_of_In in Hx.
    apply list_elem_of_fmap in Hl as (q & -> & Hq). apply list_elem_of_lookup in Hq as [k Hk].
    apply elem_of_pool_bufs in Hx as (j' & Hj' & E).
    assert (Hw := proj1 (Forall_lookup _ _) Hps _ _ Hk).
    assert (Hz := pw_size _ _ Hp). assert (Hz' := pw_size _ _ Hw).
    unfold local_buf in E.
    destruct (Ha 0%nat (S k) p q eq_refl Hk ltac:(lia)); nia.
  - apply IH. intros i j q r Hq Hr Hij. apply (Ha (S i) (S j) q r Hq Hr). lia.
Qed.

(** ** Lists of lists *)

Lemma concat_insert_perm {A} (ls : list (list A)) k l g :
  ls !! k = Some l ->
  exists rest, concat ls ≡ₚ l ++ rest /\ concat (<[k := g]> ls) ≡ₚ g ++ rest.
Proof.
  intros Hk. exists (concat (take k ls) ++ concat (drop (S k) ls)).
  assert (Hl := lookup_lt_Some _ _ _ Hk).
  split.
  - rewrite <- (take_drop_middle ls k l Hk) at 1. rewrite concat_app. cbn [concat].
    rewrite !app_assoc. now rewrite (Permutation_app_comm (concat _) l).
  - rewrite insert_take_drop by exact Hl. rewrite concat_app. cbn [concat].
    rewrite !app_assoc. now rewrite (Permutation_app_comm (concat _) g).
Qed.

(** ** Frames *)

(** A change inside the rings of pool [k]'s queue that keeps that queue in
    order keeps the channel in order and every other queue as it is. *)
Lemma mchan_frame_pool F m m' c (k : nat) p :
  mchan_wf m c -> chan_sep c -> active_pools c !! k = Some p ->
  same_except F m m' -> (forall x, F x -> in_rings (pool_bd_queue p) x) ->
  queue_wf m' (pool_bd_queue p) ->
  mchan_wf m' c /\ contents m' (tx_link (bd_queue c)) = contents m (tx_link (bd_queue c)) /\
  (forall (i : nat) q, i <> k -> active_pools c !! i = Some q ->
     contents m' (rx_link (pool_bd_queue q)) = contents m (rx_link (pool_bd_queue q))).
Proof.
  intros Hc [Hbd Hps] Hk HF Hin Hq.
  assert (Hp := mw_pools _ _ Hc).
  destruct (queue_frame F m m' (bd_queue c) HF (mw_queue _ _ Hc)) as (Wb & Cb & _).
  { intros x Hx Fx. apply (proj1 (Forall_lookup _ _) Hbd _ _ Hk x Hx), Hin, Fx. }
  assert (Hothers : forall (i : nat) q, i <> k -> active_pools c !! i = Some q ->
    queue_wf m' (pool_bd_queue q) /\
    contents m' (rx_link (pool_bd_queue q)) = contents m (rx_link (pool_bd_queue q))).
  { intros i q Hi Hq'. assert (Wq := proj1 (Forall_lookup _ _) Hp _ _ Hq').
    destruct (queue_frame F m m' (pool_bd_queue q) HF (pw_queue _ _ Wq)) as (W & _ & C); auto.
    intros x Hx Fx. apply (Hps i k q p Hq' Hk Hi x Hx), Hin, Fx. }
  split_and!; [| exact Cb | intros i q Hi Hl; exact (proj2 (Hothers i q Hi Hl))].
  destruct Hc; constructor; auto. apply Forall_lookup. intros i q Hq'.
  assert (Wq := proj1 (Forall_lookup _ _) Hp _ _ Hq').
  assert (queue_wf m' (pool_bd_queue q)).
  { destruct (decide (i = k)) as [-> | Hne]; [congruence | exact (proj1 (Hothers i q Hne Hq'))]. }
  destruct Wq; constructor; auto.
Qed.

(** ** The invariant *)

Definition pool_holds (m : memory) (k : nat) (p : ipc_shm_pool) (f : list ipc_shm_bd) : Prop :=
  contents m (rx_link (pool_bd_queue p)) = bd_encode <$> f /\ Forall (bd_names k p) f.

(** Free descriptors per pool, descriptors in flight, and the buffers held by
    the two applications make up all buffers, each once. *)
Record owned (c : ipc_managed_channel) (m : memory) (oA oB : list Z)
    (free : list (list ipc_shm_bd)) (fly : list ipc_shm_bd) : Prop := {
  ow_wf : mchan_wf m c;
  ow_len : length free = length (active_pools c);
  ow_free : forall (k : nat) p f, active_pools c !! k = Some p -> free !! k = Some f ->
              pool_holds m k p f;
  ow_fly : contents m (tx_link (bd_queue c)) = bd_encode <$> fly;
  ow_fly_ok : Forall (fun bd => exists (k : nat) p, active_pools c !! k = Some p /\
                                  bd_names k p bd) fly;
  ow_all : all_bufs c ≡ₚ (bd_buf c <$> concat free) ++ (bd_buf c <$> fly) ++ oA ++ oB
}.

Lemma owned_free_lookup c m oA oB free fly (k : nat) p :
  owned c m oA oB free fly -> active_pools c !! k = Some p ->
  exists f, free !! k = Some f /\ pool_holds m k p f.
Proof.
  intros Ho Hk. destruct (lookup_lt_is_Some_2 free k) as [f Hf].
  { rewrite (ow_len _ _ _ _ _ _ Ho). eapply lookup_lt_Some; eauto. }
  exists f; split; [exact Hf |]. eapply ow_free; eauto.
Qed.

Lemma owned_NoDup c m oA oB free fly :
  owned c m oA oB free fly -> pools_apart local_pool_addr (active_pools c) ->
  NoDup ((bd_buf c <$> concat free) ++ (bd_buf c <$> fly) ++ oA ++ oB).
Proof.
  intros Ho Ha. rewrite <- (ow_all _ _ _ _ _ _ Ho). eapply all_bufs_NoDup; eauto. apply Ho.
Qed.

(** A list of distinct elements of another is no longer. *)
Lemma NoDup_subset_length (l l' : list Z) :
  NoDup l -> (forall x, x ∈ l -> x ∈ l') -> (length l <= length l')%nat.
Proof.
  intros Hn Hi. apply submseteq_length, NoDup_submseteq; auto.
Qed.

(** Room in the channel queue while the sender holds a buffer. *)
Lemma owned_fly_room c m oA oB free fly a :
  owned c m oA oB free fly -> pools_apart local_pool_addr (active_pools c) -> a ∈ oA ->
  (length fly < length (all_bufs c))%nat.
Proof.
  intros Ho Ha Hin.
  assert (H : (length ((bd_buf c <$> fly) ++ [a]) <= length (all_bufs c))%nat).
  { apply NoDup_subset_length.
    - assert (Hn := owned_NoDup _ _ _ _ _ _ Ho Ha).
      apply NoDup_app in Hn as (_ & _ & Hn). apply NoDup_app in Hn as (N1 & N2 & _).
      apply NoDup_app. split_and!; auto; [| apply NoDup_singleton].
      intros x Hx Hy. apply list_elem_of_singleton in Hy as ->. apply (N2 a Hx).
      apply elem_of_app; auto.
    - intros x Hx. rewrite (ow_all _ _ _ _ _ _ Ho). rewrite !elem_of_app in *.
      destruct Hx as [Hx | Hx]; [tauto |]. apply list_elem_of_singleton in Hx as ->. tauto. }
  rewrite length_app, length_fmap in H. cbn [length] in H. lia.
Qed.

(** Room in pool [k]'s queue while one of its buffers is not there. *)
Lemma pool_room c free rest (k : nat) p f b :
  all_bufs c ≡ₚ (bd_buf c <$> concat free) ++ rest -> NoDup (all_bufs c) ->
  free !! k = Some f -> (forall bd, bd ∈ f -> bd_buf c bd ∈ pool_bufs p) ->
  b ∈ rest -> b ∈ pool_bufs p -> (length f < Z.to_nat (num_bufs p))%nat.
Proof.
  intros Hall Hn Hf Hnames Hin Hb.
  assert (H : (length ((bd_buf c <$> f) ++ [b]) <= length (pool_bufs p))%nat).
  { destruct (concat_insert_perm free k f [] Hf) as (others & Hp & _).
    apply NoDup_subset_length.
    - rewrite Hall, Hp, fmap_app, <- app_assoc in Hn. apply NoDup_app in Hn as (N1 & N2 & _).
      apply NoDup_app. split_and!; auto; [| apply NoDup_singleton].
      intros x Hx Hy. apply list_elem_of_singleton in Hy as ->. apply (N2 _ Hx). rewrite elem_of_app; auto.
    - intros x Hx. apply elem_of_app in Hx as [Hx | Hx].
      + apply list_elem_of_fmap in Hx as (bd & -> & Hbd). auto.
      + now apply list_elem_of_singleton in Hx as ->. }
  rewrite length_app, length_fmap in H. unfold pool_bufs in H.
  rewrite length_fmap, length_seq in H. cbn [length] in H. lia.
Qed.

Lemma owned_pool_room c m oA oB free fly (k : nat) p f j :
  owned c m oA oB free fly -> pools_apart local_pool_addr (active_pools c) ->
  active_pools c !! k = Some p -> free !! k = Some f -> 0 <= j < num_bufs p ->
  local_buf p j ∈ oB -> (length f < Z.to_nat (num_bufs p))%nat.
Proof.
  intros Ho Ha Hk Hf Hj Hin. destruct (ow_free _ _ _ _ _ _ Ho _ _ _ Hk Hf) as [_ Hnames].
  apply (pool_room c free ((bd_buf c <$> fly) ++ oA ++ oB) k p f (local_buf p j)); auto.
  - apply Ho.
  - eapply all_bufs_NoDup; [apply Ho | exact Ha].
  - intros bd Hbd. rewrite Forall_forall in Hnames.
    apply (bd_buf_names m c k p bd (ow_wf _ _ _ _ _ _ Ho) Hk (Hnames _ Hbd)).
  - rewrite !elem_of_app. auto.
  - apply elem_of_pool_bufs. eauto.
Qed.

(** ** Effect of each operation on the invariant *)

(** Pool [k] gives up its first free descriptor. *)
Lemma owned_acquire c m m' oA oB free fly (k : nat) p bd f :
  owned c m oA oB free fly -> chan_sep c -> active_pools c !! k = Some p ->
  free !! k = Some (bd :: f) ->
  contents m' (rx_link (pool_bd_queue p)) = bd_encode <$> f ->
  queue_wf m' (pool_bd_queue p) ->
  same_except (range (push_ring (pool_bd_queue p) + RING_READ) 4) m m' ->
  owned c m' (bd_buf c bd :: oA) oB (<[k := f]> free) fly.
Proof.
  intros Ho Hs Hk Hf Hcont Hq HF. destruct Ho as [Hw Hl Hfree Hfly Hok Hall].
  assert (Hwp := proj1 (Forall_lookup _ _) (mw_pools _ _ Hw) _ _ Hk).
  destruct (mchan_frame_pool _ m m' c k p Hw Hs Hk HF) as (Hw' & Hb & Hoth); auto.
  { intros x. now apply (pop_footprint_in_rings m), Hwp. }
  constructor; auto.
  - now rewrite length_insert.
  - intros i q g Hi Hg. apply list_lookup_insert_Some in Hg as [(-> & -> & _) | [Hne Hg]].
    + rewrite Hk in Hi; inversion Hi; subst q. split; [exact Hcont |].
      destruct (Hfree _ _ _ Hk Hf) as [_ Hn]. now inversion Hn.
    + destruct (Hfree _ _ _ Hi Hg) as [Hc' Hn]. split; [| exact Hn].
      rewrite (Hoth i q); auto.
  - now rewrite Hb.
  - destruct (concat_insert_perm free k (bd :: f) f Hf) as (rest & P1 & P2).
    rewrite Hall, P1, P2, !fmap_app. cbn [fmap list_fmap app].
    now rewrite !app_assoc, <- Permutation_middle, <- !app_assoc.
Qed.

(** A buffer comes back to pool [k]. *)
Lemma owned_release c m m' oA oB1 oB2 free fly (k : nat) p f j :
  owned c m oA (oB1 ++ local_buf p j :: oB2) free fly -> chan_sep c ->
  active_pools c !! k = Some p -> free !! k = Some f -> bd_ok (BD (Z.of_nat k) j 0) ->
  0 <= j < num_bufs p ->
  contents m' (rx_link (pool_bd_queue p))
    = contents m (rx_link (pool_bd_queue p)) ++ [bd_encode (BD (Z.of_nat k) j 0)] ->
  queue_wf m' (pool_bd_queue p) ->
  same_except (push_footprint m (rx_link (pool_bd_queue p))) m m' ->
  owned c m' oA (oB1 ++ oB2) (<[k := f ++ [BD (Z.of_nat k) j 0]]> free) fly.
Proof.
  intros Ho Hs Hk Hf Hbd Hj Hcont Hq HF. destruct Ho as [Hw Hl Hfree Hfly Hok Hall].
  assert (Hwp := proj1 (Forall_lookup _ _) (mw_pools _ _ Hw) _ _ Hk).
  destruct (mchan_frame_pool _ m m' c k p Hw Hs Hk HF) as (Hw' & Hb & Hoth); auto.
  { intros x Hx. apply (push_footprint_in_rings m (mirror (pool_bd_queue p))) in Hx.
    - destruct Hx; [right | left]; assumption.
    - apply queue_wf_mirror, Hwp. }
  destruct (Hfree _ _ _ Hk Hf) as [Hc Hn].
  assert (Hname : bd_names k p (BD (Z.of_nat k) j 0)) by exact (conj Hbd (conj eq_refl Hj)).
  constructor; auto.
  - now rewrite length_insert.
  - intros i q g Hi Hg. apply list_lookup_insert_Some in Hg as [(-> & <- & _) | [Hne Hg]].
    + rewrite Hk in Hi; inversion Hi; subst q. split.
      * now rewrite Hcont, Hc, fmap_app.
      * apply Forall_app; auto.
    + destruct (Hfree _ _ _ Hi Hg) as [Hc' Hn']. split; [| exact Hn'].
      rewrite (Hoth i q); auto.
  - now rewrite Hb.
  - destruct (concat_insert_perm free k f (f ++ [BD (Z.of_nat k) j 0]) Hf) as (rest & P1 & P2).
    rewrite Hall, P1, P2, !fmap_app. cbn [fmap list_fmap].
    destruct (bd_buf_names m c k p _ Hw Hk Hname) as (-> & _). cbn [bd_buf_id].
    rewrite <- !app_assoc. apply Permutation_app_head. cbn [app].
    rewrite <- Permutation_middle. now rewrite !app_assoc, <- Permutation_middle, <- !app_assoc.
Qed.

(** A buffer of the sender goes into flight. *)
Lemma owned_tx c m m' oA1 oA2 oB free fly (k : nat) p j size :
  owned c m (oA1 ++ local_buf p j :: oA2) oB free fly -> chan_sep c ->
  active_pools c !! k = Some p -> bd_ok (BD (Z.of_nat k) j size) -> 0 <= j < num_bufs p ->
  contents m' (tx_link (bd_queue c))
    = contents m (tx_link (bd_queue c)) ++ [bd_encode (BD (Z.of_nat k) j size)] ->
  queue_wf m' (bd_queue c) ->
  same_except (push_footprint m (tx_link (bd_queue c))) m m' ->
  owned c m' (oA1 ++ oA2) oB free (fly ++ [BD (Z.of_nat k) j size]).
Proof.
  intros Ho Hs Hk Hbd Hj Hcont Hq HF. destruct Ho as [Hw Hl Hfree Hfly Hok Hall].
  destruct (mchan_frame_bd _ m m' c Hw Hs HF) as (Hw' & Hoth); auto.
  { intros x. apply (push_footprint_in_rings m), Hw. }
  assert (Hname : bd_names k p (BD (Z.of_nat k) j size)) by exact (conj Hbd (conj eq_refl Hj)).
  constructor; auto.
  - intros i q g Hi Hg. destruct (Hfree _ _ _ Hi Hg) as [Hc' Hn']. split; [| exact Hn'].
    destruct (proj1 (Forall_lookup _ _) Hoth _ _ Hi) as [-> _]. exact Hc'.
  - now rewrite Hcont, Hfly, fmap_app.
  - apply Forall_app; split; [exact Hok |]. repeat constructor; eauto.
  - rewrite Hall, fmap_app. cbn [fmap list_fmap].
    destruct (bd_buf_names m c k p _ Hw Hk Hname) as (-> & _). cbn [bd_buf_id].
    rewrite <- !app_assoc. do 2 apply Permutation_app_head. cbn [app].
    now rewrite <- Permutation_middle.
Qed.

(** The receiver takes the first descriptor in flight. *)
Lemma owned_rx c m m' oA oB free bd fly :
  owned c m oA oB free (bd :: fly) -> chan_sep c ->
  contents m' (tx_link (bd_queue c)) = bd_encode <$> fly ->
  queue_wf m' (bd_queue c) ->
  same_except (range (pop_ring (bd_queue c) + RING_READ) 4) m m' ->
  owned c m' oA (bd_buf c bd :: oB) free fly.
Proof.
  intros Ho Hs Hcont Hq HF. destruct Ho as [Hw Hl Hfree Hfly Hok Hall].
  destruct (mchan_frame_bd _ m m' c Hw Hs HF) as (Hw' & Hoth); auto.
  { intros x Hx. apply (pop_footprint_in_rings m (mirror (bd_queue c))) in Hx.
    - destruct Hx; [right | left]; assumption.
    - apply queue_wf_mirror, Hw. }
  inversion Hok; subst. constructor; auto.
  - intros i q g Hi Hg. destruct (Hfree _ _ _ Hi Hg) as [Hc' Hn']. split; [| exact Hn'].
    destruct (proj1 (Forall_lookup _ _) Hoth _ _ Hi) as [-> _]. exact Hc'.
  - rewrite Hall. cbn [fmap list_fmap]. apply Permutation_app_head. cbn [app].
    now rewrite !app_assoc, <- Permutation_middle.
Qed.

(** ** The peer's view of the channel *)

Lemma queue_wf_unmirror m q : queue_wf m (mirror q) -> queue_wf m q.
Proof. intros H. apply queue_wf_mirror in H. now destruct q. Qed.

Lemma peer_active c d : peer_chan c d -> Forall2 peer_pool (active_pools c) (active_pools d).
Proof.
  intros [_ En HF]. unfold active_pools. rewrite En. now apply Forall2_take.
Qed.

Lemma peer_wf m c d : mchan_wf m c -> peer_chan c d -> mchan_wf m d.
Proof.
  intros Hc Hp. assert (HF := peer_active _ _ Hp). assert (Hw := mw_pools _ _ Hc).
  destruct Hc, Hp as [Eq En HF']. constructor; try (rewrite ?Eq, ?En; auto).
  - now rewrite <- (Forall2_length _ _ _ HF').
  - now apply queue_wf_mirror.
  - apply Forall_lookup. intros k q Hq.
    destruct (Forall2_lookup_r _ _ _ _ _ HF Hq) as (p & Hk & [En' Es Et Er Eqq]).
    destruct (proj1 (Forall_lookup _ _) Hw _ _ Hk).
    constructor; rewrite ?En', ?Es, ?Et, ?Er, ?Eqq; auto.
    now apply queue_wf_mirror.
Qed.

Lemma peer_apart c d :
  peer_chan c d -> pools_apart local_pool_addr (active_pools c) ->
  pools_apart remote_pool_addr (active_pools d).
Proof.
  intros Hp Ha i j q r Hq Hr Hij. assert (HF := peer_active _ _ Hp).
  destruct (Forall2_lookup_r _ _ _ _ _ HF Hq) as (q' & Hq' & [-> -> -> _ _]).
  destruct (Forall2_lookup_r _ _ _ _ _ HF Hr) as (r' & Hr' & [-> -> -> _ _]).
  eauto.
Qed.

(** ** Driver calls of the two ends *)

(** No pool has a large enough free buffer, or there is a first one that has. *)
Lemma first_fit m sz ps :
  Forall (fun q => buf_size q < sz \/ contents m (rx_link (pool_bd_queue q)) = []) ps \/
  exists pre p post e rest, ps = pre ++ p :: post /\
    Forall (fun q => buf_size q < sz \/ contents m (rx_link (pool_bd_queue q)) = []) pre /\
    sz <= buf_size p /\ contents m (rx_link (pool_bd_queue p)) = e :: rest.
Proof.
  induction ps as [|q ps [IH | IH]]; [left; constructor | |].
  - destruct (Z.lt_ge_cases (buf_size q) sz); [left; constructor; auto |].
    destruct (contents m (rx_link (pool_bd_queue q))) as [|e rest] eqn:E; [left; constructor; auto |].
    right. exists [], q, ps, e, rest. auto.
  - destruct (Z.lt_ge_cases (buf_size q) sz) as [H | H];
      [| destruct (contents m (rx_link (pool_bd_queue q))) as [|e rest] eqn:E].
    1, 2: right; destruct IH as (pre & p & post & e & rest & -> & Hpre & R);
          exists (q :: pre), p, post, e, rest; split_and!; try apply R; auto.
    right. exists [], q, ps, e, rest. auto.
Qed.

(** ** Two directions

    Each queue of a channel is two rings, one written by each end, and serves both
    directions: the traffic of the buffers of [c] uses what [c] sends on its channel
    queue and what it receives on its pool queues, that of the peer's buffers the
    other half of the same queues. *)

(** The queues that carry the buffers of [c] hold what they held. *)
Record direction_kept (c : ipc_managed_channel) (m m' : memory) : Prop := {
  dk_bd : contents m' (tx_link (bd_queue c)) = contents m (tx_link (bd_queue c));
  dk_pools : Forall (fun p => contents m' (rx_link (pool_bd_queue p))
                              = contents m (rx_link (pool_bd_queue p))) (active_pools c)
}.

Lemma owned_kept c m m' own lent free fly :
  owned c m own lent free fly -> mchan_wf m' c -> direction_kept c m m' ->
  owned c m' own lent free fly.
Proof.
  intros [Hw Hl Hfree Hfly Hok Hall] Hw' [Ht Hp]. constructor; auto; [| now rewrite Ht].
  intros k p f Hk Hf. destruct (Hfree k p f Hk Hf) as [Hc Hn]. split; [| exact Hn].
  now rewrite (proj1 (Forall_lookup _ _) Hp _ _ Hk).
Qed.

(** Pushing writes nothing the other direction reads, and nor does popping. *)
Lemma push_keeps_rx m m' q :
  queue_wf m q -> same_except (push_footprint m (tx_link q)) m m' ->
  contents m' (rx_link q) = contents m (rx_link q).
Proof.
  intros Hq HF. assert (Hp := fun x => push_footprint_ring m (tx_link q) x (qw_tx _ _ Hq)).
  apply (link_unchanged _ m m' (rx_link q) HF (qw_rx _ _ Hq));
    intros x Hx Px; apply Hp in Px; ring_facts Hq; range_lia.
Qed.

Lemma pop_keeps_tx m m' q :
  queue_wf m q -> same_except (range (push_ring q + RING_READ) 4) m m' ->
  contents m' (tx_link q) = contents m (tx_link q).
Proof.
  intros Hq HF. apply (link_unchanged _ m m' (tx_link q) HF (qw_tx _ _ Hq));
    intros x Hx Px; ring_facts Hq; range_lia.
Qed.

(** The peer's direction, in terms of the channel of this end. *)
Lemma peer_direction c d m m' :
  peer_chan c d -> contents m' (rx_link (bd_queue c)) = contents m (rx_link (bd_queue c)) ->
  Forall (fun p => contents m' (tx_link (pool_bd_queue p)) = contents m (tx_link (pool_bd_queue p)))
    (active_pools c) ->
  direction_kept d m m'.
Proof.
  intros Hp Hb Hps. assert (HF := peer_active _ _ Hp). constructor; [now rewrite (pc_queue _ _ Hp) |].
  apply Forall_lookup. intros k q Hq.
  destruct (Forall2_lookup_r _ _ _ _ _ HF Hq) as (p & Hk & [_ _ _ _ ->]).
  exact (proj1 (Forall_lookup _ _) Hps _ _ Hk).
Qed.

Lemma pool_push_direction c d m m' (k : nat) p F :
  mchan_wf m c -> chan_sep c -> peer_chan c d -> active_pools c !! k = Some p ->
  same_except F m m' -> (forall x, F x -> in_rings (pool_bd_queue p) x) ->
  contents m' (tx_link (pool_bd_queue p)) = contents m (tx_link (pool_bd_queue p)) ->
  direction_kept d m m'.
Proof.
  intros Hc [Hbd Hps] Hpeer Hk HF Hin Ht. apply (peer_direction c); [exact Hpeer | |].
  - apply (queue_frame F m m' (bd_queue c) HF (mw_queue _ _ Hc)).
    intros x Hx Fx. apply (proj1 (Forall_lookup _ _) Hbd _ _ Hk x Hx), Hin, Fx.
  - apply Forall_lookup. intros i q Hq. destruct (decide (i = k)) as [-> | Hne]; [congruence |].
    assert (Wq := proj1 (Forall_lookup _ _) (mw_pools _ _ Hc) _ _ Hq).
    apply (queue_frame F m m' (pool_bd_queue q) HF (pw_queue _ _ Wq)).
    intros x Hx Fx. apply (Hps i k q p Hq Hk Hne x Hx), Hin, Fx.
Qed.

Lemma bd_push_direction c d m m' F :
  mchan_wf m c -> chan_sep c -> peer_chan c d ->
  same_except F m m' -> (forall x, F x -> in_rings (bd_queue c) x) -> queue_wf m' (bd_queue c) ->
  contents m' (rx_link (bd_queue c)) = contents m (rx_link (bd_queue c)) ->
  direction_kept d m m'.
Proof.
  intros Hc Hs Hpeer HF Hin Hq Hb. apply (peer_direction c); [exact Hpeer | exact Hb |].
  destruct (mchan_frame_bd F m m' c Hc Hs HF Hin Hq) as [_ Hp].
  eapply Forall_impl; [exact Hp |]. cbv beta. tauto.
Qed.

(** Stores outside all rings of a channel. *)
Definition clear_of_rings (c : ipc_managed_channel) (F : Z -> Prop) : Prop :=
  forall x, F x -> ~ in_rings (bd_queue c) x /\
    Forall (fun p => ~ in_rings (pool_bd_queue p) x) (active_pools c).

Lemma clear_of_rings_frame c F m m' :
  mchan_wf m c -> clear_of_rings c F -> same_except F m m' -> mchan_wf m' c /\ direction_kept c m m'.
Proof.
  intros Hc Hcl HF.
  destruct (queue_frame F m m' (bd_queue c) HF (mw_queue _ _ Hc)) as (Wb & Cb & _).
  { intros x Hx Fx. now apply (Hcl x Fx). }
  assert (HP : Forall (fun p => pool_wf m' p /\ contents m' (rx_link (pool_bd_queue p))
                 = contents m (rx_link (pool_bd_queue p))) (active_pools c)).
  { assert (Hp := mw_pools _ _ Hc). rewrite Forall_forall in *. intros p Hin. specialize (Hp p Hin).
    destruct (queue_frame F m m' (pool_bd_queue p) HF (pw_queue _ _ Hp)) as (W & _ & C).
    { intros x Hx Fx. destruct (Hcl x Fx) as [_ Hq]. rewrite Forall_forall in Hq. now apply (Hq p Hin). }
    split; [destruct Hp; constructor; auto | exact C]. }
  split; [destruct Hc |]; constructor; auto;
    (eapply Forall_impl; [exact HP |]; cbv beta; tauto).
Qed.

Lemma peer_clear c d F : peer_chan c d -> clear_of_rings c F -> clear_of_rings d F.
Proof.
  intros Hp Hcl x Fx. destruct (Hcl x Fx) as [Hb Hq]. assert (HF := peer_active _ _ Hp). split.
  - rewrite (pc_queue _ _ Hp). intros [H | H]; apply Hb; [right | left]; exact H.
  - apply Forall_lookup. intros k q Hk.
    destruct (Forall2_lookup_r _ _ _ _ _ HF Hk) as (p & Hkp & [_ _ _ _ ->]).
    intros H. apply (proj1 (Forall_lookup _ _) Hq _ _ Hkp). destruct H as [H | H]; [right | left]; exact H.
Qed.

(** ** Accounting *)

(** The channel as the two ends know it; its queue has a slot per buffer. *)
Record setup (chA : Z) (pA : ipc_shm_priv) (c : ipc_managed_channel)
    (chB : Z) (pB : ipc_shm_priv) (d : ipc_managed_channel) : Prop := {
  su_A : has_managed pA chA c;
  su_chA : u8 chA = chA;
  su_B : has_managed pB chB d;
  su_sep : chan_sep c;
  su_apart : pools_apart local_pool_addr (active_pools c);
  su_peer : peer_chan c d;
  su_cap : elem_num (bd_queue c) - 1 = Z.of_nat (length (all_bufs c))
}.

(** Memory, buffers held by the application of A, by the application of B. *)
Definition bstate : Type := memory * list Z * list Z.

Definition accounted (c : ipc_managed_channel) (s : bstate) : Prop :=
  exists free fly, owned c s.1.1 s.1.2 s.2 free fly.

(** What the application of one end holds: buffers of its own pools, which it has
    acquired and not sent, and buffers of the peer's pools, which it has received and
    not released. *)
Definition hands : Type := list Z * list Z.

(** Every buffer of either end is accounted for. *)
Definition conserved (c d : ipc_managed_channel) (m : memory) (hA hB : hands) : Prop :=
  accounted c (m, hA.1, hB.2) /\ accounted d (m, hB.1, hA.2).

Lemma conserved_sym c d m hA hB : conserved c d m hA hB -> conserved d c m hB hA.
Proof. intros [H1 H2]. split; assumption. Qed.

(** The owner of a buffer of the channel. *)
Lemma owned_buf_pool c m own lent free fly a :
  owned c m own lent free fly -> a ∈ own ++ lent ->
  exists (k : nat) q j, active_pools c !! k = Some q /\ 0 <= j < num_bufs q /\ a = local_buf q j /\
    0 <= Z.of_nat k < num_pools c /\ nthZ (pools c) (Z.of_nat k) = Some q /\
    (forall size, 0 <= size < 4294967296 -> bd_ok (BD (Z.of_nat k) j size)).
Proof.
  intros Ho Hin. assert (Ha : a ∈ all_bufs c).
  { rewrite (ow_all _ _ _ _ _ _ Ho), !app_assoc, <- app_assoc. apply elem_of_app; auto. }
  apply elem_of_all_bufs in Ha as (k & q & j & Hk & Hj & ->).
  assert (Hw := ow_wf _ _ _ _ _ _ Ho). assert (Hl := lookup_lt_Some _ _ _ Hk).
  rewrite (active_length _ _ Hw) in Hl. assert (Hn := mw_num _ _ Hw).
  assert (Hwq := proj1 (Forall_lookup _ _) (mw_pools _ _ Hw) _ _ Hk).
  assert (Hb := pw_num _ _ Hwq). unfold IPC_SHM_MAX_POOLS, IPC_SHM_MAX_BUFS_PER_POOL in *.
  exists k, q, j. split_and!; auto; try lia.
  - rewrite active_lookup by lia. now rewrite Nat2Z.id.
  - intros size Hs. unfold bd_ok. cbn. lia.
Qed.

(** ** Calls of one end *)

Section Calls.
Context {P : Type} `{PL : Platform P} `{LW : !PlatformLaws P} `{AP : App P}.
Context (i ch : Z) (p : ipc_shm_priv) (c : ipc_managed_channel).
Implicit Types (w : world P).

(** The end is in operation, the buffers of both ends are where its checks expect
    them, and the state words of the two ends are not inside the channel's rings. *)
Record side (w : world P) : Prop := {
  sd_op : operational w i p;
  sd_local : Forall (fun q => pool_inside (local_base i (w_plat w)) (p_shm_size p)
                                (local_pool_addr q) q) (active_pools c);
  sd_remote : Forall (fun q => pool_inside (remote_base i (w_plat w)) (p_shm_size p)
                                 (remote_pool_addr q) q) (active_pools c);
  sd_global : clear_of_rings c (range (p_global p) 8);
  sd_word : clear_of_rings c (range (remote_base i (w_plat w)) 8)
}.

(** What an application does with the driver and with memory: it acquires buffers,
    sends those it holds, releases those it received, and stores outside the rings
    of the channel (into the buffers it holds, say).  What it holds afterwards
    depends on what the call returned. *)
Inductive app_step : memory * hands -> memory * hands -> Prop :=
| as_acquire w sz a w' own lent :
    side w -> ipc_shm_acquire_buf i ch sz w = Ret a w' ->
    app_step (w_mem w, (own, lent)) (w_mem w', (if a =? NULL then own else a :: own, lent))
| as_tx w a size e w' own1 own2 lent :
    side w -> 0 < size < 4294967296 -> ipc_shm_tx i ch a size w = Ret e w' ->
    app_step (w_mem w, (own1 ++ a :: own2, lent))
      (w_mem w', (if e =? 0 then own1 ++ own2 else own1 ++ a :: own2, lent))
| as_release w a e w' own lent1 lent2 :
    used w i p -> ipc_shm_release_buf i ch a w = Ret e w' ->
    app_step (w_mem w, (own, lent1 ++ a :: lent2))
      (w_mem w', (own, if e =? 0 then lent1 ++ lent2 else lent1 ++ a :: lent2))
| as_store F m m' h :
    clear_of_rings c F -> same_except F m m' -> app_step (m, h) (m', h).

(** The application notes what it holds in its state: [notes]. *)
Context (notes : P -> hands).

(** The receive callback: given a buffer in a state that [fits], with that buffer
    added to what the application holds, it returns, and what it did in between are
    steps of the application (it may keep the buffer, release it, or send others). *)
Definition cb_handles (fits : memory -> hands -> Prop) : Prop :=
  forall w buf size own lent k,
    side w -> nthZ (p_channels p) ch = Some k -> notes (w_plat w) = (own, lent) ->
    fits (w_mem w) (own, buf :: lent) ->
    exists w', call_managed_cb (m_rx_cb c) (m_cb_arg c) i (ch_id k) buf size w = Ret tt w' /\
      side w' /\ rtc app_step (w_mem w, (own, buf :: lent)) (w_mem w', notes (w_plat w')).

(** A step of one end: a step of its application, or the driver receives, calling
    the application back for every message. *)
Inductive end_step : memory * hands -> memory * hands -> Prop :=
| es_app s s' : app_step s s' -> end_step s s'
| es_rx w budget n w' :
    side w -> 0 <= budget -> ipc_channel_rx i ch budget w = Ret n w' ->
    end_step (w_mem w, notes (w_plat w)) (w_mem w', notes (w_plat w')).

End Calls.

Section Steps.
Context {P : Type} `{PL : Platform P} `{LW : !PlatformLaws P} `{AP : App P}.
Context (i ch : Z) (p : ipc_shm_priv) (c : ipc_managed_channel).
Context (ch' : Z) (p' : ipc_shm_priv) (d : ipc_managed_channel).
Context (SU : setup ch p c ch' p' d) (SU' : setup ch' p' d ch p c).
Implicit Types (w : world P).

(** ** Each call *)

Lemma acquire_none w sz : forall ps,
  Forall (pool_wf (w_mem w)) ps ->
  Forall (fun q => buf_size q < sz \/ contents (w_mem w) (rx_link (pool_bd_queue q)) = []) ps ->
  acquire_from_pools ps sz w = Ret None w.
Proof.
  induction ps as [|q ps IH]; intros Hw Hs; [reflexivity |].
  inversion Hw; inversion Hs as [|? ? Hq Hps]; subst. cbn [acquire_from_pools].
  destruct (Z.ltb_spec (buf_size q) sz); [auto |].
  destruct Hq as [Hq | Hq]; [lia |].
  erewrite cbind_Ret by (apply pop_empty_eval; [apply pw_queue; eassumption | exact Hq]).
  cbn [fst Z.eqb]. auto.
Qed.

Lemma acquire_keeps w own lent free fly sz a w' :
  side i p c w -> owned c (w_mem w) own lent free fly ->
  ipc_shm_acquire_buf i ch sz w = Ret a w' ->
  (exists free', owned c (w_mem w') (if a =? NULL then own else a :: own) lent free' fly) /\
  direction_kept d (w_mem w) (w_mem w').
Proof.
  intros Hsd Ho E. assert (Hop := sd_op _ _ _ _ Hsd). assert (Hw := ow_wf _ _ _ _ _ _ Ho). assert (E0 := E).
  assert (Hsame : Ret NULL w = Ret a w' -> (exists free', owned c (w_mem w')
    (if a =? NULL then own else a :: own) lent free' fly) /\ direction_kept d (w_mem w) (w_mem w')).
  { intros [= <- <-]. split; [eauto |]. constructor; [reflexivity |]. now apply Forall_true. }
  rewrite (ipc_shm_acquire_buf_ready _ _ _ _ _ _ Hop (su_A _ _ _ _ _ _ SU) Hw) in E.
  destruct (Z.eqb_spec sz 0) as [-> | Hsz]; [auto |].
  destruct (first_fit (w_mem w) sz (active_pools c))
    as [Hnone | (pre & q & post & e & rest & Hps & Hpre & Hfit & Hcont)].
  - rewrite (cbind_Ret _ _ _ _ _ (acquire_none _ _ _ (mw_pools _ _ Hw) Hnone)) in E.
    auto.
  - assert (Hk : active_pools c !! length pre = Some q)
      by (rewrite Hps; now apply list_lookup_middle).
    assert (Hwq := proj1 (Forall_lookup _ _) (mw_pools _ _ Hw) _ _ Hk).
    destruct (owned_free_lookup _ _ _ _ _ _ _ _ Ho Hk) as (f & Hf & Hh & Hnames).
    rewrite Hcont in Hh. destruct f as [|bd f]; [discriminate |].
    injection Hh as He Hrest. inversion Hnames as [|? ? Hbd Hbds]; subst.
    destruct (ipc_shm_acquire_buf_eval w i ch p c sz bd (bd_encode <$> f) pre q post)
      as (m' & E' & R1 & R2 & R3); auto; try apply Hbd; try apply SU.
    { exact (proj1 (Forall_lookup _ _) (sd_local _ _ _ _ Hsd) _ _ Hk). }
    rewrite E' in E0. inversion E0; subst. split.
    + assert (Hnn : (local_buf q (bd_buf_id bd) =? NULL) = false).
      { apply Z.eqb_neq. destruct Hbd as (_ & _ & Hj). assert (Hz := pw_size _ _ Hwq).
        assert (Hl := pw_local _ _ Hwq). unfold local_buf, NULL. nia. }
      rewrite Hnn. destruct (bd_buf_names _ _ _ _ _ Hw Hk Hbd) as (<- & _).
      eexists. eapply owned_acquire; eauto. apply SU.
    + apply (pool_push_direction c d _ _ _ q _ Hw (su_sep _ _ _ _ _ _ SU) (su_peer _ _ _ _ _ _ SU) Hk R3).
      * intros x. now apply (pop_footprint_in_rings (w_mem w)), Hwq.
      * apply pop_keeps_tx; [apply Hwq | exact R3].
Qed.

Lemma tx_keeps w own1 a own2 lent free fly size :
  side i p c w -> owned c (w_mem w) (own1 ++ a :: own2) lent free fly -> 0 < size < 4294967296 ->
  exists w' fly', ipc_shm_tx i ch a size w = Ret 0 w' /\
    owned c (w_mem w') (own1 ++ own2) lent free fly' /\ direction_kept d (w_mem w) (w_mem w').
Proof.
  intros Hsd Ho Hs. assert (Hw := ow_wf _ _ _ _ _ _ Ho).
  assert (Hin : a ∈ own1 ++ a :: own2) by (rewrite elem_of_app, elem_of_cons; auto).
  destruct (owned_buf_pool _ _ _ _ _ _ a Ho) as (k & q & j & Hk & Hj & -> & Hkr & Hp & Hbd).
  { rewrite elem_of_app; auto. }
  assert (Hroom := owned_fly_room _ _ _ _ _ _ _ Ho (su_apart _ _ _ _ _ _ SU) Hin).
  destruct (ipc_shm_tx_room w i ch p c (Z.of_nat k) j q size)
    as (w' & E & _ & C & W & F & _); auto; try lia; try apply SU.
  - apply Hsd.
  - rewrite (su_chA _ _ _ _ _ _ SU). apply SU.
  - rewrite (ow_fly _ _ _ _ _ _ Ho), length_fmap, (su_cap _ _ _ _ _ _ SU). lia.
  - exists w'. eexists; split; [exact E |]. split.
    + eapply owned_tx; eauto; [apply SU | apply Hbd; lia].
    + eapply (bd_push_direction c d); [exact Hw | apply SU | apply SU | exact F | | exact W |].
      * intros x. apply (push_footprint_in_rings (w_mem w)), Hw.
      * apply push_keeps_rx; [apply Hw | exact F].
Qed.

(** The buffers this end holds of the peer's pools go back. *)
Lemma release_keeps w held lent1 a lent2 free fly :
  used w i p -> owned d (w_mem w) held (lent1 ++ a :: lent2) free fly ->
  exists w' free', ipc_shm_release_buf i ch a w = Ret 0 w' /\
    owned d (w_mem w') held (lent1 ++ lent2) free' fly /\ direction_kept c (w_mem w) (w_mem w').
Proof.
  intros Hu Ho. assert (Hw := ow_wf _ _ _ _ _ _ Ho).
  assert (Hin : a ∈ lent1 ++ a :: lent2) by (rewrite elem_of_app, elem_of_cons; auto).
  destruct (owned_buf_pool _ _ _ _ _ _ a Ho) as (k & r & j & Hk & Hj & -> & Hkr & Hp & Hbd).
  { rewrite elem_of_app; auto. }
  destruct (owned_free_lookup _ _ _ _ _ _ _ _ Ho Hk) as (f & Hf & Hcont & _).
  assert (Hroom := owned_pool_room _ _ _ _ _ _ _ _ _ _ Ho (su_apart _ _ _ _ _ _ SU') Hk Hf Hj Hin).
  destruct (peer_chan_pool _ _ _ _ (su_peer _ _ _ _ _ _ SU') Hp) as (q & Hq & [En Es Et Er Eq]).
  assert (Hwr := proj1 (Forall_lookup _ _) (mw_pools _ _ Hw) _ _ Hk).
  assert (E : ipc_shm_release_buf i ch (local_buf r j) w =
    on_mem (ipc_queue_push (Some (pool_bd_queue q)) (Some (bd_encode (BD (Z.of_nat k) j 0)))) w).
  { replace (local_buf r j) with (remote_buf q j)
      by (unfold remote_buf, local_buf; now rewrite Et, Es).
    apply (ipc_shm_release_buf_eval w i ch p c); auto; try apply SU.
    - eapply peer_wf; eauto; apply SU'.
    - eapply peer_apart; apply SU'.
    - now rewrite (pc_num_pools _ _ (su_peer _ _ _ _ _ _ SU')).
    - now rewrite En. }
  assert (Hwq : queue_wf (w_mem w) (pool_bd_queue q)) by (rewrite Eq; apply queue_wf_mirror, Hwr).
  destruct (push_bd_room w (pool_bd_queue q) (BD (Z.of_nat k) j 0)) as (m' & E' & C & K & W & F);
    [exact Hwq | rewrite Eq; apply (pw_elem _ _ Hwr) | |].
  { rewrite Eq. change (tx_link (mirror (pool_bd_queue r))) with (rx_link (pool_bd_queue r)).
    change (elem_num (mirror (pool_bd_queue r))) with (elem_num (pool_bd_queue r)).
    rewrite Hcont, length_fmap, (pw_cap _ _ Hwr). lia. }
  exists (with_mem w m'). eexists. rewrite E. split; [exact E' |]. rewrite Eq in C, K, W, F. split.
  - eapply owned_release; eauto; [apply SU' | apply Hbd; lia | apply queue_wf_unmirror, W].
  - apply (pool_push_direction d c _ _ k r _ Hw (su_sep _ _ _ _ _ _ SU') (su_peer _ _ _ _ _ _ SU') Hk F).
    + intros x Hx. apply (push_footprint_in_rings _ (mirror (pool_bd_queue r))) in Hx.
      * destruct Hx; [right | left]; assumption.
      * apply queue_wf_mirror, Hwr.
    + exact K.
Qed.

(** Receiving one message hands its buffer to the callback. *)
Lemma side_rings F w m' :
  side i p c w -> same_except F (w_mem w) m' -> (forall x, F x -> in_rings (bd_queue c) x) ->
  side i p c (with_mem w m').
Proof.
  intros [[[U1 U2 U3 U4 U5] L M R] Sl Sr Sg Sw] HF Hin. constructor; auto.
  assert (Hg : forall x, range (p_global p) 8 x -> ~ F x).
  { intros x Hx Fx. now apply (Sg x Hx), Hin. }
  assert (Hr : forall x, range (remote_base i (w_plat w)) 8 x -> ~ F x).
  { intros x Hx Fx. now apply (Sw x Hx), Hin. }
  constructor; cbn [with_mem w_mem w_plat].
  - constructor; auto; cbn [with_mem w_mem].
    + now rewrite (same_except_mapped _ _ _ _ _ HF).
    + now rewrite (same_except_uint _ _ _ _ 8 HF Hg).
  - exact (live_with_mem _ _ _ _ L HF).
  - now rewrite (same_except_mapped _ _ _ _ _ HF).
  - now rewrite (same_except_uint _ _ _ _ 8 HF Hr).
Qed.

Lemma rx_one_keeps w k held lent free bd fly :
  side i p c w -> nthZ (p_channels p) ch = Some k -> ch_mng k = c ->
  owned d (w_mem w) held lent free (bd :: fly) ->
  exists m',
    managed_rx_one i ch w =
      (call_managed_cb (m_rx_cb c) (m_cb_arg c) i (ch_id k) (bd_buf d bd) (bd_data_size bd) ;;; cret true)
        (with_mem w m') /\
    side i p c (with_mem w m') /\
    owned d m' held (bd_buf d bd :: lent) free fly /\ direction_kept c (w_mem w) m'.
Proof.
  intros Hsd Hk Ec Ho. assert (Hw := ow_wf _ _ _ _ _ _ Ho).
  assert (Hpeer := su_peer _ _ _ _ _ _ SU'). assert (Eq := pc_queue _ _ Hpeer).
  assert (Hwc : mchan_wf (w_mem w) c) by (eapply peer_wf; eauto).
  assert (Hok := ow_fly_ok _ _ _ _ _ _ Ho). apply Forall_cons in Hok as [(n & r & Hr & Hbd) _].
  destruct (bd_buf_names _ _ _ _ _ Hw Hr Hbd) as (Eb & _). destruct Hbd as (Hbd & Hid & Hj).
  destruct (Forall2_lookup_l _ _ _ _ _ (peer_active _ _ Hpeer) Hr) as (q & Hq & [En Es Et Er Eqq]).
  assert (Hn : 0 <= Z.of_nat n < num_pools c).
  { assert (Hl := lookup_lt_Some _ _ _ Hq). rewrite (active_length _ _ Hwc) in Hl. lia. }
  destruct (managed_rx_one_eval w i ch p k bd (bd_encode <$> fly) q) as (m' & E & R1 & R2 & R3 & R4);
    rewrite ?Hid, ?Ec; auto; try apply Hsd.
  - rewrite Eq. exact (ow_fly _ _ _ _ _ _ Ho).
  - apply active_lookup; [exact Hn | now rewrite Nat2Z.id].
  - now rewrite En.
  - exact (proj1 (Forall_lookup _ _) (sd_remote _ _ _ _ Hsd) _ _ Hq).
  - rewrite Ec in E, R1, R2, R3, R4. exists m'. rewrite Eb. replace (local_buf r (bd_buf_id bd)) with (remote_buf q (bd_buf_id bd))
      by (unfold remote_buf, local_buf; now rewrite Et, Es).
    assert (Hin : forall x, range (push_ring (bd_queue c) + RING_READ) 4 x ->
              in_rings (bd_queue c) x)
      by (intros x; now apply (pop_footprint_in_rings (w_mem w)), Hwc).
    split_and!; [exact E | eapply side_rings; eauto | |].
    + replace (remote_buf q (bd_buf_id bd)) with (bd_buf d bd)
        by (rewrite Eb; unfold remote_buf, local_buf; now rewrite Et, Es).
      rewrite Eq in R1, R3, R4. eapply owned_rx; eauto; [apply SU' | apply queue_wf_unmirror, R3].
    + rewrite Eq in R2, R3, R4, Hin.
      apply (bd_push_direction d c _ _ _ Hw (su_sep _ _ _ _ _ _ SU') Hpeer R4);
        [| now apply queue_wf_unmirror | exact R2].
      intros x Hx. destruct (Hin x Hx); [right | left]; assumption.
Qed.

(** ** Steps *)

Lemma accounted_kept m m' own lent own' lent' free fly :
  owned c m own lent free fly -> direction_kept d m m' -> accounted d (m, own', lent') ->
  mchan_wf m' c -> accounted d (m', own', lent').
Proof.
  intros Ho Hk (free' & fly' & Hd) Hw. exists free', fly'. cbn [fst snd] in *.
  apply (owned_kept d m); auto. eapply peer_wf; [exact Hw | apply SU].
Qed.

(** A step of the application keeps all accounts, and leaves what waits to be
    received as it is. *)
Lemma app_step_keeps s s' ho :
  app_step i ch p c s s' -> conserved c d s.1 s.2 ho ->
  conserved c d s'.1 s'.2 ho /\
  contents s'.1 (tx_link (bd_queue d)) = contents s.1 (tx_link (bd_queue d)).
Proof.
  unfold conserved. intros Hst [(free & fly & Ho) (free' & fly' & Hd)]; destruct Hst as
    [w sz a w' own lent Hsd E | w a size e w' own1 own2 lent Hsd Hs E
    | w a e w' own lent1 lent2 Hu E | F m m' h Hcl HF]; cbn [fst snd] in *.
  - destruct (acquire_keeps _ _ _ _ _ _ _ _ Hsd Ho E) as ((free1 & Ho') & Hk).
    split; [| apply Hk]. split; [do 2 eexists; exact Ho' |].
    eapply accounted_kept; [exact Ho | exact Hk | do 2 eexists; exact Hd | apply Ho'].
  - destruct (tx_keeps _ _ _ _ _ _ _ _ Hsd Ho Hs) as (w1 & fly1 & E1 & Ho' & Hk).
    rewrite E in E1; inversion E1; subst. split; [| apply Hk]. split; [do 2 eexists; exact Ho' |].
    eapply accounted_kept; [exact Ho | exact Hk | do 2 eexists; exact Hd | apply Ho'].
  - destruct (release_keeps _ _ _ _ _ _ _ Hu Hd) as (w1 & free1 & E1 & Hd' & Hk).
    rewrite E in E1; inversion E1; subst. split.
    + split; [| do 2 eexists; exact Hd']. exists free, fly. cbn [fst snd].
      apply (owned_kept c (w_mem w)); auto. eapply peer_wf; [apply Hd' | apply SU'].
    + cbn [Z.eqb]. now rewrite (ow_fly _ _ _ _ _ _ Hd), (ow_fly _ _ _ _ _ _ Hd').
  - destruct (clear_of_rings_frame c F m m' (ow_wf _ _ _ _ _ _ Ho) Hcl HF) as [W1 K1].
    destruct (clear_of_rings_frame d F m m' (ow_wf _ _ _ _ _ _ Hd)) as [W2 K2];
      [eapply peer_clear; eauto; apply SU | exact HF |].
    split; [| apply K2]. split; do 2 eexists; eapply owned_kept; eauto.
Qed.

Lemma app_steps_keep s s' ho :
  rtc (app_step i ch p c) s s' -> conserved c d s.1 s.2 ho ->
  conserved c d s'.1 s'.2 ho /\
  contents s'.1 (tx_link (bd_queue d)) = contents s.1 (tx_link (bd_queue d)).
Proof.
  induction 1 as [| x y z Hs _ IH]; intros Hc; [auto |].
  destruct (app_step_keeps _ _ _ Hs Hc) as [Hc' E]. destruct (IH Hc') as [Hz E']. split; [exact Hz | congruence].
Qed.

(** ** The receive loop *)

Section Receive.
Context (notes : P -> hands).
Context (CB : cb_handles i ch p c notes (fun m h => exists ho, conserved c d m h ho)).

(** A round hands one message to the callback. *)
Lemma rx_round_keeps ho w k e es :
  side i p c w -> nthZ (p_channels p) ch = Some k -> ch_mng k = c ->
  conserved c d (w_mem w) (notes (w_plat w)) ho ->
  contents (w_mem w) (tx_link (bd_queue d)) = e :: es ->
  exists w', managed_rx_one i ch w = Ret true w' /\ side i p c w' /\
    conserved c d (w_mem w') (notes (w_plat w')) ho /\
    contents (w_mem w') (tx_link (bd_queue d)) = es.
Proof.
  intros Hsd Hk Ec [(free & fly & Ho) (free' & fly' & Hd)] Hq. cbn [fst snd] in *.
  assert (Hf := ow_fly _ _ _ _ _ _ Hd). rewrite Hq in Hf.
  destruct fly' as [|bd fly']; [discriminate |]. injection Hf as -> ->.
  destruct (notes (w_plat w)) as [own lent] eqn:En. cbn [fst snd] in *.
  destruct (rx_one_keeps w k _ _ _ bd fly' Hsd Hk Ec Hd) as (m' & E & Hsd' & Hd' & Hkept).
  assert (Hc' : conserved c d m' (own, bd_buf d bd :: lent) ho).
  { split; do 2 eexists; [| exact Hd']. eapply owned_kept; [exact Ho | | exact Hkept].
    eapply peer_wf; [apply Hd' | apply SU']. }
  destruct (CB (with_mem w m') (bd_buf d bd) (bd_data_size bd) own lent k Hsd' Hk En) as (w' & E' & Hsd2 & Hr);
    [eauto |].
  destruct (app_steps_keep _ _ ho Hr Hc') as [Hc2 Hq2]. cbn [fst snd] in *.
  exists w'. rewrite E, (cbind_Ret _ _ _ _ _ E'), Hq2. split_and!; auto. exact (ow_fly _ _ _ _ _ _ Hd').
Qed.

Lemma side_ready w ho h :
  side i p c w -> conserved c d (w_mem w) h ho ->
  exists k, nthZ (p_channels p) ch = Some k /\ ch_mng k = c /\ chan_ready w i ch p k /\
    rx_pending w k = contents (w_mem w) (tx_link (bd_queue d)).
Proof.
  intros Hsd [(free & fly & Ho) _]. destruct (hm_chan _ _ _ (su_A _ _ _ _ _ _ SU)) as (k & Hk & Ht & Ec).
  exists k. split_and!; auto.
  - assert (Hop := sd_op _ _ _ _ Hsd). constructor; rewrite ?Ec; auto; try apply Hop; [apply Ho | apply SU].
  - unfold rx_pending. now rewrite Ec, (pc_queue _ _ (su_peer _ _ _ _ _ _ SU)).
Qed.

Lemma rx_loop_keeps ho : forall es fuel budget work w,
  side i p c w -> conserved c d (w_mem w) (notes (w_plat w)) ho ->
  contents (w_mem w) (tx_link (bd_queue d)) = es ->
  0 <= work <= budget -> budget - work <= Z.of_nat fuel ->
  let n := Z.min (budget - work) (Z.of_nat (length es)) in
  exists w', managed_rx_loop fuel i ch budget work w = Ret (work + n) w' /\
    conserved c d (w_mem w') (notes (w_plat w')) ho /\
    contents (w_mem w') (tx_link (bd_queue d)) = drop (Z.to_nat n) es.
Proof.
  induction es as [|e es IH]; intros fuel budget work w Hsd Hc Hq Hw Hf n;
    (destruct (Z.ltb_spec work budget) as [Hlt | Hge];
      [destruct fuel as [|fuel]; [lia |]; destruct (side_ready w ho _ Hsd Hc) as (k & Hk & Ec & Hr & Ep) |
       assert (Hn : n = 0) by (unfold n; lia); rewrite Hn, Z.add_0_r; exists w;
       split; [destruct fuel; cbn [managed_rx_loop]; destruct (Z.ltb_spec work budget); auto; lia | auto]]);
    cbn [managed_rx_loop]; rewrite (proj2 (Z.ltb_lt _ _) Hlt).
  - assert (Hn : n = 0) by (unfold n; cbn; lia). rewrite Hn, Z.add_0_r. exists w. rewrite <- Ep in Hq.
    rewrite (cbind_Ret _ _ _ _ _ (managed_rx_one_empty _ _ _ _ _ Hr Hq)), <- Ep. auto.
  - destruct (rx_round_keeps ho w k e es Hsd Hk Ec Hc Hq) as (w1 & E1 & Hsd1 & Hc1 & Hq1).
    destruct (IH fuel budget (work + 1) w1) as (w' & E' & Hc' & Hq'); auto; try lia.
    exists w'. rewrite (cbind_Ret _ _ _ _ _ E1), E'.
    assert (Hn : n = Z.min (budget - (work + 1)) (Z.of_nat (length es)) + 1) by (unfold n; cbn [length]; lia).
    rewrite Hn, Z2Nat.inj_add, Nat.add_1_r by lia. split; [f_equal; lia | auto].
Qed.

Lemma rx_keeps ho budget w :
  side i p c w -> conserved c d (w_mem w) (notes (w_plat w)) ho -> 0 <= budget ->
  let waiting := contents (w_mem w) (rx_link (bd_queue c)) in
  let n := Z.min budget (Z.of_nat (length waiting)) in
  exists w', ipc_channel_rx i ch budget w = Ret n w' /\
    conserved c d (w_mem w') (notes (w_plat w')) ho /\
    contents (w_mem w') (rx_link (bd_queue c)) = drop (Z.to_nat n) waiting.
Proof.
  intros Hsd Hc Hb waiting n. destruct (side_ready w ho _ Hsd Hc) as (k & Hk & Ec & Hr & _).
  rewrite (ipc_channel_rx_managed _ _ _ _ _ _ Hr).
  assert (Eq : rx_link (bd_queue c) = tx_link (bd_queue d))
    by now rewrite (pc_queue _ _ (su_peer _ _ _ _ _ _ SU)).
  subst n waiting. rewrite Eq.
  destruct (rx_loop_keeps ho _ (Z.to_nat budget) budget 0 w Hsd Hc eq_refl) as (w' & E' & R); [lia .. |].
  rewrite Z.sub_0_r in *. exists w'. split; [exact E' | exact R].
Qed.

Lemma end_step_keeps s s' ho :
  end_step i ch p c notes s s' -> conserved c d s.1 s.2 ho -> conserved c d s'.1 s'.2 ho.
Proof.
  intros [s1 s2 Hs | w budget n w' Hsd Hb E] Hc; [now apply (app_step_keeps _ _ ho Hs) |].
  destruct (rx_keeps ho budget w Hsd Hc Hb) as (w1 & E1 & Hc' & _).
  rewrite E in E1; inversion E1; subst. exact Hc'.
Qed.

(** What the calls of this end return when its application holds [h]. *)
Definition calls_succeed (m : memory) (h : hands) : Prop :=
  forall w, w_mem w = m ->
    (forall a size, side i p c w -> a ∈ h.1 -> 0 < size < 4294967296 ->
       exists w', ipc_shm_tx i ch a size w = Ret 0 w') /\
    (forall a, used w i p -> a ∈ h.2 -> exists w', ipc_shm_release_buf i ch a w = Ret 0 w') /\
    (forall budget, side i p c w -> notes (w_plat w) = h -> 0 <= budget ->
       let waiting := contents m (rx_link (bd_queue c)) in
       let n := Z.min budget (Z.of_nat (length waiting)) in
       exists w', ipc_channel_rx i ch budget w = Ret n w' /\
         contents (w_mem w') (rx_link (bd_queue c)) = drop (Z.to_nat n) waiting).

Lemma conserved_calls m h ho : conserved c d m h ho -> calls_succeed m h.
Proof.
  intros Hc w <-. split_and!.
  - intros a size Hsd Hin Hs. destruct Hc as [(free & fly & Ho) _]. cbn [fst snd] in Ho.
    apply list_elem_of_split in Hin as (o1 & o2 & E). rewrite E in Ho.
    destruct (tx_keeps _ _ _ _ _ _ _ _ Hsd Ho Hs) as (w' & ? & E' & _). eauto.
  - intros a Hu Hin. destruct Hc as [_ (free & fly & Hd)]. cbn [fst snd] in Hd.
    apply list_elem_of_split in Hin as (o1 & o2 & E). rewrite E in Hd.
    destruct (release_keeps _ _ _ _ _ _ _ Hu Hd) as (w' & ? & E' & _). eauto.
  - intros budget Hsd En Hb. rewrite <- En in Hc.
    destruct (rx_keeps ho budget w Hsd Hc Hb) as (w' & E & _ & C). eauto.
Qed.

End Receive.
End Steps.

(** ** Executions *)

(** One end of a channel: instance, channel, private data, managed channel, and
    what its application notes it holds. *)
Record station (P : Type) : Type := Station {
  st_instance : Z;
  st_chan : Z;
  st_priv : ipc_shm_priv;
  st_mchan : ipc_managed_channel;
  st_notes : P -> hands
}.
Arguments Station {P}.
Arguments st_instance {P}.
Arguments st_chan {P}.
Arguments st_priv {P}.
Arguments st_mchan {P}.
Arguments st_notes {P}.

Definition station_setup {PA PB} (A : station PA) (B : station PB) : Prop :=
  setup (st_chan A) (st_priv A) (st_mchan A) (st_chan B) (st_priv B) (st_mchan B).

Definition station_step {P} `{Platform P, !PlatformLaws P, App P} (A : station P) :
    memory * hands -> memory * hands -> Prop :=
  end_step (st_instance A) (st_chan A) (st_priv A) (st_mchan A) (st_notes A).

(** The receive callback of [A] handles every buffer of a channel whose accounts
    are in order. *)
Definition station_cb {PA PB} `{Platform PA, !PlatformLaws PA, App PA}
    (A : station PA) (B : station PB) : Prop :=
  cb_handles (st_instance A) (st_chan A) (st_priv A) (st_mchan A) (st_notes A)
    (fun m h => exists ho, conserved (st_mchan A) (st_mchan B) m h ho).

Definition station_calls {P} `{Platform P, !PlatformLaws P, App P} (A : station P) :
    memory -> hands -> Prop :=
  calls_succeed (st_instance A) (st_chan A) (st_priv A) (st_mchan A) (st_notes A).

Section Claims.
Context {PA : Type} `{PLA : Platform PA} `{LWA : !PlatformLaws PA} `{APA : App PA}.
Context {PB : Type} `{PLB : Platform PB} `{LWB : !PlatformLaws PB} `{APB : App PB}.
Context (A : station PA) (B : station PB).

(** Both ends take steps, in any order. *)
Inductive traffic_step : memory * hands * hands -> memory * hands * hands -> Prop :=
| ts_A m hA m' hA' hB :
    station_step A (m, hA) (m', hA') -> traffic_step (m, hA, hB) (m', hA', hB)
| ts_B m hB m' hB' hA :
    station_step B (m, hB) (m', hB') -> traffic_step (m, hA, hB) (m', hA, hB').

Lemma traffic_conserved s s' :
  station_setup A B -> station_setup B A -> station_cb A B -> station_cb B A ->
  rtc traffic_step s s' -> conserved (st_mchan A) (st_mchan B) s.1.1 s.1.2 s.2 ->
  conserved (st_mchan A) (st_mchan B) s'.1.1 s'.1.2 s'.2.
Proof.
  intros SU SU' CA CB. induction 1 as [| x y z Hs _ IH]; [auto |]. intros Hc. apply IH. clear IH.
  destruct Hs as [m hA m' hA' hB Hs | m hB m' hB' hA Hs]; cbn [fst snd] in *.
  - exact (end_step_keeps _ _ _ _ _ _ _ SU SU' _ CA _ _ hB Hs Hc).
  - apply conserved_sym. exact (end_step_keeps _ _ _ _ _ _ _ SU' SU _ CB _ _ hA Hs (conserved_sym _ _ _ _ _ Hc)).
Qed.

(** The buffers of [c]: free in the pool queues, in flight in the channel queue, held
    by their owner, or by the peer, each once. *)
Definition each_once (c : ipc_managed_channel) (m : memory) (own lent : list Z) : Prop :=
  exists (free : list (list ipc_shm_bd)) (fly : list ipc_shm_bd),
    contents m (tx_link (bd_queue c)) = bd_encode <$> fly /\
    Forall2 (fun q f => contents m (rx_link (pool_bd_queue q)) = bd_encode <$> f) (active_pools c) free /\
    all_bufs c ≡ₚ (bd_buf c <$> concat free) ++ (bd_buf c <$> fly) ++ own ++ lent /\
    NoDup ((bd_buf c <$> concat free) ++ (bd_buf c <$> fly) ++ own ++ lent).

Lemma accounted_each_once c m own lent :
  accounted c (m, own, lent) -> pools_apart local_pool_addr (active_pools c) -> each_once c m own lent.
Proof.
  intros (free & fly & Ho) Ha. exists free, fly. assert (HN := owned_NoDup _ _ _ _ _ _ Ho Ha).
  destruct Ho as [Hw Hl Hfree Hfly Hok Hall]. split_and!; auto.
  apply Forall2_same_length_lookup. split; [now rewrite Hl |].
  intros k q f Hk Hf. apply (Hfree k q f Hk Hf).
Qed.

(** C18: no buffer is lost or handed out twice, and no call fails for want of room,
    with traffic in both directions.  The two ends of a channel call
    [ipc_shm_acquire_buf], [ipc_shm_tx], [ipc_channel_rx] and [ipc_shm_release_buf] in
    any order, and store outside the rings of the channel; [ipc_channel_rx] calls back
    an application that may keep the buffer it is given, or acquire, send and release
    buffers itself.  From a state in which every buffer of both ends is accounted for,
    every such sequence leads to a state in which, for each of the two ends, the free
    descriptors in its pool queues, the descriptors in flight in the channel queue, the
    buffers its application holds and those the peer's application holds are together
    exactly the buffers of its pools, each once; and there sending a buffer the
    application holds and releasing one it has received return 0, and
    [ipc_channel_rx] returns the number of messages that wait, up to its budget, and
    leaves the others in the queue. *)
Theorem buffers_conserved s m hA hB :
  station_setup A B -> station_setup B A -> station_cb A B -> station_cb B A ->
  conserved (st_mchan A) (st_mchan B) s.1.1 s.1.2 s.2 ->
  rtc traffic_step s (m, hA, hB) ->
  each_once (st_mchan A) m hA.1 hB.2 /\ each_once (st_mchan B) m hB.1 hA.2 /\
  station_calls A m hA /\ station_calls B m hB.
Proof.
  intros SU SU' CA CB H0 Hr. assert (Hc := traffic_conserved _ _ SU SU' CA CB Hr H0). cbn [fst snd] in Hc.
  split_and!.
  - apply accounted_each_once; [apply Hc | apply SU].
  - apply accounted_each_once; [apply Hc | apply SU'].
  - exact (conserved_calls _ _ _ _ _ _ _ SU SU' _ CA _ _ _ Hc).
  - exact (conserved_calls _ _ _ _ _ _ _ SU' SU _ CB _ _ _ (conserved_sym _ _ _ _ _ Hc)).
Qed.

End Claims.
