(* ===== verification/Clients.v ===== *)
(** * Threads over several queues

    Programs that load fixed words and operate on queues.  Resolved into single
    memory accesses and interleaved in any way, they behave as if each queue
    operation were atomic: the linearizability of [Linear], composed over the
    queues of a channel. *)

From S2P Require Import Prelude Memory Types Queue QueueSpec Atomic QueueSteps Linear.
From S2P Require Import World Shm ShmSpec Traffic Delivery.
#[local] Open Scope Z_scope.

(** ** Programs over queues *)

Inductive client (K R : Type) : Type :=
| CDone (r : R)
| CWrong
| CLoad (n : nat) (a : Z) (f : Z -> client K R)
| COp (k : K) (op : qop) (f : result -> client K R).
Arguments CDone {K R} r.
Arguments CWrong {K R}.
Arguments CLoad {K R} n a f.
Arguments COp {K R} k op f.

Fixpoint client_bind {K A B} (p : client K A) (f : A -> client K B) : client K B :=
  match p with
  | CDone a => f a
  | CWrong => CWrong
  | CLoad n a g => CLoad n a (fun v => client_bind (g v) f)
  | COp k op g => COp k op (fun r => client_bind (g r) f)
  end.

Notation "'let%' x := p 'in' k" := (client_bind p (fun x => k))
  (at level 10, x name, p at level 100, k at level 200,
   format "'[v' 'let%'  x  ':='  p  'in' '/' k ']'") : ipc_scope.

Definition role_of (op : qop) : role := match op with OpPush _ => Pusher | OpPop => Popper end.

(** ** The system *)

Section System.
Context {K R T O : Type} `{EqDecision K} `{EqDecision T}.

(** The queues there are, as the near end knows them; the end of a thread; which thread
    takes which role at its end of a queue; the words that stay. *)
Context (known : K -> Prop) (base : K -> ipc_queue) (end_of : T -> endpoint) (may : T -> K -> role -> Prop).
Context (fixed : nat -> Z -> option Z).
Context (may_call : T -> O -> Prop) (prog_of : T -> O -> client K R).

Fixpoint expand (d : endpoint) (p : client K R) : prog R :=
  match p with
  | CDone r => Done r
  | CWrong => Wrong
  | CLoad n a f => Access (Load n a) (fun v => expand d (f v))
  | COp k op f => let+ x := op_steps (end_queue (base k) d) op in expand d (f x)
  end.

Definition thread_code (t : T) (op : O) : prog R := expand (end_of t) (prog_of t op).
Abbreviation lstep := (step may_call thread_code).

(** With atomic operations on queues. *)
Definition hconf : Type := (K -> list (list Z) * list (list Z)) * (T -> option (client K R)).

Definition queue_effect (d : endpoint) (k : K) (op : qop) (s : K -> list (list Z) * list (list Z)) :
    result * (K -> list (list Z) * list (list Z)) :=
  let p := spec_op (elem_num (base k) - 1) op (swap_at d (s k)) in
  (p.1, fun k' => if decide (k' = k) then swap_at d p.2 else s k').

Inductive hstep : hconf -> option (event T O R) -> hconf -> Prop :=
| h_call s th t op :
    th t = None -> may_call t op -> hstep (s, th) (Some (ECall t op)) (s, upd th t (Some (prog_of t op)))
| h_load s th t n a f v :
    th t = Some (CLoad n a f) -> fixed n a = Some v -> hstep (s, th) None (s, upd th t (Some (f v)))
| h_op s th t k op f :
    th t = Some (COp k op f) ->
    hstep (s, th) None
      ((queue_effect (end_of t) k op s).2, upd th t (Some (f (queue_effect (end_of t) k op s).1)))
| h_return s th t r :
    th t = Some (CDone r) -> hstep (s, th) (Some (EReturn t r)) (s, upd th t None).

(** A program that loads fixed words only, and operates in its thread's roles
    on elements that fit. *)
Fixpoint disciplined (t : T) (p : client K R) : Prop :=
  match p with
  | CDone _ | CWrong => True
  | CLoad n a f => exists v, fixed n a = Some v /\ disciplined t (f v)
  | COp k op f =>
      may t k (role_of op) /\ match op with OpPush e => elem_ok (base k) e | OpPop => True end /\
      forall r, disciplined t (f r)
  end.

(** What the system relies on: one thread per role and end of a queue, queues
    apart from each other, fixed words that no queue operation writes. *)
Record well_laid (m : memory) : Prop := {
  wl_wf : forall k, known k -> queue_wf m (base k);
  wl_apart : forall k k', known k -> known k' -> k <> k' -> queues_apart (base k) (base k');
  wl_known : forall t k r, may t k r -> known k;
  wl_roles : forall t t' k r, may t k r -> may t' k r -> end_of t = end_of t' -> t = t';
  wl_mapped : forall n a v, fixed n a = Some v -> mapped m a (Z.of_nat n) = true /\ uint_at n m a = v;
  wl_fixed : forall n a v k d r x, fixed n a = Some v -> known k -> range a (Z.of_nat n) x ->
    ~ footprint r (end_queue (base k) d) x;
  wl_code : forall t op, may_call t op -> disciplined t (prog_of t op)
}.

(** ** A step of one queue seen from the others *)

Lemma footprint_in_rings m q r x : queue_wf m q -> footprint r q x -> in_rings q x.
Proof. intros Hq Hx. left. ring_facts Hq. destruct r; cbn [footprint] in Hx; range_lia. Qed.

Lemma in_rings_end q d x : in_rings (end_queue q d) x <-> in_rings q x.
Proof. destruct d; [reflexivity |]. unfold in_rings. cbn. change (ring_bytes (tx_link (mirror q))) with (ring_bytes (tx_link q)). tauto. Qed.

Lemma frame_rely F m m' q r :
  same_except F m m' -> queue_wf m q -> (forall x, in_rings q x -> ~ F x) -> rely r q m m'.
Proof.
  intros HF Hq Hd. unfold in_rings in Hd. ring_facts Hq.
  destruct r; cbn [rely].
  - refine (proj1 (untouched_rely m m' (tx_link q) (qw_tx _ _ Hq) F HF _ _ _)); intros x Hx; apply Hd; cbn in Hx |- *; range_lia.
  - refine (proj2 (untouched_rely m m' (rx_link q) (qw_rx _ _ Hq) F HF _ _ _)); intros x Hx; apply Hd; cbn in Hx |- *; range_lia.
Qed.

(** ** The simulation *)

(** A thread whose client has come to [p] runs [x]. *)
Inductive inside (m : memory) (t : T) : prog R -> client K R -> Prop :=
| in_done r : inside m t (Done r) (CDone r)
| in_wrong : inside m t Wrong CWrong
| in_load n a f :
    disciplined t (CLoad n a f) -> inside m t (expand (end_of t) (CLoad n a f)) (CLoad n a f)
| in_op k op f x g pend p :
    may t k (role_of op) -> (forall r, disciplined t (f r)) ->
    thread_at (role_of op) (end_queue (base k) (end_of t)) m (Running (Access x g)) pend ->
    pend = ACalled op /\ p = COp k op f \/ (exists r, pend = ADone r /\ p = f r) ->
    inside m t (pbind (Access x g) (fun r => expand (end_of t) (f r))) p.

Definition thread_sims (m : memory) (t : T) (x : thread R) (p : option (client K R)) : Prop :=
  match x, p with
  | Idle, None => True
  | Running x, Some p => inside m t x p
  | _, _ => False
  end.

Record csim (c : conf T R) (a : hconf) : Prop := {
  cs_laid : well_laid c.1;
  cs_fifos : forall k, known k -> a.1 k = fifos (base k) c.1;
  cs_threads : forall t, thread_sims c.1 t (c.2 t) (a.2 t)
}.

Lemma op_start m k op d :
  queue_wf m (base k) -> match op with OpPush e => elem_ok (base k) e | OpPop => True end ->
  let q := end_queue (base k) d in
  thread_at (role_of op) q m (Running (op_steps q op)) (ACalled op).
Proof.
  intros Hq He q. destruct op as [e |]; [| apply pop_start].
  apply (push_start q m e). unfold elem_ok in *. now destruct d.
Qed.

Lemma expand_inside m t p : well_laid m -> disciplined t p -> inside m t (expand (end_of t) p) p.
Proof.
  intros Hm Hp. destruct p as [r | | n a f | k op f]; [apply in_done | apply in_wrong | now apply in_load |].
  destruct Hp as (Hk & He & Hf). cbn [expand]. assert (Hq := wl_wf _ Hm k (wl_known _ Hm _ _ _ Hk)).
  assert (Ht := op_start m k op (end_of t) Hq He). cbv zeta in Ht.
  assert (Hs := thread_sim _ _ _ _ _ (proj2 (end_wf _ _ _) Hq) Ht).
  destruct (op_steps _ op) as [v | | x g]; cbn [thread_moves] in Hs; [discriminate | easy |].
  eapply in_op; eauto.
Qed.

(** What a step of a thread in its role at queue [k] leaves of the layout. *)
Lemma laid_step m m' k d r :
  well_laid m -> known k -> guar r (end_queue (base k) d) m m' -> queue_wf m' (base k) ->
  well_laid m' /\ forall k', known k' -> k' <> k -> fifos (base k') m' = fifos (base k') m.
Proof.
  intros Hm Hkn Hg Hk. assert (Hq := proj2 (end_wf _ d _) (wl_wf _ Hm k Hkn)).
  assert (HF := guar_footprint _ _ _ _ Hq Hg).
  assert (Ho : forall k', known k' -> k' <> k -> queue_wf m' (base k') /\ fifos (base k') m' = fifos (base k') m).
  { intros k' Hk' Hne. destruct (queue_frame _ m m' (base k') HF (wl_wf _ Hm k' Hk')) as (W & C1 & C2).
    - intros x Hx Fx. apply (wl_apart _ Hm k' k Hk' Hkn Hne x Hx). apply (in_rings_end (base k) d).
      eapply footprint_in_rings; eauto.
    - split; [exact W |]. unfold fifos. now rewrite C1, C2. }
  split; [| intros k' Hk' Hne; now apply Ho]. destruct Hm. constructor; auto.
  - intros k' Hk'. destruct (decide (k' = k)) as [-> | Hne]; [exact Hk | now apply Ho].
  - intros n a v Hv. destruct (wl_mapped0 n a v Hv) as [M E]. split.
    + now rewrite (same_except_mapped _ _ _ _ _ HF).
    + rewrite <- E. apply (same_except_uint _ _ _ _ _ HF). intros x Hx. exact (wl_fixed0 n a v k d r x Hv Hkn Hx).
Qed.

(** Other threads do not notice. *)
Lemma inside_other m m' k r t t' x p :
  well_laid m -> guar r (end_queue (base k) (end_of t)) m m' -> may t k r -> t' <> t ->
  inside m t' x p -> inside m' t' x p.
Proof.
  intros Hm Hg Hr Hne Hin. destruct Hin as [v | | n a f Hd | k' op f x g pend p Hk' Hf Hat Hp]; [constructor .. |].
  - exact Hd.
  - eapply in_op; [exact Hk' | exact Hf | | exact Hp]. assert (Hkn := wl_known _ Hm _ _ _ Hr). assert (Hq := wl_wf _ Hm k Hkn).
    destruct (decide (k' = k)) as [-> | Hkk].
    + eapply others_stay; [exact Hq | exact Hg | | exact Hat]. intros E. injection E as E1 E2.
      rewrite E2 in Hk'. apply Hne. exact (wl_roles _ Hm _ _ _ _ Hk' Hr E1).
    + assert (Hkn' := wl_known _ Hm _ _ _ Hk'). assert (Hq' := wl_wf _ Hm k' Hkn'). eapply thread_at_rely; [exact (proj2 (end_wf _ _ _) Hq') | | exact Hat].
      assert (HF := guar_footprint _ _ _ _ (proj2 (end_wf _ (end_of t) _) Hq) Hg).
      eapply frame_rely; [exact HF | exact (proj2 (end_wf _ _ _) Hq') |].
      intros z Hz Fz. apply (proj1 (in_rings_end _ _ _)) in Hz. apply (wl_apart _ Hm k' k Hkn' Hkn Hkk z Hz).
      apply (in_rings_end (base k) (end_of t)). eapply footprint_in_rings; [exact (proj2 (end_wf _ _ _) Hq) | exact Fz].
Qed.

(** A step of the running thread: the memory access is possible, and the client
    stays or takes one step. *)
Lemma inside_step m t x g p s th :
  well_laid m -> inside m t (Access x g) p -> (forall k, known k -> s k = fifos (base k) m) -> th t = Some p ->
  exists v m' a', do_access x m = Ret v m' /\
    (exists ls, exec hstep (s, th) ls a' /\ labels ls = []) /\
    (m' = m \/ exists k r, guar r (end_queue (base k) (end_of t)) m m' /\ may t k r) /\
    well_laid m' /\ (forall k, known k -> a'.1 k = fifos (base k) m') /\
    (exists p', a'.2 t = Some p' /\ inside m' t (g v) p') /\ (forall t', t' <> t -> a'.2 t' = th t').
Proof.
  intros Hm Hin Hs Ht. remember (Access x g) as y eqn:Ey.
  destruct Hin as [v | | n a f Hd | k op f x' g' pend p Hk Hf Hat Hp]; try discriminate Ey.
  - injection Ey as <- <-. destruct Hd as (v & Ev & Hd). destruct (wl_mapped _ Hm _ _ _ Ev) as [Hmap Hv].
    exists v, m, (s, upd th t (Some (f v))). split_and!; auto.
    + rewrite <- Hv. exact (read_uint_ok n a m Hmap).
    + eexists. split; [eapply exec_cons; [eapply h_load; eauto | apply exec_nil] | reflexivity].
    + exists (f v). split; [apply upd_same | now apply expand_inside].
    + intros t' Hne. now apply upd_other.
  - cbn [pbind] in Ey. injection Ey as <- <-. assert (Hkn := wl_known _ Hm _ _ _ Hk). assert (Hq := wl_wf _ Hm k Hkn).
    assert (Hq' := proj2 (end_wf _ (end_of t) _) Hq).
    destruct (thread_sim _ _ _ _ _ Hq' Hat) as (v & m' & y & E & Hg & Hw & Hmv & Hat').
    apply end_wf in Hw. destruct (laid_step m m' k (end_of t) _ Hm Hkn Hg Hw) as [Hm' Hoth].
    assert (Hg' : m' = m \/ exists k r, guar r (end_queue (base k) (end_of t)) m m' /\ may t k r) by (right; eauto).
    (* the thread after the access, with [y] what the queue has done for it *)
    assert (Hnext : forall p', y = ACalled op /\ p' = COp k op f \/ (exists r, y = ADone r /\ p' = f r) ->
              inside m' t (pbind (g' v) (fun r => expand (end_of t) (f r))) p').
    { intros p' Hy. destruct (g' v) as [r | | x2 g2] eqn:Eg; [| | eapply in_op; eauto].
      - assert (Hr := thread_sim _ _ _ _ _ (proj2 (end_wf _ _ _) Hw) Hat'). cbn [thread_moves] in Hr.
        destruct Hy as [[Hy _] | (r' & Hy & ->)]; [congruence |]. assert (r' = r) as -> by congruence.
        now apply expand_inside.
      - destruct (thread_sim _ _ _ _ _ (proj2 (end_wf _ _ _) Hw) Hat'). }
    assert (Hfif : fifos (end_queue (base k) (end_of t)) m' = fifos (end_queue (base k) (end_of t)) m ->
              forall k', known k' -> s k' = fifos (base k') m').
    { intros Ef k' Hk'. rewrite Hs by exact Hk'. destruct (decide (k' = k)) as [-> | Hne]; [| symmetry; now apply Hoth].
      rewrite !end_fifos in Ef. apply (f_equal (swap_at (end_of t))) in Ef. now rewrite !swap_swap in Ef. }
    destruct Hmv as [[-> Ef] | (op' & Ea & Ey & Ef)].
    + exists v, m', (s, th). split_and!; auto; [exists []; split; [apply exec_nil | reflexivity] | eauto].
    + destruct Hp as [[Ep ->] | (r & Ep & _)]; [| congruence].
      assert (op' = op) as -> by congruence.
      exists v, m', ((queue_effect (end_of t) k op s).2, upd th t (Some (f (queue_effect (end_of t) k op s).1))).
      assert (Eq : spec_op (elem_num (base k) - 1) op (swap_at (end_of t) (s k))
                   = spec_op (elem_num (end_queue (base k) (end_of t)) - 1) op
                       (fifos (end_queue (base k) (end_of t)) m)).
      { rewrite Hs, end_fifos by exact Hkn. now destruct (end_of t). }
      split_and!; auto.
      * eexists. split; [eapply exec_cons; [eapply h_op; exact Ht | apply exec_nil] | reflexivity].
      * intros k' Hk'. cbn [fst queue_effect snd]. case_decide as Hkk; [subst k' | rewrite Hs by exact Hk'; symmetry; now apply Hoth].
        rewrite Eq, <- Ef, end_fifos. apply swap_swap.
      * eexists. split; [apply upd_same |]. apply Hnext. right. eexists. split; [exact Ey |].
        unfold queue_effect. cbn [fst]. now rewrite Eq.
      * intros t' Hne. now apply upd_other.
Qed.

Lemma csim_step c e c' a :
  csim c a -> lstep c e c' ->
  exists ls a', exec hstep a ls a' /\ labels ls = visible [e] /\ csim c' a'.
Proof.
  intros [Hm Hs Ht] Hstep. destruct a as [s th2]. cbn [fst snd] in *.
  destruct Hstep as [m th t op Hi Ha | m th t x g v m' Hx Hd | m th t v Hr]; cbn [fst snd] in *;
    assert (H := Ht t); unfold thread_sims in H.
  - rewrite Hi in H. destruct (th2 t) eqn:E2; [easy |].
    exists [Some (ECall t op)], (s, upd th2 t (Some (prog_of t op))). split_and!.
    + eapply exec_cons; [now apply h_call | apply exec_nil].
    + reflexivity.
    + constructor; auto. cbn [fst snd]. intros t'. destruct (decide (t' = t)) as [-> | Hne].
      * rewrite !upd_same. apply expand_inside; [exact Hm | now apply (wl_code _ Hm)].
      * rewrite !upd_other by exact Hne. apply Ht.
  - rewrite Hx in H. destruct (th2 t) as [p |] eqn:E2; [| easy].
    destruct (inside_step m t x g p s th2 Hm H Hs E2)
      as (v' & m1 & a' & E & (ls & Hex & Hl) & Hg & Hm' & Hs' & (p' & Ep & Hin) & Ho).
    rewrite Hd in E. injection E as <- <-. exists ls, a'. split_and!; [exact Hex | exact Hl |].
    constructor; auto. cbn [fst snd]. intros t'. destruct (decide (t' = t)) as [-> | Hne].
    + rewrite upd_same, Ep. exact Hin.
    + rewrite upd_other, Ho by exact Hne. specialize (Ht t'). unfold thread_sims in *.
      destruct (th t'), (th2 t'); auto. destruct Hg as [-> | (k & r & Hg & Hr)]; [exact Ht |].
      exact (inside_other m m' k r t t' _ _ Hm Hg Hr Hne Ht).
  - rewrite Hr in H. destruct (th2 t) as [p |] eqn:E2; [| easy].
    assert (p = CDone v) as ->.
    { remember (Done v) as y eqn:Ey. destruct H; try discriminate Ey. now injection Ey as ->. }
    exists [Some (EReturn t v)], (s, upd th2 t None). split_and!.
    + eapply exec_cons; [now apply h_return | apply exec_nil].
    + reflexivity.
    + constructor; auto. cbn [fst snd]. intros t'. destruct (decide (t' = t)) as [-> | Hne].
      * now rewrite !upd_same.
      * rewrite !upd_other by exact Hne. apply Ht.
Qed.

(** A thread is stuck only where its client has gone wrong. *)
Lemma csim_no_fault c a t : csim c a -> a.2 t <> Some CWrong -> ~ faults c t.
Proof.
  intros [Hm Hs Ht] Hw. specialize (Ht t). unfold faults, thread_sims in *.
  destruct (c.2 t) as [| [v | | x g]] eqn:Ec; [easy .. | |]; (destruct (a.2 t) as [p |] eqn:Ea; [| easy]).
  - remember Wrong as y eqn:Ey. destruct Ht; try discriminate Ey. congruence.
  - destruct a as [s th]. destruct (inside_step c.1 t x g p s th Hm Ht Hs Ea) as (v & m' & _ & E & _).
    rewrite E. discriminate.
Qed.

Lemma csim_idle m (s : K -> list (list Z) * list (list Z)) :
  well_laid m -> (forall k, known k -> s k = fifos (base k) m) -> csim (m, fun _ => Idle) (s, fun _ => None).
Proof. intros Hm Hs. constructor; auto. now intros t. Qed.

End System.
