(* ===== verification/ChannelSteps.v ===== *)
(** * Calls on a managed channel, access by access (src/ipc-shm.c)

    [ipc_shm_acquire_buf], [ipc_shm_tx], the reception of one message and
    [ipc_shm_release_buf] on a channel of an instance in use, as programs that
    load words of the shared memory and operate on the queues of the channel.
    Resolved into single accesses and run without interruption they are the
    functions of [Shm]. *)

From S2P Require Import Prelude Memory Types Queue QueueSpec Atomic QueueSteps Linear.
From S2P Require Import World Shm ShmSpec Traffic Delivery Clients.
#[local] Open Scope Z_scope.

(** ** What an end knows of an instance *)

(** A channel, the address of the end's own state word, the bases of the two
    halves and their size: private data, which no call on the channel changes. *)
Record view : Type := View {
  v_chan : ipc_managed_channel;
  v_state : Z;
  v_local : Z;
  v_remote : Z;
  v_size : Z
}.

(** Queues of a channel: that of the channel, or of a pool. *)
Abbreviation queue_id := (option nat).
Definition own_queue (c : ipc_managed_channel) (k : queue_id) : ipc_queue :=
  match k with
  | None => bd_queue c
  | Some i => from_option pool_bd_queue (bd_queue c) (active_pools c !! i)
  end.

Abbreviation call_prog R := (client queue_id R).

(** ** Checks *)

(** [ipc_instance_is_free], of an instance with a state word *)
Definition instance_used_steps (v : view) : call_prog bool :=
  CLoad 8 (v_state v) (fun s => CDone (negb (s =? IPC_SHM_STATE_CLEAR))).

Definition remote_ready_steps (v : view) : call_prog Z :=
  let% used := instance_used_steps v in
  if negb used then CDone (- EINVAL) else
  CLoad 8 (v_remote v) (fun s => if negb (s =? IPC_SHM_STATE_READY) then CDone (- EAGAIN) else CDone 0).

Definition queue_integrity_steps (q : ipc_queue) : call_prog Z :=
  CLoad 8 (pop_ring q + RING_SENTINEL) (fun s1 =>
  if negb (IPC_QUEUE_INIT_DONE =? s1) then CDone (- EINVAL) else
  CLoad 8 (push_ring q + RING_SENTINEL) (fun s2 =>
  if IPC_QUEUE_INIT_DONE =? s2 then CDone 0 else CDone (- EINVAL))).

(** check all the pool bd boundaries *)
Fixpoint pools_integrity_steps (ps : list ipc_shm_pool) : call_prog Z :=
  match ps with
  | [] => CDone 0
  | p :: ps =>
      let% e := queue_integrity_steps (pool_bd_queue p) in
      if negb (0 =? e) then CDone (- EINVAL) else pools_integrity_steps ps
  end.

Definition mchan_integrity_steps (c : ipc_managed_channel) : call_prog Z :=
  let% e := queue_integrity_steps (bd_queue c) in
  if 0 =? e then pools_integrity_steps (active_pools c) else CDone (- EINVAL).

(** ** Calls *)

Fixpoint acquire_pool_steps (i : nat) (ps : list ipc_shm_pool) (mem_size : Z) :
    call_prog (option (ipc_shm_pool * ipc_shm_bd)) :=
  match ps with
  | [] => CDone None
  | pool :: ps =>
      if buf_size pool <? mem_size then acquire_pool_steps (S i) ps mem_size else
      COp (Some i) OpPop (fun r =>
      if r.1 =? 0 then CDone (Some (pool, bd_decode (default [] r.2)))
      else acquire_pool_steps (S i) ps mem_size)
  end.

Definition ipc_shm_acquire_buf_steps (v : view) (mem_size : Z) : call_prog Z :=
  let% ready := remote_ready_steps v in
  if negb (ready =? 0) then CDone NULL else
  if mem_size =? 0 then CDone NULL else
  let% ok := mchan_integrity_steps (v_chan v) in
  if negb (ok =? 0) then CDone NULL else
  let% r := acquire_pool_steps 0 (active_pools (v_chan v)) mem_size in
  match r with
  | None => CDone NULL
  | Some (pool, bd) =>
      let buf_addr := u64 (local_pool_addr pool + u32 (bd_buf_id bd * buf_size pool)) in
      if (buf_addr <? v_local v) || (u64 (v_local v + v_size v) <? u64 (buf_addr + buf_size pool))
      then CDone NULL else CDone buf_addr
  end.

(** [find_pool_for_buf], which reads private data only; [None] past the array. *)
Fixpoint pool_of_buf (n : nat) (ps : list ipc_shm_pool) (pool_id buf remote : Z) : option Z :=
  match n with
  | O => Some (- EINVAL)
  | S k =>
      pool ← head ps;
      let addr := if remote =? IPC_BUFFER_FROM_REMOTE then remote_pool_addr pool else local_pool_addr pool in
      let pool_size := u32 (num_bufs pool * buf_size pool) in
      if (addr <=? buf) && (buf <? u64 (addr + pool_size)) then Some (i16 pool_id)
      else pool_of_buf k (tail ps) (pool_id + 1) buf remote
  end.

(** The descriptor of a buffer: pool and index; [None] for undefined behaviour,
    -EINVAL when no pool owns it. *)
Definition bd_of_buf (c : ipc_managed_channel) (buf remote : Z) : option (Z + Z * Z) :=
  pool_id ← pool_of_buf (Z.to_nat (num_pools c)) (pools c) 0 buf remote;
  if pool_id =? - EINVAL then Some (inl (- EINVAL)) else
  pool ← nthZ (pools c) pool_id;
  let addr := if remote =? IPC_BUFFER_FROM_REMOTE then remote_pool_addr pool else local_pool_addr pool in
  if buf_size pool =? 0 then None else Some (inr (pool_id, u64 (buf - addr) / buf_size pool)).

Definition ipc_shm_tx_steps (v : view) (buf size : Z) : call_prog Z :=
  let% ready := remote_ready_steps v in
  if negb (ready =? 0) then CDone (- EINVAL) else
  if (buf =? NULL) || (size =? 0) then CDone (- EINVAL) else
  let% ok := mchan_integrity_steps (v_chan v) in
  if negb (ok =? 0) then CDone (- EINVAL) else
  match bd_of_buf (v_chan v) buf IPC_BUFFER_FROM_LOCAL with
  | None => CWrong
  | Some (inl e) => CDone e
  | Some (inr (pool_id, buf_id)) =>
      COp None (OpPush (bd_encode (BD pool_id (u16 buf_id) size))) (fun r =>
      if negb (r.1 =? 0) then CDone (i8 r.1) else CDone 0)
  end.

Definition ipc_shm_release_buf_steps (v : view) (buf : Z) : call_prog Z :=
  let% used := instance_used_steps v in
  if negb used then CDone (- EINVAL) else
  if buf =? NULL then CDone (- EINVAL) else
  let% ok := mchan_integrity_steps (v_chan v) in
  if negb (ok =? 0) then CDone (- EINVAL) else
  match bd_of_buf (v_chan v) buf IPC_BUFFER_FROM_REMOTE with
  | None => CWrong
  | Some (inl e) => CDone e
  | Some (inr (pool_id, buf_id)) =>
      COp (Some (Z.to_nat pool_id)) (OpPush (bd_encode (BD pool_id (u16 buf_id) 0))) (fun r => CDone r.1)
  end.

(** One turn of the receive loop: [None] when there is no message, else the
    buffer and size the callback gets, or none of them for an address outside
    the remote half. *)
Definition managed_rx_one_steps (v : view) : call_prog (option (option (Z * Z))) :=
  COp None OpPop (fun r =>
  if negb (r.1 =? 0) then CDone None else
  let bd := bd_decode (default [] r.2) in
  match nthZ (pools (v_chan v)) (bd_pool_id bd) with
  | None => CWrong
  | Some pool =>
      let buf_addr := u64 (remote_pool_addr pool + u32 (bd_buf_id bd * buf_size pool)) in
      if (v_remote v <=? buf_addr) && (u64 (buf_addr + buf_size pool) <=? u64 (v_remote v + v_size v))
      then CDone (Some (Some (buf_addr, bd_data_size bd))) else CDone (Some None)
  end).

(** ** Without interruption: the functions of [Shm] *)

(** Elements are bytes, queues are those in [known]. *)
Fixpoint well_formed {R} (known : queue_id -> Prop) (p : call_prog R) : Prop :=
  match p with
  | CDone _ | CWrong => True
  | CLoad _ _ f => forall v, well_formed known (f v)
  | COp k op f =>
      known k /\ match op with OpPush e => bytes_ok e | OpPop => True end /\ forall r, well_formed known (f r)
  end.

Lemma well_formed_bind {A B} known (p : call_prog A) (f : A -> call_prog B) :
  well_formed known p -> (forall a, well_formed known (f a)) -> well_formed known (client_bind p f).
Proof. intros Hp Hf. induction p; cbn in *; intuition. Qed.

Section Run.
Context (qs : queue_id -> ipc_queue).

(** Queue operations as the functions of [Queue]. *)
Fixpoint crun {R} (p : call_prog R) : M memory R :=
  match p with
  | CDone r => cret r
  | CWrong => cfault
  | CLoad n a f => let* v := read_uint n a in crun (f v)
  | COp k op f => let* r := run_op (qs k) op in crun (f r)
  end.

Lemma crun_bind {A B} (p : call_prog A) (f : A -> call_prog B) m :
  crun (client_bind p f) m = (let* a := crun p in crun (f a)) m.
Proof.
  revert m; induction p as [a | | n a g IH | k op g IH]; intros m; cbn [client_bind crun];
    [now rewrite cbind_cret | reflexivity | |]; rewrite cbind_assoc; unfold cbind.
  - destruct (read_uint n a m); [apply IH | reflexivity].
  - destruct (run_op (qs k) op m); [apply IH | reflexivity].
Qed.

(** Single accesses keep the mapping and the range of bytes. *)
Lemma run_keeps {A} (p : prog A) : forall m a m',
  run p m = Ret a m' -> mem_regions m' = mem_regions m /\ (mem_ok m -> mem_ok m').
Proof.
  induction p as [x | | x k IH]; intros m a m' E; cbn [run] in E.
  - injection E as <- <-. auto.
  - discriminate.
  - apply cbind_inv in E as (v & m1 & E1 & E2). destruct (IH v _ _ _ E2) as [R1 K1].
    destruct x as [n ad | n ad w]; cbn [do_access] in E1; cinv.
    + auto.
    + rewrite R1. split; [reflexivity |]. intros Hok. apply K1. intros y.
      unfold set_bytes. cbn [mem_bytes]. apply (set_bytes_ok m ad (le_encode n w) Hok (le_encode_ok n w)).
Qed.

Lemma op_steps_run q op m :
  link_shape m (tx_link q) -> mem_ok m -> match op with OpPush e => bytes_ok e | OpPop => True end ->
  run (op_steps q op) m = run_op q op m.
Proof.
  intros Hs Hok Hb. destruct op as [e |]; cbn [op_steps run_op].
  - rewrite run_pbind. unfold cbind. rewrite push_steps_run by assumption.
    now destruct (ipc_queue_push (Some q) (Some e) m).
  - apply pop_steps_run; [now apply link_shape_mirror | exact Hok].
Qed.

Lemma expand_crun {R} known base d (p : call_prog R) : forall m,
  (forall k, known k -> qs k = end_queue (base k) d) ->
  well_formed known p -> (forall k, known k -> link_shape m (tx_link (qs k))) -> mem_ok m ->
  run (expand base d p) m = crun p m.
Proof.
  intros m Hq. revert m.
  induction p as [r | | n a f IH | k op f IH]; intros m Hp Hs Hok; cbn [expand crun run well_formed] in *; auto.
  - unfold cbind. cbn [do_access]. destruct (read_uint n a m) as [v m' |] eqn:E; [| reflexivity].
    apply read_uint_inv in E as (-> & -> & _). now apply IH.
  - destruct Hp as (Hk & He & Hf). rewrite run_pbind. unfold cbind. rewrite <- (Hq k Hk).
    rewrite <- op_steps_run by auto. destruct (run (op_steps (qs k) op) m) as [r m' |] eqn:E; [| reflexivity].
    apply run_keeps in E as [HR HK]. apply IH; auto. intros k' Hk'.
    destruct (Hs k' Hk'). constructor; unfold mapped in *; rewrite ?HR; auto.
Qed.

End Run.

Section Shm.
Context {P : Type} `{PL : Platform P} `{LW : !PlatformLaws P} `{AP : App P}.

(** [v] is the view of channel [ch] of instance [i]: the instance is set up, in
    use or not, on a live platform. *)
Record has_view (w : world P) (i ch : Z) (p : ipc_shm_priv) (v : view) : Prop := {
  hv_range : 0 <= i < IPC_SHM_MAX_INSTANCES;
  hv_priv : nthZ (w_priv w) i = Some p;
  hv_global : p_global p <> NULL;
  hv_live : plat_live i (mem_regions (w_mem w)) (w_plat w);
  hv_chan : has_managed p ch (v_chan v);
  hv_num : 0 <= num_pools (v_chan v) <= Z.of_nat (length (pools (v_chan v)));
  hv_state : v_state v = p_global p;
  hv_lbase : v_local v = local_base i (w_plat w);
  hv_rbase : v_remote v = remote_base i (w_plat w);
  hv_size : v_size v = p_shm_size p
}.

Definition wrun {R} (v : view) (p : call_prog R) : M (world P) R := on_mem (crun (own_queue (v_chan v)) p).

Lemma on_mem_bind {A B} (c : M memory A) (k : A -> M memory B) (w : world P) :
  on_mem (cbind c k) w = (let* a := on_mem c in on_mem (k a)) w.
Proof. unfold on_mem, czoom, cbind. destruct (c (w_mem w)); reflexivity. Qed.

Lemma wrun_bind {A B} v (p : call_prog A) (f : A -> call_prog B) w :
  wrun v (client_bind p f) w = (let* a := wrun v p in wrun v (f a)) w.
Proof. unfold wrun. rewrite <- on_mem_bind. unfold on_mem, czoom. now rewrite crun_bind. Qed.

Lemma wrun_done {A} v (a : A) w : wrun v (CDone a) w = Ret a w.
Proof. unfold wrun. cbn [crun]. now apply on_mem_read. Qed.

Lemma wrun_load {A} v n a (f : Z -> call_prog A) w :
  wrun v (CLoad n a f) w = (let* x := on_mem (read_uint n a) in wrun v (f x)) w.
Proof. apply on_mem_bind. Qed.

Lemma wrun_op {A} v k op (f : result -> call_prog A) w :
  wrun v (COp k op f) w = (let* r := on_mem (run_op (own_queue (v_chan v) k) op) in wrun v (f r)) w.
Proof. apply on_mem_bind. Qed.

(** The same computation on both sides of a sequence. *)
Lemma cbind_same {S A B} (c c' : M S A) (k k' : A -> M S B) s :
  c s = c' s -> (forall a s', c s = Ret a s' -> k a s' = k' a s') -> cbind c k s = cbind c' k' s.
Proof. unfold cbind. intros E H. rewrite <- E. destruct (c s); auto. Qed.

Lemma read_keeps n a (w w' : world P) x : on_mem (read_uint n a) w = Ret x w' -> w' = w.
Proof.
  unfold on_mem, czoom, read_uint. destruct (mapped _ _ _); [| discriminate]. intros E. injection E as _ <-.
  now destruct w.
Qed.

(** Programs of loads leave the world alone. *)
Fixpoint loads_only {R} (p : call_prog R) : Prop :=
  match p with
  | CLoad _ _ f => forall x, loads_only (f x)
  | COp _ _ _ => False
  | _ => True
  end.

Lemma loads_only_bind {A B} (p : call_prog A) (f : A -> call_prog B) :
  loads_only p -> (forall a, loads_only (f a)) -> loads_only (client_bind p f).
Proof. intros Hp Hf. induction p; cbn in *; auto. Qed.

Lemma wrun_loads {A} v (p : call_prog A) : forall w a w', loads_only p -> wrun v p w = Ret a w' -> w' = w.
Proof.
  induction p as [r | | n a f IH | k op f IH]; intros w x w' Hp E; [| | | easy].
  - rewrite wrun_done in E. congruence.
  - discriminate E.
  - rewrite wrun_load in E. apply cbind_inv in E as (y & w1 & E1 & E2). apply read_keeps in E1 as ->.
    now apply (IH y w x w').
Qed.

Ltac loads := repeat first [ exact I | intros ? | apply loads_only_bind | progress cbn [loads_only] | case_match ].

Lemma used_loads v : loads_only (instance_used_steps v).
Proof. unfold instance_used_steps. loads. Qed.
Lemma ready_loads v : loads_only (remote_ready_steps v).
Proof. unfold remote_ready_steps. apply loads_only_bind; [apply used_loads |]. loads. Qed.
Lemma queue_integrity_loads q : loads_only (queue_integrity_steps q).
Proof. unfold queue_integrity_steps. loads. Qed.
Lemma pools_integrity_loads ps : loads_only (pools_integrity_steps ps).
Proof.
  induction ps; cbn [pools_integrity_steps]; [exact I |]. apply loads_only_bind; [apply queue_integrity_loads |].
  intros e. now destruct (negb _).
Qed.
Lemma mchan_integrity_loads c : loads_only (mchan_integrity_steps c).
Proof.
  unfold mchan_integrity_steps. apply loads_only_bind; [apply queue_integrity_loads |]. intros e.
  destruct (0 =? e); [apply pools_integrity_loads | exact I].
Qed.

Lemma queue_integrity_run v q w :
  on_mem (ipc_queue_check_integrity q) w = wrun v (queue_integrity_steps q) w.
Proof.
  unfold ipc_queue_check_integrity, queue_integrity_steps, ring_sentinel. rewrite on_mem_bind, wrun_load.
  apply cbind_same; [reflexivity |]. intros s1 w1 _. destruct (negb _); [now rewrite wrun_done, (on_mem_read _ _ (- EINVAL)) |].
  rewrite on_mem_bind, wrun_load. apply cbind_same; [reflexivity |]. intros s2 w2 _.
  destruct (_ =? _); rewrite wrun_done; now apply on_mem_read.
Qed.

Lemma pools_integrity_run v (all : list ipc_shm_pool) ps : forall w j,
  (forall i p, ps !! i = Some p -> nthZ all (j + Z.of_nat i) = Some p) ->
  (let* r := cfor (length ps) j (fun pool_id =>
      let* pool := copt (nthZ all pool_id) in
      let* e := on_mem (ipc_queue_check_integrity (pool_bd_queue pool)) in
      if negb (0 =? e) then cret (inr (- EINVAL)) else cret (inl tt)) in
    match r with inl _ => cret 0 | inr e => cret e end) w
  = wrun v (pools_integrity_steps ps) w.
Proof.
  induction ps as [|p ps IH]; intros w j Hj; cbn [length cfor pools_integrity_steps].
  - now rewrite cbind_cret, wrun_done.
  - rewrite wrun_bind. rewrite !cbind_assoc. assert (E := Hj 0%nat p eq_refl). rewrite Z.add_0_r in E. rewrite E, cbind_copt.
    rewrite cbind_assoc. apply cbind_same; [apply queue_integrity_run |]. intros e w' _.
    destruct (negb _); [rewrite !cbind_cret; now rewrite wrun_done |]. rewrite cbind_cret.
    apply IH. intros i p' Hi. specialize (Hj (S i) p' Hi). rewrite <- Hj. f_equal. lia.
Qed.

Lemma mchan_integrity_run v c w :
  0 <= num_pools c <= Z.of_nat (length (pools c)) ->
  ipc_check_mchan_integrity c w = wrun v (mchan_integrity_steps c) w.
Proof.
  intros Hn. unfold ipc_check_mchan_integrity, mchan_integrity_steps. rewrite wrun_bind.
  apply cbind_same; [apply queue_integrity_run |]. intros e w' _. destruct (0 =? e); [| now rewrite wrun_done].
  assert (El : Z.to_nat (num_pools c) = length (active_pools c)).
  { unfold active_pools. rewrite length_take. lia. }
  rewrite El. apply pools_integrity_run. intros i p Hi. unfold active_pools in Hi.
  apply lookup_take_Some in Hi as [Hi _]. now rewrite Z.add_0_l, nthZ_nat.
Qed.

Lemma run_op_regions q op m r m' : run_op q op m = Ret r m' -> mem_regions m' = mem_regions m.
Proof.
  destruct op as [e |]; cbn [run_op]; unfold ipc_queue_push, ipc_queue_pop, ipc_queue_check_integrity,
    ring_write, ring_read, ring_sentinel, set_ring_write, set_ring_read, umod; intros E; cinv; reflexivity.
Qed.

(** Programs leave private data, platform and mapping alone. *)
Lemma wrun_keeps {A} v (p : call_prog A) : forall w a w', wrun v p w = Ret a w' ->
  w_priv w' = w_priv w /\ w_plat w' = w_plat w /\ mem_regions (w_mem w') = mem_regions (w_mem w).
Proof.
  induction p as [r | | n a f IH | k op f IH]; intros w x w' E.
  - rewrite wrun_done in E. injection E as _ <-. auto.
  - discriminate E.
  - rewrite wrun_load in E. apply cbind_inv in E as (y & w1 & E1 & E2). apply read_keeps in E1 as ->.
    now apply (IH y w x w').
  - rewrite wrun_op in E. apply cbind_inv in E as (y & w1 & E1 & E2).
    unfold on_mem, czoom in E1. destruct (run_op _ op (w_mem w)) as [r m1 |] eqn:Er; [| discriminate].
    injection E1 as <- <-. apply run_op_regions in Er. destruct (IH _ _ _ _ E2) as (H1 & H2 & H3).
    cbn [w_priv w_plat w_mem] in *. now rewrite H3.
Qed.

Lemma acquire_pools_run v sz ps : forall w i,
  (forall (j : nat) p, ps !! j = Some p -> own_queue (v_chan v) (Some (i + j)%nat) = pool_bd_queue p) ->
  acquire_from_pools (P := P) ps sz w = wrun v (acquire_pool_steps i ps sz) w.
Proof.
  induction ps as [|p ps IH]; intros w i Hq; cbn [acquire_from_pools acquire_pool_steps]; [now rewrite wrun_done |].
  assert (IH' : forall w, acquire_from_pools ps sz w = wrun v (acquire_pool_steps (S i) ps sz) w).
  { intros w'. apply IH. intros j p' Hj. rewrite <- (Hq (S j) p' Hj). do 2 f_equal. lia. }
  destruct (_ <? _); [apply IH' |]. rewrite wrun_op.
  rewrite <- (Hq 0%nat p eq_refl), Nat.add_0_r. apply cbind_same; [reflexivity |]. intros r w' _.
  destruct (r.1 =? 0); [now rewrite wrun_done | apply IH'].
Qed.

(** Finding the pool of a buffer. *)
Lemma find_pool_run n : forall ps id buf remote (w : world P),
  find_pool_for_buf n ps id buf remote w = copt (pool_of_buf n ps id buf remote) w.
Proof.
  induction n as [|n IH]; intros ps id buf remote w; cbn [find_pool_for_buf pool_of_buf]; [reflexivity |].
  destruct (head ps) as [p |]; [| reflexivity]. rewrite cbind_copt. cbv zeta.
  change (mbind ?f (Some p)) with (f p). cbv beta.
  destruct (_ && _); [reflexivity | apply IH].
Qed.

(** What the receive loop does with a message. *)
Definition deliver (c : ipc_managed_channel) (i id : Z) (x : option (Z * Z)) : M (world P) unit :=
  match x with
  | Some (a, n) => call_managed_cb (m_rx_cb c) (m_cb_arg c) i id a n
  | None => cret tt
  end.

Section View.
Context (w : world P) (i ch : Z) (p : ipc_shm_priv) (v : view) (V : has_view w i ch p v).

Lemma instance_used_run {A} (b c : M (world P) A) :
  (let* st := ipc_instance_is_free i in if negb (bool_decide (st = IPC_SHM_INSTANCE_USED)) then b else c) w
  = (let* u := wrun v (instance_used_steps v) in if negb u then b else c) w.
Proof.
  destruct V as [Hi Hp Hg _ _ _ Hs _ _ _]. unfold ipc_instance_is_free, instance_used_steps.
  replace (IPC_SHM_MAX_INSTANCES <=? i) with false by (symmetry; apply Z.leb_gt; lia).
  rewrite cbind_assoc, (cbind_Ret _ _ _ _ _ (get_priv_eval _ _ _ Hp)).
  apply Z.eqb_neq in Hg as ->. unfold global_state. rewrite Hs, cbind_assoc. unfold cbind. rewrite wrun_load. unfold cbind.
  destruct (on_mem (read_uint 8 (p_global p)) w) as [s w' |]; [| reflexivity].
  rewrite wrun_done. now destruct (s =? IPC_SHM_STATE_CLEAR).
Qed.

Lemma remote_ready_run : ipc_shm_is_remote_ready i w = wrun v (remote_ready_steps v) w.
Proof.
  unfold ipc_shm_is_remote_ready, remote_ready_steps. rewrite instance_used_run, wrun_bind.
  apply cbind_same; [reflexivity |]. intros u w' E.
  assert (w' = w) as ->.
  { unfold instance_used_steps in E. rewrite wrun_load in E. apply cbind_inv in E as (x & w1 & E1 & E2).
    apply read_keeps in E1 as ->. rewrite wrun_done in E2. congruence. }
  destruct (negb u); [now rewrite wrun_done |]. rewrite (cbind_Ret _ _ _ _ _ (get_remote_eval _ _ (hv_live _ _ _ _ _ V))).
  rewrite wrun_load, (hv_rbase _ _ _ _ _ V). apply cbind_same; [reflexivity |]. intros s w' Er.
  destruct (negb _); now rewrite wrun_done.
Qed.

Lemma channel_run {A} (k : option ipc_managed_channel -> M (world P) A) :
  (let* c := get_managed_chan i ch in k c) w = k (Some (v_chan v)) w.
Proof. now rewrite (cbind_Ret _ _ _ _ _ (get_managed_chan_eval _ _ _ _ _ (hv_priv _ _ _ _ _ V) (hv_chan _ _ _ _ _ V))). Qed.

Lemma acquire_buf_run sz : ipc_shm_acquire_buf i ch sz w = wrun v (ipc_shm_acquire_buf_steps v sz) w.
Proof.
  unfold ipc_shm_acquire_buf, ipc_shm_acquire_buf_steps. rewrite wrun_bind.
  apply cbind_same; [apply remote_ready_run |]. intros r w1 E1. rewrite remote_ready_run in E1.
  apply wrun_loads in E1 as ->; [| apply ready_loads].
  destruct (negb _); [now rewrite wrun_done |]. rewrite channel_run. destruct (sz =? 0); [now rewrite wrun_done |].
  rewrite wrun_bind. apply cbind_same; [apply mchan_integrity_run, V |]. intros ok w1 E1.
  rewrite (mchan_integrity_run v) in E1 by apply V. apply wrun_loads in E1 as ->; [| apply mchan_integrity_loads].
  destruct (negb _); [now rewrite wrun_done |].
  replace (_ <? _) with false by (symmetry; apply Z.ltb_ge, V). rewrite cbind_copt. fold (active_pools (v_chan v)).
  rewrite wrun_bind.
  assert (Hq : forall (j : nat) q, active_pools (v_chan v) !! j = Some q -> own_queue (v_chan v) (Some (0 + j)%nat) = pool_bd_queue q).
  { intros j q Hj. cbn [own_queue Nat.add]. now rewrite Hj. }
  apply cbind_same; [now apply acquire_pools_run |].
  intros x w' Ew. rewrite (acquire_pools_run v sz _ _ _ Hq) in Ew. apply wrun_keeps in Ew as (K1 & K2 & K3).
  destruct x as [[pool bd] |]; [| now rewrite wrun_done].
  assert (Hl : plat_live i (mem_regions (w_mem w')) (w_plat w')) by (rewrite K2, K3; apply V).
  cbv zeta. rewrite (cbind_Ret _ _ _ _ _ (get_local_eval _ _ Hl)), K2.
  assert (Hp : nthZ (w_priv w') i = Some p) by (rewrite K1; apply V).
  rewrite (cbind_Ret _ _ _ _ _ (get_priv_eval _ _ _ Hp)).
  rewrite <- (hv_lbase _ _ _ _ _ V), <- (hv_size _ _ _ _ _ V).
  destruct (_ || _); now rewrite wrun_done.
Qed.

(** Naming the buffer before it is pushed. *)
Lemma bd_of_buf_run c buf remote (f : Z -> Z -> M (world P) Z) w' :
  (let* pool_id := find_pool_for_buf (Z.to_nat (num_pools c)) (pools c) 0 buf remote in
   if pool_id =? - EINVAL then cret (- EINVAL) else
   let* pool := copt (nthZ (pools c) pool_id) in
   let* buf_id := udiv (u64 (buf - addr_of remote pool)) (buf_size pool) in f pool_id buf_id) w'
  = match bd_of_buf c buf remote with
    | None => Fault
    | Some (inl e) => Ret e w'
    | Some (inr (pool_id, buf_id)) => f pool_id buf_id w'
    end.
Proof.
  unfold bd_of_buf. erewrite cbind_same; [| apply find_pool_run | reflexivity].
  destruct (pool_of_buf _ _ _ _ _) as [id |]; [| reflexivity]. rewrite cbind_copt. cbn [mbind option_bind].
  destruct (id =? - EINVAL); [reflexivity |]. destruct (nthZ (pools c) id) as [pool |]; [| reflexivity].
  rewrite cbind_copt. unfold udiv. fold (addr_of remote pool). cbn [mbind option_bind].
  destruct (buf_size pool =? 0); reflexivity.
Qed.

(** The pool found is one of the active ones. *)
Lemma pool_of_buf_range n : forall ps id buf remote k,
  0 <= id -> id + Z.of_nat n < 32768 -> pool_of_buf n ps id buf remote = Some k ->
  k = - EINVAL \/ id <= k < id + Z.of_nat n.
Proof.
  induction n as [|n IH]; intros ps id buf remote k Hi Hn E; cbn [pool_of_buf] in E; [left; congruence |].
  destruct (head ps) as [q |]; [| discriminate]. change (mbind ?f (Some q)) with (f q) in E. cbv beta zeta in E.
  destruct (_ && _).
  - injection E as <-. right. rewrite i16_small by lia. lia.
  - apply IH in E; lia.
Qed.

Lemma push_codes q e m r m' : run_op q (OpPush e) m = Ret r m' -> r.1 = 0 \/ r.1 = - EINVAL \/ r.1 = - ENOMEM.
Proof.
  cbn [run_op]. unfold ipc_queue_push, ring_write, ring_read, set_ring_write, umod. intros E; cinv; cbn [fst]; auto.
Qed.

Lemma tx_run buf size :
  u8 ch = ch ->
  ipc_shm_tx i ch buf size w
  = (let* r := wrun v (ipc_shm_tx_steps v buf size) in
     if negb (r =? 0) then cret r else on_plat (ipc_hw_irq_notify i) ;;; cret 0) w.
Proof.
  intros Hch. unfold ipc_shm_tx, ipc_shm_tx_steps. rewrite Hch.
  erewrite (cbind_same (wrun v _)); [| apply wrun_bind | reflexivity]. rewrite cbind_assoc.
  apply cbind_same; [apply remote_ready_run |]. intros r w1 E1. rewrite remote_ready_run in E1.
  apply wrun_loads in E1 as ->; [| apply ready_loads].
  destruct (negb (r =? 0)); [now rewrite (cbind_Ret _ _ _ _ _ (wrun_done v _ w)) |]. rewrite channel_run.
  destruct (_ || _); [now rewrite (cbind_Ret _ _ _ _ _ (wrun_done v _ w)) |].
  erewrite (cbind_same (wrun v _)); [| apply wrun_bind | reflexivity]. rewrite cbind_assoc.
  apply cbind_same; [apply mchan_integrity_run, V |]. intros ok w1 E1.
  rewrite (mchan_integrity_run v) in E1 by apply V. apply wrun_loads in E1 as ->; [| apply mchan_integrity_loads].
  destruct (negb (ok =? 0)); [now rewrite (cbind_Ret _ _ _ _ _ (wrun_done v _ w)) |].
  rewrite (bd_of_buf_run (v_chan v) buf IPC_BUFFER_FROM_LOCAL (fun pool_id buf_id => _)).
  destruct (bd_of_buf _ _ _) as [[e | [pool_id buf_id]] |] eqn:Eb; [| | reflexivity].
  - rewrite (cbind_Ret _ _ _ _ _ (wrun_done v _ w)). unfold bd_of_buf in Eb.
    destruct (pool_of_buf _ _ _ _ _) as [id |]; [| discriminate]. cbn [mbind option_bind] in Eb.
    destruct (id =? - EINVAL); [now injection Eb as <- |]. destruct (nthZ _ id); [| discriminate].
    cbn [mbind option_bind] in Eb. now destruct (buf_size _ =? 0).
  - erewrite (cbind_same (wrun v _)); [| apply wrun_op | reflexivity]. rewrite cbind_assoc.
    cbn [own_queue run_op].
    erewrite (cbind_same (on_mem (cbind _ _))); [| apply on_mem_bind | reflexivity]. rewrite cbind_assoc.
    apply cbind_same; [reflexivity |]. intros err w1 E1.
    erewrite (cbind_Ret (on_mem (cret _))) by (apply on_mem_read; reflexivity). cbn [fst].
    destruct (Z.eqb_spec err 0) as [-> | Hne]; cbn [negb]; rewrite (cbind_Ret _ _ _ _ _ (wrun_done v _ w1)); [reflexivity |].
    assert (Hc : err = 0 \/ err = - EINVAL \/ err = - ENOMEM).
    { unfold on_mem, czoom in E1. destruct (ipc_queue_push _ _ _) as [r1 m1 |] eqn:Ep; [| discriminate].
      injection E1 as <- _. apply (push_codes (bd_queue (v_chan v)) (bd_encode (BD pool_id (u16 buf_id) size)) (w_mem w) (r1, None) m1).
      cbn [run_op]. now rewrite (cbind_Ret _ _ _ _ _ Ep). }
    destruct Hc as [-> | [-> | ->]]; [easy | reflexivity | reflexivity].
Qed.

(** [bd_of_buf] gives an active pool. *)
Lemma bd_of_buf_some c buf remote x :
  0 <= num_pools c < 32768 -> bd_of_buf c buf remote = Some x ->
  match x with
  | inl e => e = - EINVAL
  | inr (k, _) => exists pool, nthZ (pools c) k = Some pool /\ own_queue c (Some (Z.to_nat k)) = pool_bd_queue pool
  end.
Proof.
  intros Hn E. unfold bd_of_buf in E.
  destruct (pool_of_buf _ _ _ _ _) as [id |] eqn:Ef; [| discriminate]. cbn [mbind option_bind] in E.
  destruct (Z.eqb_spec id (- EINVAL)) as [-> | Hne]; [now injection E as <- |].
  apply pool_of_buf_range in Ef; [| lia | lia]. destruct Ef as [Ef | Ef]; [easy |].
  destruct (nthZ (pools c) id) as [pool |] eqn:Ep; [| discriminate]. cbn [mbind option_bind] in E.
  destruct (buf_size pool =? 0); [discriminate |]. injection E as <-. exists pool. split; [exact Ep |].
  apply active_lookup in Ep; [| lia]. cbn [own_queue]. now rewrite Ep.
Qed.

Lemma release_run buf :
  num_pools (v_chan v) < 32768 ->
  ipc_shm_release_buf i ch buf w = wrun v (ipc_shm_release_buf_steps v buf) w.
Proof.
  intros Hn. unfold ipc_shm_release_buf, ipc_shm_release_buf_steps. rewrite wrun_bind, instance_used_run.
  apply cbind_same; [reflexivity |]. intros u w1 E1. apply wrun_loads in E1 as ->; [| apply used_loads].
  destruct (negb u); [now rewrite wrun_done |]. rewrite channel_run. destruct (buf =? NULL); [now rewrite wrun_done |].
  rewrite wrun_bind. apply cbind_same; [apply mchan_integrity_run, V |]. intros ok w1 E1.
  rewrite (mchan_integrity_run v) in E1 by apply V. apply wrun_loads in E1 as ->; [| apply mchan_integrity_loads].
  destruct (negb (ok =? 0)); [now rewrite wrun_done |]. unfold bd_of_buf. unfold cbind at 1. rewrite find_pool_run.
  destruct (pool_of_buf _ _ _ _ _) as [id |] eqn:Ef; [| reflexivity]. cbn [mbind option_bind copt]. unfold cret at 1.
  destruct (Z.eqb_spec id (- EINVAL)) as [-> | Hne]; [now rewrite wrun_done |].
  destruct (nthZ (pools (v_chan v)) id) as [pool |] eqn:Ep; [| reflexivity].
  rewrite cbind_copt. unfold udiv. cbn [mbind option_bind].
  change (if IPC_BUFFER_FROM_REMOTE =? IPC_BUFFER_FROM_REMOTE then remote_pool_addr pool else local_pool_addr pool)
    with (remote_pool_addr pool).
  destruct (buf_size pool =? 0) eqn:Ez; [reflexivity |]. rewrite cbind_cret, wrun_op.
  assert (Eb : bd_of_buf (v_chan v) buf IPC_BUFFER_FROM_REMOTE
               = Some (inr (id, u64 (buf - remote_pool_addr pool) / buf_size pool))).
  { unfold bd_of_buf. rewrite Ef. cbn [mbind option_bind]. apply Z.eqb_neq in Hne as ->. rewrite Ep.
    cbn [mbind option_bind]. now rewrite Ez. }
  apply bd_of_buf_some in Eb as (pool' & Ep' & Eq); [| split; [apply V | exact Hn]].
  assert (pool' = pool) as -> by congruence. rewrite Eq. cbn [run_op]. unfold on_mem, czoom, cbind.
  destruct (ipc_queue_push _ _ (w_mem w)) as [r m1 |]; [| reflexivity]. unfold cret. cbn [fst]. now rewrite wrun_done.
Qed.

Lemma rx_one_run :
  managed_rx_one i ch w
  = (let* r := wrun v (managed_rx_one_steps v) in
     match r with
     | None => cret false
     | Some x => deliver (v_chan v) i (default 0 (ch_id <$> nthZ (p_channels p) ch)) x ;;; cret true
     end) w.
Proof.
  destruct (hm_chan _ _ _ (hv_chan _ _ _ _ _ V)) as (k & Hk & _ & Ek).
  unfold managed_rx_one, managed_rx_one_steps. rewrite Hk. cbn [fmap option_fmap option_map default].
  rewrite (cbind_Ret _ _ _ _ _ (get_channel_priv_eval _ _ _ _ _ (hv_priv _ _ _ _ _ V) Hk)). cbv zeta. rewrite Ek.
  erewrite (cbind_same (wrun v _)); [| apply wrun_op | reflexivity]. rewrite cbind_assoc.
  apply cbind_same; [reflexivity |]. intros r w1 E1.
  assert (K : w_priv w1 = w_priv w /\ w_plat w1 = w_plat w /\ mem_regions (w_mem w1) = mem_regions (w_mem w)).
  { apply (wrun_keeps v (COp None OpPop (fun r => CDone r)) w r w1). rewrite wrun_op.
    rewrite (cbind_Ret _ _ _ _ _ E1). apply wrun_done. }
  destruct K as (K1 & K2 & K3). destruct (negb (r.1 =? 0)); [now rewrite (cbind_Ret _ _ _ _ _ (wrun_done v _ w1)) |].
  destruct (nthZ (pools (v_chan v)) _) as [pool |]; [| reflexivity]. rewrite cbind_copt. cbv zeta.
  assert (Hl : plat_live i (mem_regions (w_mem w1)) (w_plat w1)) by (rewrite K2, K3; apply V).
  rewrite (cbind_Ret _ _ _ _ _ (get_remote_eval _ _ Hl)), K2.
  assert (Hp : nthZ (w_priv w1) i = Some p) by (rewrite K1; apply V).
  rewrite (cbind_Ret _ _ _ _ _ (get_priv_eval _ _ _ Hp)).
  rewrite <- (hv_rbase _ _ _ _ _ V), <- (hv_size _ _ _ _ _ V).
  destruct (_ && _); now rewrite (cbind_Ret _ _ _ _ _ (wrun_done v _ w1)).
Qed.

End View.

End Shm.
