(* ===== verification/ChannelProto.v ===== *)
(** * The protocol of a managed channel

    Who may do what with the queues of a channel, and that the four calls of
    [ChannelSteps] keep to it: a descriptor is put into a queue by the thread
    that has the buffer in hand, and a thread that takes one has its buffer in
    hand until it returns. *)

From S2P Require Import Prelude Memory Types Queue QueueSpec Atomic QueueSteps Linear.
From S2P Require Import World Shm ShmSpec Traffic Delivery Ownership Clients ChannelSteps.
#[local] Open Scope Z_scope.

(** ** Threads and calls *)

(** Functions of the driver that use a channel; each end has a thread for each. *)
Inductive fn : Type := FAcquire | FTx | FRx | FRelease.
#[export] Instance fn_eq_dec : EqDecision fn.
Proof. solve_decision. Defined.

Abbreviation user := (endpoint * fn)%type.

Inductive call : Type :=
| CallAcquire (mem_size : Z)
| CallTx (buf size : Z)
| CallRx
| CallRelease (buf : Z).

Inductive answer : Type :=
| AAddr (buf : Z)
| ACode (err : Z)
| AMsg (msg : option (option (Z * Z))).

(** Sizes are 32-bit; a message is not empty. *)
Definition may_call (t : user) (op : call) : Prop :=
  match t.2, op with
  | FAcquire, CallAcquire n => True
  | FTx, CallTx _ size => 0 < size < 4294967296
  | FRx, CallRx => True
  | FRelease, CallRelease _ => True
  | _, _ => False
  end.

Definition call_steps (v : view) (op : call) : call_prog answer :=
  match op with
  | CallAcquire n => let% a := ipc_shm_acquire_buf_steps v n in CDone (AAddr a)
  | CallTx buf size => let% e := ipc_shm_tx_steps v buf size in CDone (ACode e)
  | CallRx => let% x := managed_rx_one_steps v in CDone (AMsg x)
  | CallRelease buf => let% e := ipc_shm_release_buf_steps v buf in CDone (ACode e)
  end.

(** The end whose buffers a thread handles. *)
Definition dir (t : user) : endpoint :=
  match t.2 with FAcquire | FTx => t.1 | FRx | FRelease => peer t.1 end.

(** ** Descriptors and queues *)

Definition in_channel (c : ipc_managed_channel) (k : queue_id) : Prop :=
  match k with None => True | Some i => (i < length (active_pools c))%nat end.

Definition queues_of (c : ipc_managed_channel) : list queue_id := None :: (Some <$> seq 0 (length (active_pools c))).

(** Descriptors that may be in queue [k], and the buffers they name. *)
Definition named (c : ipc_managed_channel) (k : queue_id) (bd : ipc_shm_bd) : Prop :=
  match k with
  | None => exists (i : nat) p, active_pools c !! i = Some p /\ bd_names i p bd
  | Some i => exists p, active_pools c !! i = Some p /\ bd_names i p bd
  end.

Definition queue_bufs (c : ipc_managed_channel) (k : queue_id) : list Z :=
  match k with
  | None => all_bufs c
  | Some i => from_option pool_bufs [] (active_pools c !! i)
  end.

Lemma named_weaken c k bd : named c k bd -> named c None bd.
Proof. destruct k as [i |]; [| easy]. intros (p & Hp & Hn). cbn. eauto. Qed.

Lemma named_buf m c k bd : mchan_wf m c -> named c k bd -> bd_buf c bd ∈ queue_bufs c k.
Proof.
  intros Hc. destruct k as [i |]; cbn [named queue_bufs].
  - intros (p & Hp & Hn). rewrite Hp. cbn. apply (bd_buf_names m c i p bd Hc Hp Hn).
  - intros (i & p & Hp & Hn). apply (bd_buf_names m c i p bd Hc Hp Hn).
Qed.

Lemma named_inv m c k bd :
  mchan_wf m c -> named c k bd ->
  bd_ok bd /\ exists (i : nat) p, active_pools c !! i = Some p /\ nthZ (pools c) (Z.of_nat i) = Some p /\
    0 <= Z.of_nat i < num_pools c /\ bd_names i p bd /\ bd_buf c bd = local_buf p (bd_buf_id bd) /\
    match k with None => True | Some i' => i' = i end.
Proof.
  intros Hc Hn.
  assert (H : exists (i : nat) p, active_pools c !! i = Some p /\ bd_names i p bd /\ match k with None => True | Some i' => i' = i end).
  { destruct k as [i |]; [destruct Hn as (p & Hp & Hn) | destruct Hn as (i & p & Hp & Hn)]; eauto. }
  destruct H as (i & p & Hp & Hb & Hk). assert (Hl := lookup_lt_Some _ _ _ Hp). rewrite (active_length _ _ Hc) in Hl.
  assert (Hnum := mw_num _ _ Hc). split; [apply Hb |]. exists i, p. split_and!; auto; try lia.
  - apply active_lookup; [lia |]. now rewrite Nat2Z.id.
  - apply (bd_buf_names m c i p bd Hc Hp Hb).
Qed.

(** One FIFO per queue, towards the end that sends or towards the end that
    acquires. *)
Definition fifo_at {X} (e : endpoint) (k : queue_id) (s : queue_id -> X * X) : X :=
  match k with None => (swap_at e (s k)).1 | Some _ => (swap_at e (s k)).2 end.

(** ** Roles *)

(** Single producer and single consumer of each direction of each queue. *)
Definition may (c : ipc_managed_channel) (t : user) (k : queue_id) (r : role) : Prop :=
  in_channel c k /\
  match t.2, k, r with
  | FAcquire, Some _, Popper | FTx, None, Pusher | FRx, None, Popper | FRelease, Some _, Pusher => True
  | _, _, _ => False
  end.

Lemma may_roles c t t' k r : may c t k r -> may c t' k r -> t.1 = t'.1 -> t = t'.
Proof. destruct t as [e f], t' as [e' f']. intros [_ H] [_ H'] E. cbn in *. subst e'. now destruct f, k, r, f'. Qed.

Section Protocol.
Context (vw : endpoint -> view) (fixed : nat -> Z -> option Z).
Abbreviation chan e := (v_chan (vw e)).

(** What a thread gives back when it returns. *)
Definition given (t : user) (r : answer) (hand : list Z) : Prop :=
  match t.2, r with
  | FAcquire, AAddr a => if decide (a = NULL) then hand = [] else hand = [a]
  | FRx, AMsg None => hand = []
  | FRx, AMsg (Some (Some (a, _))) => hand = [a]
  | FTx, ACode e | FRelease, ACode e => e = 0 /\ hand = []
  | _, _ => False
  end.

(** [p] keeps to the protocol with the buffers in [hand]. *)
Fixpoint keeps (t : user) (p : call_prog answer) (hand : list Z) : Prop :=
  match p with
  | CDone r => given t r hand
  | CWrong => False
  | CLoad n a f => exists v, fixed n a = Some v /\ keeps t (f v) hand
  | COp k op f =>
      may (chan Near) t k (role_of op) /\
      match op with
      | OpPop =>
          hand = [] /\ keeps t (f (- ENOBUFS, None)) [] /\
          forall bd, named (chan (dir t)) k bd ->
            keeps t (f (0, Some (bd_encode bd))) [bd_buf (chan (dir t)) bd]
      | OpPush x =>
          exists bd, hand = [bd_buf (chan (dir t)) bd] /\ x = bd_encode bd /\ named (chan (dir t)) k bd /\
            keeps t (f (0, None)) []
      end
  end.

End Protocol.

(** ** The two ends of a channel *)

(** [m] is a memory in which both ends are up: the channel as they know it, the
    state words at the bases of the two halves and outside the queues. *)
Record connected (vw : endpoint -> view) (m : memory) : Prop := {
  cn_wf : forall e, mchan_wf m (v_chan (vw e));
  cn_sep : chan_sep (v_chan (vw Near));
  cn_apart : forall e, pools_apart local_pool_addr (active_pools (v_chan (vw e)));
  cn_peer : forall e, peer_chan (v_chan (vw e)) (v_chan (vw (peer e)));
  cn_cap : forall e, elem_num (bd_queue (v_chan (vw e))) - 1 = Z.of_nat (length (all_bufs (v_chan (vw e))));
  cn_inside : forall e, Forall (fun p => pool_inside (v_local (vw e)) (v_size (vw e)) (local_pool_addr p) p)
                          (active_pools (v_chan (vw e)));
  cn_remote : forall e, v_remote (vw e) = v_local (vw (peer e)) /\ v_size (vw e) = v_size (vw (peer e));
  cn_state : forall e, v_state (vw e) = v_local (vw e);
  cn_ready : forall e, mapped m (v_local (vw e)) 8 = true /\ uint_at 8 m (v_local (vw e)) = IPC_SHM_STATE_READY;
  cn_word : forall e k x, in_channel (v_chan (vw Near)) k -> range (v_local (vw e)) 8 x ->
              ~ in_rings (own_queue (v_chan (vw Near)) k) x
}.

(** Words that no call changes: the state words and the sentinels. *)
Definition constants (vw : endpoint -> view) : list Z :=
  [v_local (vw Near); v_local (vw Far)] ++
  concat ((fun k => let q := own_queue (v_chan (vw Near)) k in [push_ring q + RING_SENTINEL; pop_ring q + RING_SENTINEL])
            <$> queues_of (v_chan (vw Near))).

Definition fixed_in (vw : endpoint -> view) (m : memory) (n : nat) (a : Z) : option Z :=
  if bool_decide (n = 8%nat /\ a ∈ constants vw) then Some (uint_at 8 m a) else None.

Lemma drop_cons_lookup {X} (l : list X) : forall i x r, drop i l = x :: r -> l !! i = Some x /\ drop (S i) l = r.
Proof. induction l as [|y l IH]; intros [|i] x r H; try discriminate; [now injection H as -> -> | now apply IH]. Qed.

Lemma elem_of_queues c k : k ∈ queues_of c <-> in_channel c k.
Proof.
  unfold queues_of, in_channel. rewrite elem_of_cons, list_elem_of_fmap. destruct k as [i |]; [| naive_solver].
  split.
  - intros [H | (j & E & Hj)]; [discriminate |]. injection E as ->. apply elem_of_seq in Hj. lia.
  - intros H. right. exists i. split; [reflexivity |]. apply elem_of_seq. lia.
Qed.

Section Connected.
Context (vw : endpoint -> view) (m : memory) (C : connected vw m).
Abbreviation chan e := (v_chan (vw e)).
Abbreviation fixed := (fixed_in vw m).
Abbreviation keeps_to := (keeps vw fixed).

Lemma constants_inv a :
  a ∈ constants vw -> (exists e, a = v_local (vw e)) \/
  exists k, in_channel (chan Near) k /\
    (a = push_ring (own_queue (chan Near) k) + RING_SENTINEL \/ a = pop_ring (own_queue (chan Near) k) + RING_SENTINEL).
Proof.
  unfold constants. rewrite elem_of_app, !elem_of_cons.
  intros [[-> | [-> | H]] | H]; [eauto | eauto | now apply elem_of_nil in H |].
  apply list_elem_of_In, in_concat in H as (l & Hl & Ha). right. apply list_elem_of_In in Hl; apply list_elem_of_In in Ha.
  apply list_elem_of_fmap in Hl as (k & -> & Hk). exists k. split; [now apply elem_of_queues |].
  rewrite !elem_of_cons in Ha. destruct Ha as [-> | [-> | H]]; [auto | auto | now apply elem_of_nil in H].
Qed.

Lemma state_fixed e : fixed 8 (v_local (vw e)) = Some IPC_SHM_STATE_READY.
Proof.
  unfold fixed_in. rewrite bool_decide_true.
  - f_equal. apply (cn_ready _ _ C).
  - split; [reflexivity |]. unfold constants. rewrite elem_of_app, !elem_of_cons. destruct e; auto.
Qed.

Lemma queue_in_order k : in_channel (chan Near) k -> queue_wf m (own_queue (chan Near) k).
Proof.
  assert (H := cn_wf _ _ C Near). destruct k as [i |]; cbn [own_queue in_channel]; [| intros _; apply H].
  intros Hi. apply lookup_lt_is_Some_2 in Hi as [p Hp]. rewrite Hp. cbn [from_option].
  apply (Forall_lookup_1 _ _ _ _ (mw_pools _ _ H) Hp).
Qed.

(** Each end's queues are those of the near end, seen from its side. *)
Lemma own_queue_end e k :
  in_channel (chan Near) k -> own_queue (chan e) k = end_queue (own_queue (chan Near) k) e.
Proof.
  intros Hk. destruct e; [reflexivity |]. assert (HP := cn_peer _ _ C Near). cbn [peer] in HP.
  destruct k as [i |]; cbn [own_queue end_queue in_channel] in *; [| apply HP].
  apply lookup_lt_is_Some_2 in Hk as [p Hp].
  destruct (Forall2_lookup_l _ _ _ _ _ (peer_active _ _ HP) Hp) as (q & Hq & Hpq). rewrite Hp, Hq. apply Hpq.
Qed.

Lemma in_channel_end e k : in_channel (chan e) k <-> in_channel (chan Near) k.
Proof.
  destruct e; [reflexivity |]. destruct k as [i |]; [| reflexivity]. cbn [in_channel].
  assert (HF := peer_active _ _ (cn_peer _ _ C Near)). cbn [peer] in HF. now rewrite (Forall2_length HF).
Qed.

Lemma sentinel_fixed e k :
  in_channel (chan Near) k ->
  fixed 8 (push_ring (own_queue (chan e) k) + RING_SENTINEL) = Some IPC_QUEUE_INIT_DONE /\
  fixed 8 (pop_ring (own_queue (chan e) k) + RING_SENTINEL) = Some IPC_QUEUE_INIT_DONE.
Proof.
  intros Hk. assert (Hq := queue_in_order k Hk). rewrite own_queue_end by exact Hk.
  assert (H : forall a, a = push_ring (own_queue (chan Near) k) + RING_SENTINEL \/
                        a = pop_ring (own_queue (chan Near) k) + RING_SENTINEL ->
              fixed 8 a = Some IPC_QUEUE_INIT_DONE).
  { intros a Ha. unfold fixed_in. rewrite bool_decide_true.
    - f_equal. destruct Ha as [-> | ->]; apply Hq.
    - split; [reflexivity |]. unfold constants. rewrite elem_of_app. right.
      rewrite list_elem_of_In, in_concat. eexists. rewrite <- !list_elem_of_In. split.
      + apply list_elem_of_fmap. exists k. split; [reflexivity | now apply elem_of_queues].
      + rewrite !elem_of_cons. tauto. }
  destruct e; cbn [end_queue mirror push_ring pop_ring]; auto.
Qed.

(** ** The checks of a call succeed *)

Lemma keeps_used e t h (k : bool -> call_prog answer) :
  keeps_to t (k true) h -> keeps_to t (client_bind (instance_used_steps (vw e)) k) h.
Proof.
  intros H. cbn [instance_used_steps client_bind keeps]. exists IPC_SHM_STATE_READY.
  rewrite (cn_state _ _ C). split; [apply state_fixed | exact H].
Qed.

Lemma keeps_ready e t h (k : Z -> call_prog answer) :
  keeps_to t (k 0) h -> keeps_to t (client_bind (remote_ready_steps (vw e)) k) h.
Proof.
  intros H. cbn [remote_ready_steps instance_used_steps client_bind keeps]. exists IPC_SHM_STATE_READY.
  rewrite (cn_state _ _ C). split; [apply state_fixed |].
  change (negb (negb (IPC_SHM_STATE_READY =? IPC_SHM_STATE_CLEAR))) with false. cbn [client_bind keeps].
  exists IPC_SHM_STATE_READY. rewrite (proj1 (cn_remote _ _ C e)). split; [apply state_fixed | exact H].
Qed.

Lemma keeps_integrity e k t h (f : Z -> call_prog answer) :
  in_channel (chan Near) k -> keeps_to t (f 0) h ->
  keeps_to t (client_bind (queue_integrity_steps (own_queue (chan e) k)) f) h.
Proof.
  intros Hk H. destruct (sentinel_fixed e k Hk) as [H1 H2].
  cbn [queue_integrity_steps client_bind keeps]. exists IPC_QUEUE_INIT_DONE. split; [exact H2 |].
  rewrite Z.eqb_refl. cbn [negb client_bind keeps]. exists IPC_QUEUE_INIT_DONE. split; [exact H1 |].
  now rewrite Z.eqb_refl.
Qed.

(** Sequencing is associative, as far as the protocol goes. *)
Lemma keeps_assoc {A B} t (p : call_prog A) (f : A -> call_prog B) (g : B -> call_prog answer) : forall h,
  keeps_to t (client_bind p (fun x => client_bind (f x) g)) h -> keeps_to t (client_bind (client_bind p f) g) h.
Proof.
  induction p as [a | | n a k IH | k op k' IH]; intros h; cbn [client_bind keeps]; auto.
  - intros (v & Hv & H). eauto.
  - intros [Hm H]. split; [exact Hm |]. destruct op as [x |].
    + destruct H as (bd & H1 & H2 & H3 & H4). eauto 6.
    + destruct H as (H1 & H2 & H3). auto.
Qed.

Lemma keeps_pools e t h (f : Z -> call_prog answer) : forall ps (i : nat),
  drop i (active_pools (chan e)) = ps -> keeps_to t (f 0) h ->
  keeps_to t (client_bind (pools_integrity_steps ps) f) h.
Proof.
  induction ps as [|p ps IH]; intros i Hd H; cbn [pools_integrity_steps]; [exact H |].
  apply keeps_assoc. apply drop_cons_lookup in Hd as [Hp Hd].
  assert (Ei : own_queue (chan e) (Some i) = pool_bd_queue p) by (cbn [own_queue]; now rewrite Hp).
  rewrite <- Ei. apply keeps_integrity.
  - apply (in_channel_end e). cbn. eapply lookup_lt_Some; eauto.
  - cbn [Z.eqb negb]. now apply (IH (S i)).
Qed.

Lemma keeps_mchan e t h (f : Z -> call_prog answer) :
  keeps_to t (f 0) h -> keeps_to t (client_bind (mchan_integrity_steps (chan e)) f) h.
Proof.
  intros H. apply keeps_assoc. apply (keeps_integrity e None); [exact I |].
  cbn [Z.eqb]. now apply (keeps_pools e t h f _ 0%nat).
Qed.

(** ** Each call keeps to the protocol *)

Lemma keeps_acquire_from e sz h (f : option (ipc_shm_pool * ipc_shm_bd) -> call_prog answer) : forall ps (i : nat),
  h = [] -> drop i (active_pools (chan e)) = ps -> keeps_to (e, FAcquire) (f None) [] ->
  (forall (j : nat) p bd, active_pools (chan e) !! j = Some p -> bd_names j p bd ->
     keeps_to (e, FAcquire) (f (Some (p, bd))) [bd_buf (chan e) bd]) ->
  keeps_to (e, FAcquire) (client_bind (acquire_pool_steps i ps sz) f) h.
Proof.
  intros ps. induction ps as [|p ps IH]; intros i -> Hd H0 H1; cbn [acquire_pool_steps]; [exact H0 |].
  apply drop_cons_lookup in Hd as [Hp Hd]. destruct (_ <? _); [now apply (IH (S i)) |].
  cbn [client_bind keeps]. split.
  - split; [| exact I]. apply (in_channel_end e). cbn. eapply lookup_lt_Some; eauto.
  - split; [reflexivity |]. split; [now apply (IH (S i)) |].
    intros bd (p' & Hp' & Hn). cbn [dir fst snd] in Hp', Hn |- *. assert (p' = p) as -> by congruence.
    cbn [Z.eqb client_bind default from_option id]. rewrite bd_decode_encode by apply Hn. now apply (H1 i).
Qed.

Lemma acquire_keeps_to e sz : keeps_to (e, FAcquire) (call_steps (vw e) (CallAcquire sz)) [].
Proof.
  cbn [call_steps]. apply keeps_assoc, keeps_ready. cbn [Z.eqb negb].
  assert (H0 : keeps_to (e, FAcquire) (CDone (AAddr NULL)) []) by reflexivity.
  destruct (sz =? 0); [exact H0 |]. apply keeps_assoc, keeps_mchan. cbn [Z.eqb negb].
  apply keeps_assoc. apply (keeps_acquire_from e sz [] _ _ 0%nat); auto.
  intros j p bd Hp Hn. assert (Hc := cn_wf _ _ C e).
  destruct (bd_buf_names m _ _ _ _ Hc Hp Hn) as (Eb & _). rewrite Eb.
  assert (Hw := Forall_lookup_1 _ _ _ _ (mw_pools _ _ Hc) Hp).
  assert (Hin := Forall_lookup_1 _ _ _ _ (cn_inside _ _ C e) Hp). cbv beta in Hin.
  destruct Hn as (Hok & Hid & Hj). destruct (buf_addr_eval _ _ _ _ _ _ Hw Hin Hj) as (E1 & E2 & E3 & B1 & B2).
  cbv zeta. rewrite E1, E2, E3. fold (local_buf p (bd_buf_id bd)) in *.
  replace (_ || _) with false by (symmetry; rewrite orb_false_iff, !Z.ltb_ge; auto).
  cbn [client_bind keeps given snd]. rewrite decide_False; [reflexivity |].
  assert (Hs := pw_size _ _ Hw). assert (Hl := pw_local _ _ Hw). unfold local_buf, NULL. nia.
Qed.

(** What [bd_of_buf] finds for a buffer of a pool. *)
Lemma bd_of_buf_owner e remote (i : nat) p j :
  pools_apart (addr_of remote) (active_pools (chan e)) ->
  active_pools (chan e) !! i = Some p -> 0 <= j < num_bufs p ->
  let buf := addr_of remote p + j * buf_size p in
  bd_of_buf (chan e) buf remote = Some (inr (Z.of_nat i, j)) /\ buf <> NULL /\ u16 j = j.
Proof.
  intros Ha Hp Hj buf. assert (Hc := cn_wf _ _ C e). assert (Hl := lookup_lt_Some _ _ _ Hp).
  rewrite (active_length _ _ Hc) in Hl. assert (Hn := mw_num _ _ Hc).
  assert (Hk : 0 <= Z.of_nat i < num_pools (chan e)) by lia.
  assert (Hp' : nthZ (pools (chan e)) (Z.of_nat i) = Some p) by (apply active_lookup; [lia | now rewrite Nat2Z.id]).
  destruct (buf_owner (P := unit) m (chan e) remote (Z.of_nat i) j p (World m [] tt) Hc Ha Hk Hp' Hj) as (F & D & N & U & W).
  split_and!; auto. rewrite find_pool_run in F. unfold bd_of_buf.
  destruct (pool_of_buf _ _ _ _ _) as [id |]; [| discriminate F]. injection F as ->. cbn [mbind option_bind].
  replace (Z.of_nat i =? - EINVAL) with false by (symmetry; apply Z.eqb_neq; unfold EINVAL; lia).
  rewrite Hp'. cbn [mbind option_bind]. fold (addr_of remote p).
  replace (buf_size p =? 0) with false by (symmetry; apply Z.eqb_neq; assert (H := pw_size _ _ W); lia).
  unfold buf in D |- *. now rewrite D.
Qed.

Lemma buf_names e a :
  a ∈ all_bufs (chan e) ->
  exists (i : nat) p j, active_pools (chan e) !! i = Some p /\ 0 <= j < num_bufs p /\ a = local_buf p j /\
    forall size, 0 <= size < 4294967296 ->
      bd_names i p (BD (Z.of_nat i) j size) /\ bd_buf (chan e) (BD (Z.of_nat i) j size) = a.
Proof.
  intros Ha. apply elem_of_all_bufs in Ha as (i & p & j & Hp & Hj & ->). exists i, p, j.
  assert (Hc := cn_wf _ _ C e). assert (Hl := lookup_lt_Some _ _ _ Hp).
  rewrite (active_length _ _ Hc) in Hl. assert (Hn := mw_num _ _ Hc).
  assert (Hb := pw_num _ _ (Forall_lookup_1 _ _ _ _ (mw_pools _ _ Hc) Hp)).
  unfold IPC_SHM_MAX_POOLS, IPC_SHM_MAX_BUFS_PER_POOL in *. split_and!; auto; try lia. intros size Hs.
  assert (Hnames : bd_names i p (BD (Z.of_nat i) j size)).
  { split; [unfold bd_ok; cbn; lia |]. split; [reflexivity | exact Hj]. }
  split; [exact Hnames |]. now destruct (bd_buf_names m _ _ _ _ Hc Hp Hnames).
Qed.

Lemma tx_keeps_to e a size :
  a ∈ all_bufs (chan e) -> 0 < size < 4294967296 -> keeps_to (e, FTx) (call_steps (vw e) (CallTx a size)) [a].
Proof.
  intros Ha Hs. apply buf_names in Ha as (i & p & j & Hp & Hj & -> & Hn).
  destruct (bd_of_buf_owner e IPC_BUFFER_FROM_LOCAL i p j (cn_apart _ _ C e) Hp Hj) as (Eb & Hnull & Hu).
  change (addr_of IPC_BUFFER_FROM_LOCAL p + j * buf_size p) with (local_buf p j) in *.
  cbn [call_steps]. apply keeps_assoc, keeps_ready. cbn [Z.eqb negb].
  replace ((local_buf p j =? NULL) || (size =? 0)) with false
    by (symmetry; rewrite orb_false_iff, !Z.eqb_neq; split; [exact Hnull | lia]).
  apply keeps_assoc, keeps_mchan. cbn [Z.eqb negb]. rewrite Eb, Hu. cbn [client_bind keeps].
  split; [split; exact I |]. destruct (Hn size ltac:(lia)) as [Hn1 Hn2].
  exists (BD (Z.of_nat i) j size). cbn [dir fst snd]. rewrite Hn2. split_and!; [reflexivity | reflexivity | | easy].
  exists i, p. auto.
Qed.

(** Pools of the other end: the same buffers, on its remote side. *)
Lemma peer_lookup e (i : nat) p :
  active_pools (chan (peer e)) !! i = Some p ->
  exists q, active_pools (chan e) !! i = Some q /\ peer_pool p q.
Proof.
  intros Hp. assert (HP := cn_peer _ _ C (peer e)). replace (peer (peer e)) with e in HP by now destruct e.
  destruct (Forall2_lookup_l _ _ _ _ _ (peer_active _ _ HP) Hp) as (q & Hq & Hpq). eauto.
Qed.

Lemma remote_apart e : pools_apart remote_pool_addr (active_pools (chan e)).
Proof.
  assert (HP := cn_peer _ _ C (peer e)). replace (peer (peer e)) with e in HP by now destruct e.
  eapply peer_apart; [exact HP | apply (cn_apart _ _ C)].
Qed.

Lemma remote_is_local p q j : peer_pool p q -> remote_buf q j = local_buf p j.
Proof. intros [En Es Et Er Eq]. unfold remote_buf, local_buf. now rewrite Es, Et. Qed.

Lemma release_keeps_to e a :
  a ∈ all_bufs (chan (peer e)) -> keeps_to (e, FRelease) (call_steps (vw e) (CallRelease a)) [a].
Proof.
  intros Ha. apply buf_names in Ha as (i & p & j & Hp & Hj & -> & Hn).
  destruct (peer_lookup e i p Hp) as (q & Hq & Hpq). rewrite <- (remote_is_local p q j Hpq) in *.
  destruct (bd_of_buf_owner e IPC_BUFFER_FROM_REMOTE i q j (remote_apart e) Hq) as (Eb & Hnull & Hu).
  { now rewrite (pp_num _ _ Hpq). }
  change (addr_of IPC_BUFFER_FROM_REMOTE q + j * buf_size q) with (remote_buf q j) in *.
  cbn [call_steps]. apply keeps_assoc, keeps_used. cbn [negb].
  apply Z.eqb_neq in Hnull as ->. apply keeps_assoc, keeps_mchan. cbn [Z.eqb negb]. rewrite Eb, Hu.
  cbn [client_bind keeps]. rewrite Nat2Z.id. destruct (Hn 0 ltac:(lia)) as [Hn1 Hn2]. split.
  - split; [| exact I]. apply (in_channel_end e). cbn. eapply lookup_lt_Some; eauto.
  - exists (BD (Z.of_nat i) j 0). cbn [dir fst snd]. rewrite Hn2. split_and!; [reflexivity | reflexivity | | easy].
    exists p. auto.
Qed.

Lemma rx_keeps_to e : keeps_to (e, FRx) (call_steps (vw e) CallRx) [].
Proof.
  cbn [call_steps managed_rx_one_steps client_bind keeps]. split; [split; exact I |].
  split; [reflexivity |]. split; [reflexivity |]. cbn [dir fst snd]. intros bd Hn.
  assert (Hc' := cn_wf _ _ C (peer e)).
  destruct (named_inv _ _ _ _ Hc' Hn) as (Hok & i & p & Hp & _ & _ & (_ & Hid & Hj) & Eb & _).
  destruct (peer_lookup e i p Hp) as (q & Hq & Hpq). cbn [Z.eqb negb default from_option id].
  rewrite bd_decode_encode, Hid by exact Hok.
  assert (Hc := cn_wf _ _ C e). assert (Hl := lookup_lt_Some _ _ _ Hq). rewrite (active_length _ _ Hc) in Hl.
  assert (Hnum := mw_num _ _ Hc).
  assert (Hq' : nthZ (pools (chan e)) (Z.of_nat i) = Some q) by (apply active_lookup; [lia | now rewrite Nat2Z.id]).
  rewrite Hq'. cbv zeta.
  assert (Hw := Forall_lookup_1 _ _ _ _ (mw_pools _ _ Hc') Hp).
  assert (Hin := Forall_lookup_1 _ _ _ _ (cn_inside _ _ C (peer e)) Hp). cbv beta in Hin.
  destruct (buf_addr_eval _ _ _ _ _ _ Hw Hin Hj) as (E1 & E2 & E3 & B1 & B2).
  destruct (cn_remote _ _ C e) as [Er Es]. rewrite Er, Es, (pp_tx _ _ Hpq), (pp_size _ _ Hpq), E1, E2, E3.
  fold (local_buf p (bd_buf_id bd)) in *.
  replace (_ && _) with true by (symmetry; rewrite andb_true_iff, !Z.leb_le; auto).
  cbn [client_bind keeps given snd]. now rewrite Eb.
Qed.

(** ** The layout *)

Abbreviation base := (own_queue (chan Near)).
Abbreviation disc := (disciplined base (may (chan Near)) fixed).

Lemma disciplined_bind {A B} t (p : call_prog A) (f : A -> call_prog B) :
  disc t p -> (forall a, disc t (f a)) -> disc t (client_bind p f).
Proof.
  intros Hp Hf. induction p as [a | | n a k IH | k op k' IH]; cbn [client_bind disciplined] in *; auto.
  - destruct Hp as (v & Hv & H). eauto.
  - destruct Hp as (H1 & H2 & H3). auto.
Qed.

Lemma elem_size_bd k : in_channel (chan Near) k -> elem_size (base k) = SIZEOF_BD.
Proof.
  assert (Hc := cn_wf _ _ C Near). destruct k as [i |]; cbn [own_queue in_channel]; [| intros _; apply Hc].
  intros Hi. apply lookup_lt_is_Some_2 in Hi as [p Hp]. rewrite Hp. cbn [from_option].
  apply (Forall_lookup_1 _ _ _ _ (mw_pools _ _ Hc) Hp).
Qed.

Lemma bd_elem_ok k bd : in_channel (chan Near) k -> elem_ok (base k) (bd_encode bd).
Proof. intros Hk. split; [now rewrite elem_size_bd | apply bd_encode_ok]. Qed.

Lemma disc_used e t : disc t (instance_used_steps (vw e)).
Proof.
  unfold instance_used_steps. cbn [disciplined]. exists IPC_SHM_STATE_READY.
  rewrite (cn_state _ _ C). split; [apply state_fixed | exact I].
Qed.

Lemma disc_ready e t : disc t (remote_ready_steps (vw e)).
Proof.
  apply disciplined_bind; [apply disc_used |]. intros [|]; [| exact I]. cbn [negb disciplined].
  exists IPC_SHM_STATE_READY. rewrite (proj1 (cn_remote _ _ C e)). split; [apply state_fixed |].
  now destruct (negb _).
Qed.

Lemma disc_integrity e k t : in_channel (chan Near) k -> disc t (queue_integrity_steps (own_queue (chan e) k)).
Proof.
  intros Hk. destruct (sentinel_fixed e k Hk) as [H1 H2]. unfold queue_integrity_steps. cbn [disciplined].
  exists IPC_QUEUE_INIT_DONE. split; [exact H2 |]. destruct (negb _); [exact I |]. cbn [disciplined].
  exists IPC_QUEUE_INIT_DONE. split; [exact H1 |]. now destruct (_ =? _).
Qed.

Lemma disc_pools e t : forall ps (i : nat), drop i (active_pools (chan e)) = ps -> disc t (pools_integrity_steps ps).
Proof.
  induction ps as [|p ps IH]; intros i Hd; cbn [pools_integrity_steps]; [exact I |].
  apply drop_cons_lookup in Hd as [Hp Hd]. apply disciplined_bind.
  - assert (Ei : own_queue (chan e) (Some i) = pool_bd_queue p) by (cbn [own_queue]; now rewrite Hp).
    rewrite <- Ei. apply disc_integrity. apply (in_channel_end e). cbn. eapply lookup_lt_Some; eauto.
  - intros r. destruct (negb _); [exact I |]. now apply (IH (S i)).
Qed.

Lemma disc_mchan e t : disc t (mchan_integrity_steps (chan e)).
Proof.
  apply disciplined_bind; [now apply (disc_integrity e None) |]. intros r.
  destruct (_ =? _); [now apply (disc_pools e t _ 0%nat) | exact I].
Qed.

Lemma disc_acquire_pools e sz : forall ps (i : nat),
  drop i (active_pools (chan e)) = ps -> disc (e, FAcquire) (acquire_pool_steps i ps sz).
Proof.
  induction ps as [|p ps IH]; intros i Hd; cbn [acquire_pool_steps]; [exact I |].
  apply drop_cons_lookup in Hd as [Hp Hd]. destruct (_ <? _); [now apply (IH (S i)) |].
  cbn [disciplined]. split_and!; [split; [| exact I] | exact I |].
  - apply (in_channel_end e). cbn. eapply lookup_lt_Some; eauto.
  - intros r. destruct (_ =? _); [exact I | now apply (IH (S i))].
Qed.

(** What [bd_of_buf] finds is a pool of the channel. *)
Lemma bd_of_buf_pool e buf remote (k j : Z) :
  bd_of_buf (chan e) buf remote = Some (inr (k, j)) -> in_channel (chan Near) (Some (Z.to_nat k)).
Proof.
  intros E. assert (Hc := cn_wf _ _ C e). assert (Hn := mw_num _ _ Hc). unfold IPC_SHM_MAX_POOLS in Hn.
  unfold bd_of_buf in E. destruct (pool_of_buf _ _ _ _ _) as [id |] eqn:Ef; [| discriminate]. cbn [mbind option_bind] in E.
  destruct (Z.eqb_spec id (- EINVAL)) as [-> | Hne]; [discriminate |].
  apply pool_of_buf_range in Ef; [| lia | lia]. destruct Ef as [Ef | Ef]; [easy |].
  destruct (nthZ _ id) as [q |]; [| discriminate]. cbn [mbind option_bind] in E.
  destruct (buf_size q =? 0); [discriminate |]. injection E as <- _.
  apply (in_channel_end e). cbn. rewrite (active_length _ _ Hc). lia.
Qed.

Lemma call_disciplined t op : may_call t op -> disc t (call_steps (vw t.1) op).
Proof.
  assert (Hnamed : forall e buf remote (f : Z -> Z -> call_prog Z) t,
    (forall k j, in_channel (chan Near) (Some (Z.to_nat k)) -> disc t (f k j)) ->
    disc t match bd_of_buf (chan e) buf remote with
           | None => CWrong | Some (inl x) => CDone x | Some (inr (k, j)) => f k j end).
  { intros e buf remote f t' H. destruct (bd_of_buf _ _ _) as [[x | [k j]] |] eqn:Eb; [exact I | | exact I].
    apply H. eapply bd_of_buf_pool; eauto. }
  destruct t as [e f]. cbn [fst]. destruct f, op; intros H; try easy; apply disciplined_bind; try (intros; exact I).
  - apply disciplined_bind; [apply disc_ready |]. intros r. destruct (negb _); [exact I |].
    destruct (_ =? 0); [exact I |]. apply disciplined_bind; [apply disc_mchan |]. intros ok.
    destruct (negb _); [exact I |]. apply disciplined_bind; [now apply (disc_acquire_pools e _ _ 0%nat) |].
    intros [[p bd] |]; [| exact I]. cbv zeta. now destruct (_ || _).
  - apply disciplined_bind; [apply disc_ready |]. intros r. destruct (negb _); [exact I |].
    destruct (_ || _); [exact I |]. apply disciplined_bind; [apply disc_mchan |]. intros ok.
    destruct (negb _); [exact I |]. apply Hnamed. intros k j _. cbn [disciplined].
    split_and!; [split; exact I | now apply (bd_elem_ok None) |]. intros x. now destruct (negb _).
  - cbn [managed_rx_one_steps disciplined]. split_and!; [split; exact I | exact I |]. intros x.
    destruct (negb _); [exact I |]. destruct (nthZ _ _); [| exact I]. cbv zeta. now destruct (_ && _).
  - apply disciplined_bind; [apply disc_used |]. intros u. destruct (negb u); [exact I |].
    destruct (_ =? _); [exact I |]. apply disciplined_bind; [apply disc_mchan |]. intros ok.
    destruct (negb _); [exact I |]. apply Hnamed. intros k j Hk. cbn [disciplined].
    split_and!; [split; [exact Hk | exact I] | now apply (bd_elem_ok (Some _)) |]. intros x. exact I.
Qed.

Lemma queues_of_channel_apart k k' :
  in_channel (chan Near) k -> in_channel (chan Near) k' -> k <> k' -> queues_apart (base k) (base k').
Proof.
  destruct (cn_sep _ _ C) as [Hbd Hps]. intros Hk Hk' Hne.
  destruct k as [i |], k' as [i' |]; cbn [own_queue in_channel] in *; [| | | congruence];
    repeat match goal with H : (_ < _)%nat |- _ => apply lookup_lt_is_Some_2 in H as [? H]; rewrite H end;
    cbn [from_option].
  - apply (Hps i i'); auto.
  - intros y H1 H2. exact (Forall_lookup_1 _ _ _ _ Hbd Hk y H2 H1).
  - exact (Forall_lookup_1 _ _ _ _ Hbd Hk').
Qed.

(** No queue operation writes a constant. *)
Lemma constants_stay a k d r x :
  a ∈ constants vw -> in_channel (chan Near) k -> range a 8 x -> ~ footprint r (end_queue (base k) d) x.
Proof.
  intros Ha Hk Hx Fx. assert (Hq := queue_in_order k Hk).
  assert (Hin : in_rings (base k) x).
  { apply (in_rings_end (base k) d). eapply footprint_in_rings; [exact (proj2 (end_wf _ _ _) Hq) | exact Fx]. }
  apply constants_inv in Ha as [(e & ->) | (k' & Hk' & Ha)]; [now apply (cn_word _ _ C e k x Hk Hx) |].
  destruct (decide (k' = k)) as [-> | Hne].
  - ring_facts Hq. destruct d, r, Ha as [-> | ->]; cbn [end_queue mirror footprint push_ring pop_ring elem_num elem_size] in Fx;
      range_lia.
  - apply (queues_of_channel_apart k' k Hk' Hk Hne x); [| exact Hin].
    assert (Hq' := queue_in_order k' Hk'). ring_facts Hq'. unfold in_rings, ring_bytes. cbn [tx_link l_num l_size].
    destruct Ha as [-> | ->]; [left | right]; range_lia.
Qed.

Lemma channel_laid :
  well_laid (in_channel (chan Near)) base fst (may (chan Near)) fixed may_call (fun t => call_steps (vw t.1)) m.
Proof.
  assert (HF : forall n a v, fixed n a = Some v -> n = 8%nat /\ a ∈ constants vw /\ v = uint_at 8 m a).
  { intros n a v. unfold fixed_in. case_bool_decide as H; [| discriminate]. destruct H. intros E. injection E as <-. auto. }
  constructor.
  - exact queue_in_order.
  - exact queues_of_channel_apart.
  - now intros t k r [H _].
  - intros t t' k r. apply may_roles.
  - intros n a v Hv. apply HF in Hv as (-> & Ha & ->). split; [| reflexivity].
    apply constants_inv in Ha as [(e & ->) | (k & Hk & Ha)]; [apply (cn_ready _ _ C) |].
    assert (Hq := lw_shape _ _ (qw_tx _ _ (queue_in_order k Hk))).
    destruct Ha as [-> | ->]; eapply mapped_sub; [apply (ls_prod _ _ Hq) | | | apply (ls_cons _ _ Hq) | |];
      assert (H := ring_bytes_ge _ _ Hq); cbn [tx_link l_prod l_cons]; unfold RING_SIZE, RING_SENTINEL in *; lia.
  - intros n a v k d r x Hv Hk Hx. apply HF in Hv as (-> & Ha & _). now apply (constants_stay a).
  - exact call_disciplined.
Qed.

End Connected.
