(* ===== verification/Concurrent.v ===== *)
(** * A managed channel under concurrent use

    The two ends of a channel, each with a thread that acquires, one that sends,
    one that receives and one that releases, interleaved access by access.  Every
    buffer stays accounted for, no call faults, and what an application owns it
    can send or give back. *)

From S2P Require Import Prelude Memory Types Queue QueueSpec Atomic QueueSteps Linear.
From S2P Require Import World Shm ShmSpec Traffic Delivery Ownership Clients ChannelSteps ChannelProto.
From stdpp Require Import list.
#[local] Open Scope Z_scope.

(** ** Who owns which buffer *)

(** For each end, the buffers of its pools that its application holds, and
    those the other application has received and not yet released. *)
Abbreviation owner := (endpoint -> list Z * list Z).
Abbreviation chan_event := (event user call answer).

(** An application sends what it holds and releases what it has received. *)
Inductive own_step (o : owner) : chan_event -> owner -> Prop :=
| own_access t : own_step o (EAccess t) o
| own_acquire e n : own_step o (ECall (e, FAcquire) (CallAcquire n)) o
| own_acquired e a :
    own_step o (EReturn (e, FAcquire) (AAddr a))
      (if decide (a = NULL) then o else upd o e (a :: (o e).1, (o e).2))
| own_tx e l1 a l2 size :
    (o e).1 = l1 ++ a :: l2 ->
    own_step o (ECall (e, FTx) (CallTx a size)) (upd o e (l1 ++ l2, (o e).2))
| own_sent e r : own_step o (EReturn (e, FTx) (ACode r)) o
| own_rx e : own_step o (ECall (e, FRx) CallRx) o
| own_received e x :
    own_step o (EReturn (e, FRx) (AMsg x))
      (match x with
       | Some (Some (a, _)) => upd o (peer e) ((o (peer e)).1, a :: (o (peer e)).2)
       | _ => o
       end)
| own_release e l1 a l2 :
    (o (peer e)).2 = l1 ++ a :: l2 ->
    own_step o (ECall (e, FRelease) (CallRelease a)) (upd o (peer e) ((o (peer e)).1, l1 ++ l2))
| own_released e r : own_step o (EReturn (e, FRelease) (ACode r)) o.

(** Buffers in the hands of the calls in progress. *)
Definition hands (hand : user -> list Z) (e : endpoint) : list Z :=
  hand (e, FAcquire) ++ hand (e, FTx) ++ hand (peer e, FRx) ++ hand (peer e, FRelease).

Definition outside (o : owner) (hand : user -> list Z) (e : endpoint) : list Z :=
  (o e).1 ++ (o e).2 ++ hands hand e.

Lemma hands_upd hand t x : hands (upd hand t x) (dir t) ≡ₚ x ++ hands (upd hand t []) (dir t).
Proof.
  unfold hands. destruct t as [[] []]; cbn [dir fst snd peer]; rewrite !upd_same, ?upd_other by discriminate;
    solve_Permutation.
Qed.

Lemma hands_at hand t : hands hand (dir t) ≡ₚ hand t ++ hands (upd hand t []) (dir t).
Proof.
  unfold hands. destruct t as [[] []]; cbn [dir fst snd peer]; rewrite !upd_same, ?upd_other by discriminate;
    solve_Permutation.
Qed.

Lemma hands_other hand t x e : e <> dir t -> hands (upd hand t x) e = hands hand e.
Proof.
  unfold hands. destruct t as [[] []], e; cbn [dir fst snd peer]; try congruence; intros _;
    now rewrite ?upd_other by discriminate.
Qed.

(** A buffer changes hands between a thread and the applications. *)
Lemma outside_move o o' hand t x :
  (forall e, e <> dir t -> o' e = o e) ->
  (o (dir t)).1 ++ (o (dir t)).2 ++ hand t ≡ₚ (o' (dir t)).1 ++ (o' (dir t)).2 ++ x ->
  forall e, outside o hand e ≡ₚ outside o' (upd hand t x) e.
Proof.
  intros Ho Hp e. unfold outside. destruct (decide (e = dir t)) as [-> | Hne].
  - rewrite hands_upd, hands_at, !app_assoc, <- !(app_assoc _ _ (hands _ _)).
    rewrite !app_assoc in Hp. rewrite !app_assoc. now rewrite Hp.
  - now rewrite (Ho e Hne), hands_other.
Qed.

(** Between a thread and a queue. *)
Lemma outside_take o hand t b :
  hand t = [] -> outside o (upd hand t [b]) (dir t) ≡ₚ b :: outside o hand (dir t).
Proof. intros H. unfold outside. rewrite hands_upd, (hands_at hand), H. solve_Permutation. Qed.

Lemma outside_put o hand t b :
  hand t = [b] -> outside o hand (dir t) ≡ₚ b :: outside o (upd hand t []) (dir t).
Proof. intros H. unfold outside. rewrite (hands_at hand), H. solve_Permutation. Qed.

Lemma outside_other o hand t x e : e <> dir t -> outside o (upd hand t x) e = outside o hand e.
Proof. intros H. unfold outside. now rewrite hands_other. Qed.

(** ** What the queues hold *)

Definition stored (c : ipc_managed_channel) (bds : queue_id -> list ipc_shm_bd) : list Z :=
  concat ((fun k => bd_buf c <$> bds k) <$> queues_of c).

Lemma queues_NoDup c : NoDup (queues_of c).
Proof.
  apply NoDup_cons_2.
  - intros H. apply list_elem_of_fmap in H as (i & H & _). discriminate.
  - apply NoDup_fmap_2; [intros i j H; congruence | apply NoDup_seq].
Qed.

Lemma stored_split c bds k :
  in_channel c k ->
  exists rest, stored c bds ≡ₚ (bd_buf c <$> bds k) ++ rest /\
    forall l, stored c (upd bds k l) ≡ₚ (bd_buf c <$> l) ++ rest.
Proof.
  intros Hk. apply elem_of_queues, list_elem_of_split in Hk as (l1 & l2 & E).
  assert (Hn := queues_NoDup c). rewrite E in Hn. apply NoDup_app in Hn as (_ & H1 & H2).
  apply NoDup_cons_1_1 in H2.
  exists (concat ((fun k => bd_buf c <$> bds k) <$> l1) ++ concat ((fun k => bd_buf c <$> bds k) <$> l2)).
  unfold stored. rewrite E, !fmap_app, !fmap_cons, !concat_app. cbn [concat]. split; [solve_Permutation |].
  intros l. rewrite fmap_app, fmap_cons, concat_app. cbn [concat]. rewrite upd_same.
  assert (Ho : forall ks, k ∉ ks ->
    (fun k' => bd_buf c <$> upd bds k l k') <$> ks = (fun k => bd_buf c <$> bds k) <$> ks :> list (list Z)).
  { intros ks Hks. apply list_fmap_ext. intros i k' Hk'. rewrite upd_other; [reflexivity |].
    intros ->. apply Hks. eapply list_elem_of_lookup_2; eauto. }
  rewrite !Ho; [solve_Permutation | exact H2 |]. intros Hi. apply (H1 k Hi). now left.
Qed.

(** ** The effect of an operation on the FIFO of its direction *)

Section Effect.
Context (base : queue_id -> ipc_queue) (c : ipc_managed_channel).
Abbreviation effect t k op s := (queue_effect base (fst t) k op s).
Abbreviation cap k := (elem_num (base k) - 1).

Lemma effect_pop t k s :
  may c t k Popper ->
  (effect t k OpPop s).1 = (fifo_pop (fifo_at (dir t) k s)).1 /\
  fifo_at (dir t) k (effect t k OpPop s).2 = (fifo_pop (fifo_at (dir t) k s)).2.
Proof.
  intros [_ H]. unfold queue_effect. cbn [spec_op fst snd].
  destruct t as [[] []], k as [i |]; cbn [snd fst] in H; try easy; cbn [dir fifo_at fst snd peer swap_at];
    rewrite decide_True by reflexivity; easy.
Qed.

Lemma effect_push t k x s :
  may c t k Pusher ->
  (effect t k (OpPush x) s).1 = ((fifo_push (cap k) (fifo_at (dir t) k s) x).1, None) /\
  fifo_at (dir t) k (effect t k (OpPush x) s).2 = (fifo_push (cap k) (fifo_at (dir t) k s) x).2.
Proof.
  intros [_ H]. unfold queue_effect. cbn [spec_op fst snd].
  destruct t as [[] []], k as [i |]; cbn [snd fst] in H; try easy; cbn [dir fifo_at fst snd peer swap_at];
    rewrite decide_True by reflexivity; easy.
Qed.

Lemma effect_other t k op s e k' :
  may c t k (role_of op) -> ~ (e = dir t /\ k' = k) -> fifo_at e k' (effect t k op s).2 = fifo_at e k' s.
Proof.
  intros [_ H] Hne. unfold queue_effect, fifo_at.
  destruct (decide (k' = k)) as [-> | Hk].
  - assert (He : e <> dir t) by tauto. clear Hne.
    destruct k as [i |], op as [x |], t as [[] []], e; cbn [snd fst role_of dir peer] in *; try easy;
      rewrite decide_True by reflexivity; reflexivity.
  - destruct k'; cbn [snd]; now rewrite decide_False.
Qed.

End Effect.

(** ** The invariant *)

Section Invariant.
Context (vw : endpoint -> view) (m0 : memory) (C : connected vw m0).
Abbreviation chan e := (v_chan (vw e)).
Abbreviation base := (own_queue (chan Near)).
Abbreviation fixed := (fixed_in vw m0).
Abbreviation chan_code := (fun t : user => call_steps (vw t.1)).
Abbreviation chan_hstep := (hstep base fst fixed may_call chan_code).
Abbreviation fifos_state := (queue_id -> list (list Z) * list (list Z)).

(** The queues of a direction hold [bds], the applications and the threads
    have [out]: together all buffers. *)
Record direction (e : endpoint) (s : fifos_state) (bds : queue_id -> list ipc_shm_bd) (out : list Z) : Prop := {
  dr_fifo : forall k, in_channel (chan Near) k -> fifo_at e k s = bd_encode <$> bds k;
  dr_named : forall k, in_channel (chan Near) k -> Forall (named (chan e) k) (bds k);
  dr_all : all_bufs (chan e) ≡ₚ stored (chan e) bds ++ out
}.

Definition progress (th : user -> option (call_prog answer)) (hand : user -> list Z) : Prop :=
  forall t, match th t with None => hand t = [] | Some p => keeps vw fixed t p (hand t) end.

Definition in_order (a : hconf) (o : owner) : Prop :=
  exists hand, progress a.2 hand /\ forall e, exists bds, direction e a.1 bds (outside o hand e).

Lemma direction_perm e s bds out out' : out ≡ₚ out' -> direction e s bds out -> direction e s bds out'.
Proof. intros Hp [H1 H2 H3]. constructor; auto. now rewrite <- Hp. Qed.

Lemma progress_upd th hand t p x :
  progress th hand -> (match p with None => x = [] | Some p => keeps vw fixed t p x end) ->
  progress (upd th t p) (upd hand t x).
Proof.
  intros H Hp t'. destruct (decide (t' = t)) as [-> | Hne]; [now rewrite !upd_same |].
  rewrite !upd_other by exact Hne. apply H.
Qed.

(** Room in a queue for a buffer that is elsewhere. *)
Lemma queue_bufs_cap e k :
  in_channel (chan Near) k -> elem_num (base k) - 1 = Z.of_nat (length (queue_bufs (chan e) k)).
Proof.
  intros Hk. assert (E : elem_num (base k) = elem_num (own_queue (chan e) k)).
  { rewrite (own_queue_end _ _ C e k Hk). now destruct e. }
  rewrite E. destruct k as [i |]; cbn [own_queue queue_bufs]; [| apply (cn_cap _ _ C)].
  apply (in_channel_end _ _ C e) in Hk. apply lookup_lt_is_Some_2 in Hk as [p Hp]. rewrite Hp. cbn [from_option].
  assert (Hw := Forall_lookup_1 _ _ _ _ (mw_pools _ _ (cn_wf _ _ C e)) Hp).
  unfold pool_bufs. rewrite length_fmap, length_seq, (pw_cap _ _ Hw). assert (H := pw_num _ _ Hw). lia.
Qed.

Lemma all_NoDup e : NoDup (all_bufs (chan e)).
Proof. eapply all_bufs_NoDup; [apply (cn_wf _ _ C) | apply (cn_apart _ _ C)]. Qed.

Lemma direction_room e k s bds out bd :
  direction e s bds out -> in_channel (chan Near) k -> named (chan e) k bd -> bd_buf (chan e) bd ∈ out ->
  Z.of_nat (length (fifo_at e k s)) < elem_num (base k) - 1.
Proof.
  intros [Hf Hn Hall] Hk Hb Hin. rewrite (queue_bufs_cap e k Hk), (Hf k Hk), length_fmap.
  destruct (stored_split (chan e) bds k) as (rest & Hs & _); [now apply (in_channel_end _ _ C) |].
  assert (HN := all_NoDup e). rewrite Hall, Hs, <- app_assoc in HN. apply NoDup_app in HN as (N1 & N2 & _).
  assert (H : (length ((bd_buf (chan e) <$> bds k) ++ [bd_buf (chan e) bd]) <= length (queue_bufs (chan e) k))%nat).
  { apply NoDup_subset_length.
    - apply NoDup_app. split_and!; auto; [| apply NoDup_singleton].
      intros x Hx Hy. apply list_elem_of_singleton in Hy as ->. apply (N2 _ Hx). rewrite elem_of_app; auto.
    - intros x Hx. apply elem_of_app in Hx as [Hx | Hx].
      + apply list_elem_of_fmap in Hx as (bd' & -> & Hx). eapply named_buf; [apply (cn_wf _ _ C) |].
        assert (HF := Hn k Hk). rewrite Forall_forall in HF. now apply HF.
      + apply list_elem_of_singleton in Hx as ->. eapply named_buf; [apply (cn_wf _ _ C) | exact Hb]. }
  rewrite length_app, length_fmap in H. cbn [length] in H. lia.
Qed.

(** ** Steps preserve it *)

(** A queue operation of thread [t] on queue [k]. *)
Lemma direction_pop t k s bds out :
  may (chan Near) t k Popper -> direction (dir t) s bds out ->
  match bds k with
  | [] => (queue_effect base t.1 k OpPop s).1 = (- ENOBUFS, None) /\
          direction (dir t) (queue_effect base t.1 k OpPop s).2 bds out
  | bd :: r => (queue_effect base t.1 k OpPop s).1 = (0, Some (bd_encode bd)) /\ named (chan (dir t)) k bd /\
               direction (dir t) (queue_effect base t.1 k OpPop s).2 (upd bds k r) (bd_buf (chan (dir t)) bd :: out)
  end.
Proof.
  intros Hm [Hf Hn Hall]. assert (Hk := proj1 Hm). destruct (effect_pop base _ t k s Hm) as [E1 E2].
  assert (Eo := fun k' H => effect_other base _ t k OpPop s (dir t) k' Hm H).
  rewrite (Hf k Hk) in E1, E2. assert (Hb := Hn k Hk).
  destruct (bds k) as [| bd r] eqn:Eb; cbn [fmap list_fmap fifo_pop fst snd] in E1, E2.
  - split; [exact E1 |]. constructor; auto. intros k' Hk'. destruct (decide (k' = k)) as [-> | Hne].
    + now rewrite E2, Eb.
    + rewrite Eo by tauto. auto.
  - apply Forall_cons in Hb as [Hb Hr]. split; [exact E1 |]. split; [exact Hb |]. constructor.
    + intros k' Hk'. destruct (decide (k' = k)) as [-> | Hne]; [now rewrite upd_same |].
      rewrite upd_other, Eo by tauto. auto.
    + intros k' Hk'. destruct (decide (k' = k)) as [-> | Hne]; [now rewrite upd_same |]. rewrite upd_other; auto.
    + destruct (stored_split (chan (dir t)) bds k) as (rest & Hs1 & Hs2); [now apply (in_channel_end _ _ C) |].
      rewrite Hall, Hs1, Hs2, Eb. cbn [fmap list_fmap]. solve_Permutation.
Qed.

Lemma direction_push t k s bds bd out :
  may (chan Near) t k Pusher -> named (chan (dir t)) k bd ->
  direction (dir t) s bds (bd_buf (chan (dir t)) bd :: out) ->
  (queue_effect base t.1 k (OpPush (bd_encode bd)) s).1 = (0, None) /\
  direction (dir t) (queue_effect base t.1 k (OpPush (bd_encode bd)) s).2 (upd bds k (bds k ++ [bd])) out.
Proof.
  intros Hm Hb HD. assert (Hk := proj1 Hm). destruct (effect_push base _ t k (bd_encode bd) s Hm) as [E1 E2].
  assert (Eo := fun k' H => effect_other base _ t k (OpPush (bd_encode bd)) s (dir t) k' Hm H).
  assert (Hroom := direction_room _ _ _ _ _ _ HD Hk Hb ltac:(now left)). apply Z.ltb_lt in Hroom.
  unfold fifo_push in E1, E2. rewrite Hroom in E1, E2. cbn [fst snd] in E1, E2.
  destruct HD as [Hf Hn Hall]. split; [exact E1 |]. constructor.
  - intros k' Hk'. destruct (decide (k' = k)) as [-> | Hne].
    + rewrite upd_same, E2, (Hf k Hk), fmap_app. reflexivity.
    + rewrite upd_other, Eo by tauto. auto.
  - intros k' Hk'. destruct (decide (k' = k)) as [-> | Hne].
    + rewrite upd_same. apply Forall_app. split; [auto |]. now constructor.
    + rewrite upd_other; auto.
  - destruct (stored_split (chan (dir t)) bds k) as (rest & Hs1 & Hs2); [now apply (in_channel_end _ _ C) |].
    rewrite Hall, Hs1, Hs2, fmap_app. cbn [fmap list_fmap]. solve_Permutation.
Qed.

Lemma direction_other t k op s bds out e :
  may (chan Near) t k (role_of op) -> e <> dir t -> direction e s bds out ->
  direction e (queue_effect base t.1 k op s).2 bds out.
Proof.
  intros Hm Hne [Hf Hn Hall]. constructor; auto. intros k' Hk'.
  rewrite (effect_other base _ t k op s e k' Hm) by tauto. auto.
Qed.

Lemma order_op s th o t k op f :
  th t = Some (COp k op f) -> in_order (s, th) o ->
  in_order ((queue_effect base t.1 k op s).2, upd th t (Some (f (queue_effect base t.1 k op s).1))) o.
Proof.
  intros Et (hand & Hp & HD). cbn [fst snd] in *. assert (Ht := Hp t). rewrite Et in Ht.
  cbn [keeps] in Ht. destruct Ht as [Hm Ht]. destruct (HD (dir t)) as (bds & Hd).
  assert (Hoth : forall x e, e <> dir t -> exists bds, direction e (queue_effect base t.1 k op s).2 bds (outside o (upd hand t x) e)).
  { intros x e Hne. destruct (HD e) as (bds' & Hd'). exists bds'. rewrite outside_other by exact Hne.
    now apply direction_other. }
  destruct op as [x |]; cbn [role_of] in Hm.
  - destruct Ht as (bd & Hh & -> & Hb & Hf).
    assert (Hd' := direction_perm _ _ _ _ _ (outside_put o hand t _ Hh) Hd).
    destruct (direction_push t k s bds bd _ Hm Hb Hd') as [-> Hd2].
    exists (upd hand t []). split; [now apply progress_upd |]. intros e.
    destruct (decide (e = dir t)) as [-> | Hne]; [eauto | auto].
  - destruct Ht as (Hh & He & Hsome). assert (Hd2 := direction_pop t k s bds _ Hm Hd).
    destruct (bds k) as [| bd r].
    + destruct Hd2 as [-> Hd2]. exists (upd hand t []). split; [now apply progress_upd |]. intros e.
      destruct (decide (e = dir t)) as [-> | Hne]; [| auto]. exists bds.
      refine (direction_perm _ _ _ _ _ _ Hd2). apply outside_move; [auto | now rewrite Hh].
    + destruct Hd2 as (-> & Hb & Hd2). exists (upd hand t [bd_buf (chan (dir t)) bd]).
      split; [apply progress_upd; auto |]. intros e.
      destruct (decide (e = dir t)) as [-> | Hne]; [| auto]. eexists.
      refine (direction_perm _ _ _ _ _ _ Hd2). symmetry. now apply outside_take.
Qed.

(** What an application owns is a buffer of the pools. *)
Lemma owned_is_buffer a o e x : in_order a o -> x ∈ (o e).1 ++ (o e).2 -> x ∈ all_bufs (chan e).
Proof.
  intros (hand & _ & HD) Hx. destruct (HD e) as (bds & [_ _ ->]). unfold outside.
  rewrite elem_of_app. right. now rewrite app_assoc, elem_of_app; left.
Qed.

(** A call or a return that leaves the queues alone. *)
Lemma order_move s th o o' hand t p x :
  progress th hand -> (forall e, exists bds, direction e s bds (outside o hand e)) ->
  (match p with None => x = [] | Some p => keeps vw fixed t p x end) ->
  (forall e, e <> dir t -> o' e = o e) ->
  (o (dir t)).1 ++ (o (dir t)).2 ++ hand t ≡ₚ (o' (dir t)).1 ++ (o' (dir t)).2 ++ x ->
  in_order (s, upd th t p) o'.
Proof.
  intros Hp HD Hk Ho Hperm. exists (upd hand t x). split; [now apply progress_upd |]. intros e.
  destruct (HD e) as (bds & Hd). exists bds. refine (direction_perm _ _ _ _ _ _ Hd). now apply outside_move.
Qed.

Lemma order_on_call s th o o' t op :
  th t = None -> may_call t op -> own_step o (ECall t op) o' -> in_order (s, th) o ->
  in_order (s, upd th t (Some (chan_code t op))) o'.
Proof.
  intros Et Hm Hs HI. assert (HI' := HI). destruct HI as (hand & Hp & HD). cbn [fst snd] in *.
  assert (Hh := Hp t). rewrite Et in Hh.
  inversion Hs as [| e n | | e l1 a l2 size E | | e | | e l1 a l2 E |]; subst; clear Hs; cbn [fst snd] in *.
  - eapply order_move; [exact Hp | exact HD | apply acquire_keeps_to, C | auto | now rewrite Hh].
  - eapply (order_move s th o _ hand (e, FTx) _ [a]); [exact Hp | exact HD | apply tx_keeps_to; [exact C | | exact Hm] | |].
    + apply (owned_is_buffer _ _ _ _ HI'). rewrite E, !elem_of_app, elem_of_cons. tauto.
    + intros e' Hne. now apply upd_other.
    + cbn [dir fst snd] in *. rewrite upd_same, Hh, E. cbn [fst snd]. solve_Permutation.
  - eapply order_move; [exact Hp | exact HD | apply rx_keeps_to, C | auto | now rewrite Hh].
  - eapply (order_move s th o _ hand (e, FRelease) _ [a]); [exact Hp | exact HD | apply release_keeps_to; [exact C |] | |].
    + apply (owned_is_buffer _ _ _ _ HI'). rewrite E, !elem_of_app, elem_of_cons. tauto.
    + intros e' Hne. now apply upd_other.
    + cbn [dir fst snd] in *. rewrite upd_same, Hh, E. cbn [fst snd]. solve_Permutation.
Qed.

(** Answers an application can count on. *)
Definition served (ev : chan_event) : Prop :=
  match ev with
  | EReturn (e, FAcquire) (AAddr a) => a = NULL \/ a ∈ all_bufs (chan e)
  | EReturn (_, FTx) (ACode r) | EReturn (_, FRelease) (ACode r) => r = 0
  | EReturn (e, FRx) (AMsg x) =>
      match x with None => True | Some None => False | Some (Some (a, _)) => a ∈ all_bufs (chan (peer e)) end
  | _ => True
  end.

Lemma order_on_return s th o o' t r :
  th t = Some (CDone r) -> own_step o (EReturn t r) o' -> in_order (s, th) o ->
  served (EReturn t r) /\ in_order (s, upd th t None) o'.
Proof.
  intros Et Hs (hand & Hp & HD). cbn [fst snd] in *. assert (Hh := Hp t). rewrite Et in Hh. cbn [keeps] in Hh.
  assert (Hin : forall b, hand t = [b] -> b ∈ all_bufs (chan (dir t))).
  { intros b Hb. destruct (HD (dir t)) as (bds & [_ _ ->]).
    rewrite elem_of_app, (outside_put o hand t b Hb), elem_of_cons. auto. }
  inversion Hs as [| | e a | | e c | | e x | | e c]; subst; clear Hs; cbn [given snd] in Hh.
  - cbn [served]. cbn [dir fst snd] in Hin. case_decide.
    + split; [auto |]. eapply order_move; [exact Hp | exact HD | reflexivity | auto | now rewrite Hh].
    + split; [auto |]. eapply (order_move s th o _ hand (e, FAcquire) None []); [exact Hp | exact HD | reflexivity | |].
      * intros e' Hne. now apply upd_other.
      * cbn [dir fst snd]. rewrite upd_same, Hh. cbn [fst snd]. solve_Permutation.
  - destruct Hh as [-> Hh]. split; [reflexivity |].
    eapply order_move; [exact Hp | exact HD | reflexivity | auto | now rewrite Hh].
  - cbn [served]. cbn [dir fst snd] in Hin. destruct x as [[[a n] |] |]; [| easy |].
    + split; [auto |]. eapply (order_move s th o _ hand (e, FRx) None []); [exact Hp | exact HD | reflexivity | |].
      * intros e' Hne. now apply upd_other.
      * cbn [dir fst snd]. rewrite upd_same, Hh. cbn [fst snd]. solve_Permutation.
    + split; [exact I |]. eapply order_move; [exact Hp | exact HD | reflexivity | auto | now rewrite Hh].
  - destruct Hh as [-> Hh]. split; [reflexivity |].
    eapply order_move; [exact Hp | exact HD | reflexivity | auto | now rewrite Hh].
Qed.

Lemma order_step a e a' o o' :
  chan_hstep a e a' -> match e with Some ev => own_step o ev o' | None => o' = o end -> in_order a o ->
  match e with Some ev => served ev | None => True end /\ in_order a' o'.
Proof.
  intros Hs Ho HI. destruct Hs as [s th t op Et Hm | s th t n b f v Et Hv | s th t k op f Et | s th t r Et].
  - split; [destruct t as [? []]; exact I |]. now apply (order_on_call s th o).
  - subst o'. split; [exact I |]. destruct HI as (hand & Hp & HD). exists hand. split; [| exact HD].
    intros t'. assert (Ht := Hp t'). cbn [fst snd] in *. destruct (decide (t' = t)) as [-> | Hne].
    + rewrite upd_same. rewrite Et in Ht. cbn [keeps] in Ht. destruct Ht as (v' & Hv' & Ht). congruence.
    + rewrite upd_other by exact Hne. exact Ht.
  - subst o'. split; [exact I |]. now apply order_op.
  - now apply (order_on_return s th o).
Qed.

Lemma order_steps a ls a' : exec chan_hstep a ls a' -> forall o o',
  exec own_step o (labels ls) o' -> in_order a o -> Forall served (labels ls) /\ in_order a' o'.
Proof.
  induction 1 as [a | a e a1 ls a' Hs He IH]; intros o o' Ho HI.
  - inversion Ho; subst. split; [constructor | exact HI].
  - destruct e as [ev |].
    + change (labels (Some ev :: ls)) with (ev :: labels ls) in *. inversion Ho as [| ? ? o1 ? ? Ho1 Ho2]; subst.
      destruct (order_step a (Some ev) a1 o o1 Hs Ho1 HI) as [H1 HI1].
      destruct (IH o1 o' Ho2 HI1) as [H2 HI2]. split; [now constructor | exact HI2].
    + destruct (order_step a None a1 o o Hs eq_refl HI) as [_ HI1]. now apply (IH o o').
Qed.

(** ** In memory *)

Lemma fifo_contents m e k :
  in_channel (chan Near) k ->
  fifo_at e k (fun k => fifos (base k) m) =
  match k with
  | None => contents m (tx_link (bd_queue (chan e)))
  | Some _ => contents m (rx_link (own_queue (chan e) k))
  end.
Proof.
  intros Hk. destruct k as [i |]; [now rewrite (own_queue_end _ _ C e _ Hk); destruct e |].
  change (bd_queue (chan e)) with (own_queue (chan e) None). now rewrite (own_queue_end _ _ C e _ Hk); destruct e.
Qed.

Lemma channel_stays_wf m e :
  (forall k, in_channel (chan Near) k -> queue_wf m (base k)) -> mchan_wf m (chan e).
Proof.
  intros H. assert (Hq : forall k, in_channel (chan Near) k -> queue_wf m (own_queue (chan e) k)).
  { intros k Hk. rewrite (own_queue_end _ _ C e _ Hk). apply end_wf. auto. }
  destruct (cn_wf _ _ C e) as [H1 H2 H3 H4 H5]. constructor; auto; [exact (Hq None I) |].
  apply Forall_lookup. intros i p Hp. assert (Hw := Forall_lookup_1 _ _ _ _ H5 Hp).
  assert (Hi : in_channel (chan Near) (Some i)).
  { apply (in_channel_end _ _ C e). cbn. eapply lookup_lt_Some; eauto. }
  specialize (Hq (Some i) Hi). cbn [own_queue] in Hq. rewrite Hp in Hq. destruct Hw; now constructor.
Qed.

(** Free descriptors per pool and descriptors in flight, by queue. *)
Definition by_queue (free : list (list ipc_shm_bd)) (fly : list ipc_shm_bd) (k : queue_id) : list ipc_shm_bd :=
  match k with None => fly | Some i => default [] (free !! i) end.

Lemma stored_by_queue c bds free :
  length free = length (active_pools c) ->
  (forall i f, free !! i = Some f -> bds (Some i) = f) ->
  stored c bds = (bd_buf c <$> bds None) ++ (bd_buf c <$> concat free).
Proof.
  intros Hl Hb. unfold stored, queues_of. rewrite fmap_cons. cbn [concat]. f_equal.
  rewrite <- list_fmap_compose. change (bd_buf c <$> concat free) with (map (bd_buf c) (concat free)).
  rewrite concat_map. f_equal. apply list_eq. intros i. change (map (map (bd_buf c)) free) with (fmap (M := list) (fmap (M := list) (bd_buf c)) free).
  rewrite !list_lookup_fmap. destruct (free !! i) as [f |] eqn:Ef; cbn [fmap option_fmap option_map].
  - assert (Hi := lookup_lt_Some _ _ _ Ef). rewrite (lookup_seq_lt _ _ i) by lia. cbn [fmap option_fmap option_map compose].
    f_equal. change (bd_buf c <$> bds (Some i) = bd_buf c <$> f). now rewrite (Hb i f Ef).
  - apply lookup_ge_None_1 in Ef. now rewrite (lookup_seq_ge _ _ i) by lia.
Qed.

Lemma accounted_direction m e hA hB :
  accounted (chan e) (m, hA, hB) ->
  exists bds, direction e (fun k => fifos (base k) m) bds (hA ++ hB).
Proof.
  intros (free & fly & [Hw Hl Hfree Hfly Hok Hall]). cbn [fst snd] in *. exists (by_queue free fly).
  assert (Hpool : forall i, in_channel (chan Near) (Some i) ->
    exists p f, active_pools (chan e) !! i = Some p /\ free !! i = Some f /\ pool_holds m i p f).
  { intros i Hi. apply (in_channel_end _ _ C e) in Hi. cbn in Hi. assert (Hi' := Hi). rewrite <- Hl in Hi'.
    apply lookup_lt_is_Some_2 in Hi as [p Hp], Hi' as [f Hf]. exists p, f. eauto. }
  constructor.
  - intros k Hk. rewrite fifo_contents by exact Hk. destruct k as [i |]; [| exact Hfly].
    destruct (Hpool i Hk) as (p & f & Hp & Hf & Hh & _). cbn [own_queue by_queue]. now rewrite Hp, Hf.
  - intros k Hk. destruct k as [i |]; [| exact Hok].
    destruct (Hpool i Hk) as (p & f & Hp & Hf & _ & Hn). cbn [by_queue]. rewrite Hf. cbn [default from_option id].
    eapply Forall_impl; [exact Hn |]. intros bd Hbd. exists p. auto.
  - rewrite (stored_by_queue _ _ free); [rewrite Hall; cbn [by_queue]; solve_Permutation | exact Hl |].
    intros i f Hf. cbn [by_queue]. now rewrite Hf.
Qed.

Lemma direction_accounted m e s bds h held lent :
  (forall k, in_channel (chan Near) k -> queue_wf m (base k)) ->
  (forall k, in_channel (chan Near) k -> s k = fifos (base k) m) ->
  direction e s bds (held ++ lent ++ h) -> accounted (chan e) (m, held ++ h, lent).
Proof.
  intros Hwf Hs [Hf Hn Hall]. set (n := length (active_pools (chan e))).
  assert (Hk : forall (i : nat) p, active_pools (chan e) !! i = Some p -> in_channel (chan Near) (Some i)).
  { intros i p Hp. apply (in_channel_end _ _ C e). cbn. eapply lookup_lt_Some; eauto. }
  assert (Hc : forall k, in_channel (chan Near) k -> fifo_at e k (fun k => fifos (base k) m) = bd_encode <$> bds k).
  { intros k Hk'. rewrite <- Hf by exact Hk'. unfold fifo_at. destruct k; now rewrite Hs. }
  assert (Hfree : forall i f, ((fun i => bds (Some i)) <$> seq 0 n) !! i = Some f -> bds (Some i) = f).
  { intros i f Hi. rewrite list_lookup_fmap in Hi. destruct (seq 0 n !! i) eqn:E; [| discriminate].
    apply lookup_seq in E as [-> _]. now injection Hi. }
  exists ((fun i => bds (Some i)) <$> seq 0 n), (bds None).
  assert (Hlen : length ((fun i => bds (Some i)) <$> seq 0 n) = n) by now rewrite length_fmap, length_seq.
  constructor; cbn [fst snd].
  - now apply channel_stays_wf.
  - exact Hlen.
  - intros i p f Hp Hi. apply Hfree in Hi as <-. assert (Hi := Hk i p Hp). split.
    + rewrite <- (Hc _ Hi), (fifo_contents m e _ Hi). cbn [own_queue]. now rewrite Hp.
    + eapply Forall_impl; [exact (Hn _ Hi) |]. intros bd (p' & Hp' & Hb). congruence.
  - rewrite <- (Hc None I). symmetry. exact (fifo_contents m e None I).
  - exact (Hn None I).
  - rewrite Hall, (stored_by_queue _ _ _ Hlen Hfree). solve_Permutation.
Qed.

Lemma progress_hand th hand t :
  progress th hand -> (length (hand t) <= 1)%nat /\ (th t = None -> hand t = []).
Proof.
  intros Hp. specialize (Hp t). split; [| intros E; now rewrite E in Hp].
  destruct (th t) as [p |]; [| rewrite Hp; cbn; lia]. clear th.
  revert Hp. generalize (hand t) as h. induction p as [r | | n a f IH | k op f IH]; intros h; cbn [keeps].
  - assert (Hl : forall b, h = [b] -> (length h <= 1)%nat) by (intros b ->; reflexivity).
    assert (H0 : h = [] -> (length h <= 1)%nat) by (intros ->; cbn; lia).
    unfold given. destruct (t.2), r as [a | c | [[[a n] |] |]]; try easy; try case_decide; intuition eauto.
  - easy.
  - intros (v & _ & H). eauto.
  - destruct op as [x |]; [intros (_ & bd & -> & _) | intros (_ & -> & _)]; cbn; lia.
Qed.

End Invariant.

(** ** The channel *)

(** A call of a thread, on the queues as its end sees them. *)
Definition channel_code (vw : endpoint -> view) : user -> call -> prog answer :=
  thread_code (own_queue (v_chan (vw Near))) fst (fun t => call_steps (vw t.1)).

Inductive channel_step (vw : endpoint -> view) :
    conf user answer * owner -> chan_event -> conf user answer * owner -> Prop :=
| channel_steps c o ev c' o' :
    step may_call (channel_code vw) c ev c' -> own_step o ev o' -> channel_step vw (c, o) ev (c', o').

(** The threads take turns as a plan says; [None] when a thread is stuck or an
    application would use a buffer it does not own. *)
Fixpoint take_out (a : Z) (l : list Z) : option (list Z) :=
  match l with
  | [] => None
  | b :: l => if decide (b = a) then Some l else cons b <$> take_out a l
  end.

Definition own_next (o : owner) (ev : chan_event) : option owner :=
  match ev with
  | EAccess _ | ECall (_, FAcquire) (CallAcquire _) | ECall (_, FRx) CallRx
  | EReturn (_, FTx) (ACode _) | EReturn (_, FRelease) (ACode _) => Some o
  | EReturn (e, FAcquire) (AAddr a) => Some (if decide (a = NULL) then o else upd o e (a :: (o e).1, (o e).2))
  | ECall (e, FTx) (CallTx a _) => (fun l => upd o e (l, (o e).2)) <$> take_out a (o e).1
  | EReturn (e, FRx) (AMsg x) =>
      Some (match x with
            | Some (Some (a, _)) => upd o (peer e) ((o (peer e)).1, a :: (o (peer e)).2)
            | _ => o
            end)
  | ECall (e, FRelease) (CallRelease a) =>
      (fun l => upd o (peer e) ((o (peer e)).1, l)) <$> take_out a (o (peer e)).2
  | _ => None
  end.

Fixpoint play_channel (vw : endpoint -> view) (plan : list (user * call)) (x : conf user answer * owner) :
    option (list chan_event * (conf user answer * owner)) :=
  match plan with
  | [] => Some ([], x)
  | (t, op) :: plan =>
      '(ev, c) ← turn (channel_code vw) x.1 t op;
      o ← own_next x.2 ev;
      '(es, y) ← play_channel vw plan (c, o);
      Some (ev :: es, y)
  end.

Lemma take_out_split a l : forall l', take_out a l = Some l' -> exists l1 l2, l = l1 ++ a :: l2 /\ l' = l1 ++ l2.
Proof.
  induction l as [|b l IH]; intros l' H; cbn [take_out] in H; [discriminate |].
  case_decide as Hb.
  - injection H as <-. subst b. now exists [], l.
  - destruct (take_out a l) as [r |]; [| discriminate]. injection H as <-.
    destruct (IH r eq_refl) as (l1 & l2 & -> & ->). now exists (b :: l1), l2.
Qed.

Lemma own_next_step o ev o' : own_next o ev = Some o' -> own_step o ev o'.
Proof.
  destruct ev as [[e f] op | t | [e f] r]; cbn [own_next].
  - destruct f, op; intros H; try discriminate H; try (injection H as <-; constructor);
      (destruct (take_out _ _) eqn:E; [| discriminate H]); injection H as <-;
      apply take_out_split in E as (l1 & l2 & E & ->); [exact (own_tx o e l1 _ l2 _ E) | exact (own_release o e l1 _ l2 E)].
  - intros H. injection H as <-. constructor.
  - destruct f, r; intros H; try discriminate H; injection H as <-; constructor.
Qed.

Lemma play_channel_exec vw plan : forall x es y,
  Forall (fun p => may_call p.1 p.2) plan -> play_channel vw plan x = Some (es, y) -> exec (channel_step vw) x es y.
Proof.
  induction plan as [|[t op] plan IH]; intros [c o] es y Hp H; cbn [play_channel fst snd] in H.
  - injection H as <- <-. constructor.
  - apply Forall_cons in Hp as [Ha Hp]. destruct (turn _ c t op) as [[ev c1] |] eqn:Et; [| discriminate].
    cbn [mbind option_bind] in H. destruct (own_next o ev) as [o1 |] eqn:Eo; [| discriminate].
    cbn [mbind option_bind] in H. destruct (play_channel vw plan (c1, o1)) as [[es1 y1] |] eqn:Er; [| discriminate].
    injection H as <- <-. econstructor; [| exact (IH _ _ _ Hp Er)].
    constructor; [now apply (turn_step _ _ _ _ _ _ _ Ha) | now apply own_next_step].
Qed.

(** What holds in every reachable state. *)
Lemma channel_reachable vw m (C : connected vw m) es c c' o o' :
  exec (channel_step vw) (c, o) es (c', o') ->
  forall a,
  csim (in_channel (v_chan (vw Near))) (own_queue (v_chan (vw Near))) fst (may (v_chan (vw Near))) (fixed_in vw m)
    may_call (fun t => call_steps (vw t.1)) c a ->
  in_order vw m a o ->
  Forall (served vw) es /\
  exists a', csim (in_channel (v_chan (vw Near))) (own_queue (v_chan (vw Near))) fst (may (v_chan (vw Near)))
    (fixed_in vw m) may_call (fun t => call_steps (vw t.1)) c' a' /\ in_order vw m a' o'.
Proof.
  remember (c, o) as x eqn:Ex. remember (c', o') as y eqn:Ey. intros He. revert c o Ex.
  induction He as [x | x ev x1 es y Hs He IH]; intros c o -> a Hc Ho.
  - injection Ey as -> ->. split; [constructor | eauto].
  - inversion Hs as [? ? ? c1 o1 Hst Hos]; subst.
    destruct (csim_step _ _ _ _ _ _ _ _ _ _ _ Hc Hst) as (ls & a1 & Hex & Hl & Hc1).
    assert (Hv : exec own_step o (labels ls) o1).
    { rewrite Hl. destruct ev; cbn [visible List.filter]; try (econstructor; [exact Hos | constructor]).
      inversion Hos; subst. constructor. }
    destruct (order_steps vw m C a ls a1 Hex o o1 Hv Ho) as [Hserved Ho1].
    destruct (IH eq_refl c1 o1 eq_refl a1 Hc1 Ho1) as [Hes Hlast]. split; [| exact Hlast].
    constructor; [| exact Hes]. rewrite Hl in Hserved.
    destruct ev; cbn [visible List.filter] in Hserved; [| exact I |]; now apply Forall_cons in Hserved as [? _].
Qed.

Lemma channel_start vw m (C : connected vw m) o :
  (forall e, accounted (v_chan (vw e)) (m, (o e).1, (o e).2)) ->
  exists a, csim (in_channel (v_chan (vw Near))) (own_queue (v_chan (vw Near))) fst (may (v_chan (vw Near)))
    (fixed_in vw m) may_call (fun t => call_steps (vw t.1)) (m, fun _ => Idle) a /\ in_order vw m a o.
Proof.
  intros H0. exists (fun k => fifos (own_queue (v_chan (vw Near)) k) m, fun _ => None). split.
  - apply csim_idle; [now apply channel_laid | reflexivity].
  - exists (fun _ => []). split; [easy |]. intros e. destruct (accounted_direction vw m C m e _ _ (H0 e)) as (bds & Hd).
    exists bds. refine (direction_perm _ _ _ _ _ _ _ Hd). unfold outside, hands. cbn [app]. now rewrite app_nil_r.
Qed.

Lemma channel_exec vw c o es c' o' :
  exec (channel_step vw) (c, o) es (c', o') -> exec (step may_call (channel_code vw)) c es c'.
Proof.
  remember (c, o) as x eqn:Ex. remember (c', o') as y eqn:Ey. intros He. revert c o Ex.
  induction He as [x | x ev x1 es y Hs He IH]; intros c o ->.
  - injection Ey as -> ->. constructor.
  - inversion Hs; subst. econstructor; eauto.
Qed.

(** C4: a managed channel works under concurrent use.  Both ends have a thread
    that acquires, one that sends, one that receives and one that releases
    buffers, interleaved in any way at the level of single loads and stores of
    the shared memory.  An application sends what it has acquired and releases
    what it has received.  Then no call ever faults, sending and releasing
    always return 0, an acquired or received address is that of a buffer of the
    channel's pools, and every buffer of both directions is at every moment free
    in its pool, in flight, owned by one application, or in the hands of one
    call in progress, never in two places and never lost. *)
Theorem channel_calls_concurrent vw m o es c' o' :
  connected vw m -> (forall e, accounted (v_chan (vw e)) (m, (o e).1, (o e).2)) ->
  exec (channel_step vw) ((m, fun _ => Idle), o) es (c', o') ->
  (forall t, ~ faults c' t) /\ Forall (served vw) es /\
  exists hand, (forall t, (length (hand t) <= 1)%nat /\ (c'.2 t = Idle -> hand t = [])) /\
    forall e, accounted (v_chan (vw e)) (c'.1, (o' e).1 ++ hands hand e, (o' e).2) /\
              NoDup ((o' e).1 ++ (o' e).2 ++ hands hand e).
Proof.
  intros C H0 He. destruct (channel_start vw m C o H0) as (a0 & Hc & Ho).
  destruct (channel_reachable vw m C _ _ _ _ _ He _ Hc Ho) as (Hs & a & Ha & hand & Hp & HD).
  split; [| split; [exact Hs |]].
  - intros t. apply (csim_no_fault _ _ _ _ _ _ _ _ _ _ Ha). intros E. specialize (Hp t). rewrite E in Hp. exact Hp.
  - destruct Ha as [Hl Hf Ht]. exists hand. split.
    + intros t. destruct (progress_hand vw m _ _ t Hp) as [H1 H2]. split; [exact H1 |]. intros Hi.
      apply H2. specialize (Ht t). rewrite Hi in Ht. now destruct (a.2 t).
    + intros e. destruct (HD e) as (bds & Hd). split.
      * exact (direction_accounted vw m C _ _ _ _ _ _ _ (wl_wf _ _ _ _ _ _ _ _ Hl) Hf Hd).
      * assert (HN := all_NoDup vw m C e). rewrite (dr_all _ _ _ _ _ Hd) in HN. now apply NoDup_app in HN as (_ & _ & HN).
Qed.
