(* ===== verification/Unmanaged.v ===== *)
(** * Unmanaged channels

    An unmanaged channel is a block of memory each end writes for the other,
    with a counter of transmissions.  Sending bumps the counter; receiving
    compares the remote counter with the last value seen. *)

From S2P Require Import Prelude Memory Types Queue QueueSpec World Shm ShmSpec Traffic.

Definition tx_count (m : memory) (a : Z) : Z := uint_at 4 m (a + UMEM_TX_COUNT).
Definition seen_count (m : memory) (a : Z) : Z := uint_at 4 m (a + UMEM_REMOTE_TX_COUNT).
Definition umem_done (m : memory) (a : Z) : Prop :=
  uint_at 4 m (a + UMEM_SENTINEL) = IPC_UCHAN_INIT_DONE.
#[export] Instance umem_done_dec m a : Decision (umem_done m a).
Proof. unfold umem_done. apply _. Defined.

(** Control words of both ends mapped, apart and marked as initialised. *)
Record uchan_wf (m : memory) (u : ipc_unmanaged_channel) : Prop := {
  uw_local : mapped m (local_mem u) UMEM_SIZE = true;
  uw_remote : mapped m (remote_mem u) UMEM_SIZE = true;
  uw_disj : disjoint_ranges (local_mem u) UMEM_SIZE (remote_mem u) UMEM_SIZE;
  uw_local_done : umem_done m (local_mem u);
  uw_remote_done : umem_done m (remote_mem u)
}.

Lemma uchan_wf_frame m m' u off :
  uchan_wf m u -> 4 <= off <= 12 -> same_except (range (local_mem u + off) 4) m m' ->
  uchan_wf m' u /\ tx_count m' (remote_mem u) = tx_count m (remote_mem u).
Proof.
  intros [H1 H2 Hd H3 H4] Ho HF.
  assert (Hsame : forall a, (forall x, range a 4 x -> ~ range (local_mem u + off) 4 x) ->
                    uint_at 4 m' a = uint_at 4 m a)
    by (intros a Ha; apply (same_except_uint _ _ _ _ _ HF), Ha).
  assert (Hd' := Hd). unfold disjoint_ranges, UMEM_SIZE in Hd'.
  unfold umem_done, tx_count in *. split; [constructor |]; auto;
    rewrite ?(same_except_mapped _ _ _ _ _ HF), ?Hsame; auto; try (unfold umem_done;
    rewrite Hsame; auto); intros x; unfold range, UMEM_SENTINEL, UMEM_TX_COUNT; lia.
Qed.

Lemma umem_word_mapped m a off :
  mapped m a UMEM_SIZE = true -> 0 <= off <= 12 -> mapped m (a + off) (Z.of_nat 4) = true.
Proof. intros H Ho. eapply mapped_sub; eauto; unfold UMEM_SIZE; lia. Qed.

Section Unmanaged.
Context {P : Type} `{PL : Platform P} `{LW : !PlatformLaws P} `{AP : App P}.
Implicit Types (w : world P) (i ch : Z) (u : ipc_unmanaged_channel).

Record has_unmanaged (p : ipc_shm_priv) (ch : Z) (k : ipc_shm_channel) : Prop := {
  hu_range : 0 <= ch < p_num_channels p;
  hu_chan : nthZ (p_channels p) ch = Some k;
  hu_type : ch_type k = IPC_SHM_UNMANAGED
}.

Lemma umem_get_eval w a off :
  mapped (w_mem w) a UMEM_SIZE = true -> 0 <= off <= 12 ->
  umem_get off a w = Ret (uint_at 4 (w_mem w) (a + off)) w.
Proof. intros. apply on_mem_read, read_uint_ok. now apply umem_word_mapped. Qed.

Lemma umem_set_eval w a off v :
  mapped (w_mem w) a UMEM_SIZE = true -> 0 <= off <= 12 ->
  umem_set off a v w = Ret tt (with_mem w (set_bytes (w_mem w) (a + off) (le_encode 4 v))).
Proof. intros. apply on_mem_Ret, write_uint_ok. now apply umem_word_mapped. Qed.

Lemma umem_set_frame w a off v :
  same_except (range (a + off) 4) (w_mem w) (set_bytes (w_mem w) (a + off) (le_encode 4 v)).
Proof. apply set_bytes_same_except; intros x; now rewrite le_encode_length. Qed.

Lemma ipc_check_uchan_integrity_eval w u :
  uchan_wf (w_mem w) u -> ipc_check_uchan_integrity u w = Ret 0 w.
Proof.
  intros H. unfold ipc_check_uchan_integrity.
  erewrite cbind_Ret by (apply umem_get_eval; [apply H | unfold UMEM_SENTINEL; lia]).
  rewrite (uw_local_done _ _ H), Z.eqb_refl. cbn [negb].
  erewrite cbind_Ret by (apply umem_get_eval; [apply H | unfold UMEM_SENTINEL; lia]).
  now rewrite (uw_remote_done _ _ H), Z.eqb_refl.
Qed.

Lemma get_unmanaged_chan_eval w i p ch k :
  nthZ (w_priv w) i = Some p -> has_unmanaged p ch k ->
  get_unmanaged_chan i ch w = Ret (Some (ch_umng k)) w.
Proof.
  intros Hp [Hr Hk Ht]. unfold get_unmanaged_chan, get_channel.
  rewrite cbind_assoc, (cbind_Ret _ _ _ _ _ (get_priv_eval _ _ _ Hp)).
  replace (_ <=? ch) with false by (symmetry; apply Z.leb_gt; lia).
  rewrite cbind_assoc, (cbind_Ret _ _ _ _ _ (get_channel_priv_eval _ _ _ _ _ Hp Hk)).
  rewrite cbind_cret. cbv beta iota. now rewrite Ht.
Qed.

Lemma ipc_shm_unmanaged_tx_eval w i p ch k :
  operational w i p -> has_unmanaged p ch k -> uchan_wf (w_mem w) (ch_umng k) ->
  exists w', ipc_shm_unmanaged_tx i ch w = Ret 0 w' /\ w_priv w' = w_priv w /\
    tx_count (w_mem w') (local_mem (ch_umng k))
      = u32 (tx_count (w_mem w) (local_mem (ch_umng k)) + 1) /\
    same_except (range (local_mem (ch_umng k) + UMEM_TX_COUNT) 4) (w_mem w) (w_mem w') /\
    on_plat (ipc_hw_irq_notify i) (with_mem w (w_mem w')) = Ret tt w'.
Proof.
  intros Ho Hk Hu. set (u := ch_umng k) in *. unfold ipc_shm_unmanaged_tx.
  rewrite (cbind_Ret _ _ _ _ _ (ipc_shm_is_remote_ready_eval _ _ _ _
             (op_used _ _ _ Ho) (operational_ready _ _ _ Ho))). cbn [Z.eqb negb].
  rewrite (cbind_Ret _ _ _ _ _ (get_unmanaged_chan_eval _ _ _ _ _
             (us_priv _ _ _ (op_used _ _ _ Ho)) Hk)). fold u.
  rewrite (cbind_Ret _ _ _ _ _ (ipc_check_uchan_integrity_eval _ _ Hu)). cbn [Z.eqb negb].
  assert (Hm := uw_local _ _ Hu).
  erewrite cbind_Ret by (apply umem_get_eval; [exact Hm | unfold UMEM_TX_COUNT; lia]).
  erewrite cbind_Ret by (apply umem_set_eval; [exact Hm | unfold UMEM_TX_COUNT; lia]).
  destruct (notify_eval (with_mem w (set_bytes (w_mem w) (local_mem u + UMEM_TX_COUNT)
     (le_encode 4 (u32 (tx_count (w_mem w) (local_mem u) + 1))))) i) as (w' & E & [N1 N2 _] & _).
  { eapply live_with_mem; [apply Ho | apply umem_set_frame]. }
  unfold tx_count in E. rewrite (cbind_Ret _ _ _ _ _ E). exists w'.
  rewrite N1, N2. split_and!; auto; [| apply umem_set_frame].
  unfold tx_count. cbn [with_mem w_mem]. apply uint_at_set_same.
  change (256 ^ Z.of_nat 4) with 4294967296. apply u32_range.
Qed.

(** Reception on an unmanaged channel, both cases. *)
Lemma ipc_channel_rx_unmanaged w i p ch k budget :
  nthZ (w_priv w) i = Some p -> has_unmanaged p ch k -> uchan_wf (w_mem w) (ch_umng k) ->
  mem_ok (w_mem w) ->
  let u := ch_umng k in
  if decide (tx_count (w_mem w) (remote_mem u) = seen_count (w_mem w) (local_mem u)) then
    ipc_channel_rx i ch budget w = Ret 0 w
  else
    exists m',
      ipc_channel_rx i ch budget w =
        (call_unmanaged_cb (u_rx_cb u) (u_cb_arg u) i (ch_id k) (remote_mem u + UMEM_MEM) ;;;
         cret budget) (with_mem w m') /\
      seen_count m' (local_mem u) = tx_count m' (remote_mem u) /\ uchan_wf m' u /\
      same_except (range (local_mem u + UMEM_REMOTE_TX_COUNT) 4) (w_mem w) m'.
Proof.
  intros Hp Hk Hu Hmem u. fold u in Hu.
  assert (E : ipc_channel_rx i ch budget w =
    (if negb (tx_count (w_mem w) (remote_mem u) =? seen_count (w_mem w) (local_mem u)) then
       umem_set UMEM_REMOTE_TX_COUNT (local_mem u) (tx_count (w_mem w) (remote_mem u)) ;;;
       call_unmanaged_cb (u_rx_cb u) (u_cb_arg u) i (ch_id k) (remote_mem u + UMEM_MEM) ;;;
       cret budget
     else cret 0) w).
  { unfold ipc_channel_rx.
    rewrite (cbind_Ret _ _ _ _ _ (get_channel_priv_eval _ _ _ _ _ Hp (hu_chan _ _ _ Hk))).
    rewrite (hu_type _ _ _ Hk). fold u.
    rewrite (cbind_Ret _ _ _ _ _ (ipc_check_uchan_integrity_eval _ _ Hu)). cbn [Z.eqb].
    erewrite cbind_Ret by (apply umem_get_eval; [apply Hu | unfold UMEM_TX_COUNT; lia]).
    erewrite cbind_Ret by (apply umem_get_eval; [apply Hu | unfold UMEM_REMOTE_TX_COUNT; lia]).
    reflexivity. }
  rewrite E. case_decide as Hc.
  - apply Z.eqb_eq in Hc as ->. reflexivity.
  - apply Z.eqb_neq in Hc as ->. cbn [negb].
    set (v := tx_count (w_mem w) (remote_mem u)).
    assert (HF := umem_set_frame w (local_mem u) UMEM_REMOTE_TX_COUNT v).
    destruct (uchan_wf_frame _ _ _ UMEM_REMOTE_TX_COUNT Hu
                ltac:(unfold UMEM_REMOTE_TX_COUNT; lia) HF) as [Hu' Ht].
    eexists. erewrite cbind_Ret
      by (apply umem_set_eval; [apply Hu | unfold UMEM_REMOTE_TX_COUNT; lia]).
    split; [reflexivity |]. split_and!; [| exact Hu' | exact HF].
    fold v. rewrite Ht. unfold seen_count. apply uint_at_set_same.
    exact (uint_at_range 4 _ _ Hmem).
Qed.

End Unmanaged.

Section TwoEnds.
Context {PA : Type} `{PLA : Platform PA} `{LWA : !PlatformLaws PA} `{APA : App PA}.
Context {PB : Type} `{PLB : Platform PB} `{LWB : !PlatformLaws PB} `{APB : App PB}.

(** C24: sending on an unmanaged channel adds one to the local transmission
    counter modulo 2^32, writes no other memory, then notifies the remote and
    returns 0; the peer notices it exactly once: when it had seen all earlier
    ones, its next receive call runs the callback with the address of the
    sender's memory (and reports the whole budget as work), and if the callback
    leaves the control words alone, the receive call after that finds nothing. *)
Theorem unmanaged_tx_noticed_once (wA : world PA) iA pA chA kA iB pB chB kB budget :
  operational wA iA pA -> has_unmanaged pA chA kA -> uchan_wf (w_mem wA) (ch_umng kA) ->
  remote_mem (ch_umng kB) = local_mem (ch_umng kA) ->
  local_mem (ch_umng kB) = remote_mem (ch_umng kA) ->
  has_unmanaged pB chB kB -> mem_ok (w_mem wA) ->
  seen_count (w_mem wA) (remote_mem (ch_umng kA)) = tx_count (w_mem wA) (local_mem (ch_umng kA)) ->
  exists wA', ipc_shm_unmanaged_tx iA chA wA = Ret 0 wA' /\ w_priv wA' = w_priv wA /\
    tx_count (w_mem wA') (local_mem (ch_umng kA)) = u32 (tx_count (w_mem wA) (local_mem (ch_umng kA)) + 1) /\
    same_except (range (local_mem (ch_umng kA) + UMEM_TX_COUNT) 4) (w_mem wA) (w_mem wA') /\
    on_plat (ipc_hw_irq_notify iA) (with_mem wA (w_mem wA')) = Ret tt wA' /\
    forall wB : world PB, w_mem wB = w_mem wA' -> nthZ (w_priv wB) iB = Some pB ->
      mem_ok (w_mem wB) ->
      exists m', ipc_channel_rx iB chB budget wB =
          (call_unmanaged_cb (u_rx_cb (ch_umng kB)) (u_cb_arg (ch_umng kB)) iB (ch_id kB)
             (local_mem (ch_umng kA) + UMEM_MEM) ;;; cret budget) (with_mem wB m') /\
        forall wB', w_mem wB' = m' -> w_priv wB' = w_priv wB -> mem_ok m' ->
          ipc_channel_rx iB chB budget wB' = Ret 0 wB'.
Proof.
  intros Ho HA Hu Er El HB Hok Hseen.
  destruct (ipc_shm_unmanaged_tx_eval wA iA pA chA kA Ho HA Hu) as (wA' & E & Epriv & Ht & HF & Hn).
  exists wA'. split_and!; [exact E | exact Epriv | exact Ht | exact HF | exact Hn |]. intros wB Em Hp HokB.
  assert (Hu' : uchan_wf (w_mem wB) (ch_umng kB) /\
    seen_count (w_mem wB) (local_mem (ch_umng kB)) = tx_count (w_mem wA) (local_mem (ch_umng kA))).
  { destruct (uchan_wf_frame _ _ _ UMEM_TX_COUNT Hu ltac:(unfold UMEM_TX_COUNT; lia) HF) as [W _].
    rewrite Em. split.
    - destruct W as [W1 W2 Wd W3 W4]. constructor; rewrite ?Er, ?El; auto.
      unfold disjoint_ranges in *. lia.
    - rewrite El, <- Hseen. apply (same_except_uint _ _ _ _ _ HF). intros x.
      destruct Hu as [_ _ Hd _ _].
      unfold disjoint_ranges, range, UMEM_SIZE, UMEM_TX_COUNT, UMEM_REMOTE_TX_COUNT in *. lia. }
  destruct Hu' as [Hu' Hs].
  assert (Hr := ipc_channel_rx_unmanaged wB iB pB chB kB budget Hp HB Hu' HokB). cbv zeta in Hr.
  rewrite decide_False in Hr.
  - destruct Hr as (m' & E' & Hs' & Hw' & _). exists m'. rewrite Er in E'. split; [exact E' |].
    intros wB' Em' Ep' Hok'. subst m'.
    assert (Hr := ipc_channel_rx_unmanaged wB' iB pB chB kB budget). cbv zeta in Hr.
    rewrite decide_True in Hr by congruence. apply Hr; auto. now rewrite Ep'.
  - rewrite Hs, Em, Er, Ht. assert (Hrng := uint_at_range 4 (w_mem wA)
      (local_mem (ch_umng kA) + UMEM_TX_COUNT) Hok).
    change (256 ^ Z.of_nat 4) with 4294967296 in Hrng. unfold tx_count, u32. intros Heq.
    set (x := uint_at 4 (w_mem wA) (local_mem (ch_umng kA) + UMEM_TX_COUNT)) in *.
    destruct (Z.eq_dec x 4294967295) as [Ex | Ex].
    + rewrite Ex in Heq. discriminate Heq.
    + rewrite Z.mod_small in Heq by lia. lia.
Qed.

End TwoEnds.
