(* ===== verification/UnmanagedSteps.v ===== *)
(** * Unmanaged channels, access by access (src/ipc-shm.c)

    [ipc_shm_unmanaged_tx] up to the notification and the reception on an
    unmanaged channel up to the callback, as programs of single loads and stores.
    Run without interruption they are the functions of [Shm]. *)

From S2P Require Import Prelude Memory Types Queue QueueSpec Atomic World Shm ShmSpec Traffic ChannelSteps Unmanaged.
#[local] Open Scope Z_scope.

(** What an end knows of an instance: the channel, the address of its own state
    word and that of the remote's. *)
Record uview : Type := UView {
  uv_chan : ipc_unmanaged_channel;
  uv_state : Z;
  uv_remote : Z
}.

(** ** Programs *)

Definition uremote_ready_steps (v : uview) : prog Z :=
  let+ s := load 8 (uv_state v) in
  if s =? IPC_SHM_STATE_CLEAR then Done (- EINVAL) else
  let+ r := load 8 (uv_remote v) in
  if negb (r =? IPC_SHM_STATE_READY) then Done (- EAGAIN) else Done 0.

Definition ipc_check_uchan_integrity_steps (u : ipc_unmanaged_channel) : prog Z :=
  let+ s := load 4 (local_mem u + UMEM_SENTINEL) in
  if negb (s =? IPC_UCHAN_INIT_DONE) then Done (- EINVAL) else
  let+ s := load 4 (remote_mem u + UMEM_SENTINEL) in
  if s =? IPC_UCHAN_INIT_DONE then Done 0 else Done (- EINVAL).

(** bump Tx counter *)
Definition bump_steps (u : ipc_unmanaged_channel) : prog Z :=
  let+ c := load 4 (local_mem u + UMEM_TX_COUNT) in
  let+ _ := store 4 (local_mem u + UMEM_TX_COUNT) (u32 (c + 1)) in
  Done 0.

Definition ipc_shm_unmanaged_tx_steps (v : uview) : prog Z :=
  let+ ready := uremote_ready_steps v in
  if negb (ready =? 0) then Done (- EINVAL) else
  let+ ok := ipc_check_uchan_integrity_steps (uv_chan v) in
  if negb (ok =? 0) then Done (- EINVAL) else
  bump_steps (uv_chan v).

(** The result tells whether the callback runs. *)
Definition compare_steps (u : ipc_unmanaged_channel) : prog bool :=
  let+ remote_tx_count := load 4 (remote_mem u + UMEM_TX_COUNT) in
  let+ seen := load 4 (local_mem u + UMEM_REMOTE_TX_COUNT) in
  if negb (remote_tx_count =? seen) then
    let+ _ := store 4 (local_mem u + UMEM_REMOTE_TX_COUNT) remote_tx_count in Done true
  else Done false.

Definition unmanaged_rx_steps (u : ipc_unmanaged_channel) : prog bool :=
  let+ ok := ipc_check_uchan_integrity_steps u in
  if 0 =? ok then compare_steps u else Done false.

(** ** Without interruption *)

Section Run.
Context {P : Type} `{PL : Platform P} `{LW : !PlatformLaws P} `{AP : App P}.

Definition prun {R} (p : prog R) : M (world P) R := on_mem (run p).

Lemma prun_bind {A B} (p : prog A) (f : A -> prog B) w :
  prun (pbind p f) w = (let* a := prun p in prun (f a)) w.
Proof. unfold prun. rewrite <- on_mem_bind. unfold on_mem, czoom. now rewrite run_pbind. Qed.

Lemma prun_seq {A B C} (p : prog A) (f : A -> prog B) (k : B -> M (world P) C) w :
  (let* x := prun (pbind p f) in k x) w = (let* a := prun p in let* x := prun (f a) in k x) w.
Proof. rewrite <- cbind_assoc. apply cbind_same; [apply prun_bind | reflexivity]. Qed.

Lemma prun_done {A} (a : A) w : prun (Done a) w = Ret a w.
Proof. unfold prun. cbn [run]. now apply on_mem_read. Qed.

Lemma on_mem_same {A} (c c' : M memory A) (w : world P) : (forall m, c m = c' m) -> on_mem c w = on_mem c' w.
Proof. intros E. unfold on_mem, czoom. now rewrite E. Qed.

Lemma prun_load n a w : prun (load n a) w = on_mem (read_uint n a) w.
Proof.
  apply on_mem_same. intros m. unfold load. cbn [run do_access]. unfold cbind. now destruct (read_uint n a m).
Qed.

Lemma prun_store n a x w : prun (store n a x) w = on_mem (write_uint n a x) w.
Proof.
  apply on_mem_same. intros m. unfold store. cbn [run do_access]. unfold cbind.
  now destruct (write_uint n a x m) as [[] m' |].
Qed.

(** A load in sequence, on both sides. *)
Lemma load_step {A} n a (f : Z -> prog A) (k : Z -> M (world P) A) w :
  (forall x, k x w = prun (f x) w) ->
  (let* x := on_mem (read_uint n a) in k x) w = prun (pbind (load n a) f) w.
Proof.
  intros Hk. rewrite prun_bind. apply cbind_same; [symmetry; apply prun_load |].
  intros x w' E. apply read_keeps in E as ->. apply Hk.
Qed.

Lemma integrity_run u w : ipc_check_uchan_integrity u w = prun (ipc_check_uchan_integrity_steps u) w.
Proof.
  unfold ipc_check_uchan_integrity, ipc_check_uchan_integrity_steps, umem_get.
  apply load_step. intros s. destruct (negb _); [now rewrite prun_done |].
  apply load_step. intros s'. destruct (_ =? _); now rewrite prun_done.
Qed.

(** Programs of loads leave the world alone. *)
Fixpoint only_loads {A} (p : prog A) : Prop :=
  match p with
  | Access (Load _ _) k => forall x, only_loads (k x)
  | Access (Store _ _ _) _ => False
  | _ => True
  end.

Lemma prun_loads_keep {A} (p : prog A) (w w' : world P) a : only_loads p -> prun p w = Ret a w' -> w' = w.
Proof.
  revert w. induction p as [x | | [n ad | n ad x] k IH]; intros w Hp E; [| | | easy].
  - rewrite prun_done in E. congruence.
  - discriminate E.
  - change (Access (Load n ad) k) with (pbind (load n ad) k) in E. rewrite prun_bind in E.
    apply cbind_inv in E as (y & w1 & E1 & E2). rewrite prun_load in E1. apply read_keeps in E1 as ->.
    exact (IH y w (Hp y) E2).
Qed.

Lemma ready_only_loads v : only_loads (uremote_ready_steps v).
Proof.
  intros s. cbn [pbind]. destruct (_ =? _); [exact I |]. intros r. cbn [pbind]. now destruct (negb _).
Qed.
Lemma integrity_only_loads u : only_loads (ipc_check_uchan_integrity_steps u).
Proof.
  intros s. cbn [pbind]. destruct (negb _); [exact I |]. intros r. cbn [pbind]. now destruct (_ =? _).
Qed.

(** [v] is the view of channel [ch] of instance [i]. *)
Record has_uview (w : world P) (i ch : Z) (p : ipc_shm_priv) (k : ipc_shm_channel) (v : uview) : Prop := {
  hu_inst : 0 <= i < IPC_SHM_MAX_INSTANCES;
  hu_priv : nthZ (w_priv w) i = Some p;
  hu_global : p_global p <> NULL;
  hu_live : plat_live i (mem_regions (w_mem w)) (w_plat w);
  hu_unmanaged : has_unmanaged p ch k;
  hu_view : uv_chan v = ch_umng k;
  hu_state : uv_state v = p_global p;
  hu_remote : uv_remote v = remote_base i (w_plat w)
}.

Section View.
Context (w : world P) (i ch : Z) (p : ipc_shm_priv) (k : ipc_shm_channel) (v : uview) (V : has_uview w i ch p k v).

Lemma uremote_ready_run : ipc_shm_is_remote_ready i w = prun (uremote_ready_steps v) w.
Proof.
  destruct V as [Hi Hp Hg Hl _ _ Hs Hr]. unfold ipc_shm_is_remote_ready, uremote_ready_steps, ipc_instance_is_free.
  replace (IPC_SHM_MAX_INSTANCES <=? i) with false by (symmetry; apply Z.leb_gt; lia).
  rewrite cbind_assoc, (cbind_Ret _ _ _ _ _ (get_priv_eval _ _ _ Hp)).
  apply Z.eqb_neq in Hg as ->. unfold global_state. rewrite cbind_assoc, <- Hs. apply load_step. intros s.
  destruct (s =? IPC_SHM_STATE_CLEAR); rewrite cbind_cret; [now rewrite prun_done |]. cbn [negb].
  rewrite bool_decide_eq_true_2 by reflexivity. cbn [negb].
  rewrite (cbind_Ret _ _ _ _ _ (get_remote_eval _ _ Hl)), <- Hr. apply load_step. intros r.
  destruct (negb _); now rewrite prun_done.
Qed.

(** Sending is the program, then the notification. *)
Lemma unmanaged_tx_run :
  ipc_shm_unmanaged_tx i ch w =
  (let* r := prun (ipc_shm_unmanaged_tx_steps v) in
   if r =? 0 then on_plat (ipc_hw_irq_notify i) ;;; cret 0 else cret r) w.
Proof.
  unfold ipc_shm_unmanaged_tx, ipc_shm_unmanaged_tx_steps.
  rewrite prun_seq. apply cbind_same; [apply uremote_ready_run |]. intros r w1 E.
  rewrite uremote_ready_run in E. apply prun_loads_keep in E as ->; [| apply ready_only_loads].
  destruct (negb _); [now rewrite (cbind_Ret _ _ _ _ _ (prun_done _ _)) |].
  rewrite (cbind_Ret _ _ _ _ _ (get_unmanaged_chan_eval _ _ _ _ _ (hu_priv _ _ _ _ _ _ V) (hu_unmanaged _ _ _ _ _ _ V))).
  rewrite <- (hu_view _ _ _ _ _ _ V).
  rewrite prun_seq. apply cbind_same; [apply integrity_run |]. intros ok w1 E.
  rewrite integrity_run in E. apply prun_loads_keep in E as ->; [| apply integrity_only_loads].
  destruct (negb _); [now rewrite (cbind_Ret _ _ _ _ _ (prun_done _ _)) |].
  unfold bump_steps, umem_get, umem_set.
  rewrite prun_seq. apply cbind_same; [symmetry; apply prun_load |]. intros c w1 _.
  rewrite prun_seq. apply cbind_same; [symmetry; apply prun_store |]. intros [] w2 _.
  now rewrite (cbind_Ret _ _ _ _ _ (prun_done _ _)).
Qed.

(** Receiving is the program, then the callback when it finds something. *)
Lemma unmanaged_rx_run budget :
  let u := uv_chan v in
  ipc_channel_rx i ch budget w =
  (let* found := prun (unmanaged_rx_steps u) in
   if (found : bool) then call_unmanaged_cb (u_rx_cb u) (u_cb_arg u) i (ch_id k) (remote_mem u + UMEM_MEM) ;;; cret budget
   else cret 0) w.
Proof.
  intros u. destruct (hu_unmanaged _ _ _ _ _ _ V) as [_ Hk Ht]. unfold ipc_channel_rx, unmanaged_rx_steps.
  rewrite (cbind_Ret _ _ _ _ _ (get_channel_priv_eval _ _ _ _ _ (hu_priv _ _ _ _ _ _ V) Hk)), Ht.
  rewrite <- (hu_view _ _ _ _ _ _ V). fold u. cbv zeta.
  rewrite prun_seq. apply cbind_same; [apply integrity_run |]. intros ok w1 _.
  destruct (0 =? ok); [| now rewrite (cbind_Ret _ _ _ _ _ (prun_done _ _))]. unfold compare_steps, umem_get, umem_set.
  rewrite prun_seq. apply cbind_same; [symmetry; apply prun_load |]. intros r w2 _.
  rewrite prun_seq. apply cbind_same; [symmetry; apply prun_load |]. intros s w3 _.
  destruct (negb _); [| now rewrite (cbind_Ret _ _ _ _ _ (prun_done _ _))].
  rewrite prun_seq. apply cbind_same; [symmetry; apply prun_store |]. intros [] w4 _.
  now rewrite (cbind_Ret _ _ _ _ _ (prun_done _ _)).
Qed.

End View.
End Run.
