(* ===== verification/ChannelCalls.v ===== *)
(** * The calls on a channel one by one

    Run without interruption, the access-level calls of [ChannelProto] are the
    functions of [Shm]; interrupted in any way, each returns after a bounded
    number of its own accesses. *)

From S2P Require Import Prelude Memory Types Queue QueueSpec Atomic QueueSteps Linear.
From S2P Require Import World Shm ShmSpec Traffic Delivery Ownership Clients ChannelSteps ChannelProto Concurrent UnmanagedSteps.
#[local] Open Scope Z_scope.

(** ** Number of accesses *)

(** [p] makes at most [n] accesses when a queue operation makes [b]. *)
Fixpoint client_within {R} (b n : nat) (p : call_prog R) {struct p} : Prop :=
  match p with
  | CDone _ | CWrong => True
  | CLoad _ _ f => (1 <= n)%nat /\ forall v, client_within b (n - 1) (f v)
  | COp _ _ f => (b <= n)%nat /\ forall r, client_within b (n - b) (f r)
  end.

Lemma client_within_mono {R} b (p : call_prog R) : forall n n', (n <= n')%nat -> client_within b n p -> client_within b n' p.
Proof.
  induction p as [a | | z a k IH | k op f IH]; intros n n' Hn H; cbn [client_within] in *; auto;
    destruct H as [H1 H2]; (split; [lia |]); intros v; eapply IH; try apply H2; lia.
Qed.

Lemma client_within_bind {A B} b (p : call_prog A) (f : A -> call_prog B) : forall n k,
  client_within b n p -> (forall a, client_within b k (f a)) -> client_within b (n + k) (client_bind p f).
Proof.
  induction p as [a | | z a g IH | q op g IH]; intros n k Hp Hf; cbn [client_within client_bind] in *; auto.
  - eapply client_within_mono; [| apply Hf]. lia.
  - destruct Hp as [H1 H2]. split; [lia |]. intros v. replace (n + k - 1)%nat with (n - 1 + k)%nat by lia. auto.
  - destruct Hp as [H1 H2]. split; [lia |]. intros v. replace (n + k - b)%nat with (n - b + k)%nat by lia. auto.
Qed.

(** Accesses of a call on a channel of at most four pools: 13 for an operation
    on a queue of descriptors, two for a check of its sentinels. *)
Definition op_accesses : nat := 13.
Definition check_accesses (pools : nat) : nat := 2 * S pools.
Definition call_accesses (op : call) : nat :=
  match op with
  | CallAcquire _ => 64
  | CallTx _ _ => 25
  | CallRx => 13
  | CallRelease _ => 24
  end.

Abbreviation cwithin := (client_within op_accesses).

Lemma used_within v : cwithin 1 (instance_used_steps v).
Proof. split; [lia |]. intros s. exact I. Qed.

Lemma ready_within v : cwithin 2 (remote_ready_steps v).
Proof.
  apply (client_within_bind _ _ _ 1 1); [apply used_within |]. intros [|]; cbn [negb]; [| exact I].
  split; [lia |]. intros s. now destruct (negb _).
Qed.

Lemma queue_integrity_within q : cwithin 2 (queue_integrity_steps q).
Proof.
  split; [lia |]. intros s1. destruct (negb _); [exact I |]. split; [lia |]. intros s2. now destruct (_ =? _).
Qed.

Lemma pools_integrity_within ps : cwithin (2 * length ps) (pools_integrity_steps ps).
Proof.
  induction ps as [|p ps IH]; [exact I |]. cbn [pools_integrity_steps length].
  apply (client_within_mono _ _ (2 + 2 * length ps)); [lia |].
  apply client_within_bind; [apply queue_integrity_within |]. intros e. destruct (negb _); [exact I | exact IH].
Qed.

Lemma mchan_integrity_within c : cwithin (check_accesses (length (active_pools c))) (mchan_integrity_steps c).
Proof.
  apply (client_within_mono _ _ (2 + 2 * length (active_pools c))); [unfold check_accesses; lia |].
  apply client_within_bind; [apply queue_integrity_within |]. intros e.
  destruct (0 =? e); [apply pools_integrity_within | exact I].
Qed.

Lemma acquire_pools_within sz ps : forall i, cwithin (op_accesses * length ps) (acquire_pool_steps i ps sz).
Proof.
  induction ps as [|p ps IH]; intros i; cbn [acquire_pool_steps length]; [exact I |].
  destruct (_ <? _); [eapply client_within_mono; [| apply IH]; lia |]. split; [unfold op_accesses; lia |].
  intros r. destruct (_ =? 0); [exact I |]. eapply client_within_mono; [| apply IH]. unfold op_accesses; lia.
Qed.

Lemma call_within v op :
  (length (active_pools (v_chan v)) <= 4)%nat -> cwithin (call_accesses op) (call_steps v op).
Proof.
  intros Hn. assert (Hm : cwithin 10 (mchan_integrity_steps (v_chan v))).
  { eapply client_within_mono; [| apply mchan_integrity_within]. unfold check_accesses. lia. }
  assert (Hend : forall A B (p : call_prog A) (g : A -> B) n, cwithin n p -> cwithin n (client_bind p (fun x => CDone (g x)))).
  { intros A B p g n H. rewrite <- (Nat.add_0_r n). now apply client_within_bind. }
  destruct op as [sz | buf size | | buf]; cbn [call_steps call_accesses]; apply Hend.
  - apply (client_within_bind _ _ _ 2 62); [apply ready_within |]. intros r. destruct (negb _); [exact I |].
    destruct (_ =? 0); [exact I |]. apply (client_within_bind _ _ _ 10 52); [exact Hm |]. intros ok.
    destruct (negb _); [exact I |]. apply (client_within_bind _ _ _ 52 0).
    + eapply client_within_mono; [| apply acquire_pools_within]. unfold op_accesses. lia.
    + intros [[p bd] |]; [| exact I]. cbv zeta. now destruct (_ || _).
  - apply (client_within_bind _ _ _ 2 23); [apply ready_within |]. intros r. destruct (negb _); [exact I |].
    destruct (_ || _); [exact I |]. apply (client_within_bind _ _ _ 10 13); [exact Hm |]. intros ok.
    destruct (negb _); [exact I |]. destruct (bd_of_buf _ _ _) as [[e | [k j]] |]; try exact I.
    split; [unfold op_accesses; lia |]. intros x. now destruct (negb _).
  - split; [unfold op_accesses; lia |]. intros x. destruct (negb _); [exact I |].
    cbv zeta. destruct (nthZ _ _); [| exact I]. now destruct (_ && _).
  - apply (client_within_bind _ _ _ 1 23); [apply used_within |]. intros u. destruct (negb u); [exact I |].
    destruct (_ =? _); [exact I |]. apply (client_within_bind _ _ _ 10 13); [exact Hm |]. intros ok.
    destruct (negb _); [exact I |]. destruct (bd_of_buf _ _ _) as [[e | [k j]] |]; try exact I.
    split; [unfold op_accesses; lia | intros x; exact I].
Qed.

(** Elements of every queue of a channel are descriptors. *)
Lemma own_queue_all (P : ipc_queue -> Prop) c :
  (forall k, in_channel c k -> P (own_queue c k)) -> forall k, P (own_queue c k).
Proof.
  intros H [i |]; [| now apply (H None)]. destruct (active_pools c !! i) as [p |] eqn:Ep.
  - apply (H (Some i)). cbn. eapply lookup_lt_Some; eauto.
  - cbn [own_queue]. rewrite Ep. now apply (H None).
Qed.

Lemma expand_within {R} base d (p : call_prog R) : forall n,
  (forall k : queue_id, elem_size (base k) = SIZEOF_BD) -> cwithin n p -> within n (expand base d p).
Proof.
  intros n E. revert n.
  induction p as [a | | z a f IH | k op f IH]; intros n Hp; cbn [expand client_within] in *; try exact I.
  - destruct Hp as [H1 H2]. destruct n as [|n]; [lia |]. intros v. apply IH.
    specialize (H2 v). now rewrite Nat.sub_succ, Nat.sub_0_r in H2.
  - destruct Hp as [H1 H2]. replace n with (op_accesses + (n - op_accesses))%nat by lia.
    apply within_pbind; [| intros r; apply IH; auto].
    assert (H := within_op (end_queue (base k) d) op).
    replace (elem_size (end_queue (base k) d)) with SIZEOF_BD in H by (symmetry; destruct d; exact (E k)). exact H.
Qed.

Section Calls.
Context (vw : endpoint -> view) (m0 : memory) (C : connected vw m0).
Abbreviation chan e := (v_chan (vw e)).
Abbreviation base := (own_queue (chan Near)).
Abbreviation wf_prog := (well_formed (in_channel (chan Near))).

Lemma loads_well_formed {R} (p : call_prog R) : loads_only p -> wf_prog p.
Proof. induction p; cbn [loads_only well_formed]; intuition auto. Qed.

Lemma acquire_pools_well_formed e sz : forall ps (i : nat),
  drop i (active_pools (chan e)) = ps -> wf_prog (acquire_pool_steps i ps sz).
Proof.
  induction ps as [|p ps IH]; intros i Hd; cbn [acquire_pool_steps]; [exact I |].
  apply drop_cons_lookup in Hd as [Hp Hd]. destruct (_ <? _); [now apply (IH (S i)) |].
  cbn [well_formed]. split_and!; [| exact I |].
  - apply (in_channel_end _ _ C e). cbn. eapply lookup_lt_Some; eauto.
  - intros r. destruct (_ =? _); [exact I | now apply (IH (S i))].
Qed.

Lemma call_well_formed e op : wf_prog (call_steps (vw e) op).
Proof.
  assert (Hm : wf_prog (mchan_integrity_steps (chan e))) by apply loads_well_formed, mchan_integrity_loads.
  assert (Hr : wf_prog (remote_ready_steps (vw e))) by apply loads_well_formed, ready_loads.
  assert (Hu : wf_prog (instance_used_steps (vw e))) by apply loads_well_formed, used_loads.
  destruct op as [sz | buf size | | buf]; cbn [call_steps]; apply well_formed_bind; try (intros; exact I).
  - apply well_formed_bind; [exact Hr |]. intros r. destruct (negb _); [exact I |].
    destruct (_ =? 0); [exact I |]. apply well_formed_bind; [exact Hm |]. intros ok. destruct (negb _); [exact I |].
    apply well_formed_bind; [now apply (acquire_pools_well_formed e _ _ 0%nat) |].
    intros [[p bd] |]; [| exact I]. cbv zeta. now destruct (_ || _).
  - apply well_formed_bind; [exact Hr |]. intros r. destruct (negb _); [exact I |].
    destruct (_ || _); [exact I |]. apply well_formed_bind; [exact Hm |]. intros ok. destruct (negb _); [exact I |].
    destruct (bd_of_buf _ _ _) as [[x | [k j]] |]; try exact I. cbn [well_formed].
    split_and!; [exact I | apply bd_encode_ok |]. intros x. now destruct (negb _).
  - cbn [managed_rx_one_steps well_formed]. split_and!; [exact I | exact I |]. intros x. destruct (negb _); [exact I |].
    cbv zeta. destruct (nthZ _ _); [| exact I]. now destruct (_ && _).
  - apply well_formed_bind; [exact Hu |]. intros u. destruct (negb u); [exact I |].
    destruct (_ =? _); [exact I |]. apply well_formed_bind; [exact Hm |]. intros ok. destruct (negb _); [exact I |].
    destruct (bd_of_buf _ _ _) as [[x | [k j]] |] eqn:Eb; try exact I. cbn [well_formed].
    split_and!; [| apply bd_encode_ok | intros x; exact I]. eapply (bd_of_buf_pool _ _ C); eauto.
Qed.

Lemma all_bd k : elem_size (base k) = SIZEOF_BD.
Proof. apply own_queue_all, (elem_size_bd _ _ C). Qed.

Lemma four_pools e : (length (active_pools (chan e)) <= 4)%nat.
Proof.
  assert (Hc := cn_wf _ _ C e). rewrite (active_length _ _ Hc). assert (H := mw_num _ _ Hc).
  unfold IPC_SHM_MAX_POOLS in H. lia.
Qed.

Lemma code_within t op : within (call_accesses op) (channel_code vw t op).
Proof. apply expand_within; [exact all_bd | apply call_within, four_pools]. Qed.

(** What a thread returns can be handed to its application. *)
Lemma given_own t r hand o : given t r hand -> exists o', own_step o (EReturn t r) o'.
Proof.
  destruct t as [e f]. unfold given. cbn [snd].
  destruct f, r as [a | c | x]; try easy; intros _; eexists; constructor.
Qed.

End Calls.

(** C14: wait-freedom of the channel.  However the threads of the two ends are
    interleaved, and even if others stop in the middle of a call, a call returns
    after a bounded number of memory accesses of its own: 64 to acquire, 25 to
    send, 13 to receive a message and 24 to release, whatever the number of
    pools; until then its thread can always take its next step. *)
Theorem channel_calls_wait_free vw m o es1 c1 o1 t op c2 o2 es2 c3 o3 :
  connected vw m -> (forall e, accounted (v_chan (vw e)) (m, (o e).1, (o e).2)) ->
  exec (channel_step vw) ((m, fun _ => Idle), o) es1 (c1, o1) ->
  channel_step vw (c1, o1) (ECall t op) (c2, o2) ->
  exec (channel_step vw) (c2, o2) es2 (c3, o3) -> (forall r, EReturn t r ∉ es2) ->
  (accesses t es2 <= call_accesses op)%nat /\
  exists e x, channel_step vw (c3, o3) e x /\ (e = EAccess t \/ exists r, e = EReturn t r).
Proof.
  intros C H0 He1 Hc He2 Hr.
  destruct (channel_start vw m C o H0) as (a0 & Hs0 & Ho0).
  assert (He : exec (channel_step vw) ((m, fun _ => Idle), o) (es1 ++ ECall t op :: es2) (c3, o3)).
  { eapply exec_app; [exact He1 |]. econstructor; [exact Hc | exact He2]. }
  destruct (channel_reachable vw m C _ _ _ _ _ He a0 Hs0 Ho0) as (_ & a & Ha & hand & Hp & _).
  inversion Hc as [? ? ? ? ? Hst _]; subst. inversion Hst as [m1 th t' op' Hi Hm | |]; subst.
  destruct (accesses_bounded may_call (channel_code vw) t (m1, upd th t (Running (channel_code vw t op))) es2 c3
              (channel_exec vw _ _ _ _ _ He2) (channel_code vw t op) (call_accesses op))
    as (p & Ep & Hn & _); [cbn [snd]; apply upd_same | now apply code_within with m | exact Hr |].
  split; [exact Hn |].
  assert (Hf : ~ faults c3 t).
  { apply (csim_no_fault _ _ _ _ _ _ _ _ _ _ Ha). intros E. specialize (Hp t). rewrite E in Hp. exact Hp. }
  destruct (running_steps may_call (channel_code vw) c3 t p Ep Hf) as (e & c4 & Hs & [-> | (r & ->)]).
  - exists (EAccess t), (c4, o3). split; [constructor; [exact Hs | constructor] | auto].
  - assert (Hg : exists h, given t r h).
    { inversion Hs as [| | ? ? ? ? Hd]; subst. assert (Ht := cs_threads _ _ _ _ _ _ _ _ _ Ha t). cbn [snd] in Ht.
      rewrite Hd in Ht. specialize (Hp t). destruct (a.2 t) as [q |] eqn:Eq; [| easy]. cbn [thread_sims] in Ht.
      remember (Done r) as y eqn:Ey. destruct Ht; try discriminate Ey. injection Ey as ->. eauto. }
    destruct Hg as (h & Hg). destruct (given_own t r h o3 Hg) as (o4 & Ho4).
    exists (EReturn t r), (c4, o4). split; [now constructor | eauto].
Qed.

(** ** Without interruption *)

Section Shm.
Context {P : Type} `{PL : Platform P} `{LW : !PlatformLaws P} `{AP : App P}.

Definition code_of (r : answer) : Z := match r with ACode e => e | _ => 0 end.

Lemma call_run (w : world P) vw t op :
  connected vw (w_mem w) -> mem_ok (w_mem w) ->
  on_mem (run (channel_code vw t op)) w = wrun (vw t.1) (call_steps (vw t.1) op) w.
Proof.
  intros C Hok. unfold wrun, on_mem, czoom, channel_code, thread_code.
  rewrite (expand_crun (own_queue (v_chan (vw t.1))) (in_channel (v_chan (vw Near)))); auto.
  - intros k Hk. now apply (own_queue_end _ _ C).
  - now apply (call_well_formed _ _ C).
  - intros k Hk. rewrite (own_queue_end _ _ C t.1 k Hk).
    apply (proj2 (end_wf _ _ _) (queue_in_order _ _ C k Hk)).
Qed.

(** C17: the calls whose accesses the theorems on concurrent use interleave are
    the calls of the driver: run without interruption, the access-level programs
    of acquiring, sending, receiving a message and releasing have exactly the
    results and effects of [ipc_shm_acquire_buf], [ipc_shm_tx] (which then
    notifies the remote), of a turn of the receive loop (which then calls the
    callback), and of [ipc_shm_release_buf]; on an unmanaged channel, those of
    [ipc_shm_unmanaged_tx] and of [ipc_channel_rx]. *)
Theorem channel_calls_uninterrupted (w : world P) i ch p vw d :
  connected vw (w_mem w) -> has_view w i ch p (vw d) -> mem_ok (w_mem w) -> u8 ch = ch ->
  let call f op := on_mem (run (channel_code vw (d, f) op)) in
  (forall n, call FAcquire (CallAcquire n) w = (let* a := ipc_shm_acquire_buf i ch n in cret (AAddr a)) w) /\
  (forall buf size,
     ipc_shm_tx i ch buf size w =
     (let* r := call FTx (CallTx buf size) in
      if negb (code_of r =? 0) then cret (code_of r) else on_plat (ipc_hw_irq_notify i) ;;; cret 0) w) /\
  managed_rx_one i ch w =
    (let* r := call FRx CallRx in
     match r with
     | AMsg (Some x) => deliver (v_chan (vw d)) i (default 0 (ch_id <$> nthZ (p_channels p) ch)) x ;;; cret true
     | _ => cret false
     end) w /\
  (forall buf, call FRelease (CallRelease buf) w = (let* e := ipc_shm_release_buf i ch buf in cret (ACode e)) w) /\
  (forall uch k v, has_uview w i uch p k v ->
     ipc_shm_unmanaged_tx i uch w =
     (let* r := on_mem (run (ipc_shm_unmanaged_tx_steps v)) in
      if r =? 0 then on_plat (ipc_hw_irq_notify i) ;;; cret 0 else cret r) w /\
     forall budget, ipc_channel_rx i uch budget w =
     (let* found := on_mem (run (unmanaged_rx_steps (uv_chan v))) in
      if (found : bool) then
        call_unmanaged_cb (u_rx_cb (uv_chan v)) (u_cb_arg (uv_chan v)) i (ch_id k) (remote_mem (uv_chan v) + UMEM_MEM) ;;;
        cret budget
      else cret 0) w).
Proof.
  intros C V Hok Hch call. unfold call.
  assert (E : forall A f op (k : answer -> M (world P) A),
    (let* r := on_mem (run (channel_code vw (d, f) op)) in k r) w = (let* r := wrun (vw d) (call_steps (vw d) op) in k r) w).
  { intros A f op k. apply cbind_same; [now apply (call_run w vw (d, f)) | reflexivity]. }
  assert (K : forall A B (q : call_prog A) (g : A -> answer) (k : answer -> M (world P) B),
    (let* r := wrun (vw d) (client_bind q (fun x => CDone (g x))) in k r) w = (let* x := wrun (vw d) q in k (g x)) w).
  { intros A B q g k. erewrite cbind_same; [| apply wrun_bind | reflexivity]. rewrite cbind_assoc.
    apply cbind_same; [reflexivity |]. intros x w1 _. apply cbind_Ret, wrun_done. }
  assert (Hn : num_pools (v_chan (vw d)) < 32768).
  { assert (H := mw_num _ _ (cn_wf _ _ C d)). unfold IPC_SHM_MAX_POOLS in H. lia. }
  split_and!.
  - intros n. rewrite (call_run w vw (d, FAcquire)) by assumption. cbn [fst call_steps].
    rewrite wrun_bind. apply cbind_same; [symmetry; now apply (acquire_buf_run w i ch p) |]. intros a w1 _. apply wrun_done.
  - intros buf size. rewrite E. cbn [call_steps]. rewrite K. now apply (tx_run w i ch p).
  - rewrite E. cbn [call_steps]. rewrite K. rewrite (rx_one_run w i ch p (vw d) V).
    apply cbind_same; [reflexivity |]. intros [x |] w1 _; reflexivity.
  - intros buf. rewrite (call_run w vw (d, FRelease)) by assumption. cbn [fst call_steps].
    rewrite wrun_bind. apply cbind_same; [symmetry; now apply (release_run w i ch p) |]. intros a w1 _. apply wrun_done.
  - intros uch k v U. split; [exact (unmanaged_tx_run w i uch p k v U) | exact (unmanaged_rx_run w i uch p k v U)].
Qed.

End Shm.
