(* ===== verification/Hostile.v ===== *)
(** * Calls on a channel against arbitrary memory

    The shared memory belongs to two cores.  Here nothing is assumed of the other
    one: between any two accesses of a call it may store anything anywhere,
    indexes, descriptors and marks included.  What a call on a managed channel
    does and answers then still stays within limits. *)

From S2P Require Import Prelude Memory Types Queue QueueSpec Atomic QueueSteps Linear.
From S2P Require Import World Shm ShmSpec Traffic Delivery Ownership Clients ChannelSteps ChannelProto Concurrent ChannelCalls.
From stdpp Require Import list.
#[local] Open Scope Z_scope.

(** ** A program among arbitrary stores *)

Section Attack.
Context {R : Type}.

(** [true] is a step of the program, [false] anything the rest of the system
    does to the memory. *)
Inductive attack : memory * prog R -> bool -> memory * prog R -> Prop :=
| attack_other m m' p :
    mem_ok m' -> mem_regions m' = mem_regions m -> attack (m, p) false (m', p)
| attack_own m x k v m' :
    do_access x m = Ret v m' -> attack (m, Access x k) true (m', k v).

Definition own_steps (ls : list bool) : nat := length (List.filter id ls).

(** Accesses go to mapped memory, stores to [wr]; [Q] holds of the result, and
    of [None] when the program goes wrong, whatever the loads return. *)
Fixpoint confined (m0 : memory) (wr : Z -> Prop) (Q : option R -> Prop) (p : prog R) : Prop :=
  match p with
  | Done r => Q (Some r)
  | Wrong => Q None
  | Access (Load n a) k =>
      mapped m0 a (Z.of_nat n) = true /\ forall v, 0 <= v < 256 ^ Z.of_nat n -> confined m0 wr Q (k v)
  | Access (Store n a v) k =>
      mapped m0 a (Z.of_nat n) = true /\ (forall x, range a (Z.of_nat n) x -> wr x) /\ confined m0 wr Q (k 0)
  end.

Lemma confined_access m0 m wr Q x k :
  mem_regions m = mem_regions m0 -> mem_ok m -> confined m0 wr Q (Access x k) ->
  exists v m', do_access x m = Ret v m' /\ same_except wr m m' /\ mem_ok m' /\
    mem_regions m' = mem_regions m0 /\ confined m0 wr Q (k v).
Proof.
  intros Hr Hok H. assert (Hm : forall a n, mapped m a n = mapped m0 a n) by (intros; unfold mapped; now rewrite Hr).
  destruct x as [n a | n a v]; cbn [confined do_access] in *; destruct H as [Ha H]; rewrite <- Hm in Ha.
  - exists (uint_at n m a), m. split; [exact (read_uint_ok n a m Ha) |]. split_and!; auto; [reflexivity |].
    apply H. exact (uint_at_range n m a Hok).
  - destruct H as [Hw H]. exists 0, (set_bytes m a (le_encode n v)). split_and!; auto.
    + unfold cbind. now rewrite (write_uint_ok n a v m Ha).
    + apply set_bytes_same_except. rewrite le_encode_length. intros y Hy. apply Hw. exact Hy.
    + intros y. apply (set_bytes_ok m a (le_encode n v) Hok (le_encode_ok n v)).
Qed.

(** A confined program stays confined, and its accesses are counted. *)
Lemma confined_exec m0 wr Q s ls s' :
  exec attack s ls s' -> forall n,
  mem_regions s.1 = mem_regions m0 -> mem_ok s.1 -> confined m0 wr Q s.2 -> within n s.2 ->
  mem_regions s'.1 = mem_regions m0 /\ mem_ok s'.1 /\ confined m0 wr Q s'.2 /\ (own_steps ls <= n)%nat.
Proof.
  induction 1 as [s | s e s1 ls s' Hs He IH]; intros n Hr Hok Hc Hw.
  - split_and!; auto. cbn. lia.
  - destruct Hs as [m m' p Hok' Hr' | m x k v m' Hd]; cbn [fst snd] in *.
    + apply IH; auto. congruence.
    + destruct (confined_access m0 m wr Q x k Hr Hok Hc) as (v' & m2 & E & _ & Hok2 & Hr2 & Hc2).
      rewrite Hd in E. injection E as <- <-. destruct n as [|n]; [easy |].
      destruct (IH n Hr2 Hok2 Hc2 (Hw v)) as (H1 & H2 & H3 & H4). split_and!; auto.
      unfold own_steps in *. cbn [List.filter id length]. lia.
Qed.

(** A run from a list of moves: a step of the program, or bytes stored somewhere
    by the rest of the system. *)
Fixpoint under_attack (plan : list (option (Z * list Z))) (s : memory * prog R) : list bool * (memory * prog R) :=
  match plan with
  | [] => ([], s)
  | Some (a, bs) :: plan =>
      let r := under_attack plan (set_bytes s.1 a bs, s.2) in (false :: r.1, r.2)
  | None :: plan =>
      match s.2 with
      | Access x k =>
          match do_access x s.1 with
          | Ret v m' => let r := under_attack plan (m', k v) in (true :: r.1, r.2)
          | Fault => ([], s)
          end
      | _ => ([], s)
      end
  end.

Definition bytes_moves (plan : list (option (Z * list Z))) : bool :=
  forallb (fun x => match x with Some (_, bs) => forallb (fun b => (0 <=? b) && (b <? 256)) bs | None => true end) plan.

Lemma under_attack_exec plan : forall s, bytes_moves plan = true -> mem_ok s.1 ->
  exec attack s (under_attack plan s).1 (under_attack plan s).2.
Proof.
  induction plan as [| [[a bs] |] plan IH]; intros [m p] Hb Hok; cbn [under_attack fst snd] in *; [apply exec_nil | |].
  - apply andb_true_iff in Hb as [Hb Hp]. cbn [fst snd].
    assert (Hok' : mem_ok (set_bytes m a bs)).
    { apply set_bytes_ok; [exact Hok |]. apply list.Forall_forall. intros b Hin.
      apply list_elem_of_In in Hin. rewrite forallb_forall in Hb. apply Hb in Hin. lia. }
    apply exec_cons with (set_bytes m a bs, p); [now apply attack_other | now apply IH].
  - cbn [bytes_moves forallb] in Hb. destruct p as [r | | x k]; cbn [fst snd]; try apply exec_nil.
    destruct (do_access x m) as [v m' |] eqn:Ed; [| apply exec_nil]. cbn [fst snd].
    apply exec_cons with (m', k v); [now apply attack_own |]. apply IH; [exact Hb |]. cbn [fst].
    apply (run_keeps (Access x Done) m v m'); [| exact Hok]. cbn [run]. unfold cbind. now rewrite Ed.
Qed.

End Attack.

Lemma confined_bind {A B} m0 wr (P : option A -> Prop) (Q : option B -> Prop) (p : prog A) (f : A -> prog B) :
  (P None -> Q None) -> confined m0 wr P p -> (forall a, P (Some a) -> confined m0 wr Q (f a)) ->
  confined m0 wr Q (pbind p f).
Proof.
  intros Hn Hp Hf. induction p as [a | | x k IH]; cbn [pbind confined] in *; auto.
  destruct x as [n a | n a v].
  - destruct Hp as [H1 H2]. split; [exact H1 |]. intros v Hv. apply IH, H2, Hv.
  - destruct Hp as (H1 & H2 & H3). split_and!; auto.
Qed.

Lemma confined_regions {A} m0 (wr wr' : Z -> Prop) (Q : option A -> Prop) (p : prog A) :
  (forall x, wr x -> wr' x) -> confined m0 wr Q p -> confined m0 wr' Q p.
Proof.
  intros Hw. induction p as [a | | x k IH]; cbn [confined]; auto. destruct x as [n a | n a v].
  - intros [H1 H2]. auto.
  - intros (H1 & H2 & H3). auto.
Qed.

(** ** Queue operations *)

Section QueueOps.
Context (m0 : memory) (q : ipc_queue) (Hs : link_shape m0 (tx_link q)) (Hz : elem_size q = SIZEOF_BD).

(** Results of an operation, with the bytes of a descriptor. *)
Definition op_result (op : qop) (r : result) : Prop :=
  match op with
  | OpPush _ => r.1 = 0 \/ r.1 = - EINVAL \/ r.1 = - ENOMEM
  | OpPop => True
  end.

Abbreviation ring := (range (push_ring q) (ring_bytes (tx_link q))).
Abbreviation conf Q := (confined m0 ring Q).

Lemma ring_shape :
  mapped m0 (push_ring q) (ring_bytes (tx_link q)) = true /\ mapped m0 (pop_ring q) (ring_bytes (tx_link q)) = true /\
  0 < elem_num q < 65536 /\ RING_SIZE + elem_num q * elem_size q = ring_bytes (tx_link q).
Proof. destruct Hs as [H1 H2 H3 H4 _]. auto. Qed.

Lemma load_ok {A} Q n a (f : Z -> prog A) :
  mapped m0 a (Z.of_nat n) = true -> (forall v, 0 <= v < 256 ^ Z.of_nat n -> conf Q (f v)) ->
  conf Q (pbind (load n a) f).
Proof. intros Ha Hf. split; [exact Ha | exact Hf]. Qed.

Lemma header_ok off k : 0 <= off -> off + k <= RING_SIZE ->
  mapped m0 (push_ring q + off) k = true /\ mapped m0 (pop_ring q + off) k = true.
Proof. apply (link_header_mapped m0 (tx_link q)), Hs. Qed.

Lemma pmod_ok {A} Q a (f : Z -> prog A) : conf Q (f (a mod elem_num q)) -> conf Q (pbind (pmod a (elem_num q)) f).
Proof.
  intros H. unfold pmod. destruct ring_shape as (_ & _ & Hn & _). destruct (Z.eqb_spec (elem_num q) 0); [lia | exact H].
Qed.

Lemma store_index {A} Q off v (f : unit -> prog A) :
  0 <= off -> off + 4 <= RING_SIZE -> conf Q (f tt) -> conf Q (pbind (store 4 (push_ring q + off) v) f).
Proof.
  intros H1 H2 H. destruct ring_shape as (_ & _ & Hn & Hr). split; [now apply header_ok |]. split; [| exact H].
  intros x Hx. unfold range in *. unfold SIZEOF_BD in Hz. rewrite <- Hr, Hz. lia.
Qed.

Lemma store_slot {A} Q (f : unit -> prog A) bs : forall a,
  push_ring q <= a -> a + Z.of_nat (length bs) <= push_ring q + ring_bytes (tx_link q) -> conf Q (f tt) ->
  conf Q (pbind (store_seq a bs) f).
Proof.
  induction bs as [|b bs IH]; intros a H1 H2 H; cbn [store_seq pbind]; [exact H |]. cbn [length] in H2.
  destruct ring_shape as (Hm & _). split.
  - eapply mapped_sub; [exact Hm | lia | lia].
  - split; [unfold range; lia |]. apply IH; auto; lia.
Qed.

Lemma load_slot {A} Q (f : list Z -> prog A) n : forall acc a,
  pop_ring q <= a -> a + Z.of_nat n <= pop_ring q + ring_bytes (tx_link q) -> (forall e, conf Q (f e)) ->
  conf Q (pbind (load_onto acc n a) f).
Proof.
  induction n as [|n IH]; intros acc a H1 H2 H; cbn [load_onto pbind]; [apply H |].
  destruct ring_shape as (_ & Hm & _). split.
  - eapply mapped_sub; [exact Hm | lia | lia].
  - intros v _. apply IH; auto; lia.
Qed.

(** The slot of an index that passed the bounds check. *)
Lemma slot_in_bounds i : 0 <= i < elem_num q ->
  0 <= RING_DATA + u32 (i * elem_size q) /\
  RING_DATA + u32 (i * elem_size q) + elem_size q <= ring_bytes (tx_link q).
Proof.
  intros Hi. destruct ring_shape as (_ & _ & Hn & Hr). rewrite <- Hr, Hz in *. unfold SIZEOF_BD, RING_DATA, RING_SIZE.
  rewrite u32_small by lia. lia.
Qed.

Lemma op_confined op :
  match op with OpPush e => length e = 8%nat | OpPop => True end ->
  conf (fun r => match r with Some r => op_result op r | None => False end) (op_steps q op).
Proof.
  intros He. destruct op as [e |]; unfold op_steps, ipc_queue_push_steps, ipc_queue_pop_steps; cbn [negb].
  - apply (confined_bind _ _ (fun r => match r with Some r => r = 0 \/ r = - EINVAL \/ r = - ENOMEM | None => False end));
      [easy | | easy].
    destruct (_ || _); [cbn; auto |].
    apply load_ok; [apply header_ok; unfold RING_WRITE, RING_SIZE; lia |]. intros w Hw.
    apply load_ok; [apply header_ok; unfold RING_READ, RING_SIZE; lia |]. intros r Hr. unfold push_test.
    destruct (_ || _) eqn:Eb; [cbn; auto |]. bool_to_prop. apply pmod_ok. destruct (_ =? r); [cbn; auto |].
    unfold push_store. rewrite He, Hz. change (Z.of_nat 8 <? SIZEOF_BD) with false.
    destruct (slot_in_bounds w ltac:(lia)) as [B1 B2]. rewrite Hz in *.
    apply store_slot; [lia | rewrite length_take; unfold SIZEOF_BD in *; lia |].
    apply pmod_ok. apply store_index; [unfold RING_WRITE; lia | unfold RING_WRITE, RING_SIZE; lia |]. cbn. auto.
  - destruct (_ || _); [exact I |].
    apply load_ok; [apply header_ok; unfold RING_WRITE, RING_SIZE; lia |]. intros w Hw.
    apply load_ok; [apply header_ok; unfold RING_READ, RING_SIZE; lia |]. intros r Hr.
    apply (confined_bind _ _ (fun r => match r with Some _ => True | None => False end)); [easy | |].
    + unfold ipc_queue_check_integrity_steps.
      apply load_ok; [apply header_ok; unfold RING_SENTINEL, RING_SIZE; lia |]. intros s1 _.
      destruct (negb _); [exact I |].
      apply load_ok; [apply header_ok; unfold RING_SENTINEL, RING_SIZE; lia |]. intros s2 _. now destruct (_ =? _).
    + intros ok _. unfold pop_test. destruct (_ || _ || _) eqn:Eb; [exact I |]. bool_to_prop.
      destruct (_ =? _); [exact I |]. destruct (slot_in_bounds r ltac:(lia)) as [B1 B2]. rewrite Hz in *.
      apply load_slot; [lia | unfold SIZEOF_BD in *; lia |]. intros e. apply pmod_ok.
      apply store_index; [unfold RING_READ; lia | unfold RING_READ, RING_SIZE; lia | exact I].
Qed.

End QueueOps.

(** ** Calls *)

(** What an end can know of its own: private data, addresses and the mapping,
    but not the contents of the memory.  Both halves lie well below the top of
    the address space. *)
Record private_ok (m : memory) (v : view) : Prop := {
  po_queues : forall k, in_channel (v_chan v) k ->
    link_shape m (tx_link (own_queue (v_chan v) k)) /\ elem_size (own_queue (v_chan v) k) = SIZEOF_BD;
  po_num : 0 <= num_pools (v_chan v) <= IPC_SHM_MAX_POOLS;
  po_len : length (pools (v_chan v)) = Z.to_nat IPC_SHM_MAX_POOLS;
  po_active : Forall (fun p => 0 < buf_size p) (active_pools (v_chan v));
  po_pools : Forall (fun p => 0 <= buf_size p < 2 ^ 32 /\
      0 <= local_pool_addr p <= v_local v + v_size v /\ 0 <= remote_pool_addr p <= v_remote v + v_size v)
    (pools (v_chan v));
  po_words : mapped m (v_state v) 8 = true /\ mapped m (v_remote v) 8 = true;
  po_top : 0 <= v_local v /\ 0 <= v_remote v /\ 0 <= v_size v /\
    v_local v + v_size v + 2 ^ 33 <= 2 ^ 64 /\ v_remote v + v_size v + 2 ^ 33 <= 2 ^ 64
}.

(** A channel the driver has set up. *)
Lemma wf_private m v :
  mchan_wf m (v_chan v) -> mapped m (v_state v) 8 = true -> mapped m (v_remote v) 8 = true ->
  0 <= v_local v -> 0 <= v_remote v -> 0 <= v_size v ->
  v_local v + v_size v + 2 ^ 33 <= 2 ^ 64 -> v_remote v + v_size v + 2 ^ 33 <= 2 ^ 64 ->
  Forall (fun p => 0 <= buf_size p < 2 ^ 32 /\ 0 <= local_pool_addr p <= v_local v + v_size v /\
                   0 <= remote_pool_addr p <= v_remote v + v_size v) (pools (v_chan v)) ->
  private_ok m v.
Proof.
  intros Hc H1 H2 T1 T2 T3 T4 T5 Hp. constructor; auto.
  - intros [i |] Hi; cbn [own_queue]; [| split; [apply (lw_shape _ _ (qw_tx _ _ (mw_queue _ _ Hc))) | apply Hc]].
    apply lookup_lt_is_Some_2 in Hi as [p Ep]. rewrite Ep. cbn [from_option].
    assert (Hp' := Forall_lookup_1 _ _ _ _ (mw_pools _ _ Hc) Ep).
    split; [apply (lw_shape _ _ (qw_tx _ _ (pw_queue _ _ Hp'))) | apply Hp'].
  - assert (H := mw_num _ _ Hc). lia.
  - apply (mw_len _ _ Hc).
  - eapply Forall_impl; [apply (mw_pools _ _ Hc) |]. intros p []. auto.
Qed.

(** The rings an end writes. *)
Definition own_rings (c : ipc_managed_channel) (x : Z) : Prop :=
  exists k, in_channel c k /\ range (push_ring (own_queue c k)) (ring_bytes (tx_link (own_queue c k))) x.

(** Answers that keep the application inside the half it may use. *)
Definition answer_ok (v : view) (op : call) (r : answer) : Prop :=
  match op, r with
  | CallAcquire n, AAddr a => a = NULL \/ v_local v <= a /\ a + n <= v_local v + v_size v
  | CallTx _ _, ACode e | CallRelease _, ACode e => e = 0 \/ e = - EINVAL \/ e = - ENOMEM
  | CallRx, AMsg x =>
      match x with
      | Some (Some (a, _)) => v_remote v <= a /\
          exists pool, pool ∈ pools (v_chan v) /\ remote_pool_addr pool <= a /\ a + buf_size pool <= v_remote v + v_size v
      | _ => True
      end
  | _, _ => False
  end.

Section Confined.
Context (m0 : memory) (v : view) (PO : private_ok m0 v).
Abbreviation c := (v_chan v).

(** [confined] for programs over queues. *)
Fixpoint safe {R} (Q : option R -> Prop) (p : call_prog R) : Prop :=
  match p with
  | CDone r => Q (Some r)
  | CWrong => Q None
  | CLoad n a f => mapped m0 a (Z.of_nat n) = true /\ forall x, safe Q (f x)
  | COp k op f =>
      in_channel c k /\ match op with OpPush e => length e = 8%nat | OpPop => True end /\
      forall r, op_result op r -> safe Q (f r)
  end.

Lemma safe_bind {A B} (P : option A -> Prop) (Q : option B -> Prop) (p : call_prog A) (f : A -> call_prog B) :
  (P None -> Q None) -> safe P p -> (forall a, P (Some a) -> safe Q (f a)) -> safe Q (client_bind p f).
Proof.
  intros Hn Hp Hf. induction p as [a | | n a k IH | k op g IH]; cbn [client_bind safe] in *; auto.
  - destruct Hp as [H1 H2]. auto.
  - destruct Hp as (H1 & H2 & H3). auto.
Qed.

Lemma safe_expand {R} (Q : option R -> Prop) (p : call_prog R) :
  safe Q p -> confined m0 (own_rings c) Q (expand (own_queue c) Near p).
Proof.
  induction p as [r | | n a f IH | k op f IH]; cbn [safe expand confined]; auto.
  - intros [H1 H2]. split; [exact H1 |]. intros x _. auto.
  - intros (Hk & Hop & H). destruct (po_queues _ _ PO k Hk) as [Hs Hz]. cbn [end_queue].
    apply (confined_bind _ _ (fun r => match r with Some r => op_result op r | None => False end));
      [easy | | intros r Hr; apply IH, H, Hr].
    eapply confined_regions; [| exact (op_confined m0 _ Hs Hz op Hop)]. intros x Hx. exists k. auto.
Qed.

(** Checks. *)
Abbreviation some := (fun r => match r with Some _ => True | None => False end).

Lemma safe_used : safe some (instance_used_steps v).
Proof. split; [apply (po_words _ _ PO) | intros s; exact I]. Qed.

Lemma safe_ready : safe some (remote_ready_steps v).
Proof.
  eapply safe_bind; [| apply safe_used |]; [easy |]. intros [|] _; cbn [negb]; [| exact I].
  split; [apply (po_words _ _ PO) |]. intros s. now destruct (negb _).
Qed.

Lemma safe_integrity k : in_channel c k -> safe some (queue_integrity_steps (own_queue c k)).
Proof.
  intros Hk. destruct (po_queues _ _ PO k Hk) as [Hs _].
  destruct (link_header_mapped m0 _ RING_SENTINEL 8 Hs) as [H1 H2];
    [unfold RING_SENTINEL; lia | unfold RING_SENTINEL, RING_SIZE; lia |].
  split; [exact H2 |]. intros s1. destruct (negb _); [exact I |]. split; [exact H1 |]. intros s2. now destruct (_ =? _).
Qed.

Lemma active_in i p : active_pools c !! i = Some p -> in_channel c (Some i) /\ own_queue c (Some i) = pool_bd_queue p.
Proof. intros Hp. split; [eapply lookup_lt_Some; eauto | cbn [own_queue]; now rewrite Hp]. Qed.

Lemma safe_pools : forall ps (i : nat), drop i (active_pools c) = ps -> safe some (pools_integrity_steps ps).
Proof.
  induction ps as [|p ps IH]; intros i Hd; cbn [pools_integrity_steps]; [exact I |].
  apply drop_cons_lookup in Hd as [Hp Hd]. destruct (active_in i p Hp) as [Hi Eq]. rewrite <- Eq.
  eapply safe_bind; [| now apply safe_integrity |]; [easy |]. intros e _. destruct (negb _); [exact I | now apply (IH (S i))].
Qed.

Lemma safe_mchan : safe some (mchan_integrity_steps c).
Proof.
  eapply safe_bind; [| now apply (safe_integrity None) |]; [easy |]. intros e _.
  destruct (_ =? _); [now apply (safe_pools _ 0%nat) | exact I].
Qed.

(** The pool a buffer is taken from is large enough. *)
Lemma safe_acquire_pools n : forall ps (i : nat), drop i (active_pools c) = ps ->
  safe (fun r => match r with Some (Some (p, _)) => p ∈ active_pools c /\ n <= buf_size p | Some None => True | None => False end)
    (acquire_pool_steps i ps n).
Proof.
  induction ps as [|p ps IH]; intros i Hd; cbn [acquire_pool_steps]; [exact I |].
  apply drop_cons_lookup in Hd as [Hp Hd]. destruct (Z.ltb_spec (buf_size p) n) as [Hlt | Hge]; [now apply (IH (S i)) |].
  destruct (active_in i p Hp) as [Hi _]. split_and!; [exact Hi | exact I |]. intros r _.
  destruct (_ =? 0); [| now apply (IH (S i))]. split; [eapply list_elem_of_lookup_2; eauto | lia].
Qed.

Lemma active_pool_in p : p ∈ active_pools c -> p ∈ pools c.
Proof. unfold active_pools. intros H. eapply elem_of_take in H as (i & H & _). eapply list_elem_of_lookup_2; eauto. Qed.

(** An address that passes the check against the bounds of a half of [s] bytes at [b]. *)
Lemma checked_address b s base k n sz :
  0 <= b -> 0 <= s -> b + s + 2 ^ 33 <= 2 ^ 64 -> 0 <= base <= b + s -> 0 <= sz < 2 ^ 32 -> n <= sz ->
  let a := u64 (base + u32 k) in
  b <= a -> u64 (a + sz) <= u64 (b + s) -> b <= a /\ base <= a /\ a + n <= b + s.
Proof.
  intros Hb Hs Ht Hbase Hsz Hn a. unfold a. assert (Hk := u32_range k).
  rewrite (u64_small (base + u32 k)) by lia. rewrite (u64_small (base + u32 k + sz)) by lia.
  rewrite (u64_small (b + s)) by lia. lia.
Qed.

Lemma bd_of_buf_safe buf remote :
  match bd_of_buf c buf remote with
  | Some (inl e) => e = - EINVAL
  | Some (inr (k, _)) => in_channel c (Some (Z.to_nat k))
  | None => False
  end.
Proof.
  assert (Hn := po_num _ _ PO). assert (Hl := po_len _ _ PO). unfold IPC_SHM_MAX_POOLS in *.
  unfold bd_of_buf.
  assert (Hf : forall n ps id, (n <= length ps)%nat -> exists r, pool_of_buf n ps id buf remote = Some r).
  { induction n as [|n IH]; intros ps id Hlen; cbn [pool_of_buf]; [eauto |].
    destruct ps as [|p ps]; cbn [length] in Hlen; [lia |]. cbn [head tail mbind option_bind].
    destruct (_ && _); [eauto |]. apply IH. lia. }
  destruct (Hf (Z.to_nat (num_pools c)) (pools c) 0 ltac:(lia)) as [id Eid]. rewrite Eid. cbn [mbind option_bind].
  destruct (Z.eqb_spec id (- EINVAL)) as [-> | Hne]; [reflexivity |].
  apply pool_of_buf_range in Eid; [| lia | lia]. destruct Eid as [? | Eid]; [easy |].
  assert (Hi : (Z.to_nat id < length (active_pools c))%nat) by (unfold active_pools; rewrite length_take; lia).
  destruct (lookup_lt_is_Some_2 _ _ Hi) as [p Hp]. assert (Hz := Forall_lookup_1 _ _ _ _ (po_active _ _ PO) Hp).
  apply active_lookup in Hp; [| lia]. rewrite Hp. cbn [mbind option_bind]. cbv beta in Hz.
  destruct (Z.eqb_spec (buf_size p) 0); [lia | exact Hi].
Qed.

(** A call keeps to its rings, and only a received pool number can make it go wrong. *)
Lemma call_safe op :
  safe (fun r => match r with Some r => answer_ok v op r | None => op = CallRx end) (call_steps v op).
Proof.
  assert (Hend : forall A (P : A -> Prop) (g : A -> answer) (p : call_prog A) op,
    (forall a, P a -> answer_ok v op (g a)) ->
    safe (fun r => match r with Some a => P a | None => op = CallRx end) p ->
    safe (fun r => match r with Some r => answer_ok v op r | None => op = CallRx end) (client_bind p (fun x => CDone (g x)))).
  { intros A P g p op' Hg Hp. eapply safe_bind; [| exact Hp |]; [easy |]. intros a Ha. cbn. auto. }
  destruct (po_top _ _ PO) as (T1 & T2 & T3 & T4 & T5).
  assert (Hpool : forall p, p ∈ pools c -> 0 <= buf_size p < 2 ^ 32 /\
      0 <= local_pool_addr p <= v_local v + v_size v /\ 0 <= remote_pool_addr p <= v_remote v + v_size v).
  { intros p Hp. assert (H := po_pools _ _ PO). rewrite Forall_forall in H. now apply H. }
  destruct op as [n | buf size | | buf]; cbn [call_steps].
  - apply (Hend _ (fun a => a = NULL \/ v_local v <= a /\ a + n <= v_local v + v_size v)); [auto |].
    unfold ipc_shm_acquire_buf_steps.
    eapply safe_bind; [| apply safe_ready |]; [easy |]. intros r _. destruct (negb _); [now left |].
    destruct (_ =? 0); [now left |]. eapply safe_bind; [| apply safe_mchan |]; [easy |]. intros ok _.
    destruct (negb _); [now left |].
    eapply safe_bind; [| now apply (safe_acquire_pools n _ 0%nat) |]; [easy |]. intros [[p bd] |]; [| now left].
    intros [Hp Hn]. cbv zeta. destruct (_ || _) eqn:Eb; [now left |]. right. bool_to_prop.
    destruct (Hpool p (active_pool_in p Hp)) as (P1 & P2 & _).
    destruct (checked_address (v_local v) (v_size v) (local_pool_addr p) (bd_buf_id bd * buf_size p) n (buf_size p)) as (B1 & _ & B2); auto; lia.
  - apply (Hend _ (fun e => e = 0 \/ e = - EINVAL \/ e = - ENOMEM)); [auto |]. unfold ipc_shm_tx_steps.
    eapply safe_bind; [| apply safe_ready |]; [easy |]. intros r _. destruct (negb _); [cbn; auto |].
    destruct (_ || _); [cbn; auto |]. eapply safe_bind; [| apply safe_mchan |]; [easy |]. intros ok _.
    destruct (negb _); [cbn; auto |]. assert (Hb := bd_of_buf_safe buf IPC_BUFFER_FROM_LOCAL).
    destruct (bd_of_buf _ _ _) as [[e | [k j]] |]; [cbn; auto | | easy].
    split_and!; [exact I | reflexivity |]. intros x Hx. cbn [op_result] in Hx.
    destruct Hx as [-> | [-> | ->]]; [now left | right; now left | right; now right].
  - apply (Hend _ (fun x => answer_ok v CallRx (AMsg x))); [auto |]. unfold managed_rx_one_steps.
    split_and!; [exact I | exact I |]. intros r _. destruct (negb _); [exact I |]. cbv zeta.
    destruct (nthZ (pools c) _) as [p |] eqn:Ep; [| reflexivity]. apply nthZ_Some in Ep as [_ Ep].
    assert (Hp : p ∈ pools c) by (eapply list_elem_of_lookup_2; eauto).
    destruct (_ && _) eqn:Eb; [| exact I]. bool_to_prop. destruct (Hpool p Hp) as (P1 & _ & P3). cbn [safe answer_ok].
    destruct (checked_address (v_remote v) (v_size v) (remote_pool_addr p) (bd_buf_id (bd_decode (default [] r.2)) * buf_size p)
      (buf_size p) (buf_size p)) as (B1 & B2 & B3); auto; [lia |]. split; [exact B1 |]. eauto.
  - apply (Hend _ (fun e => e = 0 \/ e = - EINVAL \/ e = - ENOMEM)); [auto |]. unfold ipc_shm_release_buf_steps.
    eapply safe_bind; [| apply safe_used |]; [easy |]. intros u _. destruct (negb u); [cbn; auto |].
    destruct (_ =? NULL); [cbn; auto |]. eapply safe_bind; [| apply safe_mchan |]; [easy |]. intros ok _.
    destruct (negb _); [cbn; auto |]. assert (Hb := bd_of_buf_safe buf IPC_BUFFER_FROM_REMOTE).
    destruct (bd_of_buf _ _ _) as [[e | [k j]] |]; [cbn; auto | | easy].
    split_and!; [exact Hb | reflexivity |]. intros x Hx. cbn [op_result safe] in *. exact Hx.
Qed.

Lemma call_within_private op : within (call_accesses op) (expand (own_queue c) Near (call_steps v op)).
Proof.
  apply expand_within.
  - apply (own_queue_all (fun q => elem_size q = SIZEOF_BD)). intros k Hk. apply (po_queues _ _ PO k Hk).
  - apply call_within. assert (H := po_num _ _ PO). unfold active_pools, IPC_SHM_MAX_POOLS in *. rewrite length_take. lia.
Qed.

End Confined.

(** C15: calls against arbitrary memory.  Whatever the other core stores, anywhere
    and between any two accesses of a call on a managed channel, the call makes at most
    [call_accesses] accesses, each of them to mapped memory, and each store lies in a
    ring of the end's own; only the reception of a message can run into undefined
    behaviour, where it takes a pool number from shared memory.  A buffer it
    acquires lies, for the size asked for, in the local half, and a received buffer, for
    the size of a buffer of one of the pools, in the remote half. *)
Theorem calls_withstand_corruption v op m ls m' p :
  private_ok m v -> mem_ok m ->
  exec attack (m, expand (own_queue (v_chan v)) Near (call_steps v op)) ls (m', p) ->
  (own_steps ls <= call_accesses op)%nat /\
  match p with
  | Done r => answer_ok v op r
  | Wrong => op = CallRx
  | Access x k => exists w m2, do_access x m' = Ret w m2 /\ same_except (own_rings (v_chan v)) m' m2
  end.
Proof.
  intros PO Hok He.
  assert (Hs := safe_expand m v PO _ _ (call_safe m v PO op)).
  destruct (confined_exec m _ _ _ _ _ He _ eq_refl Hok Hs (call_within_private m v PO op)) as (Hr & Hok' & Hc & Hn).
  split; [exact Hn |]. cbn [fst snd] in *. destruct p as [r | | x k]; [exact Hc | exact Hc |].
  destruct (confined_access m m' _ _ x k Hr Hok' Hc) as (w & m2 & E & Hx & _). eauto.
Qed.
