(* ===== verification/RxLoop.v ===== *)
(** * The receive loops: termination, work bound, errors of the interface

    [ipc_shm_rx] visits the channels in rounds until its budget is used or a
    round finds nothing; the fuel of the model is always enough.  What the
    functions of the interface do for an instance that is not initialised or
    whose remote is not ready. *)

From S2P Require Import Prelude Memory Types Queue QueueSpec World Shm ShmSpec Traffic Unmanaged.

Section RxLoop.
Context {P : Type} `{PL : Platform P} `{AP : App P}.
Implicit Types (w : world P) (i ch : Z).

(** ** Fuel is enough *)

Lemma managed_rx_loop_fuel i ch budget : forall f1 f2 work w,
  budget - work <= Z.of_nat f1 -> budget - work <= Z.of_nat f2 ->
  managed_rx_loop f1 i ch budget work w = managed_rx_loop f2 i ch budget work w.
Proof.
  induction f1 as [|f1 IH]; intros f2 work w H1 H2.
  - destruct f2; cbn [managed_rx_loop]; destruct (Z.ltb_spec work budget); auto; lia.
  - destruct f2 as [|f2]; cbn [managed_rx_loop]; destruct (Z.ltb_spec work budget); auto; [lia |].
    unfold cbind. destruct (managed_rx_one i ch w) as [[] w1 |]; auto.
    apply IH; lia.
Qed.

(** ** Work done *)

Lemma managed_rx_loop_range i ch budget : forall fuel work w r w',
  managed_rx_loop fuel i ch budget work w = Ret r w' -> work <= r <= Z.max work budget.
Proof.
  induction fuel as [|fuel IH]; intros work w r w' E; cbn [managed_rx_loop] in E;
    destruct (Z.ltb_spec work budget); try discriminate E;
    try (inversion E; subst; lia).
  apply cbind_inv in E as (more & w1 & _ & E). destruct more.
  - apply IH in E. lia.
  - inversion E; subst. lia.
Qed.

Lemma ipc_channel_rx_range i ch budget w r w' :
  1 <= budget -> ipc_channel_rx i ch budget w = Ret r w' -> 0 <= r <= budget.
Proof.
  intros Hb E. unfold ipc_channel_rx in E. apply cbind_inv in E as (k & w1 & _ & E).
  assert (Hm : forall w, managed_rx_loop (Z.to_nat budget) i ch budget 0 w = Ret r w' ->
                 0 <= r <= budget)
    by (intros ? H; apply managed_rx_loop_range in H; lia).
  destruct (ch_type k); [eauto | | eauto].
  apply cbind_inv in E as (ok & w2 & _ & E). destruct (0 =? ok); [| inversion E; lia].
  apply cbind_inv in E as (c1 & w3 & _ & E). apply cbind_inv in E as (c2 & w4 & _ & E).
  destruct (c1 =? c2); cbn [negb] in E; [inversion E; lia |].
  apply cbind_inv in E as (? & w5 & _ & E). apply cbind_inv in E as (? & w6 & _ & E).
  inversion E; lia.
Qed.

Lemma rx_channels_range i b : forall n ch work more w r w',
  1 <= b -> 0 <= work -> work + Z.of_nat n * b < 2 ^ 32 ->
  rx_channels n i ch b work more w = Ret r w' ->
  work <= r.1 <= work + Z.of_nat n * b /\ (r.2 = true -> more = true \/ work < r.1).
Proof.
  induction n as [|n IH]; intros ch work more w r w' Hb Hw Ho E; cbn [rx_channels] in E.
  - inversion E; subst. cbn [fst snd]. split; [lia | auto].
  - apply cbind_inv in E as (c & w1 & E1 & E).
    apply ipc_channel_rx_range in E1; [| exact Hb].
    rewrite u32_small in E by nia. apply IH in E; [| lia | lia | nia].
    destruct E as [R1 R2]. split; [nia |]. intros Hr. destruct (R2 Hr) as [Hm | Hlt].
    + apply orb_true_iff in Hm as [-> | Hm]; [auto |]. apply Z.eqb_eq in Hm. right; lia.
    + right; lia.
Qed.

(** The share of a channel, at least one message. *)
Definition chan_share (budget work n : Z) : Z :=
  let share := u32 (budget - work) / n in if share =? 0 then 1 else share.

Lemma chan_share_bounds budget work n :
  0 <= work < budget -> budget < 2 ^ 31 -> 0 < n < 256 ->
  1 <= chan_share budget work n /\ n * chan_share budget work n <= Z.max n (budget - work).
Proof.
  intros Hw Hb Hn. unfold chan_share. rewrite u32_small by lia.
  assert (0 <= (budget - work) / n) by (apply Z.div_pos; lia).
  assert (n * ((budget - work) / n) <= budget - work) by (apply Z.mul_div_le; lia).
  destruct (Z.eqb_spec ((budget - work) / n) 0); lia.
Qed.

Lemma rx_rounds_unfold fuel i n budget work w :
  (work <? u32 budget) = true -> n <> 0 ->
  rx_rounds (S fuel) i n budget work true w =
    (let* r := rx_channels (Z.to_nat n) i 0 (chan_share budget work n) work false in
     rx_rounds fuel i n budget r.1 r.2) w.
Proof.
  intros H Hn. cbn [rx_rounds]. rewrite H. apply Z.eqb_neq in Hn as ->. reflexivity.
Qed.

Lemma rx_rounds_stop fuel i n budget work more w :
  (work <? u32 budget) && more = false -> rx_rounds fuel i n budget work more w = Ret work w.
Proof. intros H. destruct fuel; cbn [rx_rounds]; rewrite H; reflexivity. Qed.

Section Budget.
Context (i n budget : Z) (Hb : 0 <= budget < 2 ^ 31) (Hn : 0 < n < 256).

Lemma budget_u32 : u32 budget = budget.
Proof. apply u32_small; lia. Qed.

Lemma round_range work w r w' :
  0 <= work < budget ->
  rx_channels (Z.to_nat n) i 0 (chan_share budget work n) work false w = Ret r w' ->
  work <= r.1 <= Z.max (work + n) budget /\ (r.2 = true -> work < r.1).
Proof.
  intros Hw E. destruct (chan_share_bounds budget work n) as [S1 S2]; auto; try lia.
  apply rx_channels_range in E; rewrite ?Z2Nat.id in * by lia; [| lia | lia | lia].
  destruct E as [R1 R2]. split; [lia |]. intros Hr. destruct (R2 Hr); [discriminate | assumption].
Qed.

Lemma rx_rounds_fuel : forall f1 f2 work more w,
  0 <= work -> budget - work <= Z.of_nat f1 -> budget - work <= Z.of_nat f2 ->
  rx_rounds f1 i n budget work more w = rx_rounds f2 i n budget work more w.
Proof.
  induction f1 as [|f1 IH]; intros f2 work more w Hw H1 H2;
    destruct ((work <? u32 budget) && more) eqn:E;
    try (rewrite !rx_rounds_stop by exact E; reflexivity);
    apply andb_true_iff in E as [E Hm]; rewrite budget_u32 in E; apply Z.ltb_lt in E; [lia |].
  subst more. destruct f2 as [|f2]; [lia |].
  rewrite !rx_rounds_unfold by (try rewrite budget_u32; try apply Z.ltb_lt; lia).
  unfold cbind. destruct (rx_channels _ _ _ _ _ _ w) as [[work' more'] w' |] eqn:Er; auto.
  apply round_range in Er as [R1 R2]; [| lia]. cbn [fst snd] in *.
  destruct more'; [apply IH; try lia; specialize (R2 eq_refl); lia |].
  rewrite !rx_rounds_stop by apply andb_false_r. reflexivity.
Qed.

Lemma rx_rounds_range : forall fuel work more w r w',
  0 <= work -> rx_rounds fuel i n budget work more w = Ret r w' ->
  work <= r <= Z.max work (budget + n - 1).
Proof.
  induction fuel as [|fuel IH]; intros work more w r w' Hw E;
    (destruct ((work <? u32 budget) && more) eqn:C;
     [| rewrite rx_rounds_stop in E by exact C; inversion E; lia]).
  - cbn [rx_rounds] in E. rewrite C in E. discriminate E.
  - apply andb_true_iff in C as [C ->].
    rewrite rx_rounds_unfold in E by (auto; lia).
    rewrite budget_u32 in C. apply Z.ltb_lt in C.
    apply cbind_inv in E as ([work' more'] & w1 & Er & E).
    apply round_range in Er as [R1 _]; [| lia]. cbn [fst snd] in *. apply IH in E; lia.
Qed.

(** Rounds return when the receive function of every channel does. *)
Context (J : world P -> Prop).
Context (HJ : forall ch b w, 0 <= ch < n -> 1 <= b -> J w ->
           exists r w', ipc_channel_rx i ch b w = Ret r w' /\ J w').

Lemma rx_channels_returns b : forall k ch work more w,
  1 <= b -> 0 <= ch -> ch + Z.of_nat k <= n -> J w ->
  exists r w', rx_channels k i ch b work more w = Ret r w' /\ J w'.
Proof.
  induction k as [|k IH]; intros ch work more w H1 H2 H3 H4; cbn [rx_channels].
  - eexists _, w; split; [reflexivity | exact H4].
  - destruct (HJ ch b w) as (r & w1 & E & H5); [lia | lia | exact H4 |].
    rewrite (cbind_Ret _ _ _ _ _ E). apply IH; auto; lia.
Qed.

Lemma rx_rounds_returns : forall fuel work more w,
  0 <= work -> budget - work <= Z.of_nat fuel -> J w ->
  exists r w', rx_rounds fuel i n budget work more w = Ret r w' /\ J w'.
Proof.
  induction fuel as [|fuel IH]; intros work more w Hw Hf H;
    (destruct ((work <? u32 budget) && more) eqn:C;
     [| exists work, w; rewrite rx_rounds_stop by exact C; auto]);
    apply andb_true_iff in C as [C ->]; rewrite budget_u32 in C; apply Z.ltb_lt in C; [lia |].
  rewrite rx_rounds_unfold by (try rewrite budget_u32; try apply Z.ltb_lt; lia).
  destruct (chan_share_bounds budget work n) as [S1 _]; auto; try lia.
  destruct (rx_channels_returns (chan_share budget work n) (Z.to_nat n) 0 work false w)
    as ([work' more'] & w1 & E & H1); auto; try lia.
  rewrite (cbind_Ret _ _ _ _ _ E). apply round_range in E as [R1 R2]; [| lia].
  cbn [fst snd] in *. destruct more'.
  - specialize (R2 eq_refl). apply IH; auto; lia.
  - exists work', w1. rewrite rx_rounds_stop by apply andb_false_r. auto.
Qed.

End Budget.

(** ** Instances that are not in operation *)

(** [ipc_instance_is_free] does not say USED. *)
Definition unused (w : world P) (i : Z) : Prop :=
  IPC_SHM_MAX_INSTANCES <= i \/
  exists p, nthZ (w_priv w) i = Some p /\ i < IPC_SHM_MAX_INSTANCES /\
    (p_global p = NULL \/
     mapped (w_mem w) (p_global p) 8 = true /\
     uint_at 8 (w_mem w) (p_global p) = IPC_SHM_STATE_CLEAR).

Lemma ipc_instance_is_free_unused w i :
  unused w i -> exists st, ipc_instance_is_free i w = Ret st w /\ st <> IPC_SHM_INSTANCE_USED.
Proof.
  unfold ipc_instance_is_free. intros [H | (p & Hp & Hi & H)].
  - apply Z.leb_le in H as ->. exists IPC_SHM_INSTANCE_ERROR; split; [reflexivity | discriminate].
  - replace (_ <=? i) with false by (symmetry; apply Z.leb_gt; lia).
    exists IPC_SHM_INSTANCE_FREE; split; [| discriminate].
    rewrite (cbind_Ret _ _ _ _ _ (get_priv_eval _ _ _ Hp)).
    destruct H as [-> | [Hm Hs]]; [reflexivity |].
    destruct (p_global p =? NULL); [reflexivity |].
    unfold global_state. erewrite cbind_Ret by (apply on_mem_read, read_uint_ok; exact Hm).
    now rewrite Hs.
Qed.

(** [c] starts with the check of the instance state. *)
Lemma unused_guard {A} w i (b : A) (k : M (world P) A) :
  unused w i ->
  (let* st := ipc_instance_is_free i in
   if negb (bool_decide (st = IPC_SHM_INSTANCE_USED)) then cret b else k) w = Ret b w.
Proof.
  intros H. destruct (ipc_instance_is_free_unused w i H) as (st & E & Hne).
  rewrite (cbind_Ret _ _ _ _ _ E). now rewrite bool_decide_eq_false_2.
Qed.

Lemma unused_ready w i : unused w i -> ipc_shm_is_remote_ready i w = Ret (- EINVAL) w.
Proof. apply unused_guard. Qed.

(** Remote end whose state word is not READY. *)
Record remote_down (w : world P) (i : Z) (p : ipc_shm_priv) (r : Z) : Prop := {
  rd_used : used w i p;
  rd_addr : on_plat (ipc_os_get_remote_shm i) w = Ret r w;
  rd_mapped : mapped (w_mem w) r 8 = true;
  rd_state : uint_at 8 (w_mem w) r <> IPC_SHM_STATE_READY
}.

Lemma remote_down_guard {A} w i p r (b e : A) (k : M (world P) A) :
  remote_down w i p r ->
  (let* st := ipc_instance_is_free i in
   if negb (bool_decide (st = IPC_SHM_INSTANCE_USED)) then cret e else
   let* a := on_plat (ipc_os_get_remote_shm i) in
   let* s := global_state a in
   if negb (s =? IPC_SHM_STATE_READY) then cret b else k) w = Ret b w.
Proof.
  intros [Hu Ha Hm Hs]. rewrite (cbind_Ret _ _ _ _ _ (ipc_instance_is_free_used _ _ _ Hu)).
  rewrite bool_decide_eq_true_2 by reflexivity. cbn [negb].
  rewrite (cbind_Ret _ _ _ _ _ Ha). unfold global_state.
  erewrite cbind_Ret by (apply on_mem_read, read_uint_ok; exact Hm).
  now apply Z.eqb_neq in Hs as ->.
Qed.

Lemma remote_down_ready w i p r :
  remote_down w i p r -> ipc_shm_is_remote_ready i w = Ret (- EAGAIN) w.
Proof. apply remote_down_guard. Qed.

(** The loops of the receive path end: more fuel than the budget never
    changes the result of the channel loop or of the rounds over the channels,
    whatever the memory, the callbacks and the platform do. *)
Lemma rx_loops_terminate i budget w :
  0 <= budget < 2 ^ 31 ->
  (forall ch extra, managed_rx_loop (Z.to_nat budget + extra) i ch budget 0 w
                    = managed_rx_loop (Z.to_nat budget) i ch budget 0 w) /\
  (forall n extra, 0 < n < 256 ->
     rx_rounds (S (Z.to_nat (u32 budget)) + extra) i n budget 0 true w
     = rx_rounds (S (Z.to_nat (u32 budget))) i n budget 0 true w).
Proof.
  intros Hb. split; intros.
  - apply managed_rx_loop_fuel; lia.
  - rewrite (budget_u32 budget) by exact Hb. apply rx_rounds_fuel; lia.
Qed.

(** [ipc_shm_rx] returns, for every budget, provided the receive function
    of each channel does (an invariant [J] of the callbacks), and the work it
    reports is at most the budget plus one message less than the number of
    channels: the share of a channel is never rounded down to nothing, and the
    overshoot stays below one message per channel. *)
Lemma ipc_shm_rx_bounded w i p budget (J : world P -> Prop) :
  used w i p -> 0 < p_num_channels p < 256 -> 0 <= budget < 2 ^ 31 ->
  (forall ch b w, 0 <= ch < p_num_channels p -> 1 <= b -> J w ->
     exists r w', ipc_channel_rx i ch b w = Ret r w' /\ J w') ->
  J w ->
  exists work w', ipc_shm_rx i budget w = Ret work w' /\ J w' /\
    0 <= work <= Z.max 0 (budget + p_num_channels p - 1).
Proof.
  intros Hu Hn Hb HJ H. unfold ipc_shm_rx.
  rewrite (cbind_Ret _ _ _ _ _ (get_priv_eval _ _ _ (us_priv _ _ _ Hu))). cbv zeta.
  rewrite (cbind_Ret _ _ _ _ _ (ipc_instance_is_free_used _ _ _ Hu)).
  destruct (decide _) as [_ | Hne]; [| congruence].
  destruct (rx_rounds_returns i (p_num_channels p) budget Hb Hn J HJ
              (S (Z.to_nat (u32 budget))) 0 true w) as (r & w' & E & H'); auto; [lia | |].
  { rewrite (budget_u32 budget) by exact Hb. lia. }
  exists r, w'. split; [exact E |]. split; [exact H' |].
  apply rx_rounds_range in E; auto; lia.
Qed.

(** C22: the receive path ends.  More fuel than the budget never changes the
    result of the channel loop or of the rounds over the channels, whatever the
    memory, the callbacks and the platform do.  [ipc_shm_rx] returns, for every
    budget, provided the receive function of each channel does (an invariant [J]
    of the callbacks), and the work it reports is at most the budget plus one
    message less than the number of channels: the share of a channel is never
    rounded down to nothing, and the overshoot stays below one message per
    channel. *)
Theorem ipc_shm_rx_terminates w i p budget (J : world P -> Prop) :
  used w i p -> 0 < p_num_channels p < 256 -> 0 <= budget < 2 ^ 31 ->
  ((forall ch extra, managed_rx_loop (Z.to_nat budget + extra) i ch budget 0 w
                     = managed_rx_loop (Z.to_nat budget) i ch budget 0 w) /\
   (forall n extra, 0 < n < 256 ->
      rx_rounds (S (Z.to_nat (u32 budget)) + extra) i n budget 0 true w
      = rx_rounds (S (Z.to_nat (u32 budget))) i n budget 0 true w)) /\
  ((forall ch b w, 0 <= ch < p_num_channels p -> 1 <= b -> J w ->
      exists r w', ipc_channel_rx i ch b w = Ret r w' /\ J w') ->
   J w ->
   exists work w', ipc_shm_rx i budget w = Ret work w' /\ J w' /\
     0 <= work <= Z.max 0 (budget + p_num_channels p - 1)).
Proof.
  intros Hu Hn Hb. split; [now apply rx_loops_terminate |].
  intros HJ H. now apply (ipc_shm_rx_bounded w i p budget J).
Qed.

(** On an instance that is out of range, was never initialised or has been
    freed, every call of the interface is refused with its documented error (a
    null pointer, -EINVAL) and changes nothing; the receive function does no
    work and freeing the instance again does nothing. *)
Lemma unused_instance_rejected w i ch buf size :
  unused w i ->
  ipc_shm_is_remote_ready i w = Ret (- EINVAL) w /\
  ipc_shm_acquire_buf i ch size w = Ret NULL w /\
  ipc_shm_release_buf i ch buf w = Ret (- EINVAL) w /\
  ipc_shm_tx i ch buf size w = Ret (- EINVAL) w /\
  ipc_shm_unmanaged_acquire i ch w = Ret NULL w /\
  ipc_shm_unmanaged_tx i ch w = Ret (- EINVAL) w /\
  ipc_shm_poll_channels i w = Ret (- EINVAL) w /\
  ipc_shm_free_instance i w = Ret tt w /\
  (forall p, nthZ (w_priv w) i = Some p -> ipc_shm_rx i size w = Ret 0 w).
Proof.
  intros H. assert (Hr := unused_ready w i H).
  destruct (ipc_instance_is_free_unused w i H) as (st & E & Hne).
  split_and!; auto using unused_guard.
  - unfold ipc_shm_acquire_buf. now rewrite (cbind_Ret _ _ _ _ _ Hr).
  - now apply unused_guard.
  - unfold ipc_shm_tx. now rewrite (cbind_Ret _ _ _ _ _ Hr).
  - now apply unused_guard.
  - unfold ipc_shm_unmanaged_tx. now rewrite (cbind_Ret _ _ _ _ _ Hr).
  - now apply unused_guard.
  - unfold ipc_shm_free_instance. rewrite (cbind_Ret _ _ _ _ _ E). now rewrite decide_False.
  - intros p Hp. unfold ipc_shm_rx. rewrite (cbind_Ret _ _ _ _ _ (get_priv_eval _ _ _ Hp)).
    cbv zeta. rewrite (cbind_Ret _ _ _ _ _ E). now rewrite decide_False.
Qed.

(** The memory of an unmanaged channel is handed out on the local mark alone. *)
Lemma ipc_shm_unmanaged_acquire_eval w i p ch k :
  used w i p -> has_unmanaged p ch k ->
  mapped (w_mem w) (local_mem (ch_umng k)) UMEM_SIZE = true ->
  ipc_shm_unmanaged_acquire i ch w =
    Ret (if decide (umem_done (w_mem w) (local_mem (ch_umng k)))
         then local_mem (ch_umng k) + UMEM_MEM else NULL) w.
Proof.
  intros Hu Hk Hm. unfold ipc_shm_unmanaged_acquire.
  rewrite (cbind_Ret _ _ _ _ _ (ipc_instance_is_free_used _ _ _ Hu)).
  rewrite bool_decide_eq_true_2 by reflexivity. cbn [negb].
  rewrite (cbind_Ret _ _ _ _ _ (get_unmanaged_chan_eval _ _ _ _ _ (us_priv _ _ _ Hu) Hk)).
  unfold ipc_check_uchan_local_integrity. rewrite cbind_assoc.
  erewrite cbind_Ret by (apply umem_get_eval; [exact Hm | unfold UMEM_SENTINEL; lia]).
  unfold umem_done. destruct (Z.eqb_spec (uint_at 4 (w_mem w) (local_mem (ch_umng k) + UMEM_SENTINEL)) IPC_UCHAN_INIT_DONE);
    [rewrite decide_True by assumption | rewrite decide_False by assumption]; reflexivity.
Qed.

(** While the remote end has not set its state word to READY, no buffer of a
    managed channel is acquired and nothing is sent or polled: the calls return a
    null pointer, -EINVAL or -EAGAIN and leave memory, private data and platform
    untouched.  The memory of an unmanaged channel is the caller's own and is
    handed out all the same. *)
Lemma remote_not_ready_rejected w i p r ch buf size :
  remote_down w i p r ->
  ipc_shm_is_remote_ready i w = Ret (- EAGAIN) w /\
  ipc_shm_acquire_buf i ch size w = Ret NULL w /\
  ipc_shm_tx i ch buf size w = Ret (- EINVAL) w /\
  ipc_shm_unmanaged_tx i ch w = Ret (- EINVAL) w /\
  ipc_shm_poll_channels i w = Ret (- EAGAIN) w /\
  (forall k, has_unmanaged p ch k -> mapped (w_mem w) (local_mem (ch_umng k)) UMEM_SIZE = true ->
   ipc_shm_unmanaged_acquire i ch w =
     Ret (if decide (umem_done (w_mem w) (local_mem (ch_umng k)))
          then local_mem (ch_umng k) + UMEM_MEM else NULL) w).
Proof.
  intros H. assert (Hr := remote_down_ready w i p r H). split_and!; auto.
  - unfold ipc_shm_acquire_buf. now rewrite (cbind_Ret _ _ _ _ _ Hr).
  - unfold ipc_shm_tx. now rewrite (cbind_Ret _ _ _ _ _ Hr).
  - unfold ipc_shm_unmanaged_tx. now rewrite (cbind_Ret _ _ _ _ _ Hr).
  - eapply remote_down_guard; eauto.
  - intros k. apply ipc_shm_unmanaged_acquire_eval, H.
Qed.

(** C23: calls out of turn.  On an instance that is out of range, was never
    initialised or has been freed, every call of the interface is refused with
    its documented error (a null pointer, -EINVAL) and changes nothing; the
    receive function does no work and freeing the instance again does nothing.
    While the remote end of an instance in use has not set its state word to
    READY, no buffer of a managed channel is acquired, and nothing is sent on any
    channel or polled: the calls return a null pointer, -EINVAL or -EAGAIN and
    leave memory, private data and platform untouched.
    [ipc_shm_unmanaged_acquire] does not ask for the remote: also then it returns
    the local memory of an unmanaged channel whose initialisation is marked done,
    and a null pointer otherwise, and changes nothing. *)
Theorem calls_out_of_turn_rejected w i ch buf size :
  (unused w i ->
   ipc_shm_is_remote_ready i w = Ret (- EINVAL) w /\
   ipc_shm_acquire_buf i ch size w = Ret NULL w /\
   ipc_shm_release_buf i ch buf w = Ret (- EINVAL) w /\
   ipc_shm_tx i ch buf size w = Ret (- EINVAL) w /\
   ipc_shm_unmanaged_acquire i ch w = Ret NULL w /\
   ipc_shm_unmanaged_tx i ch w = Ret (- EINVAL) w /\
   ipc_shm_poll_channels i w = Ret (- EINVAL) w /\
   ipc_shm_free_instance i w = Ret tt w /\
   (forall p, nthZ (w_priv w) i = Some p -> ipc_shm_rx i size w = Ret 0 w)) /\
  (forall p r, remote_down w i p r ->
   ipc_shm_is_remote_ready i w = Ret (- EAGAIN) w /\
   ipc_shm_acquire_buf i ch size w = Ret NULL w /\
   ipc_shm_tx i ch buf size w = Ret (- EINVAL) w /\
   ipc_shm_unmanaged_tx i ch w = Ret (- EINVAL) w /\
   ipc_shm_poll_channels i w = Ret (- EAGAIN) w /\
   (forall k, has_unmanaged p ch k -> mapped (w_mem w) (local_mem (ch_umng k)) UMEM_SIZE = true ->
    ipc_shm_unmanaged_acquire i ch w =
      Ret (if decide (umem_done (w_mem w) (local_mem (ch_umng k)))
           then local_mem (ch_umng k) + UMEM_MEM else NULL) w)).
Proof.
  split; [apply unused_instance_rejected |]. intros p r. apply remote_not_ready_rejected.
Qed.

End RxLoop.
