(* ===== verification/UnmanagedConc.v ===== *)
(** * An unmanaged channel under concurrent use

    Each end has a thread that sends and one that receives, interleaved access by
    access.  The channel behaves as a pair of counters with atomic operations: a
    transmission adds one, a reception takes note of all that happened so far. *)

From S2P Require Import Prelude Memory Types Queue QueueSpec Atomic QueueSteps Linear World Shm ShmSpec Unmanaged UnmanagedSteps.
#[local] Open Scope Z_scope.

(** ** Threads of the channel *)

Inductive urole : Type := Sender | Receiver.
#[export] Instance urole_eq_dec : EqDecision urole.
Proof. solve_decision. Defined.
Abbreviation uthread := (endpoint * urole)%type.

Inductive ucall : Type := USend | UPoll.
Inductive uanswer : Type := USent (e : Z) | UFound (cb : bool).

Definition uallowed (t : uthread) (op : ucall) : Prop :=
  match t.2, op with
  | Sender, USend | Receiver, UPoll => True
  | _, _ => False
  end.

Definition ucode (vw : endpoint -> uview) (t : uthread) (op : ucall) : prog uanswer :=
  match op with
  | USend => let+ r := ipc_shm_unmanaged_tx_steps (vw t.1) in Done (USent r)
  | UPoll => let+ b := unmanaged_rx_steps (uv_chan (vw t.1)) in Done (UFound b)
  end.

(** ** The counters *)

(** What each end has sent, and how much of what its peer sent it has noticed. *)
Record counters : Type := Counters { sent : endpoint -> Z; noticed : endpoint -> Z }.

Definition ueffect (t : uthread) (op : ucall) (s : counters) : uanswer * counters :=
  match op with
  | USend => (USent 0, Counters (upd (sent s) t.1 (sent s t.1 + 1)) (noticed s))
  | UPoll =>
      if u32 (sent s (peer t.1)) =? u32 (noticed s t.1) then (UFound false, s)
      else (UFound true, Counters (sent s) (upd (noticed s) t.1 (sent s (peer t.1))))
  end.

Abbreviation castep := (astep uallowed ueffect).

(** ** The memory of a connected channel *)

Section Channel.
Context (vw : endpoint -> uview).
Abbreviation chan e := (uv_chan (vw e)).
Abbreviation half e := (local_mem (uv_chan (vw e))).

(** Words no call changes, with their values: both instances are READY, both
    ends have initialised the channel. *)
Inductive fixed_word : nat -> Z -> Z -> Prop :=
| fixed_state e : fixed_word 8 (uv_state (vw e)) IPC_SHM_STATE_READY
| fixed_remote e : fixed_word 8 (uv_remote (vw e)) IPC_SHM_STATE_READY
| fixed_local_mark e : fixed_word 4 (half e + UMEM_SENTINEL) IPC_UCHAN_INIT_DONE
| fixed_remote_mark e : fixed_word 4 (remote_mem (chan e) + UMEM_SENTINEL) IPC_UCHAN_INIT_DONE.

Record uconnected (m : memory) : Prop := {
  uc_fixed : forall n a v, fixed_word n a v -> mapped m a (Z.of_nat n) = true /\ uint_at n m a = v;
  uc_mapped : forall e, mapped m (half e) UMEM_SIZE = true;
  uc_peer : forall e, remote_mem (chan e) = half (peer e);
  uc_apart : disjoint_ranges (half Near) UMEM_SIZE (half Far) UMEM_SIZE;
  uc_word : forall e e' x, range (uv_state (vw e)) 8 x \/ range (uv_remote (vw e)) 8 x -> ~ range (half e') UMEM_SIZE x
}.

Lemma halves_apart m e e' x : uconnected m -> e <> e' -> range (half e) UMEM_SIZE x -> ~ range (half e') UMEM_SIZE x.
Proof.
  intros C Hne. assert (H := uc_apart m C). unfold disjoint_ranges, range in *. destruct e, e'; try easy; lia.
Qed.

Definition counter_off (off : Z) : Prop := off = UMEM_TX_COUNT \/ off = UMEM_REMOTE_TX_COUNT.

(** Storing one counter leaves the rest alone. *)
Lemma store_counter m e off v :
  uconnected m -> counter_off off -> 0 <= v < 4294967296 ->
  let m' := set_bytes m (half e + off) (le_encode 4 v) in
  do_access (Store 4 (half e + off) v) m = Ret 0 m' /\ uconnected m' /\ uint_at 4 m' (half e + off) = v /\
  forall e' off', counter_off off' -> e' <> e \/ off' <> off -> uint_at 4 m' (half e' + off') = uint_at 4 m (half e' + off').
Proof.
  intros C Ho Hv m'.
  assert (Hoff : 4 <= off /\ off + 4 <= UMEM_SIZE)
    by (destruct Ho as [-> | ->]; unfold UMEM_SIZE, UMEM_TX_COUNT, UMEM_REMOTE_TX_COUNT; lia).
  assert (HF : same_except (range (half e + off) 4) m m').
  { apply set_bytes_same_except. intros x. now rewrite le_encode_length. }
  assert (Hin : forall x, range (half e + off) 4 x -> range (half e) UMEM_SIZE x) by (unfold range; intros; lia).
  assert (Hmap : forall a n, mapped m' a n = mapped m a n) by reflexivity.
  split_and!.
  - apply store_access. eapply mapped_sub; [apply (uc_mapped m C e) | lia | lia].
  - constructor; [| exact (uc_mapped m C) | exact (uc_peer m C) | exact (uc_apart m C) | exact (uc_word m C)].
    intros n a w Hf. destruct (uc_fixed m C n a w Hf) as [H1 H2]. split; [exact H1 |]. rewrite <- H2.
    apply (same_except_uint _ _ _ _ _ HF). intros x Hx Px. apply Hin in Px as Py.
    destruct Hf as [e' | e' | e' | e'].
    + exact (uc_word m C e' e x (or_introl Hx) Py).
    + exact (uc_word m C e' e x (or_intror Hx) Py).
    + destruct (decide (e' = e)) as [-> | Hne]; [unfold range, UMEM_SENTINEL in *; lia |].
      apply (halves_apart m e e' x C); auto. unfold range, UMEM_SENTINEL, UMEM_SIZE in *. lia.
    + rewrite (uc_peer m C) in Hx. destruct (decide (peer e' = e)) as [<- | Hne]; [unfold range, UMEM_SENTINEL in *; lia |].
      apply (halves_apart m e (peer e') x C); auto. unfold range, UMEM_SENTINEL, UMEM_SIZE in *. lia.
  - apply uint_at_set_same. exact Hv.
  - intros e' off' Ho' Hne. apply (same_except_uint _ _ _ _ _ HF). intros x Hx Px.
    assert (Hoff' : 4 <= off' /\ off' + 4 <= UMEM_SIZE)
      by (destruct Ho' as [-> | ->]; unfold UMEM_SIZE, UMEM_TX_COUNT, UMEM_REMOTE_TX_COUNT; lia).
    destruct (decide (e' = e)) as [-> | He].
    + destruct Hne as [? | Hne]; [easy |]. unfold range in *. unfold counter_off, UMEM_TX_COUNT, UMEM_REMOTE_TX_COUNT in *. lia.
    + apply (halves_apart m e e' x C); [auto | auto | unfold range in *; lia].
Qed.

Lemma load_counter m e off :
  uconnected m -> counter_off off -> do_access (Load 4 (half e + off)) m = Ret (uint_at 4 m (half e + off)) m.
Proof.
  intros C Ho. cbn [do_access]. apply read_uint_ok. eapply mapped_sub; [apply (uc_mapped m C e) | |];
    destruct Ho as [-> | ->]; unfold UMEM_SIZE, UMEM_TX_COUNT, UMEM_REMOTE_TX_COUNT; lia.
Qed.

(** ** Where a thread is in its program, and what the counters have done for it *)

(** Loads of fixed words on the way to [last]. *)
Inductive checks {R} (last : prog R) : prog R -> Prop :=
| checks_last : checks last last
| checks_load n a v k : fixed_word n a v -> checks last (k v) -> checks last (Access (Load n a) k).

Definition sending (e : endpoint) : prog uanswer := let+ r := bump_steps (chan e) in Done (USent r).
Definition storing (e : endpoint) (c : Z) : prog uanswer :=
  let+ r := (let+ _ := store 4 (half e + UMEM_TX_COUNT) c in Done 0) in Done (USent r).
Definition comparing (e : endpoint) : prog uanswer := let+ b := compare_steps (chan e) in Done (UFound b).
Definition compared (e : endpoint) (r : Z) : prog uanswer :=
  let+ b := (let+ seen := load 4 (half e + UMEM_REMOTE_TX_COUNT) in
             if negb (r =? seen) then
               let+ _ := store 4 (half e + UMEM_REMOTE_TX_COUNT) r in Done true
             else Done false) in Done (UFound b).
Definition noting (e : endpoint) (r : Z) : prog uanswer :=
  let+ b := (let+ _ := store 4 (half e + UMEM_REMOTE_TX_COUNT) r in Done true) in Done (UFound b).

Ltac fixed_loads :=
  repeat (eapply checks_load; [econstructor |]; cbn [pbind];
          repeat (match goal with |- context [if ?b then _ else _] =>
                    let r := eval vm_compute in b in change b with r end; cbn iota; cbn [pbind]));
  apply checks_last.

Lemma send_checks e : checks (sending e) (ucode vw (e, Sender) USend).
Proof.
  unfold ucode, ipc_shm_unmanaged_tx_steps, uremote_ready_steps, ipc_check_uchan_integrity_steps, load. cbn [pbind fst].
  fixed_loads.
Qed.

Lemma poll_checks e : checks (comparing e) (ucode vw (e, Receiver) UPoll).
Proof.
  unfold ucode, unmanaged_rx_steps, ipc_check_uchan_integrity_steps, load. cbn [pbind fst].
  fixed_loads.
Qed.

Inductive sender_at (e : endpoint) (n : Z) : thread uanswer -> pending ucall uanswer -> Prop :=
| sender_idle : sender_at e n Idle AIdle
| sender_checking p : checks (sending e) p -> sender_at e n (Running p) (ACalled USend)
| sender_storing : sender_at e n (Running (storing e (u32 (n + 1)))) (ACalled USend)
| sender_done : sender_at e n (Running (Done (USent 0))) (ADone (USent 0)).

Inductive receiver_at (e : endpoint) (m : memory) (n : Z) : thread uanswer -> pending ucall uanswer -> Prop :=
| receiver_idle : seen_count m (half e) = u32 n -> receiver_at e m n Idle AIdle
| receiver_checking p :
    seen_count m (half e) = u32 n -> checks (comparing e) p -> receiver_at e m n (Running p) (ACalled UPoll)
| receiver_compared :
    receiver_at e m n (Running (compared e (u32 n))) (ADone (UFound (negb (u32 n =? seen_count m (half e)))))
| receiver_noting : receiver_at e m n (Running (noting e (u32 n))) (ADone (UFound true))
| receiver_done b : seen_count m (half e) = u32 n -> receiver_at e m n (Running (Done (UFound b))) (ADone (UFound b)).

Lemma receiver_at_ext e m m' n x y :
  seen_count m' (half e) = seen_count m (half e) -> receiver_at e m n x y -> receiver_at e m' n x y.
Proof. intros E H. destruct H; try (constructor; congruence). rewrite <- E. constructor. Qed.

Abbreviation ustep := (step uallowed (ucode vw)).

Record usim (c : conf uthread uanswer) (a : counters * (uthread -> pending ucall uanswer)) : Prop := {
  us_mem : uconnected c.1;
  us_sent : forall e, tx_count c.1 (half e) = u32 (sent a.1 e);
  us_sender : forall e, sender_at e (sent a.1 e) (c.2 (e, Sender)) (a.2 (e, Sender));
  us_receiver : forall e, receiver_at e c.1 (noticed a.1 e) (c.2 (e, Receiver)) (a.2 (e, Receiver))
}.

(** What a thread does next, and what the counters do meanwhile. *)
Definition sender_moves (e : endpoint) (m : memory) (s : counters) (p : prog uanswer) (y : pending ucall uanswer) : Prop :=
  match p with
  | Done r => y = ADone r
  | Wrong => False
  | Access x k => exists v m' s' y',
      do_access x m = Ret v m' /\ uconnected m' /\
      (s' = s /\ y' = y \/ y = ACalled USend /\ s' = (ueffect (e, Sender) USend s).2 /\ y' = ADone (USent 0)) /\
      tx_count m' (half e) = u32 (sent s' e) /\ tx_count m' (half (peer e)) = tx_count m (half (peer e)) /\
      (forall e', seen_count m' (half e') = seen_count m (half e')) /\
      sender_at e (sent s' e) (Running (k v)) y'
  end.

Lemma sender_next e m s p y :
  uconnected m -> tx_count m (half e) = u32 (sent s e) -> sender_at e (sent s e) (Running p) y -> sender_moves e m s p y.
Proof.
  intros C Ht Hat. remember (Running p) as th eqn:Eth. destruct Hat as [| p' Hc | |]; try discriminate; injection Eth as <-.
  - destruct Hc as [| n a v k Hf Hc].
    + unfold sending, bump_steps, load. cbn [pbind]. eexists _, m, s, (ACalled USend). split_and!; auto.
      * apply load_counter; [exact C | now left].
      * fold (tx_count m (half e)). rewrite Ht. unfold u32 at 2.
        assert (E : (sent s e mod 2 ^ 32 + 1) mod 2 ^ 32 = (sent s e + 1) mod 2 ^ 32) by (now rewrite Z.add_mod_idemp_l).
        unfold u32. rewrite E. apply sender_storing.
    + destruct (uc_fixed m C n a v Hf) as [H1 H2]. eexists v, m, s, (ACalled USend). split_and!; auto.
      * cbn [do_access]. rewrite read_uint_ok by exact H1. now rewrite H2.
      * now apply sender_checking.
  - unfold storing, store. cbn [pbind].
    destruct (store_counter m e UMEM_TX_COUNT (u32 (sent s e + 1)) C) as (E & C' & Ev & Eo); [now left | apply u32_range |].
    eexists 0, _, (ueffect (e, Sender) USend s).2, (ADone (USent 0)). split_and!; [exact E | exact C' | right; split_and!; reflexivity | | | |].
    + cbn [ueffect snd sent fst]. rewrite upd_same. exact Ev.
    + apply Eo; [now left | left; now destruct e].
    + intros e'. apply Eo; [now right | now right].
    + apply sender_done.
  - reflexivity.
Qed.

Definition receiver_moves (e : endpoint) (m : memory) (s : counters) (p : prog uanswer) (y : pending ucall uanswer) : Prop :=
  match p with
  | Done r => y = ADone r
  | Wrong => False
  | Access x k => exists v m' s' y',
      do_access x m = Ret v m' /\ uconnected m' /\
      (s' = s /\ y' = y \/
       y = ACalled UPoll /\ s' = (ueffect (e, Receiver) UPoll s).2 /\ y' = ADone (ueffect (e, Receiver) UPoll s).1) /\
      (forall e', tx_count m' (half e') = tx_count m (half e')) /\
      seen_count m' (half (peer e)) = seen_count m (half (peer e)) /\
      receiver_at e m' (noticed s' e) (Running (k v)) y'
  end.

Lemma receiver_next e m s p y :
  uconnected m -> tx_count m (half (peer e)) = u32 (sent s (peer e)) ->
  receiver_at e m (noticed s e) (Running p) y -> receiver_moves e m s p y.
Proof.
  intros C Ht Hat. remember (Running p) as th eqn:Eth.
  destruct Hat as [| p' Hs Hc | | | b Hs]; try discriminate; injection Eth as <-.
  - destruct Hc as [| n a v k Hf Hc].
    + unfold comparing, compare_steps, load. cbn [pbind]. rewrite (uc_peer m C).
      eexists _, m, (ueffect (e, Receiver) UPoll s).2, (ADone (ueffect (e, Receiver) UPoll s).1).
      split_and!; [apply load_counter; [exact C | now left] | exact C | now right | reflexivity | reflexivity |].
      fold (tx_count m (half (peer e))). rewrite Ht.
      assert (En : u32 (noticed (ueffect (e, Receiver) UPoll s).2 e) = u32 (sent s (peer e))).
      { cbn [ueffect fst]. destruct (Z.eqb_spec (u32 (sent s (peer e))) (u32 (noticed s e))) as [E |]; cbn [snd noticed]; [easy |].
        now rewrite upd_same. }
      assert (Er : (ueffect (e, Receiver) UPoll s).1
                   = UFound (negb (u32 (noticed (ueffect (e, Receiver) UPoll s).2 e) =? seen_count m (half e)))).
      { rewrite En, Hs. cbn [ueffect fst]. now destruct (_ =? _). }
      rewrite Er, <- En. apply receiver_compared.
    + destruct (uc_fixed m C n a v Hf) as [H1 H2]. eexists v, m, s, (ACalled UPoll). split_and!; auto.
      * cbn [do_access]. rewrite read_uint_ok by exact H1. now rewrite H2.
      * now apply receiver_checking.
  - unfold compared, load. cbn [pbind]. eexists _, m, s, _. split_and!; auto; [apply load_counter; [exact C | now right] |].
    fold (seen_count m (half e)). destruct (Z.eqb_spec (u32 (noticed s e)) (seen_count m (half e))) as [E | E]; cbn [negb pbind].
    + now apply receiver_done.
    + apply receiver_noting.
  - unfold noting, store. cbn [pbind].
    destruct (store_counter m e UMEM_REMOTE_TX_COUNT (u32 (noticed s e)) C) as (E & C' & Ev & Eo); [now right | apply u32_range |].
    eexists 0, _, s, _. split_and!; [exact E | exact C' | now left | | |].
    + intros e'. apply Eo; [now left | now right].
    + apply Eo; [now right | left; now destruct e].
    + now apply receiver_done.
  - reflexivity.
Qed.

(** ** All threads *)

Lemma usim_call c a t op c' :
  usim c a -> ustep c (ECall t op) c' ->
  let a' := (a.1, upd a.2 t (ACalled op)) in castep a (Some (ECall t op)) a' /\ usim c' a'.
Proof.
  intros [C Hs Hsnd Hrcv] Hst. inversion Hst as [m th t' op' Hi Ha | |]; subst. destruct a as [s ath]. cbn [fst snd] in *.
  assert (Ea : ath t = AIdle).
  { destruct t as [e []]; [assert (H := Hsnd e) | assert (H := Hrcv e)]; rewrite Hi in H; inversion H; auto. }
  split; [now apply astep_call |].
  constructor; cbn [fst snd]; auto; intros e.
  - destruct (decide (t = (e, Sender))) as [-> | Hne]; [| rewrite !upd_other by congruence; apply Hsnd].
    rewrite !upd_same. destruct op; [apply sender_checking, send_checks | easy].
  - destruct (decide (t = (e, Receiver))) as [-> | Hne]; [| rewrite !upd_other by congruence; apply Hrcv].
    rewrite !upd_same. destruct op; [easy |]. assert (H := Hrcv e). rewrite Hi in H. inversion H; subst.
    apply receiver_checking; [assumption | apply poll_checks].
Qed.

Lemma usim_return c a t r c' :
  usim c a -> ustep c (EReturn t r) c' ->
  exists ls a', exec castep a ls a' /\ labels ls = visible [EReturn (O := ucall) t r] /\ usim c' a'.
Proof.
  intros [C Hs Hsnd Hrcv] Hst. inversion Hst as [| | m th t' r' Hd]; subst. destruct a as [s ath]. cbn [fst snd] in *.
  exists [Some (EReturn t r)], (s, upd ath t AIdle).
  assert (Ea : ath t = ADone r).
  { destruct t as [e []].
    - assert (H := sender_next e m s (Done r) (ath (e, Sender)) C (Hs e)). apply H. rewrite <- Hd. apply Hsnd.
    - assert (H := receiver_next e m s (Done r) (ath (e, Receiver)) C (Hs (peer e))). apply H. rewrite <- Hd. apply Hrcv. }
  split_and!; [eapply exec_cons; [now apply astep_return | apply exec_nil] | reflexivity |].
  constructor; cbn [fst snd]; auto; intros e.
  - destruct (decide (t = (e, Sender))) as [-> | Hne]; [| rewrite !upd_other by congruence; apply Hsnd].
    rewrite !upd_same. constructor.
  - destruct (decide (t = (e, Receiver))) as [-> | Hne]; [| rewrite !upd_other by congruence; apply Hrcv].
    rewrite !upd_same. constructor. assert (H := Hrcv e). rewrite Hd, Ea in H. now inversion H.
Qed.

(** The object's step that goes with an access, if any. *)
Lemma effect_exec s ath t op s' y' y :
  ath t = y ->
  s' = s /\ y' = y \/ y = ACalled op /\ s' = (ueffect t op s).2 /\ y' = ADone (ueffect t op s).1 ->
  exists ls ath', exec castep (s, ath) ls (s', ath') /\ labels ls = [] /\ ath' t = y' /\
    forall t', t' <> t -> ath' t' = ath t'.
Proof.
  intros Ey [[-> ->] | (Ea & -> & ->)].
  - exists [], ath. split_and!; auto. apply exec_nil.
  - exists [None], (upd ath t (ADone (ueffect t op s).1)). split_and!.
    + eapply exec_cons; [apply (astep_effect _ _ s ath t op); now rewrite Ey | apply exec_nil].
    + reflexivity.
    + apply upd_same.
    + intros t' Hne. now apply upd_other.
Qed.

Lemma usim_access c a t c' :
  usim c a -> ustep c (EAccess t) c' ->
  exists ls a', exec castep a ls a' /\ labels ls = [] /\ usim c' a'.
Proof.
  intros [C Hs Hsnd Hrcv] Hst. inversion Hst as [| m th t' x k v m' Hx Hd |]; subst. destruct a as [s ath]. cbn [fst snd] in *.
  destruct t as [e []].
  - assert (Hat := Hsnd e). rewrite Hx in Hat.
    destruct (sender_next e m s _ _ C (Hs e) Hat) as (v1 & m1 & s' & y' & E & C' & Hm & Ht & Htp & Hseen & Hat').
    rewrite Hd in E. injection E as <- <-.
    assert (Ekeep : noticed s' = noticed s /\ sent s' (peer e) = sent s (peer e)).
    { destruct Hm as [[-> _] | (_ & -> & _)]; [auto |]. cbn [ueffect snd sent noticed fst]. rewrite upd_other by (now destruct e). auto. }
    destruct (effect_exec s ath (e, Sender) USend s' y' _ eq_refl Hm) as (ls & ath' & He & Hl & E1 & E2).
    exists ls, (s', ath'). split_and!; [exact He | exact Hl |]. constructor; cbn [fst snd].
    + exact C'.
    + intros e'. destruct (decide (e' = e)) as [-> | Hne]; [exact Ht |].
      assert (e' = peer e) as -> by (destruct e, e'; easy). rewrite Htp, (Hs (peer e)). now rewrite (proj2 Ekeep).
    + intros e'. destruct (decide (e' = e)) as [-> | Hne]; [now rewrite upd_same, E1 |].
      assert (e' = peer e) as -> by (destruct e, e'; easy).
      rewrite upd_other, E2, (proj2 Ekeep) by congruence. apply Hsnd.
    + intros e'. rewrite upd_other, E2, (proj1 Ekeep) by congruence. eapply receiver_at_ext; [apply Hseen | apply Hrcv].
  - assert (Hat := Hrcv e). rewrite Hx in Hat.
    destruct (receiver_next e m s _ _ C (Hs (peer e)) Hat) as (v1 & m1 & s' & y' & E & C' & Hm & Ht & Hseen & Hat').
    rewrite Hd in E. injection E as <- <-.
    assert (Ekeep : sent s' = sent s /\ noticed s' (peer e) = noticed s (peer e)).
    { destruct Hm as [[-> _] | (_ & -> & _)]; [auto |]. cbn [ueffect fst]. destruct (_ =? _); cbn [snd sent noticed]; [auto |].
      rewrite upd_other by (now destruct e). auto. }
    destruct (effect_exec s ath (e, Receiver) UPoll s' y' _ eq_refl Hm) as (ls & ath' & He & Hl & E1 & E2).
    exists ls, (s', ath'). split_and!; [exact He | exact Hl |]. constructor; cbn [fst snd].
    + exact C'.
    + intros e'. now rewrite Ht, Hs, (proj1 Ekeep).
    + intros e'. rewrite upd_other, E2, (proj1 Ekeep) by congruence. apply Hsnd.
    + intros e'. destruct (decide (e' = e)) as [-> | Hne]; [now rewrite upd_same, E1 |].
      assert (e' = peer e) as -> by (destruct e, e'; easy).
      rewrite upd_other, E2, (proj2 Ekeep) by congruence. eapply receiver_at_ext; [exact Hseen | apply Hrcv].
Qed.

Lemma usim_step c e c' a :
  usim c a -> ustep c e c' -> exists ls a', exec castep a ls a' /\ labels ls = visible [e] /\ usim c' a'.
Proof.
  intros S Hst. destruct e as [t op | t | t r]; [| eapply usim_access; eauto | eapply usim_return; eauto].
  destruct (usim_call c a t op c' S Hst) as [Hc S']. eexists [_], _. split_and!; [| | exact S'].
  - eapply exec_cons; [exact Hc | apply exec_nil].
  - reflexivity.
Qed.

Lemma usim_no_fault c a t : usim c a -> ~ faults c t.
Proof.
  intros [C Hs Hsnd Hrcv] Hf. destruct c as [m th], t as [e r]. unfold faults in Hf. cbn [fst snd] in *.
  destruct (th (e, r)) as [| p] eqn:Et; [easy |]. destruct r.
  - assert (Hat := Hsnd e). rewrite Et in Hat. apply (sender_next e m) in Hat; [| exact C | apply Hs].
    destruct p; [easy | exact Hat |]. destruct Hat as (v & m' & s' & y' & E & _). congruence.
  - assert (Hat := Hrcv e). rewrite Et in Hat. apply (receiver_next e m) in Hat; [| exact C | apply Hs].
    destruct p; [easy | exact Hat |]. destruct Hat as (v & m' & s' & y' & E & _). congruence.
Qed.

End Channel.

(** ** What a client can count *)

Abbreviation uevent := (event uthread ucall uanswer).

Definition count_if (f : uevent -> bool) (es : list uevent) : Z := Z.of_nat (length (List.filter f es)).

Definition is_send (e : endpoint) (ev : uevent) : bool :=
  match ev with ECall t _ => bool_decide (t = (e, Sender)) | _ => false end.
Definition is_sent (e : endpoint) (ev : uevent) : bool :=
  match ev with EReturn t _ => bool_decide (t = (e, Sender)) | _ => false end.
Definition is_callback (e : endpoint) (ev : uevent) : bool :=
  match ev with EReturn t (UFound true) => bool_decide (t = (e, Receiver)) | _ => false end.

(** Transmissions end [e] has called and has returned from, and runs of its
    receive callback. *)
Definition transmissions (e : endpoint) : list uevent -> Z := count_if (is_send e).
Definition completed (e : endpoint) : list uevent -> Z := count_if (is_sent e).
Definition callbacks (e : endpoint) : list uevent -> Z := count_if (is_callback e).

Lemma count_if_app f es es' : count_if f (es ++ es') = count_if f es + count_if f es'.
Proof. unfold count_if. rewrite filter_app, length_app. lia. Qed.

Lemma count_if_snoc f es ev : count_if f (es ++ [ev]) = count_if f es + (if f ev then 1 else 0).
Proof. rewrite count_if_app. unfold count_if at 2. cbn [List.filter]. now destruct (f ev). Qed.

(** Accesses are not counted. *)
Lemma count_visible f es : (forall t, f (EAccess t) = false) -> count_if f (visible es) = count_if f es.
Proof.
  intros Hf. unfold count_if, visible. f_equal. f_equal. induction es as [| [t op | t | t r] es IH]; cbn [List.filter]; auto.
  - now rewrite IH.
  - now rewrite Hf.
  - now rewrite IH.
Qed.

Section Counting.
Context (s0 : counters) (H0 : forall e, noticed s0 e = sent s0 (peer e)).
(** A transmission the object still has to do, or has done but not returned
    from; a callback still to be reported. *)
Definition to_send (y : pending ucall uanswer) : Z := match y with ACalled _ => 1 | _ => 0 end.
Definition to_return (y : pending ucall uanswer) : Z := match y with ADone _ => 1 | _ => 0 end.
Definition to_report (y : pending ucall uanswer) : Z := match y with ADone (UFound true) => 1 | _ => 0 end.

Record counted (h : list uevent) (a : counters * (uthread -> pending ucall uanswer)) : Prop := {
  ct_sent : forall e, sent a.1 e + to_send (a.2 (e, Sender)) = sent s0 e + transmissions e h;
  ct_completed : forall e, completed e h + to_return (a.2 (e, Sender)) = sent a.1 e - sent s0 e;
  ct_noticed : forall e, noticed s0 e <= noticed a.1 e <= sent a.1 (peer e);
  ct_callbacks : forall e, callbacks e h + to_report (a.2 (e, Receiver)) <= noticed a.1 e - noticed s0 e;
  ct_allowed : forall t op, a.2 t = ACalled op -> uallowed t op
}.

Lemma counted_start : counted [] (s0, fun _ => AIdle).
Proof. constructor; try easy; intros e; cbn; rewrite ?H0; unfold transmissions, completed, callbacks, count_if; cbn; lia. Qed.

Lemma endpoint_cases (e e' : endpoint) : e' = e \/ e' = peer e.
Proof. destruct e, e'; auto. Qed.

(** Thread [(e, r)] takes the step, or another one does. *)
Ltac by_thread e r t Hq :=
  destruct (decide ((e, r) = t)) as [<- | ?];
  [rewrite ?upd_same, ?bool_decide_true by reflexivity; rewrite Hq in * | rewrite ?upd_other, ?bool_decide_false by congruence];
  cbn in *; lia.

Ltac counts :=
  unfold transmissions, completed, callbacks in *; rewrite ?count_if_snoc; cbn [is_send is_sent is_callback].

Lemma counted_call h s th t op :
  counted h (s, th) -> th t = AIdle -> uallowed t op -> counted (h ++ [ECall t op]) (s, upd th t (ACalled op)).
Proof.
  intros [C1 C2 C3 C4 C5] Hi Ha. constructor; cbn [fst snd] in *.
  - intros e. specialize (C1 e). counts. by_thread e Sender t Hi.
  - intros e. specialize (C2 e). counts. by_thread e Sender t Hi.
  - exact C3.
  - intros e. specialize (C4 e). counts. by_thread e Receiver t Hi.
  - intros t' op'. destruct (decide (t' = t)) as [-> | Hne]; [rewrite upd_same; congruence | rewrite upd_other by exact Hne; apply C5].
Qed.

Lemma counted_return h s th t r :
  counted h (s, th) -> th t = ADone r -> counted (h ++ [EReturn t r]) (s, upd th t AIdle).
Proof.
  intros [C1 C2 C3 C4 C5] Hd. constructor; cbn [fst snd] in *.
  - intros e. specialize (C1 e). counts. by_thread e Sender t Hd.
  - intros e. specialize (C2 e). counts. by_thread e Sender t Hd.
  - exact C3.
  - intros e. specialize (C4 e). counts. destruct r as [x | []]; by_thread e Receiver t Hd.
  - intros t' op'. destruct (decide (t' = t)) as [-> | Hne]; [now rewrite upd_same | rewrite upd_other by exact Hne; apply C5].
Qed.

Lemma called_elsewhere th t r (t' : uthread) (op' : ucall) :
  (forall t op, th t = ACalled op -> uallowed t op) -> upd th t (ADone (r : uanswer)) t' = ACalled op' -> uallowed t' op'.
Proof.
  intros Hc. destruct (decide (t' = t)) as [-> | Hne]; [now rewrite upd_same | rewrite upd_other by exact Hne; apply Hc].
Qed.

Lemma counted_send h s th e1 :
  counted h (s, th) -> th (e1, Sender) = ACalled USend ->
  counted h ((ueffect (e1, Sender) USend s).2, upd th (e1, Sender) (ADone (USent 0))).
Proof.
  intros [C1 C2 C3 C4 C5] Hc. constructor; cbn [ueffect fst snd sent noticed] in *.
  - intros e. specialize (C1 e). destruct (decide (e = e1)) as [-> | Hne]; [rewrite Hc in C1; rewrite !upd_same | rewrite !upd_other by congruence];
      cbn in *; lia.
  - intros e. specialize (C2 e). destruct (decide (e = e1)) as [-> | Hne]; [rewrite Hc in C2; rewrite !upd_same | rewrite !upd_other by congruence];
      cbn in *; lia.
  - intros e. specialize (C3 e). destruct (decide (peer e = e1)) as [<- | Hne]; [rewrite upd_same | rewrite upd_other by exact Hne]; lia.
  - intros e. rewrite upd_other by congruence. apply C4.
  - intros t op. now apply called_elsewhere.
Qed.

Lemma counted_poll h s th e1 :
  counted h (s, th) -> th (e1, Receiver) = ACalled UPoll ->
  counted h ((ueffect (e1, Receiver) UPoll s).2, upd th (e1, Receiver) (ADone (ueffect (e1, Receiver) UPoll s).1)).
Proof.
  intros [C1 C2 C3 C4 C5] Hc. cbn [ueffect fst snd] in *.
  assert (Hother : forall y e, upd th (e1, Receiver) y (e, Sender) = th (e, Sender)) by (intros; now rewrite upd_other).
  destruct (Z.eqb_spec (u32 (sent s (peer e1))) (u32 (noticed s e1))) as [Eu | Eu]; cbn [fst snd];
    constructor; cbn [fst snd sent noticed]; try (intros e; rewrite ?Hother; auto; fail);
    try (intros t op; now apply called_elsewhere).
  - intros e. specialize (C4 e). destruct (decide (e = e1)) as [-> | Hne]; [| now rewrite upd_other by congruence].
    rewrite upd_same. rewrite Hc in C4. exact C4.
  - intros e. specialize (C3 e). destruct (decide (e = e1)) as [-> | Hne]; [rewrite upd_same | rewrite upd_other by exact Hne]; lia.
  - intros e. specialize (C4 e). specialize (C3 e). destruct (decide (e = e1)) as [-> | Hne]; [| now rewrite !upd_other by congruence].
    rewrite !upd_same. rewrite Hc in C4. cbn [to_report] in *. assert (noticed s e1 <> sent s (peer e1)) by congruence. lia.
Qed.

(** One step of the object. *)
Lemma counted_step h a l a' :
  counted h a -> castep a l a' -> counted (h ++ match l with Some ev => [ev] | None => [] end) a'.
Proof.
  intros Hh Hst. destruct Hst as [s th t op Hi Ha | s th t op Hc | s th t r Hd].
  - now apply counted_call.
  - rewrite app_nil_r. assert (Hal := ct_allowed _ _ Hh t op Hc). destruct t as [e []], op; try easy; [now apply counted_send | now apply counted_poll].
  - now apply counted_return.
Qed.

Lemma counted_exec a ls a' : exec castep a ls a' -> forall h, counted h a -> counted (h ++ labels ls) a'.
Proof.
  induction 1 as [a | a l a1 ls a' Hs _ IH]; intros h Hh; [now rewrite app_nil_r |].
  apply (counted_step h a l a1 Hh) in Hs. apply IH in Hs.
  replace (labels (l :: ls)) with (match l with Some ev => [ev] | None => [] end ++ labels ls) by now destruct l.
  now rewrite app_assoc.
Qed.

(** Counters only grow. *)
Lemma counters_grow h a l a' e :
  counted h a -> castep a l a' -> sent a.1 e <= sent a'.1 e /\ noticed a.1 e <= noticed a'.1 e.
Proof.
  intros Hh Hst. assert (Hn := ct_noticed _ _ Hh e).
  destruct Hst as [s th t op Hi Ha | s th t op Hc | s th t r Hd]; cbn [fst snd] in *; try lia.
  destruct op; cbn [ueffect snd].
  - cbn [sent noticed]. destruct (decide (e = t.1)) as [-> | Hne]; [rewrite upd_same | rewrite upd_other by exact Hne]; lia.
  - destruct (_ =? _); cbn [snd sent noticed]; [lia |].
    destruct (decide (e = t.1)) as [-> | Hne]; [rewrite upd_same | rewrite upd_other by exact Hne]; lia.
Qed.

Lemma counters_grow_exec a ls a' e :
  exec castep a ls a' -> forall h, counted h a -> sent a.1 e <= sent a'.1 e /\ noticed a.1 e <= noticed a'.1 e.
Proof.
  induction 1 as [a | a l a1 ls a' Hs Hex IH]; intros h Hh; [lia |].
  assert (H1 := counters_grow h a l a1 e Hh Hs). specialize (IH _ (counted_step h a l a1 Hh Hs)). lia.
Qed.

(** Equal as 32-bit numbers, less than 2^32 apart. *)
Lemma u32_close x y : u32 x = u32 y -> y <= x < y + 2 ^ 32 -> x = y.
Proof.
  unfold u32. intros E H. assert (D : (x - y) mod 2 ^ 32 = 0) by (rewrite Zminus_mod, E, Z.sub_diag; reflexivity).
  rewrite Z.mod_small in D by lia. lia.
Qed.

(** When a reception that was called has returned, it has noticed all that was
    sent before, unless the counter went round. *)
Lemma notices_in_time e K a ls a' :
  exec castep a ls a' -> forall h, counted h a -> a.2 (e, Receiver) = ACalled UPoll ->
  K <= sent a.1 (peer e) -> sent a'.1 (peer e) < noticed a.1 e + 2 ^ 32 ->
  (forall r, EReturn (e, Receiver) r ∉ labels ls) \/ K <= noticed a'.1 e.
Proof.
  induction 1 as [a | a l a1 ls a' Hs Hex IH]; intros h Hh Hc HK Hb.
  { left. intros r Hr. now apply not_elem_of_nil in Hr. }
  assert (Hh1 := counted_step h a l a1 Hh Hs). assert (Hg := counters_grow_exec _ _ _ e Hex _ Hh1).
  assert (Hg' := counters_grow_exec _ _ _ (peer e) Hex _ Hh1).
  assert (Hm := counters_grow h a l a1 e Hh Hs). assert (Hm' := counters_grow h a l a1 (peer e) Hh Hs).
  assert (Hcase : a1.2 (e, Receiver) = ACalled UPoll /\ (forall r, l <> Some (EReturn (e, Receiver) r)) \/ K <= noticed a1.1 e).
  { destruct Hs as [s th t op Hi Ha | s th t op Hop | s th t r Hd]; cbn [fst snd] in *.
    - left. rewrite upd_other by congruence. auto.
    - destruct (decide (t = (e, Receiver))) as [-> | Hne]; [right | left; rewrite upd_other by congruence; auto].
      rewrite Hc in Hop. injection Hop as <-. cbn [ueffect fst] in *.
      destruct (Z.eqb_spec (u32 (sent s (peer e))) (u32 (noticed s e))) as [Eu | Eu]; cbn [snd noticed sent] in *.
      + apply u32_close in Eu; [lia |]. assert (Hn := ct_noticed _ _ Hh e). cbn [fst] in Hn. lia.
      + rewrite upd_same. exact HK.
    - left. rewrite upd_other by congruence. split; [exact Hc |]. intros r' E. congruence. }
  destruct Hcase as [[Hc1 Hl] | Hk]; [| right; lia].
  destruct (IH _ Hh1 Hc1 ltac:(lia) ltac:(lia)) as [Hno | Hk]; [left | now right]. intros r Hr.
  replace (labels (l :: ls)) with (match l with Some ev => [ev] | None => [] end ++ labels ls) in Hr by now destruct l.
  apply elem_of_app in Hr as [Hr | Hr]; [| exact (Hno r Hr)].
  destruct l as [ev |]; [| now apply not_elem_of_nil in Hr]. apply list_elem_of_singleton in Hr. subst ev. now apply (Hl r).
Qed.

End Counting.

(** ** Executions of a connected channel *)

Lemma exec_app_inv {C E} (step : C -> E -> C -> Prop) c es es' c' :
  exec step c (es ++ es') c' -> exists c1, exec step c es c1 /\ exec step c1 es' c'.
Proof.
  revert c. induction es as [| e es IH]; intros c H; [exists c; split; [apply exec_nil | exact H] |].
  cbn [app] in H. inversion H as [| ? ? c1 ? ? Hs He]; subst. destruct (IH c1 He) as (c2 & H1 & H2).
  exists c2. split; [eapply exec_cons; eauto | exact H2].
Qed.

Lemma ucode_within vw t op : within 6 (ucode vw t op).
Proof.
  destruct op; unfold ucode, ipc_shm_unmanaged_tx_steps, uremote_ready_steps, bump_steps, unmanaged_rx_steps,
    compare_steps, ipc_check_uchan_integrity_steps, load, store;
    repeat (cbn [pbind within]; match goal with
            | |- forall _ : Z, _ => intros ?
            | |- context [if ?b then _ else _] => destruct b
            | |- True => exact I
            end).
Qed.

Section Executions.
Context (vw : endpoint -> uview) (m : memory).
Abbreviation half e := (local_mem (uv_chan (vw e))).
Context (C : uconnected vw m) (Hok : mem_ok m).
Context (Hseen : forall e, seen_count m (half e) = tx_count m (half (peer e))).

(** The counters the memory starts with. *)
Definition counters_of : counters := Counters (fun e => tx_count m (half e)) (fun e => seen_count m (half e)).

Lemma count_u32 a : u32 (uint_at 4 m a) = uint_at 4 m a.
Proof. apply u32_small. exact (uint_at_range 4 m a Hok). Qed.

Lemma usim_start : usim vw (m, fun _ => Idle) (counters_of, fun _ => AIdle).
Proof.
  constructor; cbn [fst snd counters_of sent noticed]; [exact C | | |]; intros e.
  - symmetry. apply count_u32.
  - constructor.
  - constructor. symmetry. apply count_u32.
Qed.

(** The state of the object at any moment of an execution. *)
Lemma usim_history es c :
  exec (step uallowed (ucode vw)) (m, fun _ => Idle) es c ->
  exists ls a, exec castep (counters_of, fun _ => AIdle) ls a /\ labels ls = visible es /\ usim vw c a /\
    counted counters_of (visible es) a.
Proof.
  intros He. destruct (simulation_exec _ _ _ (fun c e c' a => usim_step vw c e c' a) _ _ _ He _ usim_start) as (ls & a & E & L & S).
  exists ls, a. split_and!; auto. rewrite <- L. apply (counted_exec counters_of _ _ _ E []). now apply counted_start.
Qed.

End Executions.

Section Theorems.
Context (vw : endpoint -> uview) (m : memory).
Abbreviation half e := (local_mem (uv_chan (vw e))).
Abbreviation ustep := (step uallowed (ucode vw)).

(** A reception that is called when [es1] has happened and that has returned at
    the end. *)
Lemma reception_notices e es1 es2 r c :
  uconnected vw m -> mem_ok m -> (forall e, seen_count m (half e) = tx_count m (half (peer e))) ->
  let es := es1 ++ ECall (e, Receiver) UPoll :: es2 ++ [EReturn (e, Receiver) r] in
  exec ustep (m, fun _ => Idle) es c -> transmissions (peer e) es < 2 ^ 32 ->
  exists k, completed (peer e) es1 <= k <= transmissions (peer e) es /\
    seen_count c.1 (half e) = u32 (seen_count m (half e) + k).
Proof.
  intros C Hok Hseen es He Hb. set (s0 := counters_of vw m).
  destruct (exec_app_inv _ _ _ _ _ He) as (c1 & He1 & He2). inversion He2 as [| ? ? c2 ? ? Hc He3]; subst.
  destruct (usim_history vw m C Hok Hseen es1 c1 He1) as (ls1 & a1 & _ & _ & S1 & K1). fold s0 in K1.
  destruct (usim_call vw c1 a1 _ _ _ S1 Hc) as [Hc' S2]. set (a2 := (a1.1, upd a1.2 (e, Receiver) (ACalled UPoll))) in *.
  destruct (simulation_exec _ _ _ (fun c e c' a => usim_step vw c e c' a) _ _ _ He3 _ S2) as (ls & a & E & L & S).
  apply (counted_step s0) with (h := visible es1) in Hc' as K2; [| exact K1].
  apply (counted_exec s0) with (h := visible es1 ++ [ECall (e, Receiver) UPoll]) in E as K3; [| exact K2].
  rewrite L in K3.
  assert (Ev : (visible es1 ++ [ECall (e, Receiver) UPoll]) ++ visible (es2 ++ [EReturn (e, Receiver) r]) = visible es).
  { unfold es. change (_ :: es2 ++ _) with ([ECall (e, Receiver) UPoll] ++ (es2 ++ [EReturn (e, Receiver) r])).
    unfold visible. now rewrite !filter_app, <- !app_assoc. }
  rewrite Ev in K3.
  assert (Hsent := ct_sent _ _ _ K3 (peer e)). assert (Hle := ct_noticed _ _ _ K3 e).
  unfold transmissions in Hsent. rewrite count_visible in Hsent by reflexivity. fold (transmissions (peer e) es) in Hsent.
  assert (Hto : 0 <= to_send (a.2 (peer e, Sender))) by (destruct (a.2 (peer e, Sender)); cbn; lia).
  assert (Hdone := ct_completed _ _ _ K1 (peer e)). unfold completed in Hdone.
  rewrite count_visible in Hdone by reflexivity. fold (completed (peer e) es1) in Hdone.
  assert (Hret : 0 <= to_return (a1.2 (peer e, Sender))) by (destruct (a1.2 (peer e, Sender)); cbn; lia).
  assert (Hn1 := ct_noticed _ _ _ K1 e).
  assert (Es : sent s0 (peer e) = noticed s0 e) by (symmetry; apply Hseen).
  assert (Hk : sent s0 (peer e) + completed (peer e) es1 <= noticed a.1 e).
  { destruct (notices_in_time s0 e (sent s0 (peer e) + completed (peer e) es1) a2 ls a E _ K2) as [Hno | Hk];
      [cbn [a2 snd]; apply upd_same | cbn [a2 fst]; lia | cbn [a2 fst]; lia | | exact Hk].
    exfalso. apply (Hno r). rewrite L. unfold visible. rewrite filter_app. apply elem_of_app. right. now left. }
  exists (noticed a.1 e - noticed s0 e). split; [lia |].
  assert (Ei : c.2 (e, Receiver) = Idle).
  { destruct (exec_app_inv _ _ _ _ _ He3) as (c4 & _ & Hr). inversion Hr as [| ? ? c5 ? ? Hr' Hn]; subst. inversion Hn; subst.
    inversion Hr'; subst. cbn [snd]. apply upd_same. }
  assert (Hr := us_receiver _ _ _ S e). rewrite Ei in Hr. inversion Hr as [Hs | | | |]. rewrite Hs.
  change (seen_count m (half e)) with (noticed s0 e). f_equal. lia.
Qed.

(** C16: an unmanaged channel under concurrent use.  On each end of a connected
    channel a thread sends while another receives, the accesses of the four
    threads interleaved in any way.  No access faults, and a call makes at most
    six.  Every execution has the calls, returns and results of a pair of counters
    with atomic operations, where a transmission adds one and a reception takes
    note of all that was sent; the counter words in memory are these counters
    modulo 2^32.  So an end runs its callback at most as often as its peer
    transmits, and no transmission is lost: when a reception returns, the end has
    noticed at least all those that had completed when it was called, unless 2^32
    were made. *)
Theorem unmanaged_channel_linearizable es c :
  uconnected vw m -> mem_ok m -> (forall e, seen_count m (half e) = tx_count m (half (peer e))) ->
  exec ustep (m, fun _ => Idle) es c ->
  (forall t, ~ faults c t) /\ (forall t op, within 6 (ucode vw t op)) /\
  (exists ls s ath, exec castep (counters_of vw m, fun _ => AIdle) ls (s, ath) /\ labels ls = visible es /\
     forall e, tx_count c.1 (half e) = u32 (sent s e) /\
       (c.2 (e, Receiver) = Idle -> seen_count c.1 (half e) = u32 (noticed s e))) /\
  (forall e, callbacks e es <= transmissions (peer e) es) /\
  (forall e es1 es2 r,
     es = es1 ++ ECall (e, Receiver) UPoll :: es2 ++ [EReturn (e, Receiver) r] ->
     transmissions (peer e) es < 2 ^ 32 ->
     exists k, completed (peer e) es1 <= k <= transmissions (peer e) es /\
       seen_count c.1 (half e) = u32 (seen_count m (half e) + k)).
Proof.
  intros C Hok Hseen He.
  destruct (usim_history vw m C Hok Hseen es c He) as (ls & [s ath] & E & L & S & K).
  split_and!.
  - intros t. exact (usim_no_fault vw c _ t S).
  - apply ucode_within.
  - exists ls, s, ath. split_and!; auto. intros e. split; [apply (us_sent _ _ _ S) |]. intros Ei.
    assert (Hr := us_receiver _ _ _ S e). rewrite Ei in Hr. now inversion Hr.
  - intros e. assert (H1 := ct_callbacks _ _ _ K e). assert (H2 := ct_noticed _ _ _ K e). assert (H3 := ct_sent _ _ _ K (peer e)).
    unfold callbacks, transmissions in *. rewrite !count_visible in * by reflexivity.
    assert (noticed (counters_of vw m) e = sent (counters_of vw m) (peer e)) by apply Hseen. cbn [fst snd] in *.
    assert (0 <= to_send (ath (peer e, Sender))) by (destruct (ath (peer e, Sender)); cbn; lia).
    assert (0 <= to_report (ath (e, Receiver))) by (destruct (ath (e, Receiver)) as [| | [| []]]; cbn; lia). lia.
  - intros e es1 es2 r -> Hb. exact (reception_notices e es1 es2 r c C Hok Hseen He Hb).
Qed.

End Theorems.
