(* ===== verification/Init.v ===== *)
(** * Initialisation and release of instances

    Guards of the initialisation functions, the check of a channel's pools,
    population of a pool queue, and the life cycle of an instance. *)

From Stdlib Require Import Sorted.
From S2P Require Import Prelude Memory Types Queue QueueSpec World Shm ShmSpec Traffic RxLoop.
#[local] Open Scope Z_scope.

(** ** Pools of a configuration *)

Definition sum_bufs (ps : list ipc_shm_pool_cfg) : Z :=
  fold_right (fun p n => pc_num_bufs p + n) 0 ps.

(** Sizes do not decrease and the buffers fit the limit of a channel. *)
Definition pools_cfg_ok (ps : list ipc_shm_pool_cfg) : Prop :=
  Sorted Z.le (pc_buf_size <$> ps) /\ sum_bufs ps <= IPC_SHM_MAX_BUFS_PER_CHANNEL.

#[export] Instance sorted_le_dec (l : list Z) : Decision (Sorted Z.le l).
Proof.
  induction l as [|x l IH]; [left; constructor |].
  destruct IH as [H | H]; [| right; intros H'; inversion H'; auto].
  destruct l as [|y l]; [left; repeat constructor |].
  destruct (decide (x <= y)) as [Hle | Hle]; [left; constructor; auto |].
  right; intros H'; inversion H' as [|? ? _ Hh]; inversion Hh; auto.
Defined.

#[export] Instance pools_cfg_ok_dec ps : Decision (pools_cfg_ok ps).
Proof. unfold pools_cfg_ok. apply _. Defined.

Lemma sum_bufs_nonneg ps : Forall (fun p => 0 <= pc_num_bufs p < 65536) ps -> 0 <= sum_bufs ps.
Proof. unfold sum_bufs. induction 1; cbn [fold_right]; lia. Qed.

Section Init.
Context {P : Type} `{PL : Platform P} `{AP : App P}.
Implicit Types (w : world P) (i ch : Z).

Lemma total_bufs_loop_eval w : forall ps prev total,
  Forall (fun p => 0 <= pc_num_bufs p < 65536) ps -> 0 <= total <= IPC_SHM_MAX_BUFS_PER_CHANNEL ->
  total_bufs_loop (length ps) ps prev total w =
    Ret (if decide (Sorted Z.le (prev :: (pc_buf_size <$> ps)) /\
                    total + sum_bufs ps <= IPC_SHM_MAX_BUFS_PER_CHANNEL)
         then total + sum_bufs ps else 0) w.
Proof.
  induction ps as [|p ps IH]; intros prev total Hf Ht; cbn [length total_bufs_loop].
  - rewrite decide_True; [cbn; now rewrite Z.add_0_r |].
    split; [repeat constructor | cbn; lia].
  - inversion Hf as [|? ? Hp Hps]; subst. cbn [head tail]. rewrite cbind_copt.
    assert (Hs := sum_bufs_nonneg ps Hps). unfold IPC_SHM_MAX_BUFS_PER_CHANNEL, IPC_UINT16_MAX in *.
    destruct (Z.ltb_spec (pc_buf_size p) prev) as [Hlt | Hge].
    { rewrite decide_False; [reflexivity |]. intros [Hsort _]. cbn in Hsort.
      inversion Hsort as [|? ? _ Hh]. inversion Hh; lia. }
    rewrite u32_small by lia.
    destruct (Z.ltb_spec (0xFFFF - 1) (total + pc_num_bufs p)) as [Hbig | Hsmall].
    { rewrite decide_False; [reflexivity |]. intros [_ HT]. unfold sum_bufs in *.
      cbn [fold_right] in HT. lia. }
    rewrite IH by (auto; lia). f_equal. cbn [sum_bufs fold_right fmap list_fmap].
    fold (sum_bufs ps).
    case_decide as H1; case_decide as H2; [lia | exfalso; apply H2 | exfalso; apply H1 | lia].
    + destruct H1 as [HS HT]. split; [constructor; [exact HS | constructor; lia] | lia].
    + destruct H2 as [HS HT]. split; [now inversion HS | lia].
Qed.

(** ** Population of a pool queue *)

Definition free_bds (pool_id : Z) (from n : nat) : list ipc_shm_bd :=
  (fun j : nat => BD pool_id (Z.of_nat j) 0) <$> seq from n.

(** What a push may write of a ring: the write index and the slots. *)
Definition producer_area (l : link) (x : Z) : Prop :=
  range (l_prod l + RING_WRITE) 4 x \/ range (l_prod l + RING_DATA) (l_num l * l_size l) x.

(** A push needs its own direction only: the sentinels may still be unset. *)
Lemma push_link_room m q e :
  link_wf m (tx_link q) -> length e = Z.to_nat (elem_size q) ->
  Z.of_nat (length (contents m (tx_link q))) < elem_num q - 1 ->
  exists m', ipc_queue_push (Some q) (Some e) m = Ret 0 m' /\
    contents m' (tx_link q) = contents m (tx_link q) ++ [e] /\ link_wf m' (tx_link q) /\
    same_except (producer_area (tx_link q)) m m'.
Proof.
  intros Hwf He Hroom. assert (Hs := lw_shape _ _ Hwf). assert (Hn := ls_num _ _ Hs).
  assert (Hz := ls_size _ _ Hs). cbn [tx_link l_num l_size] in Hn, Hz.
  rewrite contents_length in Hroom by exact (proj1 Hn).
  assert (Hne : (link_write m (tx_link q) + 1) mod l_num (tx_link q) <> link_read m (tx_link q)).
  { intros Hf. apply succ_full in Hf; [| apply Hn | apply Hwf | apply Hwf].
    unfold link_count in Hroom. cbn [tx_link l_num] in *. lia. }
  rewrite (ipc_queue_push_eval q e m Hwf) by lia. cbv zeta.
  apply Z.eqb_neq in Hne as Hne'. rewrite Hne', take_ge by lia.
  destruct (push_result_link m (tx_link q) e Hwf He Hne) as [C W].
  exists (push_result m (tx_link q) e); split_and!; [reflexivity | exact C | exact W |].
  eapply same_except_mono; [| apply push_result_frame; assumption].
  intros x Hx. exact (push_footprint_ring m _ x Hwf Hx).
Qed.

Lemma populate_bds_eval q pool_id : forall n from w,
  link_wf (w_mem w) (tx_link q) -> elem_size q = SIZEOF_BD ->
  Z.of_nat (length (contents (w_mem w) (tx_link q))) + Z.of_nat n <= elem_num q - 1 ->
  exists m', populate_bds n q pool_id (Z.of_nat from) w = Ret 0 (with_mem w m') /\
    contents m' (tx_link q)
      = contents (w_mem w) (tx_link q) ++ (bd_encode <$> free_bds pool_id from n) /\
    link_wf m' (tx_link q) /\ same_except (producer_area (tx_link q)) (w_mem w) m'.
Proof.
  induction n as [|n IH]; intros from w Hq He Hroom; cbn [populate_bds].
  - exists (w_mem w). cbn. rewrite app_nil_r, with_mem_same. split_and!; auto; reflexivity.
  - destruct (push_link_room (w_mem w) q (bd_encode (BD pool_id (Z.of_nat from) 0)) Hq)
      as (m1 & E1 & C1 & W1 & F1); [now rewrite He | lia |].
    rewrite (cbind_Ret _ _ _ _ _ (on_mem_Ret _ _ _ _ E1)). cbn [Z.eqb negb].
    replace (Z.of_nat from + 1) with (Z.of_nat (S from)) by lia.
    destruct (IH (S from) (with_mem w m1) W1 He) as (m2 & E2 & C2 & W2 & F2).
    { cbn [with_mem w_mem]. rewrite C1, length_app. cbn [length]. lia. }
    exists m2. cbn [with_mem w_mem] in *. rewrite E2, C2, C1.
    split_and!; auto; [| etransitivity; eassumption].
    unfold free_bds. cbn [seq fmap list_fmap]. now rewrite <- app_assoc.
Qed.

(** ** Inversion of the accessors *)

Lemma get_priv_inv i w p w' : get_priv i w = Ret p w' -> w' = w /\ nthZ (w_priv w) i = Some p.
Proof. unfold get_priv. case_match; intros E; inversion E; auto. Qed.

Lemma set_priv_inv i p w u w' :
  set_priv i p w = Ret u w' ->
  w' = set_priv_data (setZ (w_priv w) i p) w /\ nthZ (w_priv w') i = Some p.
Proof.
  unfold set_priv. case_match eqn:Hp; intros E; inversion E; subst.
  split; [reflexivity |]. cbn. eapply nthZ_setZ; eauto.
Qed.

Lemma on_plat_inv {A} (c : M (memory * P) A) w a w' :
  on_plat c w = Ret a w' -> w_priv w' = w_priv w.
Proof. unfold on_plat, czoom. case_match; intros E; inversion E; auto. Qed.

Lemma on_mem_inv {A} (c : M memory A) w a w' :
  on_mem c w = Ret a w' -> w_priv w' = w_priv w /\ w_plat w' = w_plat w /\
  c (w_mem w) = Ret a (w_mem w').
Proof. unfold on_mem, czoom. case_match; intros E; inversion E; auto. Qed.

(** The address of the global structure of instance [i]. *)
Definition global_of (w : world P) (i : Z) : option Z := p_global <$> nthZ (w_priv w) i.

(** Operations that leave that address alone. *)
Definition keeps_global {A} (i : Z) (c : M (world P) A) : Prop :=
  forall w a w', c w = Ret a w' -> global_of w' i = global_of w i.

Lemma keeps_global_bind {A B} i (c : M (world P) A) (k : A -> M (world P) B) :
  keeps_global i c -> (forall a, keeps_global i (k a)) -> keeps_global i (cbind c k).
Proof.
  intros Hc Hk w b w' E. apply cbind_inv in E as (a & w1 & E1 & E2).
  rewrite (Hk _ _ _ _ E2). eauto.
Qed.

Lemma keeps_global_ret {A} i (a : A) : keeps_global i (cret a).
Proof. intros w b w' E; inversion E; reflexivity. Qed.

Lemma keeps_global_fault {A} i : keeps_global i (cfault (A := A)).
Proof. intros w b w' E; discriminate E. Qed.

Lemma keeps_global_opt {A} i (o : option A) : keeps_global i (copt o).
Proof. destruct o; [apply keeps_global_ret | apply keeps_global_fault]. Qed.

Lemma keeps_global_mem {A} i (c : M memory A) : keeps_global i (on_mem c).
Proof.
  intros w a w' E. apply on_mem_inv in E as (E & _). unfold global_of. now rewrite E.
Qed.

Lemma keeps_global_plat {A} i (c : M (memory * P) A) : keeps_global i (on_plat c).
Proof. intros w a w' E. apply on_plat_inv in E. unfold global_of. now rewrite E. Qed.

Lemma keeps_global_get_priv i j : keeps_global i (get_priv j).
Proof. intros w a w' E. apply get_priv_inv in E as [-> _]. reflexivity. Qed.

Lemma keeps_global_get_channel i j ch : keeps_global i (get_channel_priv j ch).
Proof.
  apply keeps_global_bind; [apply keeps_global_get_priv | intros; apply keeps_global_opt].
Qed.

Lemma keeps_global_set_channel i ch c : keeps_global i (set_channel_priv i ch c).
Proof.
  intros w a w' E. unfold set_channel_priv in E.
  apply cbind_inv in E as (p & w1 & E1 & E). apply get_priv_inv in E1 as [-> Hp].
  destruct (nthZ (p_channels p) ch); [| discriminate E]. rewrite cbind_copt in E.
  apply set_priv_inv in E as [_ Hp']. unfold global_of. now rewrite Hp, Hp'.
Qed.

#[local] Hint Resolve keeps_global_bind keeps_global_ret keeps_global_fault keeps_global_opt
  keeps_global_mem keeps_global_plat keeps_global_get_priv keeps_global_get_channel
  keeps_global_set_channel : ipc.

Lemma keeps_global_for {R} i n : forall lo (body : Z -> M (world P) (unit + R)),
  (forall j, keeps_global i (body j)) -> keeps_global i (cfor n lo body).
Proof.
  induction n as [|n IH]; intros lo body Hb; cbn [cfor]; auto with ipc.
  apply keeps_global_bind; [apply Hb |]. intros []; auto with ipc.
Qed.

(** Split along the structure of a monadic term. *)
Ltac keep_global :=
  repeat first
    [ assumption
    | solve [simple apply keeps_global_set_channel | simple apply keeps_global_get_channel
            | auto 2 with ipc nocore]
    | apply keeps_global_bind; [| intros ?]
    | apply keeps_global_for; intros ?
    | match goal with |- keeps_global _ (if ?b then _ else _) => destruct b end
    | match goal with |- keeps_global _ (match ?x with _ => _ end) => destruct x end ].

Lemma keeps_global_upd_mchan i ch f : keeps_global i (upd_mchan i ch f).
Proof. unfold upd_mchan. keep_global. Qed.

Lemma keeps_global_upd_uchan i ch f : keeps_global i (upd_uchan i ch f).
Proof. unfold upd_uchan. keep_global. Qed.

#[local] Hint Resolve keeps_global_upd_mchan keeps_global_upd_uchan keeps_global_for : ipc.

Lemma keeps_global_free_channel i ch t : keeps_global i (ipc_shm_free_channel i ch t).
Proof.
  unfold ipc_shm_free_channel, ipc_shm_free_managed_channel, set_bd_queue, set_pool, get_pool,
    umem_set. keep_global.
Qed.

Lemma keeps_global_free_channels i type_of :
  (forall j, keeps_global i (type_of j)) ->
  forall n ch, keeps_global i (free_channels n i ch type_of).
Proof.
  intros Ht. induction n as [|n IH]; intros ch; cbn [free_channels]; auto with ipc.
  apply keeps_global_bind; [apply Ht | intros t].
  apply keeps_global_bind; [apply keeps_global_free_channel | intros; apply IH].
Qed.


(** ** Life cycle *)

(** The configuration passes the checks of [ipc_shm_init_instance]. *)
Definition cfg_accepted (cfg : option ipc_shm_cfg) : Prop :=
  match cfg with
  | None => False
  | Some c => cfg_local_shm_addr c <> NULL /\ cfg_remote_shm_addr c <> NULL /\
              1 <= cfg_num_channels c <= IPC_SHM_MAX_CHANNELS
  end.

Lemma ipc_shm_init_instance_ready w i cfg w' :
  0 <= i < IPC_SHM_MAX_INSTANCES ->
  ipc_shm_init_instance i cfg w = Ret 0 w' ->
  cfg_accepted cfg /\ exists p, used w' i p /\
    uint_at 8 (w_mem w') (p_global p) = IPC_SHM_STATE_READY.
Proof.
  intros Hi E. unfold ipc_shm_init_instance in E.
  apply cbind_inv in E as (st & w0 & _ & E). destruct (decide _) in E; [discriminate E |].
  destruct cfg as [c |]; [| discriminate E].
  destruct (_ || _) eqn:Ea in E; [discriminate E |].
  destruct (_ || _) eqn:En in E; [discriminate E |].
  split; [bool_to_prop; cbn; split_and!; auto; lia |].
  do 2 apply cbind_inv in E as (? & ? & _ & E).
  apply cbind_inv in E as (e1 & ? & _ & E). destruct (i8 e1 =? 0) eqn:Z1; cbn [negb] in E.
  2: { inversion E as [[Hz]]. rewrite Hz in Z1. discriminate Z1. }
  apply cbind_inv in E as (e2 & ? & _ & E). destruct (i8 e2 =? 0) eqn:Z2; cbn [negb] in E.
  2: { apply cbind_inv in E as (? & ? & _ & E). inversion E as [[Hz]]. rewrite Hz in Z2.
       discriminate Z2. }
  do 4 apply cbind_inv in E as (? & ? & _ & E). cbv zeta in E.
  apply cbind_inv in E as (e3 & ? & _ & E). destruct (e3 =? 0) eqn:Z3; cbn [negb] in E.
  2: { inversion E as [[Hz]]. rewrite Hz in Z3. discriminate Z3. }
  apply cbind_inv in E as (? & w1 & _ & E). apply cbind_inv in E as (p & w2 & Ep & E).
  apply get_priv_inv in Ep as [-> Hp]. apply cbind_inv in E as (? & w3 & Es & E).
  inversion E; subst w3. unfold set_global_state in Es.
  apply on_mem_inv in Es as (Epr & _ & Es). apply write_uint_inv in Es as [Em Hm].
  exists p. rewrite Em. rewrite uint_at_set_same by (cbn; unfold IPC_SHM_STATE_READY; lia).
  split; [constructor | reflexivity]; auto.
  - now rewrite Epr.
  - intros Hn. rewrite Hn in Hm. discriminate Hm.
  - rewrite Em. exact Hm.
  - rewrite Em, uint_at_set_same by (cbn; unfold IPC_SHM_STATE_READY; lia). discriminate.
Qed.

Lemma ipc_shm_free_instance_unused w i p w' :
  used w i p -> ipc_shm_free_instance i w = Ret tt w' -> unused w' i.
Proof.
  intros Hu E. unfold ipc_shm_free_instance in E.
  rewrite (cbind_Ret _ _ _ _ _ (ipc_instance_is_free_used _ _ _ Hu)) in E.
  destruct (decide _) in E; [| congruence].
  do 2 apply cbind_inv in E as (? & ? & _ & E).
  apply cbind_inv in E as (? & w1 & Eg & E). unfold set_global in Eg.
  apply cbind_inv in Eg as (q & w2 & _ & Eg). apply set_priv_inv in Eg as [_ Hq].
  match type of E with ?c _ = _ => assert (K : keeps_global i c) end.
  { keep_global. apply keeps_global_free_channels. intros j. keep_global. }
  assert (G : global_of w' i = Some NULL).
  { rewrite (K _ _ _ E). unfold global_of. now rewrite Hq. }
  unfold global_of in G. destruct (nthZ (w_priv w') i) as [r |] eqn:Hr; [| discriminate G].
  right. exists r. split; [exact Hr |]. split; [apply Hu |]. left. now inversion G.
Qed.

(** Initialisation refuses a null configuration, a null address and a
    channel count outside 1 to 8 with -EINVAL before anything is written, mapped
    or registered; [ipc_shm_init] likewise refuses zero or more than four
    instances. *)
Lemma init_rejects_bad_cfg w i cfg :
  unused w i ->
  (~ cfg_accepted cfg -> ipc_shm_init_instance i cfg w = Ret (- EINVAL) w) /\
  ipc_shm_init None w = Ret (- EINVAL) w /\
  (forall c, ic_num_instances c = 0 \/ IPC_SHM_MAX_INSTANCES < ic_num_instances c ->
     ipc_shm_init (Some c) w = Ret (- EINVAL) w).
Proof.
  intros H. split_and!.
  - intros Hc. unfold ipc_shm_init_instance.
    destruct (ipc_instance_is_free_unused w i H) as (st & E & Hne).
    rewrite (cbind_Ret _ _ _ _ _ E), decide_False by exact Hne.
    destruct cfg as [c |]; [| reflexivity].
    destruct ((cfg_local_shm_addr c =? NULL) || _) eqn:E1; [reflexivity |].
    destruct ((cfg_num_channels c <? 1) || _) eqn:E2; [reflexivity |].
    exfalso. apply Hc. bool_to_prop. cbn. split_and!; auto; lia.
  - reflexivity.
  - intros c Hn. unfold ipc_shm_init.
    replace (_ || _) with true; [reflexivity |]. symmetry. apply orb_true_iff.
    rewrite Z.ltb_lt, Z.eqb_eq. tauto.
Qed.

(** The check of a channel's pools is exact: the total number of buffers
    is returned when the buffer sizes do not decrease and the total is within
    the limit of a channel, and 0 (refusal) otherwise; 32-bit wrap-around cannot
    hide an excess. *)
Lemma total_bufs_check_exact w ps :
  Forall (fun p => 0 <= pc_num_bufs p < 65536 /\ 0 <= pc_buf_size p) ps ->
  total_bufs_loop (length ps) ps 0 0 w =
    Ret (if decide (pools_cfg_ok ps) then sum_bufs ps else 0) w.
Proof.
  intros Hf. rewrite total_bufs_loop_eval.
  - f_equal. unfold pools_cfg_ok. rewrite Z.add_0_l.
    case_decide as H1; case_decide as H2; auto; exfalso; [apply H2 | apply H1].
    + destruct H1 as [HS HT]. split; [now inversion HS | exact HT].
    + destruct H2 as [HS HT]. split; [| exact HT]. constructor; [exact HS |].
      destruct Hf as [|p ps Hp _]; constructor. apply Hp.
  - eapply Forall_impl; [| exact Hf]. cbv beta; tauto.
  - unfold IPC_SHM_MAX_BUFS_PER_CHANNEL, IPC_UINT16_MAX. lia.
Qed.

(** C25: life cycle of an instance: initialisation succeeds only for a
    configuration with non-null addresses and 1 to 8 channels, and then the
    instance is in use with its state word READY; any other configuration is
    refused with -EINVAL before anything is written, mapped or registered, and
    [ipc_shm_init] likewise refuses zero or more than four instances; initialising
    an instance in use is refused with -EINVAL and changes nothing; after it has
    been freed it is not in use any more, so that it can be initialised again.
    The check of a channel's pools is exact: the total number of buffers is
    returned when the buffer sizes do not decrease and the total is within the
    limit of a channel, and 0 (refusal) otherwise; 32-bit wrap-around cannot hide
    an excess. *)
Theorem instance_life_cycle w i cfg :
  0 <= i < IPC_SHM_MAX_INSTANCES ->
  (forall w', ipc_shm_init_instance i cfg w = Ret 0 w' ->
     cfg_accepted cfg /\ exists p, used w' i p /\
       uint_at 8 (w_mem w') (p_global p) = IPC_SHM_STATE_READY) /\
  (unused w i ->
     (~ cfg_accepted cfg -> ipc_shm_init_instance i cfg w = Ret (- EINVAL) w) /\
     ipc_shm_init None w = Ret (- EINVAL) w /\
     (forall c, ic_num_instances c = 0 \/ IPC_SHM_MAX_INSTANCES < ic_num_instances c ->
        ipc_shm_init (Some c) w = Ret (- EINVAL) w)) /\
  (forall p, used w i p -> ipc_shm_init_instance i cfg w = Ret (- EINVAL) w) /\
  (forall p w', used w i p -> ipc_shm_free_instance i w = Ret tt w' -> unused w' i) /\
  (forall ps, Forall (fun p => 0 <= pc_num_bufs p < 65536 /\ 0 <= pc_buf_size p) ps ->
     total_bufs_loop (length ps) ps 0 0 w =
       Ret (if decide (pools_cfg_ok ps) then sum_bufs ps else 0) w).
Proof.
  intros Hi. split_and!.
  - intros w' E. now apply ipc_shm_init_instance_ready in E.
  - apply init_rejects_bad_cfg.
  - intros p Hu. unfold ipc_shm_init_instance.
    rewrite (cbind_Ret _ _ _ _ _ (ipc_instance_is_free_used _ _ _ Hu)).
    now rewrite decide_True.
  - intros p w' Hu E. eapply ipc_shm_free_instance_unused; eauto.
  - apply total_bufs_check_exact.
Qed.

End Init.
