(* ===== verification/Boot.v ===== *)
(** * Start-up of managed channels

    What [managed_channel_init] builds: the layout of a channel in its half of
    shared memory, computed by [chan_at], and the state of its rings.  Two ends
    that initialise the same channel one after the other reach the state in
    which traffic starts: well-formed queues, all buffers free. *)

From S2P Require Import Prelude Memory Types Queue QueueSpec World Shm ShmSpec Traffic Delivery.
From S2P Require Import Ownership RxLoop Init.
#[local] Open Scope Z_scope.

(** ** Rings after initialisation *)

(** The producer's ring of [l] is marked, holds [es] from slot 0 on, and has its
    read index at 0. *)
Record ring_up (m : memory) (l : link) (es : list (list Z)) : Prop := {
  ru_done : ring_done m (l_prod l);
  ru_write : link_write m l = Z.of_nat (length es);
  ru_read : uint_at 4 m (l_prod l + RING_READ) = 0;
  ru_slots : forall (j : nat) e, es !! j = Some e -> slot m l (Z.of_nat j) = e
}.

(** The remote ring as an initialising end may find it: untouched, or set up by
    the peer with [n] elements, the read index at 0 in both cases. *)
Definition peer_ring (m : memory) (r n : Z) : Prop :=
  uint_at 4 m (r + RING_READ) = 0 /\
  (uint_at 8 m (r + RING_SENTINEL) <> IPC_QUEUE_INIT_IN_PROGRESS /\
   uint_at 8 m (r + RING_SENTINEL) <> IPC_QUEUE_INIT_DONE \/
   ring_done m r /\ uint_at 4 m (r + RING_WRITE) = n).

Lemma ring_up_frame F m m' l es :
  same_except F m m' -> 0 < l_size l -> Z.of_nat (length es) <= l_num l ->
  (forall x, range (l_prod l) (ring_bytes l) x -> ~ F x) ->
  ring_up m l es -> ring_up m' l es.
Proof.
  intros HF Hz Hn Hd [D W R S].
  assert (Hh : forall off k, 0 <= off -> off + k <= RING_SIZE ->
    forall x, range (l_prod l + off) k x -> ~ F x).
  { intros off k Ho Hk x Hx. apply Hd. unfold range, ring_bytes in *. nia. }
  constructor.
  - unfold ring_done in *. rewrite <- D. apply (same_except_uint F); [exact HF |]. now apply Hh.
  - rewrite <- W. apply (same_except_uint F); [exact HF |]. now apply Hh.
  - rewrite <- R. apply (same_except_uint F); [exact HF |]. now apply Hh.
  - intros j e Hj. rewrite <- (S j e Hj). apply (same_except_load F); [exact HF |].
    intros x Hx. apply Hd. apply lookup_lt_Some in Hj.
    destruct (slot_in_ring l (Z.of_nat j)) as [H1 H2]; [lia | lia |].
    unfold range, RING_DATA in *. lia.
Qed.

(** A direction whose ring is up and whose consumer stands at 0 holds [es]. *)
Lemma ring_up_contents m l es :
  ring_up m l es -> link_read m l = 0 -> Z.of_nat (length es) < l_num l -> contents m l = es.
Proof.
  intros [_ W _ S] R Hn. unfold contents, link_count. rewrite W, R, Z.sub_0_r, Z.mod_small by lia.
  rewrite Nat2Z.id. apply list_eq_same_length with (length es);
    [reflexivity | now rewrite length_fmap, length_seq |].
  intros j x y Hj Hx Hy. rewrite list_lookup_fmap, lookup_seq_lt in Hx by exact Hj.
  injection Hx as <-. rewrite Z.mod_small by lia. now apply S.
Qed.

Lemma contents_slots m l es :
  contents m l = es -> link_read m l = 0 -> 0 < l_num l ->
  forall (j : nat) e, es !! j = Some e -> slot m l (Z.of_nat j) = e.
Proof.
  intros <- R Hn j e Hj. unfold contents in Hj. rewrite list_lookup_fmap in Hj.
  destruct (seq _ _ !! j) as [k |] eqn:Hk; [| discriminate Hj]. injection Hj as <-.
  apply lookup_seq in Hk as [-> Hk]. rewrite R. f_equal. cbn [Nat.add]. rewrite Z.add_0_l.
  symmetry. apply Z.mod_small. assert (H := count_range (link_write m l) (link_read m l) _ Hn).
  unfold link_count in Hk. lia.
Qed.

(** Both rings up: the queue is in order. *)
Lemma rings_up_queue m q es fs :
  link_shape m (tx_link q) -> Z.of_nat (length es) < elem_num q -> Z.of_nat (length fs) < elem_num q ->
  ring_up m (tx_link q) es -> ring_up m (rx_link q) fs ->
  queue_wf m q /\ contents m (tx_link q) = es /\ contents m (rx_link q) = fs.
Proof.
  intros Hs He Hf Ue Uf.
  assert (Re : link_read m (tx_link q) = 0) by exact (ru_read _ _ _ Uf).
  assert (Rf : link_read m (rx_link q) = 0) by exact (ru_read _ _ _ Ue).
  split_and!; try (now apply ring_up_contents).
  constructor; [constructor | constructor | apply Ue | apply Uf];
    try apply link_shape_mirror; auto; rewrite ?Re, ?Rf, ?(ru_write _ _ _ Ue), ?(ru_write _ _ _ Uf);
    cbn [tx_link rx_link l_num]; lia.
Qed.

(** ** Initialisation of one queue *)

(** Elements a ring starts with, for the type of its queue. *)
Definition initial_count (d : ipc_queue_data) : Z :=
  match qd_queue_type d with IPC_SHM_CHANNEL_QUEUE => 0 | _ => qd_elem_num d end.

Lemma ipc_queue_init_peer q0 d m :
  init_ok m d -> peer_ring m (qd_pop_addr d) (initial_count d) ->
  ipc_queue_init (Some q0) d m
    = Ret (0, Some (init_queue d)) (sync_result m (qd_push_addr d) 0 0).
Proof.
  intros H [R [[N1 N2] | [D W]]].
  - rewrite ipc_queue_init_eval by exact H. cbv zeta.
    apply Z.eqb_neq in N1 as ->. apply Z.eqb_neq in N2 as ->. reflexivity.
  - rewrite ipc_queue_init_live, R by assumption. do 2 f_equal.
    assert (Hn := io_num _ _ H). unfold sync_read, initial_count in *.
    destruct (io_type _ _ H) as [T | T]; rewrite T in *; rewrite W.
    + apply Zmod_0_l.
    + rewrite u32_small by lia. now apply Z.mod_same; lia.
Qed.

(** Indexes of the two rings right after. *)
Lemma sync_result_link m d :
  init_ok m d -> uint_at 4 m (qd_pop_addr d + RING_READ) = 0 ->
  let m1 := sync_result m (qd_push_addr d) 0 0 in
  let l := tx_link (init_queue d) in
  link_wf m1 l /\ link_write m1 l = 0 /\ link_read m1 l = 0 /\
  uint_at 4 m1 (qd_push_addr d + RING_READ) = 0 /\
  same_except (range (qd_push_addr d) RING_SIZE) m m1.
Proof.
  intros H R m1 l. assert (HF := sync_result_frame m (qd_push_addr d) 0 0). fold m1 in HF.
  destruct (sync_result_fields m (qd_push_addr d) 0 0) as (_ & W & V); [lia .. |]. fold m1 in W, V.
  assert (Er : link_read m1 l = 0).
  { rewrite <- R. apply (same_except_uint _ _ _ _ _ HF). intros x Hx Hx'.
    change (range (qd_pop_addr d + RING_READ) 4 x) in Hx.
    destruct (header_disjoint m d RING_READ 4 H); unfold range, RING_READ, RING_SIZE in *; lia. }
  split_and!; auto. constructor.
  - eapply same_except_shape; [exact HF | apply H].
  - change (link_write m1 l) with (uint_at 4 m1 (qd_push_addr d + RING_WRITE)).
    rewrite W. cbn. assert (Hn := io_num _ _ H). lia.
  - rewrite Er. cbn. assert (Hn := io_num _ _ H). lia.
Qed.

(** Marking a ring leaves everything but its sentinel. *)
Lemma mark_done_up m l es :
  link_write m l = Z.of_nat (length es) -> uint_at 4 m (l_prod l + RING_READ) = 0 ->
  (forall (j : nat) e, es !! j = Some e -> slot m l (Z.of_nat j) = e) ->
  0 < l_size l -> ring_up (mark_done (l_prod l) m) l es.
Proof.
  intros W R S Hz. assert (HF := mark_done_frame (l_prod l) m).
  constructor; [apply mark_done_sentinel | rewrite <- W | rewrite <- R |].
  - apply (same_except_uint _ _ _ _ _ HF). unfold range, RING_WRITE. intros; lia.
  - apply (same_except_uint _ _ _ _ _ HF). unfold range, RING_READ. intros; lia.
  - intros j e Hj. rewrite <- (S j e Hj). apply (same_except_load _ _ _ _ _ HF).
    unfold slot_addr, range, RING_DATA. intros; nia.
Qed.

(** The channel queue: rings set up empty. *)
Lemma channel_queue_up q0 d m :
  init_ok m d -> qd_queue_type d = IPC_SHM_CHANNEL_QUEUE -> peer_ring m (qd_pop_addr d) 0 ->
  let m1 := sync_result m (qd_push_addr d) 0 0 in
  let m2 := mark_done (qd_push_addr d) m1 in
  ipc_queue_init (Some q0) d m = Ret (0, Some (init_queue d)) m1 /\
  ring_up m2 (tx_link (init_queue d)) [] /\
  same_except (range (qd_push_addr d) RING_SIZE) m m2.
Proof.
  intros H T Hp m1 m2. destruct (sync_result_link m d H (proj1 Hp)) as (_ & W & _ & V & F).
  fold m1 in W, V, F. split_and!.
  - apply ipc_queue_init_peer; [exact H |]. unfold initial_count. now rewrite T.
  - apply (mark_done_up m1 (tx_link (init_queue d))); auto; [intros j e Hj; discriminate Hj |].
    cbn. assert (Hz := io_size _ _ H). lia.
  - etransitivity; [exact F |]. eapply same_except_mono; [| apply mark_done_frame].
    unfold range, RING_SIZE. intros; lia.
Qed.

(** ** Layout of a channel *)

(** Bytes of a ring of [n] descriptors, of a pool and of a channel. *)
Definition ring_span (n : Z) : Z := RING_SIZE + (n + 1) * SIZEOF_BD.
Definition pool_span (pc : ipc_shm_pool_cfg) : Z :=
  ring_span (pc_num_bufs pc) + pc_buf_size pc * pc_num_bufs pc.
Fixpoint pools_span (ps : list ipc_shm_pool_cfg) : Z :=
  match ps with
  | [] => 0
  | pc :: ps => pool_span pc + pools_span ps
  end.
Definition chan_span (ps : list ipc_shm_pool_cfg) : Z := ring_span (sum_bufs ps) + pools_span ps.

(** The pools one after the other from [l] (local) and [r] (remote) on, each
    with its ring first and its buffers behind. *)
Definition pool_at (l r : Z) (pc : ipc_shm_pool_cfg) : ipc_shm_pool :=
  let n := pc_num_bufs pc in
  Pool n (pc_buf_size pc) (pool_span pc) (l + ring_span n) (r + ring_span n)
    (Queue SIZEOF_BD (n + 1) l r).
Fixpoint pools_at (l r : Z) (ps : list ipc_shm_pool_cfg) : list ipc_shm_pool :=
  match ps with
  | [] => []
  | pc :: ps => pool_at l r pc :: pools_at (l + pool_span pc) (r + pool_span pc) ps
  end.

(** A channel at [l] and [r]: its queue, then its pools; [old] are the pools of
    the structure before. *)
Definition chan_at (l r : Z) (cfg : ipc_shm_managed_cfg) (ps : list ipc_shm_pool_cfg)
    (old : list ipc_shm_pool) : ipc_managed_channel :=
  let s := ring_span (sum_bufs ps) in
  MChan (Queue SIZEOF_BD (sum_bufs ps + 1) l r) (mc_num_pools cfg)
    (pools_at (l + s) (r + s) ps ++ drop (length ps) old) (mc_rx_cb cfg) (mc_cb_arg cfg).

(** Pool configurations without overflow. *)
Definition pool_cfg_ok (pc : ipc_shm_pool_cfg) : Prop :=
  0 < pc_num_bufs pc <= IPC_SHM_MAX_BUFS_PER_POOL /\ 0 < pc_buf_size pc.

(** A channel configuration [managed_channel_init] accepts, of less than 4 GiB. *)
Record mcfg_ok (cfg : ipc_shm_managed_cfg) (ps : list ipc_shm_pool_cfg) : Prop := {
  mk_cb : mc_rx_cb cfg <> NULL;
  mk_pools : mc_pools cfg = Some ps;
  mk_num : mc_num_pools cfg = Z.of_nat (length ps);
  mk_len : (0 < length ps <= 4)%nat;
  mk_each : Forall pool_cfg_ok ps;
  mk_total : pools_cfg_ok ps;
  mk_span : chan_span ps < 2 ^ 32
}.

(** Two halves of [n] bytes, mapped and apart. *)
Record halves (m : memory) (l r n : Z) : Prop := {
  hv_local : mapped m l n = true;
  hv_remote : mapped m r n = true;
  hv_disj : disjoint_ranges l n r n;
  hv_top : l + n < 2 ^ 64 /\ r + n < 2 ^ 64
}.

Lemma halves_sub m l r n off k :
  halves m l r n -> 0 <= off -> 0 <= k -> off + k <= n -> halves m (l + off) (r + off) k.
Proof.
  intros [Hl Hr Hd Ht] Ho Hk Hn. constructor; [| | unfold disjoint_ranges in *; lia | lia].
  - eapply mapped_sub; [exact Hl | lia | lia].
  - eapply mapped_sub; [exact Hr | lia | lia].
Qed.

Lemma halves_frame F m m' l r n : same_except F m m' -> halves m l r n -> halves m' l r n.
Proof.
  intros HF [Hl Hr Hd Ht]. constructor; auto; now rewrite (same_except_mapped _ _ _ _ _ HF).
Qed.

Lemma halves_pos m l r n : halves m l r n -> 0 < l /\ 0 < r.
Proof.
  intros [Hl Hr _ _]. unfold mapped in *. apply andb_true_iff in Hl as [Hl _].
  apply andb_true_iff in Hr as [Hr _]. bool_to_prop. lia.
Qed.

Lemma halves_swap m l r n : halves m l r n -> halves m r l n.
Proof. intros [Hl Hr Hd Ht]. constructor; auto; [unfold disjoint_ranges in *; lia | lia]. Qed.

Lemma halves_link m l r n :
  halves m l r (ring_span n) -> 0 < n < 65535 -> link_shape m (tx_link (Queue SIZEOF_BD (n + 1) l r)).
Proof.
  intros [Hl Hr Hd _] Hn. unfold SIZEOF_BD in *.
  constructor; auto; cbn [tx_link l_num l_size elem_num elem_size]; lia.
Qed.

Lemma ring_span_pos n : 0 <= n -> 24 <= ring_span n.
Proof. unfold ring_span, RING_SIZE, SIZEOF_BD. lia. Qed.

Lemma pool_span_bounds pc :
  pool_cfg_ok pc -> ring_span (pc_num_bufs pc) + pc_num_bufs pc * pc_buf_size pc = pool_span pc /\
    24 <= ring_span (pc_num_bufs pc) /\ 0 < pc_num_bufs pc * pc_buf_size pc.
Proof.
  intros [Hn Hz]. assert (H := ring_span_pos (pc_num_bufs pc)). unfold pool_span. split_and!; nia.
Qed.

Lemma pools_span_nonneg ps : Forall pool_cfg_ok ps -> 0 <= pools_span ps.
Proof.
  induction 1 as [|pc ps H _ IH]; cbn [pools_span]; [lia |].
  assert (Hb := pool_span_bounds pc H). lia.
Qed.

Lemma pools_span_le ps j :
  Forall pool_cfg_ok ps -> 0 <= pools_span (take j ps) <= pools_span ps.
Proof.
  intros H. revert j; induction H as [|pc ps Hp _ IH]; intros [|j]; cbn [take pools_span]; [lia .. | |];
    assert (Hb := pool_span_bounds pc Hp); [specialize (IH 0%nat); cbn in IH | specialize (IH j)]; lia.
Qed.

Lemma pools_at_length l r ps : length (pools_at l r ps) = length ps.
Proof. revert l r; induction ps as [|pc ps IH]; intros; cbn [pools_at length]; auto. Qed.

Lemma mem_size_span n l r :
  0 <= n < 65535 -> ipc_queue_mem_size (Queue SIZEOF_BD (n + 1) l r) = ring_span n.
Proof.
  intros Hn. unfold ipc_queue_mem_size, ring_span, RING_SIZE, SIZEOF_BD.
  cbn [elem_num elem_size]. rewrite !u32_small by (rewrite ?u32_small; lia). reflexivity.
Qed.

Lemma i16_id z : -32768 <= z < 32768 -> i16 z = z.
Proof. intros. unfold i16. rewrite Z.mod_small by lia. lia. Qed.

(** ** Ring state of the pools *)

Fixpoint pools_up (m : memory) (id : Z) (ps : list ipc_shm_pool) : Prop :=
  match ps with
  | [] => True
  | p :: ps =>
      ring_up m (tx_link (pool_bd_queue p)) (bd_encode <$> free_bds id 0 (Z.to_nat (num_bufs p)))
      /\ pools_up m (id + 1) ps
  end.

Definition peer_pools (m : memory) (ps : list ipc_shm_pool) : Prop :=
  Forall (fun p => peer_ring m (pop_ring (pool_bd_queue p)) (num_bufs p)) ps.

Lemma peer_ring_frame F m m' r n :
  same_except F m m' -> (forall x, range r RING_SIZE x -> ~ F x) ->
  peer_ring m r n -> peer_ring m' r n.
Proof.
  intros HF Hd. assert (Hh : forall off k, 0 <= off -> off + Z.of_nat k <= RING_SIZE ->
    uint_at k m' (r + off) = uint_at k m (r + off)).
  { intros off k Ho Hk. apply (same_except_uint F); [exact HF |].
    intros x Hx. apply Hd. unfold range in *. lia. }
  unfold peer_ring, ring_done. now rewrite !Hh by easy.
Qed.

(** The [j]-th pool sits behind the first [j]. *)
Lemma pools_at_lookup l r ps j :
  pools_at l r ps !! j
    = (fun pc => let s := pools_span (take j ps) in pool_at (l + s) (r + s) pc) <$> ps !! j.
Proof.
  revert l r j; induction ps as [|pc ps IH]; intros l r [|j]; cbn [pools_at take pools_span];
    try reflexivity.
  - cbn. now rewrite !Z.add_0_r.
  - change ((pc :: ps) !! S j) with (ps !! j).
    change ((?x :: ?y) !! S j) with (y !! j). rewrite IH.
    destruct (ps !! j); [| reflexivity]. cbn [fmap option_fmap option_map]. cbv zeta.
    now rewrite !Z.add_assoc.
Qed.

Lemma pools_span_take ps i j pc :
  Forall pool_cfg_ok ps -> ps !! i = Some pc -> (i < j)%nat ->
  0 <= pools_span (take i ps) /\
  pools_span (take i ps) + pool_span pc <= pools_span (take j ps) <= pools_span ps.
Proof.
  intros Hok. revert i j; induction Hok as [|x ps Hx Hps IH]; intros [|i] [|j] Hi Hij; try easy; try lia;
    cbn [take pools_span].
  - injection Hi as ->. assert (H := pools_span_nonneg (take j ps) (Forall_take _ _ _ Hps)).
    split; [lia |]. destruct (pools_span_le ps j Hps). lia.
  - assert (Hs := pool_span_bounds x Hx). destruct (IH i j Hi) as [H1 H2]; lia.
Qed.

Lemma peer_pools_frame F m m' l r ps :
  same_except F m m' -> Forall pool_cfg_ok ps ->
  (forall x, range r (pools_span ps) x -> ~ F x) ->
  peer_pools m (pools_at l r ps) -> peer_pools m' (pools_at l r ps).
Proof.
  intros HF Hok Hd Hp. apply Forall_lookup. intros j x Hx.
  eapply peer_ring_frame; [exact HF | | exact (proj1 (Forall_lookup _ _) Hp j x Hx)].
  rewrite pools_at_lookup in Hx. destruct (ps !! j) as [pc |] eqn:Hj; [| discriminate Hx].
  injection Hx as <-. intros y Hy. apply Hd.
  destruct (pools_span_take ps j (S j) pc Hok Hj) as [H1 H2]; [lia |].
  destruct (pool_span_bounds pc) as (Es & Hr & Hb).
  { eapply Forall_lookup; eauto. }
  cbn [pool_at pool_bd_queue pop_ring] in Hy. unfold range, RING_SIZE in *. lia.
Qed.

(** Writing a list into an array from index [id] on. *)
Fixpoint place {A} (id : Z) (xs old : list A) : list A :=
  match xs with
  | [] => old
  | x :: xs => place (id + 1) xs (setZ old id x)
  end.

Lemma place_eq {A} (xs : list A) : forall (n : nat) old,
  (n + length xs <= length old)%nat ->
  place (Z.of_nat n) xs old = take n old ++ xs ++ drop (n + length xs) old.
Proof.
  induction xs as [|x xs IH]; intros n old Hl; cbn [place length app] in *.
  { now rewrite Nat.add_0_r, take_drop. }
  replace (Z.of_nat n + 1) with (Z.of_nat (S n)) by lia. unfold setZ. rewrite Nat2Z.id.
  rewrite IH by (rewrite length_insert; lia).
  rewrite (take_S_r _ n x) by (apply list_lookup_insert_eq; lia).
  rewrite take_insert_ge, drop_insert_lt, <- app_assoc by lia. cbn [app].
  do 4 f_equal. lia.
Qed.

(** ** One end *)

Section OneEnd.
Context {P : Type} `{PL : Platform P} `{LW : !PlatformLaws P} `{AP : App P}.

(** The pool queue: populated with the descriptors of the pool, then marked. *)
Lemma pool_queue_up q0 d m id :
  init_ok m d -> qd_queue_type d = IPC_SHM_POOL_QUEUE -> qd_elem_size d = SIZEOF_BD ->
  peer_ring m (qd_pop_addr d) (qd_elem_num d) ->
  let q := init_queue d in
  let m1 := sync_result m (qd_push_addr d) 0 0 in
  ipc_queue_init (Some q0) d m = Ret (0, Some q) m1 /\
  forall w : world P, w_mem w = m1 ->
  exists m2, populate_bds (Z.to_nat (qd_elem_num d)) q id 0 w = Ret 0 (with_mem w m2) /\
    mem_regions m2 = mem_regions m /\
    ring_up (mark_done (qd_push_addr d) m2) (tx_link q)
      (bd_encode <$> free_bds id 0 (Z.to_nat (qd_elem_num d))) /\
    same_except (range (qd_push_addr d) (ring_span (qd_elem_num d))) m
      (mark_done (qd_push_addr d) m2).
Proof.
  intros H T Ez Hp q m1. destruct (sync_result_link m d H (proj1 Hp)) as (L & W & R & V & F).
  fold m1 q in L, W, R, V, F. assert (Hn := io_num _ _ H). split.
  { apply ipc_queue_init_peer; [exact H |]. unfold initial_count. now rewrite T. }
  intros w Ew. rewrite <- Ew in L.
  assert (C0 : contents (w_mem w) (tx_link q) = []).
  { rewrite Ew. apply contents_empty; [cbn; lia |]. now rewrite W, R. }
  destruct (populate_bds_eval q id (Z.to_nat (qd_elem_num d)) 0 w L Ez) as (m2 & E & C & L2 & F2).
  { rewrite C0. cbn [length q init_queue elem_num]. lia. }
  rewrite C0, Ew in *. cbn [app] in C. exists m2. split; [exact E |].
  assert (HA : forall x, producer_area (tx_link q) x ->
            range (qd_push_addr d) (ring_span (qd_elem_num d)) x /\
            qd_push_addr d + RING_SENTINEL + 8 <= x /\ ~ range (qd_push_addr d + RING_READ) 4 x).
  { unfold producer_area, range, ring_span, RING_WRITE, RING_DATA, RING_READ, RING_SIZE, RING_SENTINEL.
    cbn [tx_link q init_queue l_prod l_num l_size push_ring elem_num elem_size]. rewrite Ez.
    unfold SIZEOF_BD. intros; lia. }
  assert (R2 : link_read m2 (tx_link q) = 0).
  { rewrite <- R. apply (same_except_uint _ _ _ _ _ F2). intros x Hx Hx'. apply HA in Hx' as [Hx' _].
    assert (Hd := ls_disj _ _ (io_shape _ _ H)).
    unfold disjoint_ranges, ring_bytes, range, ring_span, RING_SIZE, RING_READ in *.
    cbn [tx_link q init_queue l_prod l_cons l_num l_size pop_ring] in *. rewrite Ez in Hd.
    unfold SIZEOF_BD in *. lia. }
  split_and!.
  - rewrite (proj1 F2), (proj1 F). reflexivity.
  - apply (mark_done_up m2 (tx_link q)); [| | | cbn; rewrite Ez; unfold SIZEOF_BD; lia].
    + assert (HC := contents_length m2 (tx_link q)). rewrite C in HC. rewrite HC by (cbn; lia).
      unfold link_count. rewrite R2, Z.sub_0_r. symmetry. apply Z.mod_small, L2.
    + rewrite <- V. apply (same_except_uint _ _ _ _ _ F2). intros x Hx Hx'.
      apply HA in Hx' as (_ & _ & Hx'). exact (Hx' Hx).
    + apply contents_slots; [exact C | exact R2 | cbn; lia].
  - etransitivity; [eapply same_except_mono; [| exact F] |
      etransitivity; [eapply same_except_mono; [| exact F2] |
        eapply same_except_mono; [| apply mark_done_frame]]].
    + intros x. unfold range, ring_span, SIZEOF_BD. lia.
    + intros x Hx. apply HA, Hx.
    + intros x. unfold range, ring_span, RING_SIZE, SIZEOF_BD. lia.
Qed.

(** *** The channel under initialisation

    Everything but the memory and the managed channel [c] stays as it is. *)
Context (pr : list ipc_shm_priv) (pl : P) (i ch : Z) (p : ipc_shm_priv) (k : ipc_shm_channel).
Context (Hpr : nthZ pr i = Some p) (Hk : nthZ (p_channels p) ch = Some k).
Context (Ht : ch_type k = IPC_SHM_MANAGED) (Hch : ch < p_num_channels p).

Definition priv_with (c : ipc_managed_channel) : ipc_shm_priv :=
  Priv (p_shm_size p) (p_num_channels p) (setZ (p_channels p) ch (set_mng k c)) (p_global p).
Definition at_chan (m : memory) (c : ipc_managed_channel) : world P :=
  World m (setZ pr i (priv_with c)) pl.

Lemma at_chan_priv m c : nthZ (w_priv (at_chan m c)) i = Some (priv_with c).
Proof. eapply nthZ_setZ; eauto. Qed.

Lemma at_chan_managed c : has_managed (priv_with c) ch c.
Proof.
  split; [apply nthZ_Some in Hk as [? _]; cbn; lia |].
  exists (set_mng k c). split_and!; auto. eapply nthZ_setZ; eauto.
Qed.

Lemma at_chan_get_channel m c : get_channel_priv i ch (at_chan m c) = Ret (set_mng k c) (at_chan m c).
Proof.
  eapply get_channel_priv_eval; [apply at_chan_priv |]. cbn. eapply nthZ_setZ; eauto.
Qed.

Lemma set_mng_twice c c' : set_mng (set_mng k c) c' = set_mng k c'.
Proof. reflexivity. Qed.

Lemma set_channel_priv_eval (w : world P) q x y :
  nthZ (w_priv w) i = Some q -> nthZ (p_channels q) ch = Some x ->
  set_channel_priv i ch y w
    = Ret tt (set_priv_data (setZ (w_priv w) i
        (Priv (p_shm_size q) (p_num_channels q) (setZ (p_channels q) ch y) (p_global q))) w).
Proof.
  intros Hq Hx. unfold set_channel_priv.
  rewrite (cbind_Ret _ _ _ _ _ (get_priv_eval _ _ _ Hq)), Hx, cbind_copt.
  unfold set_priv. now rewrite Hq.
Qed.

Lemma at_chan_upd m c f : upd_mchan i ch f (at_chan m c) = Ret tt (at_chan m (f c)).
Proof.
  unfold upd_mchan. rewrite (cbind_Ret _ _ _ _ _ (at_chan_get_channel m c)).
  rewrite (set_channel_priv_eval _ (priv_with c) (set_mng k c));
    [| apply at_chan_priv | cbn; eapply nthZ_setZ; eauto].
  unfold at_chan, set_priv_data, priv_with, setZ. cbn.
  now rewrite !list_insert_insert_eq.
Qed.

Lemma at_chan_start m f :
  upd_mchan i ch f (World m pr pl) = Ret tt (at_chan m (f (ch_mng k))).
Proof.
  unfold upd_mchan.
  rewrite (cbind_Ret _ _ _ _ _ (get_channel_priv_eval (World m pr pl) _ _ _ _ Hpr Hk)).
  now rewrite (set_channel_priv_eval (World m pr pl) p k).
Qed.

(** Pool [id] replaced. *)
Definition with_pool (c : ipc_managed_channel) (id : Z) (x : ipc_shm_pool) : ipc_managed_channel :=
  MChan (bd_queue c) (num_pools c) (setZ (pools c) id x) (m_rx_cb c) (m_cb_arg c).

Lemma at_chan_get_pool m c id x :
  nthZ (pools c) id = Some x -> get_pool i ch id (at_chan m c) = Ret x (at_chan m c).
Proof.
  intros Hx. unfold get_pool. rewrite (cbind_Ret _ _ _ _ _ (at_chan_get_channel m c)).
  cbn [set_mng ch_mng]. now rewrite Hx.
Qed.

Lemma at_chan_set_pool m c id x y :
  nthZ (pools c) id = Some x -> set_pool i ch id y (at_chan m c) = Ret tt (at_chan m (with_pool c id y)).
Proof.
  intros Hx. unfold set_pool. rewrite (cbind_Ret _ _ _ _ _ (at_chan_get_pool _ _ _ _ Hx)).
  apply at_chan_upd.
Qed.

Lemma with_pool_twice c id x y : with_pool (with_pool c id x) id y = with_pool c id y.
Proof. unfold with_pool, setZ. cbn. now rewrite list_insert_insert_eq. Qed.

Lemma at_chan_mem {A} (f : M memory A) m c a m' :
  f m = Ret a m' -> on_mem f (at_chan m c) = Ret a (at_chan m' c).
Proof. intros E. exact (on_mem_Ret f (at_chan m c) a m' E). Qed.

Lemma at_chan_local m c :
  plat_live i (mem_regions m) pl ->
  on_plat (ipc_os_get_local_shm i) (at_chan m c) = Ret (local_base i pl) (at_chan m c).
Proof. intros Hl. now rewrite (get_local_eval (at_chan m c)). Qed.

(** *** One pool *)

Context (Hbase : 0 <= local_base i pl + p_shm_size p < 2 ^ 64).

(** What [ipc_buf_pool_init] does once the queue is initialised. *)
Definition pool_init_rest (l : Z) (pc : ipc_shm_pool_cfg) (q : ipc_queue) (id : Z) : M (world P) Z :=
  let* local := on_plat (ipc_os_get_local_shm i) in
  let* p := get_priv i in
  if u64 (local + p_shm_size p) <? u64 (l + pool_span pc) then cret (- ENOMEM) else
  let* err := populate_bds (Z.to_nat (pc_num_bufs pc)) q id 0 in
  if negb (err =? 0) then cret err else
  on_mem (set_ring_sentinel (push_ring q) IPC_QUEUE_INIT_DONE) ;;;
  cret 0.

Lemma pool_init_head m c id l r pc old m1 :
  let d := QueueData SIZEOF_BD (pc_num_bufs pc) IPC_SHM_POOL_QUEUE l r in
  nthZ (pools c) id = Some old -> 0 <= id < IPC_SHM_MAX_POOLS -> pool_cfg_ok pc ->
  pool_span pc < 2 ^ 32 -> halves m l r (pool_span pc) ->
  ipc_queue_init (Some (pool_bd_queue old)) d m = Ret (0, Some (init_queue d)) m1 ->
  ipc_buf_pool_init i ch id (PoolAddr l r) pc (at_chan m c)
    = pool_init_rest l pc (init_queue d) id (at_chan m1 (with_pool c id (pool_at l r pc))).
Proof.
  intros d Hold Hid Hpc Hspan HH E1.
  destruct (pool_span_bounds pc Hpc) as (Es & Hr & Hb). destruct Hpc as [Hn Hz].
  unfold IPC_SHM_MAX_BUFS_PER_POOL, IPC_SHM_MAX_POOLS in *.
  set (n := pc_num_bufs pc) in *. unfold ipc_buf_pool_init.
  rewrite (cbind_Ret _ _ _ _ _ (get_managed_chan_eval _ _ _ _ _ (at_chan_priv m c) (at_chan_managed c))).
  rewrite cbind_copt, Hold, cbind_copt. cbv zeta. fold n.
  replace (_ <? n) with false by (symmetry; apply Z.ltb_ge; unfold IPC_SHM_MAX_BUFS_PER_POOL; lia).
  rewrite u16_small by lia. change (u8 SIZEOF_BD) with SIZEOF_BD.
  cbn [num_bufs buf_size shm_size local_pool_addr remote_pool_addr pool_bd_queue
       local_pool_shm remote_pool_shm].
  rewrite (cbind_Ret _ _ _ _ _ (at_chan_set_pool _ _ _ _ _ Hold)). fold d.
  rewrite (cbind_Ret _ _ _ _ _ (at_chan_mem _ _ _ _ _ E1)). cbn [fst snd default].
  erewrite cbind_Ret by (eapply at_chan_set_pool; cbn; eapply nthZ_setZ; exact Hold).
  rewrite with_pool_twice. cbn [Z.eqb negb].
  erewrite cbind_Ret by (eapply at_chan_set_pool; cbn; eapply nthZ_setZ; exact Hold).
  rewrite with_pool_twice. unfold Datatypes.id.
  assert (Eq : ipc_queue_mem_size (init_queue d) = ring_span n) by (apply mem_size_span; lia).
  assert (Ep : u32 (pc_buf_size pc * n) = pc_buf_size pc * n) by (apply u32_small; lia).
  rewrite !Eq, Ep, (u32_small (ring_span n + _)), !(u64_small (_ + ring_span n)) by
    (destruct (hv_top _ _ _ _ HH); destruct (halves_pos _ _ _ _ HH); lia).
  rewrite i16_id by lia. reflexivity.
Qed.

Lemma pool_init_up m c id l r pc old :
  nthZ (pools c) id = Some old -> 0 <= id < IPC_SHM_MAX_POOLS -> pool_cfg_ok pc ->
  pool_span pc < 2 ^ 32 -> halves m l r (pool_span pc) ->
  plat_live i (mem_regions m) pl -> l + pool_span pc <= local_base i pl + p_shm_size p ->
  peer_ring m r (pc_num_bufs pc) ->
  exists m', ipc_buf_pool_init i ch id (PoolAddr l r) pc (at_chan m c)
      = Ret 0 (at_chan m' (with_pool c id (pool_at l r pc))) /\
    ring_up m' (tx_link (pool_bd_queue (pool_at l r pc)))
      (bd_encode <$> free_bds id 0 (Z.to_nat (pc_num_bufs pc))) /\
    same_except (range l (ring_span (pc_num_bufs pc))) m m'.
Proof.
  intros Hold Hid Hpc Hspan HH Hlive Hfit Hpeer.
  destruct (pool_span_bounds pc Hpc) as (Es & Hr & Hb).
  destruct (halves_pos _ _ _ _ HH) as [Hl0 _].
  set (d := QueueData SIZEOF_BD (pc_num_bufs pc) IPC_SHM_POOL_QUEUE l r).
  assert (Hd : init_ok m d).
  { destruct Hpc as [Hn _]. unfold IPC_SHM_MAX_BUFS_PER_POOL in *.
    assert (HHr := halves_sub m l r _ 0 (ring_span (pc_num_bufs pc)) HH
                     ltac:(lia) ltac:(lia) ltac:(lia)). rewrite !Z.add_0_r in HHr.
    constructor; [cbn; lia | easy | reflexivity | now right | apply (halves_link m l r _ HHr); lia]. }
  destruct (pool_queue_up (pool_bd_queue old) d m id Hd eq_refl eq_refl Hpeer) as [E1 HP].
  rewrite (pool_init_head m c id l r pc old _ Hold Hid Hpc Hspan HH E1). unfold pool_init_rest.
  set (m1 := sync_result m (qd_push_addr d) 0 0) in *.
  rewrite (cbind_Ret _ _ _ _ _ (at_chan_local m1 _ Hlive)).
  rewrite (cbind_Ret _ _ _ _ _ (get_priv_eval _ _ _ (at_chan_priv _ _))).
  cbn [priv_with p_shm_size]. rewrite !u64_small by lia.
  replace (_ <? _) with false by (symmetry; apply Z.ltb_ge; lia).
  destruct (HP (at_chan m1 (with_pool c id (pool_at l r pc))) eq_refl) as (m2 & E2 & M2 & U & F).
  exists (mark_done l m2). split; [| split; [exact U | exact F]].
  rewrite (cbind_Ret _ _ _ _ _ E2). cbn [Z.eqb negb]. unfold set_ring_sentinel.
  erewrite cbind_Ret; [reflexivity |]. apply on_mem_Ret, write_uint_ok.
  destruct (link_header_mapped m _ RING_SENTINEL 8 (io_shape _ _ Hd)) as [Hm _]; [easy .. |].
  cbn [with_mem w_mem]. unfold mapped in *. rewrite M2. exact Hm.
Qed.

(** *** All pools *)

Definition with_pools (c : ipc_managed_channel) (id : Z) (xs : list ipc_shm_pool) :
    ipc_managed_channel :=
  MChan (bd_queue c) (num_pools c) (place id xs (pools c)) (m_rx_cb c) (m_cb_arg c).

Lemma init_pools_up : forall ps m c id l r,
  Forall pool_cfg_ok ps -> 0 <= id -> id + Z.of_nat (length ps) <= IPC_SHM_MAX_POOLS ->
  length (pools c) = Z.to_nat IPC_SHM_MAX_POOLS ->
  pools_span ps < 2 ^ 32 -> halves m l r (pools_span ps) ->
  plat_live i (mem_regions m) pl -> l + pools_span ps <= local_base i pl + p_shm_size p ->
  peer_pools m (pools_at l r ps) ->
  exists m', init_pools (length ps) i ch id (PoolAddr l r) ps (at_chan m c)
      = Ret 0 (at_chan m' (with_pools c id (pools_at l r ps))) /\
    pools_up m' id (pools_at l r ps) /\ same_except (range l (pools_span ps)) m m'.
Proof.
  induction ps as [|pc ps IH]; intros m c id l r Hok Hid Hlen Hc Hspan HH Hlive Hfit Hpeer;
    cbn [length init_pools pools_at pools_up].
  { exists m. split_and!; auto; [| reflexivity]. now destruct c. }
  inversion Hok as [|? ? Hpc Hps]; subst. inversion Hpeer as [|? ? Hp1 Hp2]; subst.
  cbn [pools_span] in *. assert (Hs := pools_span_nonneg ps Hps).
  destruct (pool_span_bounds pc Hpc) as (Es & Hr & Hb).
  destruct (halves_pos _ _ _ _ HH) as [Hl0 Hr0]. destruct (hv_top _ _ _ _ HH) as [Ht1 Ht2].
  destruct (lookup_lt_is_Some_2 (pools c) (Z.to_nat id)) as [old Hold]; [cbn [length] in *; lia |].
  assert (HH1 := halves_sub m l r _ 0 (pool_span pc) HH ltac:(lia) ltac:(lia) ltac:(lia)).
  rewrite !Z.add_0_r in HH1.
  assert (HH2 := halves_sub m l r _ (pool_span pc) (pools_span ps) HH ltac:(lia) ltac:(lia) ltac:(lia)).
  destruct (pool_init_up m c id l r pc old) as (m1 & E1 & U1 & F1);
    [apply nthZ_Some; auto | cbn [length] in *; lia | auto .. | lia | exact HH1 | exact Hlive | lia
    | exact Hp1 |].
  cbn [head]. rewrite cbind_copt, (cbind_Ret _ _ _ _ _ E1). cbn [Z.eqb negb].
  erewrite cbind_Ret by (apply at_chan_get_pool; cbn; eapply nthZ_setZ, nthZ_Some; eauto).
  cbn [local_pool_shm remote_pool_shm pool_at shm_size tail]. rewrite !u64_small by lia.
  destruct (IH m1 (with_pool c id (pool_at l r pc)) (id + 1) (l + pool_span pc) (r + pool_span pc))
    as (m' & E2 & U2 & F2);
    [exact Hps | lia | cbn [length] in *; lia | cbn; now rewrite setZ_length | lia
    | exact (halves_frame _ _ _ _ _ _ F1 HH2) | now rewrite (proj1 F1) | lia | |].
  { eapply peer_pools_frame; [exact F1 | exact Hps | | exact Hp2].
    intros x Hx Hx'. destruct (hv_disj _ _ _ _ HH); unfold range in *; lia. }
  exists m'. split_and!; [exact E2 | | exact U2 |].
  - eapply ring_up_frame; [exact F2 | easy | | | exact U1].
    + rewrite length_fmap. unfold free_bds. rewrite length_fmap, length_seq.
      destruct Hpc as [Hn _]. cbn [tx_link l_num pool_at pool_bd_queue elem_num num_bufs]. lia.
    + intros x Hx Hx'. change (ring_bytes _) with (ring_span (pc_num_bufs pc)) in Hx.
      cbn [tx_link l_prod pool_at pool_bd_queue push_ring] in Hx. unfold range in *. lia.
  - etransitivity; (eapply same_except_mono; [| eassumption]); unfold range; intros; lia.
Qed.

(** *** The whole channel *)

Lemma total_bufs_accepted ps (w : world P) :
  Forall pool_cfg_ok ps -> pools_cfg_ok ps ->
  total_bufs_loop (length ps) ps 0 0 w = Ret (sum_bufs ps) w.
Proof.
  intros Hok [HS HT]. rewrite total_bufs_loop_eval.
  - rewrite decide_True, Z.add_0_l; [reflexivity |]. split; [| exact HT].
    constructor; [exact HS |]. destruct Hok as [|pc ps Hpc _]; constructor. destruct Hpc. lia.
  - eapply Forall_impl; [| exact Hok]. intros pc [Hn _].
    unfold IPC_SHM_MAX_BUFS_PER_POOL in Hn. lia.
  - unfold IPC_SHM_MAX_BUFS_PER_CHANNEL, IPC_UINT16_MAX. lia.
Qed.

Lemma sum_bufs_bounds ps :
  Forall pool_cfg_ok ps -> pools_cfg_ok ps -> (0 < length ps)%nat -> 0 < sum_bufs ps < 65535.
Proof.
  intros Hok [_ HT] Hl. unfold IPC_SHM_MAX_BUFS_PER_CHANNEL, IPC_UINT16_MAX in HT.
  destruct Hok as [|pc ps [Hn _] Hps]; [cbn in Hl; lia |].
  assert (Hs := sum_bufs_nonneg ps). unfold sum_bufs in *. cbn [fold_right] in *.
  enough (0 <= fold_right (fun p n => pc_num_bufs p + n) 0 ps) by lia. apply Hs.
  eapply Forall_impl; [| exact Hps]. intros x [Hx _]. unfold IPC_SHM_MAX_BUFS_PER_POOL in Hx. lia.
Qed.

(** Everything [managed_channel_init] does before it initialises the pools. *)
Lemma managed_init_head m l r cfg ps :
  let s := ring_span (sum_bufs ps) in
  let q := Queue SIZEOF_BD (sum_bufs ps + 1) l r in
  mcfg_ok cfg ps -> halves m l r (chan_span ps) -> plat_live i (mem_regions m) pl ->
  l + chan_span ps <= local_base i pl + p_shm_size p -> peer_ring m r 0 ->
  exists m1, managed_channel_init i ch l r cfg (World m pr pl)
      = init_pools (length ps) i ch 0 (PoolAddr (l + s) (r + s)) ps
          (at_chan m1 (MChan q (mc_num_pools cfg) (pools (ch_mng k)) (mc_rx_cb cfg) (mc_cb_arg cfg))) /\
    ring_up m1 (tx_link q) [] /\ same_except (range l RING_SIZE) m m1.
Proof.
  intros s q [Hcb Eps Hnum Hlen Hok Htot Hspan] HH Hlive Hfit Hpeer.
  assert (Hsum := sum_bufs_bounds ps Hok Htot ltac:(lia)).
  assert (Hs := ring_span_pos (sum_bufs ps) ltac:(lia)). fold s in Hs.
  assert (Hps := pools_span_nonneg ps Hok). unfold chan_span in *. fold s in HH, Hfit, Hspan |- *.
  destruct (halves_pos _ _ _ _ HH) as [Hl0 Hr0]. destruct (hv_top _ _ _ _ HH) as [Ht1 Ht2].
  assert (HH1 := halves_sub m l r _ 0 s HH ltac:(lia) ltac:(lia) ltac:(lia)).
  rewrite !Z.add_0_r in HH1.
  set (d := QueueData SIZEOF_BD (sum_bufs ps) IPC_SHM_CHANNEL_QUEUE l r).
  assert (Hd : init_ok m d).
  { constructor; [cbn; lia | easy | reflexivity | now left | apply (halves_link m l r _ HH1); lia]. }
  destruct (channel_queue_up (bd_queue (ch_mng k)) d m Hd eq_refl Hpeer) as (E1 & U1 & F1).
  exists (mark_done l (sync_result m l 0 0)). split; [| split; [exact U1 | exact F1]].
  unfold managed_channel_init. apply Z.eqb_neq in Hcb as ->. rewrite Eps.
  replace (_ <? _) with false by (symmetry; apply Z.ltb_ge; unfold IPC_SHM_MAX_POOLS; lia).
  unfold ipc_get_total_buf_per_chan. rewrite Eps. cbn [default].
  rewrite cbind_assoc, (cbind_Ret _ _ _ _ _ (at_chan_start m _)), Hnum, Nat2Z.id.
  unfold Datatypes.id, set_bd_queue, set_ring_sentinel.
  rewrite (cbind_Ret _ _ _ _ _ (total_bufs_accepted ps _ Hok Htot)).
  replace (sum_bufs ps =? 0) with false by (symmetry; apply Z.eqb_neq; lia).
  cbv zeta. rewrite u16_small by lia. change (u8 SIZEOF_BD) with SIZEOF_BD. fold d.
  rewrite (cbind_Ret _ _ _ _ _ (get_managed_chan_eval _ _ _ _ _ (at_chan_priv _ _) (at_chan_managed _))).
  rewrite cbind_copt. cbn [bd_queue].
  rewrite (cbind_Ret _ _ _ _ _ (at_chan_mem _ _ _ _ _ E1)). cbn [fst snd default].
  rewrite (cbind_Ret _ _ _ _ _ (at_chan_upd _ _ _)).
  cbn [Z.eqb negb bd_queue num_pools pools m_rx_cb m_cb_arg].
  destruct (link_header_mapped m _ RING_SENTINEL 8 (io_shape _ _ Hd)) as [Hm _]; [easy .. |].
  erewrite cbind_Ret by (apply at_chan_mem, write_uint_ok; exact Hm).
  change (init_queue d) with q.
  replace (ipc_queue_mem_size q) with s by (symmetry; apply mem_size_span; lia).
  erewrite cbind_Ret by (apply at_chan_local; exact Hlive).
  rewrite (cbind_Ret _ _ _ _ _ (get_priv_eval _ _ _ (at_chan_priv _ _))).
  cbn [priv_with p_shm_size local_pool_shm]. rewrite !u64_small by lia.
  replace (_ <? _) with false by (symmetry; apply Z.ltb_ge; lia).
  now rewrite Nat2Z.id.
Qed.

Lemma managed_init_up m l r cfg ps :
  mcfg_ok cfg ps -> length (pools (ch_mng k)) = Z.to_nat IPC_SHM_MAX_POOLS ->
  halves m l r (chan_span ps) -> plat_live i (mem_regions m) pl ->
  l + chan_span ps <= local_base i pl + p_shm_size p ->
  let c := chan_at l r cfg ps (pools (ch_mng k)) in
  let s := ring_span (sum_bufs ps) in
  peer_ring m r 0 -> peer_pools m (pools_at (l + s) (r + s) ps) ->
  exists m', managed_channel_init i ch l r cfg (World m pr pl) = Ret 0 (at_chan m' c) /\
    ring_up m' (tx_link (bd_queue c)) [] /\ pools_up m' 0 (pools_at (l + s) (r + s) ps) /\
    same_except (range l (chan_span ps)) m m'.
Proof.
  intros Hcfg Hpl HH Hlive Hfit c s Hpeer Hpp.
  destruct (managed_init_head m l r cfg ps Hcfg HH Hlive Hfit Hpeer) as (m1 & -> & U1 & F1).
  destruct Hcfg as [_ _ Hnum Hlen Hok Htot Hspan].
  assert (Hsum := sum_bufs_bounds ps Hok Htot ltac:(lia)).
  assert (Hs := ring_span_pos (sum_bufs ps) ltac:(lia)). fold s in Hs |- *.
  assert (Hps := pools_span_nonneg ps Hok). unfold chan_span in *. fold s in HH, Hfit, Hspan |- *.
  assert (HH2 := halves_sub m l r _ s (pools_span ps) HH ltac:(lia) ltac:(lia) ltac:(lia)).
  match goal with |- context [at_chan m1 ?c0] =>
    destruct (init_pools_up ps m1 c0 0 (l + s) (r + s) Hok) as (m' & E2 & U2 & F2) end;
    [lia | unfold IPC_SHM_MAX_POOLS; lia | exact Hpl | lia | exact (halves_frame _ _ _ _ _ _ F1 HH2)
    | now rewrite (proj1 F1) | lia | | ].
  { eapply peer_pools_frame; [exact F1 | exact Hok | | exact Hpp].
    intros x Hx Hx'. destruct (hv_disj _ _ _ _ HH); unfold range, RING_SIZE in *; lia. }
  exists m'. split_and!; [| | exact U2 |].
  - rewrite E2. unfold with_pools, c, chan_at. cbn [bd_queue num_pools pools m_rx_cb m_cb_arg].
    fold s. change 0 with (Z.of_nat 0). rewrite place_eq.
    + now rewrite pools_at_length.
    + rewrite pools_at_length, Hpl. unfold IPC_SHM_MAX_POOLS. cbn. lia.
  - eapply ring_up_frame; [exact F2 | easy | cbn; lia | | exact U1].
    intros x Hx Hx'. change (range l s x) in Hx. unfold range in *. lia.
  - etransitivity; (eapply same_except_mono; [| eassumption]); unfold range, RING_SIZE; intros; lia.
Qed.

End OneEnd.
