(* ===== verification/Startup.v ===== *)
(** * Start-up of the two ends of a managed channel

    The layout of [Boot] keeps rings and buffers apart, and rings that are up on
    both ends give the state the theorems on traffic start from. *)

From S2P Require Import Prelude Memory Types Queue QueueSpec World Shm ShmSpec Traffic Delivery.
From S2P Require Import Ownership RxLoop Init Boot.
#[local] Open Scope Z_scope.

(** ** The layout keeps its parts apart *)

Section Layout.
Context (l r : Z) (cfg : ipc_shm_managed_cfg) (ps : list ipc_shm_pool_cfg) (old : list ipc_shm_pool).
Context (Hcfg : mcfg_ok cfg ps).
Abbreviation c := (chan_at l r cfg ps old).
Abbreviation s := (ring_span (sum_bufs ps)).

Lemma chan_at_active : active_pools c = pools_at (l + s) (r + s) ps.
Proof.
  unfold active_pools, chan_at. cbn [num_pools pools].
  rewrite (mk_num _ _ Hcfg), Nat2Z.id. apply take_app_length'. symmetry. apply pools_at_length.
Qed.

(** A pool of the channel and its place. *)
Lemma chan_at_pool j x :
  active_pools c !! j = Some x ->
  exists pc o, ps !! j = Some pc /\ pool_cfg_ok pc /\ x = pool_at (l + o) (r + o) pc /\
    o = s + pools_span (take j ps) /\ s <= o /\ o + pool_span pc <= chan_span ps.
Proof.
  rewrite chan_at_active, pools_at_lookup. destruct (ps !! j) as [pc |] eqn:Hj; [| discriminate].
  intros E; injection E as <-. assert (Hok := mk_each _ _ Hcfg).
  destruct (pools_span_take ps j (S j) pc Hok Hj) as [H1 H2]; [lia |].
  exists pc, (s + pools_span (take j ps)). cbv zeta. rewrite !Z.add_assoc. unfold chan_span.
  split_and!; auto; [eapply Forall_lookup; eauto | lia | lia].
Qed.

Lemma chan_at_pools i j x y :
  active_pools c !! i = Some x -> active_pools c !! j = Some y -> i <> j ->
  exists pc pc' o o', pool_cfg_ok pc /\ pool_cfg_ok pc' /\
    x = pool_at (l + o) (r + o) pc /\ y = pool_at (l + o') (r + o') pc' /\
    s <= o /\ s <= o' /\ o + pool_span pc <= chan_span ps /\ o' + pool_span pc' <= chan_span ps /\
    (o + pool_span pc <= o' \/ o' + pool_span pc' <= o).
Proof.
  intros Hx Hy Hij. assert (Hok := mk_each _ _ Hcfg).
  destruct (chan_at_pool i x Hx) as (pc & o & Hi & K1 & -> & Eo & H1 & H2).
  destruct (chan_at_pool j y Hy) as (pc' & o' & Hj & K2 & -> & Eo' & H3 & H4).
  exists pc, pc', o, o'. split_and!; auto.
  destruct (Nat.lt_gt_cases i j) as [[Hlt | Hlt] _]; [exact Hij | left | right].
  - destruct (pools_span_take ps i j pc Hok Hi Hlt). lia.
  - destruct (pools_span_take ps j i pc' Hok Hj Hlt). lia.
Qed.

Lemma chan_at_apart :
  pools_apart local_pool_addr (active_pools c) /\ pools_apart remote_pool_addr (active_pools c).
Proof.
  split; intros i j x y Hx Hy Hij;
    destruct (chan_at_pools i j x y Hx Hy Hij) as (pc & pc' & o & o' & K1 & K2 & -> & -> & H);
    destruct (pool_span_bounds pc K1) as (E1 & R1 & _);
    destruct (pool_span_bounds pc' K2) as (E2 & R2 & _);
    unfold disjoint_ranges; cbn [pool_at local_pool_addr remote_pool_addr num_bufs buf_size]; lia.
Qed.

Lemma chan_at_sep : disjoint_ranges l (chan_span ps) r (chan_span ps) -> chan_sep c.
Proof.
  intros Hd. split.
  - apply Forall_lookup. intros j x Hx.
    destruct (chan_at_pool j x Hx) as (pc & o & _ & K & -> & _ & H1 & H2).
    destruct (pool_span_bounds pc K) as (E & R & B).
    intros y Hy Hy'. unfold in_rings in Hy, Hy'.
    change (ring_bytes (tx_link (bd_queue c))) with s in Hy.
    change (ring_bytes (tx_link (pool_bd_queue _))) with (ring_span (pc_num_bufs pc)) in Hy'.
    cbn [bd_queue chan_at push_ring pop_ring pool_at pool_bd_queue] in Hy, Hy'.
    unfold range, disjoint_ranges in *. lia.
  - intros i j x y Hx Hy Hij.
    destruct (chan_at_pools i j x y Hx Hy Hij) as (pc & pc' & o & o' & K1 & K2 & -> & -> & H).
    destruct (pool_span_bounds pc K1) as (E1 & R1 & B1).
    destruct (pool_span_bounds pc' K2) as (E2 & R2 & B2).
    intros a Ha Ha'. unfold in_rings in Ha, Ha'.
    change (ring_bytes (tx_link (pool_bd_queue (pool_at (l + o) (r + o) pc))))
      with (ring_span (pc_num_bufs pc)) in Ha.
    change (ring_bytes (tx_link (pool_bd_queue (pool_at (l + o') (r + o') pc'))))
      with (ring_span (pc_num_bufs pc')) in Ha'.
    cbn [push_ring pop_ring pool_at pool_bd_queue] in Ha, Ha'.
    assert (Hs := ring_span_pos (sum_bufs ps)). unfold range, disjoint_ranges in *.
    assert (0 <= s) by (destruct (sum_bufs_bounds ps); [apply Hcfg .. | assert (H0 := mk_len _ _ Hcfg); lia | lia]).
    lia.
Qed.

End Layout.

(** ** From rings that are up to the accounting of buffers *)

Lemma pools_up_lookup m xs : forall id j x,
  pools_up m id xs -> xs !! j = Some x ->
  ring_up m (tx_link (pool_bd_queue x))
    (bd_encode <$> free_bds (id + Z.of_nat j) 0 (Z.to_nat (num_bufs x))).
Proof.
  induction xs as [|y xs IH]; intros id [|j] x Hu Hx; try discriminate Hx; destruct Hu as [U Hu].
  - injection Hx as ->. now rewrite Z.add_0_r.
  - replace (id + Z.of_nat (S j)) with (id + 1 + Z.of_nat j) by lia. now apply IH.
Qed.

(** Free descriptors of a list of pools. *)
Fixpoint free_lists (id : nat) (xs : list ipc_shm_pool) : list (list ipc_shm_bd) :=
  match xs with
  | [] => []
  | x :: xs => free_bds (Z.of_nat id) 0 (Z.to_nat (num_bufs x)) :: free_lists (S id) xs
  end.

Lemma free_lists_lookup xs : forall id j x,
  xs !! j = Some x ->
  free_lists id xs !! j = Some (free_bds (Z.of_nat (id + j)) 0 (Z.to_nat (num_bufs x))).
Proof.
  induction xs as [|y xs IH]; intros id [|j] x Hx; try discriminate Hx; cbn [free_lists].
  - injection Hx as ->. now rewrite Nat.add_0_r.
  - change (free_lists (S id) xs !! j
            = Some (free_bds (Z.of_nat (id + S j)) 0 (Z.to_nat (num_bufs x)))).
    rewrite (IH (S id) j x Hx). do 3 f_equal. lia.
Qed.

Lemma free_lists_length id xs : length (free_lists id xs) = length xs.
Proof. revert id; induction xs; intros; cbn; auto. Qed.

Lemma free_lists_bufs c xs : forall id,
  (forall (j : nat) x, xs !! j = Some x -> nthZ (pools c) (Z.of_nat (id + j)) = Some x) ->
  bd_buf c <$> concat (free_lists id xs) = concat (pool_bufs <$> xs).
Proof.
  induction xs as [|x xs IH]; intros id H; cbn [free_lists concat fmap list_fmap]; [reflexivity |].
  change (list_fmap _ _ pool_bufs xs) with (pool_bufs <$> xs).
  rewrite fmap_app, (IH (S id)).
  - f_equal. unfold free_bds, pool_bufs. rewrite <- list_fmap_compose.
    apply list_fmap_ext. intros _ j _. cbn. unfold bd_buf. cbn [bd_pool_id bd_buf_id].
    assert (H0 := H 0%nat x eq_refl). rewrite Nat.add_0_r in H0. now rewrite H0.
  - intros j y Hy. rewrite <- (H (S j) y Hy). do 2 f_equal. lia.
Qed.

Lemma free_bds_length id n : length (bd_encode <$> free_bds id 0 n) = n.
Proof. unfold free_bds. now rewrite !length_fmap, length_seq. Qed.

Lemma free_bds_named (j : nat) x :
  Z.of_nat j < 4 -> num_bufs x <= IPC_SHM_MAX_BUFS_PER_POOL ->
  Forall (bd_names j x) (free_bds (Z.of_nat j) 0 (Z.to_nat (num_bufs x))).
Proof.
  intros Hj Hn. apply Forall_fmap, Forall_seq. intros b Hb. unfold IPC_SHM_MAX_BUFS_PER_POOL in *.
  unfold bd_names, bd_ok. cbn. lia.
Qed.

Lemma sum_pos cfg ps :
  mcfg_ok cfg ps -> 0 < sum_bufs ps < 65535 /\ 24 <= ring_span (sum_bufs ps) /\ 0 <= pools_span ps.
Proof.
  intros Hcfg. assert (Hl := mk_len _ _ Hcfg).
  assert (H := sum_bufs_bounds ps (mk_each _ _ Hcfg) (mk_total _ _ Hcfg) ltac:(lia)).
  assert (Hs := ring_span_pos (sum_bufs ps) ltac:(lia)).
  assert (Hp := pools_span_nonneg ps (mk_each _ _ Hcfg)). auto.
Qed.

Section Up.
Context (m : memory) (l r : Z) (cfg : ipc_shm_managed_cfg) (ps : list ipc_shm_pool_cfg).
Context (old : list ipc_shm_pool).
Context (Hcfg : mcfg_ok cfg ps) (Hold : length old = Z.to_nat IPC_SHM_MAX_POOLS).
Context (HH : halves m l r (chan_span ps)).
Abbreviation c := (chan_at l r cfg ps old).
Abbreviation s := (ring_span (sum_bufs ps)).
Context (Hq1 : ring_up m (tx_link (bd_queue c)) []) (Hq2 : ring_up m (rx_link (bd_queue c)) []).
Context (Hp1 : pools_up m 0 (pools_at (l + s) (r + s) ps)).
Context (Hp2 : pools_up m 0 (pools_at (r + s) (l + s) ps)).

Lemma up_queue : queue_wf m (bd_queue c) /\ contents m (tx_link (bd_queue c)) = [].
Proof.
  destruct (sum_pos cfg ps Hcfg) as (Hsum & Hs & Hp).
  assert (HH1 := halves_sub m l r _ 0 s HH ltac:(lia) ltac:(lia) ltac:(unfold chan_span; lia)).
  rewrite !Z.add_0_r in HH1.
  destruct (rings_up_queue m (bd_queue c) [] []) as (W & C & _); auto;
    [apply (halves_link m l r _ HH1) | |]; cbn; lia.
Qed.

Lemma up_pool (j : nat) x :
  active_pools c !! j = Some x ->
  pool_wf m x /\
  contents m (rx_link (pool_bd_queue x))
    = bd_encode <$> free_bds (Z.of_nat j) 0 (Z.to_nat (num_bufs x)).
Proof.
  intros Hx. destruct (chan_at_pool l r cfg ps old Hcfg j x Hx) as (pc & o & Hj & K & -> & Eo & H1 & H2).
  destruct (pool_span_bounds pc K) as (E & R & B). destruct (sum_pos cfg ps Hcfg) as (Hsum & Hs & Hp).
  rewrite (chan_at_active l r cfg ps old Hcfg) in Hx.
  assert (Hy : pools_at (r + s) (l + s) ps !! j = Some (pool_at (r + o) (l + o) pc)).
  { rewrite pools_at_lookup, Hj. cbn. now rewrite Eo, !Z.add_assoc. }
  assert (U1 := pools_up_lookup m _ 0 j _ Hp1 Hx). assert (U2 := pools_up_lookup m _ 0 j _ Hp2 Hy).
  assert (HHp := halves_sub m l r _ o (pool_span pc) HH ltac:(lia) ltac:(lia) ltac:(lia)).
  assert (HHr := halves_sub m l r _ o (ring_span (pc_num_bufs pc)) HH ltac:(lia) ltac:(lia) ltac:(lia)).
  destruct (halves_pos _ _ _ _ HHp), (hv_top _ _ _ _ HHp). assert (Hsp := mk_span _ _ Hcfg).
  destruct K as [Kn Kz]. unfold IPC_SHM_MAX_BUFS_PER_POOL in Kn.
  assert (Hn : Z.of_nat (length (bd_encode <$> free_bds (0 + Z.of_nat j) 0 (Z.to_nat (pc_num_bufs pc))))
               < pc_num_bufs pc + 1) by (rewrite free_bds_length; lia).
  destruct (rings_up_queue m (pool_bd_queue (pool_at (l + o) (r + o) pc)) _ _
    (halves_link m _ _ _ HHr ltac:(lia)) Hn Hn U1 U2) as (W & _ & C).
  split; [| exact C].
  constructor; cbn [pool_at pool_bd_queue num_bufs buf_size local_pool_addr remote_pool_addr elem_num
                    elem_size]; auto; unfold IPC_SHM_MAX_BUFS_PER_POOL; lia.
Qed.

Lemma up_mchan : mchan_wf m c.
Proof.
  assert (Hl := mk_len _ _ Hcfg). constructor.
  - cbn [num_pools chan_at]. rewrite (mk_num _ _ Hcfg). unfold IPC_SHM_MAX_POOLS. lia.
  - cbn [pools chan_at]. rewrite length_app, pools_at_length, length_drop, Hold.
    unfold IPC_SHM_MAX_POOLS. cbn. lia.
  - apply up_queue.
  - reflexivity.
  - apply Forall_lookup. intros j x Hx. now destruct (up_pool j x Hx).
Qed.

Lemma up_accounted : accounted c (m, [], []).
Proof.
  exists (free_lists 0 (active_pools c)), []. constructor; cbn [fst snd].
  - apply up_mchan.
  - apply free_lists_length.
  - intros j x f Hx Hf. rewrite (free_lists_lookup _ _ _ _ Hx) in Hf. injection Hf as <-.
    destruct (up_pool j x Hx) as [W C]. split; [exact C |].
    apply free_bds_named; [| apply W].
    apply lookup_lt_Some in Hx. rewrite (active_length m c up_mchan) in Hx.
    assert (Hn := mw_num _ _ up_mchan). unfold IPC_SHM_MAX_POOLS in Hn. lia.
  - apply up_queue.
  - constructor.
  - rewrite !app_nil_r, free_lists_bufs; [reflexivity |].
    intros j x Hx. rewrite nthZ_nat. cbn [Nat.add].
    unfold active_pools in Hx. now apply lookup_take_Some in Hx as [? _].
Qed.

End Up.

(** ** Cleared memory *)

Lemma uint_at_cleared m a n :
  (forall x, range a (Z.of_nat n) x -> byte_at (mem_bytes m) x = 0) -> uint_at n m a = 0.
Proof.
  unfold uint_at. revert a; induction n as [|n IH]; intros a H; [reflexivity |].
  change (byte_at (mem_bytes m) a + 256 * le_decode (load_bytes (mem_bytes m) (a + 1) n) = 0).
  rewrite H by (unfold range; lia). rewrite IH; [reflexivity |].
  intros x Hx. apply H. unfold range in *. lia.
Qed.

Lemma peer_ring_cleared m a n :
  (forall x, range a RING_SIZE x -> byte_at (mem_bytes m) x = 0) -> peer_ring m a n.
Proof.
  intros H. assert (Hz : forall off k, 0 <= off -> off + Z.of_nat k <= RING_SIZE -> uint_at k m (a + off) = 0).
  { intros off k Ho Hk. apply uint_at_cleared. intros x Hx. apply H. unfold range in *. lia. }
  split; [now apply Hz |]. left. now rewrite Hz by easy.
Qed.

Lemma peer_pools_all m l r ps :
  Forall pool_cfg_ok ps -> (forall a n, (forall x, range a RING_SIZE x -> range r (pools_span ps) x) ->
                                        peer_ring m a n) ->
  peer_pools m (pools_at l r ps).
Proof.
  intros Hok H. apply Forall_lookup. intros j x Hx. apply H.
  rewrite pools_at_lookup in Hx. destruct (ps !! j) as [pc |] eqn:Hj; [| discriminate Hx].
  injection Hx as <-. destruct (pools_span_take ps j (S j) pc Hok Hj) as [H1 H2]; [lia |].
  destruct (pool_span_bounds pc) as (Es & Hr & Hb); [eapply Forall_lookup; eauto |].
  cbn [pool_at pool_bd_queue pop_ring]. unfold range, RING_SIZE. intros; lia.
Qed.

(** What an end that is up looks like to its peer. *)
Lemma ring_up_peer m l es n : ring_up m l es -> Z.of_nat (length es) = n -> peer_ring m (l_prod l) n.
Proof. intros [D W R _] <-. split; [exact R | right; auto]. Qed.

Lemma pools_up_peer m ps : forall l r id,
  Forall pool_cfg_ok ps -> pools_up m id (pools_at l r ps) -> peer_pools m (pools_at r l ps).
Proof.
  induction ps as [|pc ps IH]; intros l r id Hok Hu; cbn [pools_at] in *; [constructor |].
  inversion Hok as [|? ? [Hn _] Hps]; subst. destruct Hu as [U Hu].
  constructor; [| exact (IH _ _ (id + 1) Hps Hu)].
  exact (ring_up_peer _ _ _ (pc_num_bufs pc) U ltac:(rewrite free_bds_length; cbn; lia)).
Qed.

Lemma pools_up_frame F m m' ps : forall l r id,
  same_except F m m' -> Forall pool_cfg_ok ps -> (forall x, range l (pools_span ps) x -> ~ F x) ->
  pools_up m id (pools_at l r ps) -> pools_up m' id (pools_at l r ps).
Proof.
  induction ps as [|pc ps IH]; intros l r id HF Hok Hd Hu; cbn [pools_at pools_up pools_span] in *; auto.
  inversion Hok as [|? ? K Hps]; subst. destruct Hu as [U Hu].
  destruct (pool_span_bounds pc K) as (E & R & B). assert (Hp := pools_span_nonneg ps Hps).
  destruct K as [Hn _]. split.
  - eapply ring_up_frame; [exact HF | easy | rewrite free_bds_length; cbn; lia | | exact U].
    intros x Hx. apply Hd. change (range l (ring_span (pc_num_bufs pc)) x) in Hx. unfold range in *. lia.
  - apply IH; auto. intros x Hx. apply Hd. unfold range in *. lia.
Qed.

(** ** Peers *)

Lemma peer_pool_sym x y : peer_pool x y -> peer_pool y x.
Proof.
  intros [E1 E2 E3 E4 E5]. constructor; auto. rewrite E5. now destruct (pool_bd_queue x).
Qed.

Lemma pools_at_peers l r ps : Forall2 peer_pool (pools_at l r ps) (pools_at r l ps).
Proof.
  revert l r; induction ps as [|pc ps IH]; intros; cbn [pools_at]; constructor; auto.
  constructor; reflexivity.
Qed.

Lemma chan_at_peers l r cfgA cfgB ps oldA oldB :
  mcfg_ok cfgA ps -> mcfg_ok cfgB ps -> Forall2 peer_pool oldA oldB ->
  peer_chan (chan_at l r cfgA ps oldA) (chan_at r l cfgB ps oldB).
Proof.
  intros HA HB Ho. constructor; cbn [chan_at bd_queue num_pools pools].
  - reflexivity.
  - now rewrite (mk_num _ _ HA), (mk_num _ _ HB).
  - apply Forall2_app; [apply pools_at_peers | now apply Forall2_drop].
Qed.

Lemma chan_at_capacity l r cfg ps old :
  mcfg_ok cfg ps -> elem_num (bd_queue (chan_at l r cfg ps old)) - 1
    = Z.of_nat (length (all_bufs (chan_at l r cfg ps old))).
Proof.
  intros H. unfold all_bufs. rewrite (chan_at_active l r cfg ps old H).
  cbn [chan_at bd_queue elem_num]. assert (Hok := mk_each _ _ H).
  generalize (l + ring_span (sum_bufs ps)) (r + ring_span (sum_bufs ps)). clear H.
  induction Hok as [|pc ps [Hn _] _ IH]; intros a b; [reflexivity |].
  cbn [pools_at fmap list_fmap concat]. rewrite length_app.
  specialize (IH (a + pool_span pc) (b + pool_span pc)).
  unfold pool_bufs at 1. rewrite length_fmap, length_seq. unfold sum_bufs in *.
  cbn [fold_right pool_at num_bufs]. change (list_fmap _ _ pool_bufs ?z) with (pool_bufs <$> z). lia.
Qed.

(** ** One end of a channel *)

(** An end about to initialise channel [ch] of instance [i] at [l]: the channel
    structure exists, the configuration is acceptable, the platform is up and
    the channel fits what is left of the local half. *)
Record end_ok {P : Type} `{PL : Platform P} `{LW : !PlatformLaws P} (m : memory)
    (pr : list ipc_shm_priv) (pl : P) (i ch : Z) (p : ipc_shm_priv) (k : ipc_shm_channel)
    (l : Z) (cfg : ipc_shm_managed_cfg) (ps : list ipc_shm_pool_cfg) : Prop := {
  eo_priv : nthZ pr i = Some p;
  eo_chan : nthZ (p_channels p) ch = Some k;
  eo_type : ch_type k = IPC_SHM_MANAGED;
  eo_range : ch < p_num_channels p;
  eo_u8 : u8 ch = ch;
  eo_pools : length (pools (ch_mng k)) = Z.to_nat IPC_SHM_MAX_POOLS;
  eo_cfg : mcfg_ok cfg ps;
  eo_live : plat_live i (mem_regions m) pl;
  eo_base : 0 <= local_base i pl /\ local_base i pl + p_shm_size p < 2 ^ 64;
  eo_fit : local_base i pl <= l /\ l + chan_span ps <= local_base i pl + p_shm_size p
}.

Section One.
Context {P : Type} `{PL : Platform P} `{LW : !PlatformLaws P} `{AP : App P}.

Lemma end_init m pr (pl : P) i ch p k l r cfg ps :
  end_ok m pr pl i ch p k l cfg ps -> halves m l r (chan_span ps) ->
  let c := chan_at l r cfg ps (pools (ch_mng k)) in
  let s := ring_span (sum_bufs ps) in
  peer_ring m r 0 -> peer_pools m (pools_at (l + s) (r + s) ps) ->
  exists m', managed_channel_init i ch l r cfg (World m pr pl)
      = Ret 0 (World m' (setZ pr i (priv_with ch p k c)) pl) /\
    ring_up m' (tx_link (bd_queue c)) [] /\ pools_up m' 0 (pools_at (l + s) (r + s) ps) /\
    same_except (range l (chan_span ps)) m m'.
Proof.
  intros [Hp Hk Ht Hr _ Hl Hc Hlive Hb [Hf1 Hf2]] HH c s P1 P2.
  apply (managed_init_up pr pl i ch p k Hp Hk Ht Hr); auto. destruct (halves_pos _ _ _ _ HH).
  destruct (sum_pos _ _ Hc) as (_ & Hs & Hps). unfold chan_span in *. lia.
Qed.

End One.
