(* ===== verification/Instance.v ===== *)
(** * Start-up of a whole instance

    [ipc_shm_init_instance] places the channels of a configuration one behind
    the other, after the state word.  The layout is computed by [channels_at];
    every channel ends up initialised in its own part of the local half. *)

From S2P Require Import Prelude Memory Types Queue QueueSpec World Shm ShmSpec Traffic Delivery.
From S2P Require Import Ownership RxLoop Unmanaged Init Boot Startup.
#[local] Open Scope Z_scope.

(** ** Channel configurations *)

Definition mcfg_pools (c : ipc_shm_managed_cfg) : list ipc_shm_pool_cfg := default [] (mc_pools c).

(** Bytes a channel takes in each half. *)
Definition chan_bytes (c : ipc_shm_channel_cfg) : Z :=
  match c with
  | ChannelManaged mc => chan_span (mcfg_pools mc)
  | ChannelUnmanaged uc => UMEM_SIZE + uc_size uc
  | ChannelUnknown _ => 0
  end.

Fixpoint chans_bytes (chs : list ipc_shm_channel_cfg) : Z :=
  match chs with
  | [] => 0
  | c :: chs => chan_bytes c + chans_bytes chs
  end.

(** A configuration the initialisation of a channel accepts. *)
Definition ccfg_ok (c : ipc_shm_channel_cfg) : Prop :=
  match c with
  | ChannelManaged mc => mcfg_ok mc (mcfg_pools mc)
  | ChannelUnmanaged uc => uc_rx_cb uc <> NULL /\ 0 <= uc_size uc <= IPC_SHM_MAX_UMNG_SIZE
  | ChannelUnknown _ => False
  end.

Lemma ccfg_ok_bytes c : ccfg_ok c -> 16 <= chan_bytes c < 2 ^ 32.
Proof.
  destruct c as [mc | uc | v]; cbn [ccfg_ok chan_bytes]; [intros H | intros [_ H] | easy].
  - destruct (sum_pos _ _ H) as (_ & Hs & Hp). assert (Hk := mk_span _ _ H).
    unfold chan_span in *. lia.
  - unfold IPC_SHM_MAX_UMNG_SIZE, IPC_UINT16_MAX, UMEM_SIZE in *. lia.
Qed.

Lemma chans_bytes_nonneg chs : Forall ccfg_ok chs -> 0 <= chans_bytes chs.
Proof.
  induction 1 as [|c chs H _ IH]; cbn [chans_bytes]; [lia |].
  assert (Hb := ccfg_ok_bytes c H). lia.
Qed.

(** ** Layout *)

(** Channel [ch] at [l] and [r]; [k] is the structure before. *)
Definition built (ch l r : Z) (c : ipc_shm_channel_cfg) (k : ipc_shm_channel) : ipc_shm_channel :=
  let k1 := Chan (u8 ch) (cc_type c) (ch_mng k) (ch_umng k) in
  match c with
  | ChannelManaged mc => set_mng k1 (chan_at l r mc (mcfg_pools mc) (pools (ch_mng k)))
  | ChannelUnmanaged uc => set_umng k1 (UChan (uc_size uc) l r (uc_rx_cb uc) (uc_cb_arg uc))
  | ChannelUnknown _ => k1
  end.

Fixpoint channels_at (ch l r : Z) (chs : list ipc_shm_channel_cfg) (olds : list ipc_shm_channel) :
    list ipc_shm_channel :=
  match chs, olds with
  | c :: chs, k :: olds =>
      built ch l r c k :: channels_at (ch + 1) (l + chan_bytes c) (r + chan_bytes c) chs olds
  | _, _ => olds
  end.

(** ** Shared memory of a channel *)

(** Initialised by the end whose half is at [l]: rings marked and empty, pools
    populated; control words marked, counters at 0. *)
Definition chan_up (m : memory) (l r : Z) (c : ipc_shm_channel_cfg) : Prop :=
  match c with
  | ChannelManaged mc =>
      let ps := mcfg_pools mc in
      let s := ring_span (sum_bufs ps) in
      ring_up m (tx_link (Queue SIZEOF_BD (sum_bufs ps + 1) l r)) [] /\
      pools_up m 0 (pools_at (l + s) (r + s) ps)
  | ChannelUnmanaged _ => umem_done m l /\ tx_count m l = 0 /\ seen_count m l = 0
  | ChannelUnknown _ => False
  end.

(** The remote half at [r] as an initialising end may find it: untouched, or
    initialised by the peer. *)
Definition chan_peer (m : memory) (l r : Z) (c : ipc_shm_channel_cfg) : Prop :=
  match c with
  | ChannelManaged mc =>
      let ps := mcfg_pools mc in
      let s := ring_span (sum_bufs ps) in
      peer_ring m r 0 /\ peer_pools m (pools_at (l + s) (r + s) ps)
  | ChannelUnmanaged _ =>
      uint_at 4 m (r + UMEM_SENTINEL) <> IPC_SHM_UCHAN_INIT_IN_PROGRESS /\ ~ umem_done m r \/
      umem_done m r /\ tx_count m r = 0 /\ seen_count m r = 0
  | ChannelUnknown _ => False
  end.

Fixpoint chans_all (R : Z -> Z -> ipc_shm_channel_cfg -> Prop) (l r : Z)
    (chs : list ipc_shm_channel_cfg) : Prop :=
  match chs with
  | [] => True
  | c :: chs => R l r c /\ chans_all R (l + chan_bytes c) (r + chan_bytes c) chs
  end.

(** Words of the control block of an unmanaged channel. *)
Lemma umem_word_frame F m m' a off :
  same_except F m m' -> 0 <= off <= 12 -> (forall x, range a UMEM_SIZE x -> ~ F x) ->
  uint_at 4 m' (a + off) = uint_at 4 m (a + off).
Proof.
  intros HF Ho Hd. apply (same_except_uint F); [exact HF |].
  intros x Hx. apply Hd. unfold range, UMEM_SIZE in *. lia.
Qed.

Lemma chan_up_frame F m m' l r c :
  same_except F m m' -> ccfg_ok c -> (forall x, range l (chan_bytes c) x -> ~ F x) ->
  chan_up m l r c -> chan_up m' l r c.
Proof.
  intros HF Hok Hd. destruct c as [mc | uc | v]; cbn [chan_up chan_bytes ccfg_ok] in *; [| | easy].
  - destruct (sum_pos _ _ Hok) as (Hsum & Hs & Hp). unfold chan_span in Hd. cbv zeta. intros [U V]. split.
    + eapply ring_up_frame; [exact HF | easy | cbn; lia | | exact U]. intros x Hx. apply Hd.
      change (range l (ring_span (sum_bufs (mcfg_pools mc))) x) in Hx. unfold range in *. lia.
    + eapply pools_up_frame; [exact HF | apply Hok | | exact V].
      intros x Hx. apply Hd. unfold range in *. lia.
  - destruct Hok as [_ Hz]. unfold umem_done, tx_count, seen_count.
    rewrite !(umem_word_frame F m m' l) by
      (try exact HF; try (unfold UMEM_SENTINEL, UMEM_TX_COUNT, UMEM_REMOTE_TX_COUNT; lia);
       intros x Hx; apply Hd; unfold range in *; lia). easy.
Qed.

Lemma chan_peer_frame F m m' l r c :
  same_except F m m' -> ccfg_ok c -> (forall x, range r (chan_bytes c) x -> ~ F x) ->
  chan_peer m l r c -> chan_peer m' l r c.
Proof.
  intros HF Hok Hd. destruct c as [mc | uc | v]; cbn [chan_peer chan_bytes ccfg_ok] in *; [| | easy].
  - destruct (sum_pos _ _ Hok) as (Hsum & Hs & Hp). unfold chan_span in Hd. cbv zeta. intros [U V]. split.
    + eapply peer_ring_frame; [exact HF | | exact U].
      intros x Hx. apply Hd. unfold range, RING_SIZE in *. lia.
    + eapply peer_pools_frame; [exact HF | apply Hok | | exact V].
      intros x Hx. apply Hd. unfold range in *. lia.
  - destruct Hok as [_ Hz]. unfold umem_done, tx_count, seen_count.
    rewrite !(umem_word_frame F m m' r) by
      (try exact HF; try (unfold UMEM_SENTINEL, UMEM_TX_COUNT, UMEM_REMOTE_TX_COUNT; lia);
       intros x Hx; apply Hd; unfold range in *; lia). easy.
Qed.

(** What an end that is up looks like to its peer, and cleared memory. *)
Lemma chan_up_peer m l r c : ccfg_ok c -> chan_up m l r c -> chan_peer m r l c.
Proof.
  destruct c as [mc | uc | v]; cbn [chan_up chan_peer ccfg_ok]; [| tauto | easy].
  intros Hok [U V]. split; [exact (ring_up_peer _ _ _ 0 U eq_refl) |].
  eapply pools_up_peer; [apply Hok | exact V].
Qed.

Lemma chan_peer_cleared m l r c :
  ccfg_ok c -> (forall x, range r (chan_bytes c) x -> byte_at (mem_bytes m) x = 0) ->
  chan_peer m l r c.
Proof.
  intros Hok Hz. destruct c as [mc | uc | v]; cbn [chan_peer chan_bytes ccfg_ok] in *; [| | easy].
  - destruct (sum_pos _ _ Hok) as (Hsum & Hs & Hp). unfold chan_span in Hz. split.
    + apply peer_ring_cleared. intros x Hx. apply Hz. unfold range, RING_SIZE in *. lia.
    + apply peer_pools_all; [apply Hok |]. intros a n Ha. apply peer_ring_cleared.
      intros x Hx. apply Hz. apply Ha in Hx. unfold range in *. lia.
  - left. unfold umem_done. rewrite uint_at_cleared; [easy |]. destruct Hok as [_ Hb].
    intros x Hx. apply Hz. unfold range, UMEM_SENTINEL, UMEM_SIZE in *. lia.
Qed.

(** The same for all channels. *)
Section All.
Context (Q R : Z -> Z -> ipc_shm_channel_cfg -> Prop).

Lemma chans_all_impl chs : forall l r,
  Forall ccfg_ok chs ->
  (forall l' r' c, ccfg_ok c -> l <= l' -> l' + chan_bytes c <= l + chans_bytes chs ->
     r' - r = l' - l -> Q l' r' c -> R l' r' c) ->
  chans_all Q l r chs -> chans_all R l r chs.
Proof.
  induction chs as [|c chs IH]; intros l r Hok H; cbn [chans_all chans_bytes] in *; [easy |].
  inversion Hok as [|? ? Hc Hcs]; subst. assert (Hb := ccfg_ok_bytes c Hc).
  assert (Hn := chans_bytes_nonneg chs Hcs). intros [U V]. split; [apply H; auto; lia |].
  apply IH; auto. intros l' r' c' Hc' H1 H2 H3. apply H; auto; lia.
Qed.

Lemma chans_all_lookup chs : forall l r j c,
  chans_all Q l r chs -> chs !! j = Some c ->
  Q (l + chans_bytes (take j chs)) (r + chans_bytes (take j chs)) c.
Proof.
  induction chs as [|x chs IH]; intros l r [|j] c H Hj; try discriminate Hj; destruct H as [U V];
    cbn [take chans_bytes].
  - injection Hj as ->. now rewrite !Z.add_0_r.
  - rewrite !Z.add_assoc. now apply IH.
Qed.

End All.

(** ** One channel *)

Section OneChannel.
Context {P : Type} `{PL : Platform P} `{LW : !PlatformLaws P} `{AP : App P}.
Context (pr : list ipc_shm_priv) (pl : P) (i ch : Z) (p : ipc_shm_priv) (k : ipc_shm_channel).
Context (Hp : nthZ pr i = Some p) (Hk : nthZ (p_channels p) ch = Some k).
Context (Hch : ch < p_num_channels p <= IPC_SHM_MAX_CHANNELS).
Context (Hlen : length (pools (ch_mng k)) = Z.to_nat IPC_SHM_MAX_POOLS).

Definition with_chan (x : ipc_shm_channel) : ipc_shm_priv :=
  Priv (p_shm_size p) (p_num_channels p) (setZ (p_channels p) ch x) (p_global p).

Lemma with_chan_get x (m : memory) : get_channel_priv i ch (World m (setZ pr i (with_chan x)) pl)
  = Ret x (World m (setZ pr i (with_chan x)) pl).
Proof.
  apply (get_channel_priv_eval _ _ (with_chan x)); cbn; eapply nthZ_setZ; eauto.
Qed.

Lemma with_chan_set m x y :
  set_channel_priv i ch y (World m (setZ pr i (with_chan x)) pl)
    = Ret tt (World m (setZ pr i (with_chan y)) pl).
Proof.
  rewrite (set_channel_priv_eval i ch _ (with_chan x) x); [| cbn; eapply nthZ_setZ; eauto ..].
  unfold set_priv_data, with_chan, setZ. cbn. now rewrite !list_insert_insert_eq.
Qed.

Lemma with_chan_mem {A} (f : M memory A) m x a m' :
  f m = Ret a m' -> on_mem f (World m (setZ pr i (with_chan x)) pl)
    = Ret a (World m' (setZ pr i (with_chan x)) pl).
Proof. intros E. exact (on_mem_Ret f (World m (setZ pr i (with_chan x)) pl) a m' E). Qed.

Lemma ch_small : u8 ch = ch.
Proof.
  apply nthZ_Some in Hk as [H0 _]. unfold IPC_SHM_MAX_CHANNELS in Hch. apply u8_small. lia.
Qed.

Lemma managed_one m l r mc ps :
  mcfg_ok mc ps -> halves m l r (chan_span ps) -> plat_live i (mem_regions m) pl ->
  0 <= local_base i pl /\ local_base i pl + p_shm_size p < 2 ^ 64 ->
  local_base i pl <= l /\ l + chan_span ps <= local_base i pl + p_shm_size p ->
  let s := ring_span (sum_bufs ps) in
  peer_ring m r 0 -> peer_pools m (pools_at (l + s) (r + s) ps) ->
  let k1 := Chan (u8 ch) IPC_SHM_MANAGED (ch_mng k) (ch_umng k) in
  exists m', managed_channel_init i ch l r mc (World m (setZ pr i (with_chan k1)) pl)
      = Ret 0 (World m' (setZ pr i (with_chan (set_mng k1 (chan_at l r mc ps (pools (ch_mng k)))))) pl) /\
    ring_up m' (tx_link (Queue SIZEOF_BD (sum_bufs ps + 1) l r)) [] /\
    pools_up m' 0 (pools_at (l + s) (r + s) ps) /\ same_except (range l (chan_span ps)) m m'.
Proof.
  intros Hc HH Hlive Hb Hf s P1 P2 k1.
  assert (HE : end_ok m (setZ pr i (with_chan k1)) pl i ch (with_chan k1) k1 l mc ps).
  { constructor; auto; [eapply nthZ_setZ; eauto | cbn; eapply nthZ_setZ; eauto | cbn; lia |
      exact ch_small]. }
  destruct (end_init m _ pl i ch _ k1 l r mc ps HE HH P1 P2) as (m' & E & U & V & F).
  exists m'. split_and!; auto. rewrite E. do 2 f_equal. unfold priv_with, with_chan, setZ. cbn.
  now rewrite !list_insert_insert_eq.
Qed.

(** Control words after [unmanaged_channel_init]. *)
Definition umem_init (m : memory) (l : Z) : memory :=
  let m1 := set_bytes m (l + UMEM_SENTINEL) (le_encode 4 IPC_SHM_UCHAN_INIT_IN_PROGRESS) in
  let m2 := set_bytes m1 (l + UMEM_TX_COUNT) (le_encode 4 0) in
  let m3 := set_bytes m2 (l + UMEM_REMOTE_TX_COUNT) (le_encode 4 0) in
  set_bytes m3 (l + UMEM_SENTINEL) (le_encode 4 IPC_UCHAN_INIT_DONE).

Lemma umem_init_frame m l : same_except (range l UMEM_SIZE) m (umem_init m l).
Proof.
  unfold umem_init. etransitivity; [etransitivity; [etransitivity |] |];
    apply set_bytes_same_except; intros x; rewrite le_encode_length;
    unfold range, UMEM_SENTINEL, UMEM_TX_COUNT, UMEM_REMOTE_TX_COUNT, UMEM_SIZE; lia.
Qed.

Lemma umem_init_words m l :
  umem_done (umem_init m l) l /\ tx_count (umem_init m l) l = 0 /\ seen_count (umem_init m l) l = 0.
Proof.
  unfold umem_done, tx_count, seen_count, umem_init. split_and!.
  - now rewrite uint_at_set_same.
  - rewrite !(uint_at_set_disjoint _ _ (l + UMEM_SENTINEL)), uint_at_set_disjoint, uint_at_set_same;
      try easy; rewrite le_encode_length; unfold disjoint_ranges, UMEM_SENTINEL, UMEM_TX_COUNT,
      UMEM_REMOTE_TX_COUNT; lia.
  - rewrite uint_at_set_disjoint, uint_at_set_same; try easy; rewrite le_encode_length;
      unfold disjoint_ranges, UMEM_SENTINEL, UMEM_REMOTE_TX_COUNT; lia.
Qed.

(** The handshake of [unmanaged_channel_init] on the control words. *)
Definition umem_handshake (local_shm remote_shm : Z) : M (world P) Z :=
  let* s := umem_get UMEM_SENTINEL remote_shm in
  if s =? IPC_SHM_UCHAN_INIT_IN_PROGRESS then cret (- EAGAIN) else
  umem_set UMEM_SENTINEL local_shm IPC_SHM_UCHAN_INIT_IN_PROGRESS ;;;
  let* s := umem_get UMEM_SENTINEL remote_shm in
  (if s =? IPC_UCHAN_INIT_DONE then
     let* c := umem_get UMEM_REMOTE_TX_COUNT remote_shm in
     umem_set UMEM_TX_COUNT local_shm c ;;;
     let* c := umem_get UMEM_TX_COUNT remote_shm in
     umem_set UMEM_REMOTE_TX_COUNT local_shm c
   else
     umem_set UMEM_TX_COUNT local_shm 0 ;;;
     umem_set UMEM_REMOTE_TX_COUNT local_shm 0) ;;;
  umem_set UMEM_SENTINEL local_shm IPC_UCHAN_INIT_DONE ;;;
  cret 0.

Lemma umem_handshake_eval m l r uc st :
  mapped m l UMEM_SIZE = true -> mapped m r UMEM_SIZE = true ->
  disjoint_ranges l UMEM_SIZE r UMEM_SIZE -> chan_peer m l r (ChannelUnmanaged uc) ->
  umem_handshake l r (World m st pl) = Ret 0 (World (umem_init m l) st pl).
Proof.
  intros Hml Hmr Hd Hpeer. unfold umem_handshake.
  assert (RD : forall m' off, mem_regions m' = mem_regions m -> 0 <= off <= 12 ->
    umem_get off r (World m' st pl) = Ret (uint_at 4 m' (r + off)) (World m' st pl)).
  { intros m' off E Ho. apply umem_get_eval; [| exact Ho]. unfold mapped in *. cbn [w_mem]. now rewrite E. }
  assert (WR : forall m' off v, mem_regions m' = mem_regions m -> 0 <= off <= 12 ->
    umem_set off l v (World m' st pl) = Ret tt (World (set_bytes m' (l + off) (le_encode 4 v)) st pl)).
  { intros m' off v E Ho. rewrite umem_set_eval; [reflexivity | | exact Ho].
    unfold mapped in *. cbn [w_mem]. now rewrite E. }
  assert (Hr : forall m' off off' v, 0 <= off <= 12 -> 0 <= off' <= 12 ->
    uint_at 4 (set_bytes m' (l + off) (le_encode 4 v)) (r + off') = uint_at 4 m' (r + off')).
  { intros m' off off' v Ho Ho'. apply uint_at_set_disjoint. rewrite le_encode_length.
    unfold disjoint_ranges, UMEM_SIZE in *. lia. }
  assert (O1 : 0 <= UMEM_SENTINEL <= 12) by (unfold UMEM_SENTINEL; lia).
  assert (O2 : 0 <= UMEM_TX_COUNT <= 12) by (unfold UMEM_TX_COUNT; lia).
  assert (O3 : 0 <= UMEM_REMOTE_TX_COUNT <= 12) by (unfold UMEM_REMOTE_TX_COUNT; lia).
  rewrite (cbind_Ret _ _ _ _ _ (RD m _ eq_refl O1)). cbn [chan_peer] in Hpeer.
  unfold umem_done, tx_count, seen_count in Hpeer.
  replace (_ =? IPC_SHM_UCHAN_INIT_IN_PROGRESS) with false.
  2: { symmetry. apply Z.eqb_neq. destruct Hpeer as [[H _] | [H _]]; [exact H | rewrite H; easy]. }
  rewrite (cbind_Ret _ _ _ _ _ (WR m _ _ eq_refl O1)).
  erewrite cbind_Ret by (apply RD; [reflexivity | exact O1]). rewrite Hr by assumption.
  destruct Hpeer as [[_ H] | (H & T & C)].
  - apply Z.eqb_neq in H as ->. rewrite !cbind_assoc.
    do 2 (erewrite cbind_Ret by (apply WR; [reflexivity | assumption])).
    now erewrite cbind_Ret by (apply WR; [reflexivity | exact O1]).
  - rewrite H, Z.eqb_refl, !cbind_assoc.
    erewrite cbind_Ret by (apply RD; [reflexivity | exact O3]). rewrite Hr, C, cbind_assoc by assumption.
    erewrite cbind_Ret by (apply WR; [reflexivity | exact O2]). rewrite cbind_assoc.
    erewrite cbind_Ret by (apply RD; [reflexivity | exact O2]). rewrite !Hr, T by assumption.
    erewrite cbind_Ret by (apply WR; [reflexivity | exact O3]).
    now erewrite cbind_Ret by (apply WR; [reflexivity | exact O1]).
Qed.

Lemma unmanaged_one m l r uc n :
  uc_rx_cb uc <> NULL -> 0 <= uc_size uc <= IPC_SHM_MAX_UMNG_SIZE ->
  halves m l r n -> UMEM_SIZE <= n -> chan_peer m l r (ChannelUnmanaged uc) ->
  let k1 := Chan (u8 ch) IPC_SHM_UNMANAGED (ch_mng k) (ch_umng k) in
  let u := UChan (uc_size uc) l r (uc_rx_cb uc) (uc_cb_arg uc) in
  unmanaged_channel_init i ch l r uc (World m (setZ pr i (with_chan k1)) pl)
    = Ret 0 (World (umem_init m l) (setZ pr i (with_chan (set_umng k1 u))) pl).
Proof.
  intros Hcb Hz [Hl Hr Hd _] Hn Hpeer k1 u. unfold unmanaged_channel_init. erewrite cbind_Ret.
  2: { eapply get_unmanaged_chan_eval; [cbn; eapply nthZ_setZ; eauto |].
       constructor; [apply nthZ_Some in Hk; cbn; lia | cbn; eapply nthZ_setZ; eauto | reflexivity]. }
  apply Z.eqb_neq in Hcb as ->. replace (_ <? _) with false by (symmetry; apply Z.ltb_ge; lia).
  cbn [orb]. rewrite cbind_copt. unfold upd_uchan.
  rewrite (cbind_Ret (cbind _ _) _ _ tt (World m (setZ pr i (with_chan (set_umng k1 u))) pl)).
  2: { rewrite (cbind_Ret _ _ _ _ _ (with_chan_get _ _)). apply with_chan_set. }
  apply (umem_handshake_eval m l r uc); [| | | exact Hpeer].
  - eapply mapped_sub; [exact Hl | lia | lia].
  - eapply mapped_sub; [exact Hr | lia | lia].
  - unfold disjoint_ranges in *. lia.
Qed.

(** Either kind of channel. *)
Lemma channel_one m l r c :
  ccfg_ok c -> halves m l r (chan_bytes c) -> plat_live i (mem_regions m) pl ->
  0 <= local_base i pl /\ local_base i pl + p_shm_size p < 2 ^ 64 ->
  local_base i pl <= l /\ l + chan_bytes c <= local_base i pl + p_shm_size p ->
  chan_peer m l r c ->
  exists m', ipc_shm_init_channels i ch l r (Some c) (World m pr pl)
      = Ret 0 (World m' (setZ pr i (with_chan (built ch l r c k))) pl) /\
    chan_up m' l r c /\ same_except (range l (chan_bytes c)) m m'.
Proof.
  intros Hok HH Hlive Hb Hf Hpeer. assert (Hby := ccfg_ok_bytes c Hok). unfold ipc_shm_init_channels.
  rewrite (cbind_Ret _ _ _ _ _ (get_channel_priv_eval (World m pr pl) _ _ _ _ Hp Hk)).
  rewrite (cbind_Ret _ _ _ _ _ (set_channel_priv_eval i ch (World m pr pl) p k _ Hp Hk)).
  destruct c as [mc | uc | v]; cbn [ccfg_ok chan_bytes chan_peer cc_type] in *; [| | easy].
  - destruct (managed_one m l r mc (mcfg_pools mc) Hok HH Hlive Hb Hf) as (m' & E & U & V & F);
      [apply Hpeer .. |].
    exists m'. split; [exact E |]. split; [split; [exact U | exact V] | exact F].
  - destruct Hok as [Hcb Hz]. exists (umem_init m l). split; [| split].
    + eapply unmanaged_one; eauto. unfold UMEM_SIZE. lia.
    + apply umem_init_words.
    + eapply same_except_mono; [| apply umem_init_frame]. unfold range. intros; lia.
Qed.

(** The size the next channel is placed behind. *)
Lemma fold_spans ps : forall l r s,
  Forall pool_cfg_ok ps -> 0 <= s -> s + pools_span ps < 2 ^ 32 ->
  fold_left (fun size pool => u32 (size + shm_size pool)) (pools_at l r ps) s = s + pools_span ps.
Proof.
  induction ps as [|pc ps IH]; intros l r s Hok Hs Hlt;
    cbn [pools_at fold_left pools_span] in *; [lia |].
  inversion Hok as [|? ? Hpc Hps]; subst. destruct (pool_span_bounds pc Hpc) as (Es & Hr & Hb).
  assert (Hn := pools_span_nonneg ps Hps). cbn [pool_at shm_size].
  rewrite u32_small, IH by (try exact Hps; lia). lia.
Qed.

Lemma built_size m l r c :
  ccfg_ok c -> let w := World m (setZ pr i (with_chan (built ch l r c k))) pl in
  get_chan_memmap_size i ch w = Ret (chan_bytes c) w.
Proof.
  intros Hok w. assert (Hb := ccfg_ok_bytes c Hok). unfold get_chan_memmap_size.
  rewrite (cbind_Ret _ _ w _ _ (with_chan_get (built ch l r c k) m)). fold w.
  destruct c as [mc | uc | v]; cbn [ccfg_ok chan_bytes built] in *; [| | easy].
  - cbn [set_mng ch_type cc_type].
    erewrite cbind_Ret.
    2: { eapply get_managed_chan_eval; [cbn; eapply nthZ_setZ; eauto |].
         constructor; [apply nthZ_Some in Hk; cbn; lia |].
         eexists. split_and!; [cbn; eapply nthZ_setZ; eauto | reflexivity | reflexivity]. }
    rewrite cbind_copt. set (ps := mcfg_pools mc) in *. set (cc := chan_at _ _ _ _ _).
    destruct (sum_pos _ _ Hok) as (Hsum & Hs & Hp'). assert (Hn := mk_num _ _ Hok).
    assert (Hl4 := mk_len _ _ Hok). assert (Hsp := mk_span _ _ Hok). unfold chan_span in *.
    replace (_ <? _) with false.
    2: { symmetry. apply Z.ltb_ge. cbn [cc set_mng ch_mng chan_at pools num_pools].
         rewrite Hn, length_app, pools_at_length. lia. }
    rewrite cbind_copt. change (take _ _) with (active_pools cc). unfold cc.
    rewrite (chan_at_active l r mc ps _ Hok). cbn [set_mng ch_mng chan_at bd_queue].
    rewrite mem_size_span by lia.
    rewrite fold_spans; [reflexivity | apply Hok | lia | lia].
  - cbn [set_umng ch_type cc_type ch_umng u_size]. now rewrite u32_small by lia.
Qed.

End OneChannel.

(** ** All channels *)

Lemma setZ_middle {A} (l1 l2 : list A) x y :
  setZ (l1 ++ x :: l2) (Z.of_nat (length l1)) y = l1 ++ y :: l2.
Proof. unfold setZ. rewrite Nat2Z.id, insert_app_r_alt, Nat.sub_diag by lia. reflexivity. Qed.

Lemma nthZ_middle {A} (l1 l2 : list A) x : nthZ (l1 ++ x :: l2) (Z.of_nat (length l1)) = Some x.
Proof. rewrite nthZ_nat. now apply list_lookup_middle. Qed.

Section AllChannels.
Context {P : Type} `{PL : Platform P} `{LW : !PlatformLaws P} `{AP : App P}.
Context (pl : P) (i : Z).

Lemma init_channels_up : forall chs pre dn olds pr p m l r,
  nthZ pr i = Some p -> p_channels p = dn ++ olds -> length dn = length pre ->
  (length chs <= length olds)%nat ->
  Forall (fun k => length (pools (ch_mng k)) = Z.to_nat IPC_SHM_MAX_POOLS) olds ->
  Z.of_nat (length (pre ++ chs)) <= p_num_channels p <= IPC_SHM_MAX_CHANNELS ->
  Forall ccfg_ok chs -> halves m l r (chans_bytes chs) -> plat_live i (mem_regions m) pl ->
  0 <= local_base i pl /\ local_base i pl + p_shm_size p < 2 ^ 64 ->
  local_base i pl <= l /\ l + chans_bytes chs <= local_base i pl + p_shm_size p ->
  chans_all (chan_peer m) l r chs ->
  let ch := Z.of_nat (length pre) in
  exists m', init_channels (length chs) i ch l r (Some (pre ++ chs)) (World m pr pl)
      = Ret 0 (World m' (setZ pr i (Priv (p_shm_size p) (p_num_channels p)
                           (dn ++ channels_at ch l r chs olds) (p_global p))) pl) /\
    chans_all (chan_up m') l r chs /\ same_except (range l (chans_bytes chs)) m m'.
Proof.
  induction chs as [|c chs IH]; intros pre dn olds pr p m l r Hp Hd Hlen Hle Hpools Hnum Hok HH Hlive Hb
    Hf Hpeer ch; cbn [length init_channels chans_all chans_bytes channels_at] in *.
  { exists m. replace (Priv _ _ _ _) with p by (destruct p; cbn in *; now rewrite Hd).
    rewrite (setZ_same _ _ _ Hp). split_and!; auto. reflexivity. }
  inversion Hok as [|? ? Hc Hcs]; subst. destruct Hpeer as [Hpc Hpcs].
  destruct olds as [|k olds]; [cbn in Hle; lia |]. inversion Hpools as [|? ? Hk4 Hpools']; subst.
  assert (Hby := ccfg_ok_bytes c Hc). assert (Hn := chans_bytes_nonneg chs Hcs).
  assert (Hk : nthZ (p_channels p) ch = Some k) by (unfold ch; rewrite Hd, <- Hlen; apply nthZ_middle).
  destruct (halves_pos _ _ _ _ HH) as [Hl0 Hr0]. destruct (hv_top _ _ _ _ HH) as [Ht1 Ht2].
  rewrite length_app in Hnum. cbn [length] in Hnum.
  assert (HH1 := halves_sub m l r _ 0 (chan_bytes c) HH ltac:(lia) ltac:(lia) ltac:(lia)).
  rewrite !Z.add_0_r in HH1.
  assert (HH2 := halves_sub m l r _ (chan_bytes c) (chans_bytes chs) HH ltac:(lia) ltac:(lia) ltac:(lia)).
  destruct (channel_one pr pl i ch p k Hp Hk) with (m := m) (l := l) (r := r) (c := c)
    as (m1 & E1 & U1 & F1); auto; try lia.
  unfold channel_cfg_ptr. unfold ch at 1. rewrite nthZ_middle, cbind_assoc, cbind_copt, cbind_cret.
  rewrite (cbind_Ret _ _ _ _ _ E1). cbn [Z.eqb negb].
  rewrite (cbind_Ret _ _ _ _ _ (built_size pr pl i ch p k Hp Hk ltac:(lia) Hk4 m1 l r c Hc)).
  rewrite !u64_small by lia.
  assert (Ech : ch + 1 = Z.of_nat (length (pre ++ [c]))) by (unfold ch; rewrite length_app; cbn; lia).
  assert (Epre : pre ++ c :: chs = (pre ++ [c]) ++ chs) by (now rewrite <- app_assoc).
  rewrite Ech, Epre.
  set (k' := built ch l r c k) in *. set (p1 := with_chan ch p k') in *.
  destruct (IH (pre ++ [c]) (dn ++ [k']) olds (setZ pr i p1) p1 m1 (l + chan_bytes c) (r + chan_bytes c))
    as (m' & E2 & U2 & F2); auto.
  - eapply nthZ_setZ; eauto.
  - unfold p1. cbn [with_chan p_channels]. rewrite Hd. unfold ch. rewrite <- Hlen, setZ_middle.
    now rewrite <- app_assoc.
  - rewrite !length_app. cbn. lia.
  - cbn in Hle. lia.
  - rewrite !length_app. cbn. lia.
  - exact (halves_frame _ _ _ _ _ _ F1 HH2).
  - now rewrite (proj1 F1).
  - cbn [p1 with_chan p_shm_size]. lia.
  - refine (chans_all_impl _ _ _ _ _ Hcs _ Hpcs). intros l' r' c' Hc' H1 H2 H3.
    eapply chan_peer_frame; [exact F1 | exact Hc' |]. intros x Hx Hx'.
    destruct (hv_disj _ _ _ _ HH); unfold range in *; lia.
  - exists m'. rewrite E2. split_and!; [| | exact U2 |].
    + unfold p1. cbn [with_chan p_shm_size p_num_channels p_global]. rewrite <- app_assoc.
      unfold setZ. now rewrite list_insert_insert_eq, <- Ech.
    + eapply chan_up_frame; [exact F2 | exact Hc | | exact U1]. unfold range. intros; lia.
    + etransitivity; (eapply same_except_mono; [| eassumption]); unfold range; intros; lia.
Qed.

End AllChannels.

(** ** The instance *)

(** A configuration [ipc_shm_init_instance] accepts, whose channels [chs] fit
    behind the state word. *)
Record cfg_ok (cfg : ipc_shm_cfg) (chs : list ipc_shm_channel_cfg) : Prop := {
  ck_addr : cfg_local_shm_addr cfg <> NULL /\ cfg_remote_shm_addr cfg <> NULL;
  ck_chs : cfg_channels cfg = Some chs;
  ck_num : cfg_num_channels cfg = Z.of_nat (length chs);
  ck_len : 1 <= Z.of_nat (length chs) <= IPC_SHM_MAX_CHANNELS;
  ck_each : Forall ccfg_ok chs;
  ck_fit : SIZEOF_GLOBAL + chans_bytes chs <= cfg_shm_size cfg
}.

(** The private data of an instance has its arrays. *)
Definition priv_shape (p : ipc_shm_priv) : Prop :=
  length (p_channels p) = Z.to_nat IPC_SHM_MAX_CHANNELS /\
  Forall (fun k => length (pools (ch_mng k)) = Z.to_nat IPC_SHM_MAX_POOLS) (p_channels p).

Section Instance.
Context {P : Type} `{PL : Platform P} `{LW : !PlatformLaws P} `{AP : App P}.

(** The platform brings instance [i] up: hardware and operating system layer
    return 0 and leave [m2], [pl2], with both halves mapped. *)
Record brought_up (w : world P) (i : Z) (cfg : ipc_shm_cfg) (m2 : memory) (pl2 : P) : Prop := {
  bu_init : exists m1 pl1, ipc_hw_init i cfg (w_mem w, w_plat w) = Ret 0 (m1, pl1) /\
              ipc_os_init i cfg RX_IPC_SHM_RX (m1, pl1) = Ret 0 (m2, pl2);
  bu_live : plat_live i (mem_regions m2) pl2;
  bu_halves : halves m2 (local_base i pl2) (remote_base i pl2) (cfg_shm_size cfg)
}.

Definition priv_at (cfg : ipc_shm_cfg) (chs : list ipc_shm_channel_cfg) (L R : Z)
    (p : ipc_shm_priv) : ipc_shm_priv :=
  Priv (cfg_shm_size cfg) (cfg_num_channels cfg)
    (channels_at 0 (L + SIZEOF_GLOBAL) (R + SIZEOF_GLOBAL) chs (p_channels p)) L.

(** What [ipc_shm_init_instance] does up to the initialisation of channels. *)
Definition instance_rest (i : Z) (cfg : ipc_shm_cfg) (L R : Z) : M (world P) Z :=
  let* err := init_channels (Z.to_nat (cfg_num_channels cfg)) i 0
                (u64 (L + SIZEOF_GLOBAL)) (u64 (R + SIZEOF_GLOBAL)) (cfg_channels cfg) in
  if negb (err =? 0) then cret err else
  on_plat (ipc_hw_irq_enable i) ;;;
  let* p := get_priv i in
  set_global_state (p_global p) IPC_SHM_STATE_READY ;;;
  cret 0.

Lemma instance_head w i cfg chs p m2 pl2 :
  0 <= i < IPC_SHM_MAX_INSTANCES -> unused w i -> nthZ (w_priv w) i = Some p ->
  cfg_ok cfg chs -> brought_up w i cfg m2 pl2 ->
  let L := local_base i pl2 in
  ipc_shm_init_instance i (Some cfg) w
    = instance_rest i cfg L (remote_base i pl2)
        (World (set_bytes m2 L (le_encode 8 IPC_SHM_STATE_CLEAR))
           (setZ (w_priv w) i (Priv (cfg_shm_size cfg) (cfg_num_channels cfg) (p_channels p) L)) pl2).
Proof.
  intros Hi Hun Hp Hc [(m1 & pl1 & E1 & E2) Hl HH] L. unfold ipc_shm_init_instance.
  destruct (ipc_instance_is_free_unused w i Hun) as (st & E & Hne).
  rewrite (cbind_Ret _ _ _ _ _ E), decide_False by exact Hne.
  destruct (ck_addr _ _ Hc) as [A1 A2]. apply Z.eqb_neq in A1 as ->. apply Z.eqb_neq in A2 as ->.
  cbn [orb]. assert (Hlen := ck_len _ _ Hc).
  replace (_ || _) with false.
  2: { symmetry. apply orb_false_iff. rewrite !Z.ltb_ge, (ck_num _ _ Hc). lia. }
  rewrite (cbind_Ret _ _ _ _ _ (get_priv_eval _ _ _ Hp)). unfold set_priv at 1.
  erewrite cbind_Ret by (rewrite Hp; reflexivity).
  erewrite cbind_Ret by (eapply on_plat_Ret; exact E1). cbn [i8 Z.eqb negb].
  change (i8 0) with 0. cbn [Z.eqb negb].
  erewrite cbind_Ret by (eapply on_plat_Ret; exact E2). change (i8 0) with 0. cbn [Z.eqb negb].
  erewrite cbind_Ret by (apply get_local_eval; exact Hl). cbn [w_plat w_priv set_priv_data].
  unfold set_global, set_priv. rewrite cbind_assoc.
  erewrite cbind_Ret by (apply get_priv_eval; cbn; eapply nthZ_setZ; eauto).
  erewrite cbind_Ret by (cbn [w_priv]; erewrite nthZ_setZ by exact Hp; reflexivity).
  unfold set_global_state at 1, set_priv_data. cbn [w_mem w_priv w_plat p_shm_size p_num_channels p_channels].
  unfold setZ. rewrite list_insert_insert_eq.
  assert (HS : SIZEOF_GLOBAL <= cfg_shm_size cfg).
  { assert (H := ck_fit _ _ Hc). assert (H0 := chans_bytes_nonneg chs (ck_each _ _ Hc)). lia. }
  erewrite cbind_Ret.
  2: { apply on_mem_Ret, write_uint_ok. cbn [w_mem]. eapply mapped_sub; [exact (hv_local _ _ _ _ HH) | lia |].
       unfold SIZEOF_GLOBAL in HS. lia. }
  erewrite cbind_Ret by (apply get_remote_eval; exact Hl). reflexivity.
Qed.

(** The state an instance is left in by a successful start. *)
Record started (w w' : world P) (i : Z) (cfg : ipc_shm_cfg) (chs : list ipc_shm_channel_cfg)
    (p : ipc_shm_priv) (m2 : memory) (pl2 : P) : Prop := {
  st_priv : let L := local_base i pl2 in let R := remote_base i pl2 in
    w_priv w' = setZ (w_priv w) i (priv_at cfg chs L R p) /\ used w' i (priv_at cfg chs L R p) /\
    chans_all (chan_up (w_mem w')) (L + SIZEOF_GLOBAL) (R + SIZEOF_GLOBAL) chs;
  st_ready : uint_at 8 (w_mem w') (local_base i pl2) = IPC_SHM_STATE_READY;
  st_frame : same_except (range (local_base i pl2) (SIZEOF_GLOBAL + chans_bytes chs)) m2 (w_mem w');
  st_live : plat_live i (mem_regions (w_mem w')) (w_plat w') /\ same_bases pl2 (w_plat w')
}.

Lemma instance_finish m4 pr i p4 (pl2 : P) :
  nthZ pr i = Some p4 -> mapped m4 (p_global p4) 8 = true -> plat_live i (mem_regions m4) pl2 ->
  exists pl5,
    (on_plat (ipc_hw_irq_enable i) ;;;
     let* p := get_priv i in
     set_global_state (p_global p) IPC_SHM_STATE_READY ;;; cret 0) (World m4 pr pl2)
      = Ret 0 (World (set_bytes m4 (p_global p4) (le_encode 8 IPC_SHM_STATE_READY)) pr pl5) /\
    plat_live i (mem_regions m4) pl5 /\ same_bases pl2 pl5.
Proof.
  intros Hp Hm Hl. destruct (irq_enable_law i m4 pl2 Hl) as (pl5 & E5 & L5 & B5).
  exists pl5. split; [| now split]. erewrite cbind_Ret by (eapply on_plat_Ret; exact E5).
  erewrite cbind_Ret by (apply get_priv_eval; exact Hp). unfold set_global_state.
  now erewrite cbind_Ret by (apply on_mem_Ret, write_uint_ok; exact Hm).
Qed.

(** The state word lies in front of the channels. *)
Lemma state_word_frame m a v : same_except (range a SIZEOF_GLOBAL) m (set_bytes m a (le_encode 8 v)).
Proof. apply set_bytes_same_except. intros x. now rewrite le_encode_length. Qed.

(** From the state word written to all channels up. *)
Lemma instance_channels i cfg chs p m2 (pl2 : P) pr :
  nthZ pr i = Some p -> priv_shape p -> cfg_ok cfg chs -> plat_live i (mem_regions m2) pl2 ->
  let L := local_base i pl2 in let R := remote_base i pl2 in
  halves m2 L R (cfg_shm_size cfg) -> chans_all (chan_peer m2) (L + SIZEOF_GLOBAL) (R + SIZEOF_GLOBAL) chs ->
  let m3 := set_bytes m2 L (le_encode 8 IPC_SHM_STATE_CLEAR) in
  let p3 := Priv (cfg_shm_size cfg) (cfg_num_channels cfg) (p_channels p) L in
  exists m4, init_channels (Z.to_nat (cfg_num_channels cfg)) i 0
                (u64 (L + SIZEOF_GLOBAL)) (u64 (R + SIZEOF_GLOBAL)) (cfg_channels cfg)
                (World m3 (setZ pr i p3) pl2)
      = Ret 0 (World m4 (setZ pr i (priv_at cfg chs L R p)) pl2) /\
    chans_all (chan_up m4) (L + SIZEOF_GLOBAL) (R + SIZEOF_GLOBAL) chs /\
    same_except (range L (SIZEOF_GLOBAL + chans_bytes chs)) m2 m4.
Proof.
  intros Hp [Hl8 Hsh] [_ Echs Hnum Hlen Hok Hfit] Hlive L R HH Hpeer m3 p3.
  assert (Hn := chans_bytes_nonneg chs Hok). assert (F3 := state_word_frame m2 L IPC_SHM_STATE_CLEAR).
  fold m3 in F3. unfold IPC_SHM_MAX_CHANNELS in *.
  assert (HS : SIZEOF_GLOBAL = 8) by reflexivity.
  destruct (halves_pos _ _ _ _ HH) as [HL HR]. destruct (hv_top _ _ _ _ HH) as [HtL HtR].
  assert (HH3 := halves_sub m3 L R _ SIZEOF_GLOBAL (chans_bytes chs) (halves_frame _ _ _ _ _ _ F3 HH)
                   ltac:(lia) ltac:(lia) ltac:(lia)).
  rewrite Hnum, Nat2Z.id, Echs, !u64_small by lia.
  destruct (init_channels_up pl2 i chs [] [] (p_channels p) (setZ pr i p3) p3 m3
              (L + SIZEOF_GLOBAL) (R + SIZEOF_GLOBAL)) as (m4 & E4 & U4 & F4); auto.
  { eapply nthZ_setZ; eauto. } { rewrite Hl8. lia. }
  { cbn [app p3 p_num_channels]. unfold IPC_SHM_MAX_CHANNELS. rewrite Hnum. lia. }
  { fold L. cbn [p3 p_shm_size]. lia. } { fold L. cbn [p3 p_shm_size]. lia. }
  { refine (chans_all_impl _ _ _ _ _ Hok _ Hpeer). intros l' r' c Hc H1 H2 H3.
    eapply chan_peer_frame; [exact F3 | exact Hc |]. intros x Hx Hx'.
    destruct (hv_disj _ _ _ _ HH); unfold range in *; lia. }
  exists m4. cbn [app length] in E4. change (Z.of_nat 0) with 0 in E4. rewrite E4. split_and!; [| exact U4 |].
  - unfold setZ. now rewrite list_insert_insert_eq.
  - etransitivity; (eapply same_except_mono; [| eassumption]); unfold range; intros; lia.
Qed.

Lemma instance_up w i cfg chs p m2 pl2 :
  0 <= i < IPC_SHM_MAX_INSTANCES -> unused w i -> nthZ (w_priv w) i = Some p -> priv_shape p ->
  cfg_ok cfg chs -> brought_up w i cfg m2 pl2 ->
  chans_all (chan_peer m2) (local_base i pl2 + SIZEOF_GLOBAL) (remote_base i pl2 + SIZEOF_GLOBAL) chs ->
  exists w', ipc_shm_init_instance i (Some cfg) w = Ret 0 w' /\ started w w' i cfg chs p m2 pl2.
Proof.
  intros Hi Hun Hp Hsh Hc Hbu Hpeer.
  rewrite (instance_head w i cfg chs p m2 pl2 Hi Hun Hp Hc Hbu). destruct Hbu as [_ Hlive HH].
  destruct (instance_channels i cfg chs p m2 pl2 (w_priv w) Hp Hsh Hc Hlive HH Hpeer)
    as (m4 & E4 & U4 & F4).
  set (L := local_base i pl2) in *. set (R := remote_base i pl2) in *.
  assert (Hok := ck_each _ _ Hc). assert (Hn := chans_bytes_nonneg chs Hok). assert (Hfit := ck_fit _ _ Hc).
  assert (HS : SIZEOF_GLOBAL = 8) by reflexivity. destruct (halves_pos _ _ _ _ HH) as [HL HR].
  assert (Hp4 : nthZ (setZ (w_priv w) i (priv_at cfg chs L R p)) i = Some (priv_at cfg chs L R p))
    by (eapply nthZ_setZ; eauto).
  assert (Hm4 : mapped m4 L 8 = true).
  { rewrite (same_except_mapped _ _ _ _ _ F4).
    eapply mapped_sub; [exact (hv_local _ _ _ _ HH) | lia | lia]. }
  destruct (instance_finish m4 _ i _ pl2 Hp4 Hm4) as (pl5 & E5 & L5 & B5); [now rewrite (proj1 F4) |].
  unfold instance_rest. rewrite (cbind_Ret _ _ _ _ _ E4). cbn [Z.eqb negb].
  eexists. split; [exact E5 |]. cbn [priv_at p_global].
  set (m5 := set_bytes m4 L (le_encode 8 IPC_SHM_STATE_READY)).
  assert (R5 : uint_at 8 m5 L = IPC_SHM_STATE_READY) by (apply uint_at_set_same; easy).
  assert (F5 : same_except (range L SIZEOF_GLOBAL) m4 m5) by apply state_word_frame.
  constructor; cbn [w_mem w_priv w_plat]; auto.
  - fold L R. split_and!; [reflexivity | constructor; auto |].
    + cbn [p_global priv_at]. unfold NULL. lia.
    + change (uint_at 8 m5 L <> IPC_SHM_STATE_CLEAR). now rewrite R5.
    + refine (chans_all_impl _ _ _ _ _ Hok _ U4). intros l' r' c Hc' H1 H2 H3.
      eapply chan_up_frame; [exact F5 | exact Hc' |]. unfold range. intros; lia.
  - fold L. etransitivity; [exact F4 |]. eapply same_except_mono; [| exact F5]. unfold range; intros; lia.
Qed.

End Instance.
