(* ===== verification/InstanceSpec.v ===== *)
(** * Whole instances start up

    The layout of an instance channel by channel, and the start of both ends of
    an instance one after the other, over [Instance]. *)

From S2P Require Import Prelude Memory Types Queue QueueSpec World Shm ShmSpec Traffic Delivery.
From S2P Require Import Ownership ChannelSteps ChannelProto RxLoop Unmanaged Init Boot Startup Instance.
#[local] Open Scope Z_scope.

(** ** Channels by index *)

(** Where channel [j] starts in its half. *)
Definition chan_offset (chs : list ipc_shm_channel_cfg) (j : nat) : Z :=
  SIZEOF_GLOBAL + chans_bytes (take j chs).

Lemma channels_at_lookup chs : forall olds ch l r j c k,
  chs !! j = Some c -> olds !! j = Some k ->
  channels_at ch l r chs olds !! j
    = Some (built (ch + Z.of_nat j) (l + chans_bytes (take j chs)) (r + chans_bytes (take j chs)) c k).
Proof.
  induction chs as [|x chs IH]; intros [|y olds] ch l r [|j] c k Hc Hk; try discriminate;
    cbn [channels_at take chans_bytes].
  - injection Hc as ->. injection Hk as ->. now rewrite !Z.add_0_r.
  - cbn [lookup list_lookup] in *. rewrite (IH olds _ _ _ j c k Hc Hk).
    do 2 f_equal; lia.
Qed.

Lemma chans_bytes_take chs i j c :
  Forall ccfg_ok chs -> chs !! i = Some c -> (i < j)%nat ->
  0 <= chans_bytes (take i chs) /\
  chans_bytes (take i chs) + chan_bytes c <= chans_bytes (take j chs) <= chans_bytes chs.
Proof.
  intros Hok. revert i j; induction Hok as [|x chs Hx Hcs IH]; intros [|i] [|j] Hi Hij; try easy; try lia;
    cbn [take chans_bytes]; assert (Hb := ccfg_ok_bytes x Hx).
  - injection Hi as ->. assert (H := chans_bytes_nonneg _ (Forall_take ccfg_ok j _ Hcs)).
    assert (H' := chans_bytes_nonneg _ (Forall_drop ccfg_ok j _ Hcs)).
    assert (E : chans_bytes (take j chs) + chans_bytes (drop j chs) = chans_bytes chs).
    { clear. revert j; induction chs as [|y chs IH]; intros [|j]; cbn [take drop chans_bytes]; auto.
      rewrite <- (IH j). lia. }
    lia.
  - destruct (IH i j Hi); lia.
Qed.

Lemma chan_part cfg chs j c :
  cfg_ok cfg chs -> chs !! j = Some c ->
  SIZEOF_GLOBAL <= chan_offset chs j /\ chan_offset chs j + chan_bytes c <= cfg_shm_size cfg /\
  forall j' c', chs !! j' = Some c' -> (j < j')%nat ->
    chan_offset chs j + chan_bytes c <= chan_offset chs j'.
Proof.
  intros Hc Hj. assert (Hok := ck_each _ _ Hc). assert (Hfit := ck_fit _ _ Hc). unfold chan_offset.
  destruct (chans_bytes_take chs j (S j) c Hok Hj) as [H1 H2]; [lia |]. split_and!; try lia.
  intros j' c' Hj' Hlt. destruct (chans_bytes_take chs j j' c Hok Hj Hlt). lia.
Qed.

(** Channel [j] of the private data of a started instance. *)
Lemma priv_at_chan cfg chs L R p j c :
  cfg_ok cfg chs -> priv_shape p -> chs !! j = Some c ->
  exists k, p_channels p !! j = Some k /\ length (pools (ch_mng k)) = Z.to_nat IPC_SHM_MAX_POOLS /\
    Z.of_nat j < p_num_channels (priv_at cfg chs L R p) /\
    let o := chan_offset chs j in
    nthZ (p_channels (priv_at cfg chs L R p)) (Z.of_nat j)
      = Some (built (Z.of_nat j) (L + o) (R + o) c k).
Proof.
  intros Hc [Hl Hp] Hj. assert (Hn := ck_len _ _ Hc). assert (Hlt := lookup_lt_Some _ _ _ Hj).
  destruct (lookup_lt_is_Some_2 (p_channels p) j) as [k Hk].
  { rewrite Hl. unfold IPC_SHM_MAX_CHANNELS in *. lia. }
  exists k. split_and!; [exact Hk | exact (Forall_lookup_1 _ _ _ _ Hp Hk) | |].
  - cbn [priv_at p_num_channels]. rewrite (ck_num _ _ Hc). lia.
  - cbv zeta. rewrite nthZ_nat. cbn [priv_at p_channels].
    rewrite (channels_at_lookup _ _ _ _ _ _ _ _ Hj Hk). unfold chan_offset.
    now rewrite Z.add_0_l, !Z.add_assoc.
Qed.

Lemma priv_at_managed cfg chs L R p j mc :
  cfg_ok cfg chs -> priv_shape p -> chs !! j = Some (ChannelManaged mc) ->
  exists old, length old = Z.to_nat IPC_SHM_MAX_POOLS /\
    (pools ∘ ch_mng) <$> p_channels p !! j = Some old /\
    has_managed (priv_at cfg chs L R p) (Z.of_nat j)
      (chan_at (L + chan_offset chs j) (R + chan_offset chs j) mc (mcfg_pools mc) old).
Proof.
  intros Hc Hp Hj. destruct (priv_at_chan cfg chs L R p j _ Hc Hp Hj) as (k & Hk & Hl & Hn & E).
  exists (pools (ch_mng k)). rewrite Hk. split_and!; auto.
  constructor; [lia |]. eexists. split_and!; [exact E | reflexivity | reflexivity].
Qed.

(** ** One end *)

Section OneEnd.
Context {P : Type} `{PL : Platform P} `{LW : !PlatformLaws P} `{AP : App P}.

(** C19: start of an instance.  When the platform comes up and the remote half
    is untouched or was set up by the peer, [ipc_shm_init_instance] of an
    acceptable configuration returns 0 and leaves the instance in use and READY.
    Its channels, managed and unmanaged, follow each other behind the state
    word: parts of different channels do not overlap and lie inside the shared
    memory, every channel is initialised in its part, and nothing outside the
    local part of the configuration is written. *)
Theorem instance_starts w i cfg chs p m2 (pl2 : P) :
  0 <= i < IPC_SHM_MAX_INSTANCES -> unused w i -> nthZ (w_priv w) i = Some p -> priv_shape p ->
  cfg_ok cfg chs -> brought_up w i cfg m2 pl2 ->
  let L := local_base i pl2 in let R := remote_base i pl2 in
  chans_all (chan_peer m2) (L + SIZEOF_GLOBAL) (R + SIZEOF_GLOBAL) chs ->
  exists w' p', ipc_shm_init_instance i (Some cfg) w = Ret 0 w' /\
    w_priv w' = setZ (w_priv w) i p' /\ used w' i p' /\
    uint_at 8 (w_mem w') L = IPC_SHM_STATE_READY /\
    same_except (range L (SIZEOF_GLOBAL + chans_bytes chs)) m2 (w_mem w') /\
    (forall (j : nat) c, chs !! j = Some c ->
       let o := chan_offset chs j in
       (SIZEOF_GLOBAL <= o /\ o + chan_bytes c <= cfg_shm_size cfg /\
        forall j' c', chs !! j' = Some c' -> (j < j')%nat -> o + chan_bytes c <= chan_offset chs j') /\
       chan_up (w_mem w') (L + o) (R + o) c /\
       exists k, nthZ (p_channels p') (Z.of_nat j) = Some (built (Z.of_nat j) (L + o) (R + o) c k)).
Proof.
  intros Hi Hun Hp Hsh Hc Hbu L R Hpeer.
  destruct (instance_up w i cfg chs p m2 pl2 Hi Hun Hp Hsh Hc Hbu Hpeer) as (w' & E & [H1 H2 H3 _]).
  destruct H1 as (Hw & Hu & Hall). exists w', (priv_at cfg chs L R p). split_and!; auto.
  intros j c Hj o. split; [exact (chan_part cfg chs j c Hc Hj) |]. split.
  - assert (H := chans_all_lookup _ _ _ _ _ _ Hall Hj). unfold o, chan_offset. now rewrite !Z.add_assoc.
  - destruct (priv_at_chan cfg chs L R p j c Hc Hsh Hj) as (k & _ & _ & _ & Ek). exists k. exact Ek.
Qed.

End OneEnd.

(** ** Two ends *)

(** Two configurations of a channel that agree on what is shared. *)
Definition same_layout (a b : ipc_shm_channel_cfg) : Prop :=
  match a, b with
  | ChannelManaged x, ChannelManaged y => mc_pools x = mc_pools y
  | ChannelUnmanaged x, ChannelUnmanaged y => uc_size x = uc_size y
  | _, _ => False
  end.

#[export] Instance same_layout_sym : Symmetric same_layout.
Proof. intros [] [] H; cbn in *; easy. Qed.

Lemma same_layout_bytes a b : same_layout a b -> chan_bytes a = chan_bytes b.
Proof. destruct a, b; cbn; unfold mcfg_pools; try easy; intros ->; reflexivity. Qed.

Lemma same_layout_up m l r a b : same_layout a b -> chan_up m l r a -> chan_up m l r b.
Proof. destruct a, b; cbn [same_layout chan_up]; unfold mcfg_pools; try easy; intros ->; easy. Qed.

Lemma same_layouts_bytes xs ys : Forall2 same_layout xs ys -> chans_bytes xs = chans_bytes ys.
Proof.
  induction 1 as [|a b xs ys H _ IH]; cbn [chans_bytes]; [reflexivity |].
  now rewrite (same_layout_bytes _ _ H), IH.
Qed.

Lemma same_layouts_offset xs ys j : Forall2 same_layout xs ys -> chan_offset xs j = chan_offset ys j.
Proof. intros H. unfold chan_offset. f_equal. apply same_layouts_bytes. now apply Forall2_take. Qed.

Lemma same_layouts_up m xs ys : Forall2 same_layout xs ys -> forall l r,
  chans_all (chan_up m) l r xs -> chans_all (chan_up m) l r ys.
Proof.
  induction 1 as [|a b xs ys H _ IH]; intros l r; cbn [chans_all]; [easy |].
  rewrite (same_layout_bytes _ _ H). intros [U V]. split; [eapply same_layout_up; eauto | auto].
Qed.

(** A state that depends on the bytes only carries over to another mapping. *)
Lemma ring_up_remap m m' l es : mem_bytes m' = mem_bytes m -> ring_up m l es -> ring_up m' l es.
Proof.
  intros E [D W R S]. unfold ring_done, link_write, slot, uint_at in *. rewrite <- E in D, W, R, S.
  constructor; assumption.
Qed.

Lemma chan_up_remap m m' l r c : mem_bytes m' = mem_bytes m -> chan_up m l r c -> chan_up m' l r c.
Proof.
  intros E. destruct c as [mc | uc | v]; cbn [chan_up]; [| | easy].
  - cbv zeta. intros [U V]. split; [eapply ring_up_remap; eauto |]. revert V.
    generalize (pools_at (l + ring_span (sum_bufs (mcfg_pools mc)))
                  (r + ring_span (sum_bufs (mcfg_pools mc))) (mcfg_pools mc)) 0.
    induction l0 as [|x xs IH]; intros id; cbn [pools_up]; [easy |].
    intros [U' V]. split; [eapply ring_up_remap; eauto | auto].
  - unfold umem_done, tx_count, seen_count, uint_at. now rewrite E.
Qed.

(** The channels of a half stay up while its bytes stay. *)
Lemma chans_up_keep m m' l r chs :
  Forall ccfg_ok chs ->
  (forall x, range l (chans_bytes chs) x -> byte_at (mem_bytes m') x = byte_at (mem_bytes m) x) ->
  chans_all (chan_up m) l r chs -> chans_all (chan_up m') l r chs.
Proof.
  intros Hok Hb. apply chans_all_impl; [exact Hok |]. intros l' r' c Hc H1 H2 _ U.
  apply (chan_up_remap (Memory (mem_regions m) (mem_bytes m'))); [reflexivity |].
  eapply (chan_up_frame (fun x => ~ range l (chans_bytes chs) x) m); [| exact Hc | | exact U].
  - split; [reflexivity |]. intros x Hx. apply Hb. unfold range in *. lia.
  - intros x Hx. unfold range in *. lia.
Qed.

Lemma word_keep m m' a :
  (forall x, range a 8 x -> byte_at (mem_bytes m') x = byte_at (mem_bytes m) x) ->
  uint_at 8 m' a = uint_at 8 m a.
Proof. intros H. unfold uint_at. f_equal. apply load_bytes_ext. exact H. Qed.

(** Both rings of a managed channel up, on both ends. *)
Lemma managed_pair m l r xA xB oldA oldB (ch : nat) pA pB :
  let ps := mcfg_pools xA in
  mcfg_ok xA ps -> mcfg_ok xB ps -> mc_pools xA = mc_pools xB -> halves m l r (chan_span ps) ->
  length oldA = Z.to_nat IPC_SHM_MAX_POOLS -> Forall2 peer_pool oldA oldB -> Z.of_nat ch < 8 ->
  let cA := chan_at l r xA ps oldA in let cB := chan_at r l xB ps oldB in
  has_managed pA (Z.of_nat ch) cA -> has_managed pB (Z.of_nat ch) cB ->
  chan_up m l r (ChannelManaged xA) -> chan_up m r l (ChannelManaged xB) ->
  setup (Z.of_nat ch) pA cA (Z.of_nat ch) pB cB /\ accounted cA (m, [], []).
Proof.
  intros ps KA KB Ep HH Hl Ho Hch cA cB MA MB UA UB. cbn [chan_up] in UA, UB.
  assert (EB : mcfg_pools xB = ps) by (unfold ps, mcfg_pools; now rewrite Ep).
  rewrite EB in UB. cbv zeta in UA, UB. fold ps in UA.
  destruct UA as [U1 V1], UB as [U2 V2]. split.
  - constructor; auto; [apply u8_small; lia | apply chan_at_sep; auto; apply HH | |
      apply chan_at_peers; auto | now apply chan_at_capacity].
    now apply chan_at_apart.
  - apply up_accounted; auto.
Qed.

Lemma chans_all_intro (R : Z -> Z -> ipc_shm_channel_cfg -> Prop) chs l r :
  Forall ccfg_ok chs ->
  (forall l' r' c, ccfg_ok c -> l <= l' -> l' + chan_bytes c <= l + chans_bytes chs ->
     r' - r = l' - l -> R l' r' c) -> chans_all R l r chs.
Proof.
  intros Hok H. apply (chans_all_impl (fun _ _ _ => True)); auto. clear.
  revert l r. induction chs; cbn [chans_all]; auto.
Qed.

Lemma chans_all_swap (R : Z -> Z -> ipc_shm_channel_cfg -> Prop) chs : forall l r,
  chans_all R l r chs -> chans_all (fun l r => R r l) r l chs.
Proof. induction chs as [|c cs IH]; intros l r; cbn [chans_all]; [easy | intros [U V]; auto]. Qed.

(** A channel as the two ends of an instance with halves of [n] bytes at [L]
    and [R] know it. *)
Definition end_views (cA cB : ipc_managed_channel) (L R n : Z) (e : endpoint) : view :=
  match e with Near => View cA L L R n | Far => View cB R R L n end.

(** What the two ends share of channel [j] once both are up: for a managed
    channel both directions are set up, every buffer is free and the ends are
    connected; an unmanaged channel is initialised on both sides and no
    transmission is pending. *)
Definition pair_ready (m : memory) (L R n : Z) (pA pB : ipc_shm_priv) (j : nat)
    (a b : ipc_shm_channel_cfg) : Prop :=
  match a, b with
  | ChannelManaged _, ChannelManaged _ =>
      exists cA cB,
        (setup (Z.of_nat j) pA cA (Z.of_nat j) pB cB /\ accounted cA (m, [], [])) /\
        (setup (Z.of_nat j) pB cB (Z.of_nat j) pA cA /\ accounted cB (m, [], [])) /\
        connected (end_views cA cB L R n) m
  | ChannelUnmanaged _, ChannelUnmanaged _ =>
      exists kA kB, has_unmanaged pA (Z.of_nat j) kA /\ has_unmanaged pB (Z.of_nat j) kB /\
        uchan_wf m (ch_umng kA) /\ uchan_wf m (ch_umng kB) /\
        remote_mem (ch_umng kA) = local_mem (ch_umng kB) /\
        remote_mem (ch_umng kB) = local_mem (ch_umng kA) /\
        tx_count m (local_mem (ch_umng kA)) = seen_count m (local_mem (ch_umng kB)) /\
        tx_count m (local_mem (ch_umng kB)) = seen_count m (local_mem (ch_umng kA))
  | _, _ => False
  end.

(** The pools and queues of a channel behind the state words of an instance. *)
Section Placed.
Context (l r L R n : Z) (cfg : ipc_shm_managed_cfg) (ps : list ipc_shm_pool_cfg) (old : list ipc_shm_pool).
Context (Hcfg : mcfg_ok cfg ps) (Hl : L + SIZEOF_GLOBAL <= l) (Hr : R + SIZEOF_GLOBAL <= r).
Context (Hn : l + chan_span ps <= L + n) (Hrn : r + chan_span ps <= R + n).
Abbreviation c := (chan_at l r cfg ps old).

Lemma chan_at_inside :
  0 < L -> L + n < 2 ^ 64 -> Forall (fun p => pool_inside L n (local_pool_addr p) p) (active_pools c).
Proof.
  intros HL HT. apply Forall_lookup. intros j x Hx.
  destruct (chan_at_pool l r cfg ps old Hcfg j x Hx) as (pc & o & _ & K & -> & _ & H1 & H2).
  destruct (pool_span_bounds pc K) as (E & Rb & _). destruct (sum_pos cfg ps Hcfg) as (_ & Hs & _).
  unfold pool_inside, pool_bytes, SIZEOF_GLOBAL in *. cbn [pool_at local_pool_addr num_bufs buf_size]. lia.
Qed.

Lemma chan_at_rings k x :
  in_channel c k -> in_rings (own_queue c k) x ->
  range (L + SIZEOF_GLOBAL) (n - SIZEOF_GLOBAL) x \/ range (R + SIZEOF_GLOBAL) (n - SIZEOF_GLOBAL) x.
Proof.
  destruct (sum_pos cfg ps Hcfg) as (_ & Hs & Hp). intros Hk Hx.
  destruct k as [i |]; cbn [own_queue in_channel] in *.
  - apply lookup_lt_is_Some_2 in Hk as [y Hy]. rewrite Hy in Hx. cbn [from_option] in Hx.
    destruct (chan_at_pool l r cfg ps old Hcfg i y Hy) as (pc & o & _ & K & -> & _ & H1 & H2).
    destruct (pool_span_bounds pc K) as (E & Rb & Hz). unfold in_rings in Hx.
    change (ring_bytes (tx_link (pool_bd_queue _))) with (ring_span (pc_num_bufs pc)) in Hx.
    cbn [push_ring pop_ring pool_at pool_bd_queue] in Hx. unfold range in *. lia.
  - unfold in_rings in Hx. change (ring_bytes (tx_link (bd_queue c))) with (ring_span (sum_bufs ps)) in Hx.
    cbn [bd_queue chan_at push_ring pop_ring] in Hx. unfold range, chan_span in *. lia.
Qed.

End Placed.

(** Structures of the two ends before: same shape of the unused pools. *)
Definition peer_olds (pA pB : ipc_shm_priv) : Prop :=
  Forall2 (fun a b => Forall2 peer_pool (pools (ch_mng a)) (pools (ch_mng b)))
    (p_channels pA) (p_channels pB).

(** The two kinds of channels. *)
Section Pair.
Context (m : memory) (l r : Z) (j : nat) (pA pB : ipc_shm_priv) (kA kB : ipc_shm_channel).
Context (NA : Z.of_nat j < p_num_channels pA <= 8) (NB : Z.of_nat j < p_num_channels pB).
Context (LA : length (pools (ch_mng kA)) = Z.to_nat IPC_SHM_MAX_POOLS).
Context (LB : length (pools (ch_mng kB)) = Z.to_nat IPC_SHM_MAX_POOLS).
Context (Hold : Forall2 peer_pool (pools (ch_mng kA)) (pools (ch_mng kB))).
Context (L R n : Z) (HH : halves m L R n).
Context (RL : uint_at 8 m L = IPC_SHM_STATE_READY) (RR : uint_at 8 m R = IPC_SHM_STATE_READY).

Lemma pair_connected x y oldA oldB :
  let ps := mcfg_pools x in let cA := chan_at l r x ps oldA in let cB := chan_at r l y ps oldB in
  mcfg_ok x ps -> mcfg_ok y ps -> L + SIZEOF_GLOBAL <= l -> R + SIZEOF_GLOBAL <= r ->
  l + chan_span ps <= L + n -> r + chan_span ps <= R + n ->
  setup (Z.of_nat j) pA cA (Z.of_nat j) pB cB /\ accounted cA (m, [], []) ->
  setup (Z.of_nat j) pB cB (Z.of_nat j) pA cA /\ accounted cB (m, [], []) ->
  connected (end_views cA cB L R n) m.
Proof.
  intros ps cA cB KA KB H1 H2 H3 H4 [SA AA] [SB AB].
  destruct (halves_pos _ _ _ _ HH) as [P1 P2]. destruct HH as [Ml Mr Hd [T1 T2]].
  destruct (sum_pos x ps KA) as (_ & Hs & Hp). assert (Hn : SIZEOF_GLOBAL <= n) by (unfold chan_span in *; lia).
  destruct AA as (fA & gA & OA), AB as (fB & gB & OB).
  constructor; try (intros []; cbn [end_views v_chan v_local v_remote v_size v_state peer]).
  - apply OA.
  - apply OB.
  - apply SA.
  - apply SA.
  - apply SB.
  - apply SA.
  - apply SB.
  - apply SA.
  - apply SB.
  - now apply (chan_at_inside l r L n).
  - now apply (chan_at_inside r l R n).
  - auto.
  - auto.
  - auto.
  - auto.
  - split; [eapply mapped_sub; [exact Ml | lia | unfold SIZEOF_GLOBAL in *; lia] | exact RL].
  - split; [eapply mapped_sub; [exact Mr | lia | unfold SIZEOF_GLOBAL in *; lia] | exact RR].
  - intros k z Hk Hz Hin. apply (chan_at_rings l r L R n x ps oldA KA H1 H2 H3 H4 k z Hk) in Hin.
    unfold disjoint_ranges, range, SIZEOF_GLOBAL in *. lia.
  - intros k z Hk Hz Hin. apply (chan_at_rings l r L R n x ps oldA KA H1 H2 H3 H4 k z Hk) in Hin.
    unfold disjoint_ranges, range, SIZEOF_GLOBAL in *. lia.
Qed.

Lemma managed_ready x y :
  let ps := mcfg_pools x in
  mcfg_ok x ps -> mcfg_ok y (mcfg_pools y) -> mc_pools x = mc_pools y -> halves m l r (chan_span ps) ->
  L + SIZEOF_GLOBAL <= l -> R + SIZEOF_GLOBAL <= r ->
  l + chan_span ps <= L + n -> r + chan_span ps <= R + n ->
  nthZ (p_channels pA) (Z.of_nat j) = Some (built (Z.of_nat j) l r (ChannelManaged x) kA) ->
  nthZ (p_channels pB) (Z.of_nat j) = Some (built (Z.of_nat j) r l (ChannelManaged y) kB) ->
  chan_up m l r (ChannelManaged x) -> chan_up m r l (ChannelManaged y) ->
  pair_ready m L R n pA pB j (ChannelManaged x) (ChannelManaged y).
Proof.
  intros ps KA KB Hab HHc B1 B2 B3 B4 EA EB U1 U2.
  assert (Ep : mcfg_pools y = ps) by (unfold ps, mcfg_pools; now rewrite Hab).
  assert (MA : has_managed pA (Z.of_nat j) (chan_at l r x ps (pools (ch_mng kA)))).
  { constructor; [lia |]. eexists; split_and!; [exact EA | reflexivity | reflexivity]. }
  assert (MB : has_managed pB (Z.of_nat j) (chan_at r l y ps (pools (ch_mng kB)))).
  { constructor; [lia |]. eexists; split_and!; [exact EB | reflexivity |].
    cbn [built set_mng ch_mng]. now rewrite Ep. }
  set (cA := chan_at l r x ps (pools (ch_mng kA))) in *. set (cB := chan_at r l y ps (pools (ch_mng kB))) in *.
  rewrite Ep in KB.
  assert (PA : setup (Z.of_nat j) pA cA (Z.of_nat j) pB cB /\ accounted cA (m, [], [])) by (apply managed_pair; auto; lia).
  assert (PB : setup (Z.of_nat j) pB cB (Z.of_nat j) pA cA /\ accounted cB (m, [], [])).
  { assert (HP := managed_pair m r l y x (pools (ch_mng kB)) (pools (ch_mng kA)) j pB pA).
    cbv zeta in HP. rewrite Ep in HP. apply HP; auto; [now apply halves_swap | | lia].
    apply Forall2_flip. eapply Forall2_impl; [exact peer_pool_sym | exact Hold]. }
  exists cA, cB. split; [exact PA |]. split; [exact PB |]. now apply pair_connected.
Qed.

Lemma unmanaged_ready x y k :
  halves m l r k -> UMEM_SIZE <= k ->
  nthZ (p_channels pA) (Z.of_nat j) = Some (built (Z.of_nat j) l r (ChannelUnmanaged x) kA) ->
  nthZ (p_channels pB) (Z.of_nat j) = Some (built (Z.of_nat j) r l (ChannelUnmanaged y) kB) ->
  chan_up m l r (ChannelUnmanaged x) -> chan_up m r l (ChannelUnmanaged y) ->
  pair_ready m L R n pA pB j (ChannelUnmanaged x) (ChannelUnmanaged y).
Proof.
  intros [Hm1 Hm2 Hd _] Hn EA EB (D1 & T1 & C1) (D2 & T2 & C2).
  assert (M1 : mapped m l UMEM_SIZE = true) by (eapply mapped_sub; [exact Hm1 | lia | lia]).
  assert (M2 : mapped m r UMEM_SIZE = true) by (eapply mapped_sub; [exact Hm2 | lia | lia]).
  eexists _, _. split_and!;
    [constructor; [| exact EA | reflexivity]; lia | constructor; [| exact EB | reflexivity]; lia
    | constructor; auto | constructor; auto | reflexivity | reflexivity | |];
    cbn [built set_umng ch_umng local_mem remote_mem]; unfold disjoint_ranges in *; congruence || lia.
Qed.

End Pair.

Lemma pair_up m cfgA cfgB chsA chsB pA pB L R j a b :
  cfg_ok cfgA chsA -> cfg_ok cfgB chsB -> Forall2 same_layout chsA chsB ->
  priv_shape pA -> priv_shape pB -> peer_olds pA pB ->
  halves m L R (cfg_shm_size cfgA) ->
  uint_at 8 m L = IPC_SHM_STATE_READY -> uint_at 8 m R = IPC_SHM_STATE_READY ->
  chans_all (chan_up m) (L + SIZEOF_GLOBAL) (R + SIZEOF_GLOBAL) chsA ->
  chans_all (chan_up m) (R + SIZEOF_GLOBAL) (L + SIZEOF_GLOBAL) chsB ->
  chsA !! j = Some a -> chsB !! j = Some b ->
  pair_ready m L R (cfg_shm_size cfgA) (priv_at cfgA chsA L R pA) (priv_at cfgB chsB R L pB) j a b.
Proof.
  intros KA KB Hl SA SB Ho HH RL RR UA UB Ha Hb.
  assert (Hab := Forall2_lookup_lr _ _ _ _ _ _ Hl Ha Hb).
  assert (Eo := same_layouts_offset chsA chsB j Hl). set (o := chan_offset chsA j) in *.
  assert (U1 := chans_all_lookup _ _ _ _ _ _ UA Ha). assert (U2 := chans_all_lookup _ _ _ _ _ _ UB Hb).
  rewrite <- !Z.add_assoc in U1, U2. fold (chan_offset chsA j) in U1. fold (chan_offset chsB j) in U2.
  rewrite <- Eo in U2. fold o in U1.
  destruct (chan_part cfgA chsA j a KA Ha) as (P1 & P2 & _). fold o in P1, P2.
  assert (Ka := Forall_lookup_1 _ _ _ _ (ck_each _ _ KA) Ha).
  assert (Kb := Forall_lookup_1 _ _ _ _ (ck_each _ _ KB) Hb).
  assert (Hby := ccfg_ok_bytes a Ka).
  assert (HH1 := halves_sub m L R _ o (chan_bytes a) HH ltac:(unfold SIZEOF_GLOBAL in *; lia) ltac:(lia) ltac:(lia)).
  destruct (priv_at_chan cfgA chsA L R pA j a KA SA Ha) as (kA & HkA & LA & NA & EA).
  destruct (priv_at_chan cfgB chsB R L pB j b KB SB Hb) as (kB & HkB & LB & NB & EB).
  assert (Hold := Forall2_lookup_lr _ _ _ _ _ _ Ho HkA HkB). cbv beta in Hold.
  assert (N8 : p_num_channels (priv_at cfgA chsA L R pA) <= 8).
  { assert (H := ck_len _ _ KA). cbn [priv_at p_num_channels]. now rewrite (ck_num _ _ KA). }
  cbv zeta in EA, EB. rewrite <- Eo in EB. fold o in EA.
  destruct a as [x | x | v], b as [y | y | v']; try easy; cbn [same_layout ccfg_ok chan_bytes] in *.
  - apply (managed_ready m (L + o) (R + o) j _ _ kA kB); auto; lia.
  - apply (unmanaged_ready m (L + o) (R + o) j _ _ kA kB) with (k := UMEM_SIZE + uc_size x); auto; lia.
Qed.

Section TwoEnds.
Context {PA : Type} `{PLA : Platform PA} `{LWA : !PlatformLaws PA} `{APA : App PA}.
Context {PB : Type} `{PLB : Platform PB} `{LWB : !PlatformLaws PB} `{APB : App PB}.

(** Initial state of one end. *)
Record fresh {P : Type} (w : world P) (i : Z) (p : ipc_shm_priv) : Prop := {
  fr_range : 0 <= i < IPC_SHM_MAX_INSTANCES;
  fr_unused : unused w i;
  fr_priv : nthZ (w_priv w) i = Some p;
  fr_shape : priv_shape p
}.

(** C20: start of both ends.  End A initialises an instance over shared memory
    in which the channels of the remote half are cleared; later end B, whose
    halves are those of A exchanged, initialises it with a configuration of the
    same layout, the half of A being as A left it.  Both calls return 0, both
    state words are READY, B is in operation, every managed channel is set up
    for traffic in both directions with all its buffers free and connects the
    ends in the sense of the theorems on concurrent use, and on no unmanaged
    channel a transmission is pending. *)
Theorem instances_start (wA : world PA) iA cfgA chsA pA mA (plA : PA) cfgB chsB pB :
  fresh wA iA pA -> cfg_ok cfgA chsA -> brought_up wA iA cfgA mA plA ->
  let L := local_base iA plA in let R := remote_base iA plA in
  (forall x, range (R + SIZEOF_GLOBAL) (chans_bytes chsA) x -> byte_at (mem_bytes mA) x = 0) ->
  cfg_ok cfgB chsB -> cfg_shm_size cfgB = cfg_shm_size cfgA -> Forall2 same_layout chsA chsB ->
  priv_shape pB -> peer_olds pA pB ->
  exists wA' pA', ipc_shm_init_instance iA (Some cfgA) wA = Ret 0 wA' /\ used wA' iA pA' /\
    forall (wB : world PB) iB mB (plB : PB),
      fresh wB iB pB -> brought_up wB iB cfgB mB plB ->
      local_base iB plB = R -> remote_base iB plB = L ->
      (forall x, range L (cfg_shm_size cfgA) x -> byte_at (mem_bytes mB) x = byte_at (mem_bytes (w_mem wA')) x) ->
      exists wB' pB', ipc_shm_init_instance iB (Some cfgB) wB = Ret 0 wB' /\ operational wB' iB pB' /\
        uint_at 8 (w_mem wB') L = IPC_SHM_STATE_READY /\
        uint_at 8 (w_mem wB') R = IPC_SHM_STATE_READY /\
        forall (j : nat) a b, chsA !! j = Some a -> chsB !! j = Some b ->
          pair_ready (w_mem wB') L R (cfg_shm_size cfgA) pA' pB' j a b.
Proof.
  intros [HiA UA HpA SA] KA BA L R Hz KB Esz Hl SB Ho. assert (OA := ck_each _ _ KA).
  assert (OB := ck_each _ _ KB). assert (Hn := chans_bytes_nonneg chsA OA). assert (Hfit := ck_fit _ _ KA).
  assert (Eby := same_layouts_bytes _ _ Hl). assert (HS : SIZEOF_GLOBAL = 8) by reflexivity.
  destruct (instance_up wA iA cfgA chsA pA mA plA HiA UA HpA SA KA BA) as (wA' & E1 & S1).
  { apply chans_all_intro; [exact OA |]. intros l' r' c Hc H1 H2 H3. fold L R in H1, H2, H3.
    apply chan_peer_cleared; [exact Hc |]. intros x Hx. apply Hz. unfold range in *. lia. }
  destruct S1 as [(Hw1 & Hu1 & V1) R1 F1 _]. fold L R in Hw1, Hu1, V1, R1, F1.
  exists wA', (priv_at cfgA chsA L R pA). split_and!; [exact E1 | exact Hu1 |].
  intros wB iB mB plB [HiB UB HpB _] BB EL ER Hkeep.
  assert (Vm : chans_all (chan_up mB) (L + SIZEOF_GLOBAL) (R + SIZEOF_GLOBAL) chsA).
  { eapply chans_up_keep; [exact OA | | exact V1]. intros x Hx. apply Hkeep. unfold range in *. lia. }
  destruct (instance_up wB iB cfgB chsB pB mB plB HiB UB HpB SB KB BB) as (wB' & E2 & S2).
  { rewrite EL, ER. apply (chans_all_impl (fun l r => chan_up mB r l)); [exact OB | |].
    - intros l' r' c Hc _ _ _. now apply chan_up_peer.
    - apply chans_all_swap. eapply same_layouts_up; eauto. }
  destruct S2 as [(Hw2 & Hu2 & V2) R2 F2 [L2 B2]]. destruct BB as [_ _ HHB].
  rewrite EL, ER in *. rewrite Esz in HHB. rewrite <- Eby in F2.
  assert (Hdis : forall x, range L (cfg_shm_size cfgA) x -> ~ range R (SIZEOF_GLOBAL + chans_bytes chsA) x).
  { intros x Hx Hx'. destruct (hv_disj _ _ _ _ HHB); unfold range in *; lia. }
  assert (HH2 := halves_swap _ _ _ _ (halves_frame _ _ _ _ _ _ F2 HHB)).
  assert (RL : uint_at 8 (w_mem wB') L = IPC_SHM_STATE_READY).
  { rewrite <- R1. apply word_keep. intros x Hx. rewrite (proj2 F2), Hkeep; [reflexivity | |].
    - unfold range in *. lia.
    - apply Hdis. unfold range in *. lia. }
  exists wB', (priv_at cfgB chsB R L pB). split_and!; [exact E2 | | exact RL | exact R2 |].
  - destruct (B2 iB) as [_ ER2]. rewrite ER in ER2.
    constructor; [exact Hu2 | exact L2 | | now rewrite ER2]. rewrite ER2.
    eapply mapped_sub; [exact (hv_local _ _ _ _ HH2) | lia | lia].
  - intros j a b Ha Hb. eapply pair_up; eauto. eapply chans_up_keep; [exact OA | | exact Vm].
    intros x Hx. apply (proj2 F2). apply Hdis. unfold range in *. lia.
Qed.

End TwoEnds.
