(* ===== verification/AllInstances.v ===== *)
(** * All instances of a configuration

    [ipc_shm_init] brings up the instances of a configuration in turn.  Each
    start works on its own half of shared memory, so the instances started
    before stay up. *)

From S2P Require Import Prelude Memory Types Queue QueueSpec World Shm ShmSpec Traffic Delivery.
From S2P Require Import Ownership RxLoop Unmanaged Init Boot Startup Instance InstanceSpec.
#[local] Open Scope Z_scope.

(** ** States that depend on bytes and mapping only *)

(** The mapping grows, the bytes in [P] stay. *)
Record extends (P : Z -> Prop) (m m' : memory) : Prop := {
  ex_mapped : forall a n, mapped m a n = true -> mapped m' a n = true;
  ex_bytes : forall x, P x -> byte_at (mem_bytes m') x = byte_at (mem_bytes m) x
}.

#[export] Instance extends_refl P : Reflexive (extends P).
Proof. intros m. constructor; auto. Qed.

#[export] Instance extends_trans P : Transitive (extends P).
Proof. intros m1 m2 m3 [M1 B1] [M2 B2]. constructor; [auto |]. intros x Hx. rewrite B2, B1; auto. Qed.

Lemma extends_mono (P Q : Z -> Prop) m m' : (forall x, P x -> Q x) -> extends Q m m' -> extends P m m'.
Proof. intros H [M B]. constructor; auto. Qed.

Lemma same_except_extends (F P : Z -> Prop) m m' :
  same_except F m m' -> (forall x, P x -> ~ F x) -> extends P m m'.
Proof. intros [R B] H. constructor; [unfold mapped; now rewrite R | auto]. Qed.

Lemma extends_word P m m' a n :
  extends P m m' -> (forall x, range a (Z.of_nat n) x -> P x) -> uint_at n m' a = uint_at n m a.
Proof. intros [_ B] H. unfold uint_at. f_equal. apply load_bytes_ext. auto. Qed.

Lemma chan_peer_remap m m' l r c : mem_bytes m' = mem_bytes m -> chan_peer m l r c -> chan_peer m' l r c.
Proof.
  intros E. destruct c as [mc | uc | v]; cbn [chan_peer]; [| | easy];
    unfold peer_pools, peer_ring, ring_done, umem_done, tx_count, seen_count, uint_at; now rewrite E.
Qed.

(** The remote channels as a starting end may find them. *)
Lemma chans_peer_extends P m m' l r chs :
  extends P m m' -> Forall ccfg_ok chs -> (forall x, range r (chans_bytes chs) x -> P x) ->
  chans_all (chan_peer m) l r chs -> chans_all (chan_peer m') l r chs.
Proof.
  intros [_ B] Hok HP. apply chans_all_impl; [exact Hok |]. intros l' r' c Hc H1 H2 H3 U.
  apply (chan_peer_remap (Memory (mem_regions m) (mem_bytes m'))); [reflexivity |].
  eapply (chan_peer_frame (fun x => ~ range r (chans_bytes chs) x) m); [| exact Hc | | exact U].
  - split; [reflexivity |]. intros x Hx. apply B, HP. unfold range in *. lia.
  - intros x Hx. unfold range in *. lia.
Qed.

(** ** Instances in their places *)

(** A configuration, its channels, and where its two halves are mapped. *)
Record seat : Type := Seat {
  seat_cfg : ipc_shm_cfg;
  seat_chs : list ipc_shm_channel_cfg;
  seat_local : Z;
  seat_remote : Z
}.

Definition local_half (s : seat) : Z -> Prop := range (seat_local s) (cfg_shm_size (seat_cfg s)).
Definition remote_half (s : seat) : Z -> Prop := range (seat_remote s) (cfg_shm_size (seat_cfg s)).

(** The start of [s] does not reach what a later one has to do with. *)
Definition apart (s t : seat) : Prop :=
  forall x, local_half s x -> ~ local_half t x /\ ~ remote_half t x.

Section All.
Context {P : Type} `{PL : Platform P} `{LW : !PlatformLaws P} `{AP : App P}.

(** Instance [i] is in use and READY with the channels of [s] up. *)
Definition instance_runs (w : world P) (i : Z) (s : seat) : Prop :=
  (exists p, used w i p /\ p_global p = seat_local s /\ p_num_channels p = Z.of_nat (length (seat_chs s))) /\
  uint_at 8 (w_mem w) (seat_local s) = IPC_SHM_STATE_READY /\
  chans_all (chan_up (w_mem w)) (seat_local s + SIZEOF_GLOBAL) (seat_remote s + SIZEOF_GLOBAL) (seat_chs s).

(** Instance [i] can be started: its configuration is acceptable, it was never
    initialised, its remote half is untouched or was set up by the peer. *)
Record startable (w : world P) (i : Z) (s : seat) : Prop := {
  sa_cfg : cfg_ok (seat_cfg s) (seat_chs s);
  sa_priv : exists p, nthZ (w_priv w) i = Some p /\ p_global p = NULL /\ priv_shape p;
  sa_peer : chans_all (chan_peer (w_mem w)) (seat_local s + SIZEOF_GLOBAL) (seat_remote s + SIZEOF_GLOBAL)
              (seat_chs s)
}.

(** The platform brings instance [i] up, maps its halves where [s] says, and
    leaves what is mapped and every byte of it alone. *)
Definition comes_up (w : world P) (i : Z) (s : seat) : Prop :=
  exists m2 pl2, brought_up w i (seat_cfg s) m2 pl2 /\ extends (fun _ => True) (w_mem w) m2 /\
    local_base i pl2 = seat_local s /\ remote_base i pl2 = seat_remote s.

(** ... and so for the instances from [i] on, each in its turn. *)
Fixpoint all_come_up (w : world P) (i : Z) (ss : list seat) : Prop :=
  match ss with
  | [] => True
  | s :: ss =>
      comes_up w i s /\
      forall w', ipc_shm_init_instance i (Some (seat_cfg s)) w = Ret 0 w' -> all_come_up w' (i + 1) ss
  end.

(** What the starts from instance [i] on leave alone: bytes in none of the
    local halves, private data of the other instances. *)
Definition starts_keep (w w' : world P) (i : Z) (ss : list seat) : Prop :=
  extends (fun x => Forall (fun s => ~ local_half s x) ss) (w_mem w) (w_mem w') /\
  forall j, j < i \/ i + Z.of_nat (length ss) <= j -> nthZ (w_priv w') j = nthZ (w_priv w) j.

Lemma startable_later w w1 i s t j :
  startable w j t -> starts_keep w w1 i [s] -> i < j -> apart s t -> startable w1 j t.
Proof.
  intros [Hc Hp Hpeer] [He Hn] Hij Ha. constructor; [exact Hc | |].
  - rewrite Hn by (cbn; lia). exact Hp.
  - assert (Hb := chans_bytes_nonneg _ (ck_each _ _ Hc)). assert (Hf := ck_fit _ _ Hc).
    eapply chans_peer_extends; [exact He | apply Hc | | exact Hpeer]. intros x Hx. constructor; [| constructor].
    intros Hs. destruct (Ha x Hs) as [_ Hr]. apply Hr. unfold remote_half, range, SIZEOF_GLOBAL in *. lia.
Qed.

Lemma runs_later w w1 i j s ss :
  instance_runs w j s -> cfg_ok (seat_cfg s) (seat_chs s) -> starts_keep w w1 i ss -> j < i ->
  Forall (apart s) ss -> instance_runs w1 j s.
Proof.
  intros ((p & [U1 U2 U3 U4 U5] & Hg & Hnum) & Hr & Hup) Hc [He Hn] Hij Ha.
  assert (Hb := chans_bytes_nonneg _ (ck_each _ _ Hc)). assert (Hf := ck_fit _ _ Hc).
  assert (Hl : forall x, local_half s x -> Forall (fun t => ~ local_half t x) ss).
  { intros x Hx. eapply Forall_impl; [| exact Ha]. intros t Ht. apply (Ht x Hx). }
  assert (Hw : uint_at 8 (w_mem w1) (seat_local s) = uint_at 8 (w_mem w) (seat_local s)).
  { apply (extends_word _ _ _ _ 8 He). intros x Hx. apply Hl. unfold local_half, range, SIZEOF_GLOBAL in *. lia. }
  split_and!.
  - exists p. split_and!; auto. constructor; auto.
    + rewrite Hn by (left; exact Hij). exact U2.
    + now apply (ex_mapped _ _ _ He).
    + rewrite Hg, Hw in *. rewrite Hr. easy.
  - now rewrite Hw.
  - eapply chans_up_keep; [apply Hc | | exact Hup]. intros x Hx. apply (ex_bytes _ _ _ He), Hl.
    unfold local_half, range, SIZEOF_GLOBAL in *. lia.
Qed.

(** ** One start *)

Lemma start_one w i s :
  0 <= i < IPC_SHM_MAX_INSTANCES -> startable w i s -> comes_up w i s ->
  exists w', ipc_shm_init_instance i (Some (seat_cfg s)) w = Ret 0 w' /\
    instance_runs w' i s /\ starts_keep w w' i [s].
Proof.
  intros Hi [Hc (p & Hp & Hg & Hsh) Hpeer] (m2 & pl2 & Hbu & He & HL & HR).
  assert (Hun : unused w i) by (right; exists p; split_and!; auto; lia).
  assert (Hpeer2 : chans_all (chan_peer m2) (local_base i pl2 + SIZEOF_GLOBAL) (remote_base i pl2 + SIZEOF_GLOBAL)
                     (seat_chs s)).
  { rewrite HL, HR. eapply chans_peer_extends; [exact He | apply Hc | easy | exact Hpeer]. }
  destruct (instance_up w i _ _ p m2 pl2 Hi Hun Hp Hsh Hc Hbu Hpeer2) as (w' & E & [(Hw & Hu & Hup) Hr Hf _]).
  exists w'. rewrite HL, HR in *. split; [exact E |]. split; [split_and!; auto |].
  - eexists. split; [exact Hu |]. split; [reflexivity |]. cbn [priv_at p_num_channels]. apply Hc.
  - split.
    + etransitivity; [eapply extends_mono; [| exact He]; easy |].
      eapply same_except_extends; [exact Hf |]. intros x Hx Hr'. apply Forall_cons_1 in Hx as [Hx _]. apply Hx.
      assert (H := ck_fit _ _ Hc). unfold local_half, range in *. lia.
    + intros j Hj. rewrite Hw. apply nthZ_setZ_ne; [lia | cbn in Hj; lia].
Qed.

Lemma starts_keep_trans w w1 w2 i s ss :
  starts_keep w w1 i [s] -> starts_keep w1 w2 (i + 1) ss -> starts_keep w w2 i (s :: ss).
Proof.
  intros [E1 N1] [E2 N2]. split.
  - etransitivity; (eapply extends_mono; [| eassumption]); intros x Hx; inversion Hx; subst; auto.
  - intros j Hj. cbn [length] in Hj. rewrite N2, N1; [reflexivity | cbn; lia | lia].
Qed.

(** ** The loop of [ipc_shm_init] *)

Definition init_turn (c : ipc_shm_instances_cfg) (i : Z) : M (world P) (unit + Z) :=
  let* st := ipc_instance_is_free i in
  if decide (st = IPC_SHM_INSTANCE_USED) then cret (inl tt) else
  let* cfg := copt (nthZ (ic_shm_cfg c) i) in
  let* err := ipc_shm_init_instance i (Some cfg) in
  if negb (err =? 0) then cret (inr err) else cret (inl tt).

Lemma init_turns c ss : forall w i,
  0 <= i -> i + Z.of_nat (length ss) <= IPC_SHM_MAX_INSTANCES ->
  (forall (j : nat) s, ss !! j = Some s ->
     nthZ (ic_shm_cfg c) (i + Z.of_nat j) = Some (seat_cfg s) /\ startable w (i + Z.of_nat j) s) ->
  ForallOrdPairs apart ss -> all_come_up w i ss ->
  exists w', cfor (length ss) i (init_turn c) w = Ret (inl tt) w' /\
    (forall (j : nat) s, ss !! j = Some s -> instance_runs w' (i + Z.of_nat j) s) /\ starts_keep w w' i ss.
Proof.
  induction ss as [|s ss IH]; intros w i Hi Hlen Hss Hap Hup; cbn [length cfor].
  { exists w. split; [reflexivity |]. split; [easy |]. split; [reflexivity | auto]. }
  destruct Hup as [Hs Hup]. destruct (Hss 0%nat s eq_refl) as [Ec Hst]. rewrite Z.add_0_r in Ec, Hst.
  inversion Hap as [|? ? Ha Hap']; subst. cbn [length] in Hlen.
  destruct (start_one w i s ltac:(lia) Hst Hs) as (w1 & E1 & R1 & K1).
  destruct (sa_priv _ _ _ Hst) as (p & Hp & Hg & _).
  destruct (ipc_instance_is_free_unused w i) as (st & Est & Hne); [right; exists p; split_and!; auto; lia |].
  destruct (IH w1 (i + 1)) as (w' & E' & R' & K'); auto; [lia | lia | |].
  - intros j t Hj. destruct (Hss (S j) t Hj) as [Ej Sj].
    replace (i + Z.of_nat (S j)) with (i + 1 + Z.of_nat j) in Ej, Sj by lia. split; [exact Ej |].
    eapply startable_later; [exact Sj | exact K1 | lia |].
    exact (proj1 (List.Forall_forall _ _) Ha t (proj1 (list_elem_of_In _ _) (list_elem_of_lookup_2 _ _ _ Hj))).
  - exists w'. split_and!.
    + unfold init_turn at 1. rewrite cbind_assoc, (cbind_Ret _ _ _ _ _ Est), decide_False by exact Hne.
      rewrite Ec, cbind_assoc, cbind_copt, cbind_assoc, (cbind_Ret _ _ _ _ _ E1). cbn [Z.eqb negb].
      rewrite cbind_cret. exact E'.
    + intros [|j] t Hj.
      * injection Hj as <-. rewrite Z.add_0_r. eapply runs_later; [exact R1 | apply Hst | exact K' | lia | exact Ha].
      * replace (i + Z.of_nat (S j)) with (i + 1 + Z.of_nat j) by lia. now apply R'.
    + now apply starts_keep_trans with w1.
Qed.

(** Instances in use are passed over. *)
Lemma init_turns_used c n : forall w i,
  (forall j, i <= j < i + Z.of_nat n -> exists p, used w j p) ->
  cfor n i (init_turn c) w = Ret (inl tt) w.
Proof.
  induction n as [|n IH]; intros w i Hu; cbn [cfor]; [reflexivity |].
  destruct (Hu i ltac:(lia)) as [p Hp]. unfold init_turn at 1.
  rewrite cbind_assoc, (cbind_Ret _ _ _ _ _ (ipc_instance_is_free_used _ _ _ Hp)), decide_True by reflexivity.
  rewrite cbind_cret. apply IH. intros j Hj. apply Hu. lia.
Qed.

(** C21: start of all instances of a configuration.  When none was initialised
    before, each configuration is acceptable, its remote half is untouched or was
    set up by the peer, no start reaches a half a later one works on, and the
    platform comes up for each in its turn, [ipc_shm_init] returns 0 with every
    instance in use, READY and with all its channels up, having written their
    local halves only; calling it again returns 0 and changes nothing. *)
Theorem all_instances_start w c ss :
  ic_num_instances c = Z.of_nat (length ss) -> 1 <= Z.of_nat (length ss) <= IPC_SHM_MAX_INSTANCES ->
  (forall (j : nat) s, ss !! j = Some s ->
     nthZ (ic_shm_cfg c) (Z.of_nat j) = Some (seat_cfg s) /\ startable w (Z.of_nat j) s) ->
  ForallOrdPairs apart ss -> all_come_up w 0 ss ->
  exists w', ipc_shm_init (Some c) w = Ret 0 w' /\
    (forall (j : nat) s, ss !! j = Some s -> instance_runs w' (Z.of_nat j) s) /\
    starts_keep w w' 0 ss /\
    ipc_shm_init (Some c) w' = Ret 0 w'.
Proof.
  intros Hn Hlen Hss Hap Hup.
  destruct (init_turns c ss w 0 ltac:(lia) ltac:(lia) Hss Hap Hup) as (w' & E & R & K).
  assert (Hrun : forall w0, ipc_shm_init (Some c) w0
            = (let* r := cfor (length ss) 0 (init_turn c) in
               match r with inl _ => cret 0 | inr err => cret err end) w0).
  { intros w0. unfold ipc_shm_init. rewrite Hn, Nat2Z.id.
    replace (_ || _) with false by (symmetry; apply orb_false_iff; rewrite Z.ltb_ge, Z.eqb_neq; lia).
    reflexivity. }
  exists w'. split_and!; [| exact R | exact K |].
  - rewrite Hrun, (cbind_Ret _ _ _ _ _ E). reflexivity.
  - rewrite Hrun. rewrite (cbind_Ret _ _ _ (inl tt) w'); [reflexivity |]. apply init_turns_used. intros j Hj.
    destruct (lookup_lt_is_Some_2 ss (Z.to_nat j)) as [s Hs]; [lia |].
    destruct (R _ s Hs) as [(p & Hu & _) _]. rewrite Z2Nat.id in Hu by lia. eauto.
Qed.

End All.
