(* ===== verification/Mscm.v ===== *)
(** * The interrupt hardware: registers and its environment (src/hw)

    What the platform files under src/hw share: C structure layout, from which
    the register addresses are computed, access to memory-mapped registers, and
    the interfaces between a platform file, the operating system layer that
    maps the registers for it and the driver above it.  [HwTrace] is an environment
    that keeps the register accesses made, so that theorems can speak of them. *)

From Stdlib Require Import String.
From S2P Require Import Prelude Memory Types World.

(** ** Structure layout *)

(** [f_count] elements of [f_size] bytes aligned at [f_align]. *)
Record field : Type := Field {
  f_name : string;
  f_size : Z;
  f_align : Z;
  f_count : Z
}.

Definition U32 (s : string) : field := Field s 4 4 1.
Definition U32s (s : string) (n : Z) : field := Field s 4 4 n.
Definition U16s (s : string) (n : Z) : field := Field s 2 2 n.
Definition U8s (s : string) (n : Z) : field := Field s 1 1 n.
(** The pair of 32-bit status and generation registers, per core and interrupt. *)
Definition IRs (s : string) (cores irqs : Z) : field := Field s 8 4 (cores * irqs).

Definition align_up (o a : Z) : Z := (o + a - 1) / a * a.

Fixpoint offset_from (o : Z) (name : string) (fs : list field) : option Z :=
  match fs with
  | [] => None
  | f :: fs =>
      let o := align_up o (f_align f) in
      if String.eqb (f_name f) name then Some o
      else offset_from (o + f_size f * f_count f) name fs
  end.

Fixpoint end_from (o : Z) (fs : list field) : Z :=
  match fs with
  | [] => o
  | f :: fs => end_from (align_up o (f_align f) + f_size f * f_count f) fs
  end.

Definition offsetof (fs : list field) (name : string) : option Z := offset_from 0 name fs.
Definition sizeof (fs : list field) : Z := align_up (end_from 0 fs) 4.

(** ** Registers *)

(** What a platform file needs: its static private data (an array of [H]), the
    register bus, and the mapping of the register block by the OS layer. *)
Class HwEnv (H P : Type) : Type := {
  hw_privs : P -> list H;
  set_hw_privs : list H -> P -> P;
  mmio_read : nat -> Z -> M P Z;
  mmio_write : nat -> Z -> Z -> M P unit;
  ipc_os_map_intc : M (memory * P) Z;
  ipc_os_unmap_intc : Z -> M (memory * P) unit
}.

(** The bus answers every access and leaves the private data alone, as well as
    the rest of the platform ([os_of]). *)
Class HwEnvLaws (H P : Type) `{HwEnv H P} : Type := {
  os_part : Type;
  os_of : P -> os_part;
  hw_get_set l p : hw_privs (set_hw_privs l p) = l;
  os_set l p : os_of (set_hw_privs l p) = os_of p;
  mmio_read_law n a p :
    exists v p', mmio_read n a p = Ret v p' /\ hw_privs p' = hw_privs p /\ os_of p' = os_of p;
  mmio_write_law n a v p :
    exists p', mmio_write n a v p = Ret tt p' /\ hw_privs p' = hw_privs p /\ os_of p' = os_of p
}.

Section Access.
Context {H P : Type} `{HwEnv H P}.

Definition io_read (n : nat) (a : Z) : M (memory * P) Z := fun s =>
  if mapped s.1 a (Z.of_nat n) then
    match mmio_read n a s.2 with
    | Ret v p => Ret v (s.1, p)
    | Fault => Fault
    end
  else Fault.

Definition io_write (n : nat) (a v : Z) : M (memory * P) unit := fun s =>
  if mapped s.1 a (Z.of_nat n) then
    match mmio_write n a v s.2 with
    | Ret _ p => Ret tt (s.1, p)
    | Fault => Fault
    end
  else Fault.

Definition readl (a : Z) : M (memory * P) Z := let* v := io_read 4 a in cret (u32 v).
Definition readw (a : Z) : M (memory * P) Z := let* v := io_read 2 a in cret (u16 v).
Definition writel (v a : Z) : M (memory * P) unit := io_write 4 a (u32 v).
Definition writew (v a : Z) : M (memory * P) unit := io_write 2 a (u16 v).

(** ipc_hw_priv[instance] *)
Definition get_hw (instance : Z) : M (memory * P) H := fun s =>
  match nthZ (hw_privs s.2) instance with
  | Some h => Ret h s
  | None => Fault
  end.

Definition set_hw (instance : Z) (h : H) : M (memory * P) unit := fun s =>
  match nthZ (hw_privs s.2) instance with
  | Some _ => Ret tt (s.1, set_hw_privs (setZ (hw_privs s.2) instance h) s.2)
  | None => Fault
  end.

Definition upd_hw (instance : Z) (f : H -> H) : M (memory * P) unit :=
  let* h := get_hw instance in set_hw instance (f h).

(** Address of element [i] of an array of [n] registers of [sz] bytes at [a]. *)
Definition reg_array (a sz n i : Z) : M (memory * P) Z :=
  if (0 <=? i) && (i <? n) then cret (a + sz * i) else cfault.

(** ** Interrupt router *)

(** Where a register block keeps the routing control array IRSPRC and the
    matrix IRCPnIRx of status/generation pairs, with their dimensions. *)
Record mscm_layout : Type := Layout {
  irsprc_off : Z;
  irsprc_count : Z;
  ir_off : Z;
  cp_count : Z;
  irq_count : Z
}.

Definition IPC_MSCM_IRSPRCn_GIC500 : Z := 0x1.
Definition IPC_MSCM_IRCPnIGRn_INT_EN : Z := 0x1.
Definition IPC_MSCM_IRCPCFG_LOCK : Z := 0x80000000.

(** &mscm->IRSPRC[idx] *)
Definition irsprc_reg (L : mscm_layout) (mscm idx : Z) : M (memory * P) Z :=
  reg_array (mscm + irsprc_off L) 2 (irsprc_count L) idx.

(** &mscm->IRCPnIRx[core][irq].IPC_ISR; IPC_IGR is the next word *)
Definition ircp_reg (L : mscm_layout) (mscm core irq : Z) : M (memory * P) Z :=
  let* row := reg_array (mscm + ir_off L) (8 * irq_count L) (cp_count L) core in
  reg_array row 8 (irq_count L) irq.

(** Turn routing of an interrupt to the local cluster on and off. *)
Definition route_enable (L : mscm_layout) (mscm idx : Z) : M (memory * P) unit :=
  let* r := irsprc_reg L mscm idx in
  let* irsprc_mask := readw r in
  writew (Z.lor irsprc_mask IPC_MSCM_IRSPRCn_GIC500) r.

Definition route_disable (L : mscm_layout) (mscm idx : Z) : M (memory * P) unit :=
  let* r := irsprc_reg L mscm idx in
  let* irsprc_mask := readw r in
  writew (Z.land irsprc_mask (Z.lnot IPC_MSCM_IRSPRCn_GIC500)) r.

(** Generate interrupt [irq] on a core; clear it there for a sender. *)
Definition raise_irq (L : mscm_layout) (mscm core irq : Z) : M (memory * P) unit :=
  let* r := ircp_reg L mscm core irq in
  writel IPC_MSCM_IRCPnIGRn_INT_EN (r + 4).

Definition ack_irq (L : mscm_layout) (mscm core irq sender : Z) : M (memory * P) unit :=
  let* r := ircp_reg L mscm core irq in
  writel (Z.shiftl 1 sender) r.

End Access.

(** ** Traces *)

(** An access of [n] bytes at an address, with the value read or written. *)
Inductive hw_io : Type :=
| HwRead (n : nat) (a v : Z)
| HwWrite (n : nat) (a v : Z).

(** A bus that keeps its accesses, in order. *)
Class HwTrace (H P : Type) `{HwEnv H P} : Type := {
  hw_trace : P -> list hw_io;
  trace_set l p : hw_trace (set_hw_privs l p) = hw_trace p;
  trace_read n a p v p' : mmio_read n a p = Ret v p' -> hw_trace p' = hw_trace p ++ [HwRead n a v];
  trace_write n a v p p' : mmio_write n a v p = Ret tt p' -> hw_trace p' = hw_trace p ++ [HwWrite n a v]
}.

(** ** Interface of a platform file (src/hw/ipc-hw.h) *)

Class HwOps (P : Type) : Type := {
  hw_init : Z -> ipc_shm_cfg -> M (memory * P) Z;
  hw_free : Z -> M (memory * P) unit;
  hw_get_rx_irq : Z -> M (memory * P) Z;
  hw_irq_enable : Z -> M (memory * P) unit;
  hw_irq_disable : Z -> M (memory * P) unit;
  hw_irq_notify : Z -> M (memory * P) unit;
  hw_irq_clear : Z -> M (memory * P) unit
}.

(** What the layers above rely on: once an instance is live, interrupt control
    succeeds, keeps it live and touches neither shared memory nor the OS part. *)
Class HwOpsLaws (P : Type) `{HwOps P} : Type := {
  hw_live : Z -> list (Z * Z) -> P -> Prop;
  hw_os_part : Type;
  hw_os_of : P -> hw_os_part;
  hw_enable_law i m p : hw_live i (mem_regions m) p ->
    exists p', hw_irq_enable i (m, p) = Ret tt (m, p') /\ hw_live i (mem_regions m) p' /\
      hw_os_of p' = hw_os_of p;
  hw_disable_law i m p : hw_live i (mem_regions m) p ->
    exists p', hw_irq_disable i (m, p) = Ret tt (m, p') /\ hw_live i (mem_regions m) p' /\
      hw_os_of p' = hw_os_of p;
  hw_notify_law i m p : hw_live i (mem_regions m) p ->
    exists p', hw_irq_notify i (m, p) = Ret tt (m, p') /\ hw_live i (mem_regions m) p' /\
      hw_os_of p' = hw_os_of p;
  hw_clear_law i m p : hw_live i (mem_regions m) p ->
    exists p', hw_irq_clear i (m, p) = Ret tt (m, p') /\ hw_live i (mem_regions m) p' /\
      hw_os_of p' = hw_os_of p
}.

(** ** Evaluation lemmas *)

(** A register block of [sz] bytes holds the arrays of a layout. *)
Record layout_in (L : mscm_layout) (sz : Z) : Prop := {
  li_irsprc : 0 <= irsprc_off L /\ irsprc_off L + 2 * irsprc_count L <= sz;
  li_ir : 0 <= ir_off L /\ ir_off L + 8 * (cp_count L * irq_count L) <= sz;
  li_dims : 0 < cp_count L /\ 0 < irq_count L
}.

Section Eval.
Context {H P : Type} `{HE : HwEnv H P} `{HL : !HwEnvLaws H P}.
Implicit Types (m : memory) (p : P) (L : mscm_layout).

(** Private data [h] of instance [i], OS part [o]. *)
Definition hw_at (i : Z) (h : H) (o : os_part) (p : P) : Prop :=
  nthZ (hw_privs p) i = Some h /\ os_of p = o.

Lemma get_hw_eval i h o m p : hw_at i h o p -> get_hw i (m, p) = Ret h (m, p).
Proof. intros [E _]. unfold get_hw. cbn [snd]. now rewrite E. Qed.

Lemma upd_hw_eval i h o m p f :
  hw_at i h o p -> exists p', upd_hw i f (m, p) = Ret tt (m, p') /\ hw_at i (f h) o p'.
Proof.
  intros Ha. unfold upd_hw. rewrite (cbind_Ret _ _ _ _ _ (get_hw_eval _ _ _ _ _ Ha)).
  destruct Ha as [E Eo]. unfold set_hw. cbn [fst snd]. rewrite E.
  eexists; split; [reflexivity |]. split; [| now rewrite os_set].
  rewrite hw_get_set. unfold nthZ, setZ in *. destruct (i <? 0); [discriminate |].
  apply list_lookup_insert_eq. eapply lookup_lt_Some; eauto.
Qed.

Lemma io_read_eval i h o n a m p :
  hw_at i h o p -> mapped m a (Z.of_nat n) = true ->
  exists v p', io_read n a (m, p) = Ret v (m, p') /\ hw_at i h o p'.
Proof.
  intros [E Eo] Hm. unfold io_read. cbn [fst snd]. rewrite Hm.
  destruct (mmio_read_law n a p) as (v & p' & -> & E1 & E2).
  exists v, p'. split; [reflexivity |]. split; congruence.
Qed.

Lemma io_write_eval i h o n a v m p :
  hw_at i h o p -> mapped m a (Z.of_nat n) = true ->
  exists p', io_write n a v (m, p) = Ret tt (m, p') /\ hw_at i h o p'.
Proof.
  intros [E Eo] Hm. unfold io_write. cbn [fst snd]. rewrite Hm.
  destruct (mmio_write_law n a v p) as (p' & -> & E1 & E2).
  exists p'. split; [reflexivity |]. split; congruence.
Qed.

Lemma readl_eval i h o a m p :
  hw_at i h o p -> mapped m a 4 = true ->
  exists v p', readl a (m, p) = Ret v (m, p') /\ hw_at i h o p'.
Proof.
  intros Ha Hm. destruct (io_read_eval i h o 4 a m p Ha Hm) as (v & p' & E & Ha').
  exists (u32 v), p'. unfold readl. now rewrite (cbind_Ret _ _ _ _ _ E).
Qed.

(** A register that always reads as [v]. *)
Definition reads_as (n : nat) (a v : Z) : Prop :=
  forall p, exists p', mmio_read n a p = Ret v p'.

Lemma readl_value i h o a v m p :
  hw_at i h o p -> mapped m a 4 = true -> reads_as 4 a v ->
  exists p', readl a (m, p) = Ret (u32 v) (m, p') /\ hw_at i h o p'.
Proof.
  intros [E Eo] Hm Hv. destruct (mmio_read_law 4 a p) as (v' & p' & E1 & E2 & E3).
  destruct (Hv p) as (p'' & E4). assert (v' = v) as -> by congruence.
  exists p'. split; [| split; congruence].
  unfold readl, io_read, cbind. cbn [fst snd]. change (Z.of_nat 4) with 4.
  now rewrite Hm, E1.
Qed.

Lemma lock_bit w : (Z.land (u32 w) IPC_MSCM_IRCPCFG_LOCK =? 0) = negb (Z.testbit w 31).
Proof.
  change IPC_MSCM_IRCPCFG_LOCK with (2 ^ 31).
  replace (Z.testbit w 31) with (Z.testbit (u32 w) 31)
    by (unfold u32; apply Z.mod_pow2_bits_low; lia).
  destruct (Z.testbit (u32 w) 31) eqn:E; cbn [negb].
  - apply Z.eqb_neq. intros E0. apply (f_equal (fun z => Z.testbit z 31)) in E0.
    rewrite Z.land_spec, E in E0. discriminate.
  - apply Z.eqb_eq. apply Z.bits_inj'. intros n Hn.
    rewrite Z.land_spec, Z.bits_0, Z.pow2_bits_eqb by lia.
    destruct (31 =? n) eqn:E31; [| apply andb_false_r].
    apply Z.eqb_eq in E31 as <-. now rewrite E.
Qed.

Lemma readw_eval i h o a m p :
  hw_at i h o p -> mapped m a 2 = true ->
  exists v p', readw a (m, p) = Ret v (m, p') /\ hw_at i h o p'.
Proof.
  intros Ha Hm. destruct (io_read_eval i h o 2 a m p Ha Hm) as (v & p' & E & Ha').
  exists (u16 v), p'. unfold readw. now rewrite (cbind_Ret _ _ _ _ _ E).
Qed.

Lemma writel_eval i h o a v m p :
  hw_at i h o p -> mapped m a 4 = true ->
  exists p', writel v a (m, p) = Ret tt (m, p') /\ hw_at i h o p'.
Proof. intros Ha Hm. exact (io_write_eval i h o 4 a (u32 v) m p Ha Hm). Qed.

Lemma writew_eval i h o a v m p :
  hw_at i h o p -> mapped m a 2 = true ->
  exists p', writew v a (m, p) = Ret tt (m, p') /\ hw_at i h o p'.
Proof. intros Ha Hm. exact (io_write_eval i h o 2 a (u16 v) m p Ha Hm). Qed.

(** The addresses the router functions access. *)
Lemma irsprc_reg_eval L mscm idx (s : memory * P) :
  0 <= idx < irsprc_count L -> irsprc_reg L mscm idx s = Ret (mscm + irsprc_off L + 2 * idx) s.
Proof.
  intros Hi. unfold irsprc_reg, reg_array.
  replace (_ && _) with true; [reflexivity |].
  symmetry. apply andb_true_iff. rewrite Z.leb_le, Z.ltb_lt. lia.
Qed.

Lemma ircp_reg_eval L mscm core irq (s : memory * P) :
  0 <= core < cp_count L -> 0 <= irq < irq_count L ->
  ircp_reg L mscm core irq s
    = Ret (mscm + ir_off L + 8 * irq_count L * core + 8 * irq) s.
Proof.
  intros Hc Hi. unfold ircp_reg, reg_array.
  replace ((0 <=? core) && _) with true
    by (symmetry; apply andb_true_iff; rewrite Z.leb_le, Z.ltb_lt; lia).
  rewrite cbind_cret.
  replace ((0 <=? irq) && _) with true
    by (symmetry; apply andb_true_iff; rewrite Z.leb_le, Z.ltb_lt; lia).
  reflexivity.
Qed.

Lemma raise_irq_reg L mscm core irq (s : memory * P) :
  0 <= core < cp_count L -> 0 <= irq < irq_count L ->
  raise_irq L mscm core irq s
    = writel 1 (mscm + ir_off L + 8 * irq_count L * core + 8 * irq + 4) s.
Proof.
  intros Hc Hi. unfold raise_irq.
  rewrite (cbind_Ret _ _ _ _ _ (ircp_reg_eval L mscm core irq s Hc Hi)). reflexivity.
Qed.

Lemma ack_irq_reg L mscm core irq sender (s : memory * P) :
  0 <= core < cp_count L -> 0 <= irq < irq_count L ->
  ack_irq L mscm core irq sender s
    = writel (Z.shiftl 1 sender) (mscm + ir_off L + 8 * irq_count L * core + 8 * irq) s.
Proof.
  intros Hc Hi. unfold ack_irq.
  now rewrite (cbind_Ret _ _ _ _ _ (ircp_reg_eval L mscm core irq s Hc Hi)).
Qed.

(** On a mapped register block all of them succeed. *)
Section Mapped.
Context (L : mscm_layout) (sz base : Z) (m : memory).
Context (HL0 : layout_in L sz) (HM : mapped m base sz = true).

Lemma irsprc_mapped idx :
  0 <= idx < irsprc_count L -> mapped m (base + irsprc_off L + 2 * idx) 2 = true.
Proof. intros. destruct HL0. eapply mapped_sub; [exact HM | lia | lia]. Qed.

Lemma ircp_mapped core irq off :
  0 <= core < cp_count L -> 0 <= irq < irq_count L -> off = 0 \/ off = 4 ->
  mapped m (base + ir_off L + 8 * irq_count L * core + 8 * irq + off) 4 = true.
Proof. intros. destruct HL0. eapply mapped_sub; [exact HM | nia | nia]. Qed.

Lemma route_enable_ok i h o p idx :
  hw_at i h o p -> 0 <= idx < irsprc_count L ->
  exists p', route_enable L base idx (m, p) = Ret tt (m, p') /\ hw_at i h o p'.
Proof.
  intros Ha Hi. unfold route_enable.
  rewrite (cbind_Ret _ _ _ _ _ (irsprc_reg_eval L base idx _ Hi)).
  destruct (readw_eval i h o _ m p Ha (irsprc_mapped idx Hi)) as (v & p1 & E & Ha1).
  rewrite (cbind_Ret _ _ _ _ _ E). eapply writew_eval; eauto using irsprc_mapped.
Qed.

Lemma route_disable_ok i h o p idx :
  hw_at i h o p -> 0 <= idx < irsprc_count L ->
  exists p', route_disable L base idx (m, p) = Ret tt (m, p') /\ hw_at i h o p'.
Proof.
  intros Ha Hi. unfold route_disable.
  rewrite (cbind_Ret _ _ _ _ _ (irsprc_reg_eval L base idx _ Hi)).
  destruct (readw_eval i h o _ m p Ha (irsprc_mapped idx Hi)) as (v & p1 & E & Ha1).
  rewrite (cbind_Ret _ _ _ _ _ E). eapply writew_eval; eauto using irsprc_mapped.
Qed.

Lemma raise_irq_ok i h o p core irq :
  hw_at i h o p -> 0 <= core < cp_count L -> 0 <= irq < irq_count L ->
  exists p', raise_irq L base core irq (m, p) = Ret tt (m, p') /\ hw_at i h o p'.
Proof.
  intros Ha Hc Hi. rewrite raise_irq_reg by assumption.
  eapply writel_eval; eauto using ircp_mapped.
Qed.

Lemma ack_irq_ok i h o p core irq sender :
  hw_at i h o p -> 0 <= core < cp_count L -> 0 <= irq < irq_count L ->
  exists p', ack_irq L base core irq sender (m, p) = Ret tt (m, p') /\ hw_at i h o p'.
Proof.
  intros Ha Hc Hi. rewrite ack_irq_reg by assumption.
  eapply writel_eval; [exact Ha |].
  rewrite <- (Z.add_0_r (_ + 8 * irq)). auto using ircp_mapped.
Qed.

End Mapped.

(** ** Rules for a function that uses the registers

    [At h t] holds of a platform whose instance [i] has the private data [h] after
    the accesses [t].  The functions are run once against these rules; a predicate
    that ignores the accesses and one that finds them in the trace obey them. *)

Record hw_rules (i : Z) (At : H -> list hw_io -> P -> Prop) : Prop := {
  hr_get h t m p : At h t p -> get_hw i (m, p) = Ret h (m, p);
  hr_upd h t m p f : At h t p -> exists p', upd_hw i f (m, p) = Ret tt (m, p') /\ At (f h) t p';
  hr_read h t n a m p : At h t p -> mapped m a (Z.of_nat n) = true ->
    exists v p', io_read n a (m, p) = Ret v (m, p') /\ At h (t ++ [HwRead n a v]) p';
  hr_write h t n a v m p : At h t p -> mapped m a (Z.of_nat n) = true ->
    exists p', io_write n a v (m, p) = Ret tt (m, p') /\ At h (t ++ [HwWrite n a v]) p'
}.

Lemma hw_rules_at i o : hw_rules i (fun h _ p => hw_at i h o p).
Proof.
  constructor.
  - intros; now apply (get_hw_eval i h o).
  - intros h _ m p f Ha. exact (upd_hw_eval i h o m p f Ha).
  - intros h _ n a m p Ha Hm. exact (io_read_eval i h o n a m p Ha Hm).
  - intros h _ n a v m p Ha Hm. exact (io_write_eval i h o n a v m p Ha Hm).
Qed.

Lemma hw_rules_log `{HT : !HwTrace H P} i o t0 :
  hw_rules i (fun h t p => hw_at i h o p /\ hw_trace p = t0 ++ t).
Proof.
  constructor.
  - intros h t m p [Ha _]. now apply (get_hw_eval i h o).
  - intros h t m p f [Ha Ht]. destruct (upd_hw_eval i h o m p f Ha) as (p' & E & Ha').
    exists p'. split_and!; auto. unfold upd_hw in E. rewrite (cbind_Ret _ _ _ _ _ (get_hw_eval _ _ _ _ _ Ha)) in E.
    unfold set_hw in E. destruct (nthZ _ _); inversion E; subst. cbn [snd]. now rewrite trace_set.
  - intros h t n a m p [Ha Ht] Hm. destruct (io_read_eval i h o n a m p Ha Hm) as (v & p' & E & Ha').
    exists v, p'. split_and!; auto. unfold io_read in E. cbn [fst snd] in E. rewrite Hm in E.
    destruct (mmio_read n a p) as [v1 p1 |] eqn:Er; inversion E; subst. rewrite (trace_read _ _ _ _ _ Er), Ht. symmetry; apply app_assoc.
  - intros h t n a v m p [Ha Ht] Hm. destruct (io_write_eval i h o n a v m p Ha Hm) as (p' & E & Ha').
    exists p'. split_and!; auto. unfold io_write in E. cbn [fst snd] in E. rewrite Hm in E.
    destruct (mmio_write n a v p) as [[] p1 |] eqn:Er; inversion E; subst. rewrite (trace_write _ _ _ _ _ Er), Ht. symmetry; apply app_assoc.
Qed.

Section Rules.
Context (i : Z) (At : H -> list hw_io -> P -> Prop) (HR : hw_rules i At).

Lemma hr_readl h t a v m p :
  At h t p -> mapped m a 4 = true -> reads_as 4 a v ->
  exists p', readl a (m, p) = Ret (u32 v) (m, p') /\ At h (t ++ [HwRead 4 a v]) p'.
Proof.
  intros Ha Hm Hv. destruct (hr_read _ _ HR h t 4 a m p Ha Hm) as (v' & p' & E & Ha').
  assert (v' = v) as ->.
  { unfold io_read in E. cbn [fst snd] in E. change (Z.of_nat 4) with 4 in E. rewrite Hm in E.
    destruct (Hv p) as (p'' & E'). rewrite E' in E. congruence. }
  exists p'. unfold readl. now rewrite (cbind_Ret _ _ _ _ _ E).
Qed.

Lemma hr_writel h t a v m p :
  At h t p -> mapped m a 4 = true ->
  exists p', writel v a (m, p) = Ret tt (m, p') /\ At h (t ++ [HwWrite 4 a (u32 v)]) p'.
Proof. intros Ha Hm. exact (hr_write _ _ HR h t 4 a (u32 v) m p Ha Hm). Qed.

(** The two accesses that turn routing off. *)
Definition disable_accesses (r x : Z) : list hw_io :=
  [HwRead 2 r x; HwWrite 2 r (u16 (Z.land (u16 x) (Z.lnot IPC_MSCM_IRSPRCn_GIC500)))].

Lemma hr_route_disable L base idx h t m p :
  At h t p -> 0 <= idx < irsprc_count L -> mapped m (base + irsprc_off L + 2 * idx) 2 = true ->
  exists x p', route_disable L base idx (m, p) = Ret tt (m, p') /\
    At h (t ++ disable_accesses (base + irsprc_off L + 2 * idx) x) p'.
Proof.
  intros Ha Hi Hm. unfold route_disable. rewrite (cbind_Ret _ _ _ _ _ (irsprc_reg_eval L base idx _ Hi)).
  destruct (hr_read _ _ HR h t 2 _ m p Ha Hm) as (x & p1 & E1 & Ha1). unfold readw. rewrite cbind_assoc, (cbind_Ret _ _ _ _ _ E1).
  destruct (hr_write _ _ HR h _ 2 _ (u16 (Z.land (u16 x) (Z.lnot IPC_MSCM_IRSPRCn_GIC500))) m p1 Ha1 Hm) as (p2 & E2 & Ha2).
  exists x, p2. split; [exact E2 |]. now rewrite <- app_assoc in Ha2.
Qed.

End Rules.
End Eval.
