(* ===== verification/Router.v ===== *)
(** * Interrupt routing shared by S32gen1 and S32g3xx

    The files src/hw/s32gen1/ipc-hw-s32gen1.c and src/hw/s32g3xx/ipc-hw-s32g3xx.c
    have the same private data and the same functions; they differ in the
    register block and in the tables of cores and interrupts, which are
    collected in [router_soc].  Each function below is the text of both files. *)

From S2P Require Import Prelude Memory Types World Mscm.

Record ipc_hw_priv_type : Type := HwPriv {
  msi_tx_irq : Z;    (* uint8_t *)
  msi_rx_irq : Z;    (* uint8_t *)
  spi_index : Z;     (* uint8_t *)
  mscm_tx_irq : Z;
  mscm_rx_irq : Z;
  remote_core : Z;
  local_core : Z;
  ipc_mscm : Z
}.

Definition hw_priv_zero : ipc_hw_priv_type := HwPriv 0 0 0 0 0 0 0 NULL.

Definition set_msi_tx (v : Z) (h : ipc_hw_priv_type) : ipc_hw_priv_type :=
  HwPriv v (msi_rx_irq h) (spi_index h) (mscm_tx_irq h) (mscm_rx_irq h) (remote_core h)
    (local_core h) (ipc_mscm h).
Definition set_rx_index (spi msi : Z) (h : ipc_hw_priv_type) : ipc_hw_priv_type :=
  HwPriv (msi_tx_irq h) msi spi (mscm_tx_irq h) (mscm_rx_irq h) (remote_core h)
    (local_core h) (ipc_mscm h).
Definition set_mscm (a : Z) (h : ipc_hw_priv_type) : ipc_hw_priv_type :=
  HwPriv (msi_tx_irq h) (msi_rx_irq h) (spi_index h) (mscm_tx_irq h) (mscm_rx_irq h)
    (remote_core h) (local_core h) a.
Definition set_route (tx rx remote local : Z) (h : ipc_hw_priv_type) : ipc_hw_priv_type :=
  HwPriv (msi_tx_irq h) (msi_rx_irq h) (spi_index h) tx rx remote local (ipc_mscm h).

(** What distinguishes the platforms: register block, the switches on the
    configuration ([None] is the default label, -EINVAL), the trusted mask. *)
Record router_soc : Type := Soc {
  rs_layout : mscm_layout;
  rs_size : Z;                  (* sizeof(struct ipc_mscm_regs) *)
  rs_cpxnum : Z;                (* offsets of CPXNUM and IRCPCFG *)
  rs_ircpcfg : Z;
  rs_trust : Z -> Z;            (* trusted cores in register numbering *)
  rs_a53_tr : Z;
  rs_local : ipc_shm_local_core -> option Z;
  rs_remote : ipc_shm_remote_core -> option Z;
  rs_tx : Z -> option (ipc_hw_priv_type -> ipc_hw_priv_type);
  rs_rx : Z -> option (ipc_hw_priv_type -> ipc_hw_priv_type)
}.

Section Ops.
Context {P : Type} `{HE : HwEnv ipc_hw_priv_type P} (S : router_soc).

(** check trusted cores mask contains the targeted and other A53 cores *)
Definition trusted_ok (trust local_core_idx : Z) : bool :=
  negb ((trust =? 0)
        || negb (Z.land trust (Z.lnot (rs_a53_tr S)) =? 0)
        || negb (Z.land (Z.shiftl 1 local_core_idx) (u32 (Z.lnot trust)) =? 0)).

Definition router_get_rx_irq (instance : Z) : M (memory * P) Z :=
  let* h := get_hw instance in cret (mscm_rx_irq h).

Definition router_irq_enable (instance : Z) : M (memory * P) unit :=
  let* h := get_hw instance in
  if negb (mscm_rx_irq h =? IPC_IRQ_NONE)
  then route_enable (rs_layout S) (ipc_mscm h) (spi_index h)
  else cret tt.

Definition router_irq_disable (instance : Z) : M (memory * P) unit :=
  let* h := get_hw instance in
  if negb (mscm_rx_irq h =? IPC_IRQ_NONE)
  then route_disable (rs_layout S) (ipc_mscm h) (spi_index h)
  else cret tt.

Definition router_irq_notify (instance : Z) : M (memory * P) unit :=
  let* h := get_hw instance in
  if negb (mscm_tx_irq h =? IPC_IRQ_NONE)
  then raise_irq (rs_layout S) (ipc_mscm h) (remote_core h) (msi_tx_irq h)
  else cret tt.

Definition router_irq_clear (instance : Z) : M (memory * P) unit :=
  let* h := get_hw instance in
  if negb (mscm_rx_irq h =? IPC_IRQ_NONE)
  then ack_irq (rs_layout S) (ipc_mscm h) (local_core h) (msi_rx_irq h) (remote_core h)
  else cret tt.

(** Same interrupt for both directions, or a remote core that is the local one. *)
Definition irq_or_core_clash (instance : Z) (cfg : ipc_shm_cfg) (remote_idx local_idx : Z) :
    M (memory * P) bool :=
  if negb (cfg_inter_core_tx_irq cfg =? IPC_IRQ_NONE)
     && (cfg_inter_core_tx_irq cfg =? cfg_inter_core_rx_irq cfg)
  then cret true else
  let* h := get_hw instance in
  let* cpxnum := readl (ipc_mscm h + rs_cpxnum S) in
  cret ((remote_idx =? cpxnum) || (remote_idx =? local_idx)).

Definition router_init_at (instance : Z) (cfg : ipc_shm_cfg) (periph_addr : Z) :
    M (memory * P) Z :=
  if periph_addr =? NULL then cret (- EINVAL) else
  upd_hw instance (set_mscm periph_addr) ;;;
  match rs_local S (cfg_local_core cfg) with
  | None => cret (- EINVAL)
  | Some local_core_idx =>
    let trust := rs_trust S (lc_trusted (cfg_local_core cfg)) in
    if negb (trusted_ok trust local_core_idx) then cret (- EINVAL) else
    match rs_remote S (cfg_remote_core cfg) with
    | None => cret (- EINVAL)
    | Some remote_core_idx =>
      let* clash := irq_or_core_clash instance cfg remote_core_idx local_core_idx in
      if clash then cret (- EINVAL) else
      match rs_tx S (cfg_inter_core_tx_irq cfg) with
      | None => cret (- EINVAL)
      | Some set_tx =>
        upd_hw instance set_tx ;;;
        match rs_rx S (cfg_inter_core_rx_irq cfg) with
        | None => cret (- EINVAL)
        | Some set_rx =>
          upd_hw instance set_rx ;;;
          upd_hw instance (set_route (cfg_inter_core_tx_irq cfg) (cfg_inter_core_rx_irq cfg)
                             remote_core_idx local_core_idx) ;;;
          router_irq_disable instance ;;;
          let* h := get_hw instance in
          let* ircpcfg_mask := readl (ipc_mscm h + rs_ircpcfg S) in
          if negb (Z.land ircpcfg_mask IPC_MSCM_IRCPCFG_LOCK =? 0) then cret (- EACCES) else
          writel (Z.lor ircpcfg_mask trust) (ipc_mscm h + rs_ircpcfg S) ;;;
          cret 0
        end
      end
    end
  end.

Definition router_init (instance : Z) (cfg : ipc_shm_cfg) : M (memory * P) Z :=
  let* addr := ipc_os_map_intc in
  router_init_at instance cfg addr.

Definition router_free (instance : Z) : M (memory * P) unit :=
  router_irq_clear instance ;;;
  let* h := get_hw instance in
  ipc_os_unmap_intc (ipc_mscm h).

End Ops.
