(* ===== verification/S32gen1.v ===== *)
(** * Interrupt hardware of S32G2 and S32R45
    (src/hw/s32gen1/ipc-hw-platform.h, src/hw/s32gen1/ipc-hw-s32gen1.c) *)

From Stdlib Require Import String.
From S2P Require Import Prelude Memory Types World Mscm Router.

(** ** Register block *)

Definition IPC_A53_0 : Z := 0.
Definition IPC_A53_1 : Z := 1.
Definition IPC_A53_2 : Z := 2.
Definition IPC_A53_3 : Z := 3.
Definition IPC_M7_0 : Z := 4.
Definition IPC_M7_1 : Z := 5.
Definition IPC_M7_2 : Z := 6.

Definition IPC_DEFAULT_REMOTE_CORE : Z := IPC_M7_0.
Definition IPC_DEFAULT_LOCAL_CORE : Z := IPC_A53_0.

Definition IPC_MSCM_CPnCFG_COUNT : Z := 4.
Definition IPC_MSCM_CP_COUNT : Z := 7.
Definition IPC_MSCM_IRQ_COUNT : Z := 4.
Definition IPC_MSCM_IRSPRC_COUNT : Z := 240.
Definition IPC_MSCM_RESERVED00_COUNT : Z := 4.
Definition IPC_MSCM_RESERVED01_COUNT : Z := 260.
Definition IPC_MSCM_RESERVED02_COUNT : Z := 288.
Definition IPC_MSCM_RESERVED03_COUNT : Z := 1020.
Definition IPC_MSCM_RESERVED04_COUNT : Z := 124.

Definition IPC_MSCM_IRCPCFG_A53_TR : Z := 0x0F.

Definition ipc_mscm_regs : list field := [
  U32 "CPXTYPE"; U32 "CPXNUM"; U32 "CPXREV"; U32s "CPXCFG" IPC_MSCM_CPnCFG_COUNT;
  U8s "RESERVED00" IPC_MSCM_RESERVED00_COUNT;
  U32 "CP0TYPE"; U32 "CP0NUM"; U32 "CP0REV"; U32s "CP0CFG" IPC_MSCM_CPnCFG_COUNT;
  U8s "RESERVED01" IPC_MSCM_RESERVED00_COUNT;
  U32 "CP1TYPE"; U32 "CP1NUM"; U32 "CP1REV"; U32s "CP1CFG" IPC_MSCM_CPnCFG_COUNT;
  U8s "RESERVED02" IPC_MSCM_RESERVED00_COUNT;
  U32 "CP2TYPE"; U32 "CP2NUM"; U32 "CP2REV"; U32s "CP2CFG" IPC_MSCM_CPnCFG_COUNT;
  U8s "RESERVED03" IPC_MSCM_RESERVED00_COUNT;
  U32 "CP3TYPE"; U32 "CP3NUM"; U32 "CP3REV"; U32s "CP3CFG" IPC_MSCM_CPnCFG_COUNT;
  U8s "RESERVED04" IPC_MSCM_RESERVED00_COUNT;
  U32 "CP4TYPE"; U32 "CP4NUM"; U32 "CP4REV"; U32s "CP4CFG" IPC_MSCM_CPnCFG_COUNT;
  U8s "RESERVED05" IPC_MSCM_RESERVED00_COUNT;
  U32 "CP5TYPE"; U32 "CP5NUM"; U32 "CP5REV"; U32s "CP5CFG" IPC_MSCM_CPnCFG_COUNT;
  U8s "RESERVED06" IPC_MSCM_RESERVED00_COUNT;
  U32 "CP6TYPE"; U32 "CP6NUM"; U32 "CP6REV"; U32s "CP6CFG" IPC_MSCM_CPnCFG_COUNT;
  U8s "RESERVED07" IPC_MSCM_RESERVED01_COUNT;
  IRs "IRCPnIRx" IPC_MSCM_CP_COUNT IPC_MSCM_IRQ_COUNT;
  U8s "RESERVED08" IPC_MSCM_RESERVED02_COUNT;
  U32 "IRCPCFG";
  U8s "RESERVED09" IPC_MSCM_RESERVED03_COUNT;
  U32 "IRNMIC";
  U8s "RESERVED10" IPC_MSCM_RESERVED04_COUNT;
  U16s "IRSPRC" IPC_MSCM_IRSPRC_COUNT ]%string.

Definition off_CPXNUM : Z := Eval vm_compute in default 0 (offsetof ipc_mscm_regs "CPXNUM").
Definition off_IRCPCFG : Z := Eval vm_compute in default 0 (offsetof ipc_mscm_regs "IRCPCFG").

Definition layout : mscm_layout := Eval vm_compute in
  Layout (default 0 (offsetof ipc_mscm_regs "IRSPRC")) IPC_MSCM_IRSPRC_COUNT
    (default 0 (offsetof ipc_mscm_regs "IRCPnIRx")) IPC_MSCM_CP_COUNT IPC_MSCM_IRQ_COUNT.

(** ** Selection by the configuration; [None] is the default label *)

Definition local_core_switch (c : ipc_shm_local_core) : option Z :=
  match lc_type c with
  | IPC_CORE_A53 =>
      if lc_index c =? IPC_CORE_INDEX_0 then Some IPC_A53_0 else
      if lc_index c =? IPC_CORE_INDEX_1 then Some IPC_A53_1 else
      if lc_index c =? IPC_CORE_INDEX_2 then Some IPC_A53_2 else
      if lc_index c =? IPC_CORE_INDEX_3 then Some IPC_A53_3 else None
  | IPC_CORE_DEFAULT => Some IPC_DEFAULT_LOCAL_CORE
  | _ => None
  end.

Definition remote_core_switch (c : ipc_shm_remote_core) : option Z :=
  match rc_type c with
  | IPC_CORE_A53 =>
      if rc_index c =? IPC_CORE_INDEX_0 then Some IPC_A53_0 else
      if rc_index c =? IPC_CORE_INDEX_1 then Some IPC_A53_1 else
      if rc_index c =? IPC_CORE_INDEX_2 then Some IPC_A53_2 else
      if rc_index c =? IPC_CORE_INDEX_3 then Some IPC_A53_3 else None
  | IPC_CORE_M7 =>
      if rc_index c =? IPC_CORE_INDEX_0 then Some IPC_M7_0 else
      if rc_index c =? IPC_CORE_INDEX_1 then Some IPC_M7_1 else
      if rc_index c =? IPC_CORE_INDEX_2 then Some IPC_M7_2 else None
  | IPC_CORE_DEFAULT => Some IPC_DEFAULT_REMOTE_CORE
  | _ => None
  end.

Definition tx_irq_switch (irq : Z) : option (ipc_hw_priv_type -> ipc_hw_priv_type) :=
  if irq =? IPC_IRQ_NONE then Some id else
  if irq =? 0 then Some (set_msi_tx 0) else
  if irq =? 1 then Some (set_msi_tx 1) else
  if irq =? 2 then Some (set_msi_tx 2) else None.

Definition rx_irq_switch (irq : Z) : option (ipc_hw_priv_type -> ipc_hw_priv_type) :=
  if irq =? IPC_IRQ_NONE then Some id else
  if irq =? 0 then Some (set_rx_index 1 0) else
  if irq =? 1 then Some (set_rx_index 2 1) else
  if irq =? 2 then Some (set_rx_index 3 2) else None.

(** ** The platform *)

Definition soc : router_soc :=
  Soc layout (sizeof ipc_mscm_regs) off_CPXNUM off_IRCPCFG id IPC_MSCM_IRCPCFG_A53_TR
    local_core_switch remote_core_switch tx_irq_switch rx_irq_switch.

Section Ops.
Context {P : Type} `{HE : HwEnv ipc_hw_priv_type P}.

Definition ipc_hw_get_rx_irq : Z -> M (memory * P) Z := router_get_rx_irq.
Definition ipc_hw_irq_enable : Z -> M (memory * P) unit := router_irq_enable soc.
Definition ipc_hw_irq_disable : Z -> M (memory * P) unit := router_irq_disable soc.
Definition ipc_hw_irq_notify : Z -> M (memory * P) unit := router_irq_notify soc.
Definition ipc_hw_irq_clear : Z -> M (memory * P) unit := router_irq_clear soc.
Definition _ipc_hw_init : Z -> ipc_shm_cfg -> Z -> M (memory * P) Z := router_init_at soc.
Definition ipc_hw_init : Z -> ipc_shm_cfg -> M (memory * P) Z := router_init soc.
Definition ipc_hw_free : Z -> M (memory * P) unit := router_free soc.

#[export] Instance hw_ops : HwOps P := {
  hw_init := ipc_hw_init;
  hw_free := ipc_hw_free;
  hw_get_rx_irq := ipc_hw_get_rx_irq;
  hw_irq_enable := ipc_hw_irq_enable;
  hw_irq_disable := ipc_hw_irq_disable;
  hw_irq_notify := ipc_hw_irq_notify;
  hw_irq_clear := ipc_hw_irq_clear
}.

End Ops.
