(* ===== verification/S32r47.v ===== *)
(** * Interrupt hardware of S32R47 (src/hw/s32r47/ipc-hw-s32r47.c) *)

From Stdlib Require Import String.
From S2P Require Import Prelude Memory Types World Mscm.

(** ** Register block *)

Definition IPC_A53_0 : Z := 0.
Definition IPC_A53_1 : Z := 1.
Definition IPC_A53_2 : Z := 2.
Definition IPC_A53_3 : Z := 3.
Definition IPC_M7_0 : Z := 4.
Definition IPC_M7_1 : Z := 5.
Definition IPC_M7_2 : Z := 6.
Definition IPC_BBE32_0 : Z := 7.
Definition IPC_BBE32_1 : Z := 8.
Definition IPC_KQ8_0 : Z := 9.
Definition IPC_KQ8_1 : Z := 10.

(** The core-to-core interrupts are numbered 0 (MSCM_INT0_IRQn) to 10. *)
Definition MSCM_INT0_IRQn : Z := 0.
Definition MSCM_INT1_IRQn : Z := 1.
Definition MSCM_INT10_IRQn : Z := 10.

Definition IPC_DEFAULT_REMOTE_CORE : Z := IPC_M7_0.
Definition IPC_DEFAULT_LOCAL_CORE : Z := IPC_A53_0.

Definition IPC_MSCM_CPXCFG_COUNT : Z := 4.
Definition IPC_MSCM_CPnCFG_COUNT : Z := 4.
Definition IPC_MSCM_CPnINFO_COUNT : Z := 11.
Definition IPC_MSCM_ENEDC_COUNT : Z := 3.
Definition IPC_MSCM_IAHBCFGREG_COUNT : Z := 3.
Definition IPC_MSCM_IRSPRC_COUNT : Z := 240.
Definition IPC_MSCM_RESERVED00_COUNT : Z := 4.
Definition IPC_MSCM_RESERVED01_COUNT : Z := 644.
Definition IPC_MSCM_RESERVED02_COUNT : Z := 1020.
Definition IPC_MSCM_RESERVED03_COUNT : Z := 124.
Definition IPC_MSCM_RESERVED04_COUNT : Z := 32.
Definition IPC_MSCM_RESERVED05_COUNT : Z := 184.
Definition IPC_MSCM_CP_COUNT : Z := 11.
Definition IPC_MSCM_IRQ_COUNT : Z := 13.
Definition IPC_MSCM_IRCPCFG_A53_TR : Z := 0x0F.

(** One element of CPnINFO: reserved word, type, number, revision, four
    configuration words. *)
Definition cpn_info : list field := [
  U8s "RESERVED_0" IPC_MSCM_RESERVED00_COUNT;
  U32 "CPnTYPE"; U32 "CPnNUM"; U32 "CPnREV"; U32s "CPnCFG" IPC_MSCM_CPnCFG_COUNT ]%string.

Definition ipc_mscm_regs : list field := [
  U32 "CPXTYPE"; U32 "CPXNUM"; U32 "CPXREV"; U32s "CPXCFG" IPC_MSCM_CPXCFG_COUNT;
  Field "CPnINFO" (sizeof cpn_info) 4 IPC_MSCM_CPnINFO_COUNT;
  U8s "RESERVED_11" IPC_MSCM_RESERVED01_COUNT;
  U32 "IRCPCFG";
  U8s "RESERVED_12" IPC_MSCM_RESERVED02_COUNT;
  U32 "IRNMIC";
  U8s "RESERVED_13" IPC_MSCM_RESERVED03_COUNT;
  U16s "IRSPRC" IPC_MSCM_IRSPRC_COUNT;
  U8s "RESERVED_14" IPC_MSCM_RESERVED04_COUNT;
  IRs "IRCPnIRx" IPC_MSCM_CP_COUNT IPC_MSCM_IRQ_COUNT;
  U8s "RESERVED_15" IPC_MSCM_RESERVED05_COUNT;
  U32s "ENEDC" IPC_MSCM_ENEDC_COUNT;
  U8s "RESERVED_16" IPC_MSCM_RESERVED00_COUNT;
  U32s "IAHBCFGREG" IPC_MSCM_IAHBCFGREG_COUNT ]%string.

Definition off_CPXNUM : Z := Eval vm_compute in default 0 (offsetof ipc_mscm_regs "CPXNUM").
Definition off_IRCPCFG : Z := Eval vm_compute in default 0 (offsetof ipc_mscm_regs "IRCPCFG").

Definition layout : mscm_layout := Eval vm_compute in
  Layout (default 0 (offsetof ipc_mscm_regs "IRSPRC")) IPC_MSCM_IRSPRC_COUNT
    (default 0 (offsetof ipc_mscm_regs "IRCPnIRx")) IPC_MSCM_CP_COUNT IPC_MSCM_IRQ_COUNT.

(** ** Private data (the member shm_size is never used) *)

Record ipc_hw_priv_type : Type := HwPriv {
  mscm_tx_irq : Z;   (* int16_t *)
  mscm_rx_irq : Z;   (* int16_t *)
  remote_core : Z;
  local_core : Z;
  ipc_mscm : Z
}.

Definition hw_priv_zero : ipc_hw_priv_type := HwPriv 0 0 0 0 NULL.

Definition set_mscm (a : Z) (h : ipc_hw_priv_type) : ipc_hw_priv_type :=
  HwPriv (mscm_tx_irq h) (mscm_rx_irq h) (remote_core h) (local_core h) a.
Definition set_local (c : Z) (h : ipc_hw_priv_type) : ipc_hw_priv_type :=
  HwPriv (mscm_tx_irq h) (mscm_rx_irq h) (remote_core h) c (ipc_mscm h).
Definition set_remote (c : Z) (h : ipc_hw_priv_type) : ipc_hw_priv_type :=
  HwPriv (mscm_tx_irq h) (mscm_rx_irq h) c (local_core h) (ipc_mscm h).
Definition set_irqs (tx rx : Z) (h : ipc_hw_priv_type) : ipc_hw_priv_type :=
  HwPriv tx rx (remote_core h) (local_core h) (ipc_mscm h).

Definition local_core_switch (c : ipc_shm_local_core) : option Z :=
  match lc_type c with
  | IPC_CORE_A53 =>
      if lc_index c =? IPC_CORE_INDEX_0 then Some IPC_A53_0 else
      if lc_index c =? IPC_CORE_INDEX_1 then Some IPC_A53_1 else
      if lc_index c =? IPC_CORE_INDEX_2 then Some IPC_A53_2 else
      if lc_index c =? IPC_CORE_INDEX_3 then Some IPC_A53_3 else None
  | IPC_CORE_DEFAULT => Some IPC_DEFAULT_LOCAL_CORE
  | _ => None
  end.

Definition trusted_ok (trusted local_core_idx : Z) : bool :=
  negb ((trusted =? 0)
        || negb (Z.land trusted (Z.lnot IPC_MSCM_IRCPCFG_A53_TR) =? 0)
        || negb (Z.land (Z.shiftl 1 local_core_idx) (u32 (Z.lnot trusted)) =? 0)).

Definition remote_core_switch (c : ipc_shm_remote_core) : option Z :=
  match rc_type c with
  | IPC_CORE_A53 =>
      if rc_index c =? IPC_CORE_INDEX_0 then Some IPC_A53_0 else
      if rc_index c =? IPC_CORE_INDEX_1 then Some IPC_A53_1 else
      if rc_index c =? IPC_CORE_INDEX_2 then Some IPC_A53_2 else
      if rc_index c =? IPC_CORE_INDEX_3 then Some IPC_A53_3 else None
  | IPC_CORE_M7 =>
      if rc_index c =? IPC_CORE_INDEX_0 then Some IPC_M7_0 else
      if rc_index c =? IPC_CORE_INDEX_1 then Some IPC_M7_1 else
      if rc_index c =? IPC_CORE_INDEX_2 then Some IPC_M7_2 else None
  | IPC_CORE_KQ8 =>
      if rc_index c =? IPC_CORE_INDEX_0 then Some IPC_KQ8_0 else
      if rc_index c =? IPC_CORE_INDEX_1 then Some IPC_KQ8_1 else None
  | IPC_CORE_BBE32 =>
      if rc_index c =? IPC_CORE_INDEX_0 then Some IPC_BBE32_0 else
      if rc_index c =? IPC_CORE_INDEX_1 then Some IPC_BBE32_1 else None
  | IPC_CORE_DEFAULT => Some IPC_DEFAULT_REMOTE_CORE
  | _ => None
  end.

(** ** Operations *)

Section Ops.
Context {P : Type} `{HE : HwEnv ipc_hw_priv_type P}.

Definition ipc_hw_local_core_init (instance : Z) (cfg : ipc_shm_cfg) : M (memory * P) Z :=
  match local_core_switch (cfg_local_core cfg) with
  | None => cret (- EINVAL)
  | Some c =>
      upd_hw instance (set_local c) ;;;
      let* h := get_hw instance in
      if negb (trusted_ok (lc_trusted (cfg_local_core cfg)) (local_core h))
      then cret (- EINVAL) else cret 0
  end.

Definition ipc_hw_remote_core_init (instance : Z) (cfg : ipc_shm_cfg) : M (memory * P) Z :=
  match remote_core_switch (cfg_remote_core cfg) with
  | None => cret (- EINVAL)
  | Some c => upd_hw instance (set_remote c) ;;; cret 0
  end.

Definition ipc_hw_get_rx_irq (instance : Z) : M (memory * P) Z :=
  let* h := get_hw instance in cret (mscm_rx_irq h).

(** The routing register is selected by the interrupt number itself. *)
Definition ipc_hw_irq_enable (instance : Z) : M (memory * P) unit :=
  let* h := get_hw instance in
  if negb (mscm_rx_irq h =? IPC_IRQ_NONE)
  then route_enable layout (ipc_mscm h) (mscm_rx_irq h)
  else cret tt.

Definition ipc_hw_irq_disable (instance : Z) : M (memory * P) unit :=
  let* h := get_hw instance in
  if negb (mscm_rx_irq h =? IPC_IRQ_NONE)
  then route_disable layout (ipc_mscm h) (mscm_rx_irq h)
  else cret tt.

Definition ipc_hw_irq_notify (instance : Z) : M (memory * P) unit :=
  let* h := get_hw instance in
  if negb (mscm_tx_irq h =? IPC_IRQ_NONE)
  then raise_irq layout (ipc_mscm h) (remote_core h) (mscm_tx_irq h)
  else cret tt.

Definition ipc_hw_irq_clear (instance : Z) : M (memory * P) unit :=
  let* h := get_hw instance in
  if negb (mscm_rx_irq h =? IPC_IRQ_NONE)
  then ack_irq layout (ipc_mscm h) (local_core h) (mscm_rx_irq h) (remote_core h)
  else cret tt.

(** Same interrupt for both directions, or a remote core that is the local one. *)
Definition irq_or_core_clash (instance : Z) (cfg : ipc_shm_cfg) : M (memory * P) bool :=
  if negb (cfg_inter_core_tx_irq cfg =? IPC_IRQ_NONE)
     && (cfg_inter_core_tx_irq cfg =? cfg_inter_core_rx_irq cfg)
  then cret true else
  let* h := get_hw instance in
  let* cpxnum := readl (ipc_mscm h + off_CPXNUM) in
  let* h := get_hw instance in
  cret ((remote_core h =? cpxnum) || (remote_core h =? local_core h)).

Definition tx_irq_bad (tx : Z) : bool :=
  negb (tx =? IPC_IRQ_NONE) && ((tx <? MSCM_INT0_IRQn) || (MSCM_INT10_IRQn <? tx)).

(** The accelerator cores (BBE32, KQ8) receive interrupts 0 and 1 only. *)
Definition rx_irq_bad (rx remote : Z) : bool :=
  negb (rx =? IPC_IRQ_NONE) &&
  ((rx <? MSCM_INT0_IRQn) || (MSCM_INT10_IRQn <? rx) ||
   ((IPC_BBE32_0 <=? remote) && (remote <=? IPC_KQ8_1)
    && negb (rx =? MSCM_INT0_IRQn) && negb (rx =? MSCM_INT1_IRQn))).

Definition _ipc_hw_init (instance : Z) (cfg : ipc_shm_cfg) (periph_addr : Z) :
    M (memory * P) Z :=
  if periph_addr =? NULL then cret (- EINVAL) else
  upd_hw instance (set_mscm periph_addr) ;;;
  let* e := ipc_hw_local_core_init instance cfg in
  if negb (0 =? e) then cret (- EINVAL) else
  let* e := ipc_hw_remote_core_init instance cfg in
  if negb (0 =? e) then cret (- EINVAL) else
  let* clash := irq_or_core_clash instance cfg in
  if clash then cret (- EINVAL) else
  if tx_irq_bad (cfg_inter_core_tx_irq cfg) then cret (- EINVAL) else
  let* h := get_hw instance in
  if rx_irq_bad (cfg_inter_core_rx_irq cfg) (remote_core h) then cret (- EINVAL) else
  upd_hw instance (set_irqs (cfg_inter_core_tx_irq cfg) (cfg_inter_core_rx_irq cfg)) ;;;
  ipc_hw_irq_disable instance ;;;
  let* h := get_hw instance in
  let* ircpcfg_mask := readl (ipc_mscm h + off_IRCPCFG) in
  if negb (Z.land ircpcfg_mask IPC_MSCM_IRCPCFG_LOCK =? 0) then cret (- EACCES) else
  writel (Z.lor ircpcfg_mask (lc_trusted (cfg_local_core cfg))) (ipc_mscm h + off_IRCPCFG) ;;;
  cret 0.

Definition ipc_hw_init (instance : Z) (cfg : ipc_shm_cfg) : M (memory * P) Z :=
  let* addr := ipc_os_map_intc in
  _ipc_hw_init instance cfg addr.

Definition ipc_hw_free (instance : Z) : M (memory * P) unit :=
  ipc_hw_irq_clear instance ;;;
  let* h := get_hw instance in
  ipc_os_unmap_intc (ipc_mscm h).

#[export] Instance hw_ops : HwOps P := {
  hw_init := ipc_hw_init;
  hw_free := ipc_hw_free;
  hw_get_rx_irq := ipc_hw_get_rx_irq;
  hw_irq_enable := ipc_hw_irq_enable;
  hw_irq_disable := ipc_hw_irq_disable;
  hw_irq_notify := ipc_hw_irq_notify;
  hw_irq_clear := ipc_hw_irq_clear
}.

End Ops.
