(* ===== verification/S32v234.v ===== *)
(** * Interrupt hardware of S32V234
    (src/hw/s32v234/ipc-hw-platform.h, src/hw/s32v234/ipc-hw-s32v234.c)

    The private data is one structure for all instances, modelled as an array
    of one element.  The file still refers to the remote core by pointer and to
    a parameter [local_core] that is gone from its signature; the remote core of
    the configuration is what it compares. *)

From Stdlib Require Import String.
From S2P Require Import Prelude Memory Types World Mscm.

(** ** Register block *)

Definition M4 : Z := 0.
Definition A53 : Z := 1.
Definition DEFAULT_REMOTE_CORE : Z := M4.
Definition IRQ_ID_MIN : Z := 0.
Definition IRQ_ID_MAX : Z := 3.

Definition MSCM_CPnCFG_COUNT : Z := 4.
Definition MSCM_OCMDR_COUNT : Z := 4.
Definition MSCM_IRSPRC_COUNT : Z := 175.
Definition MSCM_IPCE_COUNT : Z := 4.
Definition MSCM_IPCIE_COUNT : Z := 4.

Definition mscm_regs : list field := [
  U32 "cpxtype"; U32 "cpxnum"; U32 "cpxmaster"; U32 "cpxcount"; U32s "cpxcfg" MSCM_CPnCFG_COUNT;
  U32 "cp0type"; U32 "cp0num"; U32 "cp0master"; U32 "cp0count"; U32s "cp0cfg" MSCM_CPnCFG_COUNT;
  U32 "cp1type"; U32 "cp1num"; U32 "cp1master"; U32 "cp1count"; U32s "cp1cfg" MSCM_CPnCFG_COUNT;
  U8s "reserved00" 928;
  U32s "ocmdr" MSCM_OCMDR_COUNT;
  U8s "reserved01" 112;
  U32 "tcmdr0";
  U8s "reserved02" 124;
  U32 "cpce0";
  U8s "reserved03" 764;
  U32 "ircp0ir"; U32 "ircp1ir";
  U8s "reserved04" 24;
  U32 "ircpgir";
  U8s "reserved05" 92;
  U16s "irsprc" MSCM_IRSPRC_COUNT;
  U8s "reserved06" 800;
  U32 "ipcge";
  U8s "reserved07" 12;
  U32s "ipce" MSCM_IPCE_COUNT;
  U8s "reserved08" 32;
  U32 "ipcgie";
  U8s "reserved09" 12;
  U32s "ipcie" MSCM_IPCIE_COUNT ]%string.

Definition off_ircp1ir : Z := Eval vm_compute in default 0 (offsetof mscm_regs "ircp1ir").
Definition off_ircpgir : Z := Eval vm_compute in default 0 (offsetof mscm_regs "ircpgir").
Definition off_irsprc : Z := Eval vm_compute in default 0 (offsetof mscm_regs "irsprc").

Definition MSCM_IRCPxIR_INT (n : Z) : Z := Z.shiftl 1 n.
Definition MSCM_IRCPGIR_TLF_MASK : Z := 0x03000000.
Definition MSCM_IRCPGIR_CPUTL_MASK : Z := 0x000F0000.
Definition MSCM_IRCPGIR_INTID_MASK : Z := 0x00000003.
Definition MSCM_IRCPGIR_TLF (n : Z) : Z := Z.land (Z.shiftl n 24) MSCM_IRCPGIR_TLF_MASK.
Definition MSCM_IRCPGIR_CPUTL (n : Z) : Z :=
  Z.land (Z.shiftl (Z.shiftl 1 n) 16) MSCM_IRCPGIR_CPUTL_MASK.
Definition MSCM_IRCPGIR_INTID (n : Z) : Z := Z.land n MSCM_IRCPGIR_INTID_MASK.
Definition MSCM_IRCPGIR_TLF_CPUTL : Z := 0.
Definition MSCM_IRSPRCn_CPxE (n : Z) : Z := Z.shiftl 1 n.

(** ** Private data *)

Record ipc_hw_priv : Type := HwPriv {
  mscm_tx_irq : Z;
  mscm_rx_irq : Z;
  remote_core : Z;
  mscm : Z
}.

Definition hw_priv_zero : ipc_hw_priv := HwPriv 0 0 0 NULL.

Section Ops.
Context {P : Type} `{HE : HwEnv ipc_hw_priv P}.

(** The variable [priv]. *)
Definition priv : M (memory * P) ipc_hw_priv := get_hw 0.
Definition upd_priv (f : ipc_hw_priv -> ipc_hw_priv) : M (memory * P) unit := upd_hw 0 f.

(** &priv.mscm->irsprc[priv.mscm_rx_irq] *)
Definition rx_irsprc : M (memory * P) Z :=
  let* h := priv in
  reg_array (mscm h + off_irsprc) 2 MSCM_IRSPRC_COUNT (mscm_rx_irq h).

Definition ipc_hw_get_rx_irq (instance : Z) : M (memory * P) Z :=
  let* h := priv in cret (mscm_rx_irq h).

Definition ipc_hw_irq_enable (instance : Z) : M (memory * P) unit :=
  let* r := rx_irsprc in
  let* irsprc_mask := readw r in
  writew (Z.lor irsprc_mask (MSCM_IRSPRCn_CPxE A53)) r.

Definition ipc_hw_irq_disable (instance : Z) : M (memory * P) unit :=
  let* r := rx_irsprc in
  let* irsprc_mask := readw r in
  writew (Z.land irsprc_mask (Z.lnot (MSCM_IRSPRCn_CPxE A53))) r.

Definition ipc_hw_irq_notify (instance : Z) : M (memory * P) unit :=
  let* h := priv in
  if mscm_tx_irq h =? IPC_IRQ_NONE then cret tt else
  writel (Z.lor (Z.lor (MSCM_IRCPGIR_TLF MSCM_IRCPGIR_TLF_CPUTL)
                       (MSCM_IRCPGIR_CPUTL (remote_core h)))
                (MSCM_IRCPGIR_INTID (mscm_tx_irq h)))
         (mscm h + off_ircpgir).

Definition ipc_hw_irq_clear (instance : Z) : M (memory * P) unit :=
  let* h := priv in
  writel (MSCM_IRCPxIR_INT (mscm_rx_irq h)) (mscm h + off_ircp1ir).

Definition irqs_bad (tx rx : Z) : bool :=
  (negb (tx =? IPC_IRQ_NONE) && ((tx <? IRQ_ID_MIN) || (IRQ_ID_MAX <? tx)))
  || (rx <? IRQ_ID_MIN) || (IRQ_ID_MAX <? rx) || (rx =? tx).

Definition _ipc_hw_init (instance : Z) (cfg : ipc_shm_cfg) (periph_addr : Z) :
    M (memory * P) Z :=
  if periph_addr =? NULL then cret (- EINVAL) else
  upd_priv (fun h => HwPriv (mscm_tx_irq h) (mscm_rx_irq h) (remote_core h) periph_addr) ;;;
  (* only M4 core is supported *)
  if negb (bool_decide (rc_type (cfg_remote_core cfg) = IPC_CORE_DEFAULT))
     && negb (bool_decide (rc_type (cfg_remote_core cfg) = IPC_CORE_M4)) then cret (- EINVAL) else
  if irqs_bad (cfg_inter_core_tx_irq cfg) (cfg_inter_core_rx_irq cfg) then cret (- EINVAL) else
  upd_priv (fun h => HwPriv (cfg_inter_core_tx_irq cfg) (cfg_inter_core_rx_irq cfg)
                       DEFAULT_REMOTE_CORE (mscm h)) ;;;
  ipc_hw_irq_disable instance ;;;
  cret 0.

Definition ipc_hw_init (instance : Z) (cfg : ipc_shm_cfg) : M (memory * P) Z :=
  let* addr := ipc_os_map_intc in
  _ipc_hw_init instance cfg addr.

Definition ipc_hw_free (instance : Z) : M (memory * P) unit :=
  ipc_hw_irq_clear instance ;;;
  let* h := priv in
  ipc_os_unmap_intc (mscm h).

#[export] Instance hw_ops : HwOps P := {
  hw_init := ipc_hw_init;
  hw_free := ipc_hw_free;
  hw_get_rx_irq := ipc_hw_get_rx_irq;
  hw_irq_enable := ipc_hw_irq_enable;
  hw_irq_disable := ipc_hw_irq_disable;
  hw_irq_notify := ipc_hw_irq_notify;
  hw_irq_clear := ipc_hw_irq_clear
}.

End Ops.
