(* ===== verification/HwSpec.v ===== *)
(** * Correctness of the platform files

    Register layouts, and the registers the driver functions access, against the
    documentation of the headers; initialisation against a specification of its own
    ([accepted]: which configurations the hardware supports, by core and interrupt
    number; [init_effect]: the accesses to registers it makes), bounds of every
    register index, and the interface [HwOpsLaws] the layers above rely on, for
    S32gen1, S32g3xx and S32r47. *)

From Stdlib Require Import String.
From S2P Require Import Prelude Memory Types World Mscm Router.
From S2P Require S32gen1 S32g3xx S32r47 S32v234.
#[local] Open Scope Z_scope.

(** ** Register layouts *)

(** All (register, offset) pairs of a table are where the structure puts them. *)
Definition offsets_match (regs : list field) (tab : list (string * Z)) : Prop :=
  Forall (fun e => offsetof regs e.1 = Some e.2) tab.

(** Offsets in the comment of src/hw/s32gen1/ipc-hw-platform.h; of the matrix
    IRCPnIRx its first element. *)
Definition s32gen1_documented : list (string * Z) := [
  ("CPXTYPE", 0x0); ("CPXNUM", 0x4); ("CPXREV", 0x8); ("CPXCFG", 0xC);
  ("CP0TYPE", 0x20); ("CP0NUM", 0x24); ("CP0REV", 0x28); ("CP0CFG", 0x2C);
  ("CP1TYPE", 0x40); ("CP1NUM", 0x44); ("CP1REV", 0x48); ("CP1CFG", 0x4C);
  ("CP2TYPE", 0x60); ("CP2NUM", 0x64); ("CP2REV", 0x68); ("CP2CFG", 0x6C);
  ("CP3TYPE", 0x80); ("CP3NUM", 0x84); ("CP3REV", 0x88); ("CP3CFG", 0x8C);
  ("CP4TYPE", 0xA0); ("CP4NUM", 0xA4); ("CP4REV", 0xA8); ("CP4CFG", 0xAC);
  ("CP5TYPE", 0xC0); ("CP5NUM", 0xC4); ("CP5REV", 0xC8); ("CP5CFG", 0xCC);
  ("CP6TYPE", 0xE0); ("CP6NUM", 0xE4); ("CP6REV", 0xE8); ("CP6CFG", 0xEC);
  ("IRCPnIRx", 0x200); ("IRCPCFG", 0x400); ("IRNMIC", 0x800); ("IRSPRC", 0x880) ]%string.

(** The status and generation registers IRCP<core>ISR<irq>, IRCP<core>IGR<irq>
    of that comment. *)
Definition s32gen1_ircp_documented : list (Z * Z * Z * Z) := [
  (0, 0, 0x200, 0x204); (0, 1, 0x208, 0x20C); (0, 2, 0x210, 0x214); (0, 3, 0x218, 0x21C);
  (1, 0, 0x220, 0x224); (1, 1, 0x228, 0x22C); (1, 2, 0x230, 0x234); (1, 3, 0x238, 0x23C);
  (2, 0, 0x240, 0x244); (2, 1, 0x248, 0x24C); (2, 2, 0x250, 0x254); (2, 3, 0x258, 0x25C);
  (3, 0, 0x260, 0x264); (3, 1, 0x268, 0x26C); (3, 2, 0x270, 0x274); (3, 3, 0x278, 0x27C);
  (4, 0, 0x280, 0x284); (4, 1, 0x288, 0x28C); (4, 2, 0x290, 0x294); (4, 3, 0x298, 0x29C);
  (5, 0, 0x2A0, 0x2A4); (5, 1, 0x2A8, 0x2AC); (5, 2, 0x2B0, 0x2B4); (5, 3, 0x2B8, 0x2BC);
  (6, 0, 0x2C0, 0x2C4); (6, 1, 0x2C8, 0x2CC); (6, 2, 0x2D0, 0x2D4); (6, 3, 0x2D8, 0x2DC) ].

(** Offsets in the comment of src/hw/s32v234/ipc-hw-platform.h. *)
Definition s32v234_documented : list (string * Z) := [
  ("cpxtype", 0x0); ("cpxnum", 0x4); ("cpxmaster", 0x8); ("cpxcount", 0xC); ("cpxcfg", 0x10);
  ("cp0type", 0x20); ("cp0num", 0x24); ("cp0master", 0x28); ("cp0count", 0x2C); ("cp0cfg", 0x30);
  ("cp1type", 0x40); ("cp1num", 0x44); ("cp1master", 0x48); ("cp1count", 0x4C); ("cp1cfg", 0x50);
  ("ocmdr", 0x400); ("tcmdr0", 0x480); ("cpce0", 0x500); ("ircp0ir", 0x800); ("ircp1ir", 0x804);
  ("ircpgir", 0x820); ("irsprc", 0x880); ("ipcge", 0xD00); ("ipce", 0xD10); ("ipcgie", 0xD40);
  ("ipcie", 0xD50) ]%string.

Lemma gen1_layout_in : layout_in S32gen1.layout (sizeof S32gen1.ipc_mscm_regs).
Proof. constructor; vm_compute; intuition discriminate. Qed.

Lemma g3xx_layout_in : layout_in S32g3xx.layout (sizeof S32g3xx.ipc_mscm_regs).
Proof. constructor; vm_compute; intuition discriminate. Qed.

Lemma r47_layout_in : layout_in S32r47.layout (sizeof S32r47.ipc_mscm_regs).
Proof. constructor; vm_compute; intuition discriminate. Qed.

(** Close a refusal in the state [p], [h] after the accesses [t]. *)
Ltac refused p h t :=
  exists p, h, t; split_and!;
  [reflexivity | assumption | assumption | assumption || congruence
  | first [exact (or_introl eq_refl) | assumption]
  | let E := fresh in intros E; exfalso; apply E; reflexivity].

(** ** Routers: S32gen1 and S32g3xx *)

(** Indexes into the register arrays. *)
Record in_bounds (S : router_soc) (h : ipc_hw_priv_type) : Prop := {
  ib_tx : 0 <= msi_tx_irq h < irq_count (rs_layout S);
  ib_rx : 0 <= msi_rx_irq h < irq_count (rs_layout S);
  ib_spi : 0 <= spi_index h < irsprc_count (rs_layout S);
  ib_remote : 0 <= remote_core h < cp_count (rs_layout S);
  ib_local : 0 <= local_core h < cp_count (rs_layout S)
}.

(** The tables of a platform stay inside its register block. *)
Record soc_ok (S : router_soc) : Prop := {
  so_layout : layout_in (rs_layout S) (rs_size S);
  so_cpxnum : 0 <= rs_cpxnum S /\ rs_cpxnum S + 4 <= rs_size S;
  so_ircpcfg : 0 <= rs_ircpcfg S /\ rs_ircpcfg S + 4 <= rs_size S;
  so_local c l : rs_local S c = Some l -> 0 <= l < cp_count (rs_layout S);
  so_remote c r : rs_remote S c = Some r -> 0 <= r < cp_count (rs_layout S);
  so_tx irq f h : rs_tx S irq = Some f -> in_bounds S h -> in_bounds S (f h);
  so_rx irq f h : rs_rx S irq = Some f -> in_bounds S h -> in_bounds S (f h);
  so_mscm irq f h : rs_tx S irq = Some f \/ rs_rx S irq = Some f -> ipc_mscm (f h) = ipc_mscm h;
  so_pair irq f g h h' : irq <> IPC_IRQ_NONE -> rs_tx S irq = Some f -> rs_rx S irq = Some g ->
    msi_tx_irq (f h) = msi_rx_irq (g h');
  so_rx_keeps irq g h : rs_rx S irq = Some g -> msi_tx_irq (g h) = msi_tx_irq h
}.

Section Router.
Context {P : Type} `{HE : HwEnv ipc_hw_priv_type P} `{HL : !HwEnvLaws ipc_hw_priv_type P}.
Context (S : router_soc) (SO : soc_ok S).

(** What the checks of [router_init_at S] accept, registers apart. *)
Definition router_cfg_ok (cfg : ipc_shm_cfg) : bool :=
  match rs_local S (cfg_local_core cfg), rs_remote S (cfg_remote_core cfg) with
  | Some l, Some r =>
      trusted_ok S (rs_trust S (lc_trusted (cfg_local_core cfg))) l
      && negb (negb (cfg_inter_core_tx_irq cfg =? IPC_IRQ_NONE)
               && (cfg_inter_core_tx_irq cfg =? cfg_inter_core_rx_irq cfg))
      && negb (r =? l)
      && bool_decide (is_Some (rs_tx S (cfg_inter_core_tx_irq cfg)))
      && bool_decide (is_Some (rs_rx S (cfg_inter_core_rx_irq cfg)))
  | _, _ => false
  end.

(** The result of initialisation when the processor number register reads as
    [cpxnum] and the configuration register as [ircpcfg]. *)
Definition router_verdict (cfg : ipc_shm_cfg) (cpxnum ircpcfg : Z) : Z :=
  if router_cfg_ok cfg
     && negb (bool_decide (rs_remote S (cfg_remote_core cfg) = Some (u32 cpxnum)))
  then if Z.testbit ircpcfg 31 then - EACCES else 0
  else - EINVAL.

(** The private data follows the configuration. *)
Definition configured (cfg : ipc_shm_cfg) (h : ipc_hw_priv_type) : Prop :=
  mscm_tx_irq h = cfg_inter_core_tx_irq cfg /\ mscm_rx_irq h = cfg_inter_core_rx_irq cfg /\
  rs_remote S (cfg_remote_core cfg) = Some (remote_core h) /\
  rs_local S (cfg_local_core cfg) = Some (local_core h) /\
  remote_core h <> local_core h /\
  (exists f h', rs_tx S (mscm_tx_irq h) = Some f /\ msi_tx_irq h = msi_tx_irq (f h')) /\
  (exists g h', rs_rx S (mscm_rx_irq h) = Some g /\ msi_rx_irq h = msi_rx_irq (g h')).

Lemma router_disable_ok i h o m p :
  hw_at i h o p -> in_bounds S h -> mapped m (ipc_mscm h) (rs_size S) = true ->
  exists p', router_irq_disable S i (m, p) = Ret tt (m, p') /\ hw_at i h o p'.
Proof.
  intros Ha Hb Hm. unfold router_irq_disable.
  rewrite (cbind_Ret _ _ _ _ _ (get_hw_eval _ _ _ m _ Ha)).
  destruct (negb _); [| exists p; auto].
  eapply route_disable_ok; eauto; (apply SO || apply Hb).
Qed.

Lemma clash_rules i At (HR : hw_rules i At) cfg r l h v m p :
  At h [] p -> mapped m (ipc_mscm h) (rs_size S) = true ->
  reads_as 4 (ipc_mscm h + rs_cpxnum S) v ->
  exists t p', irq_or_core_clash S i cfg r l (m, p)
    = Ret (negb (cfg_inter_core_tx_irq cfg =? IPC_IRQ_NONE)
             && (cfg_inter_core_tx_irq cfg =? cfg_inter_core_rx_irq cfg)
           || ((r =? u32 v) || (r =? l))) (m, p') /\ At h t p' /\
    t = if negb (cfg_inter_core_tx_irq cfg =? IPC_IRQ_NONE)
           && (cfg_inter_core_tx_irq cfg =? cfg_inter_core_rx_irq cfg) then []
        else [HwRead 4 (ipc_mscm h + rs_cpxnum S) v].
Proof.
  intros Ha Hm Hv. unfold irq_or_core_clash. destruct (negb _ && _) eqn:E; [exists [], p; auto |].
  rewrite (cbind_Ret _ _ _ _ _ (hr_get _ _ HR _ _ m _ Ha)).
  destruct (hr_readl i At HR h [] (ipc_mscm h + rs_cpxnum S) v m p Ha) as (p' & E' & Ha'); [| exact Hv |].
  { eapply mapped_sub; [exact Hm | |]; assert (HC := so_cpxnum S SO); lia. }
  rewrite (cbind_Ret _ _ _ _ _ E'). exists [HwRead 4 (ipc_mscm h + rs_cpxnum S) v], p'. auto.
Qed.

Lemma router_disable_rules i At (HR : hw_rules i At) h t m p :
  At h t p -> in_bounds S h -> mapped m (ipc_mscm h) (rs_size S) = true ->
  exists x p', router_irq_disable S i (m, p) = Ret tt (m, p') /\
    At h (t ++ if mscm_rx_irq h =? IPC_IRQ_NONE then []
               else disable_accesses (ipc_mscm h + irsprc_off (rs_layout S) + 2 * spi_index h) x) p'.
Proof.
  intros Ha Hb Hm. unfold router_irq_disable.
  rewrite (cbind_Ret _ _ _ _ _ (hr_get _ _ HR _ _ m _ Ha)).
  destruct (_ =? _); cbn [negb]; [exists 0, p; now rewrite app_nil_r |].
  apply (hr_route_disable i At HR); [exact Ha | apply Hb |].
  eapply irsprc_mapped; [apply SO | exact Hm | apply Hb].
Qed.

(** The verdict branch by branch. *)
Lemma verdict_split cfg v w :
  router_verdict cfg v w =
  match rs_local S (cfg_local_core cfg), rs_remote S (cfg_remote_core cfg) with
  | Some l, Some r =>
      if negb (trusted_ok S (rs_trust S (lc_trusted (cfg_local_core cfg))) l) then - EINVAL else
      if negb (cfg_inter_core_tx_irq cfg =? IPC_IRQ_NONE)
             && (cfg_inter_core_tx_irq cfg =? cfg_inter_core_rx_irq cfg)
           || ((r =? u32 v) || (r =? l)) then - EINVAL else
      match rs_tx S (cfg_inter_core_tx_irq cfg), rs_rx S (cfg_inter_core_rx_irq cfg) with
      | Some _, Some _ => if Z.testbit w 31 then - EACCES else 0
      | _, _ => - EINVAL
      end
  | _, _ => - EINVAL
  end.
Proof.
  unfold router_verdict, router_cfg_ok.
  destruct (rs_local S _) as [l |]; [| reflexivity].
  destruct (rs_remote S _) as [r |]; [| reflexivity].
  destruct (trusted_ok S _ l); cbn [negb andb]; [| reflexivity].
  destruct (negb (_ =? IPC_IRQ_NONE) && _); cbn [negb andb orb]; [reflexivity |].
  replace (bool_decide (Some r = Some (u32 v))) with (r =? u32 v)
    by (symmetry; destruct (Z.eqb_spec r (u32 v)); case_bool_decide; congruence).
  destruct (r =? l); cbn [negb andb orb]; [now rewrite orb_true_r |]. rewrite orb_false_r.
  destruct (rs_tx S _); cbn; [| now destruct (_ =? _)].
  destruct (rs_rx S _); cbn; now destruct (_ =? _).
Qed.

(** The accesses of an initialisation that ends with private data [h]. *)
Definition init_accesses (cfg : ipc_shm_cfg) (a v w : Z) (h : ipc_hw_priv_type) (t : list hw_io) : Prop :=
  if router_verdict cfg v w =? - EINVAL then t = [] \/ t = [HwRead 4 (a + rs_cpxnum S) v] else
  exists x, t =
    [HwRead 4 (a + rs_cpxnum S) v] ++
    (if cfg_inter_core_rx_irq cfg =? IPC_IRQ_NONE then []
     else disable_accesses (a + irsprc_off (rs_layout S) + 2 * spi_index h) x) ++
    [HwRead 4 (a + rs_ircpcfg S) w] ++
    (if Z.testbit w 31 then []
     else [HwWrite 4 (a + rs_ircpcfg S) (u32 (Z.lor (u32 w) (rs_trust S (lc_trusted (cfg_local_core cfg)))))]).

(** Its last steps, from the switches on. *)
Definition routed (cfg : ipc_shm_cfg) (a : Z) (h0 h : ipc_hw_priv_type) : Prop :=
  exists l r f g, rs_local S (cfg_local_core cfg) = Some l /\ rs_remote S (cfg_remote_core cfg) = Some r /\
    rs_tx S (cfg_inter_core_tx_irq cfg) = Some f /\ rs_rx S (cfg_inter_core_rx_irq cfg) = Some g /\
    h = set_route (cfg_inter_core_tx_irq cfg) (cfg_inter_core_rx_irq cfg) r l (g (f (set_mscm a h0))).

Lemma router_finish_rules i At (HR : hw_rules i At) h t w trust m p :
  At h t p -> in_bounds S h -> mapped m (ipc_mscm h) (rs_size S) = true ->
  reads_as 4 (ipc_mscm h + rs_ircpcfg S) w ->
  exists x p', (router_irq_disable S i ;;;
      let* h := get_hw i in
      let* ircpcfg_mask := readl (ipc_mscm h + rs_ircpcfg S) in
      if negb (Z.land ircpcfg_mask IPC_MSCM_IRCPCFG_LOCK =? 0) then cret (- EACCES) else
      writel (Z.lor ircpcfg_mask trust) (ipc_mscm h + rs_ircpcfg S) ;;;
      cret 0) (m, p) = Ret (if Z.testbit w 31 then - EACCES else 0) (m, p') /\
    At h (t ++ (if mscm_rx_irq h =? IPC_IRQ_NONE then []
                else disable_accesses (ipc_mscm h + irsprc_off (rs_layout S) + 2 * spi_index h) x) ++
          [HwRead 4 (ipc_mscm h + rs_ircpcfg S) w] ++
          (if Z.testbit w 31 then [] else [HwWrite 4 (ipc_mscm h + rs_ircpcfg S) (u32 (Z.lor (u32 w) trust))])) p'.
Proof.
  intros Ha Hb Hm Hw. destruct (router_disable_rules i At HR h t m p Ha Hb Hm) as (x & p1 & E1 & Ha1).
  rewrite (cbind_Ret _ _ _ _ _ E1), (cbind_Ret _ _ _ _ _ (hr_get _ _ HR _ _ m _ Ha1)).
  assert (Hcfg : mapped m (ipc_mscm h + rs_ircpcfg S) 4 = true).
  { eapply mapped_sub; [exact Hm | |]; assert (HC := so_ircpcfg S SO); lia. }
  destruct (hr_readl i At HR h _ _ w m p1 Ha1 Hcfg Hw) as (p2 & E2 & Ha2).
  rewrite (cbind_Ret _ _ _ _ _ E2), lock_bit, negb_involutive. exists x.
  destruct (Z.testbit w 31); [exists p2; split; [reflexivity |]; now rewrite app_nil_r, app_assoc |].
  destruct (hr_writel i At HR h _ _ (Z.lor (u32 w) trust) m p2 Ha2 Hcfg) as (p3 & E3 & Ha3).
  rewrite (cbind_Ret _ _ _ _ _ E3). exists p3. split; [reflexivity |]. now rewrite !app_assoc in *.
Qed.

Lemma router_init_rules i At (HR : hw_rules i At) cfg a h0 v w m p :
  At h0 [] p -> in_bounds S h0 -> mapped m a (rs_size S) = true ->
  reads_as 4 (a + rs_cpxnum S) v -> reads_as 4 (a + rs_ircpcfg S) w ->
  exists p' h t, router_init_at S i cfg a (m, p) = Ret (router_verdict cfg v w) (m, p') /\
    At h t p' /\ in_bounds S h /\ ipc_mscm h = a /\ init_accesses cfg a v w h t /\
    (router_verdict cfg v w <> - EINVAL -> routed cfg a h0 h /\ remote_core h <> local_core h).
Proof.
  intros Ha Hb Hm Hv Hw. unfold init_accesses. rewrite verdict_split. unfold router_init_at, routed.
  assert (Ha0 : (a =? NULL) = false) by (apply Z.eqb_neq; intros ->; discriminate Hm).
  rewrite Ha0. destruct (hr_upd _ _ HR h0 [] m p (set_mscm a) Ha) as (p1 & E1 & Ha1).
  rewrite (cbind_Ret _ _ _ _ _ E1). set (h1 := set_mscm a h0) in *.
  assert (Hb1 : in_bounds S h1) by (destruct Hb; constructor; assumption). assert (Hm1 : ipc_mscm h1 = a) by reflexivity.
  destruct (rs_local S _) as [l |] eqn:El; [| refused p1 h1 (@nil hw_io)].
  destruct (trusted_ok S _ l); [| destruct (rs_remote S _); refused p1 h1 (@nil hw_io)].
  destruct (rs_remote S _) as [r |] eqn:Er; [| refused p1 h1 (@nil hw_io)]. cbn [negb].
  destruct (clash_rules i At HR cfg r l h1 v m p1 Ha1) as (t & p2 & E2 & Ha2 & Et2); [now rewrite Hm1 .. |].
  rewrite (cbind_Ret _ _ _ _ _ E2). rewrite Hm1 in Et2.
  assert (Ht : t = [] \/ t = [HwRead 4 (a + rs_cpxnum S) v]) by (rewrite Et2; destruct (_ && _); auto).
  destruct (_ || _) eqn:Ec; [refused p2 h1 t |]. apply orb_false_iff in Ec as [Ec Erl]. rewrite Ec in Et2.
  destruct (rs_tx S _) as [ft |] eqn:Et; [| refused p2 h1 t].
  destruct (hr_upd _ _ HR h1 t m p2 ft Ha2) as (p3 & E3 & Ha3). rewrite (cbind_Ret _ _ _ _ _ E3).
  assert (Hb3 := so_tx S SO _ _ _ Et Hb1). assert (Hm3 := so_mscm S SO _ _ h1 (or_introl Et)).
  destruct (rs_rx S _) as [fr |] eqn:Erx; [| refused p3 (ft h1) t].
  destruct (hr_upd _ _ HR (ft h1) t m p3 fr Ha3) as (p4 & E4 & Ha4). rewrite (cbind_Ret _ _ _ _ _ E4).
  assert (Hb4 := so_rx S SO _ _ _ Erx Hb3). assert (Hm4 := so_mscm S SO _ _ (ft h1) (or_intror Erx)).
  set (g := set_route _ _ r l). destruct (hr_upd _ _ HR (fr (ft h1)) t m p4 g Ha4) as (p5 & E5 & Ha5).
  rewrite (cbind_Ret _ _ _ _ _ E5). set (h := g (fr (ft h1))) in *.
  assert (Hb5 : in_bounds S h) by (destruct Hb4; constructor; cbn; auto; eauto using so_local, so_remote).
  assert (Hm5 : ipc_mscm h = a) by (change (ipc_mscm h) with (ipc_mscm (fr (ft h1))); congruence).
  destruct (router_finish_rules i At HR h t w (rs_trust S (lc_trusted (cfg_local_core cfg))) m p5 Ha5 Hb5)
    as (x & p6 & E6 & Ha6); [now rewrite Hm5 .. |].
  exists p6, h. eexists. split; [exact E6 |]. split; [exact Ha6 |]. rewrite Hm5, Et2.
  split_and!; [exact Hb5 | reflexivity | destruct (Z.testbit w 31); now exists x |]. intros _. split.
  - exists l, r, ft, fr. auto.
  - apply orb_false_iff in Erl as [_ Erl]. now apply Z.eqb_neq in Erl.
Qed.

Lemma router_init_ok i cfg a h0 o v w m p :
  hw_at i h0 o p -> in_bounds S h0 -> mapped m a (rs_size S) = true ->
  reads_as 4 (a + rs_cpxnum S) v -> reads_as 4 (a + rs_ircpcfg S) w ->
  exists p' h, router_init_at S i cfg a (m, p) = Ret (router_verdict cfg v w) (m, p') /\
    hw_at i h o p' /\ in_bounds S h /\ ipc_mscm h = a /\
    (router_verdict cfg v w = 0 -> configured cfg h).
Proof.
  intros Ha Hb Hm Hv Hw.
  destruct (router_init_rules i _ (hw_rules_at i o) cfg a h0 v w m p Ha Hb Hm Hv Hw)
    as (p' & h & _ & E & Ha' & Hb' & Hm' & _ & Hr).
  exists p', h. split_and!; auto. intros E0. destruct Hr as [(l & r & f & g & El & Er & Ef & Eg & ->) Hne]; [rewrite E0; discriminate |].
  split_and!; auto.
  - exists f, (set_mscm a h0). split; [exact Ef |]. apply (so_rx_keeps S SO _ _ _ Eg).
  - exists g, (f (set_mscm a h0)). split; [exact Eg | reflexivity].
Qed.

Lemma router_enable_ok i h o m p :
  hw_at i h o p -> in_bounds S h -> mapped m (ipc_mscm h) (rs_size S) = true ->
  exists p', router_irq_enable S i (m, p) = Ret tt (m, p') /\ hw_at i h o p'.
Proof.
  intros Ha Hb Hm. unfold router_irq_enable.
  rewrite (cbind_Ret _ _ _ _ _ (get_hw_eval _ _ _ m _ Ha)).
  destruct (negb _); [| exists p; auto].
  eapply route_enable_ok; eauto; (apply SO || apply Hb).
Qed.

Lemma router_notify_ok i h o m p :
  hw_at i h o p -> in_bounds S h -> mapped m (ipc_mscm h) (rs_size S) = true ->
  exists p', router_irq_notify S i (m, p) = Ret tt (m, p') /\ hw_at i h o p'.
Proof.
  intros Ha Hb Hm. unfold router_irq_notify.
  rewrite (cbind_Ret _ _ _ _ _ (get_hw_eval _ _ _ m _ Ha)).
  destruct (negb _); [| exists p; auto].
  eapply raise_irq_ok; eauto; (apply SO || apply Hb).
Qed.

Lemma router_clear_ok i h o m p :
  hw_at i h o p -> in_bounds S h -> mapped m (ipc_mscm h) (rs_size S) = true ->
  exists p', router_irq_clear S i (m, p) = Ret tt (m, p') /\ hw_at i h o p'.
Proof.
  intros Ha Hb Hm. unfold router_irq_clear.
  rewrite (cbind_Ret _ _ _ _ _ (get_hw_eval _ _ _ m _ Ha)).
  destruct (negb _); [| exists p; auto].
  eapply ack_irq_ok; eauto; (apply SO || apply Hb).
Qed.

(** The registers behind notification and acknowledgement. *)
Lemma router_notify_reg i h o m p :
  hw_at i h o p -> in_bounds S h -> mscm_tx_irq h <> IPC_IRQ_NONE ->
  router_irq_notify S i (m, p)
    = writel 1 (ipc_mscm h + ir_off (rs_layout S)
                + 8 * irq_count (rs_layout S) * remote_core h + 8 * msi_tx_irq h + 4) (m, p).
Proof.
  intros Ha Hb Hn. unfold router_irq_notify.
  rewrite (cbind_Ret _ _ _ _ _ (get_hw_eval _ _ _ m _ Ha)).
  apply Z.eqb_neq in Hn as ->. apply raise_irq_reg; apply Hb.
Qed.

Lemma router_clear_reg i h o m p :
  hw_at i h o p -> in_bounds S h -> mscm_rx_irq h <> IPC_IRQ_NONE ->
  router_irq_clear S i (m, p)
    = writel (Z.shiftl 1 (remote_core h)) (ipc_mscm h + ir_off (rs_layout S)
                + 8 * irq_count (rs_layout S) * local_core h + 8 * msi_rx_irq h) (m, p).
Proof.
  intros Ha Hb Hn. unfold router_irq_clear.
  rewrite (cbind_Ret _ _ _ _ _ (get_hw_eval _ _ _ m _ Ha)).
  apply Z.eqb_neq in Hn as ->. apply ack_irq_reg; apply Hb.
Qed.

(** An instance is live when its private data stays in bounds and the register
    block it points to is mapped. *)
Definition router_live (i : Z) (regs : list (Z * Z)) (p : P) : Prop :=
  exists h, nthZ (hw_privs p) i = Some h /\ in_bounds S h /\
    mapped (Memory regs ∅) (ipc_mscm h) (rs_size S) = true.

End Router.

(** The laws of [HwOpsLaws], from the lemmas on one operation. *)
Ltac hw_law ok :=
  intros i m p (h & E & Hb & Hm);
  destruct (ok i h (os_of p) m p (conj E eq_refl) Hb Hm) as (p' & E' & [Ea Eo]);
  exists p'; split; [exact E' |]; split; [exists h; auto | exact Eo].

Ltac soc_tables :=
  constructor;
  [ constructor; vm_compute; intuition discriminate
  | vm_compute; intuition discriminate
  | vm_compute; intuition discriminate
  | intros c l; cbn; unfold_switches; repeat case_match; intros; simplify_eq;
    vm_compute; intuition discriminate
  | intros c l; cbn; unfold_switches; repeat case_match; intros; simplify_eq;
    vm_compute; intuition discriminate
  | intros irq f h; cbn; unfold_switches; repeat case_match; intros E [? ? ? ? ?]; simplify_eq;
    constructor; cbn; auto; vm_compute; intuition discriminate
  | intros irq f h; cbn; unfold_switches; repeat case_match; intros E [? ? ? ? ?]; simplify_eq;
    constructor; cbn; auto; vm_compute; intuition discriminate
  | intros irq f h; cbn; unfold_switches; intros [E | E]; repeat case_match; simplify_eq; reflexivity
  | intros irq f g h h' Hn; cbn; unfold_switches; apply Z.eqb_neq in Hn as ->;
    repeat case_match; intros; simplify_eq; reflexivity
  | intros irq g h; cbn; unfold_switches; repeat case_match; intros; simplify_eq; reflexivity ]
with unfold_switches :=
  unfold S32gen1.local_core_switch, S32gen1.remote_core_switch,
    S32gen1.tx_irq_switch, S32gen1.rx_irq_switch,
    S32g3xx.local_core_switch, S32g3xx.remote_core_switch,
    S32g3xx.tx_irq_switch, S32g3xx.rx_irq_switch.

Lemma gen1_soc_ok : soc_ok S32gen1.soc.
Proof. soc_tables. Qed.

Lemma g3xx_soc_ok : soc_ok S32g3xx.soc.
Proof. soc_tables. Qed.

Section Laws.
Context {P : Type} `{HE : HwEnv ipc_hw_priv_type P} `{HL : !HwEnvLaws ipc_hw_priv_type P}.

#[export] Program Instance gen1_laws : @HwOpsLaws P S32gen1.hw_ops := {
  hw_live := router_live S32gen1.soc;
  hw_os_part := os_part;
  hw_os_of := os_of
}.
Next Obligation. hw_law (router_enable_ok S32gen1.soc gen1_soc_ok). Qed.
Next Obligation. hw_law (router_disable_ok S32gen1.soc gen1_soc_ok). Qed.
Next Obligation. hw_law (router_notify_ok S32gen1.soc gen1_soc_ok). Qed.
Next Obligation. hw_law (router_clear_ok S32gen1.soc gen1_soc_ok). Qed.

#[export] Program Instance g3xx_laws : @HwOpsLaws P S32g3xx.hw_ops := {
  hw_live := router_live S32g3xx.soc;
  hw_os_part := os_part;
  hw_os_of := os_of
}.
Next Obligation. hw_law (router_enable_ok S32g3xx.soc g3xx_soc_ok). Qed.
Next Obligation. hw_law (router_disable_ok S32g3xx.soc g3xx_soc_ok). Qed.
Next Obligation. hw_law (router_notify_ok S32g3xx.soc g3xx_soc_ok). Qed.
Next Obligation. hw_law (router_clear_ok S32g3xx.soc g3xx_soc_ok). Qed.

End Laws.

(** ** S32R47 *)

Section R47.
Import S32r47.
Context {P : Type} `{HE : HwEnv S32r47.ipc_hw_priv_type P}.
Context `{HL : !HwEnvLaws S32r47.ipc_hw_priv_type P}.

Definition irq_in_range (irq : Z) : Prop := irq = IPC_IRQ_NONE \/ 0 <= irq < 11.

Record r47_in_bounds (h : S32r47.ipc_hw_priv_type) : Prop := {
  rb_tx : irq_in_range (mscm_tx_irq h);
  rb_rx : irq_in_range (mscm_rx_irq h);
  rb_remote : 0 <= remote_core h < 11;
  rb_local : 0 <= local_core h < 11
}.

Lemma r47_local_switch c l : local_core_switch c = Some l -> 0 <= l < 11.
Proof.
  unfold local_core_switch; repeat case_match; intros; simplify_eq; vm_compute;
    intuition discriminate.
Qed.

Lemma r47_remote_switch c l : remote_core_switch c = Some l -> 0 <= l < 11.
Proof.
  unfold remote_core_switch; repeat case_match; intros; simplify_eq; vm_compute;
    intuition discriminate.
Qed.

Lemma tx_irq_bad_range irq : tx_irq_bad irq = false -> irq_in_range irq.
Proof.
  unfold tx_irq_bad, irq_in_range, MSCM_INT0_IRQn, MSCM_INT10_IRQn. intros E.
  apply andb_false_iff in E as [E | E]; [left; now apply negb_false_iff, Z.eqb_eq in E | right].
  apply orb_false_iff in E. lia.
Qed.

Lemma rx_irq_bad_range irq r : rx_irq_bad irq r = false -> irq_in_range irq.
Proof.
  unfold rx_irq_bad, irq_in_range, MSCM_INT0_IRQn, MSCM_INT10_IRQn. intros E.
  apply andb_false_iff in E as [E | E]; [left; now apply negb_false_iff, Z.eqb_eq in E | right].
  apply orb_false_iff in E as [E _]. apply orb_false_iff in E. lia.
Qed.

Abbreviation r47_size := (sizeof ipc_mscm_regs).

Lemma r47_enable_ok i h o m p :
  hw_at i h o p -> r47_in_bounds h -> mapped m (ipc_mscm h) r47_size = true ->
  exists p', ipc_hw_irq_enable i (m, p) = Ret tt (m, p') /\ hw_at i h o p'.
Proof.
  intros Ha Hb Hm. unfold ipc_hw_irq_enable.
  rewrite (cbind_Ret _ _ _ _ _ (get_hw_eval _ _ _ m _ Ha)).
  destruct (Z.eqb_spec (mscm_rx_irq h) IPC_IRQ_NONE); cbn [negb]; [exists p; auto |].
  eapply route_enable_ok; eauto using r47_layout_in. destruct (rb_rx h Hb); [easy |].
  cbn [irsprc_count layout]. lia.
Qed.

Lemma r47_disable_ok i h o m p :
  hw_at i h o p -> r47_in_bounds h -> mapped m (ipc_mscm h) r47_size = true ->
  exists p', ipc_hw_irq_disable i (m, p) = Ret tt (m, p') /\ hw_at i h o p'.
Proof.
  intros Ha Hb Hm. unfold ipc_hw_irq_disable.
  rewrite (cbind_Ret _ _ _ _ _ (get_hw_eval _ _ _ m _ Ha)).
  destruct (Z.eqb_spec (mscm_rx_irq h) IPC_IRQ_NONE); cbn [negb]; [exists p; auto |].
  eapply route_disable_ok; eauto using r47_layout_in. destruct (rb_rx h Hb); [easy |].
  cbn [irsprc_count layout]. lia.
Qed.

Lemma r47_notify_ok i h o m p :
  hw_at i h o p -> r47_in_bounds h -> mapped m (ipc_mscm h) r47_size = true ->
  exists p', ipc_hw_irq_notify i (m, p) = Ret tt (m, p') /\ hw_at i h o p'.
Proof.
  intros Ha Hb Hm. unfold ipc_hw_irq_notify.
  rewrite (cbind_Ret _ _ _ _ _ (get_hw_eval _ _ _ m _ Ha)).
  destruct (Z.eqb_spec (mscm_tx_irq h) IPC_IRQ_NONE); cbn [negb]; [exists p; auto |].
  eapply raise_irq_ok; eauto using r47_layout_in; [apply Hb |]. destruct (rb_tx h Hb); [easy |].
  cbn [irq_count layout]. lia.
Qed.

Lemma r47_clear_ok i h o m p :
  hw_at i h o p -> r47_in_bounds h -> mapped m (ipc_mscm h) r47_size = true ->
  exists p', ipc_hw_irq_clear i (m, p) = Ret tt (m, p') /\ hw_at i h o p'.
Proof.
  intros Ha Hb Hm. unfold ipc_hw_irq_clear.
  rewrite (cbind_Ret _ _ _ _ _ (get_hw_eval _ _ _ m _ Ha)).
  destruct (Z.eqb_spec (mscm_rx_irq h) IPC_IRQ_NONE); cbn [negb]; [exists p; auto |].
  eapply ack_irq_ok; eauto using r47_layout_in; [apply Hb |]. destruct (rb_rx h Hb); [easy |].
  cbn [irq_count layout]. lia.
Qed.

#[export] Program Instance r47_laws : @HwOpsLaws P S32r47.hw_ops := {
  hw_live i regs p := exists h, nthZ (hw_privs p) i = Some h /\ r47_in_bounds h /\
    mapped (Memory regs ∅) (ipc_mscm h) r47_size = true;
  hw_os_part := os_part;
  hw_os_of := os_of
}.
Next Obligation. hw_law r47_enable_ok. Qed.
Next Obligation. hw_law r47_disable_ok. Qed.
Next Obligation. hw_law r47_notify_ok. Qed.
Next Obligation. hw_law r47_clear_ok. Qed.

(** The result of initialisation, as a function of the configuration and of the
    two registers it reads. *)
Definition r47_verdict (cfg : ipc_shm_cfg) (cpxnum ircpcfg : Z) : Z :=
  match local_core_switch (cfg_local_core cfg), remote_core_switch (cfg_remote_core cfg) with
  | Some l, Some r =>
      if negb (trusted_ok (lc_trusted (cfg_local_core cfg)) l)
         || (negb (cfg_inter_core_tx_irq cfg =? IPC_IRQ_NONE)
             && (cfg_inter_core_tx_irq cfg =? cfg_inter_core_rx_irq cfg)
             || ((r =? u32 cpxnum) || (r =? l)))
         || tx_irq_bad (cfg_inter_core_tx_irq cfg)
         || rx_irq_bad (cfg_inter_core_rx_irq cfg) r
      then - EINVAL
      else if Z.testbit ircpcfg 31 then - EACCES else 0
  | _, _ => - EINVAL
  end.

Lemma r47_regs_in :
  0 <= off_CPXNUM /\ off_CPXNUM + 4 <= r47_size /\ 0 <= off_IRCPCFG /\ off_IRCPCFG + 4 <= r47_size.
Proof. vm_compute. intuition discriminate. Qed.

Section Rules.
Context (i : Z) (At : S32r47.ipc_hw_priv_type -> list hw_io -> P -> Prop) (HR : hw_rules i At).

Lemma r47_clash_rules cfg h v m p :
  At h [] p -> mapped m (ipc_mscm h) r47_size = true ->
  reads_as 4 (ipc_mscm h + off_CPXNUM) v ->
  exists t p', irq_or_core_clash i cfg (m, p)
    = Ret (negb (cfg_inter_core_tx_irq cfg =? IPC_IRQ_NONE)
             && (cfg_inter_core_tx_irq cfg =? cfg_inter_core_rx_irq cfg)
           || ((remote_core h =? u32 v) || (remote_core h =? local_core h))) (m, p') /\ At h t p' /\
    t = if negb (cfg_inter_core_tx_irq cfg =? IPC_IRQ_NONE)
           && (cfg_inter_core_tx_irq cfg =? cfg_inter_core_rx_irq cfg) then []
        else [HwRead 4 (ipc_mscm h + off_CPXNUM) v].
Proof.
  intros Ha Hm Hv. unfold irq_or_core_clash. destruct (negb _ && _) eqn:E; [exists [], p; auto |].
  rewrite (cbind_Ret _ _ _ _ _ (hr_get _ _ HR _ _ m _ Ha)).
  destruct (hr_readl i At HR h [] (ipc_mscm h + off_CPXNUM) v m p Ha) as (p' & E' & Ha'); [| exact Hv |].
  { eapply mapped_sub; [exact Hm | |]; assert (HC := r47_regs_in); lia. }
  rewrite (cbind_Ret _ _ _ _ _ E'), (cbind_Ret _ _ _ _ _ (hr_get _ _ HR _ _ m _ Ha')).
  exists [HwRead 4 (ipc_mscm h + off_CPXNUM) v], p'. auto.
Qed.

Lemma r47_local_rules cfg h m p :
  At h [] p ->
  exists p', ipc_hw_local_core_init i cfg (m, p)
    = Ret (match local_core_switch (cfg_local_core cfg) with
           | Some l => if negb (trusted_ok (lc_trusted (cfg_local_core cfg)) l) then - EINVAL else 0
           | None => - EINVAL
           end) (m, p') /\
    At (match local_core_switch (cfg_local_core cfg) with Some l => set_local l h | None => h end) [] p'.
Proof.
  intros Ha. unfold ipc_hw_local_core_init.
  destruct (local_core_switch _) as [l |] eqn:El; [| now exists p].
  destruct (hr_upd _ _ HR h [] m p (set_local l) Ha) as (p2 & E2 & Ha2).
  rewrite (cbind_Ret _ _ _ _ _ E2), (cbind_Ret _ _ _ _ _ (hr_get _ _ HR _ _ m _ Ha2)), if_cret.
  exists p2. auto.
Qed.

Lemma r47_remote_rules cfg h m p :
  At h [] p ->
  exists p', ipc_hw_remote_core_init i cfg (m, p)
    = Ret (match remote_core_switch (cfg_remote_core cfg) with Some _ => 0 | None => - EINVAL end) (m, p') /\
    At (match remote_core_switch (cfg_remote_core cfg) with Some r => set_remote r h | None => h end) [] p'.
Proof.
  intros Ha. unfold ipc_hw_remote_core_init.
  destruct (remote_core_switch _) as [r |] eqn:El; [| now exists p].
  destruct (hr_upd _ _ HR h [] m p (set_remote r) Ha) as (p2 & E2 & Ha2).
  rewrite (cbind_Ret _ _ _ _ _ E2). exists p2. auto.
Qed.

Lemma r47_disable_rules h t m p :
  At h t p -> r47_in_bounds h -> mapped m (ipc_mscm h) r47_size = true ->
  exists x p', ipc_hw_irq_disable i (m, p) = Ret tt (m, p') /\
    At h (t ++ if mscm_rx_irq h =? IPC_IRQ_NONE then []
               else disable_accesses (ipc_mscm h + irsprc_off layout + 2 * mscm_rx_irq h) x) p'.
Proof.
  intros Ha Hb Hm. unfold ipc_hw_irq_disable.
  rewrite (cbind_Ret _ _ _ _ _ (hr_get _ _ HR _ _ m _ Ha)).
  destruct (Z.eqb_spec (mscm_rx_irq h) IPC_IRQ_NONE); cbn [negb]; [exists 0, p; now rewrite app_nil_r |].
  assert (Hi : 0 <= mscm_rx_irq h < irsprc_count layout) by (destruct (rb_rx h Hb); [easy | cbn [irsprc_count layout]; lia]).
  apply (hr_route_disable i At HR); [exact Ha | exact Hi |].
  eapply irsprc_mapped; [apply r47_layout_in | exact Hm | exact Hi].
Qed.

Lemma r47_finish_rules h t w trust m p :
  At h t p -> r47_in_bounds h -> mapped m (ipc_mscm h) r47_size = true ->
  reads_as 4 (ipc_mscm h + off_IRCPCFG) w ->
  exists x p', (ipc_hw_irq_disable i ;;;
      let* h := get_hw i in
      let* ircpcfg_mask := readl (ipc_mscm h + off_IRCPCFG) in
      if negb (Z.land ircpcfg_mask IPC_MSCM_IRCPCFG_LOCK =? 0) then cret (- EACCES) else
      writel (Z.lor ircpcfg_mask trust) (ipc_mscm h + off_IRCPCFG) ;;;
      cret 0) (m, p) = Ret (if Z.testbit w 31 then - EACCES else 0) (m, p') /\
    At h (t ++ (if mscm_rx_irq h =? IPC_IRQ_NONE then []
                else disable_accesses (ipc_mscm h + irsprc_off layout + 2 * mscm_rx_irq h) x) ++
          [HwRead 4 (ipc_mscm h + off_IRCPCFG) w] ++
          (if Z.testbit w 31 then [] else [HwWrite 4 (ipc_mscm h + off_IRCPCFG) (u32 (Z.lor (u32 w) trust))])) p'.
Proof.
  intros Ha Hb Hm Hw. destruct (r47_disable_rules h t m p Ha Hb Hm) as (x & p1 & E1 & Ha1).
  rewrite (cbind_Ret _ _ _ _ _ E1), (cbind_Ret _ _ _ _ _ (hr_get _ _ HR _ _ m _ Ha1)).
  assert (Hcfg : mapped m (ipc_mscm h + off_IRCPCFG) 4 = true).
  { eapply mapped_sub; [exact Hm | |]; assert (HC := r47_regs_in); lia. }
  destruct (hr_readl i At HR h _ _ w m p1 Ha1 Hcfg Hw) as (p2 & E2 & Ha2).
  rewrite (cbind_Ret _ _ _ _ _ E2), lock_bit, negb_involutive. exists x.
  destruct (Z.testbit w 31); [exists p2; split; [reflexivity |]; now rewrite app_nil_r, app_assoc |].
  destruct (hr_writel i At HR h _ _ (Z.lor (u32 w) trust) m p2 Ha2 Hcfg) as (p3 & E3 & Ha3).
  rewrite (cbind_Ret _ _ _ _ _ E3). exists p3. split; [reflexivity |]. now rewrite !app_assoc in *.
Qed.

(** The accesses of an initialisation. *)
Definition r47_accesses (cfg : ipc_shm_cfg) (a v w : Z) (t : list hw_io) : Prop :=
  if r47_verdict cfg v w =? - EINVAL then t = [] \/ t = [HwRead 4 (a + off_CPXNUM) v] else
  exists x, t =
    [HwRead 4 (a + off_CPXNUM) v] ++
    (if cfg_inter_core_rx_irq cfg =? IPC_IRQ_NONE then []
     else disable_accesses (a + irsprc_off layout + 2 * cfg_inter_core_rx_irq cfg) x) ++
    [HwRead 4 (a + off_IRCPCFG) w] ++
    (if Z.testbit w 31 then []
     else [HwWrite 4 (a + off_IRCPCFG) (u32 (Z.lor (u32 w) (lc_trusted (cfg_local_core cfg))))]).

Lemma r47_init_rules cfg a h0 v w m p :
  At h0 [] p -> r47_in_bounds h0 -> mapped m a r47_size = true ->
  reads_as 4 (a + off_CPXNUM) v -> reads_as 4 (a + off_IRCPCFG) w ->
  exists p' h t, _ipc_hw_init i cfg a (m, p) = Ret (r47_verdict cfg v w) (m, p') /\
    At h t p' /\ r47_in_bounds h /\ ipc_mscm h = a /\ r47_accesses cfg a v w t /\
    (r47_verdict cfg v w <> - EINVAL ->
       exists l r, local_core_switch (cfg_local_core cfg) = Some l /\ remote_core_switch (cfg_remote_core cfg) = Some r /\
         h = HwPriv (cfg_inter_core_tx_irq cfg) (cfg_inter_core_rx_irq cfg) r l a).
Proof.
  intros Ha Hb Hm Hv Hw. unfold _ipc_hw_init, r47_accesses, r47_verdict.
  assert (Ha0 : (a =? NULL) = false) by (apply Z.eqb_neq; intros ->; discriminate Hm).
  rewrite Ha0. destruct (hr_upd _ _ HR h0 [] m p (set_mscm a) Ha) as (p1 & E1 & Ha1).
  rewrite (cbind_Ret _ _ _ _ _ E1). set (h1 := set_mscm a h0) in *.
  assert (Hb1 : r47_in_bounds h1) by (destruct Hb; constructor; assumption). assert (Hm1 : ipc_mscm h1 = a) by reflexivity.
  destruct (r47_local_rules cfg h1 m p1 Ha1) as (p2 & E2 & Ha2). rewrite (cbind_Ret _ _ _ _ _ E2). clear E1 E2.
  destruct (local_core_switch _) as [l |] eqn:El; [| refused p2 h1 (@nil hw_io)].
  set (h2 := set_local l h1) in *. assert (Hm2 : ipc_mscm h2 = a) by reflexivity.
  assert (Hb2 : r47_in_bounds h2) by (destruct Hb1; constructor; cbn; eauto using r47_local_switch).
  destruct (trusted_ok _ _); cbn [negb orb Z.eqb Z.opp];
    [| destruct (remote_core_switch _); refused p2 h2 (@nil hw_io)].
  destruct (r47_remote_rules cfg h2 m p2 Ha2) as (p3 & E3 & Ha3). rewrite (cbind_Ret _ _ _ _ _ E3). clear E3.
  destruct (remote_core_switch _) as [r |] eqn:Er; [| refused p3 h2 (@nil hw_io)].
  cbn [Z.eqb negb]. set (h3 := set_remote r h2) in *. assert (Hm3 : ipc_mscm h3 = a) by reflexivity.
  assert (Hb3 : r47_in_bounds h3) by (destruct Hb2; constructor; cbn; eauto using r47_remote_switch).
  destruct (r47_clash_rules cfg h3 v m p3 Ha3) as (t & p4 & E4 & Ha4 & Et4); [now rewrite Hm3 .. |].
  rewrite (cbind_Ret _ _ _ _ _ E4). rewrite Hm3 in Et4. change (remote_core h3) with r. change (local_core h3) with l.
  assert (Ht : t = [] \/ t = [HwRead 4 (a + off_CPXNUM) v]) by (rewrite Et4; destruct (_ && _); auto).
  destruct (_ || (_ || _)) eqn:Ec; cbn [orb]; [refused p4 h3 t |]. apply orb_false_iff in Ec as [Ec _]. rewrite Ec in Et4.
  destruct (tx_irq_bad _) eqn:Et; cbn [orb]; [refused p4 h3 t |].
  rewrite (cbind_Ret _ _ _ _ _ (hr_get _ _ HR _ _ m _ Ha4)). change (remote_core h3) with r.
  destruct (rx_irq_bad _ _) eqn:Erx; [refused p4 h3 t |].
  set (g := set_irqs _ _). destruct (hr_upd _ _ HR h3 t m p4 g Ha4) as (p5 & E5 & Ha5).
  rewrite (cbind_Ret _ _ _ _ _ E5). set (h := g h3) in *. assert (Hm5 : ipc_mscm h = a) by reflexivity.
  assert (Hb5 : r47_in_bounds h) by (destruct Hb3; constructor; cbn; eauto using tx_irq_bad_range, rx_irq_bad_range).
  destruct (r47_finish_rules h t w (lc_trusted (cfg_local_core cfg)) m p5 Ha5 Hb5) as (x & p6 & E6 & Ha6); [now rewrite Hm5 .. |].
  exists p6, h. eexists. split; [exact E6 |]. split; [exact Ha6 |]. rewrite Hm5, Et4.
  split_and!; [exact Hb5 | reflexivity | destruct (Z.testbit w 31); now exists x |]. intros _. exists l, r. auto.
Qed.

End Rules.

End R47.

(** ** What a configuration must be

    A statement of its own, against which the checks of the drivers are proved:
    cores by number, the trusted mask by its bits, interrupts by ranges. *)

Inductive chip : Type := Gen1 | G3 | R47.

Definition a53_cores (c : chip) : Z := match c with G3 => 8 | _ => 4 end.
Definition m7_cores (c : chip) : Z := match c with G3 => 4 | _ => 3 end.
Definition irq_lines (c : chip) : Z := match c with Gen1 => 3 | G3 => 12 | R47 => 11 end.

(** The fifth A53 core and those after it come behind the four M7 cores. *)
Definition a53_number (k : Z) : Z := if k <? 4 then k else k + 4.

(** Core [k] of a kind has the index bit [2 ^ k]. *)
Definition core_number (c : chip) (t : ipc_shm_core_type) (idx n : Z) : Prop :=
  match t with
  | IPC_CORE_A53 => exists k, 0 <= k < a53_cores c /\ idx = 2 ^ k /\ n = a53_number k
  | IPC_CORE_M7 => exists k, 0 <= k < m7_cores c /\ idx = 2 ^ k /\ n = 4 + k
  | IPC_CORE_BBE32 => c = R47 /\ exists k, 0 <= k < 2 /\ idx = 2 ^ k /\ n = 7 + k
  | IPC_CORE_KQ8 => c = R47 /\ exists k, 0 <= k < 2 /\ idx = 2 ^ k /\ n = 9 + k
  | _ => False
  end.

(** Linux runs on the A53 cores; the default is the first one, and the first M7
    core for the remote. *)
Definition local_number (c : chip) (l : ipc_shm_local_core) (n : Z) : Prop :=
  match lc_type l with
  | IPC_CORE_A53 => core_number c IPC_CORE_A53 (lc_index l) n
  | IPC_CORE_DEFAULT => n = 0
  | _ => False
  end.
Definition remote_number (c : chip) (r : ipc_shm_remote_core) (n : Z) : Prop :=
  match rc_type r with
  | IPC_CORE_DEFAULT => n = 4
  | t => core_number c t (rc_index r) n
  end.

(** Bit [k] of the mask trusts A53 core [k]; the local core must be trusted.  Only
    S32G3 leaves other bits out of account. *)
Definition trusts (c : chip) (mask l : Z) : Prop :=
  (c <> G3 -> forall k, 0 <= k -> Z.testbit mask k = true -> k < 4) /\
  exists k, 0 <= k < a53_cores c /\ Z.testbit mask k = true /\ l = a53_number k.

(** The mask in the numbering of the register. *)
Definition trust_bits (c : chip) (mask : Z) : Z :=
  match c with G3 => mask mod 16 + 256 * (mask / 16 mod 16) | _ => mask end.

Record accepted (c : chip) (cfg : ipc_shm_cfg) (cpxnum l r : Z) : Prop := {
  ac_local : local_number c (cfg_local_core cfg) l;
  ac_remote : remote_number c (cfg_remote_core cfg) r;
  ac_trusted : trusts c (lc_trusted (cfg_local_core cfg)) l;
  ac_tx : cfg_inter_core_tx_irq cfg = IPC_IRQ_NONE \/ 0 <= cfg_inter_core_tx_irq cfg < irq_lines c;
  ac_rx : cfg_inter_core_rx_irq cfg = IPC_IRQ_NONE \/ 0 <= cfg_inter_core_rx_irq cfg < irq_lines c /\
    (c = R47 -> 7 <= r -> cfg_inter_core_rx_irq cfg < 2);   (* accelerators *)
  ac_apart : cfg_inter_core_tx_irq cfg = cfg_inter_core_rx_irq cfg -> cfg_inter_core_tx_irq cfg = IPC_IRQ_NONE;
  ac_other : r <> u32 cpxnum /\ r <> l
}.

(** The line of the core-to-core matrix and the routing register of an interrupt. *)
Definition matrix_line (c : chip) (irq : Z) : Z :=
  match c with G3 => if irq <? 3 then irq else irq + 2 | _ => irq end.
Definition routing_index (c : chip) (irq : Z) : Z :=
  match c with
  | Gen1 => irq + 1
  | G3 => default 0 (nthZ [1; 2; 3; 22; 23; 68; 69; 164; 165; 166; 167; 168] irq)
  | R47 => irq
  end.

(** What initialisation does with the register block at [a] when CPXNUM reads as
    [v] and IRCPCFG as [w]: a refused configuration writes nothing.  An accepted
    one has the routing of its receive interrupt turned off (bit 0 cleared) and, if
    IRCPCFG is not locked, the trusted cores added to that register. *)
Definition init_effect (c : chip) (cfg : ipc_shm_cfg) (a v w e : Z) (t : list hw_io) : Prop :=
  let rx := cfg_inter_core_rx_irq cfg in
  e = - EINVAL /\ (forall l r, ~ accepted c cfg v l r) /\ (t = [] \/ t = [HwRead 4 (a + 0x4) v]) \/
  e = (if Z.testbit w 31 then - EACCES else 0) /\ (exists l r, accepted c cfg v l r) /\
  exists x, t =
    [HwRead 4 (a + 0x4) v] ++
    (if rx =? IPC_IRQ_NONE then []
     else [HwRead 2 (a + 0x880 + 2 * routing_index c rx) x;
           HwWrite 2 (a + 0x880 + 2 * routing_index c rx) (2 * (u16 x / 2))]) ++
    [HwRead 4 (a + 0x400) w] ++
    (if Z.testbit w 31 then []
     else [HwWrite 4 (a + 0x400) (u32 (Z.lor (u32 w) (trust_bits c (lc_trusted (cfg_local_core cfg)))))]).

(** *** The drivers' checks *)

Lemma clear_bit_0 x : u16 (Z.land (u16 x) (Z.lnot IPC_MSCM_IRSPRCn_GIC500)) = 2 * (u16 x / 2).
Proof.
  change IPC_MSCM_IRSPRCn_GIC500 with (Z.ones 1). rewrite <- Z.ldiff_land, Z.ldiff_ones_r by lia.
  rewrite Z.shiftl_mul_pow2, Z.shiftr_div_pow2 by lia. change (2 ^ 1) with 2.
  assert (H := u16_range x). rewrite u16_small; [lia |].
  assert (H2 := Z.div_mod (u16 x) 2 ltac:(lia)). assert (H3 := Z.mod_pos_bound (u16 x) 2 ltac:(lia)). lia.
Qed.

Lemma land_bit t l : 0 <= l < 32 -> (Z.land (Z.shiftl 1 l) (u32 (Z.lnot t)) =? 0) = Z.testbit t l.
Proof.
  intros Hl. rewrite Z.shiftl_1_l. destruct (Z.testbit t l) eqn:Et.
  - apply Z.eqb_eq, Z.bits_inj'. intros n Hn. rewrite Z.land_spec, Z.pow2_bits_eqb, Z.bits_0 by lia.
    destruct (Z.eqb_spec l n) as [<- |]; [| reflexivity]. unfold u32. change 4294967296 with (2 ^ 32).
    rewrite Z.mod_pow2_bits_low, Z.lnot_spec, Et by lia. reflexivity.
  - apply Z.eqb_neq. intros E. apply (f_equal (fun z => Z.testbit z l)) in E.
    rewrite Z.land_spec, Z.pow2_bits_true, Z.bits_0 in E by lia. unfold u32 in E. change 4294967296 with (2 ^ 32) in E.
    rewrite Z.mod_pow2_bits_low, Z.lnot_spec, Et in E by lia. discriminate.
Qed.

(** No bit of the mask outside the first four. *)
Lemma land_a53 t : (Z.land t (Z.lnot 0x0F) =? 0) = true <-> forall k, 0 <= k -> Z.testbit t k = true -> k < 4.
Proof.
  rewrite Z.eqb_eq. change 0x0F with (Z.ones 4). rewrite <- Z.ldiff_land. split.
  - intros E k Hk Ht. destruct (Z.lt_ge_cases k 4) as [| Hge]; [assumption |]. exfalso.
    apply (f_equal (fun z => Z.testbit z k)) in E. rewrite Z.ldiff_spec, Z.ones_spec_high, Z.bits_0, Ht in E by lia. discriminate.
  - intros H. apply Z.bits_inj'. intros n Hn. rewrite Z.ldiff_spec, Z.bits_0. destruct (Z.testbit t n) eqn:Et; [| reflexivity].
    rewrite Z.ones_spec_low by (specialize (H n Hn Et); lia). reflexivity.
Qed.

(** A switch on the index bit finds the core, and every core is in the switch. *)
Ltac switch_to :=
  repeat case_match; intros [= <-];
  repeat match goal with H : (_ =? _) = true |- _ => apply Z.eqb_eq in H; rewrite H; clear H end;
  clear; try reflexivity; try (split; [reflexivity |]);
  first [solve [exists 0; vm_compute; intuition discriminate] | solve [exists 1; vm_compute; intuition discriminate] | solve [exists 2; vm_compute; intuition discriminate] | solve [exists 3; vm_compute; intuition discriminate] | solve [exists 4; vm_compute; intuition discriminate]
        | solve [exists 5; vm_compute; intuition discriminate] | solve [exists 6; vm_compute; intuition discriminate] | solve [exists 7; vm_compute; intuition discriminate]].

Ltac switch_from :=
  try (intros [? ?]; discriminate);
  let k := fresh "k" in let Hk := fresh "Hk" in let C := fresh in
  match goal with
  | |- ex _ -> _ => intros (k & Hk & -> & ->)
  | |- _ => intros [_ (k & Hk & -> & ->)]
  end;
  assert (C : k = 0 \/ k = 1 \/ k = 2 \/ k = 3 \/ k = 4 \/ k = 5 \/ k = 6 \/ k = 7) by (cbn in Hk; lia);
  repeat destruct C as [C | C]; subst k; first [reflexivity | cbn in Hk; lia].

Ltac switch_iff :=
  split;
  [ match goal with t : ipc_shm_core_type |- _ => destruct t end; try easy; first [switch_to | intros [= <-]; reflexivity]
  | match goal with t : ipc_shm_core_type |- _ => destruct t end; try easy; first [now intros -> | cbn; switch_from] ].

Lemma gen1_local c l : S32gen1.local_core_switch c = Some l <-> local_number Gen1 c l.
Proof. destruct c as [t idx tr]. unfold S32gen1.local_core_switch, local_number. cbn [lc_type lc_index]. switch_iff. Qed.
Lemma g3_local c l : S32g3xx.local_core_switch c = Some l <-> local_number G3 c l.
Proof. destruct c as [t idx tr]. unfold S32g3xx.local_core_switch, local_number. cbn [lc_type lc_index]. switch_iff. Qed.
Lemma r47_local c l : S32r47.local_core_switch c = Some l <-> local_number R47 c l.
Proof. destruct c as [t idx tr]. unfold S32r47.local_core_switch, local_number. cbn [lc_type lc_index]. switch_iff. Qed.
Lemma gen1_remote c r : S32gen1.remote_core_switch c = Some r <-> remote_number Gen1 c r.
Proof. destruct c as [t idx]. unfold S32gen1.remote_core_switch, remote_number. cbn [rc_type rc_index]. switch_iff. Qed.
Lemma g3_remote c r : S32g3xx.remote_core_switch c = Some r <-> remote_number G3 c r.
Proof. destruct c as [t idx]. unfold S32g3xx.remote_core_switch, remote_number. cbn [rc_type rc_index]. switch_iff. Qed.
Lemma r47_remote c r : S32r47.remote_core_switch c = Some r <-> remote_number R47 c r.
Proof. destruct c as [t idx]. unfold S32r47.remote_core_switch, remote_number. cbn [rc_type rc_index]. switch_iff. Qed.

Lemma local_is_a53 c x l : local_number c x l -> exists k, 0 <= k < a53_cores c /\ l = a53_number k.
Proof.
  unfold local_number. destruct (lc_type x); try easy.
  - intros ->. exists 0. destruct c; vm_compute; intuition discriminate.
  - intros (k & Hk & _ & ->). eauto.
Qed.

Lemma a53_number_inj k k' : 0 <= k -> 0 <= k' -> a53_number k = a53_number k' -> k = k'.
Proof. unfold a53_number. destruct (Z.ltb_spec k 4), (Z.ltb_spec k' 4); lia. Qed.

(** Where the register has the numbering of the mask. *)
Lemma trusts_four c t l :
  c <> G3 -> (exists k, 0 <= k < a53_cores c /\ l = a53_number k) ->
  negb ((t =? 0) || negb (Z.land t (Z.lnot 0x0F) =? 0) || negb (Z.land (Z.shiftl 1 l) (u32 (Z.lnot t)) =? 0)) = true
  <-> trusts c t l.
Proof.
  intros Hc (k & Hk & ->). assert (H4 : a53_cores c = 4) by (destruct c; [reflexivity | congruence | reflexivity]).
  assert (Hn : a53_number k = k) by (unfold a53_number; destruct (Z.ltb_spec k 4); lia).
  rewrite Hn, land_bit by lia. unfold trusts. rewrite H4, <- land_a53.
  rewrite negb_true_iff, !orb_false_iff, !negb_false_iff. split.
  - intros [[_ H1] H2]. split; [auto |]. exists k. rewrite Hn. auto with lia.
  - intros [H1 (j & Hj & Ht & E)]. rewrite <- Hn in E. apply a53_number_inj in E as ->; [| lia ..]. split_and!; auto.
    apply Z.eqb_neq. intros ->. now rewrite Z.bits_0 in Ht.
Qed.

(** S32G3 moves the second nibble of the mask, and looks at eight bits only. *)
Definition g3_mask_ok (u : Z) : bool :=
  (S32g3xx.trust_cores u =? trust_bits G3 u) && (Z.land (S32g3xx.trust_cores u) (Z.lnot 0xF0F) =? 0) &&
  forallb (fun k => Bool.eqb (Z.testbit (S32g3xx.trust_cores u) (a53_number k)) (Z.testbit u k)) [0; 1; 2; 3; 4; 5; 6; 7].

Lemma g3_mask_all u : 0 <= u < 256 -> g3_mask_ok u = true.
Proof.
  intros Hu. assert (H : forallb g3_mask_ok (Z.of_nat <$> seq 0 256) = true) by (vm_compute; reflexivity).
  rewrite forallb_forall in H. apply H. apply list_elem_of_In, list_elem_of_fmap. exists (Z.to_nat u). split; [lia |].
  apply elem_of_seq. lia.
Qed.

Lemma trust_cores_mod t : S32g3xx.trust_cores t = S32g3xx.trust_cores (t mod 256).
Proof.
  unfold S32g3xx.trust_cores. change 256 with (2 ^ 8). rewrite <- Z.land_ones, <- !Z.land_assoc by lia. reflexivity.
Qed.

Lemma trust_bits_mod t : trust_bits G3 t = trust_bits G3 (t mod 256).
Proof.
  cbn. assert (E := Z.div_mod t 256 ltac:(lia)). set (q := t / 256) in *. set (u := t mod 256) in *.
  replace (t mod 16) with (u mod 16) by (rewrite E; replace (256 * q + u) with (u + 16 * q * 16) by lia; now rewrite Z.mod_add by lia).
  replace (t / 16 mod 16) with (u / 16 mod 16); [reflexivity |].
  rewrite E. replace (256 * q + u) with (u + 16 * q * 16) by lia. rewrite Z.div_add by lia.
  replace (u / 16 + 16 * q) with (u / 16 + q * 16) by lia. now rewrite Z.mod_add by lia.
Qed.

Lemma g3_mask t :
  S32g3xx.trust_cores t = trust_bits G3 t /\ (Z.land (S32g3xx.trust_cores t) (Z.lnot 0xF0F) =? 0) = true /\
  forall k, 0 <= k < 8 -> Z.testbit (S32g3xx.trust_cores t) (a53_number k) = Z.testbit t k.
Proof.
  rewrite trust_cores_mod, trust_bits_mod. assert (H := g3_mask_all (t mod 256) (Z.mod_pos_bound t 256 ltac:(lia))).
  apply andb_prop in H as [[H1 H2]%andb_prop H3]. split_and!; [now apply Z.eqb_eq | exact H2 |].
  intros k Hk. rewrite forallb_forall in H3. transitivity (Z.testbit (t mod 256) k).
  - apply Bool.eqb_prop, H3. cbn [In]. lia.
  - change 256 with (2 ^ 8). apply Z.mod_pow2_bits_low. lia.
Qed.

Lemma trusts_g3 t l :
  (exists k, 0 <= k < a53_cores G3 /\ l = a53_number k) ->
  trusted_ok S32g3xx.soc (S32g3xx.trust_cores t) l = true <-> trusts G3 t l.
Proof.
  intros (k & Hk & ->). cbn in Hk. destruct (g3_mask t) as (_ & H2 & H3). unfold trusted_ok, trusts.
  change (rs_a53_tr S32g3xx.soc) with 0xF0F. rewrite H2. rewrite land_bit by (unfold a53_number; destruct (Z.ltb_spec k 4); lia).
  rewrite H3 by lia. cbn [negb]. rewrite orb_false_r, negb_true_iff, orb_false_iff, negb_false_iff. split.
  - intros [_ Ht]. split; [congruence |]. exists k. auto.
  - intros [_ (j & Hj & Ht & E)]. cbn in Hj. apply a53_number_inj in E as ->; [| lia ..]. split; [| exact Ht].
    apply Z.eqb_neq. intros E0. specialize (H3 j Hj). rewrite E0, Z.bits_0 in H3. congruence.
Qed.

(** ** The tables of interrupts *)

Ltac irq_cases irq :=
  let H := fresh in
  intros [-> | H]; [try now eexists |]; cbn in H;
  assert (C : irq = 0 \/ irq = 1 \/ irq = 2 \/ irq = 3 \/ irq = 4 \/ irq = 5 \/ irq = 6 \/ irq = 7
    \/ irq = 8 \/ irq = 9 \/ irq = 10 \/ irq = 11) by lia;
  repeat destruct C as [C | C]; subst irq; first [exfalso; lia | now eexists].

Ltac irq_found := intros [f Hf]; revert Hf; repeat case_match; bool_to_prop; intros; simplify_eq; cbn; auto; right; lia.

(** What the tables of a platform must be for the statement above. *)
Record soc_doc (c : chip) (S : router_soc) : Prop := {
  sd_ok : soc_ok S;
  sd_chip : c <> R47;
  sd_local x l : rs_local S x = Some l <-> local_number c x l;
  sd_remote x r : rs_remote S x = Some r <-> remote_number c x r;
  sd_trusted t l : (exists k, 0 <= k < a53_cores c /\ l = a53_number k) ->
    trusted_ok S (rs_trust S t) l = true <-> trusts c t l;
  sd_bits t : rs_trust S t = trust_bits c t;
  sd_tx irq : is_Some (rs_tx S irq) <-> irq = IPC_IRQ_NONE \/ 0 <= irq < irq_lines c;
  sd_rx irq : is_Some (rs_rx S irq) <-> irq = IPC_IRQ_NONE \/ 0 <= irq < irq_lines c;
  sd_tx_line irq f h : rs_tx S irq = Some f -> irq <> IPC_IRQ_NONE -> msi_tx_irq (f h) = matrix_line c irq;
  sd_rx_line irq f h : rs_rx S irq = Some f -> irq <> IPC_IRQ_NONE ->
    msi_rx_irq (f h) = matrix_line c irq /\ spi_index (f h) = routing_index c irq;
  sd_offsets : rs_cpxnum S = 0x4 /\ rs_ircpcfg S = 0x400 /\ irsprc_off (rs_layout S) = 0x880
}.

Lemma gen1_doc : soc_doc Gen1 S32gen1.soc.
Proof.
  constructor; [apply gen1_soc_ok | discriminate | apply gen1_local | apply gen1_remote | | reflexivity | | | | | now vm_compute];
    cbn [rs_tx rs_rx rs_trust S32gen1.soc].
  - intros t l. now apply trusts_four.
  - intros irq. unfold S32gen1.tx_irq_switch. split; [irq_found | irq_cases irq].
  - intros irq. unfold S32gen1.rx_irq_switch. split; [irq_found | irq_cases irq].
  - intros irq f h. unfold S32gen1.tx_irq_switch. repeat case_match; bool_to_prop; intros; simplify_eq; (contradiction || reflexivity).
  - intros irq f h. unfold S32gen1.rx_irq_switch. repeat case_match; bool_to_prop; intros; simplify_eq; (contradiction || now split).
Qed.

Lemma g3_doc : soc_doc G3 S32g3xx.soc.
Proof.
  constructor; [apply g3xx_soc_ok | discriminate | apply g3_local | apply g3_remote | | | | | | | now vm_compute];
    cbn [rs_tx rs_rx rs_trust S32g3xx.soc].
  - apply trusts_g3.
  - intros t. apply g3_mask.
  - intros irq. unfold S32g3xx.tx_irq_switch. split; [irq_found | irq_cases irq].
  - intros irq. unfold S32g3xx.rx_irq_switch. split; [irq_found | irq_cases irq].
  - intros irq f h. unfold S32g3xx.tx_irq_switch. repeat case_match; bool_to_prop; intros; simplify_eq; (contradiction || reflexivity).
  - intros irq f h. unfold S32g3xx.rx_irq_switch. repeat case_match; bool_to_prop; intros; simplify_eq; (contradiction || now split).
Qed.

(** ** Verdicts *)

Lemma router_verdict_accepted c S cfg v w :
  soc_doc c S ->
  (exists l r, accepted c cfg v l r /\ rs_local S (cfg_local_core cfg) = Some l /\ rs_remote S (cfg_remote_core cfg) = Some r) /\
    router_verdict S cfg v w = (if Z.testbit w 31 then - EACCES else 0) \/
  (forall l r, ~ accepted c cfg v l r) /\ router_verdict S cfg v w = - EINVAL.
Proof.
  intros D. rewrite verdict_split.
  destruct (rs_local S (cfg_local_core cfg)) as [l |] eqn:El.
  2: { right. split; [| reflexivity]. intros l r []. apply (sd_local _ _ D) in ac_local0. congruence. }
  destruct (rs_remote S (cfg_remote_core cfg)) as [r |] eqn:Er.
  2: { right. split; [| reflexivity]. intros l' r []. apply (sd_remote _ _ D) in ac_remote0. congruence. }
  assert (Hl := proj1 (sd_local _ _ D _ _) El). assert (Hr := proj1 (sd_remote _ _ D _ _) Er).
  assert (Hacc : forall l' r', accepted c cfg v l' r' -> l' = l /\ r' = r /\ accepted c cfg v l r).
  { intros l' r' Ha. assert (E1 := proj2 (sd_local _ _ D _ _) (ac_local _ _ _ _ _ Ha)).
    assert (E2 := proj2 (sd_remote _ _ D _ _) (ac_remote _ _ _ _ _ Ha)). rewrite El in E1. rewrite Er in E2.
    injection E1 as <-. injection E2 as <-. auto. }
  assert (Hno : ~ accepted c cfg v l r -> forall l' r', ~ accepted c cfg v l' r') by (intros Hn l' r' Ha; apply Hacc in Ha; tauto).
  assert (Ht := sd_trusted _ _ D (lc_trusted (cfg_local_core cfg)) l (local_is_a53 _ _ _ Hl)).
  destruct (trusted_ok S _ l); cbn [negb].
  2: { right. split; [| reflexivity]. apply Hno. intros []. apply Ht in ac_trusted0. discriminate. }
  destruct (negb (cfg_inter_core_tx_irq cfg =? IPC_IRQ_NONE)
            && (cfg_inter_core_tx_irq cfg =? cfg_inter_core_rx_irq cfg)) eqn:Ei; cbn [orb].
  { right. split; [| reflexivity]. apply Hno. intros [_ _ _ _ _ Hap _].
    apply andb_prop in Ei as [E1%negb_true_iff%Z.eqb_neq E2%Z.eqb_eq]. auto. }
  destruct ((r =? u32 v) || (r =? l)) eqn:Ec.
  { right. split; [| reflexivity]. apply Hno. intros [_ _ _ _ _ _ [Ho1 Ho2]].
    apply orb_prop in Ec as [Ec%Z.eqb_eq | Ec%Z.eqb_eq]; contradiction. }
  assert (Htx := sd_tx _ _ D (cfg_inter_core_tx_irq cfg)). assert (Hrx := sd_rx _ _ D (cfg_inter_core_rx_irq cfg)).
  destruct (rs_tx S _) as [f |]; [| right; split; [| reflexivity]; apply Hno; intros []; apply Htx in ac_tx0; now destruct ac_tx0].
  destruct (rs_rx S _) as [g |]; [| right; split; [| reflexivity]; apply Hno; intros []].
  - left. split; [| reflexivity]. exists l, r. split; [| auto]. apply andb_false_iff in Ei. apply orb_false_iff in Ec as [Ec1 Ec2].
    apply Z.eqb_neq in Ec1, Ec2. constructor; auto; try (now apply Ht); try (apply Htx; eauto).
    + destruct (proj1 Hrx) as [? | ?]; eauto. right. split; [assumption |]. intros E. destruct (sd_chip _ _ D E).
    + intros E. destruct Ei as [Ei | Ei]; [now apply negb_false_iff, Z.eqb_eq in Ei | apply Z.eqb_neq in Ei; contradiction].
  - assert (Hx : is_Some (@None (ipc_hw_priv_type -> ipc_hw_priv_type))) by (apply Hrx; tauto). now destruct Hx.
Qed.

Lemma r47_tx_ok irq : S32r47.tx_irq_bad irq = false <-> irq = IPC_IRQ_NONE \/ 0 <= irq < irq_lines R47.
Proof.
  split; [apply tx_irq_bad_range |]. unfold S32r47.tx_irq_bad, S32r47.MSCM_INT0_IRQn, S32r47.MSCM_INT10_IRQn. cbn.
  intros [-> | Hi]; [reflexivity |]. apply andb_false_intro2, orb_false_iff. lia.
Qed.

Lemma r47_rx_ok irq r : r < 11 -> S32r47.rx_irq_bad irq r = false <->
  irq = IPC_IRQ_NONE \/ 0 <= irq < irq_lines R47 /\ (R47 = R47 -> 7 <= r -> irq < 2).
Proof.
  intros Hr. unfold S32r47.rx_irq_bad, S32r47.MSCM_INT0_IRQn, S32r47.MSCM_INT1_IRQn, S32r47.MSCM_INT10_IRQn, S32r47.IPC_BBE32_0, S32r47.IPC_KQ8_1.
  cbn [irq_lines]. rewrite andb_false_iff, negb_false_iff, Z.eqb_eq, !orb_false_iff, !andb_false_iff, !negb_false_iff, !Z.eqb_eq, !Z.ltb_ge, !Z.leb_gt.
  split; (intros [-> | Hi]; [now left | right]); [split; [lia |]; intros _ ?; lia |].
  destruct Hi as [Hi Hb]. specialize (Hb eq_refl). split; [lia |]. destruct (Z.lt_ge_cases r 7); [auto |]. lia.
Qed.

Lemma r47_verdict_accepted cfg v w :
  (exists l r, accepted R47 cfg v l r /\ S32r47.local_core_switch (cfg_local_core cfg) = Some l /\
     S32r47.remote_core_switch (cfg_remote_core cfg) = Some r) /\
    r47_verdict cfg v w = (if Z.testbit w 31 then - EACCES else 0) \/
  (forall l r, ~ accepted R47 cfg v l r) /\ r47_verdict cfg v w = - EINVAL.
Proof.
  unfold r47_verdict. destruct (S32r47.local_core_switch (cfg_local_core cfg)) as [l |] eqn:El.
  2: { right. split; [| reflexivity]. intros l r [Hl _ _ _ _ _ _]. apply r47_local in Hl. congruence. }
  destruct (S32r47.remote_core_switch (cfg_remote_core cfg)) as [r |] eqn:Er.
  2: { right. split; [| reflexivity]. intros l' r [_ Hr _ _ _ _ _]. apply r47_remote in Hr. congruence. }
  assert (Hl := proj1 (r47_local _ _) El). assert (Hr := proj1 (r47_remote _ _) Er).
  assert (Hacc : forall l' r', accepted R47 cfg v l' r' -> accepted R47 cfg v l r).
  { intros l' r' Ha. assert (E1 := proj2 (r47_local _ _) (ac_local _ _ _ _ _ Ha)).
    assert (E2 := proj2 (r47_remote _ _) (ac_remote _ _ _ _ _ Ha)). rewrite El in E1. rewrite Er in E2.
    injection E1 as <-. injection E2 as <-. auto. }
  assert (Ht := trusts_four R47 (lc_trusted (cfg_local_core cfg)) l ltac:(discriminate) (local_is_a53 _ _ _ Hl)).
  change (S32r47.trusted_ok (lc_trusted (cfg_local_core cfg)) l = true <-> trusts R47 (lc_trusted (cfg_local_core cfg)) l) in Ht.
  assert (Htx := r47_tx_ok (cfg_inter_core_tx_irq cfg)).
  assert (Hrx := r47_rx_ok (cfg_inter_core_rx_irq cfg) r (proj2 (r47_remote_switch _ _ Er))).
  destruct (_ || S32r47.tx_irq_bad _ || _) eqn:Eb.
  - right. split; [| reflexivity]. intros l' r' Ha. apply Hacc in Ha as [_ _ H3 H4 H5 H6 [H7 H8]].
    apply Ht in H3. apply Htx in H4. apply Hrx in H5. rewrite H3, H4, H5 in Eb. cbn [negb orb] in Eb. rewrite !orb_false_r in Eb.
    apply orb_prop in Eb as [[E1%negb_true_iff%Z.eqb_neq E2%Z.eqb_eq]%andb_prop | [E%Z.eqb_eq | E%Z.eqb_eq]%orb_prop]; auto.
  - left. split; [| reflexivity]. exists l, r. split; [| auto].
    apply orb_false_iff in Eb as [[[E1%negb_false_iff [E2 [E3%Z.eqb_neq E4%Z.eqb_neq]%orb_false_iff]%orb_false_iff]%orb_false_iff E5]%orb_false_iff E6].
    constructor; auto; [now apply Ht | now apply Htx | now apply Hrx |]. intros E. rewrite E, Z.eqb_refl, andb_true_r in E2.
    apply negb_false_iff, Z.eqb_eq in E2. congruence.
Qed.

(** The accesses of an initialisation in the terms of [init_effect]. *)
Lemma router_effect c S cfg a v w h t :
  soc_doc c S -> (router_verdict S cfg v w <> - EINVAL -> cfg_inter_core_rx_irq cfg <> IPC_IRQ_NONE ->
    spi_index h = routing_index c (cfg_inter_core_rx_irq cfg)) ->
  init_accesses S cfg a v w h t -> init_effect c cfg a v w (router_verdict S cfg v w) t.
Proof.
  intros D Hspi H. revert H. destruct (sd_offsets _ _ D) as (O1 & O2 & O3). unfold init_accesses, init_effect. rewrite O1, O2, O3, (sd_bits _ _ D). intros H.
  destruct (router_verdict_accepted c S cfg v w D) as [[(l & r & Ha & _) E] | [Hno E]].
  - right. assert (Hne : router_verdict S cfg v w <> - EINVAL) by (rewrite E; now destruct (Z.testbit w 31)).
    specialize (Hspi Hne). apply Z.eqb_neq in Hne. rewrite Hne in H. split; [exact E |]. split; [eauto |].
    destruct H as [x ->]. exists x. destruct (Z.eqb_spec (cfg_inter_core_rx_irq cfg) IPC_IRQ_NONE) as [| Hn]; [reflexivity |].
    unfold disable_accesses. now rewrite clear_bit_0, (Hspi Hn).
  - left. rewrite E in *. change (- EINVAL =? - EINVAL) with true in H. auto.
Qed.

Lemma r47_effect cfg a v w t : r47_accesses cfg a v w t -> init_effect R47 cfg a v w (r47_verdict cfg v w) t.
Proof.
  unfold r47_accesses, init_effect. intros H. destruct (r47_verdict_accepted cfg v w) as [[(l & r & Ha & _) E] | [Hno E]].
  - right. assert (Hne : r47_verdict cfg v w <> - EINVAL) by (rewrite E; now destruct (Z.testbit w 31)).
    apply Z.eqb_neq in Hne. rewrite Hne in H. split; [exact E |]. split; [eauto |]. destruct H as [x ->]. exists x.
    unfold disable_accesses. now rewrite clear_bit_0.
  - left. rewrite E in *. change (- EINVAL =? - EINVAL) with true in H. auto.
Qed.

(** ** Properties *)

(** The documented matrix, as an array of pairs of words at 0x200. *)
Lemma ircp_table core irq isr igr :
  (core, irq, isr, igr) ∈ s32gen1_ircp_documented ->
  0 <= core < cp_count S32gen1.layout /\ 0 <= irq < irq_count S32gen1.layout /\
  isr = 0x200 + 32 * core + 8 * irq /\ igr = isr + 4.
Proof.
  assert (H : Forall (fun '(core, irq, isr, igr) => 0 <= core < 7 /\ 0 <= irq < 4 /\
                isr = 0x200 + 32 * core + 8 * irq /\ igr = isr + 4) s32gen1_ircp_documented).
  { unfold s32gen1_ircp_documented. repeat constructor; vm_compute; intuition discriminate. }
  intros Hin%list_elem_of_In. rewrite Forall_forall in H. exact (H _ Hin).
Qed.

Lemma get_hw_at {Hd P} `{HwEnv Hd P} i h m (p : P) : nthZ (hw_privs p) i = Some h -> get_hw i (m, p) = Ret h (m, p).
Proof. intros E. unfold get_hw. cbn [snd]. now rewrite E. Qed.

(** A read-modify-write of a routing register. *)
Definition modify_reg {Hd P} `{HwEnv Hd P} (f : Z -> Z) (r : Z) : M (memory * P) unit :=
  let* x := readw r in writew (f x) r.

Lemma gen1_documented {P} `{HE : HwEnv ipc_hw_priv_type P} i h m (p : P) :
  nthZ (hw_privs p) i = Some h ->
  (forall core irq isr igr, (core, irq, isr, igr) ∈ s32gen1_ircp_documented ->
     (remote_core h = core -> msi_tx_irq h = irq -> mscm_tx_irq h <> IPC_IRQ_NONE ->
        S32gen1.ipc_hw_irq_notify i (m, p) = writel 1 (ipc_mscm h + igr) (m, p)) /\
     (local_core h = core -> msi_rx_irq h = irq -> mscm_rx_irq h <> IPC_IRQ_NONE ->
        S32gen1.ipc_hw_irq_clear i (m, p) = writel (2 ^ remote_core h) (ipc_mscm h + isr) (m, p))) /\
  (0 <= spi_index h < 240 -> mscm_rx_irq h <> IPC_IRQ_NONE ->
     let irsprc := ipc_mscm h + 0x880 + 2 * spi_index h in
     S32gen1.ipc_hw_irq_enable i (m, p) = modify_reg (fun x => Z.lor x 1) irsprc (m, p) /\
     S32gen1.ipc_hw_irq_disable i (m, p) = modify_reg (fun x => Z.land x (Z.lnot 1)) irsprc (m, p)).
Proof.
  intros E. apply get_hw_at with (m := m) in E. split; [intros core irq isr igr Hin; apply ircp_table in Hin as (Hc & Hi & Hs & Hg); split |].
  - intros <- <- Hn%Z.eqb_neq. unfold S32gen1.ipc_hw_irq_notify, router_irq_notify. rewrite (cbind_Ret _ _ _ _ _ E), Hn. cbn [negb].
    rewrite raise_irq_reg by assumption. f_equal. rewrite Hg, Hs. cbn [ir_off irq_count rs_layout S32gen1.soc S32gen1.layout]. lia.
  - intros <- <- Hn%Z.eqb_neq. unfold S32gen1.ipc_hw_irq_clear, router_irq_clear. rewrite (cbind_Ret _ _ _ _ _ E), Hn. cbn [negb].
    rewrite ack_irq_reg, Z.shiftl_1_l by assumption. f_equal. rewrite Hs. cbn [ir_off irq_count rs_layout S32gen1.soc S32gen1.layout]. lia.
  - intros Hsp Hn%Z.eqb_neq irsprc.
    assert (Er := irsprc_reg_eval S32gen1.layout (ipc_mscm h) (spi_index h) (m, p) Hsp). fold irsprc in Er.
    split; [unfold S32gen1.ipc_hw_irq_enable, router_irq_enable | unfold S32gen1.ipc_hw_irq_disable, router_irq_disable];
      rewrite (cbind_Ret _ _ _ _ _ E), Hn; cbn [negb]; [unfold route_enable | unfold route_disable];
      rewrite (cbind_Ret _ _ _ _ _ Er); reflexivity.
Qed.

Lemma s32v234_documented_regs {P} `{HE : HwEnv S32v234.ipc_hw_priv P} i h m (p : P) :
  nthZ (hw_privs p) 0 = Some h ->
  let base := S32v234.mscm h in let tx := S32v234.mscm_tx_irq h in let rx := S32v234.mscm_rx_irq h in
  (0 <= tx <= 3 -> S32v234.remote_core h = S32v234.M4 ->
     S32v234.ipc_hw_irq_notify i (m, p) = writel (2 ^ 16 + tx) (base + 0x820) (m, p)) /\
  S32v234.ipc_hw_irq_clear i (m, p) = writel (2 ^ rx) (base + 0x804) (m, p) /\
  (0 <= rx < 175 ->
     S32v234.ipc_hw_irq_enable i (m, p) = modify_reg (fun x => Z.lor x 2) (base + 0x880 + 2 * rx) (m, p) /\
     S32v234.ipc_hw_irq_disable i (m, p) = modify_reg (fun x => Z.land x (Z.lnot 2)) (base + 0x880 + 2 * rx) (m, p)).
Proof.
  intros E base tx rx. apply get_hw_at with (m := m) in E. change (get_hw 0) with (S32v234.priv (P := P)) in E. split_and!.
  - intros Ht Hc. unfold S32v234.ipc_hw_irq_notify. rewrite (cbind_Ret _ _ _ _ _ E), Hc. fold tx base.
    assert (C : tx = 0 \/ tx = 1 \/ tx = 2 \/ tx = 3) by lia. now destruct C as [-> | [-> | [-> | ->]]].
  - unfold S32v234.ipc_hw_irq_clear. rewrite (cbind_Ret _ _ _ _ _ E). unfold S32v234.MSCM_IRCPxIR_INT. now rewrite Z.shiftl_1_l.
  - intros Hr. assert (Er : S32v234.rx_irsprc (m, p) = Ret (base + 0x880 + 2 * rx) (m, p)).
    { unfold S32v234.rx_irsprc. rewrite (cbind_Ret _ _ _ _ _ E). unfold reg_array.
      replace (_ && _) with true by (symmetry; apply andb_true_iff; rewrite Z.leb_le, Z.ltb_lt; exact Hr). reflexivity. }
    split; [unfold S32v234.ipc_hw_irq_enable | unfold S32v234.ipc_hw_irq_disable]; rewrite (cbind_Ret _ _ _ _ _ Er); reflexivity.
Qed.

(** C26: the drivers of S32gen1 and S32V234 access the registers that their
    headers document.  The register structures, laid out by the C rules, have every
    register at its documented offset.  For every core and interrupt of the
    documented matrix of S32gen1, [ipc_hw_irq_notify] to that core writes 1 to
    IRCP<core>IGR<irq> and [ipc_hw_irq_clear] on that core writes the bit of the
    sender to IRCP<core>ISR<irq>; enabling and disabling set and clear bit 0 of
    IRSPRC<n>.  On S32V234 notification writes the target and the interrupt to
    IRCPGIR, acknowledgement the bit of the interrupt to IRCP1IR, and enabling and
    disabling change the A53 bit of IRSPRC<n>. *)
Theorem registers_where_documented :
  (offsets_match S32gen1.ipc_mscm_regs s32gen1_documented /\ offsets_match S32v234.mscm_regs s32v234_documented) /\
  (forall P (HE : HwEnv ipc_hw_priv_type P) i h m (p : P), nthZ (hw_privs p) i = Some h ->
     (forall core irq isr igr, (core, irq, isr, igr) ∈ s32gen1_ircp_documented ->
        (remote_core h = core -> msi_tx_irq h = irq -> mscm_tx_irq h <> IPC_IRQ_NONE ->
           S32gen1.ipc_hw_irq_notify i (m, p) = writel 1 (ipc_mscm h + igr) (m, p)) /\
        (local_core h = core -> msi_rx_irq h = irq -> mscm_rx_irq h <> IPC_IRQ_NONE ->
           S32gen1.ipc_hw_irq_clear i (m, p) = writel (2 ^ remote_core h) (ipc_mscm h + isr) (m, p))) /\
     (0 <= spi_index h < 240 -> mscm_rx_irq h <> IPC_IRQ_NONE ->
        let irsprc := ipc_mscm h + 0x880 + 2 * spi_index h in
        S32gen1.ipc_hw_irq_enable i (m, p) = modify_reg (fun x => Z.lor x 1) irsprc (m, p) /\
        S32gen1.ipc_hw_irq_disable i (m, p) = modify_reg (fun x => Z.land x (Z.lnot 1)) irsprc (m, p))) /\
  (forall P (HE : HwEnv S32v234.ipc_hw_priv P) i h m (p : P), nthZ (hw_privs p) 0 = Some h ->
     let base := S32v234.mscm h in let tx := S32v234.mscm_tx_irq h in let rx := S32v234.mscm_rx_irq h in
     (0 <= tx <= 3 -> S32v234.remote_core h = S32v234.M4 ->
        S32v234.ipc_hw_irq_notify i (m, p) = writel (2 ^ 16 + tx) (base + 0x820) (m, p)) /\
     S32v234.ipc_hw_irq_clear i (m, p) = writel (2 ^ rx) (base + 0x804) (m, p) /\
     (0 <= rx < 175 ->
        S32v234.ipc_hw_irq_enable i (m, p) = modify_reg (fun x => Z.lor x 2) (base + 0x880 + 2 * rx) (m, p) /\
        S32v234.ipc_hw_irq_disable i (m, p) = modify_reg (fun x => Z.land x (Z.lnot 2)) (base + 0x880 + 2 * rx) (m, p))).
Proof.
  split_and!; [unfold offsets_match; repeat constructor .. | |].
  - intros P HE i h m p. apply gen1_documented.
  - intros P HE i h m p. apply s32v234_documented_regs.
Qed.

Section Claims.
Context {P : Type} `{HE : HwEnv ipc_hw_priv_type P} `{HL : !HwEnvLaws ipc_hw_priv_type P}.

(** C28: when two ends are configured as mirror images (one sends on the
    interrupt the other receives, each names the other's core), the register
    pair the sender raises is the one the receiver acknowledges, for the bit of
    the sender's core. *)
Theorem notify_matches_clear S i j cfgA cfgB hA hB oA oB m m' (p p' : P) :
  S = S32gen1.soc \/ S = S32g3xx.soc ->
  hw_at i hA oA p -> in_bounds S hA -> configured S cfgA hA ->
  hw_at j hB oB p' -> in_bounds S hB -> configured S cfgB hB ->
  mscm_tx_irq hA = mscm_rx_irq hB -> mscm_tx_irq hA <> IPC_IRQ_NONE ->
  remote_core hA = local_core hB -> remote_core hB = local_core hA ->
  exists off, 0 <= off /\ off + 8 <= rs_size S /\
    router_irq_notify S i (m, p) = writel 1 (ipc_mscm hA + off + 4) (m, p) /\
    router_irq_clear S j (m', p')
      = writel (Z.shiftl 1 (local_core hA)) (ipc_mscm hB + off) (m', p').
Proof.
  intros HS Ha Hb (_ & _ & _ & _ & _ & (f & h1 & Ef & E1) & _) Ha' Hb'
    (_ & _ & _ & _ & _ & _ & (g & h2 & Eg & E2)) Etx Hn Er El.
  assert (SO : soc_ok S) by (destruct HS as [-> | ->]; [apply gen1_soc_ok | apply g3xx_soc_ok]).
  assert (Em : msi_tx_irq hA = msi_rx_irq hB).
  { rewrite E1, E2. rewrite <- Etx in Eg. eapply so_pair; eauto. }
  exists (ir_off (rs_layout S) + 8 * irq_count (rs_layout S) * remote_core hA + 8 * msi_tx_irq hA).
  assert (HL0 := so_layout S SO). destruct HL0 as [_ Hir _], (ib_tx S hA Hb), (ib_remote S hA Hb).
  split; [nia |]. split; [nia |]. split.
  - rewrite (router_notify_reg S i hA oA) by assumption. f_equal; lia.
  - rewrite (router_clear_reg S j hB oB) by congruence. rewrite <- El, Er, Em. f_equal; lia.
Qed.

End Claims.

(** What a successful initialisation stores, S32gen1 and S32g3xx. *)
Definition stored (c : chip) (cfg : ipc_shm_cfg) (v : Z) (h : ipc_hw_priv_type) : Prop :=
  mscm_tx_irq h = cfg_inter_core_tx_irq cfg /\ mscm_rx_irq h = cfg_inter_core_rx_irq cfg /\
  accepted c cfg v (local_core h) (remote_core h) /\
  (mscm_tx_irq h <> IPC_IRQ_NONE -> msi_tx_irq h = matrix_line c (mscm_tx_irq h)) /\
  (mscm_rx_irq h <> IPC_IRQ_NONE ->
     msi_rx_irq h = matrix_line c (mscm_rx_irq h) /\ spi_index h = routing_index c (mscm_rx_irq h)).

Lemma routed_stored c S cfg a v w h0 h :
  soc_doc c S -> router_verdict S cfg v w <> - EINVAL -> routed S cfg a h0 h -> stored c cfg v h.
Proof.
  intros D Hne (l & r & f & g & El & Er & Ef & Eg & ->).
  destruct (router_verdict_accepted c S cfg v w D) as [[(l' & r' & Ha & El' & Er') _] | [_ E]]; [| contradiction].
  rewrite El in El'. injection El' as <-. rewrite Er in Er'. injection Er' as <-.
  unfold stored. cbn [set_route mscm_tx_irq mscm_rx_irq local_core remote_core msi_tx_irq msi_rx_irq spi_index].
  split_and!; auto.
  - intros Hn. rewrite (so_rx_keeps _ (sd_ok _ _ D) _ _ _ Eg). now apply (sd_tx_line _ _ D _ _ _ Ef).
  - intros Hn. now apply (sd_rx_line _ _ D _ _ _ Eg).
Qed.

