(* ===== verification/KernelOs.v ===== *)
(** * Linux kernel OS layer (src/os_kernel/ipc-os.c, src/os_kernel/ipc-os.h)

    The services of the Linux kernel are the parameter [Kernel]; the platform
    file of src/hw is the parameter [HwOps].  The state is the static data of
    both and the kernel's own. *)

From S2P Require Import Prelude Memory Types World Mscm.

Definition IPC_SOFTIRQ_BUDGET : Z := 128.
Definition IPC_SHM_INSTANCE_DISABLED : Z := 0.
Definition IPC_SHM_INSTANCE_ENABLED : Z := 1.

(** ** Kernel services *)

Class Kernel (K : Type) : Type := {
  request_mem_region : Z -> Z -> M K bool;
  release_mem_region : Z -> Z -> M K unit;
  ioremap : Z -> Z -> M (memory * K) Z;
  iounmap : Z -> M (memory * K) unit;
  of_find_compatible_node : M K Z;
  of_node_put : Z -> M K unit;
  of_irq_get : Z -> Z -> M K Z;
  of_address_to_resource : Z -> M K (Z * (Z * Z));   (* error, start and size *)
  request_irq : Z -> M K Z;
  free_irq : Z -> M K unit;
  tasklet_schedule : M K unit;
  tasklet_kill : M K unit;
  bus_read : nat -> Z -> M K Z;
  bus_write : nat -> Z -> Z -> M K unit
}.

(** ** State *)

Record ipc_os_priv_instance : Type := OsPriv {
  os_shm_size : Z;
  local_phys_shm : Z;
  remote_phys_shm : Z;
  local_virt_shm : Z;
  remote_virt_shm : Z;
  irq_num : Z;
  os_state : Z;
  os_rx_cb : rx_fn
}.

Definition os_priv_zero : ipc_os_priv_instance := OsPriv 0 0 0 0 0 0 0 RX_NULL.

Record kplat (H K : Type) : Type := KPlat {
  kp_hw : list H;
  kp_os : list ipc_os_priv_instance;
  kp_kern : K
}.
Arguments KPlat {H K} kp_hw kp_os kp_kern.
Arguments kp_hw {H K} k.
Arguments kp_os {H K} k.
Arguments kp_kern {H K} k.

Section Os.
Context {H K : Type} `{KS : Kernel K}.
Abbreviation P := (kplat H K).

Definition on_kern {A} : M K A -> M (memory * P) A :=
  czoom (fun s => kp_kern s.2) (fun k s => (s.1, KPlat (kp_hw s.2) (kp_os s.2) k)).
Definition on_mem_kern {A} : M (memory * K) A -> M (memory * P) A :=
  czoom (fun s => (s.1, kp_kern s.2))
        (fun mk s => (mk.1, KPlat (kp_hw s.2) (kp_os s.2) mk.2)).

(** priv.id[instance] *)
Definition get_os (instance : Z) : M (memory * P) ipc_os_priv_instance := fun s =>
  match nthZ (kp_os s.2) instance with
  | Some o => Ret o s
  | None => Fault
  end.
Definition upd_os (instance : Z) (f : ipc_os_priv_instance -> ipc_os_priv_instance) :
    M (memory * P) unit := fun s =>
  match nthZ (kp_os s.2) instance with
  | Some o => Ret tt (s.1, KPlat (kp_hw s.2) (setZ (kp_os s.2) instance (f o)) (kp_kern s.2))
  | None => Fault
  end.

Definition set_local_virt (a : Z) (o : ipc_os_priv_instance) : ipc_os_priv_instance :=
  OsPriv (os_shm_size o) (local_phys_shm o) (remote_phys_shm o) a (remote_virt_shm o)
    (irq_num o) (os_state o) (os_rx_cb o).
Definition set_remote_virt (a : Z) (o : ipc_os_priv_instance) : ipc_os_priv_instance :=
  OsPriv (os_shm_size o) (local_phys_shm o) (remote_phys_shm o) (local_virt_shm o) a
    (irq_num o) (os_state o) (os_rx_cb o).
Definition set_params (size lp rp : Z) (cb : rx_fn) (o : ipc_os_priv_instance) :
    ipc_os_priv_instance :=
  OsPriv size lp rp (local_virt_shm o) (remote_virt_shm o) (irq_num o) (os_state o) cb.
Definition set_irq (n : Z) (o : ipc_os_priv_instance) : ipc_os_priv_instance :=
  OsPriv (os_shm_size o) (local_phys_shm o) (remote_phys_shm o) (local_virt_shm o)
    (remote_virt_shm o) n (os_state o) (os_rx_cb o).
Definition set_state (st : Z) (o : ipc_os_priv_instance) : ipc_os_priv_instance :=
  OsPriv (os_shm_size o) (local_phys_shm o) (remote_phys_shm o) (local_virt_shm o)
    (remote_virt_shm o) (irq_num o) st (os_rx_cb o).

(** ** Register mapping for the platform file *)

Definition ipc_os_map_intc : M (memory * P) Z :=
  let* node := on_kern of_find_compatible_node in
  if node =? NULL then cret NULL else
  let* r := on_kern (of_address_to_resource node) in
  on_kern (of_node_put node) ;;;
  if negb (r.1 =? 0) then cret NULL else
  on_mem_kern (ioremap r.2.1 r.2.2).

Definition ipc_os_unmap_intc (addr : Z) : M (memory * P) unit := on_mem_kern (iounmap addr).

#[export] Instance kplat_env : HwEnv H P := {
  hw_privs := kp_hw;
  set_hw_privs l p := KPlat l (kp_os p) (kp_kern p);
  mmio_read n a := czoom kp_kern (fun k p => KPlat (kp_hw p) (kp_os p) k) (bus_read n a);
  mmio_write n a v := czoom kp_kern (fun k p => KPlat (kp_hw p) (kp_os p) k) (bus_write n a v);
  Mscm.ipc_os_map_intc := ipc_os_map_intc;
  Mscm.ipc_os_unmap_intc := ipc_os_unmap_intc
}.

Context `{HO : HwOps P}.

(** ** Initialisation *)

(** The number is stored through the pointer before it is checked. *)
Definition get_irq_number (instance : Z) (cfg : ipc_shm_cfg) : M (memory * P) Z :=
  let* compatible_node := on_kern of_find_compatible_node in
  if compatible_node =? NULL then cret (- ENXIO) else
  let* rx := hw_get_rx_irq instance in
  let* n := on_kern (of_irq_get compatible_node rx) in
  upd_os instance (set_irq n) ;;;
  if n <=? 0 then on_kern (of_node_put compatible_node) ;;; cret (- EINVAL) else
  on_kern (of_node_put compatible_node) ;;;
  cret 0.

(** The error labels of [ipc_os_init], each falling into the next. *)
Definition err_release_local_region (cfg : ipc_shm_cfg) (err : Z) : M (memory * P) Z :=
  on_kern (release_mem_region (cfg_local_shm_addr cfg) (cfg_shm_size cfg)) ;;;
  cret (i8 err).
Definition err_unmap_local_shm (cfg : ipc_shm_cfg) (err : Z) : M (memory * P) Z :=
  on_mem_kern (iounmap (cfg_local_shm_addr cfg)) ;;;
  err_release_local_region cfg err.
Definition err_release_remote_region (cfg : ipc_shm_cfg) (err : Z) : M (memory * P) Z :=
  on_kern (release_mem_region (cfg_remote_shm_addr cfg) (cfg_shm_size cfg)) ;;;
  err_unmap_local_shm cfg err.
Definition err_unmap_remote_shm (cfg : ipc_shm_cfg) (err : Z) : M (memory * P) Z :=
  on_mem_kern (iounmap (cfg_remote_shm_addr cfg)) ;;;
  err_release_remote_region cfg err.

(** Does another instance hold the interrupt number of [instance]? *)
Definition duplicate_irq (instance : Z) : M (memory * P) bool :=
  let* r := cfor (R := unit) (Z.to_nat IPC_SHM_MAX_INSTANCES) 0 (fun i =>
    if instance =? i then cret (inl tt) else
    let* o := get_os instance in
    let* o' := get_os i in
    if irq_num o =? irq_num o' then cret (inr tt) else cret (inl tt)) in
  cret (match r with inr _ => true | inl _ => false end).

(** From "check duplicate irq number" on. *)
Definition init_irq (instance : Z) (cfg : ipc_shm_cfg) : M (memory * P) Z :=
  let* dup := duplicate_irq instance in
  if dup then
    upd_os instance (set_state IPC_SHM_INSTANCE_ENABLED) ;;;
    cret 0
  else
    let* o := get_os instance in
    let* err := if negb (irq_num o =? IPC_IRQ_NONE)
                then on_kern (request_irq (irq_num o)) else cret 0 in
    if negb (err =? 0) then err_unmap_remote_shm cfg err else
    upd_os instance (set_state IPC_SHM_INSTANCE_ENABLED) ;;;
    cret 0.

Definition ipc_os_init (instance : Z) (cfg : ipc_shm_cfg) (rx_cb : rx_fn) : M (memory * P) Z :=
  match rx_cb with
  | RX_NULL => cret (- EINVAL)
  | _ =>
    if (IPC_SHM_MAX_INSTANCES <? instance) || (instance <? 0) then cret (- EINVAL) else
    (* request and map local physical shared memory *)
    let* res := on_kern (request_mem_region (cfg_local_shm_addr cfg) (cfg_shm_size cfg)) in
    if negb res then cret (- EADDRINUSE) else
    let* a := on_mem_kern (ioremap (cfg_local_shm_addr cfg) (cfg_shm_size cfg)) in
    upd_os instance (set_local_virt a) ;;;
    if a =? NULL then err_release_local_region cfg (- ENOMEM) else
    (* request and map remote physical shared memory *)
    let* res := on_kern (request_mem_region (cfg_remote_shm_addr cfg) (cfg_shm_size cfg)) in
    if negb res then err_unmap_local_shm cfg (- EADDRINUSE) else
    let* a := on_mem_kern (ioremap (cfg_remote_shm_addr cfg) (cfg_shm_size cfg)) in
    upd_os instance (set_remote_virt a) ;;;
    if a =? NULL then err_release_remote_region cfg (- ENOMEM) else
    (* save params; shm_size is an int *)
    upd_os instance (set_params (i32 (cfg_shm_size cfg)) (cfg_local_shm_addr cfg)
                       (cfg_remote_shm_addr cfg) rx_cb) ;;;
    if cfg_inter_core_rx_irq cfg =? IPC_IRQ_NONE then
      upd_os instance (set_irq IPC_IRQ_NONE) ;;;
      init_irq instance cfg
    else
      let* err := get_irq_number instance cfg in
      if negb (err =? 0) then err_unmap_remote_shm cfg err else
      init_irq instance cfg
  end.

(** ** Release *)

Definition ipc_os_free (instance : Z) : M (memory * P) unit :=
  upd_os instance (set_state IPC_SHM_INSTANCE_DISABLED) ;;;
  let* o := get_os instance in
  (if negb (irq_num o =? IPC_IRQ_NONE) then
     let* keep_irq_enable := duplicate_irq instance in
     (if keep_irq_enable then cret tt else
        (* disable notifications from remote *)
        hw_irq_disable instance ;;;
        let* o := get_os instance in
        (* only free irq if irq number is requested *)
        if negb (irq_num o =? 0) then on_kern (free_irq (irq_num o)) else cret tt) ;;;
     upd_os instance (set_irq 0)
   else cret tt) ;;;
  let* o := get_os instance in
  on_mem_kern (iounmap (remote_virt_shm o)) ;;;
  on_kern (release_mem_region (remote_phys_shm o) (u64 (os_shm_size o))) ;;;
  on_mem_kern (iounmap (local_virt_shm o)) ;;;
  on_kern (release_mem_region (local_phys_shm o) (u64 (os_shm_size o))).

Definition ipc_os_get_local_shm (instance : Z) : M (memory * P) Z :=
  let* o := get_os instance in cret (local_virt_shm o).

Definition ipc_os_get_remote_shm (instance : Z) : M (memory * P) Z :=
  let* o := get_os instance in cret (remote_virt_shm o).

(** ** Interrupts and polling *)

Definition os_active (o : ipc_os_priv_instance) : bool :=
  negb ((os_state o =? IPC_SHM_INSTANCE_DISABLED) || (irq_num o =? IPC_IRQ_NONE)).

(** Call through the receive callback pointer; [rx] is ipc_shm_rx. *)
Definition call_rx (rx : Z -> Z -> M (world P) Z) (cb : rx_fn) (instance budget : Z) :
    M (world P) Z :=
  match cb with
  | RX_NULL => cfault
  | RX_IPC_SHM_RX => rx instance budget
  end.

(** sotfirq routine for deferred interrupt handling; the work done is an int
    that is compared as an unsigned long *)
Definition ipc_shm_softirq (rx : Z -> Z -> M (world P) Z) : M (world P) unit :=
  let* _ := cfor (R := unit) (Z.to_nat IPC_SHM_MAX_INSTANCES) 0 (fun i =>
    let* o := on_plat (get_os i) in
    if negb (os_active o) then cret (inl tt) else
    let* work := call_rx rx (os_rx_cb o) i IPC_SOFTIRQ_BUDGET in
    (if IPC_SOFTIRQ_BUDGET <=? u64 (i32 work)
     then on_plat (on_kern tasklet_schedule)
     else on_plat (hw_irq_enable i)) ;;;
    (* work done, re-enable irq *)
    on_plat (hw_irq_enable i) ;;;
    cret (inl tt)) in
  cret tt.

(** driver interrupt service routine *)
Definition ipc_shm_hardirq : M (memory * P) unit :=
  let* _ := cfor (R := unit) (Z.to_nat IPC_SHM_MAX_INSTANCES) 0 (fun i =>
    let* o := get_os i in
    if negb (os_active o) then cret (inl tt) else
    hw_irq_disable i ;;;
    hw_irq_clear i ;;;
    cret (inl tt)) in
  on_kern tasklet_schedule.

Definition ipc_os_poll_channels (rx : Z -> Z -> M (world P) Z) (instance : Z) :
    M (world P) Z :=
  let* o := on_plat (get_os instance) in
  if irq_num o =? IPC_IRQ_NONE then
    match os_rx_cb o with
    | RX_NULL => cret (- EINVAL)
    | cb => let* n := call_rx rx cb instance IPC_SOFTIRQ_BUDGET in cret (i8 n)
    end
  else cret (- EOPNOTSUPP).

Definition shm_mod_init : M (memory * P) Z := cret 0.
Definition shm_mod_exit : M (memory * P) unit := on_kern tasklet_kill.

(** ** The platform of the driver in the kernel build *)

#[export] Instance kernel_platform : Platform P := {
  ipc_hw_init := hw_init;
  ipc_hw_free := hw_free;
  ipc_hw_irq_enable := hw_irq_enable;
  ipc_hw_irq_disable := hw_irq_disable;
  ipc_hw_irq_notify := hw_irq_notify;
  World.ipc_os_init := ipc_os_init;
  World.ipc_os_free := ipc_os_free;
  World.ipc_os_get_local_shm := ipc_os_get_local_shm;
  World.ipc_os_get_remote_shm := ipc_os_get_remote_shm;
  World.ipc_os_poll_channels := ipc_os_poll_channels
}.

End Os.
