(* ===== verification/Resources.v ===== *)
(** * Resources an operating system layer holds

    Total correctness of computations over memory and a layer's state, whatever
    the services below answer, and what the accounts of resources share: lists from
    which one entry goes, and what the entries of a table hold together. *)

From S2P Require Import Prelude Memory World ShmSpec.
From stdpp Require Import list.
#[local] Open Scope Z_scope.

(** ** Lists of resources *)

Fixpoint remove_one {A} `{EqDecision A} (x : A) (l : list A) : list A :=
  match l with
  | [] => []
  | y :: r => if decide (x = y) then r else y :: remove_one x r
  end.

Lemma remove_one_Permutation {A} `{EqDecision A} (x : A) (l : list A) : x ∈ l -> l ≡ₚ x :: remove_one x l.
Proof.
  induction l as [|y l IH]; intros Hx; [now apply not_elem_of_nil in Hx |]. cbn [remove_one].
  destruct (decide (x = y)) as [-> | Hne]; [reflexivity |].
  apply elem_of_cons in Hx as [Hx | Hx]; [easy |].
  rewrite Permutation_swap. f_equiv. now apply IH.
Qed.

(** An entry of a list that is known up to order goes. *)
Lemma remove_one_perm {A} `{EqDecision A} (x : A) (l r : list A) : l ≡ₚ x :: r -> remove_one x l ≡ₚ r.
Proof.
  intros E. assert (Hx : x ∈ l) by (rewrite E; now left).
  rewrite (remove_one_Permutation x l Hx) in E. now apply Permutation_cons_inv in E.
Qed.

Definition remove_all {A} `{EqDecision A} (xs l : list A) : list A := fold_left (fun l x => remove_one x l) xs l.

Lemma remove_all_perm {A} `{EqDecision A} (xs l r : list A) : l ≡ₚ xs ++ r -> remove_all xs l ≡ₚ r.
Proof. revert l. induction xs as [| x xs IH]; intros l E; [exact E |]. apply IH, remove_one_perm. exact E. Qed.

(** ** Tables *)

(** What the entries of a table hold together. *)
Definition table {O A} (f : O -> list A) (os : list O) : list A := concat (f <$> os).

Lemma table_nil {O A} (f : O -> list A) os : Forall (fun o => f o = []) os -> table f os = [].
Proof. unfold table. induction 1 as [| o os Ho _ IH]; [reflexivity |]. cbn [fmap list_fmap concat]. now rewrite Ho, IH. Qed.

Lemma table_split {O A} (f : O -> list A) os i o :
  nthZ os i = Some o -> exists rest,
  table f os ≡ₚ f o ++ rest /\ forall o', table f (setZ os i o') ≡ₚ f o' ++ rest.
Proof.
  intros Ho. apply nthZ_Some in Ho as [_ Ho]. unfold setZ.
  exists (table f (take (Z.to_nat i) os) ++ table f (drop (S (Z.to_nat i)) os)).
  assert (Hc : forall o1 l1 l2, table f (l1 ++ o1 :: l2) ≡ₚ f o1 ++ table f l1 ++ table f l2).
  { intros o1 l1 l2. unfold table. rewrite fmap_app, concat_app. cbn [fmap list_fmap concat].
    apply Permutation_app_swap_app. }
  split.
  - rewrite <- (take_drop_middle os _ o Ho) at 1. apply Hc.
  - intros o'. rewrite (insert_take_drop os _ o') by (eapply lookup_lt_Some; eauto). apply Hc.
Qed.

(** ** Triples *)

Section Triples.
Context {P : Type}.

(** Total correctness of a service of the layer. *)
Definition triple {A} (Q : P -> Prop) (c : M (memory * P) A) (R : A -> P -> Prop) : Prop :=
  forall m p, Q p -> exists a m' p', c (m, p) = Ret a (m', p') /\ R a p'.

Lemma triple_bind {A B} Q (c : M (memory * P) A) R (k : A -> M (memory * P) B) T :
  triple Q c R -> (forall a, triple (R a) (k a) T) -> triple Q (cbind c k) T.
Proof.
  intros Hc Hk m p Hq. destruct (Hc m p Hq) as (a & m1 & p1 & E & HR).
  rewrite (cbind_Ret _ _ _ _ _ E). now apply Hk.
Qed.

Lemma triple_ret {A} (Q : P -> Prop) (a : A) R : (forall p, Q p -> R a p) -> triple Q (cret a) R.
Proof. intros HR m p Hq. exists a, m, p. auto. Qed.

Lemma triple_post {A} (Q : P -> Prop) (c : M (memory * P) A) (R R' : A -> P -> Prop) :
  triple Q c R -> (forall a p, R a p -> R' a p) -> triple Q c R'.
Proof. intros Hc Hr m p Hq. destruct (Hc m p Hq) as (a & m' & p' & E & HR). eauto 6. Qed.

Lemma triple_fact {A} (Q : P -> Prop) (X : Prop) (c : M (memory * P) A) R :
  (X -> triple Q c R) -> triple (fun p => X /\ Q p) c R.
Proof. intros Hc m p [Hx Hq]. now apply Hc. Qed.

Lemma triple_or {A} (Q Q' : P -> Prop) (c : M (memory * P) A) R :
  triple Q c R -> triple Q' c R -> triple (fun p => Q p \/ Q' p) c R.
Proof. intros H H' m p [Hq | Hq]; [now apply H | now apply H']. Qed.

Lemma triple_ex {A X} (Q : X -> P -> Prop) (c : M (memory * P) A) R :
  (forall x, triple (Q x) c R) -> triple (fun p => exists x, Q x p) c R.
Proof. intros H m p [x Hq]. now apply (H x). Qed.

End Triples.
