(* ===== verification/KernelRes.v ===== *)
(** * Resources of the Linux kernel OS layer

    What [ipc_os_init] and [ipc_os_free] hold of the kernel's memory regions and
    interrupt lines, whatever the services of the kernel answer. *)

From S2P Require Import Prelude Memory Types World ShmSpec Resources Mscm KernelOs.
From stdpp Require Import list.
#[local] Open Scope Z_scope.

(** ** Services *)

(** Documented behaviour of the kernel services used by initialisation: every
    service returns; memory regions are held from a successful request until
    their release; errors are negative error numbers. *)
Class KernelLaws (K : Type) `{Kernel K} : Type := {
  regions : K -> list (Z * Z);
  irqs : K -> list Z;
  request_region_law a n k : exists b k', request_mem_region a n k = Ret b k' /\
    regions k' = (if b : bool then (a, n) :: regions k else regions k) /\ irqs k' = irqs k;
  release_region_law a n k : exists k', release_mem_region a n k = Ret tt k' /\
    regions k' = remove_one (a, n) (regions k) /\ irqs k' = irqs k;
  ioremap_law a n m k : exists v m' k', ioremap a n (m, k) = Ret v (m', k') /\
    regions k' = regions k /\ irqs k' = irqs k;
  iounmap_law a m k : exists m' k', iounmap a (m, k) = Ret tt (m', k') /\
    regions k' = regions k /\ irqs k' = irqs k;
  find_node_law k : exists n k', of_find_compatible_node k = Ret n k' /\
    regions k' = regions k /\ irqs k' = irqs k;
  node_put_law n k : exists k', of_node_put n k = Ret tt k' /\
    regions k' = regions k /\ irqs k' = irqs k;
  irq_get_law n i k : exists v k', of_irq_get n i k = Ret v k' /\
    regions k' = regions k /\ irqs k' = irqs k;
  request_irq_law n k : exists e k', request_irq n k = Ret e k' /\ regions k' = regions k /\
    (e = 0 /\ irqs k' = n :: irqs k \/ -256 < e < 0 /\ irqs k' = irqs k);
  free_irq_law n k : exists k', free_irq n k = Ret tt k' /\
    regions k' = regions k /\ irqs k' = remove_one n (irqs k)
}.

Section Resources.
Context {H K : Type} `{KS : Kernel K} `{HO : HwOps (kplat H K)} `{KL : !KernelLaws K}.
Abbreviation P := (kplat H K).

(** The platform file knows the interrupt of every instance it has data for. *)
Context (rx_of : list H -> Z -> Z).
Hypothesis get_rx_law : forall i m (p : P),
  is_Some (nthZ (kp_hw p) i) -> hw_get_rx_irq i (m, p) = Ret (rx_of (kp_hw p) i) (m, p).

(** Regions [rs] and interrupts [qs] are held, the private data is [os] and the
    platform file's data [hw]. *)
Record holds (rs : list (Z * Z)) (qs : list Z) (os : list ipc_os_priv_instance) (hw : list H)
    (p : P) : Prop := {
  ho_regions : regions (kp_kern p) = rs;
  ho_irqs : irqs (kp_kern p) = qs;
  ho_os : kp_os p = os;
  ho_hw : kp_hw p = hw
}.

Lemma kern_triple {A} (c : M K A) rs qs os hw (f : A -> list (Z * Z)) (g : A -> list Z) :
  (forall k, regions k = rs -> irqs k = qs ->
     exists a k', c k = Ret a k' /\ regions k' = f a /\ irqs k' = g a) ->
  triple (holds rs qs os hw) (on_kern c) (fun a => holds (f a) (g a) os hw).
Proof.
  intros Hc m p [E1 E2 E3 E4]. destruct (Hc (kp_kern p) E1 E2) as (a & k' & E & E5 & E6).
  exists a, m, (KPlat (kp_hw p) (kp_os p) k'). unfold on_kern, czoom. cbn [fst snd].
  rewrite E. split; [reflexivity |]. now constructor.
Qed.

Lemma memkern_triple {A} (c : M (memory * K) A) rs qs os hw :
  (forall m k, exists a m' k', c (m, k) = Ret a (m', k') /\
     regions k' = regions k /\ irqs k' = irqs k) ->
  triple (holds rs qs os hw) (on_mem_kern c) (fun _ => holds rs qs os hw).
Proof.
  intros Hc m p [E1 E2 E3 E4]. destruct (Hc m (kp_kern p)) as (a & m' & k' & E & E5 & E6).
  exists a, m', (KPlat (kp_hw p) (kp_os p) k'). unfold on_mem_kern, czoom. cbn [fst snd].
  rewrite E. split; [reflexivity |]. constructor; cbn; congruence.
Qed.

Lemma upd_os_triple i f o rs qs os hw :
  nthZ os i = Some o ->
  triple (holds rs qs os hw) (upd_os i f) (fun _ => holds rs qs (setZ os i (f o)) hw).
Proof.
  intros Ho m p [E1 E2 E3 E4]. unfold upd_os. cbn [fst snd]. rewrite E3, Ho.
  eexists tt, m, _. split; [reflexivity |]. now constructor.
Qed.

Lemma get_os_triple i o rs qs os hw :
  nthZ os i = Some o ->
  triple (holds rs qs os hw) (get_os i) (fun a p => a = o /\ holds rs qs os hw p).
Proof.
  intros Ho m p Hp. exists o, m, p. unfold get_os. cbn [snd].
  now rewrite (ho_os _ _ _ _ _ Hp), Ho.
Qed.

(** The error labels give the regions back. *)
Lemma err_release_local_triple cfg e rs qs os hw :
  triple (holds ((cfg_local_shm_addr cfg, cfg_shm_size cfg) :: rs) qs os hw)
    (err_release_local_region cfg e) (fun r p => r = i8 e /\ holds rs qs os hw p).
Proof.
  eapply triple_bind; [| intros; apply triple_ret; intros p Hp; split; [reflexivity | exact Hp]].
  apply (kern_triple _ _ _ _ _ (fun _ => rs) (fun _ => qs)).
  intros k E1 E2. edestruct release_region_law as (k' & E & Er & Ei).
  exists tt, k'. rewrite Er, Ei, E1. cbn. rewrite decide_True by reflexivity. auto.
Qed.

Lemma err_unmap_local_triple cfg e rs qs os hw :
  triple (holds ((cfg_local_shm_addr cfg, cfg_shm_size cfg) :: rs) qs os hw)
    (err_unmap_local_shm cfg e) (fun r p => r = i8 e /\ holds rs qs os hw p).
Proof.
  eapply triple_bind; [apply memkern_triple | intros; apply err_release_local_triple].
  intros m k. destruct (iounmap_law (cfg_local_shm_addr cfg) m k) as (m' & k' & E). eauto.
Qed.

Abbreviation both_regions cfg rs :=
  ((cfg_remote_shm_addr cfg, cfg_shm_size cfg) :: (cfg_local_shm_addr cfg, cfg_shm_size cfg) :: rs).

Lemma err_release_remote_triple cfg e rs qs os hw :
  triple (holds (both_regions cfg rs) qs os hw)
    (err_release_remote_region cfg e) (fun r p => r = i8 e /\ holds rs qs os hw p).
Proof.
  eapply triple_bind; [| intros; apply err_unmap_local_triple].
  apply (kern_triple _ _ _ _ _ (fun _ => _ :: rs) (fun _ => qs)).
  intros k E1 E2. edestruct release_region_law as (k' & E & Er & Ei).
  exists tt, k'. rewrite Er, Ei, E1. cbn. rewrite decide_True by reflexivity. auto.
Qed.

Lemma err_unmap_remote_triple cfg e rs qs os hw :
  triple (holds (both_regions cfg rs) qs os hw)
    (err_unmap_remote_shm cfg e) (fun r p => r = i8 e /\ holds rs qs os hw p).
Proof.
  eapply triple_bind; [apply memkern_triple | intros; apply err_release_remote_triple].
  intros m k. destruct (iounmap_law (cfg_remote_shm_addr cfg) m k) as (m' & k' & E). eauto.
Qed.

(** Does an instance other than [i] carry the interrupt number [n]? *)
Definition carried (os : list ipc_os_priv_instance) (i n : Z) : bool :=
  existsb (fun j => match nthZ os j with
                    | Some o' => negb (i =? j) && (n =? irq_num o')
                    | None => false
                    end) [0; 1; 2; 3].

Lemma carried_spec os i n :
  length os = 4%nat ->
  carried os i n = true <-> exists j o, i <> j /\ nthZ os j = Some o /\ irq_num o = n.
Proof.
  intros Hl. unfold carried. rewrite existsb_exists. split.
  - intros (j & _ & Hj). destruct (nthZ os j) as [o |] eqn:E; [| discriminate]. bool_to_prop. exists j, o. split_and!; auto; lia.
  - intros (j & o & Hne & E & En). exists j. assert (E' := E). apply nthZ_Some in E'.
    destruct E' as [Hj0 E']. apply lookup_lt_Some in E'. split.
    + rewrite Hl in E'. assert (j = 0 \/ j = 1 \/ j = 2 \/ j = 3) as Hc by lia. cbn. intuition.
    + rewrite E. apply andb_true_iff. split; [apply negb_true_iff, Z.eqb_neq | apply Z.eqb_eq]; auto.
Qed.

Lemma carried_setZ os i o n : 0 <= i -> carried (setZ os i o) i n = carried os i n.
Proof.
  intros Hi. unfold carried.
  assert (Hj : forall j, 0 <= j -> match nthZ (setZ os i o) j with Some o' => negb (i =? j) && (n =? irq_num o') | None => false end
                     = match nthZ os j with Some o' => negb (i =? j) && (n =? irq_num o') | None => false end).
  { intros j Hj0. destruct (Z.eqb_spec i j) as [-> | Hne]; cbn [negb andb]; [now repeat case_match |].
    now rewrite nthZ_setZ_ne by assumption. }
  cbn [existsb]. now rewrite !Hj by lia.
Qed.

(** Duplicate search: total on a full table, and exact. *)
Lemma duplicate_irq_eval i o m (p : P) :
  length (kp_os p) = 4%nat -> nthZ (kp_os p) i = Some o ->
  duplicate_irq i (m, p) = Ret (carried (kp_os p) i (irq_num o)) (m, p).
Proof.
  intros Hl Ho.
  assert (Hget : forall j o', nthZ (kp_os p) j = Some o' -> get_os j (m, p) = Ret o' (m, p)).
  { intros j o' E. unfold get_os. cbn [snd]. now rewrite E. }
  unfold duplicate_irq. erewrite cbind_Ret; [| apply (cfor_search (fun j => match nthZ (kp_os p) j with
      | Some o' => negb (i =? j) && (irq_num o =? irq_num o') | None => false end))].
  { change (map _ _) with [0; 1; 2; 3]. unfold carried. now destruct (existsb _ _). }
  change (Z.of_nat (Z.to_nat IPC_SHM_MAX_INSTANCES)) with 4. intros j Hj.
  destruct (nthZ_total _ j Hl) as [o' Ho']; [lia |]. rewrite Ho'.
  destruct (i =? j); cbn [negb andb]; [reflexivity |].
  rewrite (cbind_Ret _ _ _ _ _ (Hget i o Ho)), (cbind_Ret _ _ _ _ _ (Hget j o' Ho')).
  now destruct (_ =? _).
Qed.

Lemma duplicate_irq_triple i o rs qs os hw :
  length os = 4%nat -> nthZ os i = Some o ->
  triple (holds rs qs os hw) (duplicate_irq i)
    (fun b p => b = carried os i (irq_num o) /\ holds rs qs os hw p).
Proof.
  intros Hl Ho m p Hp. assert (Eo := ho_os _ _ _ _ _ Hp). exists (carried os i (irq_num o)), m, p.
  split; [| now split]. rewrite <- Eo in *. now apply duplicate_irq_eval.
Qed.

(** The private data after a successful initialisation. *)
Definition set_up (cfg : ipc_shm_cfg) (o : ipc_os_priv_instance) : Prop :=
  os_state o = IPC_SHM_INSTANCE_ENABLED /\ os_rx_cb o = RX_IPC_SHM_RX /\
  os_shm_size o = i32 (cfg_shm_size cfg) /\
  local_phys_shm o = cfg_local_shm_addr cfg /\ remote_phys_shm o = cfg_remote_shm_addr cfg /\
  local_virt_shm o <> NULL /\ remote_virt_shm o <> NULL.

(** Success: both regions are held; the line is requested unless another
    instance carries it or the instance polls. *)
Definition line_taken (os : list ipc_os_priv_instance) (i : Z) (qs : list Z) (o : ipc_os_priv_instance) (qs' : list Z) : Prop :=
  irq_num o = IPC_IRQ_NONE /\ qs' = qs \/
  0 < irq_num o /\ qs' = (if carried os i (irq_num o) then qs else irq_num o :: qs).

Definition init_success (cfg : ipc_shm_cfg) (i : Z) rs qs os hw (p : P) : Prop :=
  exists o qs', holds (both_regions cfg rs) qs' (setZ os i o) hw p /\ set_up cfg o /\ line_taken os i qs o qs'.

(** Failure: regions and lines are those held before.  A number can stay behind:
    one that is no interrupt, or one whose request was refused. *)
Definition refused (n : Z) : Prop := exists k e k', request_irq n k = Ret e k' /\ e <> 0.

Definition stale_number (os : list ipc_os_priv_instance) (i : Z) (o0 o : ipc_os_priv_instance) : Prop :=
  irq_num o = irq_num o0 \/ irq_num o <= 0 \/ carried os i (irq_num o) = false /\ refused (irq_num o).

Definition init_failure (i : Z) rs qs os hw (p : P) : Prop :=
  exists o0 o, nthZ os i = Some o0 /\ holds rs qs (setZ os i o) hw p /\
    os_state o = os_state o0 /\ stale_number os i o0 o.

Definition init_result cfg i rs qs os hw (e : Z) (p : P) : Prop :=
  e = 0 /\ init_success cfg i rs qs os hw p \/
  -128 <= e < 128 /\ e <> 0 /\ init_failure i rs qs os hw p.

Lemma error_code err : -256 < err < 0 -> -128 <= i8 err < 128 /\ i8 err <> 0.
Proof.
  intros He. unfold i8. split.
  - assert (0 <= (err + 2 ^ 7) mod 2 ^ 8 < 2 ^ 8) by (apply Z.mod_pos_bound; lia). lia.
  - intros E. assert (Hm : (err + 2 ^ 7) mod 2 ^ 8 = 2 ^ 7) by lia.
    assert (Hd := Z.div_mod (err + 2 ^ 7) (2 ^ 8) ltac:(lia)). rewrite Hm in Hd. lia.
Qed.

Lemma failed_result cfg i rs qs os hw err e o0 o p :
  e = i8 err /\ holds rs qs (setZ os i o) hw p -> -256 < err < 0 -> nthZ os i = Some o0 ->
  os_state o = os_state o0 -> stale_number os i o0 o ->
  init_result cfg i rs qs os hw e p.
Proof.
  intros [-> Hp] He Ho Hs Hn. right. destruct (error_code err He) as [[He1 He2] Hne]. split_and!; auto. now exists o0, o.
Qed.

(** Everything but the state is set up. *)
Lemma enable_triple cfg i o rs qs qs' os hw :
  is_Some (nthZ os i) -> set_up cfg (set_state IPC_SHM_INSTANCE_ENABLED o) -> line_taken os i qs o qs' ->
  triple (holds (both_regions cfg rs) qs' (setZ os i o) hw)
    (upd_os i (set_state IPC_SHM_INSTANCE_ENABLED) ;;; cret 0) (init_result cfg i rs qs os hw).
Proof.
  intros [o0 Ho] Hs Hl. eapply triple_bind; [apply upd_os_triple; now apply (nthZ_setZ _ _ _ o0) |].
  intros a. apply triple_ret. intros p Hp. rewrite setZ_setZ in Hp. left. split; [reflexivity |].
  eexists _, qs'. split_and!; [exact Hp | exact Hs |]. exact Hl.
Qed.

Lemma init_irq_triple cfg i o0 o rs qs os hw :
  length os = 4%nat -> 0 <= i -> nthZ os i = Some o0 -> os_state o = os_state o0 ->
  (irq_num o = IPC_IRQ_NONE \/ 0 < irq_num o) -> set_up cfg (set_state IPC_SHM_INSTANCE_ENABLED o) ->
  triple (holds (both_regions cfg rs) qs (setZ os i o) hw) (init_irq i cfg) (init_result cfg i rs qs os hw).
Proof.
  intros Hl Hi Ho Hst Hn Hs. assert (Ho' := nthZ_setZ os i o o0 Ho).
  eapply triple_bind; [apply (duplicate_irq_triple i o); [now rewrite setZ_length | exact Ho'] |].
  intros dup. apply triple_fact. intros ->. rewrite carried_setZ by exact Hi.
  destruct (carried os i (irq_num o)) eqn:Ec.
  { apply (enable_triple _ _ o); [eauto | exact Hs |]. destruct Hn as [Hn | Hn]; [now left | right]. now rewrite Ec. }
  eapply triple_bind; [apply get_os_triple; exact Ho' |]. intros o'. apply triple_fact. intros ->.
  eapply (triple_bind _ _ (fun e p =>
    (e = 0 /\ exists qs', line_taken os i qs o qs' /\ holds (both_regions cfg rs) qs' (setZ os i o) hw p) \/
    (-256 < e < 0 /\ refused (irq_num o) /\ holds (both_regions cfg rs) qs (setZ os i o) hw p))).
  { destruct (Z.eqb_spec (irq_num o) IPC_IRQ_NONE) as [En | En]; cbn [negb].
    - apply triple_ret. intros p Hp. left. split; [reflexivity |]. exists qs. split; [now left | exact Hp].
    - intros m p [E1 E2 E3 E4].
      destruct (request_irq_law (irq_num o) (kp_kern p)) as (e & k' & E & Er & Hirq).
      exists e, m, (KPlat (kp_hw p) (kp_os p) k'). unfold on_kern, czoom. cbn [fst snd]. rewrite E.
      split; [reflexivity |]. destruct Hirq as [[-> Hq] | [He Hq]].
      + left. split; [reflexivity |]. exists (irq_num o :: qs). split; [| constructor; cbn; congruence].
        right. rewrite Ec. split; [lia | reflexivity].
      + right. split_and!; [lia | lia | | constructor; cbn; congruence]. exists (kp_kern p), e, k'. split; [exact E | lia]. }
  intros e m p [(-> & qs' & Hq & Hp) | (He & Hr & Hp)]; cbn [Z.eqb negb].
  - eapply (enable_triple _ _ o); eauto.
  - destruct (Z.eqb_spec e 0); [lia |]. cbn [negb].
    eapply triple_post; [apply err_unmap_remote_triple | | exact Hp].
    intros a p' Hp'. eapply failed_result; [exact Hp' | lia | exact Ho | exact Hst | right; right; auto].
Qed.

(** Looking the interrupt up changes the stored number only. *)
Lemma get_irq_number_triple i cfg o rs qs os hw :
  is_Some (nthZ os i) -> is_Some (nthZ hw i) ->
  triple (holds rs qs (setZ os i o) hw) (get_irq_number i cfg)
    (fun e p => exists n, holds rs qs (setZ os i (set_irq n o)) hw p /\
       (e = 0 /\ 0 < n \/ -256 < e < 0 /\ (n <= 0 \/ n = irq_num o))).
Proof.
  intros [o0 Ho] Hh. eapply triple_bind.
  { apply (kern_triple _ _ _ _ _ (fun _ => rs) (fun _ => qs)). intros k <- <-. apply find_node_law. }
  intros node. destruct (node =? NULL).
  { apply triple_ret. intros p Hp. exists (irq_num o). replace (set_irq (irq_num o) o) with o by now destruct o.
    split; [exact Hp |]. right. split; [vm_compute; auto | now right]. }
  eapply (triple_bind _ _ (fun _ => holds rs qs (setZ os i o) hw)).
  { intros m p Hp. eexists _, m, p. split; [apply get_rx_law; now rewrite (ho_hw _ _ _ _ _ Hp) | exact Hp]. }
  intros rx. eapply triple_bind.
  { apply (kern_triple _ _ _ _ _ (fun _ => rs) (fun _ => qs)). intros k <- <-. apply irq_get_law. }
  intros n. eapply triple_bind; [apply upd_os_triple; now apply (nthZ_setZ _ _ _ o0) |]. intros a. cbn beta.
  rewrite setZ_setZ.
  assert (Hput : triple (holds rs qs (setZ os i (set_irq n o)) hw) (on_kern (of_node_put node))
            (fun _ => holds rs qs (setZ os i (set_irq n o)) hw)).
  { apply (kern_triple _ _ _ _ _ (fun _ => rs) (fun _ => qs)). intros k <- <-.
    destruct (node_put_law node k) as (k' & E & E1 & E2). eauto. }
  destruct (Z.leb_spec n 0); (eapply triple_bind; [exact Hput |]); intros u; apply triple_ret; intros p Hp;
    exists n; (split; [exact Hp |]).
  - right. split; [vm_compute; auto | now left].
  - left. auto.
Qed.

(** Both mappings succeeded; from "save params" on. *)
Lemma init_tail_triple i cfg o0 o rs qs os hw :
  length os = 4%nat -> 0 <= i -> nthZ os i = Some o0 -> os_state o = os_state o0 -> irq_num o = irq_num o0 ->
  is_Some (nthZ hw i) -> local_virt_shm o <> NULL -> remote_virt_shm o <> NULL ->
  triple (holds (both_regions cfg rs) qs (setZ os i o) hw)
    (upd_os i (set_params (i32 (cfg_shm_size cfg)) (cfg_local_shm_addr cfg)
                 (cfg_remote_shm_addr cfg) RX_IPC_SHM_RX) ;;;
     if cfg_inter_core_rx_irq cfg =? IPC_IRQ_NONE then
       upd_os i (set_irq IPC_IRQ_NONE) ;;; init_irq i cfg
     else
       let* err := get_irq_number i cfg in
       if negb (err =? 0) then err_unmap_remote_shm cfg err else init_irq i cfg)
    (init_result cfg i rs qs os hw).
Proof.
  intros Hl Hi Ho Hst Hn Hh Hlv Hrv.
  eapply triple_bind; [apply upd_os_triple; now apply (nthZ_setZ _ _ _ o0) |].
  intros a. cbn beta. rewrite setZ_setZ. set (o1 := set_params _ _ _ _ o).
  assert (Hirq : forall n, n = IPC_IRQ_NONE \/ 0 < n ->
            triple (holds (both_regions cfg rs) qs (setZ os i (set_irq n o1)) hw)
             (init_irq i cfg) (init_result cfg i rs qs os hw)).
  { intros n Hn'. apply (init_irq_triple cfg i o0 (set_irq n o1)); auto. repeat split; assumption. }
  destruct (_ =? IPC_IRQ_NONE).
  - eapply triple_bind; [apply upd_os_triple; now apply (nthZ_setZ _ _ _ o0) |]. intros b. cbn beta.
    rewrite setZ_setZ. apply Hirq. now left.
  - eapply triple_bind; [apply get_irq_number_triple; [eauto | exact Hh] |].
    intros e m p (n & Hp & [[-> Hpos] | [He Hneg]]); cbn [Z.eqb negb].
    + apply (Hirq n); auto.
    + destruct (Z.eqb_spec e 0); [lia |]. cbn [negb]. eapply triple_post; [apply err_unmap_remote_triple | | exact Hp].
      intros r p' Hp'. eapply failed_result; [exact Hp' | lia | exact Ho | exact Hst |].
      destruct Hneg as [? | ->]; [right; now left | now left].
Qed.

Lemma request_triple a n rs qs os hw :
  triple (holds rs qs os hw) (on_kern (request_mem_region a n))
    (fun b : bool => holds (if b then (a, n) :: rs else rs) qs os hw).
Proof.
  apply (kern_triple _ _ _ _ _ (fun b : bool => if b then (a, n) :: rs else rs) (fun _ => qs)).
  intros k <- <-. apply request_region_law.
Qed.

Lemma ioremap_triple a n rs qs os hw :
  triple (holds rs qs os hw) (on_mem_kern (ioremap a n)) (fun _ => holds rs qs os hw).
Proof. apply memkern_triple. intros. apply ioremap_law. Qed.

Lemma ipc_os_init_triple i cfg rs qs os hw :
  0 <= i < 4 -> length os = 4%nat -> is_Some (nthZ hw i) ->
  triple (holds rs qs os hw) (ipc_os_init i cfg RX_IPC_SHM_RX) (init_result cfg i rs qs os hw).
Proof.
  intros Hi Hl Hh. unfold ipc_os_init.
  replace (_ || _) with false
    by (symmetry; apply orb_false_iff; rewrite !Z.ltb_ge; unfold IPC_SHM_MAX_INSTANCES; lia).
  destruct (nthZ_total os i Hl Hi) as [o Ho].
  assert (Hfail : forall err e o' p, e = i8 err /\ holds rs qs (setZ os i o') hw p -> -256 < err < 0 ->
            os_state o' = os_state o -> irq_num o' = irq_num o -> init_result cfg i rs qs os hw e p).
  { intros err e o' p Hp He Hs Hn. eapply failed_result; eauto. now left. }
  eapply triple_bind; [apply request_triple |]. intros [|]; cbn [negb].
  2: { apply triple_ret. intros p Hp. eapply (Hfail (- EADDRINUSE) _ o); [| vm_compute; auto | reflexivity | reflexivity].
       split; [reflexivity | now rewrite setZ_same]. }
  eapply triple_bind; [apply ioremap_triple |]. intros a.
  eapply triple_bind; [apply upd_os_triple; exact Ho |]. intros u; cbn beta.
  destruct (Z.eqb_spec a NULL) as [| Ha].
  { eapply triple_post; [apply err_release_local_triple |]. intros r p' Hp'.
    eapply Hfail; [exact Hp' | vm_compute; auto | reflexivity | reflexivity]. }
  eapply triple_bind; [apply request_triple |]. intros [|]; cbn [negb].
  2: { eapply triple_post; [apply err_unmap_local_triple |]. intros r p' Hp'.
       eapply Hfail; [exact Hp' | vm_compute; auto | reflexivity | reflexivity]. }
  eapply triple_bind; [apply ioremap_triple |]. intros b.
  eapply triple_bind; [apply upd_os_triple; now apply (nthZ_setZ _ _ _ o) |]. intros u'; cbn beta. rewrite setZ_setZ.
  destruct (Z.eqb_spec b NULL) as [| Hb].
  { eapply triple_post; [apply err_release_remote_triple |]. intros r p' Hp'.
    eapply Hfail; [exact Hp' | vm_compute; auto | reflexivity | reflexivity]. }
  eapply (init_tail_triple _ _ o); eauto. lia.
Qed.

(** ** Release *)

Context `{HL : !HwOpsLaws (kplat H K)}.

(** Register accesses leave the OS layer's private data, the regions and the
    lines alone, and do not depend on that private data. *)
Class HwKeepsResources : Prop := {
  keeps_resources p p' : hw_os_of p' = hw_os_of p ->
    kp_os p' = kp_os p /\ regions (kp_kern p') = regions (kp_kern p) /\ irqs (kp_kern p') = irqs (kp_kern p);
  live_any_os i regs (hw : list H) os os' (k : K) : hw_live i regs (KPlat hw os k) -> hw_live i regs (KPlat hw os' k)
}.
Context `{HR : !HwKeepsResources}.

Lemma release_region_triple a n rs qs os hw :
  triple (holds rs qs os hw) (on_kern (release_mem_region a n)) (fun _ => holds (remove_one (a, n) rs) qs os hw).
Proof.
  apply (kern_triple _ _ _ _ _ (fun _ => remove_one (a, n) rs) (fun _ => qs)).
  intros k <- <-. destruct (release_region_law a n k) as (k' & E & Er & Ei). exists tt, k'. auto.
Qed.

Lemma iounmap_triple a rs qs os hw :
  triple (holds rs qs os hw) (on_mem_kern (iounmap a)) (fun _ => holds rs qs os hw).
Proof. apply memkern_triple. intros m k. destruct (iounmap_law a m k) as (m' & k' & E). eauto. Qed.

(** The two regions an entry stands for. *)
Definition remote_region (o : ipc_os_priv_instance) : Z * Z := (remote_phys_shm o, u64 (os_shm_size o)).
Definition local_region (o : ipc_os_priv_instance) : Z * Z := (local_phys_shm o, u64 (os_shm_size o)).

Lemma free_tail_triple i o rs qs os hw :
  nthZ os i = Some o ->
  triple (holds rs qs os hw)
    (let* o := get_os i in
     on_mem_kern (iounmap (remote_virt_shm o)) ;;;
     on_kern (release_mem_region (remote_phys_shm o) (u64 (os_shm_size o))) ;;;
     on_mem_kern (iounmap (local_virt_shm o)) ;;;
     on_kern (release_mem_region (local_phys_shm o) (u64 (os_shm_size o))))
    (fun _ => holds (remove_one (local_region o) (remove_one (remote_region o) rs)) qs os hw).
Proof.
  intros Ho. eapply triple_bind; [apply get_os_triple; exact Ho |]. intros o'. apply triple_fact. intros ->.
  eapply triple_bind; [apply iounmap_triple |]. intros ?; cbn beta.
  eapply triple_bind; [apply release_region_triple |]. intros ?; cbn beta.
  eapply triple_bind; [apply iounmap_triple |]. intros ?; cbn beta. apply release_region_triple.
Qed.

(** The line goes back with its last user. *)
Definition irq_after (o : ipc_os_priv_instance) : Z := if irq_num o =? IPC_IRQ_NONE then IPC_IRQ_NONE else 0.
Definition lines_after (os : list ipc_os_priv_instance) (i : Z) (o : ipc_os_priv_instance) (qs : list Z) : list Z :=
  if (irq_num o =? IPC_IRQ_NONE) || carried os i (irq_num o) || (irq_num o =? 0) then qs
  else remove_one (irq_num o) qs.

Lemma get_os_eval i o m (p : P) : nthZ (kp_os p) i = Some o -> get_os i (m, p) = Ret o (m, p).
Proof. intros E. unfold get_os. cbn [snd]. now rewrite E. Qed.

Lemma upd_os_eval i o f m (p : P) :
  nthZ (kp_os p) i = Some o ->
  upd_os i f (m, p) = Ret tt (m, KPlat (kp_hw p) (setZ (kp_os p) i (f o)) (kp_kern p)).
Proof. intros E. unfold upd_os. cbn [snd]. now rewrite E. Qed.

Lemma free_irq_eval i o m (p : P) rs qs os hw :
  holds rs qs os hw p -> length os = 4%nat -> nthZ os i = Some o -> hw_live i (mem_regions m) p ->
  exists p' hw',
    (if negb (irq_num o =? IPC_IRQ_NONE) then
       let* keep_irq_enable := duplicate_irq i in
       (if keep_irq_enable then cret tt else
          hw_irq_disable i ;;;
          let* o := get_os i in
          if negb (irq_num o =? 0) then on_kern (free_irq (irq_num o)) else cret tt) ;;;
       upd_os i (set_irq 0)
     else cret tt) (m, p) = Ret tt (m, p') /\
    holds rs (lines_after os i o qs) (setZ os i (set_irq (irq_after o) o)) hw' p'.
Proof.
  intros [<- <- <- <-] Hl Ho Hr. unfold lines_after, irq_after.
  destruct (Z.eqb_spec (irq_num o) IPC_IRQ_NONE) as [En | En]; cbn [negb orb].
  { exists p, (kp_hw p). split; [reflexivity |]. constructor; auto.
    rewrite <- En. replace (set_irq (irq_num o) o) with o by now destruct o. symmetry. now apply setZ_same. }
  rewrite (cbind_Ret _ _ _ _ _ (duplicate_irq_eval i o m p Hl Ho)).
  destruct (carried _ i (irq_num o)); cbn [orb].
  { rewrite cbind_cret, (upd_os_eval i o) by exact Ho. eexists _, (kp_hw p). split; [reflexivity | now constructor]. }
  destruct (hw_disable_law i m p Hr) as (p1 & E1 & _ & Ek). apply keeps_resources in Ek as (Eo & Er & Eq).
  rewrite cbind_assoc, (cbind_Ret _ _ _ _ _ E1), cbind_assoc.
  rewrite <- Eo in Ho. rewrite (cbind_Ret _ _ _ _ _ (get_os_eval i o m p1 Ho)), <- Eo, <- Er, <- Eq.
  destruct (irq_num o =? 0); cbn [negb].
  - rewrite cbind_cret, (upd_os_eval i o) by exact Ho. eexists _, (kp_hw p1). split; [reflexivity | now constructor].
  - destruct (free_irq_law (irq_num o) (kp_kern p1)) as (k' & Ef & Er' & Eq').
    rewrite (cbind_Ret _ _ _ tt (m, KPlat (kp_hw p1) (kp_os p1) k'))
      by (unfold on_kern, czoom; cbn [fst snd]; now rewrite Ef).
    rewrite (upd_os_eval i o) by exact Ho. eexists _, (kp_hw p1). split; [reflexivity | now constructor].
Qed.

(** The entry after [ipc_os_free]. *)
Definition freed (o : ipc_os_priv_instance) : ipc_os_priv_instance :=
  set_irq (irq_after o) (set_state IPC_SHM_INSTANCE_DISABLED o).

Lemma ipc_os_free_eval i o m (p : P) rs qs os hw :
  holds rs qs os hw p -> 0 <= i -> length os = 4%nat -> nthZ os i = Some o -> hw_live i (mem_regions m) p ->
  exists m' p' hw', ipc_os_free i (m, p) = Ret tt (m', p') /\
    holds (remove_one (local_region o) (remove_one (remote_region o) rs)) (lines_after os i o qs)
      (setZ os i (freed o)) hw' p'.
Proof.
  intros Hp Hi Hl Ho Hr. unfold ipc_os_free. set (o1 := set_state IPC_SHM_INSTANCE_DISABLED o).
  assert (Ho1 : nthZ (setZ os i o1) i = Some o1) by now apply (nthZ_setZ _ _ _ o).
  assert (Hl1 : length (setZ os i o1) = 4%nat) by now rewrite setZ_length.
  destruct p as [hw0 os0 k]. assert (Eos := ho_os _ _ _ _ _ Hp). cbn in Eos. subst os0.
  rewrite (cbind_Ret _ _ _ _ _ (upd_os_eval i o _ m (KPlat hw0 os k) Ho)). cbn [kp_hw kp_os kp_kern].
  fold o1. set (p1 := KPlat hw0 (setZ os i o1) k).
  rewrite (cbind_Ret _ _ _ _ _ (get_os_eval i o1 m p1 Ho1)).
  destruct (free_irq_eval i o1 m p1 rs qs (setZ os i o1) hw) as (p2 & hw2 & E2 & H2);
    [destruct Hp; now constructor | exact Hl1 | exact Ho1 | exact (live_any_os i _ hw0 os _ k Hr) |].
  rewrite (cbind_Ret _ _ _ _ _ E2).
  assert (Eline : lines_after (setZ os i o1) i o1 qs = lines_after os i o qs)
    by (unfold lines_after; now rewrite carried_setZ).
  rewrite setZ_setZ, Eline in H2.
  destruct (free_tail_triple i (freed o) rs _ _ hw2 (nthZ_setZ os i (freed o) o Ho) m p2 H2) as ([] & m' & p' & E & H3).
  exists m', p', hw2. auto.
Qed.

End Resources.
Arguments HwKeepsResources H K {KS HO KL HL}.
