(* ===== verification/KernelLife.v ===== *)
(** * Life of the instances of the kernel layer

    Over every sequence of [ipc_os_init] and [ipc_os_free] calls, and whatever the
    services of the kernel answer, the memory regions the layer holds are those of
    the enabled instances; an interrupt line, which several instances may share,
    is requested once and goes back with its last user. *)

From S2P Require Import Prelude Memory Types World ShmSpec Resources Mscm Atomic KernelOs KernelRes.
From stdpp Require Import list.
#[local] Open Scope Z_scope.

(** ** The table of instances *)

Definition enabled (o : ipc_os_priv_instance) : Prop := os_state o = IPC_SHM_INSTANCE_ENABLED.
#[export] Instance enabled_dec o : Decision (enabled o).
Proof. unfold enabled. apply _. Defined.

Definition entry_regions (o : ipc_os_priv_instance) : list (Z * Z) :=
  if decide (enabled o) then [remote_region o; local_region o] else [].

Abbreviation table_regions os := (table entry_regions os).

Lemma no_regions os : Forall (fun o => ~ enabled o) os -> table_regions os = [].
Proof.
  intros Hos. apply table_nil. eapply Forall_impl; [exact Hos |]. intros o Ho. unfold entry_regions. now rewrite decide_False.
Qed.

(** Lines held: distinct, each the number of an enabled instance and of no
    other entry. *)
Record lines_ok (os : list ipc_os_priv_instance) (qs : list Z) : Prop := {
  lo_nodup : NoDup qs;
  lo_pos : forall n, n ∈ qs -> 0 < n;
  lo_used : forall n, n ∈ qs -> exists i o, nthZ os i = Some o /\ enabled o /\ irq_num o = n;
  lo_live : forall n i o, n ∈ qs -> nthZ os i = Some o -> irq_num o = n -> enabled o;
  lo_num : forall i o, nthZ os i = Some o -> enabled o -> irq_num o = IPC_IRQ_NONE \/ 0 < irq_num o
}.

(** Every enabled instance that does not poll has its line. *)
Definition lines_served (os : list ipc_os_priv_instance) (qs : list Z) : Prop :=
  forall i o, nthZ os i = Some o ->
    (enabled o -> irq_num o = IPC_IRQ_NONE \/ irq_num o ∈ qs) /\ (~ enabled o -> irq_num o <= 0).

Lemma nthZ_setZ_cases {A} (l : list A) i j x y :
  0 <= i -> nthZ (setZ l i x) j = Some y -> i = j /\ y = x \/ i <> j /\ nthZ l j = Some y.
Proof.
  intros Hi E. assert (Hj := E). apply nthZ_Some in Hj as [Hj E']. destruct (Z.eq_dec i j) as [<- | Hne].
  - left. split; [reflexivity |]. apply list_lookup_insert_Some in E' as [(_ & -> & _) | [? _]]; [reflexivity | lia].
  - right. rewrite nthZ_setZ_ne in E by lia. auto.
Qed.

Lemma remove_one_elem {A} `{EqDecision A} (x : A) (l : list A) :
  NoDup l -> NoDup (remove_one x l) /\ forall y, y ∈ remove_one x l <-> y ∈ l /\ y <> x.
Proof.
  intros Hl. destruct (decide (x ∈ l)) as [Hx | Hx].
  - assert (Hp := remove_one_Permutation x l Hx). rewrite Hp in Hl. apply NoDup_cons in Hl as [Hn Hd].
    split; [exact Hd |]. intros y. rewrite Hp at 2. rewrite elem_of_cons. split; [| tauto].
    intros Hy. split; [auto |]. now intros ->.
  - assert (E : remove_one x l = l).
    { clear Hl. induction l as [|z l IH]; [reflexivity |]. cbn [remove_one]. apply not_elem_of_cons in Hx as [H1 H2].
      rewrite decide_False by exact H1. now rewrite IH. }
    rewrite E. split; [exact Hl |]. intros y. split; [intros Hy; split; [exact Hy | now intros ->] | tauto].
Qed.

Section Lines.
Context (os : list ipc_os_priv_instance) (i : Z) (o0 o : ipc_os_priv_instance) (qs : list Z).
Context (Hlen : length os = 4%nat) (Hi : 0 <= i) (H0 : nthZ os i = Some o0) (HL : lines_ok os qs).

(** Another entry with a number in use is enabled, and is seen by the search. *)
Lemma carried_true n : carried os i n = true <-> exists j oj, i <> j /\ nthZ os j = Some oj /\ irq_num oj = n.
Proof. now apply carried_spec. Qed.

Lemma others_use n : n ∈ qs -> ~ enabled o0 -> carried os i n = true.
Proof.
  intros Hn Hd. destruct (lo_used _ _ HL n Hn) as (j & oj & Ej & He & Enum). apply carried_true.
  exists j, oj. split_and!; auto. intros ->. rewrite H0 in Ej. injection Ej as <-. contradiction.
Qed.

Lemma lines_start qs' : ~ enabled o0 -> enabled o -> line_taken os i qs o qs' -> lines_ok (setZ os i o) qs'.
Proof.
  intros Hd He Ht.
  assert (Hnum : forall j oj, nthZ (setZ os i o) j = Some oj -> enabled oj -> irq_num oj = IPC_IRQ_NONE \/ 0 < irq_num oj).
  { intros j oj Ej Hej. apply nthZ_setZ_cases in Ej as [[_ ->] | [_ Ej]]; [| | exact Hi].
    - destruct Ht as [[? _] | [? _]]; auto.
    - exact (lo_num _ _ HL j oj Ej Hej). }
  assert (Hself : nthZ (setZ os i o) i = Some o) by now apply (nthZ_setZ _ _ _ o0).
  assert (Hkeep : forall n, n ∈ qs -> exists j oj, nthZ (setZ os i o) j = Some oj /\ enabled oj /\ irq_num oj = n).
  { intros n Hn. destruct (lo_used _ _ HL n Hn) as (j & oj & Ej & Hej & En). exists j, oj.
    assert (i <> j) by (intros <-; rewrite H0 in Ej; injection Ej as <-; contradiction).
    rewrite nthZ_setZ_ne by assumption. auto. }
  assert (Hlive : forall n j oj, n ∈ qs -> nthZ (setZ os i o) j = Some oj -> irq_num oj = n -> enabled oj).
  { intros n j oj Hn Ej En. apply nthZ_setZ_cases in Ej as [[_ ->] | [_ Ej]]; [exact He | | exact Hi].
    exact (lo_live _ _ HL n j oj Hn Ej En). }
  destruct Ht as [[En ->] | [Hp ->]]; [destruct HL; constructor; auto |].
  destruct (carried os i (irq_num o)) eqn:Ec; [destruct HL; constructor; auto |].
  assert (Hnew : irq_num o ∉ qs).
  { intros Hn. apply others_use in Hn; [congruence | exact Hd]. }
  constructor; auto.
  - apply NoDup_cons. split; [exact Hnew | apply HL].
  - intros n [-> | Hn]%elem_of_cons; [exact Hp | exact (lo_pos _ _ HL n Hn)].
  - intros n [-> | Hn]%elem_of_cons; [eauto | auto].
  - intros n j oj [-> | Hn]%elem_of_cons Ej Ej'; [| eauto].
    apply nthZ_setZ_cases in Ej as [[_ ->] | [Hne Ej]]; [exact He | | exact Hi].
    assert (carried os i (irq_num o) = true) by (apply carried_true; eauto). congruence.
Qed.

Lemma lines_fail : ~ enabled o0 -> ~ enabled o -> (irq_num o ∈ qs -> False) -> lines_ok (setZ os i o) qs.
Proof.
  intros Hd Hd' Hn. constructor; try apply HL.
  - intros n Hq. destruct (lo_used _ _ HL n Hq) as (j & oj & Ej & Hej & En). exists j, oj.
    assert (i <> j) by (intros <-; rewrite H0 in Ej; injection Ej as <-; contradiction).
    rewrite nthZ_setZ_ne by assumption. auto.
  - intros n j oj Hq Ej En. apply nthZ_setZ_cases in Ej as [[_ ->] | [_ Ej]]; [subst n; contradiction | | exact Hi].
    exact (lo_live _ _ HL n j oj Hq Ej En).
  - intros j oj Ej Hej. apply nthZ_setZ_cases in Ej as [[_ ->] | [_ Ej]]; [contradiction | | exact Hi].
    exact (lo_num _ _ HL j oj Ej Hej).
Qed.

Lemma freed_disabled : ~ enabled (freed o0).
Proof. unfold enabled, freed. cbn. vm_compute. discriminate. Qed.

Lemma lines_after_elem n :
  n ∈ lines_after os i o0 qs <-> n ∈ qs /\ (n = irq_num o0 -> 0 < n -> carried os i n = true).
Proof.
  unfold lines_after. destruct (Z.eqb_spec (irq_num o0) IPC_IRQ_NONE) as [E1 | E1];
    [| destruct (carried os i (irq_num o0)) eqn:E2; [| destruct (Z.eqb_spec (irq_num o0) 0) as [E3 | E3]]]; cbn [orb].
  - split; [| tauto]. intros Hn. split; [exact Hn |]. unfold IPC_IRQ_NONE in E1. lia.
  - split; [| tauto]. intros Hn. split; [exact Hn |]. now intros ->.
  - split; [| tauto]. intros Hn. split; [exact Hn |]. lia.
  - rewrite (proj2 (remove_one_elem (irq_num o0) qs (lo_nodup _ _ HL))). split.
    + intros [Hn Hne]. split; [exact Hn |]. contradiction.
    + intros [Hn Hc]. split; [exact Hn |]. intros ->. rewrite Hc in E2; [discriminate | reflexivity |].
      now apply (lo_pos _ _ HL).
Qed.

Lemma lines_after_nodup : NoDup (lines_after os i o0 qs).
Proof. unfold lines_after. destruct (_ || _ || _); [apply HL | apply remove_one_elem, HL]. Qed.

Lemma lines_stop : enabled o0 -> lines_ok (setZ os i (freed o0)) (lines_after os i o0 qs).
Proof.
  intros He.
  assert (Hafter : irq_after o0 <= 0) by (unfold irq_after, IPC_IRQ_NONE; destruct (_ =? _); lia).
  constructor.
  - apply lines_after_nodup.
  - intros n Hn. apply lines_after_elem in Hn as [Hn _]. exact (lo_pos _ _ HL n Hn).
  - intros n Hn. apply lines_after_elem in Hn as [Hn Hc]. assert (Hp := lo_pos _ _ HL n Hn).
    assert (Hj : exists j oj, i <> j /\ nthZ os j = Some oj /\ irq_num oj = n).
    { destruct (lo_used _ _ HL n Hn) as (j & oj & Ej & Hej & En). destruct (Z.eq_dec i j) as [<- | Hne]; [| eauto].
      rewrite H0 in Ej. injection Ej as <-. apply carried_true. auto. }
    destruct Hj as (j & oj & Hne & Ej & En). exists j, oj. rewrite nthZ_setZ_ne by assumption.
    split_and!; auto. exact (lo_live _ _ HL n j oj Hn Ej En).
  - intros n j oj Hn Ej En. apply lines_after_elem in Hn as [Hn _].
    apply nthZ_setZ_cases in Ej as [[_ ->] | [_ Ej]]; [| exact (lo_live _ _ HL n j oj Hn Ej En) | exact Hi].
    assert (Hp := lo_pos _ _ HL n Hn). cbn in En. lia.
  - intros j oj Ej Hej. apply nthZ_setZ_cases in Ej as [[_ ->] | [_ Ej]]; [| exact (lo_num _ _ HL j oj Ej Hej) | exact Hi].
    now apply freed_disabled in Hej.
Qed.

(** The same for the lines in use being requested. *)
Context (HS : lines_served os qs).

Lemma served_other j oj o' (qs' : list Z) :
  (forall n, n ∈ qs -> n = irq_num oj -> n ∈ qs') -> nthZ (setZ os i o') j = Some oj -> i <> j ->
  (enabled oj -> irq_num oj = IPC_IRQ_NONE \/ irq_num oj ∈ qs') /\ (~ enabled oj -> irq_num oj <= 0).
Proof.
  intros Hq Ej Hne. rewrite nthZ_setZ_ne in Ej by assumption.
  destruct (HS j oj Ej) as [H1 H2]. split; [| exact H2]. intros He. destruct (H1 He); auto.
Qed.

Lemma served_start qs' : enabled o -> line_taken os i qs o qs' -> lines_served (setZ os i o) qs'.
Proof.
  intros He Ht j oj Ej. destruct (Z.eq_dec i j) as [<- | Hne].
  - rewrite (nthZ_setZ _ _ _ _ H0) in Ej. injection Ej as <-. split; [| easy]. intros _.
    destruct Ht as [[En _] | [Hp ->]]; [now left | right].
    destruct (carried os i (irq_num o)) eqn:Ec; [| apply elem_of_cons; now left].
    apply carried_true in Ec as (k & ok & _ & Ek & En). destruct (HS k ok Ek) as [H1 H2].
    rewrite <- En in *. destruct (decide (enabled ok)) as [Hk | Hk]; [| apply H2 in Hk; lia].
    destruct (H1 Hk) as [E |]; [unfold IPC_IRQ_NONE in E; lia | assumption].
  - eapply served_other; [| exact Ej | exact Hne]. intros n Hn _.
    destruct Ht as [[_ ->] | [_ ->]]; [exact Hn |]. destruct (carried _ _ _); [exact Hn | now apply elem_of_cons; right].
Qed.

Lemma served_fail : ~ enabled o -> irq_num o <= 0 -> lines_served (setZ os i o) qs.
Proof.
  intros Hd Hn j oj Ej. destruct (Z.eq_dec i j) as [<- | Hne].
  - rewrite (nthZ_setZ _ _ _ _ H0) in Ej. injection Ej as <-. tauto.
  - eapply served_other; [| exact Ej | exact Hne]. auto.
Qed.

Lemma served_stop : lines_served (setZ os i (freed o0)) (lines_after os i o0 qs).
Proof.
  intros j oj Ej. destruct (Z.eq_dec i j) as [<- | Hne].
  - rewrite (nthZ_setZ _ _ _ _ H0) in Ej. injection Ej as <-. split; [intros H; now apply freed_disabled in H |].
    intros _. cbn. unfold irq_after, IPC_IRQ_NONE. destruct (_ =? _); lia.
  - eapply served_other; [| exact Ej | exact Hne]. intros n Hn En. apply lines_after_elem. split; [exact Hn |].
    intros _ _. apply carried_true. exists j, oj. rewrite nthZ_setZ_ne in Ej by assumption. auto.
Qed.

End Lines.

(** ** Calls in sequence *)

Section Life.
Context {H K : Type} `{KS : Kernel K} `{HO : HwOps (kplat H K)} `{KL : !KernelLaws K}.
Context `{HL : !HwOpsLaws (kplat H K)} `{HR : !HwKeepsResources H K}.
Context (rx_of : list H -> Z -> Z).
Hypothesis get_rx_law : forall i m (p : kplat H K),
  is_Some (nthZ (kp_hw p) i) -> hw_get_rx_irq i (m, p) = Ret (rx_of (kp_hw p) i) (m, p).

(** The driver initialises instances that are not in use, over memory whose size
    fits the int it is stored in, and frees those that are; anything else may
    happen to the hardware's data, to the memory and to the rest of the kernel. *)
Inductive life_step : memory * kplat H K -> unit -> memory * kplat H K -> Prop :=
| life_init i cfg m p o e m' p' :
    0 <= i < 4 -> nthZ (kp_os p) i = Some o -> ~ enabled o -> is_Some (nthZ (kp_hw p) i) ->
    0 <= cfg_shm_size cfg < 2 ^ 31 -> ipc_os_init i cfg RX_IPC_SHM_RX (m, p) = Ret e (m', p') ->
    life_step (m, p) tt (m', p')
| life_free i m p o m' p' :
    0 <= i -> nthZ (kp_os p) i = Some o -> enabled o -> hw_live i (mem_regions m) p ->
    ipc_os_free i (m, p) = Ret tt (m', p') -> life_step (m, p) tt (m', p')
| life_other m p m' p' :
    kp_os p' = kp_os p -> regions (kp_kern p') = regions (kp_kern p) -> irqs (kp_kern p') = irqs (kp_kern p) ->
    life_step (m, p) tt (m', p').

Record accounted_for (rs0 : list (Z * Z)) (s : memory * kplat H K) : Prop := {
  af_len : length (kp_os s.2) = 4%nat;
  af_regions : regions (kp_kern s.2) ≡ₚ table_regions (kp_os s.2) ++ rs0;
  af_lines : lines_ok (kp_os s.2) (irqs (kp_kern s.2));
  af_served : (forall n, ~ refused (K := K) n) -> lines_served (kp_os s.2) (irqs (kp_kern s.2))
}.

Lemma regions_of_set_up cfg o rs0 rest rs :
  set_up cfg o -> 0 <= cfg_shm_size cfg < 2 ^ 31 -> rs ≡ₚ rest ++ rs0 ->
  (cfg_remote_shm_addr cfg, cfg_shm_size cfg) :: (cfg_local_shm_addr cfg, cfg_shm_size cfg) :: rs
    ≡ₚ (entry_regions o ++ rest) ++ rs0.
Proof.
  intros (He & _ & Esz & El & Er & _) Hs Hrs. unfold entry_regions. rewrite decide_True by exact He.
  unfold remote_region, local_region. rewrite El, Er, Esz, Hrs.
  replace (u64 (i32 (cfg_shm_size cfg))) with (cfg_shm_size cfg) by (rewrite i32_small, u64_small; lia). reflexivity.
Qed.

(** What [ipc_os_init] does to the account: with 0 the instance is enabled, with
    an error it is not. *)
Lemma init_accounted rs0 i cfg m p o :
  accounted_for rs0 (m, p) -> 0 <= i < 4 -> nthZ (kp_os p) i = Some o -> ~ enabled o ->
  is_Some (nthZ (kp_hw p) i) -> 0 <= cfg_shm_size cfg < 2 ^ 31 ->
  exists e m' p' o', ipc_os_init i cfg RX_IPC_SHM_RX (m, p) = Ret e (m', p') /\ accounted_for rs0 (m', p') /\
    nthZ (kp_os p') i = Some o' /\ (e = 0 <-> enabled o').
Proof.
  intros [Hl Hr Hq Hs] Hi Ho Hd Hh Hsz. cbn [snd] in *. assert (Hi0 : 0 <= i) by lia.
  destruct (ipc_os_init_triple rx_of get_rx_law i cfg (regions (kp_kern p)) (irqs (kp_kern p)) (kp_os p) (kp_hw p)
              Hi Hl Hh m p) as (e & m' & p' & E & Hres); [now constructor |]. exists e, m', p'.
  destruct Hres as [(-> & o' & qs' & [E1 E2 E3 _] & Hup & Ht) | ((He1 & _) & Hne & o0 & o' & Ho' & [E1 E2 E3 _] & Hst & Hn)];
    exists o'; (split; [exact E |]).
  - assert (He : enabled o') by apply Hup.
    destruct (table_split entry_regions (kp_os p) i o Ho) as (rest & T1 & T2). specialize (T2 o').
    unfold entry_regions in T1. rewrite decide_False in T1 by exact Hd. rewrite T1 in Hr.
    split; [| rewrite E3; split; [now apply (nthZ_setZ _ _ _ o) | tauto]].
    constructor; cbn [snd]; rewrite ?E1, ?E2, ?E3; [now rewrite setZ_length | | now apply (lines_start _ _ o o' (irqs (kp_kern p))) |].
    + rewrite T2. now apply (regions_of_set_up cfg).
    + intros Hg. apply (served_start _ _ o o' (irqs (kp_kern p))); auto.
  - rewrite Ho in Ho'. injection Ho' as <-.
    assert (Hd' : ~ enabled o') by (unfold enabled in *; congruence).
    destruct (table_split entry_regions (kp_os p) i o Ho) as (rest & T1 & T2). specialize (T2 o').
    unfold entry_regions in T1, T2. rewrite decide_False in T1 by assumption. rewrite decide_False in T2 by assumption.
    split; [| rewrite E3; split; [now apply (nthZ_setZ _ _ _ o) | tauto]].
    constructor; cbn [snd]; rewrite ?E1, ?E2, ?E3; [now rewrite setZ_length | now rewrite T2, Hr, T1 | |].
    + apply (lines_fail _ _ o o'); auto. intros Hin. destruct Hn as [En | [Hneg | [Hc _]]].
      * apply Hd. rewrite En in Hin. exact (lo_live _ _ Hq _ i o Hin Ho eq_refl).
      * apply (lo_pos _ _ Hq) in Hin. lia.
      * erewrite (others_use (kp_os p) i o) in Hc by eauto. discriminate.
    + intros Hg. apply (served_fail _ _ o o'); auto. destruct Hn as [-> | [Hneg | [_ Hf]]]; [| exact Hneg | now apply Hg in Hf].
      now apply (Hs Hg i o Ho).
Qed.

Lemma free_accounted rs0 i m p o :
  accounted_for rs0 (m, p) -> 0 <= i -> nthZ (kp_os p) i = Some o -> enabled o -> hw_live i (mem_regions m) p ->
  exists m' p', ipc_os_free i (m, p) = Ret tt (m', p') /\ accounted_for rs0 (m', p') /\
    nthZ (kp_os p') i = Some (freed o).
Proof.
  intros [Hl Hr Hq Hs] Hi Ho He Hlive. cbn [snd] in *.
  destruct (ipc_os_free_eval i o m p (regions (kp_kern p)) (irqs (kp_kern p)) (kp_os p) (kp_hw p)
              ltac:(now constructor) Hi Hl Ho Hlive) as (m' & p' & hw' & E & [E1 E2 E3 _]).
  exists m', p'. split; [exact E |]. destruct (table_split entry_regions (kp_os p) i o Ho) as (rest & T1 & T2). specialize (T2 (freed o)).
  unfold entry_regions in T1, T2. rewrite decide_True in T1 by exact He. rewrite decide_False in T2 by apply freed_disabled.
  split; [| rewrite E3; now apply (nthZ_setZ _ _ _ o)].
  constructor; cbn [snd]; rewrite ?E1, ?E2, ?E3; [now rewrite setZ_length | | now apply lines_stop | now intros Hg; apply served_stop; auto].
  rewrite T2. rewrite T1 in Hr. cbn [app] in Hr.
  rewrite (remove_one_Permutation (remote_region o) (regions (kp_kern p))) in Hr by (rewrite Hr; set_solver).
  apply Permutation_cons_inv in Hr.
  rewrite (remove_one_Permutation (local_region o) (remove_one _ _)) in Hr by (rewrite Hr; set_solver).
  now apply Permutation_cons_inv in Hr.
Qed.

Lemma life_step_accounted rs0 s l s' : accounted_for rs0 s -> life_step s l s' -> accounted_for rs0 s'.
Proof.
  intros Ha Hs. destruct Hs as [i cfg m p o e m' p' Hi Ho Hd Hh Hsz E | i m p o m' p' Hi Ho He Hl E | m p m' p' E1 E2 E3].
  - destruct (init_accounted rs0 i cfg m p o Ha Hi Ho Hd Hh Hsz) as (e1 & m1 & p1 & o' & E' & H' & _).
    rewrite E in E'. injection E' as <- <- <-. exact H'.
  - destruct (free_accounted rs0 i m p o Ha Hi Ho He Hl) as (m1 & p1 & E' & H' & _).
    rewrite E in E'. injection E' as <- <-. exact H'.
  - destruct Ha as [H1 H2 H3 H4]. constructor; cbn [snd] in *; now rewrite ?E1, ?E2, ?E3.
Qed.

Lemma start_accounted m (p : kplat H K) :
  length (kp_os p) = 4%nat -> (forall i o, nthZ (kp_os p) i = Some o -> ~ enabled o /\ irq_num o <= 0) ->
  irqs (kp_kern p) = [] -> accounted_for (regions (kp_kern p)) (m, p).
Proof.
  intros Hl Hd Hq. constructor; cbn [snd]; [exact Hl | | |].
  - replace (table_regions (kp_os p)) with (@nil (Z * Z)); [reflexivity |].
    assert (Hall : Forall (fun o => ~ enabled o) (kp_os p)).
    { apply Forall_lookup_2. intros j o Ej. apply (Hd (Z.of_nat j)). apply nthZ_Some. split; [lia |]. now rewrite Nat2Z.id. }
    symmetry. now apply no_regions.
  - rewrite Hq. constructor; [constructor | | | |]; try (intros n Hn; now apply not_elem_of_nil in Hn).
    + intros n i o Hn. now apply not_elem_of_nil in Hn.
    + intros i o Ho He. now apply Hd in Ho as [Ho _].
  - intros _ i o Ho. apply Hd in Ho as [Hne Hn]. split; [contradiction | auto].
Qed.

(** C30: the kernel layer holds what its enabled instances use, no more and no
    less.  Start from a table where no instance is enabled.  Over every sequence
    of [ipc_os_init] and [ipc_os_free] calls the driver can make, and whatever the
    kernel services answer: the memory regions held are those held before and the two of
    each enabled instance; the interrupt lines requested are distinct, each the
    number of an enabled instance and of no other entry; when the kernel refuses no
    request, each enabled instance that does not poll has its line.  The next call
    returns: initialisation enables the instance exactly if its result is 0, release
    disables it. *)
Theorem kernel_resources_exact m p es m' p' :
  length (kp_os p) = 4%nat -> (forall i o, nthZ (kp_os p) i = Some o -> ~ enabled o /\ irq_num o <= 0) ->
  irqs (kp_kern p) = [] ->
  exec life_step (m, p) es (m', p') ->
  regions (kp_kern p') ≡ₚ table_regions (kp_os p') ++ regions (kp_kern p) /\
  lines_ok (kp_os p') (irqs (kp_kern p')) /\
  ((forall n, ~ refused (K := K) n) -> lines_served (kp_os p') (irqs (kp_kern p'))) /\
  (forall i cfg o, 0 <= i < 4 -> nthZ (kp_os p') i = Some o -> ~ enabled o -> is_Some (nthZ (kp_hw p') i) ->
     0 <= cfg_shm_size cfg < 2 ^ 31 ->
     exists e m2 p2 o2, ipc_os_init i cfg RX_IPC_SHM_RX (m', p') = Ret e (m2, p2) /\
       nthZ (kp_os p2) i = Some o2 /\ (e = 0 <-> enabled o2)) /\
  (forall i o, 0 <= i -> nthZ (kp_os p') i = Some o -> enabled o -> hw_live i (mem_regions m') p' ->
     exists m2 p2, ipc_os_free i (m', p') = Ret tt (m2, p2) /\ nthZ (kp_os p2) i = Some (freed o)).
Proof.
  intros Hl Hd Hq He.
  assert (Ha : accounted_for (regions (kp_kern p)) (m', p')).
  { eapply (exec_inv life_step); [intros; eapply life_step_accounted; eauto | exact He | now apply start_accounted]. }
  split_and!; try apply Ha.
  - intros i cfg o Hi Ho Hne Hh Hsz.
    destruct (init_accounted _ i cfg m' p' o Ha Hi Ho Hne Hh Hsz) as (e & m2 & p2 & o2 & E & _ & E2).
    exists e, m2, p2, o2. split; [exact E | exact E2].
  - intros i o Hi Ho Hen Hlive.
    destruct (free_accounted _ i m' p' o Ha Hi Ho Hen Hlive) as (m2 & p2 & E & _ & E2). exists m2, p2. auto.
Qed.

End Life.
