(* ===== verification/KernelSpec.v ===== *)
(** * Correctness of the Linux kernel OS layer

    The kernel layer over a platform file discharges the interface
    [PlatformLaws] of the driver, and platform files leave its resources alone;
    the transmit path; initialisation acquires its resources or gives them back. *)

From S2P Require Import Prelude Memory Types Queue QueueSpec World Shm ShmSpec Traffic.
From S2P Require Import Mscm Router.
From S2P Require S32gen1 S32g3xx S32r47.
From S2P Require Import HwSpec KernelOs KernelRes KernelLife.

(** ** The register bus *)

(** Accesses to mapped registers complete. *)
Class BusLaws (K : Type) `{Kernel K} : Type := {
  bus_read_law n a k : exists v k', bus_read n a k = Ret v k';
  bus_write_law n a v k : exists k', bus_write n a v k = Ret tt k'
}.

Section Bus.
Context {H K : Type} `{KS : Kernel K} `{BL : !BusLaws K}.

#[export] Program Instance kplat_env_laws : HwEnvLaws H (kplat H K) := {
  os_part := list ipc_os_priv_instance;
  os_of := kp_os
}.
Next Obligation. reflexivity. Qed.
Next Obligation. reflexivity. Qed.
Next Obligation.
  intros n a p. destruct (bus_read_law n a (kp_kern p)) as (v & k' & E).
  cbn. unfold czoom. rewrite E. eauto.
Qed.
Next Obligation.
  intros n a v p. destruct (bus_write_law n a v (kp_kern p)) as (k' & E).
  cbn. unfold czoom. rewrite E. eauto.
Qed.

End Bus.

(** ** The interface of the driver *)

Section Interface.
Context {H K : Type} `{KS : Kernel K} `{HO : HwOps (kplat H K)} `{HL : !HwOpsLaws (kplat H K)}.

(** Interrupt control leaves the static data of the OS layer alone. *)
Class HwKeepsOs : Prop := hw_keeps_os p p' : hw_os_of p' = hw_os_of p -> kp_os p' = kp_os p.
Context `{HK : !HwKeepsOs}.

Definition os_base (f : ipc_os_priv_instance -> Z) (i : Z) (p : kplat H K) : Z :=
  from_option f NULL (nthZ (kp_os p) i).

Definition kernel_live (i : Z) (regs : list (Z * Z)) (p : kplat H K) : Prop :=
  hw_live i regs p /\ is_Some (nthZ (kp_os p) i).

Lemma kernel_base_eval f i m p :
  is_Some (nthZ (kp_os p) i) ->
  (let* o := get_os i in cret (f o)) (m, p) = Ret (os_base f i p) (m, p).
Proof.
  intros [o E]. unfold get_os, os_base, cbind. cbn [snd]. now rewrite E.
Qed.

Lemma kernel_control op i m p p' :
  kernel_live i (mem_regions m) p ->
  op = Ret tt (m, p') /\ hw_live i (mem_regions m) p' /\ hw_os_of p' = hw_os_of p ->
  op = Ret tt (m, p') /\ kernel_live i (mem_regions m) p' /\
  forall j, os_base local_virt_shm j p' = os_base local_virt_shm j p /\
            os_base remote_virt_shm j p' = os_base remote_virt_shm j p.
Proof.
  intros [_ Ho] (E & Hl & Eo). apply hw_keeps_os in Eo.
  unfold kernel_live, os_base. rewrite Eo. auto.
Qed.

#[export] Program Instance kernel_platform_laws : PlatformLaws (kplat H K) := {
  plat_live := kernel_live;
  local_base := os_base local_virt_shm;
  remote_base := os_base remote_virt_shm
}.
Next Obligation. intros i m p [_ Ho]. now apply kernel_base_eval. Qed.
Next Obligation. intros i m p [_ Ho]. now apply kernel_base_eval. Qed.
Next Obligation.
  intros i m p Hl. destruct (hw_enable_law i m p (proj1 Hl)) as (p' & Hp).
  exists p'. eapply kernel_control; eauto.
Qed.
Next Obligation.
  intros i m p Hl. destruct (hw_disable_law i m p (proj1 Hl)) as (p' & Hp).
  exists p'. eapply kernel_control; eauto.
Qed.
Next Obligation.
  intros i m p Hl. destruct (hw_notify_law i m p (proj1 Hl)) as (p' & Hp).
  exists p'. eapply kernel_control; eauto.
Qed.

End Interface.
Arguments HwKeepsOs H K {HO HL}.

(** ** The kernel build on S32gen1 *)

Section Gen1.
Context {K : Type} `{KS : Kernel K} `{BL : !BusLaws K}.
Abbreviation P := (kplat ipc_hw_priv_type K).
#[local] Existing Instance S32gen1.hw_ops.

#[export] Instance gen1_keeps_os : @HwKeepsOs ipc_hw_priv_type K S32gen1.hw_ops gen1_laws.
Proof. intros p p' E. exact E. Qed.

(** C29: the whole transmit path of the kernel build on S32gen1: when the
    channel queue has room, [ipc_shm_tx] appends the descriptor and ends by
    writing 1 to the generation register of the configured remote core and
    interrupt, and to no other register. *)
Theorem tx_raises_remote_irq (w : world P) i ch p c k j pool size h :
  operational w i p -> has_managed p (u8 ch) c -> mchan_wf (w_mem w) c ->
  pools_apart local_pool_addr (active_pools c) ->
  0 <= k < num_pools c -> nthZ (pools c) k = Some pool -> 0 <= j < num_bufs pool -> size <> 0 ->
  Z.of_nat (length (contents (w_mem w) (tx_link (bd_queue c)))) < elem_num (bd_queue c) - 1 ->
  nthZ (kp_hw (w_plat w)) i = Some h -> in_bounds S32gen1.soc h ->
  mapped (w_mem w) (ipc_mscm h) (rs_size S32gen1.soc) = true -> mscm_tx_irq h <> IPC_IRQ_NONE ->
  exists m' k',
    ipc_shm_tx i ch (local_buf pool j) size w
      = Ret 0 (World m' (w_priv w) (KPlat (kp_hw (w_plat w)) (kp_os (w_plat w)) k')) /\
    contents m' (tx_link (bd_queue c))
      = contents (w_mem w) (tx_link (bd_queue c)) ++ [bd_encode (BD k j size)] /\
    bus_write 4 (ipc_mscm h + (0x204 + 0x20 * remote_core h + 8 * msi_tx_irq h)) 1
      (kp_kern (w_plat w)) = Ret tt k'.
Proof.
  intros Ho Hm Hc Ha Hk Hp Hj Hs Hroom Hh Hb Hmap Hn.
  rewrite (ipc_shm_tx_eval w i ch p c k j pool size) by assumption.
  destruct (push_bd_room w (bd_queue c) (BD k j size) (mw_queue _ _ Hc) (mw_elem _ _ Hc) Hroom)
    as (m' & E & C & _ & W & F).
  rewrite (cbind_Ret _ _ _ _ _ E). cbn [Z.eqb negb].
  set (r := ipc_mscm h + _).
  assert (Hr : mapped m' r 4 = true).
  { replace (mapped m' r 4) with (mapped (w_mem w) r 4) by (unfold mapped; now rewrite (proj1 F)).
    assert (HT := ib_tx _ _ Hb). assert (HR := ib_remote _ _ Hb).
    cbn [rs_layout S32gen1.soc S32gen1.layout irq_count cp_count] in HT, HR.
    eapply mapped_sub; [exact Hmap | |]; unfold r; [lia |].
    change (rs_size S32gen1.soc) with 2656. lia. }
  destruct (bus_write_law 4 r 1 (kp_kern (w_plat w))) as (k' & Ek).
  exists m', k'. split_and!; [| exact C | exact Ek].
  erewrite (cbind_Ret _ _ _ _ (World m' (w_priv w) (KPlat (kp_hw (w_plat w)) (kp_os (w_plat w)) k')));
    [reflexivity |].
  unfold on_plat, czoom. cbn [with_mem w_mem w_plat].
  change (World.ipc_hw_irq_notify i) with (router_irq_notify (P := P) S32gen1.soc i).
  rewrite (router_notify_reg (HL := kplat_env_laws) _ i h (kp_os (w_plat w))) by (auto; now split).
  replace (_ + 4) with r by (unfold r; cbn; lia).
  unfold writel, io_write. cbn [fst snd]. change (Z.of_nat 4) with 4. rewrite Hr.
  cbn. unfold czoom. change (u32 1) with 1. now rewrite Ek.
Qed.

End Gen1.

(** ** Resources *)

(** Register accesses concern neither regions nor lines. *)
Class BusKeeps (K : Type) `{KS : Kernel K} `{KL : !KernelLaws K} : Type := {
  bus_read_keeps n a k : exists v k', bus_read n a k = Ret v k' /\ regions k' = regions k /\ irqs k' = irqs k;
  bus_write_keeps n a v k : exists k', bus_write n a v k = Ret tt k' /\ regions k' = regions k /\ irqs k' = irqs k
}.

Section Resources.
Context {H K : Type} `{KS : Kernel K} `{KL : !KernelLaws K} `{BK : !BusKeeps K}.

Program Definition kplat_resource_laws : HwEnvLaws H (kplat H K) := {|
  os_part := list ipc_os_priv_instance * list (Z * Z) * list Z;
  os_of p := (kp_os p, regions (kp_kern p), irqs (kp_kern p))
|}.
Next Obligation. reflexivity. Qed.
Next Obligation. reflexivity. Qed.
Next Obligation.
  intros n a p. destruct (bus_read_keeps n a (kp_kern p)) as (v & k' & E & E1 & E2).
  cbn. unfold czoom. rewrite E. eexists _, _. split; [reflexivity |]. cbn. now rewrite E1, E2.
Qed.
Next Obligation.
  intros n a v p. destruct (bus_write_keeps n a v (kp_kern p)) as (k' & E & E1 & E2).
  cbn. unfold czoom. rewrite E. eexists. split; [reflexivity |]. cbn. now rewrite E1, E2.
Qed.

End Resources.

(** The platform files keep the resources of the layer. *)
Section PlatformResources.
Context {K : Type} `{KS : Kernel K} `{KL : !KernelLaws K} `{BK : !BusKeeps K}.

Ltac keeps_all := constructor; [intros p p' E; injection E; auto | intros i regs hw os os' k Hl; exact Hl].

Lemma gen1_keeps_resources :
  @HwKeepsResources ipc_hw_priv_type K KS S32gen1.hw_ops KL (gen1_laws (HL := kplat_resource_laws)).
Proof. keeps_all. Qed.
Lemma g3xx_keeps_resources :
  @HwKeepsResources ipc_hw_priv_type K KS S32g3xx.hw_ops KL (g3xx_laws (HL := kplat_resource_laws)).
Proof. keeps_all. Qed.
Lemma r47_keeps_resources :
  @HwKeepsResources S32r47.ipc_hw_priv_type K KS S32r47.hw_ops KL (r47_laws (HL := kplat_resource_laws)).
Proof. keeps_all. Qed.

End PlatformResources.

(** ** Properties *)

Section Claims.
Context {H K : Type} `{KS : Kernel K} `{HO : HwOps (kplat H K)}.

(** Initialisation of the kernel layer is all or nothing for the memory regions
    it claims.  Whatever the kernel services answer, [ipc_os_init]
    returns; with result 0 both regions are held and the private data carries
    the configuration, non-null mappings and the state ENABLED; with any other
    result (which is a non-zero int8_t) regions and lines are those held before. *)
Theorem ipc_os_init_all_or_nothing `{KL : !KernelLaws K} (rx_of : list H -> Z -> Z) i cfg m
    (p : kplat H K) :
  (forall i m (p : kplat H K),
     is_Some (nthZ (kp_hw p) i) -> hw_get_rx_irq i (m, p) = Ret (rx_of (kp_hw p) i) (m, p)) ->
  0 <= i < 4 -> length (kp_os p) = 4%nat -> is_Some (nthZ (kp_hw p) i) ->
  exists e m' p', ipc_os_init i cfg RX_IPC_SHM_RX (m, p) = Ret e (m', p') /\
    init_result cfg i (regions (kp_kern p)) (irqs (kp_kern p)) (kp_os p) (kp_hw p) e p'.
Proof.
  intros Hrx Hi Hl Hh. eapply (ipc_os_init_triple rx_of Hrx i cfg); auto. now constructor.
Qed.

End Claims.
