(* ===== verification/XenOs.v ===== *)
(** * Xen guest OS layer (src/os_kernel/ipc-xen.c)

    The interrupt functions are stubs in the source, so that only polling
    works; memory mapping and book-keeping are those of the kernel layer. *)

From S2P Require Import Prelude Memory Types World KernelOs.

Record ipc_os_priv_instance : Type := XenPriv {
  x_shm_size : Z;
  x_local_phys_shm : Z;
  x_remote_phys_shm : Z;
  x_local_virt_shm : Z;
  x_remote_virt_shm : Z;
  x_irq_num : Z;
  x_state : Z
}.

Definition xen_priv_zero : ipc_os_priv_instance := XenPriv 0 0 0 0 0 0 0.

Record xplat (K : Type) : Type := XPlat {
  xp_id : list ipc_os_priv_instance;
  xp_rx_cb : rx_fn;
  xp_irq_num_init : list Z;
  xp_kern : K
}.
Arguments XPlat {K} xp_id xp_rx_cb xp_irq_num_init xp_kern.
Arguments xp_id {K} x.
Arguments xp_rx_cb {K} x.
Arguments xp_irq_num_init {K} x.
Arguments xp_kern {K} x.

Section Xen.
Context {K : Type} `{KS : Kernel K}.
Abbreviation P := (xplat K).

Definition on_kern {A} : M K A -> M (memory * P) A :=
  czoom (fun s => xp_kern s.2)
    (fun k s => (s.1, XPlat (xp_id s.2) (xp_rx_cb s.2) (xp_irq_num_init s.2) k)).
Definition on_mem_kern {A} : M (memory * K) A -> M (memory * P) A :=
  czoom (fun s => (s.1, xp_kern s.2))
    (fun mk s => (mk.1, XPlat (xp_id s.2) (xp_rx_cb s.2) (xp_irq_num_init s.2) mk.2)).

(** priv.id[instance] *)
Definition get_id (instance : Z) : M (memory * P) ipc_os_priv_instance := fun s =>
  match nthZ (xp_id s.2) instance with
  | Some o => Ret o s
  | None => Fault
  end.
Definition upd_id (instance : Z) (f : ipc_os_priv_instance -> ipc_os_priv_instance) :
    M (memory * P) unit := fun s =>
  match nthZ (xp_id s.2) instance with
  | Some o => Ret tt (s.1, XPlat (setZ (xp_id s.2) instance (f o)) (xp_rx_cb s.2)
                              (xp_irq_num_init s.2) (xp_kern s.2))
  | None => Fault
  end.

(** priv.irq_num_init[instance], priv.rx_cb *)
Definition get_irq_init (instance : Z) : M (memory * P) Z := fun s =>
  match nthZ (xp_irq_num_init s.2) instance with
  | Some n => Ret n s
  | None => Fault
  end.
Definition set_irq_init (instance n : Z) : M (memory * P) unit := fun s =>
  match nthZ (xp_irq_num_init s.2) instance with
  | Some _ => Ret tt (s.1, XPlat (xp_id s.2) (xp_rx_cb s.2)
                              (setZ (xp_irq_num_init s.2) instance n) (xp_kern s.2))
  | None => Fault
  end.
Definition set_rx_cb (cb : rx_fn) : M (memory * P) unit := fun s =>
  Ret tt (s.1, XPlat (xp_id s.2) cb (xp_irq_num_init s.2) (xp_kern s.2)).

Definition set_local_virt (a : Z) (o : ipc_os_priv_instance) : ipc_os_priv_instance :=
  XenPriv (x_shm_size o) (x_local_phys_shm o) (x_remote_phys_shm o) a (x_remote_virt_shm o)
    (x_irq_num o) (x_state o).
Definition set_remote_virt (a : Z) (o : ipc_os_priv_instance) : ipc_os_priv_instance :=
  XenPriv (x_shm_size o) (x_local_phys_shm o) (x_remote_phys_shm o) (x_local_virt_shm o) a
    (x_irq_num o) (x_state o).
Definition set_params (size lp rp : Z) (o : ipc_os_priv_instance) : ipc_os_priv_instance :=
  XenPriv size lp rp (x_local_virt_shm o) (x_remote_virt_shm o) (x_irq_num o) (x_state o).
Definition set_irq (n : Z) (o : ipc_os_priv_instance) : ipc_os_priv_instance :=
  XenPriv (x_shm_size o) (x_local_phys_shm o) (x_remote_phys_shm o) (x_local_virt_shm o)
    (x_remote_virt_shm o) n (x_state o).
Definition set_state (st : Z) (o : ipc_os_priv_instance) : ipc_os_priv_instance :=
  XenPriv (x_shm_size o) (x_local_phys_shm o) (x_remote_phys_shm o) (x_local_virt_shm o)
    (x_remote_virt_shm o) (x_irq_num o) st.

(** ** Interrupt stubs *)

Definition ipc_hw_init (instance : Z) (cfg : ipc_shm_cfg) : M (memory * P) Z := cret 0.
Definition ipc_hw_free (instance : Z) : M (memory * P) unit := cret tt.
Definition ipc_hw_get_rx_irq (instance : Z) : M (memory * P) Z := cret 0.
Definition ipc_hw_irq_enable (instance : Z) : M (memory * P) unit := cret tt.
Definition ipc_hw_irq_disable (instance : Z) : M (memory * P) unit := cret tt.
Definition ipc_hw_irq_notify (instance : Z) : M (memory * P) unit := cret tt.
Definition ipc_hw_irq_clear (instance : Z) : M (memory * P) unit := cret tt.

Definition os_active (o : ipc_os_priv_instance) : bool :=
  negb ((x_state o =? IPC_SHM_INSTANCE_DISABLED) || (x_irq_num o =? IPC_IRQ_NONE)).

Definition call_rx (rx : Z -> Z -> M (world P) Z) (cb : rx_fn) (instance budget : Z) :
    M (world P) Z :=
  match cb with
  | RX_NULL => cfault
  | RX_IPC_SHM_RX => rx instance budget
  end.

Definition ipc_shm_softirq (rx : Z -> Z -> M (world P) Z) : M (world P) unit :=
  let* _ := cfor (R := unit) (Z.to_nat IPC_SHM_MAX_INSTANCES) 0 (fun i =>
    let* o := on_plat (get_id i) in
    if negb (os_active o) then cret (inl tt) else
    let* cb := cgets (fun w => xp_rx_cb (w_plat w)) in
    let* work := call_rx rx cb i IPC_SOFTIRQ_BUDGET in
    (if IPC_SOFTIRQ_BUDGET <=? u64 (i32 work)
     then on_plat (on_kern tasklet_schedule)
     else on_plat (ipc_hw_irq_enable i)) ;;;
    cret (inl tt)) in
  cret tt.

Definition ipc_shm_hardirq : M (memory * P) unit :=
  let* _ := cfor (R := unit) (Z.to_nat IPC_SHM_MAX_INSTANCES) 0 (fun i =>
    let* o := get_id i in
    if negb (os_active o) then cret (inl tt) else
    ipc_hw_irq_disable i ;;;
    ipc_hw_irq_clear i ;;;
    cret (inl tt)) in
  on_kern tasklet_schedule.

(** ** Initialisation and release *)

Definition err_release_local_region (cfg : ipc_shm_cfg) (err : Z) : M (memory * P) Z :=
  on_kern (release_mem_region (cfg_local_shm_addr cfg) (cfg_shm_size cfg)) ;;;
  cret (i8 err).
Definition err_unmap_local_shm (cfg : ipc_shm_cfg) (err : Z) : M (memory * P) Z :=
  on_mem_kern (iounmap (cfg_local_shm_addr cfg)) ;;;
  err_release_local_region cfg err.
Definition err_release_remote_region (cfg : ipc_shm_cfg) (err : Z) : M (memory * P) Z :=
  on_kern (release_mem_region (cfg_remote_shm_addr cfg) (cfg_shm_size cfg)) ;;;
  err_unmap_local_shm cfg err.

(** Is the interrupt number of [instance] among the initialised ones? *)
Definition duplicate_irq (instance : Z) : M (memory * P) bool :=
  let* r := cfor (R := unit) (Z.to_nat IPC_SHM_MAX_INSTANCES) 0 (fun i =>
    let* o := get_id instance in
    let* n := get_irq_init i in
    if x_irq_num o =? n then cret (inr tt) else cret (inl tt)) in
  cret (match r with inr _ => true | inl _ => false end).

Definition ipc_os_init (instance : Z) (cfg : ipc_shm_cfg) (rx_cb : rx_fn) : M (memory * P) Z :=
  match rx_cb with
  | RX_NULL => cret (- EINVAL)
  | _ =>
    if (IPC_SHM_MAX_INSTANCES <? instance) || (instance <? 0) then cret (- EINVAL) else
    let* res := on_kern (request_mem_region (cfg_local_shm_addr cfg) (cfg_shm_size cfg)) in
    if negb res then cret (- EADDRINUSE) else
    let* a := on_mem_kern (ioremap (cfg_local_shm_addr cfg) (cfg_shm_size cfg)) in
    upd_id instance (set_local_virt a) ;;;
    if a =? NULL then err_release_local_region cfg (- ENOMEM) else
    let* res := on_kern (request_mem_region (cfg_remote_shm_addr cfg) (cfg_shm_size cfg)) in
    if negb res then err_unmap_local_shm cfg (- EADDRINUSE) else
    let* a := on_mem_kern (ioremap (cfg_remote_shm_addr cfg) (cfg_shm_size cfg)) in
    upd_id instance (set_remote_virt a) ;;;
    if a =? NULL then err_release_remote_region cfg (- ENOMEM) else
    upd_id instance (set_params (i32 (cfg_shm_size cfg)) (cfg_local_shm_addr cfg)
                       (cfg_remote_shm_addr cfg)) ;;;
    set_rx_cb rx_cb ;;;
    (if cfg_inter_core_rx_irq cfg =? IPC_IRQ_NONE
     then upd_id instance (set_irq IPC_IRQ_NONE) else cret tt) ;;;
    let* dup := duplicate_irq instance in
    if dup then
      upd_id instance (set_state IPC_SHM_INSTANCE_ENABLED) ;;;
      cret 0
    else
      let* o := get_id instance in
      set_irq_init instance (x_irq_num o) ;;;
      upd_id instance (set_state IPC_SHM_INSTANCE_ENABLED) ;;;
      cret 0
  end.

Definition ipc_os_free (instance : Z) : M (memory * P) unit :=
  upd_id instance (set_state IPC_SHM_INSTANCE_DISABLED) ;;;
  ipc_hw_irq_disable instance ;;;
  on_kern tasklet_kill ;;;
  let* n := get_irq_init instance in
  (if negb (n =? 0) then
     let* o := get_id instance in
     on_kern (free_irq (x_irq_num o)) ;;;
     set_irq_init instance 0
   else cret tt) ;;;
  let* o := get_id instance in
  on_mem_kern (iounmap (x_remote_virt_shm o)) ;;;
  on_kern (release_mem_region (x_remote_phys_shm o) (u64 (x_shm_size o))) ;;;
  on_mem_kern (iounmap (x_local_virt_shm o)) ;;;
  on_kern (release_mem_region (x_local_phys_shm o) (u64 (x_shm_size o))).

Definition ipc_os_get_local_shm (instance : Z) : M (memory * P) Z :=
  let* o := get_id instance in cret (x_local_virt_shm o).
Definition ipc_os_get_remote_shm (instance : Z) : M (memory * P) Z :=
  let* o := get_id instance in cret (x_remote_virt_shm o).

Definition ipc_os_map_intc : M (memory * P) Z := cret NULL.
Definition ipc_os_unmap_intc (addr : Z) : M (memory * P) unit := on_mem_kern (iounmap addr).

Definition ipc_os_poll_channels (rx : Z -> Z -> M (world P) Z) (instance : Z) :
    M (world P) Z :=
  let* o := on_plat (get_id instance) in
  if x_irq_num o =? IPC_IRQ_NONE then
    let* cb := cgets (fun w => xp_rx_cb (w_plat w)) in
    match cb with
    | RX_NULL => cret (- EINVAL)
    | cb => let* n := call_rx rx cb instance IPC_SOFTIRQ_BUDGET in cret (i8 n)
    end
  else cret (- EOPNOTSUPP).

Definition shm_mod_init : M (memory * P) Z := cret 0.
Definition shm_mod_exit : M (memory * P) unit := cret tt.

#[export] Instance xen_platform : Platform P := {
  World.ipc_hw_init := ipc_hw_init;
  World.ipc_hw_free := ipc_hw_free;
  World.ipc_hw_irq_enable := ipc_hw_irq_enable;
  World.ipc_hw_irq_disable := ipc_hw_irq_disable;
  World.ipc_hw_irq_notify := ipc_hw_irq_notify;
  World.ipc_os_init := ipc_os_init;
  World.ipc_os_free := ipc_os_free;
  World.ipc_os_get_local_shm := ipc_os_get_local_shm;
  World.ipc_os_get_remote_shm := ipc_os_get_remote_shm;
  World.ipc_os_poll_channels := ipc_os_poll_channels
}.

End Xen.
