(* ===== verification/UioModule.v ===== *)
(** * UIO kernel module (src/os_kernel/ipc-uio.c, src/os_kernel/ipc-uio.h)

    The module gives the user-space build of the driver its interrupts (a UIO
    device per instance) and its mappings of shared memory (a character
    device).  The platform file of src/hw is the parameter [HwOps], the kernel
    interfaces it registers with are [UioKernel].  Opening and releasing a UIO
    device are programs of atomic operations on its counter ([refcnt_prog]), which
    [UioSpec] interleaves and [ipc_shm_uio_open] and [ipc_shm_uio_release] run. *)

From S2P Require Import Prelude Memory Types World Mscm KernelOs.

Definition IPC_UIO_DISABLE_CMD : Z := 0x0001.
Definition IPC_UIO_ENABLE_CMD : Z := 0x0002.
Definition IPC_UIO_TRIGGER_CMD : Z := 0x0003.

(** The ioctl commands; the last constructor is any other number. *)
Inductive ioc_cmd : Type :=
| IPC_IOC_INIT
| IPC_IOC_FREE
| IPC_IOC_MMAP_LOCAL
| IPC_IOC_MMAP_REMOTE
| IPC_IOC_OTHER (v : Z).

#[export] Instance ioc_cmd_eq_dec : EqDecision ioc_cmd.
Proof. solve_decision. Defined.

Record ipc_uio_cdev_data : Type := CdevData {
  cd_instance : Z;   (* uint8_t *)
  cd_cfg : ipc_shm_cfg
}.

Class UioKernel (K : Type) : Type := {
  platform_get_irq : Z -> M K Z;
  uio_register_device : Z -> Z -> M K Z;    (* instance, interrupt number *)
  uio_unregister_device : Z -> M K unit;
  devm_ioremap_resource : M (memory * K) Z; (* NULL or an error pointer on failure *)
  is_err_or_null : Z -> bool;
  alloc_chrdev_region : M K (Z * Z);        (* error, major *)
  unregister_chrdev_region : Z -> M K unit;
  cdev_add : Z -> M K Z;
  cdev_del : M K unit;
  class_create : M K Z;
  class_destroy : Z -> M K unit;
  device_create : Z -> Z -> M K Z;
  device_destroy : Z -> Z -> M K unit;
  remap_pfn_range : Z -> Z -> Z -> M K Z;   (* user address, page frame, size *)
  uio_bus_read : nat -> Z -> M K Z;
  uio_bus_write : nat -> Z -> Z -> M K unit
}.

(** ** State *)

Record ipc_uio_priv_type : Type := UioPriv {
  uio_state : Z;
  uio_irq_num : Z;
  uio_refcnt : Z;
  uio_info_irq : Z;            (* info.irq of the registered device *)
  uio_data : ipc_uio_cdev_data
}.

Record ipc_pdev_priv_type : Type := Pdev {
  pd_major : Z;
  pd_irq_num_init : list Z;
  pd_cmd : ioc_cmd;
  pd_phys_addr : Z;
  pd_reg : Z;
  pd_class : Z;
  pd_uio_id : list ipc_uio_priv_type;
  pd_mmap_mutex : bool         (* mmap_device_mutex held *)
}.

Record uplat (H K : Type) : Type := UPlat {
  up_hw : list H;
  up_pdev : ipc_pdev_priv_type;
  up_kern : K
}.
Arguments UPlat {H K} up_hw up_pdev up_kern.
Arguments up_hw {H K} u.
Arguments up_pdev {H K} u.
Arguments up_kern {H K} u.

Definition PAGE_SHIFT : Z := 12.
Definition PAGE_SIZE : Z := 4096.

(** ** Programs on the counter of a device

    The functions that share the counter are written as programs of atomic
    accesses to it, so that calls of several processes can be interleaved between
    them; the answer is that of the test, [false] for a mere increment. *)

Inductive refcnt_op : Type := DecAndTest | Inc.

Inductive refcnt_prog : Type :=
| RDone (r : Z)
| RAtomic (o : refcnt_op) (k : bool -> refcnt_prog).

Definition ipc_shm_uio_open_steps : refcnt_prog :=
  RAtomic DecAndTest (fun free =>
    if negb free then RAtomic Inc (fun _ => RDone (- EBUSY)) else RDone 0).

Definition ipc_shm_uio_release_steps : refcnt_prog := RAtomic Inc (fun _ => RDone 0).

Section Uio.
Context {H K : Type} `{UK : UioKernel K}.
Abbreviation P := (uplat H K).
Implicit Types (d : ipc_pdev_priv_type).

Definition on_kern {A} : M K A -> M (memory * P) A :=
  czoom (fun s => up_kern s.2) (fun k s => (s.1, UPlat (up_hw s.2) (up_pdev s.2) k)).
Definition on_mem_kern {A} : M (memory * K) A -> M (memory * P) A :=
  czoom (fun s => (s.1, up_kern s.2))
        (fun mk s => (mk.1, UPlat (up_hw s.2) (up_pdev s.2) mk.2)).

Definition get_pdev : M (memory * P) ipc_pdev_priv_type := cgets (fun s => up_pdev s.2).
Definition upd_pdev (f : ipc_pdev_priv_type -> ipc_pdev_priv_type) : M (memory * P) unit :=
  cmodify (fun s => (s.1, UPlat (up_hw s.2) (f (up_pdev s.2)) (up_kern s.2))).

(** ipc_pdev_priv.uio_id[instance] *)
Definition get_uio (instance : Z) : M (memory * P) ipc_uio_priv_type :=
  let* d := get_pdev in copt (nthZ (pd_uio_id d) instance).
Definition upd_uio (instance : Z) (f : ipc_uio_priv_type -> ipc_uio_priv_type) :
    M (memory * P) unit :=
  let* u := get_uio instance in
  upd_pdev (fun d => Pdev (pd_major d) (pd_irq_num_init d) (pd_cmd d) (pd_phys_addr d) (pd_reg d)
                       (pd_class d) (setZ (pd_uio_id d) instance (f u)) (pd_mmap_mutex d)).

(** ipc_pdev_priv.irq_num_init[instance] *)
Definition get_irq_init (instance : Z) : M (memory * P) Z :=
  let* d := get_pdev in copt (nthZ (pd_irq_num_init d) instance).
Definition set_irq_init (instance n : Z) : M (memory * P) unit :=
  let* _ := get_irq_init instance in
  upd_pdev (fun d => Pdev (pd_major d) (setZ (pd_irq_num_init d) instance n) (pd_cmd d)
                       (pd_phys_addr d) (pd_reg d) (pd_class d) (pd_uio_id d) (pd_mmap_mutex d)).

Definition set_cmd (c : ioc_cmd) d : ipc_pdev_priv_type :=
  Pdev (pd_major d) (pd_irq_num_init d) c (pd_phys_addr d) (pd_reg d) (pd_class d) (pd_uio_id d)
    (pd_mmap_mutex d).
Definition set_phys_addr (a : Z) d : ipc_pdev_priv_type :=
  Pdev (pd_major d) (pd_irq_num_init d) (pd_cmd d) a (pd_reg d) (pd_class d) (pd_uio_id d)
    (pd_mmap_mutex d).
Definition set_reg (a : Z) d : ipc_pdev_priv_type :=
  Pdev (pd_major d) (pd_irq_num_init d) (pd_cmd d) (pd_phys_addr d) a (pd_class d) (pd_uio_id d)
    (pd_mmap_mutex d).
Definition set_major (n : Z) d : ipc_pdev_priv_type :=
  Pdev n (pd_irq_num_init d) (pd_cmd d) (pd_phys_addr d) (pd_reg d) (pd_class d) (pd_uio_id d)
    (pd_mmap_mutex d).
Definition set_class (c : Z) d : ipc_pdev_priv_type :=
  Pdev (pd_major d) (pd_irq_num_init d) (pd_cmd d) (pd_phys_addr d) (pd_reg d) c (pd_uio_id d)
    (pd_mmap_mutex d).
Definition set_mutex (b : bool) d : ipc_pdev_priv_type :=
  Pdev (pd_major d) (pd_irq_num_init d) (pd_cmd d) (pd_phys_addr d) (pd_reg d) (pd_class d)
    (pd_uio_id d) b.

Definition set_refcnt (n : Z) (u : ipc_uio_priv_type) : ipc_uio_priv_type :=
  UioPriv (uio_state u) (uio_irq_num u) n (uio_info_irq u) (uio_data u).
Definition set_uio_state (st : Z) (u : ipc_uio_priv_type) : ipc_uio_priv_type :=
  UioPriv st (uio_irq_num u) (uio_refcnt u) (uio_info_irq u) (uio_data u).
Definition set_uio_irq (n : Z) (u : ipc_uio_priv_type) : ipc_uio_priv_type :=
  UioPriv (uio_state u) n (uio_refcnt u) (uio_info_irq u) (uio_data u).
Definition set_info_irq (n : Z) (u : ipc_uio_priv_type) : ipc_uio_priv_type :=
  UioPriv (uio_state u) (uio_irq_num u) (uio_refcnt u) n (uio_data u).
Definition set_data (c : ipc_uio_cdev_data) (u : ipc_uio_priv_type) : ipc_uio_priv_type :=
  UioPriv (uio_state u) (uio_irq_num u) (uio_refcnt u) (uio_info_irq u) c.

(** ** Register mapping for the platform file *)

Definition ipc_os_map_intc : M (memory * P) Z :=
  let* d := get_pdev in cret (pd_reg d).
Definition ipc_os_unmap_intc (addr : Z) : M (memory * P) unit := cret tt.

#[export] Instance uplat_env : HwEnv H P := {
  hw_privs := up_hw;
  set_hw_privs l p := UPlat l (up_pdev p) (up_kern p);
  mmio_read n a := czoom up_kern (fun k p => UPlat (up_hw p) (up_pdev p) k) (uio_bus_read n a);
  mmio_write n a v :=
    czoom up_kern (fun k p => UPlat (up_hw p) (up_pdev p) k) (uio_bus_write n a v);
  Mscm.ipc_os_map_intc := ipc_os_map_intc;
  Mscm.ipc_os_unmap_intc := ipc_os_unmap_intc
}.

Context `{HO : HwOps P}.

(** ** UIO device operations; [dev] is the index behind info->priv *)

Definition atomic_dec_and_test (dev : Z) : M (memory * P) bool :=
  let* u := get_uio dev in
  upd_uio dev (set_refcnt (uio_refcnt u - 1)) ;;;
  cret (uio_refcnt u - 1 =? 0).
Definition atomic_inc (dev : Z) : M (memory * P) unit :=
  let* u := get_uio dev in
  upd_uio dev (set_refcnt (uio_refcnt u + 1)).

Definition refcnt_access (dev : Z) (o : refcnt_op) : M (memory * P) bool :=
  match o with
  | DecAndTest => atomic_dec_and_test dev
  | Inc => atomic_inc dev ;;; cret false
  end.

(** A call from start to return. *)
Fixpoint run_refcnt (dev : Z) (p : refcnt_prog) : M (memory * P) Z :=
  match p with
  | RDone r => cret r
  | RAtomic o k => let* b := refcnt_access dev o in run_refcnt dev (k b)
  end.

Definition ipc_shm_uio_open (dev : Z) : M (memory * P) Z := run_refcnt dev ipc_shm_uio_open_steps.
Definition ipc_shm_uio_release (dev : Z) : M (memory * P) Z := run_refcnt dev ipc_shm_uio_release_steps.

Definition ipc_shm_uio_irqcontrol (dev cmd : Z) : M (memory * P) Z :=
  let* u := get_uio dev in
  let instance := cd_instance (uio_data u) in
  (if cmd =? IPC_UIO_DISABLE_CMD then hw_irq_disable instance else
   if cmd =? IPC_UIO_ENABLE_CMD then hw_irq_enable instance else
   if cmd =? IPC_UIO_TRIGGER_CMD then hw_irq_notify instance else cret tt) ;;;
  cret 0.

(** hardirq handler *)
Definition ipc_shm_uio_handler (dev : Z) : M (memory * P) unit :=
  let* u := get_uio dev in
  let instance := cd_instance (uio_data u) in
  hw_irq_disable instance ;;;
  hw_irq_clear instance.

(** ** Instances *)

(** Is the number among those of the initialised instances? *)
Definition irq_taken (irq : Z) : M (memory * P) bool :=
  let* r := cfor (R := unit) (Z.to_nat IPC_SHM_MAX_INSTANCES) 0 (fun i =>
    let* n := get_irq_init i in
    if irq =? n then cret (inr tt) else cret (inl tt)) in
  cret (match r with inr _ => true | inl _ => false end).

Definition ipc_uio_init (data : ipc_uio_cdev_data) : M (memory * P) Z :=
  let instance := cd_instance data in
  let cfg := cd_cfg data in
  let* _ := get_uio instance in
  let* err := hw_init instance cfg in
  if negb (err =? 0) then cret err else
  if cfg_inter_core_rx_irq cfg =? IPC_IRQ_NONE then cret 0 else
  (* get Linux IRQ number *)
  let* rx := hw_get_rx_irq instance in
  let* irq := on_kern (platform_get_irq rx) in
  if irq <? 0 then cret irq else
  (* check duplicate irq number *)
  let* taken := irq_taken irq in
  if taken then cret (- EFAULT) else
  set_irq_init instance irq ;;;
  (* Register UIO device *)
  upd_uio instance (set_refcnt 1) ;;;
  let* n := get_irq_init instance in
  upd_uio instance (set_info_irq n) ;;;
  let* err := on_kern (uio_register_device instance n) in
  if negb (err =? 0) then cret err else
  upd_uio instance (set_uio_state IPC_SHM_INSTANCE_ENABLED) ;;;
  cret 0.

Definition ipc_uio_free (data : ipc_uio_cdev_data) : M (memory * P) Z :=
  let inst := cd_instance data in
  if inst <? IPC_SHM_MAX_INSTANCES then
    let* u := get_uio inst in
    if negb (uio_state u =? IPC_SHM_INSTANCE_ENABLED) then cret (- EINVAL) else
    let* n := get_irq_init inst in
    if n =? IPC_IRQ_NONE then cret (- EINVAL) else
    on_kern (uio_unregister_device inst) ;;;
    set_irq_init inst IPC_IRQ_NONE ;;;
    cret 0
  else cret (- EINVAL).

(** ** Character device *)

Definition ipc_cdev_open : M (memory * P) Z :=
  let* d := get_pdev in
  if pd_mmap_mutex d then cret (- EBUSY) else
  upd_pdev (set_mutex true) ;;;
  cret 0.

Definition ipc_cdev_release : M (memory * P) Z :=
  upd_pdev (set_mutex false) ;;;
  cret 0.

(** What [arg] is: an address, or a pointer to data that [copy_from_user] may
    fail to read. *)
Definition ipc_cdev_ioctl (cmd : ioc_cmd) (arg : Z) (user : option ipc_uio_cdev_data) :
    M (memory * P) Z :=
  upd_pdev (set_cmd cmd) ;;;
  let with_data (k : ipc_uio_cdev_data -> M (memory * P) Z) : M (memory * P) Z :=
    match user with
    | None => cret (- EFAULT)
    | Some data =>
        if IPC_SHM_MAX_INSTANCES <=? cd_instance data then cret (- EINVAL) else
        upd_uio (cd_instance data) (set_data data) ;;;
        k data
    end in
  match cmd with
  | IPC_IOC_INIT => with_data ipc_uio_init
  | IPC_IOC_FREE => with_data ipc_uio_free
  | IPC_IOC_MMAP_LOCAL | IPC_IOC_MMAP_REMOTE => upd_pdev (set_phys_addr arg) ;;; cret 0
  | IPC_IOC_OTHER _ => cret (- EINVAL)
  end.

(** Map each page individually: [n] iterations from [offset]. *)
Fixpoint mmap_pages (fuel : nat) (start phys_addr size offset : Z) : M (memory * P) Z :=
  if offset <? size then
    match fuel with
    | O => cfault
    | S k =>
        let pfn := Z.shiftr (u64 (phys_addr + offset)) PAGE_SHIFT in
        let* err := on_kern (remap_pfn_range (u64 (start + offset)) pfn PAGE_SIZE) in
        if negb (err =? 0) then cret (- EINVAL)
        else mmap_pages k start phys_addr size (u64 (offset + PAGE_SIZE))
    end
  else cret 0.

(** The area is [vm_start, vm_end); one iteration per started page of it. *)
Definition ipc_cdev_mmap (vm_start vm_end : Z) : M (memory * P) Z :=
  let* d := get_pdev in
  let size := u64 (vm_end - vm_start) in
  if negb (bool_decide (pd_cmd d = IPC_IOC_MMAP_LOCAL))
     && negb (bool_decide (pd_cmd d = IPC_IOC_MMAP_REMOTE)) then cret (- EINVAL) else
  mmap_pages (Z.to_nat ((size + PAGE_SIZE - 1) / PAGE_SIZE)) vm_start (pd_phys_addr d) size 0.

(** ** Probe and remove *)

Definition fail_add_cdev (err : Z) : M (memory * P) Z :=
  let* d := get_pdev in
  on_kern (unregister_chrdev_region (pd_major d)) ;;;
  cret err.
Definition fail_create_class (err : Z) : M (memory * P) Z :=
  on_kern cdev_del ;;; fail_add_cdev err.
Definition fail_create_device (err : Z) : M (memory * P) Z :=
  let* d := get_pdev in
  on_kern (class_destroy (pd_class d)) ;;; fail_create_class err.

Definition ipc_shm_uio_probe : M (memory * P) Z :=
  let* _ := cfor (R := unit) (Z.to_nat IPC_SHM_MAX_INSTANCES) 0 (fun i =>
    upd_uio i (set_uio_irq IPC_IRQ_NONE) ;;;
    set_irq_init i IPC_IRQ_NONE ;;;
    cret (inl tt)) in
  let* reg := on_mem_kern devm_ioremap_resource in
  upd_pdev (set_reg reg) ;;;
  if is_err_or_null reg then cret (- ENOMEM) else
  let* r := on_kern alloc_chrdev_region in
  upd_pdev (set_major r.2) ;;;
  if r.1 <? 0 then cret r.1 else
  let* err := on_kern (cdev_add r.2) in
  if err <? 0 then fail_add_cdev err else
  let* cls := on_kern class_create in
  upd_pdev (set_class cls) ;;;
  if cls =? NULL then fail_create_class (- EEXIST) else
  let* dev := on_kern (device_create cls r.2) in
  if dev =? NULL then fail_create_device (- EINVAL) else
  upd_pdev (set_mutex false) ;;;
  cret 0.

Definition ipc_shm_uio_remove : M (memory * P) unit :=
  let* d := get_pdev in
  on_kern (device_destroy (pd_class d) (pd_major d)) ;;;
  on_kern (class_destroy (pd_class d)) ;;;
  on_kern cdev_del ;;;
  on_kern (unregister_chrdev_region (pd_major d)) ;;;
  let* _ := cfor (R := unit) (Z.to_nat IPC_SHM_MAX_INSTANCES) 0 (fun i =>
    let* u := get_uio i in
    if uio_state u =? IPC_SHM_INSTANCE_ENABLED then
      upd_uio i (set_uio_state IPC_SHM_INSTANCE_DISABLED) ;;;
      let* n := get_irq_init i in
      if n =? IPC_IRQ_NONE then cret (inl tt) else
      on_kern (uio_unregister_device i) ;;;
      cret (inl tt)
    else cret (inl tt)) in
  cret tt.

End Uio.
