(* ===== verification/UserOs.v ===== *)
(** * User-space OS layer (src/os_uio/ipc-os.c)

    The build of the driver as a library: shared memory is mapped through the
    character device of the UIO module, interrupts are UIO commands, reception
    is a thread.  System calls are the parameter [Posix]. *)

From Stdlib Require Import String.
From stdpp Require Import pretty.
From S2P Require Import Prelude Memory Types World KernelOs UioModule.

#[local] Open Scope string_scope.
#[local] Open Scope Z_scope.

Definition IPC_UIO_CDEV_NAME : string := "/dev/ipc-cdev-uio".
Definition IPC_SHM_UIO_BUF_LEN : Z := 255.
Definition IPC_SHM_UIO_DIR : string := "/sys/class/uio".
Definition DRIVER_VERSION : string := "2.0".
(** MAP_FAILED is (void * )-1. *)
Definition MAP_FAILED : Z := 18446744073709551615.

Class Posix (U : Type) : Type := {
  UIO_MODULE_PATH : string;
  open_file : string -> M U Z;                 (* -1 on failure *)
  close_fd : Z -> M U unit;
  finit_module : Z -> M U Z;
  delete_module : M U Z;
  ioctl_mmap : Z -> ioc_cmd -> Z -> M U Z;     (* fd, command, address *)
  ioctl_data : Z -> ioc_cmd -> ipc_uio_cdev_data -> M U Z;
  page_size : Z;                               (* sysconf(_SC_PAGE_SIZE) *)
  mmap : Z -> Z -> Z -> M (memory * U) Z;      (* length, fd, file offset *)
  munmap : Z -> Z -> M (memory * U) Z;
  fopen : string -> M U (option Z);
  fgets : Z -> Z -> M U (option string);
  fclose : Z -> M U unit;
  scandir : string -> M U (option (list string));
  pthread_attr_init : M U Z;
  pthread_attr_setschedpolicy : M U Z;
  pthread_attr_setschedparam : M U Z;
  pthread_create : Z -> M U (Z * Z);           (* error, thread id *)
  pthread_cancel : Z -> M U unit;
  pthread_join : Z -> M U unit;
  read_fd : Z -> M U unit;                     (* blocks until an interrupt *)
  write_int : Z -> Z -> M U Z;                 (* fd, command; bytes written *)
  sched_yield : M U unit;
  no_argument : string -> string               (* what printf makes of a format from a conversion
                                                  on that has no argument; C leaves it open *)
}.

(** ** State *)

Record ipc_os_priv_instance : Type := UserPriv {
  us_state : Z;
  us_instance : Z;
  us_irq_num : Z;
  us_uio_fd : Z;
  us_local_virt_shm : Z;
  us_remote_virt_shm : Z;
  us_local_shm_map : Z;
  us_remote_shm_map : Z;
  us_local_shm_offset : Z;
  us_remote_shm_offset : Z;
  us_shm_size : Z;
  us_rx_cb : rx_fn;
  us_thread_id : Z
}.

Definition user_priv_zero : ipc_os_priv_instance := UserPriv 0 0 0 0 0 0 0 0 0 0 0 RX_NULL 0.

Record userplat (U : Type) : Type := UserPlat {
  us_is_files_opened : bool;
  us_cdev_fd : Z;
  us_module_fd : Z;
  us_id : list ipc_os_priv_instance;
  us_sys : U
}.
Arguments UserPlat {U} us_is_files_opened us_cdev_fd us_module_fd us_id us_sys.
Arguments us_is_files_opened {U} u.
Arguments us_cdev_fd {U} u.
Arguments us_module_fd {U} u.
Arguments us_id {U} u.
Arguments us_sys {U} u.

Section User.
Context {U : Type} `{PX : Posix U}.
Abbreviation P := (userplat U).
Implicit Types (o : ipc_os_priv_instance).

Definition on_sys {A} : M U A -> M (memory * P) A :=
  czoom (fun s => us_sys s.2)
    (fun k s => let p := s.2 in
       (s.1, UserPlat (us_is_files_opened p) (us_cdev_fd p) (us_module_fd p) (us_id p) k)).
Definition on_mem_sys {A} : M (memory * U) A -> M (memory * P) A :=
  czoom (fun s => (s.1, us_sys s.2))
    (fun mk s => let p := s.2 in
       (mk.1, UserPlat (us_is_files_opened p) (us_cdev_fd p) (us_module_fd p) (us_id p) mk.2)).

Definition get_plat : M (memory * P) P := cgets snd.
Definition set_files (b : bool) : M (memory * P) unit := cmodify (fun s => let p := s.2 in
  (s.1, UserPlat b (us_cdev_fd p) (us_module_fd p) (us_id p) (us_sys p))).
Definition set_cdev_fd (fd : Z) : M (memory * P) unit := cmodify (fun s => let p := s.2 in
  (s.1, UserPlat (us_is_files_opened p) fd (us_module_fd p) (us_id p) (us_sys p))).
Definition set_module_fd (fd : Z) : M (memory * P) unit := cmodify (fun s => let p := s.2 in
  (s.1, UserPlat (us_is_files_opened p) (us_cdev_fd p) fd (us_id p) (us_sys p))).

(** ipc_os_priv.id[instance] *)
Definition get_id (instance : Z) : M (memory * P) ipc_os_priv_instance :=
  let* p := get_plat in copt (nthZ (us_id p) instance).
Definition upd_id (instance : Z) (f : ipc_os_priv_instance -> ipc_os_priv_instance) :
    M (memory * P) unit :=
  let* o := get_id instance in
  cmodify (fun s => let p := s.2 in
    (s.1, UserPlat (us_is_files_opened p) (us_cdev_fd p) (us_module_fd p)
            (setZ (us_id p) instance (f o)) (us_sys p))).

Definition set_state (v : Z) o : ipc_os_priv_instance :=
  UserPriv v (us_instance o) (us_irq_num o) (us_uio_fd o) (us_local_virt_shm o)
    (us_remote_virt_shm o) (us_local_shm_map o) (us_remote_shm_map o) (us_local_shm_offset o)
    (us_remote_shm_offset o) (us_shm_size o) (us_rx_cb o) (us_thread_id o).
Definition set_params (inst size : Z) (cb : rx_fn) o : ipc_os_priv_instance :=
  UserPriv (us_state o) inst (us_irq_num o) (us_uio_fd o) (us_local_virt_shm o)
    (us_remote_virt_shm o) (us_local_shm_map o) (us_remote_shm_map o) (us_local_shm_offset o)
    (us_remote_shm_offset o) size cb (us_thread_id o).
Definition set_irq (v : Z) o : ipc_os_priv_instance :=
  UserPriv (us_state o) (us_instance o) v (us_uio_fd o) (us_local_virt_shm o)
    (us_remote_virt_shm o) (us_local_shm_map o) (us_remote_shm_map o) (us_local_shm_offset o)
    (us_remote_shm_offset o) (us_shm_size o) (us_rx_cb o) (us_thread_id o).
Definition set_uio_fd (v : Z) o : ipc_os_priv_instance :=
  UserPriv (us_state o) (us_instance o) (us_irq_num o) v (us_local_virt_shm o)
    (us_remote_virt_shm o) (us_local_shm_map o) (us_remote_shm_map o) (us_local_shm_offset o)
    (us_remote_shm_offset o) (us_shm_size o) (us_rx_cb o) (us_thread_id o).
Definition set_local (virt map off : Z) o : ipc_os_priv_instance :=
  UserPriv (us_state o) (us_instance o) (us_irq_num o) (us_uio_fd o) virt
    (us_remote_virt_shm o) map (us_remote_shm_map o) off
    (us_remote_shm_offset o) (us_shm_size o) (us_rx_cb o) (us_thread_id o).
Definition set_remote (virt map off : Z) o : ipc_os_priv_instance :=
  UserPriv (us_state o) (us_instance o) (us_irq_num o) (us_uio_fd o) (us_local_virt_shm o)
    virt (us_local_shm_map o) map (us_local_shm_offset o)
    off (us_shm_size o) (us_rx_cb o) (us_thread_id o).
Definition set_thread (v : Z) o : ipc_os_priv_instance :=
  UserPriv (us_state o) (us_instance o) (us_irq_num o) (us_uio_fd o) (us_local_virt_shm o)
    (us_remote_virt_shm o) (us_local_shm_map o) (us_remote_shm_map o) (us_local_shm_offset o)
    (us_remote_shm_offset o) (us_shm_size o) (us_rx_cb o) v.

(** ** Search for the UIO device *)

(** The string up to its first line feed. *)
Fixpoint first_line (s : string) : string :=
  match s with
  | EmptyString => EmptyString
  | String c r => if Ascii.eqb c (Ascii.ascii_of_nat 10) then EmptyString
                  else String c (first_line r)
  end.

(** read first line from file: error and the buffer *)
Definition line_from_file (filename : string) : M (memory * P) (Z * string) :=
  let* file := on_sys (fopen filename) in
  match file with
  | None => cret (- ENONET, "")
  | Some f =>
      let* s := on_sys (fgets f IPC_SHM_UIO_BUF_LEN) in
      match s with
      | None => cret (- EIO, "")
      | Some s => on_sys (fclose f) ;;; cret (0, first_line s)
      end
  end.

(** strncmp(a, b, IPC_SHM_UIO_BUF_LEN) == 0 *)
Definition same_prefix (a b : string) : bool :=
  String.eqb (substring 0 255 a) (substring 0 255 b).

Definition line_match (filename filter : string) : M (memory * P) Z :=
  let* r := line_from_file filename in
  if negb (r.1 =? 0) then cret r.1 else
  if same_prefix r.2 filter then cret 0 else cret EINVAL.

(** snprintf into a buffer of IPC_SHM_UIO_BUF_LEN characters *)
Definition bounded (s : string) : string := substring 0 254 s.

Definition percent (c : Ascii.ascii) : bool := (Ascii.nat_of_ascii c =? 37)%nat.

(** What snprintf writes when [format] is its only argument: the characters of the
    format, a doubled percent sign as one, up to the first conversion. *)
Fixpoint format_alone (format : string) : string :=
  match format with
  | EmptyString => EmptyString
  | String c rest =>
      if negb (percent c) then String c (format_alone rest) else
      match rest with
      | String c' rest' =>
          if percent c' then String c (format_alone rest') else no_argument format
      | EmptyString => no_argument format
      end
  end.

(** From the last entry to the first; the name of the first match, which snprintf
    takes as its format. *)
Fixpoint match_entries (names : list string) (uio_name : string) :
    M (memory * P) (option string) :=
  match names with
  | [] => cret None
  | d_name :: rest =>
      let* err := line_match (bounded (IPC_SHM_UIO_DIR +:+ "/" +:+ d_name +:+ "/name")) uio_name in
      if negb (err =? 0) then match_entries rest uio_name else
      let* err := line_match (bounded (IPC_SHM_UIO_DIR +:+ "/" +:+ d_name +:+ "/version"))
                    DRIVER_VERSION in
      if negb (err =? 0) then match_entries rest uio_name else
      cret (Some (bounded (format_alone d_name)))
  end.

(** find the first UIO device that matched the kernel counterpart *)
Definition get_uio_dev_name (instance : Z) : M (memory * P) (Z * string) :=
  let uio_name := "instance_" +:+ pretty instance in
  let* entries := on_sys (scandir IPC_SHM_UIO_DIR) in
  match entries with
  | None => cret (- EIO, "")
  | Some name_list =>
      let* r := match_entries (rev name_list) uio_name in
      match r with
      | Some d => cret (0, d)
      | None => cret (- ENONET, "")
      end
  end.

(** ** Initialisation *)

(** Open file and initialize ipc-shm-uio module *)
Definition ipc_os_module_init : M (memory * P) Z :=
  let* p := get_plat in
  if us_is_files_opened p then cret 0 else
  let* fd := on_sys (open_file UIO_MODULE_PATH) in
  set_module_fd fd ;;;
  if fd =? -1 then cret (- ENODEV) else
  let* r := on_sys (finit_module fd) in
  if negb (r =? 0) then on_sys (close_fd fd) ;;; cret (- ENODEV) else
  let* cfd := on_sys (open_file IPC_UIO_CDEV_NAME) in
  set_cdev_fd cfd ;;;
  if cfd =? -1 then on_sys (close_fd fd) ;;; cret (- ENODEV) else
  set_files true ;;;
  cret 0.

Definition ipc_os_softirq_init (instance : Z) : M (memory * P) Z :=
  let* err := on_sys pthread_attr_init in
  if negb (err =? 0) then cret err else
  let* err := on_sys pthread_attr_setschedpolicy in
  if negb (err =? 0) then cret err else
  let* err := on_sys pthread_attr_setschedparam in
  if negb (err =? 0) then cret err else
  let* r := on_sys (pthread_create instance) in
  upd_id instance (set_thread r.2) ;;;
  cret r.1.

Definition any_enabled : M (memory * P) bool :=
  let* r := cfor (R := unit) (Z.to_nat IPC_SHM_MAX_INSTANCES) 0 (fun i =>
    let* o := get_id i in
    if us_state o =? IPC_SHM_INSTANCE_ENABLED then cret (inr tt) else cret (inl tt)) in
  cret (match r with inr _ => true | inl _ => false end).

(** The error labels of [ipc_os_init], each falling into the next. *)
Definition err_close_ipc_dev (instance err : Z) : M (memory * P) Z :=
  upd_id instance (set_state IPC_SHM_INSTANCE_DISABLED) ;;;
  let* busy := any_enabled in
  if busy then cret (i8 err) else
  set_files false ;;;
  let* p := get_plat in
  (if 0 <=? us_cdev_fd p then on_sys (close_fd (us_cdev_fd p)) else cret tt) ;;;
  (if 0 <=? us_module_fd p then on_sys (close_fd (us_module_fd p)) else cret tt) ;;;
  cret (i8 err).
Definition unmap_local (instance : Z) : M (memory * P) unit :=
  let* o := get_id instance in
  let* _ := on_mem_sys (munmap (us_local_shm_map o) (u64 (us_local_shm_offset o + us_shm_size o))) in
  cret tt.
Definition unmap_remote (instance : Z) : M (memory * P) unit :=
  let* o := get_id instance in
  let* _ := on_mem_sys (munmap (us_remote_shm_map o)
                          (u64 (us_remote_shm_offset o + us_shm_size o))) in
  cret tt.
Definition err_unmap_local_shm (instance err : Z) : M (memory * P) Z :=
  unmap_local instance ;;; err_close_ipc_dev instance err.
Definition err_unmap_remote_shm (instance err : Z) : M (memory * P) Z :=
  unmap_remote instance ;;; err_unmap_local_shm instance err.
Definition err_close_uio_dev (instance err : Z) : M (memory * P) Z :=
  let* o := get_id instance in
  on_sys (close_fd (us_uio_fd o)) ;;; err_unmap_remote_shm instance err.

(** Map [size] bytes at physical address [addr]: the mapping and the offset in
    it.  The address is truncated to a multiple of the page size. *)
Definition map_phys (addr size : Z) : M (memory * P) (Z * Z) :=
  let page_phys_addr := addr / page_size * page_size in
  let off := u64 (addr - page_phys_addr) in
  let* p := get_plat in
  let* a := on_mem_sys (mmap (u64 (off + size)) (us_cdev_fd p) page_phys_addr) in
  cret (a, off).

(** From the search for the UIO device on. *)
Definition init_uio (instance : Z) : M (memory * P) Z :=
  let* r := get_uio_dev_name instance in
  if negb (r.1 =? 0) then err_unmap_remote_shm instance (- ENOENT) else
  let* fd := on_sys (open_file ("/dev/" +:+ r.2)) in
  upd_id instance (set_uio_fd fd) ;;;
  if fd =? -1 then err_unmap_remote_shm instance (- ENODEV) else
  let* err := ipc_os_softirq_init instance in
  if negb (err =? 0) then err_close_uio_dev instance err else
  upd_id instance (set_state IPC_SHM_INSTANCE_ENABLED) ;;;
  cret 0.

Definition ipc_os_init (instance : Z) (cfg : ipc_shm_cfg) (rx_cb : rx_fn) : M (memory * P) Z :=
  match rx_cb with
  | RX_NULL => cret (- EINVAL)
  | _ =>
    let data_cfg := CdevData instance cfg in
    (* save params *)
    upd_id instance (set_params instance (cfg_shm_size cfg) rx_cb) ;;;
    let* err := ipc_os_module_init in
    if negb (0 =? err) then cret (i8 err) else
    let* p := get_plat in
    (* Write data to prepare mmap local *)
    let* err := on_sys (ioctl_mmap (us_cdev_fd p) IPC_IOC_MMAP_LOCAL (cfg_local_shm_addr cfg)) in
    if err <? 0 then err_close_ipc_dev instance (- EINVAL) else
    let* lm := map_phys (cfg_local_shm_addr cfg) (cfg_shm_size cfg) in
    let* o := get_id instance in
    upd_id instance (set_local (us_local_virt_shm o) lm.1 lm.2) ;;;
    if lm.1 =? MAP_FAILED then err_close_ipc_dev instance (- ENOMEM) else
    upd_id instance (set_local (u64 (lm.1 + lm.2)) lm.1 lm.2) ;;;
    (* Write data to prepare mmap remote *)
    let* err := on_sys (ioctl_mmap (us_cdev_fd p) IPC_IOC_MMAP_REMOTE (cfg_remote_shm_addr cfg)) in
    if err <? 0 then err_unmap_local_shm instance (- EINVAL) else
    let* rm := map_phys (cfg_remote_shm_addr cfg) (cfg_shm_size cfg) in
    let* o := get_id instance in
    upd_id instance (set_remote (us_remote_virt_shm o) rm.1 rm.2) ;;;
    if rm.1 =? MAP_FAILED then err_unmap_local_shm instance (- ENOMEM) else
    upd_id instance (set_remote (u64 (rm.1 + rm.2)) rm.1 rm.2) ;;;
    upd_id instance (set_irq (cfg_inter_core_rx_irq cfg)) ;;;
    (* Write data to init uio dev *)
    let* err := on_sys (ioctl_data (us_cdev_fd p) IPC_IOC_INIT data_cfg) in
    if err <? 0 then err_unmap_remote_shm instance (- EINVAL) else
    if cfg_inter_core_rx_irq cfg =? IPC_IRQ_NONE then
      upd_id instance (set_state IPC_SHM_INSTANCE_ENABLED) ;;;
      cret 0
    else init_uio instance
  end.

(** ** Interrupt control: commands to the UIO device *)

Definition ipc_send_uio_cmd (uio_fd cmd : Z) : M (memory * P) unit :=
  let* _ := on_sys (write_int uio_fd cmd) in cret tt.

Definition ipc_hw_irq_enable (instance : Z) : M (memory * P) unit :=
  let* o := get_id instance in ipc_send_uio_cmd (us_uio_fd o) IPC_UIO_ENABLE_CMD.
Definition ipc_hw_irq_disable (instance : Z) : M (memory * P) unit :=
  let* o := get_id instance in ipc_send_uio_cmd (us_uio_fd o) IPC_UIO_DISABLE_CMD.
Definition ipc_hw_irq_notify (instance : Z) : M (memory * P) unit :=
  let* o := get_id instance in ipc_send_uio_cmd (us_uio_fd o) IPC_UIO_TRIGGER_CMD.
Definition ipc_hw_init (instance : Z) (cfg : ipc_shm_cfg) : M (memory * P) Z := cret 0.
Definition ipc_hw_free (instance : Z) : M (memory * P) unit := cret tt.

(** ** Release *)

(** The configuration behind the command that frees the device is not set. *)
Definition ipc_os_free (unset_cfg : ipc_shm_cfg) (instance : Z) : M (memory * P) unit :=
  upd_id instance (set_state IPC_SHM_INSTANCE_DISABLED) ;;;
  let* o := get_id instance in
  (if negb (us_irq_num o =? IPC_IRQ_NONE) then
     ipc_hw_irq_disable instance ;;;
     (* stop irq thread *)
     on_sys (pthread_cancel (us_thread_id o)) ;;;
     on_sys (pthread_join (us_thread_id o)) ;;;
     (* unregister uio device *)
     let* p := get_plat in
     let* _ := on_sys (ioctl_data (us_cdev_fd p) IPC_IOC_FREE (CdevData instance unset_cfg)) in
     on_sys (close_fd (us_uio_fd o))
   else cret tt) ;;;
  unmap_remote instance ;;;
  unmap_local instance ;;;
  let* busy := any_enabled in
  if busy then cret tt else
  let* p := get_plat in
  on_sys (close_fd (us_cdev_fd p)) ;;;
  set_files false ;;;
  let* _ := on_sys delete_module in
  cret tt.

Definition ipc_os_get_local_shm (instance : Z) : M (memory * P) Z :=
  let* o := get_id instance in cret (us_local_virt_shm o).
Definition ipc_os_get_remote_shm (instance : Z) : M (memory * P) Z :=
  let* o := get_id instance in cret (us_remote_virt_shm o).

(** ** Reception *)

Definition call_rx (rx : Z -> Z -> M (world P) Z) (cb : rx_fn) (instance budget : Z) :
    M (world P) Z :=
  match cb with
  | RX_NULL => cfault
  | RX_IPC_SHM_RX => rx instance budget
  end.

(** do ... while (work >= budget) *)
Fixpoint softirq_drain (fuel : nat) (rx : Z -> Z -> M (world P) Z) (instance : Z) :
    M (world P) unit :=
  match fuel with
  | O => cfault
  | S k =>
      let* o := on_plat (get_id instance) in
      let* work := call_rx rx (us_rx_cb o) (us_instance o) IPC_SOFTIRQ_BUDGET in
      on_plat (on_sys sched_yield) ;;;
      if IPC_SOFTIRQ_BUDGET <=? i32 work then softirq_drain k rx instance else cret tt
  end.

(** One turn of the endless loop of the receive thread. *)
Definition ipc_shm_softirq (fuel : nat) (rx : Z -> Z -> M (world P) Z) (instance : Z) :
    M (world P) unit :=
  let* o := on_plat (get_id instance) in
  (match us_rx_cb o with
   | RX_NULL => cret tt
   | _ => on_plat (on_sys (read_fd (us_uio_fd o)))
   end) ;;;
  softirq_drain fuel rx instance ;;;
  let* o := on_plat (get_id instance) in
  (* re-enable irq *)
  on_plat (ipc_hw_irq_enable (us_instance o)).

Definition ipc_os_poll_channels (rx : Z -> Z -> M (world P) Z) (instance : Z) :
    M (world P) Z :=
  let* o := on_plat (get_id instance) in
  if us_irq_num o =? IPC_IRQ_NONE then
    match us_rx_cb o with
    | RX_NULL => cret (- EINVAL)
    | cb => let* n := call_rx rx cb instance IPC_SOFTIRQ_BUDGET in cret (i8 n)
    end
  else cret (- EOPNOTSUPP).

(** ** The platform of the driver in the user-space build *)

Definition user_platform (unset_cfg : ipc_shm_cfg) : Platform P := {|
  World.ipc_hw_init := ipc_hw_init;
  World.ipc_hw_free := ipc_hw_free;
  World.ipc_hw_irq_enable := ipc_hw_irq_enable;
  World.ipc_hw_irq_disable := ipc_hw_irq_disable;
  World.ipc_hw_irq_notify := ipc_hw_irq_notify;
  World.ipc_os_init := ipc_os_init;
  World.ipc_os_free := ipc_os_free unset_cfg;
  World.ipc_os_get_local_shm := ipc_os_get_local_shm;
  World.ipc_os_get_remote_shm := ipc_os_get_remote_shm;
  World.ipc_os_poll_channels := ipc_os_poll_channels
|}.

End User.
