(* ===== verification/UioSpec.v ===== *)
(** * Correctness of the UIO module and of the user-space mapping

    Exclusive ownership of a UIO device under every interleaving of the atomic
    operations of openers and releasers, distinct interrupts per instance, and the pages mapped for user space. *)

From stdpp Require Import relations.
From S2P Require Import Prelude Memory Types World Mscm KernelOs UioModule.
#[local] Open Scope Z_scope.

Section Uio.
Context {H K : Type} `{UK : UioKernel K}.
Abbreviation P := (uplat H K).
Implicit Types (s : memory * P).

(** ** Evaluation *)

Definition uio_at (dev : Z) s : option ipc_uio_priv_type := nthZ (pd_uio_id (up_pdev s.2)) dev.

Lemma get_uio_eval dev u s : uio_at dev s = Some u -> get_uio dev s = Ret u s.
Proof. unfold uio_at, get_uio, get_pdev. cunfold. now intros ->. Qed.

Lemma upd_uio_eval dev u f s :
  uio_at dev s = Some u ->
  exists s', upd_uio dev f s = Ret tt s' /\ uio_at dev s' = Some (f u) /\
    pd_irq_num_init (up_pdev s'.2) = pd_irq_num_init (up_pdev s.2) /\
    length (pd_uio_id (up_pdev s'.2)) = length (pd_uio_id (up_pdev s.2)).
Proof.
  intros E. unfold upd_uio. rewrite (cbind_Ret _ _ _ _ _ (get_uio_eval _ _ _ E)).
  unfold upd_pdev, cmodify. eexists; split; [reflexivity |].
  split; [| split; [reflexivity | apply length_insert]].
  unfold uio_at. cbn. exact (nthZ_setZ _ _ _ _ E).
Qed.

Definition refcnt_is (dev : Z) (n : Z) s : Prop :=
  exists u, uio_at dev s = Some u /\ uio_refcnt u = n.

Lemma dec_eval dev n s :
  refcnt_is dev n s ->
  exists s', atomic_dec_and_test dev s = Ret (n - 1 =? 0) s' /\ refcnt_is dev (n - 1) s'.
Proof.
  intros (u & E & <-). unfold atomic_dec_and_test.
  rewrite (cbind_Ret _ _ _ _ _ (get_uio_eval _ _ _ E)).
  destruct (upd_uio_eval dev u (set_refcnt (uio_refcnt u - 1)) s E) as (s' & E' & Eu & _).
  rewrite (cbind_Ret _ _ _ _ _ E'). exists s'. split; [reflexivity |]. eexists; split; [exact Eu | reflexivity].
Qed.

Lemma inc_eval dev n s :
  refcnt_is dev n s ->
  exists s', atomic_inc dev s = Ret tt s' /\ refcnt_is dev (n + 1) s'.
Proof.
  intros (u & E & <-). unfold atomic_inc.
  rewrite (cbind_Ret _ _ _ _ _ (get_uio_eval _ _ _ E)).
  destruct (upd_uio_eval dev u (set_refcnt (uio_refcnt u + 1)) s E) as (s' & E' & Eu & _).
  exists s'. split; [exact E' |]. eexists; split; [exact Eu | reflexivity].
Qed.

Lemma refcnt_access_eval dev n o s :
  refcnt_is dev n s ->
  exists s', refcnt_access dev o s = Ret (match o with DecAndTest => n - 1 =? 0 | Inc => false end) s' /\
    refcnt_is dev (match o with DecAndTest => n - 1 | Inc => n + 1 end) s'.
Proof.
  intros Hr. destruct o; [now apply dec_eval |].
  destruct (inc_eval dev n s Hr) as (s' & E & Hr'). exists s'.
  unfold refcnt_access. rewrite (cbind_Ret _ _ _ _ _ E). auto.
Qed.

(** ** Openers *)

(** A process and the device: outside it, in a call of open with the rest of the
    call still to run, with the device open, or in a call of release. *)
Inductive proc : Type :=
| Outside
| Opening (p : refcnt_prog)
| Inside
| Closing (p : refcnt_prog).

(** One step of process [c]: it calls open or release, makes the next atomic
    access of the call it is in, or returns from it. *)
Inductive uio_step (dev : Z) : (memory * P) * list proc -> (memory * P) * list proc -> Prop :=
| step_open s ps c :
    ps !! c = Some Outside ->
    uio_step dev (s, ps) (s, <[c := Opening ipc_shm_uio_open_steps]> ps)
| step_open_access s s' ps c o k b :
    ps !! c = Some (Opening (RAtomic o k)) -> refcnt_access dev o s = Ret b s' ->
    uio_step dev (s, ps) (s', <[c := Opening (k b)]> ps)
| step_opened s ps c r :
    ps !! c = Some (Opening (RDone r)) ->
    uio_step dev (s, ps) (s, <[c := if r =? 0 then Inside else Outside]> ps)
| step_release s ps c :
    ps !! c = Some Inside ->
    uio_step dev (s, ps) (s, <[c := Closing ipc_shm_uio_release_steps]> ps)
| step_release_access s s' ps c o k b :
    ps !! c = Some (Closing (RAtomic o k)) -> refcnt_access dev o s = Ret b s' ->
    uio_step dev (s, ps) (s', <[c := Closing (k b)]> ps)
| step_released s ps c r :
    ps !! c = Some (Closing (RDone r)) ->
    uio_step dev (s, ps) (s, <[c := Outside]> ps).

(** What a process has done to the counter so far: nothing that lasts, a
    decrement that was refused and is still to be taken back, or the decrement
    that made it the owner. *)
Inductive client : Type := Idle | Refused | Owner.

#[local] Instance client_eq_dec : EqDecision client.
Proof. solve_decision. Defined.

Definition stage (p : proc) : client :=
  match p with
  | Outside | Opening (RAtomic DecAndTest _) | Closing (RDone _) => Idle
  | Opening (RAtomic Inc _) => Refused
  | Opening (RDone r) => if r =? 0 then Owner else Idle
  | Inside | Closing (RAtomic _ _) => Owner
  end.

(** The processes that occur. *)
Definition reachable (p : proc) : Prop :=
  match p with
  | Outside | Inside => True
  | Opening q => q = ipc_shm_uio_open_steps \/ q = RAtomic Inc (fun _ => RDone (- EBUSY))
                 \/ q = RDone (- EBUSY) \/ q = RDone 0
  | Closing q => q = ipc_shm_uio_release_steps \/ q = RDone 0
  end.

Definition count (x : client) (cs : list client) : Z := Z.of_nat (length (filter (eq x) cs)).

Lemma count_cons x y cs : count x (y :: cs) = (if decide (x = y) then 1 else 0) + count x cs.
Proof. unfold count. rewrite filter_cons. repeat case_decide; simpl; lia. Qed.

Lemma count_insert x cs c y z :
  cs !! c = Some y ->
  count x (<[c := z]> cs) = count x cs + (if decide (x = z) then 1 else 0)
                                       - (if decide (x = y) then 1 else 0).
Proof.
  revert c; induction cs as [|a cs IH]; intros [|c] E; simplify_eq/=; rewrite !count_cons.
  - lia.
  - rewrite (IH c E). lia.
Qed.

Lemma count_nonneg x cs : 0 <= count x cs.
Proof. unfold count. lia. Qed.

(** The counter accounts for the owner and for the refused openers that have
    not yet taken their decrement back. *)
Definition clients_inv (dev : Z) (s : memory * P) (cs : list client) : Prop :=
  refcnt_is dev (1 - count Owner cs - count Refused cs) s /\ count Owner cs <= 1.

(** A step changes the counter as much as the stage of its process. *)
Definition outstanding (x : client) : Z := match x with Idle => 0 | _ => 1 end.

Lemma clients_inv_update dev s s' cs c x y n :
  clients_inv dev s cs -> cs !! c = Some x -> refcnt_is dev n s' ->
  n = 1 - count Owner cs - count Refused cs + outstanding x - outstanding y ->
  (y = Owner -> x = Owner \/ count Owner cs = 0) ->
  clients_inv dev s' (<[c := y]> cs).
Proof.
  intros [_ Ho] Hx Hn -> Hy. unfold clients_inv.
  assert (Ho0 := count_nonneg Owner cs).
  rewrite !(count_insert _ cs c x y Hx).
  replace (1 - _ - _) with (1 - count Owner cs - count Refused cs
    + outstanding x - outstanding y)
    by (destruct x, y; repeat (case_decide; try discriminate); try congruence; cbn; lia).
  split; [exact Hn |].
  destruct x, y; repeat (case_decide; try discriminate); try congruence; try lia;
    destruct (Hy eq_refl); (discriminate || lia).
Qed.

Lemma clients_inv_same dev s cs c x :
  clients_inv dev s cs -> cs !! c = Some x -> clients_inv dev s (<[c := x]> cs).
Proof. intros Hc Hx. now rewrite list_insert_id. Qed.

Definition uio_inv (dev : Z) (st : (memory * P) * list proc) : Prop :=
  clients_inv dev st.1 (stage <$> st.2) /\ Forall reachable st.2.

Lemma stage_lookup (ps : list proc) (c : nat) p : ps !! c = Some p -> (stage <$> ps) !! c = Some (stage p).
Proof. intros Hp. now rewrite list_lookup_fmap, Hp. Qed.

Lemma uio_inv_insert dev s' ps c p' :
  Forall reachable ps -> reachable p' ->
  clients_inv dev s' (<[c := stage p']> (stage <$> ps)) -> uio_inv dev (s', <[c := p']> ps).
Proof.
  intros Hps Hp' Hc. split; cbn [fst snd]; [now rewrite list_fmap_insert | now apply Forall_insert].
Qed.

(** The atomic accesses of a call of open and of release. *)
Lemma open_access_inv dev s s' ps c o k b :
  ps !! c = Some (Opening (RAtomic o k)) -> refcnt_access dev o s = Ret b s' ->
  uio_inv dev (s, ps) -> uio_inv dev (s', <[c := Opening (k b)]> ps).
Proof.
  intros Ec E [Hc Hps]. cbn [fst snd] in *. assert (Hp := Forall_lookup_1 _ _ _ _ Hps Ec).
  assert (Hst := stage_lookup _ _ _ Ec).
  destruct (refcnt_access_eval dev _ o s (proj1 Hc)) as (s1 & E1 & Hr1).
  rewrite E1 in E. inversion E; subst b s1. clear E E1.
  destruct Hp as [Hp | [Hp | [Hp | Hp]]]; inversion Hp; subst o k; clear Hp; cbn [stage] in Hst.
  - assert (Ho := count_nonneg Owner (stage <$> ps)). assert (Hr := count_nonneg Refused (stage <$> ps)).
    destruct (Z.eqb_spec (1 - count Owner (stage <$> ps) - count Refused (stage <$> ps) - 1) 0) as [En | En];
      cbn [negb]; (apply uio_inv_insert; [exact Hps | cbn; auto |]);
      (eapply clients_inv_update; [exact Hc | exact Hst | exact Hr1 | cbn; lia |]); cbn; [lia | discriminate].
  - apply uio_inv_insert; [exact Hps | cbn; auto |]. change (stage (Opening _)) with Idle.
    eapply clients_inv_update; [exact Hc | exact Hst | exact Hr1 | cbn; lia | discriminate].
Qed.

Lemma release_access_inv dev s s' ps c o k b :
  ps !! c = Some (Closing (RAtomic o k)) -> refcnt_access dev o s = Ret b s' ->
  uio_inv dev (s, ps) -> uio_inv dev (s', <[c := Closing (k b)]> ps).
Proof.
  intros Ec E [Hc Hps]. cbn [fst snd] in *. assert (Hp := Forall_lookup_1 _ _ _ _ Hps Ec).
  assert (Hst := stage_lookup _ _ _ Ec).
  destruct (refcnt_access_eval dev _ o s (proj1 Hc)) as (s1 & E1 & Hr1).
  rewrite E1 in E. inversion E; subst b s1. clear E E1.
  destruct Hp as [Hp | Hp]; inversion Hp; subst o k; clear Hp; cbn [stage] in Hst.
  apply uio_inv_insert; [exact Hps | cbn; auto |].
  eapply clients_inv_update; [exact Hc | exact Hst | exact Hr1 | cbn; lia | discriminate].
Qed.

Lemma uio_step_inv dev st st' : uio_step dev st st' -> uio_inv dev st -> uio_inv dev st'.
Proof.
  intros Hst. destruct Hst as [s ps c Ec | s s' ps c o k b Ec E | s ps c r Ec | s ps c Ec
                              | s s' ps c o k b Ec E | s ps c r Ec];
    [| now apply open_access_inv with (o := o) | | | now apply release_access_inv with (o := o) |];
    intros [Hc Hps]; cbn [fst snd] in *; assert (Hp := Forall_lookup_1 _ _ _ _ Hps Ec);
    assert (Hs := stage_lookup _ _ _ Ec);
    (apply uio_inv_insert; [exact Hps | |]);
    cbn [reachable]; auto; try (destruct (r =? 0); exact I);
    apply clients_inv_same; auto; rewrite Hs; cbn [stage]; auto.
  now destruct (r =? 0).
Qed.

Lemma uio_open_eval dev n s :
  refcnt_is dev n s ->
  exists s', ipc_shm_uio_open dev s = Ret (if n =? 1 then 0 else - EBUSY) s' /\
    refcnt_is dev (if n =? 1 then 0 else n) s'.
Proof.
  intros Hr. unfold ipc_shm_uio_open, ipc_shm_uio_open_steps. cbn [run_refcnt].
  destruct (refcnt_access_eval dev n DecAndTest s Hr) as (s1 & E1 & Hr1).
  rewrite (cbind_Ret _ _ _ _ _ E1). destruct (Z.eqb_spec n 1) as [-> | Hn].
  - exists s1. split; [reflexivity | exact Hr1].
  - destruct (Z.eqb_spec (n - 1) 0); [lia |]. cbn [negb run_refcnt].
    destruct (refcnt_access_eval dev (n - 1) Inc s1 Hr1) as (s2 & E2 & Hr2).
    rewrite (cbind_Ret _ _ _ _ _ E2).
    exists s2. split; [reflexivity |]. now replace (n - 1 + 1) with n in Hr2 by lia.
Qed.

Lemma uio_release_eval dev n s :
  refcnt_is dev n s ->
  exists s', ipc_shm_uio_release dev s = Ret 0 s' /\ refcnt_is dev (n + 1) s'.
Proof.
  intros Hr. unfold ipc_shm_uio_release, ipc_shm_uio_release_steps. cbn [run_refcnt].
  destruct (refcnt_access_eval dev n Inc s Hr) as (s1 & E1 & Hr1).
  rewrite (cbind_Ret _ _ _ _ _ E1). exists s1. split; [reflexivity | exact Hr1].
Qed.

Lemma count_idle x (ps : list proc) : x <> Idle -> Forall (eq Outside) ps -> count x (stage <$> ps) = 0.
Proof.
  intros Hx Hps. induction Hps as [|p ps <- _ IH]; [reflexivity |]. cbn [fmap list_fmap stage].
  rewrite count_cons. change (list_fmap _ _ stage ps) with (stage <$> ps). rewrite IH.
  case_decide; [congruence | reflexivity].
Qed.

Lemma uio_reach_inv dev s ps st :
  refcnt_is dev 1 s -> Forall (eq Outside) ps -> rtc (uio_step dev) (s, ps) st -> uio_inv dev st.
Proof.
  intros Hr Hps Hst. assert (H0 : uio_inv dev (s, ps)).
  { split; cbn [fst snd].
    - unfold clients_inv. rewrite !count_idle by (discriminate || assumption). auto with lia.
    - clear Hst. induction Hps as [|p ps <- _ IH]; constructor; [exact I | exact IH]. }
  clear Hr Hps. revert H0. induction Hst; eauto using uio_step_inv.
Qed.

(** At most one process is at the stage of an owner. *)
Lemma count_pos x cs (i : nat) : cs !! i = Some x -> 1 <= count x cs.
Proof.
  revert i; induction cs as [|y cs IH]; intros [|i] E; simplify_eq/=; rewrite count_cons;
    [rewrite decide_True by reflexivity; assert (H0 := count_nonneg x cs); lia |].
  apply IH in E. case_decide; lia.
Qed.

Lemma count_le_1 x cs (i j : nat) : count x cs <= 1 -> cs !! i = Some x -> cs !! j = Some x -> i = j.
Proof.
  revert i j; induction cs as [|y cs IH]; intros [|i] [|j] Hc Ei Ej; simplify_eq/=; auto;
    rewrite count_cons in Hc.
  - rewrite decide_True in Hc by reflexivity. apply count_pos in Ej. lia.
  - rewrite decide_True in Hc by reflexivity. apply count_pos in Ei. lia.
  - f_equal. apply IH; auto. case_decide; lia.
Qed.

(** ** Interrupts of the instances *)

Definition irqs_distinct (l : list Z) : Prop :=
  forall i j n, l !! i = Some n -> l !! j = Some n -> n <> IPC_IRQ_NONE -> i = j.

Lemma irqs_distinct_insert l i n :
  irqs_distinct l -> n ∉ l \/ n = IPC_IRQ_NONE -> irqs_distinct (<[i := n]> l).
Proof.
  intros Hd Hn a b x Ha Hb Hx.
  apply list_lookup_insert_Some in Ha as [(-> & <- & _) | (Hai & Ha)],
    Hb as [(-> & E & _) | (Hbi & Hb)]; try congruence; [| |].
  - destruct Hn as [Hn | Hn]; [| congruence]. exfalso. apply Hn. eapply list_elem_of_lookup_2; eauto.
  - destruct Hn as [Hn | Hn]; [| congruence]. subst. exfalso. apply Hn.
    eapply list_elem_of_lookup_2; eauto.
  - eauto.
Qed.

Definition irq_table s : list Z := pd_irq_num_init (up_pdev s.2).

Lemma get_irq_init_eval i n s : nthZ (irq_table s) i = Some n -> get_irq_init i s = Ret n s.
Proof. unfold irq_table, get_irq_init, get_pdev. cunfold. now intros ->. Qed.

Lemma set_irq_init_eval i n n0 s :
  nthZ (irq_table s) i = Some n0 ->
  exists s', set_irq_init i n s = Ret tt s' /\ irq_table s' = setZ (irq_table s) i n /\
    pd_uio_id (up_pdev s'.2) = pd_uio_id (up_pdev s.2).
Proof.
  intros E. unfold set_irq_init. rewrite (cbind_Ret _ _ _ _ _ (get_irq_init_eval _ _ _ E)).
  unfold upd_pdev, cmodify. eexists; split; [reflexivity |]. split; reflexivity.
Qed.

Lemma irq_taken_eval irq s :
  length (irq_table s) = 4%nat -> irq_taken irq s = Ret (bool_decide (irq ∈ irq_table s)) s.
Proof.
  intros Hl. unfold irq_taken.
  erewrite cbind_Ret; [| apply (cfor_search (fun j => from_option (Z.eqb irq) false (nthZ (irq_table s) j)))].
  - change (map _ _) with [0; 1; 2; 3]. set (e := existsb _ _).
    replace (bool_decide _) with e; [now destruct e |]. subst e.
    destruct (irq_table s) as [|a [|b [|c [|d [|]]]]]; try discriminate Hl.
    apply eq_true_iff_eq. cbn [existsb].
    change (nthZ _ 0) with (Some a). change (nthZ _ 1) with (Some b).
    change (nthZ _ 2) with (Some c). change (nthZ _ 3) with (Some d). cbn [from_option].
    rewrite bool_decide_eq_true, !orb_true_iff, !Z.eqb_eq, !elem_of_cons, elem_of_nil.
    intuition discriminate.
  - change (Z.of_nat (Z.to_nat IPC_SHM_MAX_INSTANCES)) with 4. intros j Hj.
    destruct (nthZ_total (irq_table s) j Hl) as [n En]; [lia |].
    rewrite (cbind_Ret _ _ _ _ _ (get_irq_init_eval _ _ _ En)), En. cbn. now destruct (irq =? n).
Qed.

(** ** Initialisation of an instance *)

Section Init.
Context `{HO : HwOps P}.

(** The platform file returns and leaves the data of the module alone; so do
    the kernel services. *)
Class UioServices : Prop := {
  us_hw_init i cfg m (p : P) : exists e m' p', hw_init i cfg (m, p) = Ret e (m', p') /\
    up_pdev p' = up_pdev p;
  us_rx_irq i m (p : P) : exists n p', hw_get_rx_irq i (m, p) = Ret n (m, p') /\ up_pdev p' = up_pdev p;
  us_get_irq n (k : K) : exists r k', platform_get_irq n k = Ret r k';
  us_register i n (k : K) : exists e k', uio_register_device i n k = Ret e k';
  us_unregister i (k : K) : exists k', uio_unregister_device i k = Ret tt k'
}.
Context `{US : UioServices}.

(** The tables have one entry per instance. *)
Definition tables_ok s : Prop :=
  length (irq_table s) = 4%nat /\ length (pd_uio_id (up_pdev s.2)) = 4%nat.

Lemma on_kern_eval {A} (c : M K A) a k' s :
  c (up_kern s.2) = Ret a k' ->
  exists s', on_kern c s = Ret a s' /\ up_pdev s'.2 = up_pdev s.2.
Proof. intros E. unfold on_kern, czoom. rewrite E. eauto. Qed.

(** What the last part of [ipc_uio_init] leaves behind for instance [i]. *)
Definition claimed (i irq e : Z) s : Prop :=
  nthZ (irq_table s) i = Some irq /\
  exists u, uio_at i s = Some u /\ uio_refcnt u = 1 /\ uio_info_irq u = irq /\
    (e = 0 -> uio_state u = IPC_SHM_INSTANCE_ENABLED).

Lemma register_eval i irq s :
  tables_ok s -> 0 <= i < 4 ->
  exists e s',
    (set_irq_init i irq ;;;
     upd_uio i (set_refcnt 1) ;;;
     let* n := get_irq_init i in
     upd_uio i (set_info_irq n) ;;;
     let* err := on_kern (uio_register_device i n) in
     if negb (err =? 0) then cret err else
     upd_uio i (set_uio_state IPC_SHM_INSTANCE_ENABLED) ;;; cret 0) s = Ret e s' /\
    irq_table s' = setZ (irq_table s) i irq /\ tables_ok s' /\ claimed i irq e s'.
Proof.
  intros [Hl Hu] Hi. destruct (nthZ_total _ i Hl Hi) as [n0 E0].
  destruct (nthZ_total _ i Hu Hi) as [u0 Eu].
  destruct (set_irq_init_eval i irq n0 s E0) as (s1 & E1 & T1 & U1). rewrite (cbind_Ret _ _ _ _ _ E1).
  destruct (upd_uio_eval i u0 (set_refcnt 1) s1) as (s2 & E2 & Eu2 & T2 & L2);
    [unfold uio_at; now rewrite U1 |]. rewrite (cbind_Ret _ _ _ _ _ E2).
  assert (Et2 : irq_table s2 = setZ (irq_table s) i irq) by (unfold irq_table in *; congruence).
  assert (En2 : nthZ (irq_table s2) i = Some irq) by (rewrite Et2; exact (nthZ_setZ _ _ _ _ E0)).
  rewrite (cbind_Ret _ _ _ _ _ (get_irq_init_eval _ _ _ En2)).
  destruct (upd_uio_eval i _ (set_info_irq irq) s2 Eu2) as (s3 & E3 & Eu3 & T3 & L3).
  rewrite (cbind_Ret _ _ _ _ _ E3).
  destruct (us_register i irq (up_kern s3.2)) as (e & k' & Ek).
  destruct (on_kern_eval _ _ _ s3 Ek) as (s4 & E4 & D4). rewrite (cbind_Ret _ _ _ _ _ E4).
  assert (Eu4 : uio_at i s4 = Some (set_info_irq irq (set_refcnt 1 u0)))
    by (unfold uio_at; now rewrite D4).
  assert (T4 : irq_table s4 = irq_table s2) by (unfold irq_table in *; congruence).
  assert (Lk : length (pd_uio_id (up_pdev s4.2)) = 4%nat) by (rewrite D4, L3, L2, U1; exact Hu).
  destruct (Z.eqb_spec e 0); cbn [negb].
  - destruct (upd_uio_eval i _ (set_uio_state IPC_SHM_INSTANCE_ENABLED) s4 Eu4) as (s5 & E5 & Eu5 & T5 & L5).
    rewrite (cbind_Ret _ _ _ _ _ E5). assert (T5' : irq_table s5 = irq_table s2) by (unfold irq_table in *; congruence).
    exists 0, s5. split; [reflexivity |]. unfold claimed, tables_ok. rewrite T5', L5, Lk, Et2, setZ_length.
    split; [reflexivity |]. split; [auto |]. rewrite <- Et2. split; [exact En2 |]. eexists; split; [exact Eu5 |]. auto.
  - exists e, s4. split; [reflexivity |]. unfold claimed, tables_ok. rewrite T4, Lk, Et2, setZ_length.
    split; [reflexivity |]. split; [auto |]. rewrite <- Et2. split; [exact En2 |]. eexists; split; [exact Eu4 |]. repeat split. intros; congruence.
Qed.

Lemma ipc_uio_init_eval data s :
  tables_ok s -> 0 <= cd_instance data < 4 ->
  exists e s', ipc_uio_init data s = Ret e s' /\ tables_ok s' /\
    (irq_table s' = irq_table s \/
     exists irq, 0 <= irq /\ (irq ∉ irq_table s) /\
       irq_table s' = setZ (irq_table s) (cd_instance data) irq /\
       claimed (cd_instance data) irq e s').
Proof.
  intros [Hl Hu] Hi. unfold ipc_uio_init. destruct (nthZ_total _ _ Hu Hi) as [u0 Eu].
  rewrite (cbind_Ret _ _ _ _ _ (get_uio_eval _ _ _ Eu)). destruct s as [m p].
  destruct (us_hw_init (cd_instance data) (cd_cfg data) m p) as (e1 & m1 & p1 & E1 & D1).
  rewrite (cbind_Ret _ _ _ _ _ E1).
  assert (Same : forall s', up_pdev s'.2 = up_pdev p -> irq_table s' = irq_table (m, p) /\ tables_ok s').
  { intros s' E. unfold tables_ok, irq_table. cbn [snd]. rewrite E. auto. }
  destruct (negb _); [exists e1, (m1, p1); destruct (Same (m1, p1) D1); auto |].
  destruct (_ =? IPC_IRQ_NONE); [exists 0, (m1, p1); destruct (Same (m1, p1) D1); auto |].
  destruct (us_rx_irq (cd_instance data) m1 p1) as (rx & p2 & E2 & D2). rewrite (cbind_Ret _ _ _ _ _ E2).
  destruct (us_get_irq rx (up_kern p2)) as (irq & k' & Ek).
  destruct (on_kern_eval _ _ _ (m1, p2) Ek) as (s3 & E3 & D3). cbn [snd] in D3.
  rewrite (cbind_Ret _ _ _ _ _ E3). destruct (Same s3) as [T3 K3]; [congruence |].
  destruct (Z.ltb_spec irq 0); [exists irq, s3; auto |].
  rewrite (cbind_Ret _ _ _ _ _ (irq_taken_eval irq s3 ltac:(now rewrite T3))), T3.
  case_bool_decide as Hin; [exists (- EFAULT), s3; auto |].
  destruct (register_eval (cd_instance data) irq s3) as (e & s' & E & T & Tok & C); [exact K3 | exact Hi |].
  exists e, s'. split; [exact E |]. split; [exact Tok |]. right. exists irq. rewrite T3 in T. auto.
Qed.

Lemma ipc_uio_free_eval data s :
  tables_ok s -> 0 <= cd_instance data < 4 ->
  exists e s', ipc_uio_free data s = Ret e s' /\ tables_ok s' /\
    (e <> 0 /\ s' = s \/
     e = 0 /\ irq_table s' = setZ (irq_table s) (cd_instance data) IPC_IRQ_NONE).
Proof.
  intros [Hl Hu] Hi. unfold ipc_uio_free.
  replace (_ <? _) with true by (symmetry; apply Z.ltb_lt; unfold IPC_SHM_MAX_INSTANCES; lia).
  destruct (nthZ_total _ _ Hu Hi) as [u Eu], (nthZ_total _ _ Hl Hi) as [n En].
  rewrite (cbind_Ret _ _ _ _ _ (get_uio_eval _ _ _ Eu)).
  destruct (negb _); [exists (- EINVAL), s; split; [reflexivity |]; split; [now split |]; left; split; [discriminate | auto] |].
  rewrite (cbind_Ret _ _ _ _ _ (get_irq_init_eval _ _ _ En)).
  destruct (n =? IPC_IRQ_NONE);
    [exists (- EINVAL), s; split; [reflexivity |]; split; [now split |]; left; split; [discriminate | auto] |].
  destruct (us_unregister (cd_instance data) (up_kern s.2)) as (k' & Ek).
  destruct (on_kern_eval _ _ _ s Ek) as (s1 & E1 & D1). rewrite (cbind_Ret _ _ _ _ _ E1).
  assert (T1 : irq_table s1 = irq_table s) by (unfold irq_table; now rewrite D1).
  destruct (set_irq_init_eval (cd_instance data) IPC_IRQ_NONE n s1) as (s2 & E2 & T2 & U2);
    [now rewrite T1 |].
  rewrite (cbind_Ret _ _ _ _ _ E2). exists 0, s2. split; [reflexivity |].
  unfold tables_ok. rewrite T2, T1, setZ_length, U2, D1. auto.
Qed.

(** Every request on the character device returns, and leaves the tables and
    their distinctness intact. *)
Lemma ipc_cdev_ioctl_eval cmd arg user s :
  tables_ok s -> irqs_distinct (irq_table s) ->
  (forall data, user = Some data -> 0 <= cd_instance data) ->
  exists e s', ipc_cdev_ioctl cmd arg user s = Ret e s' /\ tables_ok s' /\
    irqs_distinct (irq_table s').
Proof.
  intros Hok Hd Hpos. unfold ipc_cdev_ioctl.
  set (s1 := (s.1, UPlat (up_hw s.2) (set_cmd cmd (up_pdev s.2)) (up_kern s.2))).
  rewrite (cbind_Ret _ _ _ tt s1) by reflexivity.
  assert (Hok1 : tables_ok s1) by exact Hok. assert (Hd1 : irqs_distinct (irq_table s1)) by exact Hd.
  clearbody s1. clear s Hok Hd.
  destruct cmd as [| | | |v]; try (do 2 eexists; split; [reflexivity | auto]);
    destruct user as [data|]; try (do 2 eexists; split; [reflexivity | auto]);
    specialize (Hpos data eq_refl); unfold IPC_SHM_MAX_INSTANCES;
    (destruct (Z.leb_spec 4 (cd_instance data)); [do 2 eexists; split; [reflexivity | auto] |]);
    destruct (nthZ_total _ (cd_instance data) (proj2 Hok1) ltac:(lia)) as [u Eu];
    destruct (upd_uio_eval _ u (set_data data) s1 Eu) as (s2 & E2 & _ & T2 & L2);
    rewrite (cbind_Ret _ _ _ _ _ E2); fold (irq_table s2) (irq_table s1) in T2;
    (assert (Hok2 : tables_ok s2) by (unfold tables_ok; rewrite T2, L2; exact Hok1)).
  - destruct (ipc_uio_init_eval data s2 Hok2) as (e & s' & E & Hok' & Ht); [lia |].
    exists e, s'. split; [exact E |]. split; [exact Hok' |].
    destruct Ht as [-> | (irq & _ & Hn & -> & _)]; rewrite T2 in *; [exact Hd1 |].
    apply irqs_distinct_insert; auto.
  - destruct (ipc_uio_free_eval data s2 Hok2) as (e & s' & E & Hok' & Ht); [lia |].
    exists e, s'. split; [exact E |]. split; [exact Hok' |].
    destruct Ht as [(_ & ->) | (_ & ->)]; rewrite T2; [exact Hd1 |].
    apply irqs_distinct_insert; auto.
Qed.

End Init.

(** ** Pages mapped for user space *)

Section Mmap.
(** The kernel remembers the calls of [remap_pfn_range] in order. *)
Context (calls : K -> list (Z * Z * Z)).
Hypothesis remap_law : forall a f n k, exists e k',
  remap_pfn_range a f n k = Ret e k' /\ calls k' = calls k ++ [(a, f, n)].

(** Page [j] of the area: user address, frame, size. *)
Definition page_call (start phys : Z) (j : nat) : Z * Z * Z :=
  (u64 (start + PAGE_SIZE * Z.of_nat j),
   Z.shiftr (u64 (phys + PAGE_SIZE * Z.of_nat j)) PAGE_SHIFT, PAGE_SIZE).

Definition page_count (size : Z) : nat := Z.to_nat ((size + PAGE_SIZE - 1) / PAGE_SIZE).

(** [size] bytes take [page_count size] pages. *)
Lemma page_count_covers size :
  0 <= size ->
  size <= PAGE_SIZE * Z.of_nat (page_count size) < size + PAGE_SIZE.
Proof.
  intros Hs. unfold page_count. assert (Hd := Z.div_mod (size + PAGE_SIZE - 1) PAGE_SIZE).
  assert (Hm := Z.mod_pos_bound (size + PAGE_SIZE - 1) PAGE_SIZE).
  assert (0 <= (size + PAGE_SIZE - 1) / PAGE_SIZE) by (apply Z.div_pos; unfold PAGE_SIZE; lia).
  unfold PAGE_SIZE in *. lia.
Qed.

Lemma mmap_pages_eval start phys size : 0 <= size < 2 ^ 63 -> forall n j s,
  (j + n = page_count size)%nat ->
  exists r s' k, mmap_pages n start phys size (PAGE_SIZE * Z.of_nat j) s = Ret r s' /\
    calls (up_kern s'.2) = calls (up_kern s.2) ++ map (page_call start phys) (seq j k) /\
    (r = 0 /\ k = n \/ r = - EINVAL /\ (0 < k <= n)%nat).
Proof.
  intros Hs. assert (Hc := page_count_covers size (proj1 Hs)). unfold PAGE_SIZE in Hc.
  induction n as [|n IH]; intros j s Hj; cbn [mmap_pages].
  - destruct (Z.ltb_spec (PAGE_SIZE * Z.of_nat j) size); [unfold PAGE_SIZE in *; lia |].
    exists 0, s, O. cbn. rewrite app_nil_r. auto.
  - destruct (Z.ltb_spec (PAGE_SIZE * Z.of_nat j) size); [| unfold PAGE_SIZE in *; lia].
    destruct (remap_law (page_call start phys j).1.1 (page_call start phys j).1.2 PAGE_SIZE
                (up_kern s.2)) as (e & k' & E & Ec).
    erewrite cbind_Ret; [| unfold on_kern, czoom; cbn [page_call fst snd] in E; rewrite E; reflexivity].
    destruct (Z.eqb_spec e 0); cbn [negb].
    + replace (u64 _) with (PAGE_SIZE * Z.of_nat (S j))
        by (rewrite u64_small; unfold PAGE_SIZE in *; lia).
      edestruct (IH (S j)) as (r & s' & k & E2 & Ec2 & Hr); [lia |].
      exists r, s', (S k). split; [exact E2 |]. split; [| lia].
      rewrite Ec2. cbn [snd up_kern]. rewrite Ec. cbn [seq map]. now rewrite <- app_assoc.
    + eexists _, _, 1%nat. split; [reflexivity |]. cbn [snd up_kern seq map]. rewrite Ec.
      split; [reflexivity | right; split; [reflexivity | lia]].
Qed.

End Mmap.

End Uio.

(** ** Properties *)

Section Claims.
Context {H K : Type} `{UK : UioKernel K}.

(** C32: a UIO device has one owner at most and is never locked for ever.  Starting
    from the counter value 1 that initialisation stores, any number of processes
    call open and release, their atomic accesses to the counter interleaved in any
    way.  At every moment at most one process has the device open, and the counter
    is 1 less the owner and the refused openers that have still to take their
    decrement back; it is 1 again when no process is left.  A process that opens
    the device then is refused with -EBUSY exactly when the device is owned or a
    refusal is in flight, and a refused open leaves the counter as it was; a
    release adds one to it. *)
Theorem uio_device_exclusive dev (s : memory * uplat H K) ps s' ps' :
  refcnt_is dev 1 s -> Forall (eq Outside) ps ->
  rtc (uio_step dev) (s, ps) (s', ps') ->
  let taken := count Owner (stage <$> ps') + count Refused (stage <$> ps') in
  (forall i j, ps' !! i = Some Inside -> ps' !! j = Some Inside -> i = j) /\
  count Owner (stage <$> ps') <= 1 /\ refcnt_is dev (1 - taken) s' /\
  (Forall (eq Outside) ps' -> taken = 0) /\
  (exists s'', ipc_shm_uio_open dev s' = Ret (if taken =? 0 then 0 else - EBUSY) s'' /\
     refcnt_is dev (if taken =? 0 then 0 else 1 - taken) s'') /\
  (exists s'', ipc_shm_uio_release dev s' = Ret 0 s'' /\ refcnt_is dev (2 - taken) s'').
Proof.
  intros Hr Hps Hst taken. destruct (uio_reach_inv dev s ps _ Hr Hps Hst) as [[Hr' Ho] _].
  cbn [fst snd] in *. replace (1 - _ - _) with (1 - taken) in Hr' by lia. split_and!.
  - intros i j Hi Hj. apply (count_le_1 Owner (stage <$> ps')); [exact Ho | |];
      [apply stage_lookup in Hi; exact Hi | apply stage_lookup in Hj; exact Hj].
  - exact Ho.
  - exact Hr'.
  - intros Hout. subst taken. now rewrite !count_idle by (discriminate || assumption).
  - destruct (uio_open_eval dev _ s' Hr') as (s'' & E & Hr''). exists s''. rewrite E.
    destruct (Z.eqb_spec taken 0), (Z.eqb_spec (1 - taken) 1); (split; [reflexivity | exact Hr'']) || lia.
  - destruct (uio_release_eval dev _ s' Hr') as (s'' & E & Hr''). exists s''.
    replace (2 - taken) with (1 - taken + 1) by lia. auto.
Qed.

(** The instances of the UIO module never share an interrupt: every request
    of user space on the character device, well-formed or not, returns, and no
    two instances have the same interrupt number afterwards if none had before. *)
Theorem uio_irqs_stay_distinct `{HO : HwOps (uplat H K)} `{US : !UioServices} cmd arg user
    (s : memory * uplat H K) :
  tables_ok s -> irqs_distinct (irq_table s) ->
  (forall data, user = Some data -> 0 <= cd_instance data) ->
  exists e s', ipc_cdev_ioctl cmd arg user s = Ret e s' /\ tables_ok s' /\
    irqs_distinct (irq_table s').
Proof. apply ipc_cdev_ioctl_eval. Qed.

(** C34: [ipc_cdev_mmap] terminates and maps the requested area page by page:
    on success exactly the pages that cover it, in order, each to the frame at
    the same distance from the physical address of the last request; when the
    kernel refuses a page it stops there with -EINVAL. *)
Theorem ipc_cdev_mmap_pages (calls : K -> list (Z * Z * Z)) vm_start vm_end
    (s : memory * uplat H K) :
  (forall a f n k, exists e k',
     remap_pfn_range a f n k = Ret e k' /\ calls k' = calls k ++ [(a, f, n)]) ->
  0 <= vm_start -> vm_start <= vm_end < 2 ^ 63 ->
  pd_cmd (up_pdev s.2) = IPC_IOC_MMAP_LOCAL \/ pd_cmd (up_pdev s.2) = IPC_IOC_MMAP_REMOTE ->
  let n := page_count (vm_end - vm_start) in
  vm_end - vm_start <= PAGE_SIZE * Z.of_nat n < vm_end - vm_start + PAGE_SIZE /\
  exists r s' k, ipc_cdev_mmap vm_start vm_end s = Ret r s' /\
    calls (up_kern s'.2) = calls (up_kern s.2)
      ++ map (page_call vm_start (pd_phys_addr (up_pdev s.2))) (seq 0 k) /\
    (r = 0 /\ k = n \/ r = - EINVAL /\ (0 < k <= n)%nat).
Proof.
  intros Hlaw H0 Hend Hcmd n. split; [apply page_count_covers; lia |].
  unfold ipc_cdev_mmap. rewrite (cbind_Ret _ _ s (up_pdev s.2) s) by reflexivity.
  rewrite u64_small by lia.
  replace (negb _ && negb _) with false
    by (destruct Hcmd as [-> | ->]; reflexivity).
  change (Z.to_nat _) with n. change 0 with (PAGE_SIZE * Z.of_nat 0).
  apply mmap_pages_eval; [exact Hlaw | lia | reflexivity].
Qed.

End Claims.
