(* ===== verification/UioLife.v ===== *)
(** * Life of the UIO kernel module

    What src/os_kernel/ipc-uio.c holds of the kernel from probe to remove: the four
    parts of its character device, and a UIO device for each instance that user
    space has initialised; the two kinds of initialisation after which its tables and
    the devices disagree ([slip]). *)

From S2P Require Import Prelude Memory Types World ShmSpec Resources Mscm Atomic KernelOs UioModule UioSpec.
From stdpp Require Import list.
#[local] Open Scope Z_scope.

(** ** Resources *)

(** UIO devices by instance and interrupt, device number region, character device,
    class, device node. *)
Record uio_res : Type := UioRes {
  devices : list (Z * Z);
  ur_region : bool;
  ur_cdev : bool;
  ur_class : bool;
  ur_node : bool
}.

Definition no_chrdev (r : uio_res) : Prop := ur_region r = false /\ ur_cdev r = false /\ ur_class r = false /\ ur_node r = false.

Definition with_devices (f : list (Z * Z) -> list (Z * Z)) r : uio_res := UioRes (f (devices r)) (ur_region r) (ur_cdev r) (ur_class r) (ur_node r).
Definition with_region b r : uio_res := UioRes (devices r) b (ur_cdev r) (ur_class r) (ur_node r).
Definition with_cdev b r : uio_res := UioRes (devices r) (ur_region r) b (ur_class r) (ur_node r).
Definition with_class b r : uio_res := UioRes (devices r) (ur_region r) (ur_cdev r) b (ur_node r).
Definition with_node b r : uio_res := UioRes (devices r) (ur_region r) (ur_cdev r) (ur_class r) b.

Definition drop_device (i : Z) (l : list (Z * Z)) : list (Z * Z) := List.filter (fun x => negb (x.1 =? i)) l.

(** Documented behaviour of the services: every one returns, and a resource is held
    from its creation to its destruction.  Errors are negative numbers or, of the
    calls that return a pointer, error pointers; that these calls answer NULL is
    allowed too.  The kernel creates no device in a class that is an error pointer,
    and destroys no such class; what it does when asked to remove a device from one
    is left open, as is what it does when a device is unregistered that is not
    registered. *)
Class UioResources (H K : Type) `{UioKernel K} `{HwOps (uplat H K)} : Type := {
  held : K -> uio_res;
  ul_hw_init i cfg m (p : uplat H K) : exists e m' p', hw_init i cfg (m, p) = Ret e (m', p') /\
    up_pdev p' = up_pdev p /\ held (up_kern p') = held (up_kern p);
  ul_rx_irq i m (p : uplat H K) : exists n p', hw_get_rx_irq i (m, p) = Ret n (m, p') /\
    up_pdev p' = up_pdev p /\ held (up_kern p') = held (up_kern p);
  ul_get_irq n k : exists r k', platform_get_irq n k = Ret r k' /\ held k' = held k;
  ul_register i n k : exists e k', uio_register_device i n k = Ret e k' /\
    (e = 0 /\ held k' = with_devices (cons (i, n)) (held k) \/ e <> 0 /\ held k' = held k);
  ul_unregister i k : i ∈ (devices (held k)).*1 -> exists k', uio_unregister_device i k = Ret tt k' /\
    held k' = with_devices (drop_device i) (held k);
  ul_ioremap m k : exists a m' k', devm_ioremap_resource (m, k) = Ret a (m', k') /\ held k' = held k;
  ul_alloc k : exists e n k', alloc_chrdev_region k = Ret (e, n) k' /\
    (e < 0 /\ held k' = held k \/ 0 <= e /\ held k' = with_region true (held k));
  ul_unregion n k : exists k', unregister_chrdev_region n k = Ret tt k' /\ held k' = with_region false (held k);
  ul_cdev_add n k : exists e k', cdev_add n k = Ret e k' /\
    (e < 0 /\ held k' = held k \/ 0 <= e /\ held k' = with_cdev true (held k));
  ul_cdev_del k : exists k', cdev_del k = Ret tt k' /\ held k' = with_cdev false (held k);
  ul_class_create k : exists c k', class_create k = Ret c k' /\
    (is_err_or_null c = true /\ held k' = held k \/ is_err_or_null c = false /\ held k' = with_class true (held k));
  ul_class_destroy c k : exists k', class_destroy c k = Ret tt k' /\
    held k' = if is_err_or_null c then held k else with_class false (held k);
  ul_device_create c n k : exists d k', device_create c n k = Ret d k' /\
    (is_err_or_null d = true /\ held k' = held k \/
     is_err_or_null c = false /\ is_err_or_null d = false /\ held k' = with_node true (held k));
  ul_device_destroy c n k : is_err_or_null c = false -> exists k', device_destroy c n k = Ret tt k' /\ held k' = with_node false (held k);
  ul_null : is_err_or_null NULL = true
}.

(** ** The module's tables *)

Definition with_uio (i : Z) (u : ipc_uio_priv_type) (d : ipc_pdev_priv_type) : ipc_pdev_priv_type :=
  Pdev (pd_major d) (pd_irq_num_init d) (pd_cmd d) (pd_phys_addr d) (pd_reg d) (pd_class d) (setZ (pd_uio_id d) i u) (pd_mmap_mutex d).
Definition with_irq (i n : Z) (d : ipc_pdev_priv_type) : ipc_pdev_priv_type :=
  Pdev (pd_major d) (setZ (pd_irq_num_init d) i n) (pd_cmd d) (pd_phys_addr d) (pd_reg d) (pd_class d) (pd_uio_id d) (pd_mmap_mutex d).

Definition state_of (d : ipc_pdev_priv_type) (i : Z) : option Z := uio_state <$> nthZ (pd_uio_id d) i.
Definition irq_of (d : ipc_pdev_priv_type) (i : Z) : option Z := nthZ (pd_irq_num_init d) i.

(** The devices registered are those of the instances that are enabled and have an
    interrupt. *)
Record devices_exact (l : list (Z * Z)) (d : ipc_pdev_priv_type) : Prop := {
  de_irqs : length (pd_irq_num_init d) = 4%nat;
  de_uios : length (pd_uio_id d) = 4%nat;
  de_nodup : NoDup l.*1;
  de_iff i n : (i, n) ∈ l <-> irq_of d i = Some n /\ n <> IPC_IRQ_NONE /\ state_of d i = Some IPC_SHM_INSTANCE_ENABLED;
  de_distinct : irqs_distinct (pd_irq_num_init d)
}.

Lemma drop_device_elem i l x : x ∈ drop_device i l <-> x ∈ l /\ x.1 <> i.
Proof.
  unfold drop_device. rewrite !list_elem_of_In, filter_In. split; intros [H1 H2]; (split; [exact H1 |]).
  - destruct (Z.eqb_spec x.1 i); [discriminate | assumption].
  - now apply negb_true_iff, Z.eqb_neq.
Qed.

Lemma drop_device_nodup i l : NoDup l.*1 -> NoDup (drop_device i l).*1.
Proof.
  induction l as [| x l IH]; [now constructor |]. cbn [fmap list_fmap]. intros [Hx Hl]%NoDup_cons. unfold drop_device. cbn [List.filter].
  destruct (negb _); [| now apply IH]. cbn [fmap list_fmap]. constructor; [| now apply IH]. intros Hin. apply Hx.
  apply list_elem_of_fmap in Hin as (y & -> & Hy). apply drop_device_elem in Hy as [Hy _]. now apply list_elem_of_fmap_2.
Qed.

Lemma registered_iff l d i : devices_exact l d ->
  i ∈ l.*1 <-> state_of d i = Some IPC_SHM_INSTANCE_ENABLED /\ exists n, irq_of d i = Some n /\ n <> IPC_IRQ_NONE.
Proof.
  intros He. split.
  - intros Hi. apply list_elem_of_fmap in Hi as ([j n] & -> & Hn). apply (de_iff _ _ He) in Hn as (H1 & H2 & H3). eauto.
  - intros (Hs & n & Hn & Hne). apply list_elem_of_fmap. exists (i, n). split; [reflexivity |]. now apply (de_iff _ _ He).
Qed.

(** Other fields of the tables do not matter. *)
Lemma devices_exact_ext l d d' :
  pd_irq_num_init d' = pd_irq_num_init d -> length (pd_uio_id d') = length (pd_uio_id d) ->
  (forall i, state_of d' i = state_of d i) -> devices_exact l d -> devices_exact l d'.
Proof.
  intros E1 E2 E3 [H1 H2 H3 H4 H5]. constructor; rewrite ?E1, ?E2; auto. intros i n. rewrite E3. unfold irq_of. rewrite E1. apply H4.
Qed.

Lemma state_with_uio d i j u u0 :
  nthZ (pd_uio_id d) i = Some u0 -> state_of (with_uio i u d) j = if decide (j = i) then Some (uio_state u) else state_of d j.
Proof.
  intros Hu. unfold state_of, with_uio. cbn [pd_uio_id]. assert (Hi := Hu). apply nthZ_Some in Hi as [Hi _]. case_decide as E.
  - subst j. now rewrite (nthZ_setZ _ _ _ _ Hu).
  - now rewrite nthZ_setZ_ne by auto.
Qed.

Lemma irq_with_irq d i j n n0 : irq_of d i = Some n0 -> irq_of (with_irq i n d) j = if decide (j = i) then Some n else irq_of d j.
Proof.
  intros Hn. unfold irq_of, with_irq in *. cbn [pd_irq_num_init]. assert (Hi := Hn). apply nthZ_Some in Hi as [Hi _]. case_decide as E.
  - subst j. now rewrite (nthZ_setZ _ _ _ _ Hn).
  - now rewrite nthZ_setZ_ne by auto.
Qed.

(** Instance [i], which has no device, gets a new number: with a device and the
    state enabled, or without one. *)
Lemma devices_claim l d i irq u0 u (b : bool) :
  devices_exact l d -> nthZ (pd_uio_id d) i = Some u0 -> i ∉ l.*1 -> 0 <= irq -> irq ∉ pd_irq_num_init d ->
  (if b then uio_state u = IPC_SHM_INSTANCE_ENABLED else uio_state u <> IPC_SHM_INSTANCE_ENABLED) ->
  devices_exact (if b then (i, irq) :: l else l) (with_uio i u (with_irq i irq d)).
Proof.
  intros [H1 H2 H3 H4 H5] Hu Hi Hirq Hnew Hb.
  assert (Hi4 : 0 <= i < 4) by (assert (Hx := Hu); apply nthZ_Some in Hx as [Hx Hy]; apply lookup_lt_Some in Hy; lia).
  destruct (nthZ_total _ i H1 Hi4) as [n0 Hn0].
  assert (Hstate : forall j, state_of (with_uio i u (with_irq i irq d)) j = if decide (j = i) then Some (uio_state u) else state_of d j)
    by (intros j; exact (state_with_uio (with_irq i irq d) i j u u0 Hu)).
  assert (Hnum : forall j, irq_of (with_uio i u (with_irq i irq d)) j = if decide (j = i) then Some irq else irq_of d j)
    by (intros j; exact (irq_with_irq d i j irq n0 Hn0)).
  constructor.
  - cbn. now rewrite setZ_length.
  - cbn. now rewrite setZ_length.
  - destruct b; [| exact H3]. cbn [fmap list_fmap fst]. now constructor.
  - intros j n. rewrite Hstate, Hnum. assert (Hl : j = i -> (j, n) ∉ l).
    { intros -> Hin. apply Hi. apply list_elem_of_fmap. now exists (i, n). }
    destruct (decide (j = i)) as [-> | Hne].
    + destruct b.
      * rewrite elem_of_cons. split.
        -- intros [E | Hin]; [injection E as ->; rewrite Hb; split_and!; auto; unfold IPC_IRQ_NONE; lia | now apply Hl in Hin].
        -- intros (E & _). left. congruence.
      * split; [intros Hin; now apply Hl in Hin | intros (_ & _ & E); congruence].
    + destruct b; [rewrite elem_of_cons |]; rewrite H4; [| reflexivity]. split; [intros [E | ?]; [congruence | assumption] | auto].
  - cbn. apply irqs_distinct_insert; auto.
Qed.

(** Instance [i] gives its device back. *)
Lemma devices_drop l d i n0 : devices_exact l d -> irq_of d i = Some n0 -> devices_exact (drop_device i l) (with_irq i IPC_IRQ_NONE d).
Proof.
  intros [H1 H2 H3 H4 H5] Hn. constructor; [cbn; now rewrite setZ_length | exact H2 | now apply drop_device_nodup | |].
  - intros j n. rewrite drop_device_elem, H4, (irq_with_irq d i j _ n0 Hn). cbn [fst].
    change (state_of (with_irq i IPC_IRQ_NONE d) j) with (state_of d j). case_decide as E; [| tauto].
    split; [intros [_ ?]; contradiction | intros (E1 & E2 & _); congruence].
  - cbn. apply irqs_distinct_insert; auto.
Qed.

(** The state of instance [i] goes, and its device with it. *)
Lemma devices_disable l d i u0 u :
  devices_exact l d -> nthZ (pd_uio_id d) i = Some u0 -> uio_state u <> IPC_SHM_INSTANCE_ENABLED ->
  devices_exact (drop_device i l) (with_uio i u d).
Proof.
  intros [H1 H2 H3 H4 H5] Hu Hs. constructor; [exact H1 | cbn; now rewrite setZ_length | now apply drop_device_nodup | | exact H5].
  intros j n. rewrite drop_device_elem, H4, (state_with_uio d i j u u0 Hu). cbn [fst].
  change (irq_of (with_uio i u d) j) with (irq_of d j). case_decide as E; [| tauto].
  split; [intros [_ ?]; contradiction | intros (_ & _ & E'); congruence].
Qed.

Lemma drop_device_none i l : i ∉ l.*1 -> drop_device i l = l.
Proof.
  induction l as [| x l IH]; [reflexivity |]. cbn [fmap list_fmap]. intros [Hx Hl]%not_elem_of_cons. unfold drop_device. cbn [List.filter].
  destruct (Z.eqb_spec x.1 i); [congruence |]. cbn [negb]. f_equal. now apply IH.
Qed.

(** ** The operations *)

Section Module.
Context {H K : Type} `{UK : UioKernel K} `{HO : HwOps (uplat H K)} `{UR : !UioResources H K}.
Abbreviation P := (uplat H K).

Record uholds (r : uio_res) (d : ipc_pdev_priv_type) (p : P) : Prop := {
  uh_res : held (up_kern p) = r;
  uh_pdev : up_pdev p = d
}.

Lemma uio_kern_triple {A} (c : M K A) r d (R : A -> uio_res -> Prop) :
  (forall k, held k = r -> exists a k', c k = Ret a k' /\ R a (held k')) ->
  triple (uholds r d) (on_kern c) (fun a p => exists r', R a r' /\ uholds r' d p).
Proof.
  intros Hc m p [E1 E2]. destruct (Hc (up_kern p) E1) as (a & k' & E & HR). exists a, m, (UPlat (up_hw p) (up_pdev p) k').
  unfold on_kern, czoom. cbn [fst snd]. rewrite E. split; [reflexivity |]. exists (held k'). split; [exact HR | now constructor].
Qed.

Lemma uio_kern_known {A} (c : M K A) r d (f : uio_res -> uio_res) :
  (forall k, held k = r -> exists a k', c k = Ret a k' /\ held k' = f (held k)) ->
  triple (uholds r d) (on_kern c) (fun _ => uholds (f r) d).
Proof.
  intros Hc. eapply triple_post; [apply (uio_kern_triple c r d (fun _ r' => r' = f r)) |].
  - intros k E. destruct (Hc k E) as (a & k' & E' & Eh). exists a, k'. rewrite <- E. auto.
  - intros a p (r' & -> & Hp). exact Hp.
Qed.

Lemma get_pdev_triple r d : triple (uholds r d) get_pdev (fun a p => a = d /\ uholds r d p).
Proof. intros m p Hp. exists (up_pdev p), m, p. split; [reflexivity |]. split; [apply Hp | exact Hp]. Qed.

Lemma upd_pdev_triple f r d : triple (uholds r d) (upd_pdev f) (fun _ => uholds r (f d)).
Proof. intros m p [E1 E2]. eexists tt, m, _. split; [reflexivity |]. constructor; cbn; congruence. Qed.

Lemma get_uio_triple i u r d : nthZ (pd_uio_id d) i = Some u -> triple (uholds r d) (get_uio i) (fun a p => a = u /\ uholds r d p).
Proof.
  intros Hu. unfold get_uio. eapply triple_bind; [apply get_pdev_triple |]. intros a. apply triple_fact. intros ->. rewrite Hu.
  apply triple_ret. auto.
Qed.

Lemma upd_uio_triple i u f r d : nthZ (pd_uio_id d) i = Some u -> triple (uholds r d) (upd_uio i f) (fun _ => uholds r (with_uio i (f u) d)).
Proof.
  intros Hu. unfold upd_uio. eapply triple_bind; [apply get_uio_triple; exact Hu |]. intros a. apply triple_fact. intros ->.
  apply upd_pdev_triple.
Qed.

Lemma get_irq_init_triple i n r d : irq_of d i = Some n -> triple (uholds r d) (get_irq_init i) (fun a p => a = n /\ uholds r d p).
Proof.
  intros Hn. unfold get_irq_init. eapply triple_bind; [apply get_pdev_triple |]. intros a. apply triple_fact. intros ->.
  unfold irq_of in Hn. rewrite Hn. apply triple_ret. auto.
Qed.

Lemma set_irq_init_triple i n n0 r d : irq_of d i = Some n0 -> triple (uholds r d) (set_irq_init i n) (fun _ => uholds r (with_irq i n d)).
Proof.
  intros Hn. unfold set_irq_init. eapply triple_bind; [apply get_irq_init_triple; exact Hn |]. intros a. apply triple_fact. intros _.
  apply upd_pdev_triple.
Qed.

Lemma irq_taken_triple irq r d :
  length (pd_irq_num_init d) = 4%nat ->
  triple (uholds r d) (irq_taken irq) (fun b p => b = bool_decide (irq ∈ pd_irq_num_init d) /\ uholds r d p).
Proof.
  intros Hl m p Hp. assert (E := irq_taken_eval irq (m, p)). unfold irq_table in E. cbn [snd] in E. rewrite (uh_pdev _ _ _ Hp) in E.
  eexists _, m, p. split; [now apply E | auto].
Qed.

(** The class is held if the pointer to it is one. *)
Definition class_known (r : uio_res) (d : ipc_pdev_priv_type) : Prop := ur_class r = negb (is_err_or_null (pd_class d)).

(** The character device as in [r], and devices that match the tables. *)
Definition exact_for (r : uio_res) (p : P) : Prop :=
  exists l d, uholds (with_devices (fun _ => l) r) d p /\ devices_exact l d /\ class_known r d.

(** The two ways in which an initialisation leaves tables and devices apart:
    instance [i] gets a new number although it has a device, or the registration
    fails, with error [e], where the state still says enabled from an earlier
    device. *)
Definition slipped (i e : Z) (l : list (Z * Z)) (d : ipc_pdev_priv_type) (p : P) : Prop :=
  ~ devices_exact (devices (held (up_kern p))) (up_pdev p) /\
  exists irq, 0 <= irq /\ (irq ∉ pd_irq_num_init d) /\ irq_of (up_pdev p) i = Some irq /\
    (i ∈ l.*1 \/ e <> 0 /\ (i ∉ l.*1) /\ state_of d i = Some IPC_SHM_INSTANCE_ENABLED).

(** In none of these do tables and devices agree afterwards. *)
Lemma slipped_again l d d' i irq : devices_exact l d -> i ∈ l.*1 -> irq ∉ pd_irq_num_init d -> irq_of d' i = Some irq -> ~ devices_exact l d'.
Proof.
  intros He Hi Hnew Hirq He'. apply list_elem_of_fmap in Hi as ([j n] & -> & Hin). cbn [fst] in *.
  assert (Hn' := Hin). apply (de_iff _ _ He') in Hn' as [Hn' _]. apply (de_iff _ _ He) in Hin as [Hn _].
  rewrite Hirq in Hn'. injection Hn' as ->. apply Hnew. unfold irq_of in Hn. apply nthZ_Some in Hn as [_ Hn]. eapply list_elem_of_lookup_2; eauto.
Qed.

Lemma slipped_phantom l d' i irq :
  i ∉ l.*1 -> 0 <= irq -> irq_of d' i = Some irq -> state_of d' i = Some IPC_SHM_INSTANCE_ENABLED -> ~ devices_exact l d'.
Proof.
  intros Hi H0 Hirq Hst He'. apply Hi, (registered_iff l d' i He'). split; [exact Hst |]. exists irq. split; [exact Hirq | unfold IPC_IRQ_NONE; lia].
Qed.

(** What an initialisation of instance [i] comes to. *)
Definition init_outcome (r : uio_res) (i : Z) (l : list (Z * Z)) (d : ipc_pdev_priv_type) (e : Z) (p : P) : Prop :=
  exact_for r p \/ slipped i e l d p.

Lemma register_triple i irq u r l d :
  devices_exact l d -> class_known r d -> nthZ (pd_uio_id d) i = Some u -> 0 <= irq -> irq ∉ pd_irq_num_init d ->
  triple (uholds (with_devices (fun _ => l) r) d)
    (set_irq_init i irq ;;;
     upd_uio i (set_refcnt 1) ;;;
     let* n := get_irq_init i in
     upd_uio i (set_info_irq n) ;;;
     let* err := on_kern (uio_register_device i n) in
     if negb (err =? 0) then cret err else
     upd_uio i (set_uio_state IPC_SHM_INSTANCE_ENABLED) ;;; cret 0) (init_outcome r i l d).
Proof.
  intros He Hcl Hu Hirq Hnew.
  assert (Hi4 : 0 <= i < 4).
  { assert (Hx := Hu). apply nthZ_Some in Hx as [Hx Hy]. apply lookup_lt_Some in Hy. rewrite (de_uios _ _ He) in Hy. lia. }
  destruct (nthZ_total _ i (de_irqs _ _ He) Hi4) as [n0 Hn0].
  eapply triple_bind; [apply (set_irq_init_triple i irq n0); exact Hn0 |]. intros [].
  eapply triple_bind; [apply (upd_uio_triple i u); exact Hu |]. intros []. set (u1 := set_refcnt 1 u).
  assert (Hat : forall u', nthZ (pd_uio_id (with_uio i u' (with_irq i irq d))) i = Some u') by (intros; cbn; now apply (nthZ_setZ _ _ _ u)).
  assert (Hset : forall u' u'', with_uio i u'' (with_uio i u' (with_irq i irq d)) = with_uio i u'' (with_irq i irq d)).
  { intros u' u''. unfold with_uio. cbn. now rewrite setZ_setZ. }
  assert (Hirqi : forall u', irq_of (with_uio i u' (with_irq i irq d)) i = Some irq) by (intros u'; unfold irq_of; cbn; now apply (nthZ_setZ _ _ _ n0)).
  eapply triple_bind; [apply (get_irq_init_triple i irq); apply Hirqi |].
  intros n. apply triple_fact. intros ->.
  eapply triple_bind; [apply (upd_uio_triple i u1); apply Hat |]. intros []. rewrite Hset. set (u2 := set_info_irq irq u1).
  eapply triple_bind.
  { apply (uio_kern_triple _ _ _ (fun e r' => e = 0 /\ r' = with_devices (cons (i, irq)) (with_devices (fun _ => l) r) \/
      e <> 0 /\ r' = with_devices (fun _ => l) r)). intros k <-. apply ul_register. }
  intros e. apply triple_ex. intros r'. apply triple_fact. intros [[-> ->] | (Hne & ->)].
  - cbn [Z.eqb negb]. eapply triple_bind; [apply (upd_uio_triple i u2); apply Hat |]. intros []. rewrite Hset. apply triple_ret.
    intros p Hp. destruct (decide (i ∈ l.*1)) as [Hi | Hi].
    + right. destruct Hp as [Er Ed]. unfold slipped. rewrite Er, Ed. split; [| exists irq; auto].
      intros He'. assert (Hnd := de_nodup _ _ He'). cbn in Hnd. apply NoDup_cons in Hnd as [Hnd _]. contradiction.
    + left. exists ((i, irq) :: l). eexists. split_and!; [exact Hp | | exact Hcl]. now apply (devices_claim l d i irq u _ true).
  - apply Z.eqb_neq in Hne as E. rewrite E. cbn [negb]. apply triple_ret. intros p Hp.
    destruct (decide (i ∈ l.*1)) as [Hi | Hi].
    { right. destruct Hp as [Er Ed]. unfold slipped. rewrite Er, Ed. split; [now apply (slipped_again l d _ i irq) | exists irq; auto]. }
    destruct (Z.eq_dec (uio_state u) IPC_SHM_INSTANCE_ENABLED) as [Es | Es].
    + right. destruct Hp as [Er Ed]. unfold slipped. rewrite Er, Ed.
      assert (Hst : state_of d i = Some IPC_SHM_INSTANCE_ENABLED) by (unfold state_of; now rewrite Hu, <- Es).
      split; [| exists irq; split_and!; auto]. apply (slipped_phantom l _ i irq); [exact Hi | exact Hirq | apply Hirqi |]. unfold state_of. rewrite Hat. cbn. now rewrite <- Es.
    + left. exists l. eexists. split_and!; [exact Hp | | exact Hcl]. now apply (devices_claim l d i irq u u2 false).
Qed.

Lemma ipc_uio_init_triple data u r l d :
  devices_exact l d -> class_known r d -> nthZ (pd_uio_id d) (cd_instance data) = Some u ->
  triple (uholds (with_devices (fun _ => l) r) d) (ipc_uio_init data) (init_outcome r (cd_instance data) l d).
Proof.
  intros He Hcl Hu. unfold ipc_uio_init. set (i := cd_instance data) in *.
  assert (Hend : forall e : Z, triple (uholds (with_devices (fun _ => l) r) d) (cret e) (init_outcome r i l d))
    by (intros; apply triple_ret; intros p Hp; left; exists l, d; auto).
  eapply triple_bind; [apply get_uio_triple; exact Hu |]. intros a. apply triple_fact. intros _.
  eapply (triple_bind _ _ (fun _ => uholds (with_devices (fun _ => l) r) d)).
  { intros m p [E1 E2]. destruct (ul_hw_init i (cd_cfg data) m p) as (e & m' & p' & E & E3 & E4). exists e, m', p'.
    split; [exact E | constructor; congruence]. }
  intros e. destruct (negb _); [apply Hend |]. destruct (_ =? _); [apply Hend |].
  eapply (triple_bind _ _ (fun _ => uholds (with_devices (fun _ => l) r) d)).
  { intros m p [E1 E2]. destruct (ul_rx_irq i m p) as (n & p' & E & E3 & E4). exists n, m, p'. split; [exact E | constructor; congruence]. }
  intros rx. eapply triple_bind; [apply (uio_kern_known _ _ _ id); intros k _; apply ul_get_irq |]. intros irq.
  destruct (Z.ltb_spec irq 0); [apply Hend |].
  eapply triple_bind; [apply irq_taken_triple; apply He |]. intros b. apply triple_fact. intros ->. case_bool_decide; [apply Hend |].
  now apply (register_triple i irq u).
Qed.

Lemma ipc_uio_free_triple data u r l d :
  devices_exact l d -> class_known r d -> nthZ (pd_uio_id d) (cd_instance data) = Some u ->
  triple (uholds (with_devices (fun _ => l) r) d) (ipc_uio_free data) (fun _ => exact_for r).
Proof.
  intros He Hcl Hu. unfold ipc_uio_free. set (i := cd_instance data) in *.
  assert (Hend : forall e : Z, triple (uholds (with_devices (fun _ => l) r) d) (cret e) (fun _ => exact_for r))
    by (intros; apply triple_ret; intros p Hp; exists l, d; auto).
  destruct (_ <? _); [| apply Hend].
  eapply triple_bind; [apply get_uio_triple; exact Hu |]. intros a. apply triple_fact. intros ->.
  destruct (Z.eqb_spec (uio_state u) IPC_SHM_INSTANCE_ENABLED) as [Es |]; cbn [negb]; [| apply Hend].
  assert (Hi4 : 0 <= i < 4).
  { assert (Hx := Hu). apply nthZ_Some in Hx as [Hx Hy]. apply lookup_lt_Some in Hy. rewrite (de_uios _ _ He) in Hy. lia. }
  destruct (nthZ_total _ i (de_irqs _ _ He) Hi4) as [n Hn].
  eapply triple_bind; [apply get_irq_init_triple; exact Hn |]. intros x. apply triple_fact. intros ->.
  destruct (Z.eqb_spec n IPC_IRQ_NONE) as [| Hne]; [apply Hend |].
  eapply triple_bind; [apply (uio_kern_known _ _ _ (with_devices (drop_device i))) |].
  { intros k E. destruct (ul_unregister i k) as (k' & Ek & Eh); [| now exists tt, k'].
    rewrite E. cbn [with_devices devices]. apply (registered_iff l d i He). unfold state_of. rewrite Hu. cbn. rewrite Es. eauto. }
  intros []. eapply triple_bind; [apply (set_irq_init_triple i _ n); exact Hn |]. intros []. apply triple_ret.
  intros p Hp. exists (drop_device i l). eexists. split_and!; [exact Hp | now apply (devices_drop l d i n) | exact Hcl].
Qed.

(** A request is handled exactly or is an initialisation that slips. *)
Definition request_outcome (cmd : ioc_cmd) (user : option ipc_uio_cdev_data) (r : uio_res) (l : list (Z * Z)) (d : ipc_pdev_priv_type) (e : Z) (p : P) : Prop :=
  exact_for r p \/ exists data, cmd = IPC_IOC_INIT /\ user = Some data /\ slipped (cd_instance data) e l d p.

Lemma ioctl_triple cmd arg user r l d :
  devices_exact l d -> class_known r d -> (forall data, user = Some data -> 0 <= cd_instance data) ->
  triple (uholds (with_devices (fun _ => l) r) d) (ipc_cdev_ioctl cmd arg user) (request_outcome cmd user r l d).
Proof.
  intros He Hcl Hpos. unfold ipc_cdev_ioctl. eapply triple_bind; [apply upd_pdev_triple |]. intros [].
  assert (He' : devices_exact l (set_cmd cmd d)) by now apply (devices_exact_ext l d).
  assert (Hend : forall (e : Z) d', devices_exact l d' -> class_known r d' ->
            triple (uholds (with_devices (fun _ => l) r) d') (cret e) (request_outcome cmd user r l d))
    by (intros; apply triple_ret; intros p Hp; left; eexists l, _; eauto).
  assert (Hdata : forall data u, user = Some data -> nthZ (pd_uio_id d) (cd_instance data) = Some u ->
            let d2 := with_uio (cd_instance data) (set_data data u) (set_cmd cmd d) in
            nthZ (pd_uio_id d2) (cd_instance data) = Some (set_data data u) /\ devices_exact l d2 /\
            forall i, state_of d2 i = state_of d i).
  { intros data u Ed Hu d2. split; [cbn; now apply (nthZ_setZ _ _ _ u) |].
    assert (Hs : forall i, state_of d2 i = state_of d i).
    { intros i. unfold d2. change (state_of d i) with (state_of (set_cmd cmd d) i).
      rewrite (state_with_uio (set_cmd cmd d) (cd_instance data) i (set_data data u) u Hu).
      case_decide as E; [| reflexivity]. subst i. unfold state_of. cbn. now rewrite Hu. }
    split; [| exact Hs]. apply (devices_exact_ext l d); auto. cbn. apply setZ_length. }
  destruct cmd as [| | | | v]; try (eapply triple_bind; [apply upd_pdev_triple |]; intros []); try (apply Hend; [now apply (devices_exact_ext l d) | exact Hcl]);
    (destruct user as [data |]; [| now apply Hend]); specialize (Hpos data eq_refl); unfold IPC_SHM_MAX_INSTANCES;
    (destruct (Z.leb_spec 4 (cd_instance data)); [now apply Hend |]);
    destruct (nthZ_total _ (cd_instance data) (de_uios _ _ He) ltac:(lia)) as [u Hu]; destruct (Hdata data u eq_refl Hu) as (Hu2 & He2 & Hs2);
    (eapply triple_bind; [apply (upd_uio_triple _ u); exact Hu |]; intros []).
  - eapply triple_post; [eapply ipc_uio_init_triple; [exact He2 | exact Hcl | exact Hu2] |].
    intros e p [Hex | (Hn & irq & H1 & H2 & H3 & H4)]; [now left | right]. exists data. split_and!; auto. split; [exact Hn |]. exists irq. rewrite Hs2 in H4. auto.
  - eapply triple_post; [eapply ipc_uio_free_triple; [exact He2 | exact Hcl | exact Hu2] |]. intros e p Hex. now left.
Qed.

(** A request of user space, of any kind, that slips. *)
Definition slip (s s' : memory * P) : Prop :=
  exists arg data e, 0 <= cd_instance data /\ ipc_cdev_ioctl IPC_IOC_INIT arg (Some data) s = Ret e s' /\
    slipped (cd_instance data) e (devices (held (up_kern s.2))) (up_pdev s.2) s'.2.

Lemma ioctl_exact cmd arg user s r :
  exact_for r s.2 -> (forall data, user = Some data -> 0 <= cd_instance data) ->
  exists e s', ipc_cdev_ioctl cmd arg user s = Ret e s' /\ (exact_for r s'.2 \/ slip s s').
Proof.
  intros (l & d & Hp & He & Hcl) Hpos. destruct s as [m p]. cbn [snd] in *.
  destruct (ioctl_triple cmd arg user r l d He Hcl Hpos m p Hp) as (e & m' & p' & E & H').
  exists e, (m', p'). split; [exact E |]. destruct H' as [H' | (data & -> & -> & H')]; [now left | right].
  exists arg, data, e. split; [now apply Hpos |]. split; [exact E |]. cbn [snd]. destruct Hp as [Er Ed]. rewrite Er, Ed. exact H'.
Qed.

(** ** Remove *)

Definition idle_below (n : Z) (d : ipc_pdev_priv_type) : Prop :=
  forall i, 0 <= i < n -> state_of d i <> Some IPC_SHM_INSTANCE_ENABLED.

Lemma remove_one_instance i r l d :
  devices_exact l d -> 0 <= i < 4 -> idle_below i d ->
  triple (uholds (with_devices (fun _ => l) r) d)
    (let* u := get_uio i in
     if uio_state u =? IPC_SHM_INSTANCE_ENABLED then
       upd_uio i (set_uio_state IPC_SHM_INSTANCE_DISABLED) ;;;
       let* n := get_irq_init i in
       if n =? IPC_IRQ_NONE then cret (inl tt) else
       on_kern (uio_unregister_device i) ;;;
       cret (inl tt)
     else cret (inl tt))
    (fun x p => x = inl (B := unit) tt /\ exists l d, uholds (with_devices (fun _ => l) r) d p /\ devices_exact l d /\ idle_below (i + 1) d).
Proof.
  intros He Hi Hidle. destruct (nthZ_total _ i (de_uios _ _ He) Hi) as [u Hu]. destruct (nthZ_total _ i (de_irqs _ _ He) Hi) as [n Hn].
  eapply triple_bind; [apply get_uio_triple; exact Hu |]. intros a. apply triple_fact. intros ->.
  destruct (Z.eqb_spec (uio_state u) IPC_SHM_INSTANCE_ENABLED) as [Es | Es].
  2: { apply triple_ret. intros p Hp. split; [reflexivity |]. exists l, d. split_and!; auto. intros j Hj.
       destruct (Z.eq_dec j i) as [-> | Hne]; [unfold state_of; rewrite Hu; cbn; congruence | apply Hidle; lia]. }
  eapply triple_bind; [apply (upd_uio_triple i u); exact Hu |]. intros []. set (u' := set_uio_state _ u).
  assert (He' : devices_exact (drop_device i l) (with_uio i u' d)) by (apply (devices_disable l d i u); auto; vm_compute; discriminate).
  assert (Hidle' : idle_below (i + 1) (with_uio i u' d)).
  { intros j Hj. rewrite (state_with_uio d i j u' u Hu). case_decide; [vm_compute; discriminate | apply Hidle; lia]. }
  eapply triple_bind; [apply (get_irq_init_triple i n); exact Hn |]. intros x. apply triple_fact. intros ->.
  destruct (Z.eqb_spec n IPC_IRQ_NONE) as [-> | Hne].
  - apply triple_ret. intros p Hp. split; [reflexivity |]. exists (drop_device i l). eexists. split_and!; [| exact He' | exact Hidle'].
    rewrite drop_device_none; [exact Hp |]. intros Hin. apply (registered_iff l d i He) in Hin as (_ & n' & En & Hn').
    unfold irq_of in En. rewrite Hn in En. congruence.
  - eapply triple_bind; [apply (uio_kern_known _ _ _ (with_devices (drop_device i))) |].
    { intros k E. destruct (ul_unregister i k) as (k' & Ek & Eh); [| now exists tt, k'].
      rewrite E. cbn [with_devices devices]. apply (registered_iff l d i He). unfold state_of. rewrite Hu. cbn. rewrite Es. eauto. }
    intros []. apply triple_ret. intros p Hp. split; [reflexivity |]. exists (drop_device i l). eexists. split_and!; [exact Hp | exact He' | exact Hidle'].
Qed.

Lemma ipc_shm_uio_remove_triple r :
  ur_class r = true ->
  triple (exact_for r) ipc_shm_uio_remove (fun _ p =>
    no_chrdev (held (up_kern p)) /\ devices (held (up_kern p)) = [] /\ idle_below 4 (up_pdev p)).
Proof.
  intros Hclass. unfold ipc_shm_uio_remove. intros m p (l & d & Hp & He & Hcl). revert m p Hp.
  assert (Hptr : is_err_or_null (pd_class d) = false) by (unfold class_known in Hcl; rewrite Hclass in Hcl; now destruct (is_err_or_null _)).
  set (goal := fun (_ : unit) (p : P) => no_chrdev (held (up_kern p)) /\ devices (held (up_kern p)) = [] /\ idle_below 4 (up_pdev p)).
  match goal with |- forall m p, uholds ?x ?y p -> exists a m' p', ?c _ = _ /\ _ => change (triple (uholds x y) c goal) end.
  eapply triple_bind; [apply get_pdev_triple |]. intros a. apply triple_fact. intros ->.
  eapply triple_bind; [apply (uio_kern_known _ _ _ (with_node false)); intros k _; destruct (ul_device_destroy (pd_class d) (pd_major d) k Hptr) as (k' & E); eauto |]. intros [].
  eapply triple_bind; [apply (uio_kern_known _ _ _ (with_class false)); intros k _; destruct (ul_class_destroy (pd_class d) k) as (k' & E); rewrite Hptr in E; eauto |]. intros [].
  eapply triple_bind; [apply (uio_kern_known _ _ _ (with_cdev false)); intros k _; destruct (ul_cdev_del k) as (k' & E); eauto |]. intros [].
  eapply triple_bind; [apply (uio_kern_known _ _ _ (with_region false)); intros k _; destruct (ul_unregion (pd_major d) k) as (k' & E); eauto |]. intros [].
  set (r0 := UioRes (devices r) false false false false).
  match goal with |- triple (uholds ?x _) _ _ => change x with (with_devices (fun _ => l) r0) end.
  intros m p Hp.
  set (I := fun (i : Z) (s : memory * P) => exists l d, uholds (with_devices (fun _ => l) r0) d s.2 /\ devices_exact l d /\ idle_below i d).
  match goal with |- context [cfor ?n ?i ?b] => destruct (cfor_inv (R := unit) I b n i (m, p)) as ([m' p'] & E & (l' & d' & Hp' & He' & Hid)) end.
  - exists l, d. split; [exact Hp |]. split; [exact He |]. intros j Hj. lia.
  - intros j [mj pj] Hj (lj & dj & Hpj & Hej & Hidj). cbn [snd] in Hpj. change (Z.of_nat (Z.to_nat IPC_SHM_MAX_INSTANCES)) with 4 in Hj.
    destruct (remove_one_instance j r0 lj dj Hej ltac:(lia) Hidj mj pj Hpj) as (x & m1 & p1 & E1 & -> & H1).
    exists (m1, p1). split; [exact E1 | exact H1].
  - rewrite (cbind_Ret _ _ _ _ _ E). exists tt, m', p'. split; [reflexivity |]. cbn [snd] in Hp'.
    assert (Hid4 : idle_below 4 d') by exact Hid. destruct Hp' as [Er Ed]. unfold goal. rewrite Er, Ed. split_and!; [now split_and! | | exact Hid].
    cbn [with_devices devices]. destruct l' as [| [i n] l']; [reflexivity |]. exfalso.
    assert (Hin : (i, n) ∈ (i, n) :: l') by now left. apply (de_iff _ _ He') in Hin as (Hirq & _ & Hs).
    unfold irq_of in Hirq. apply nthZ_Some in Hirq as [H1 H2]. apply lookup_lt_Some in H2. rewrite (de_irqs _ _ He') in H2.
    apply (Hid4 i); [lia | exact Hs].
Qed.

(** ** Probe *)

(** Numbers below [i] are set to "none", the states are those of before. *)
Definition cleared_below (i : Z) (d0 d : ipc_pdev_priv_type) : Prop :=
  length (pd_irq_num_init d) = 4%nat /\ length (pd_uio_id d) = 4%nat /\ (forall j, state_of d j = state_of d0 j) /\
  forall j, 0 <= j < i -> irq_of d j = Some IPC_IRQ_NONE.

Lemma clear_triple i r d0 d :
  cleared_below i d0 d -> 0 <= i < 4 ->
  triple (uholds r d) (upd_uio i (set_uio_irq IPC_IRQ_NONE) ;;; set_irq_init i IPC_IRQ_NONE ;;; cret (inl tt))
    (fun x p => x = inl (B := unit) tt /\ exists d, uholds r d p /\ cleared_below (i + 1) d0 d).
Proof.
  intros (H1 & H2 & H3 & H4) Hi. destruct (nthZ_total _ i H2 Hi) as [u Hu]. destruct (nthZ_total _ i H1 Hi) as [n Hn].
  eapply triple_bind; [apply (upd_uio_triple i u); exact Hu |]. intros [].
  eapply triple_bind; [apply (set_irq_init_triple i _ n); exact Hn |]. intros []. apply triple_ret. intros p Hp. split; [reflexivity |].
  eexists. split; [exact Hp |]. unfold cleared_below. split_and!; [cbn; now rewrite setZ_length .. | |].
  - intros j. rewrite <- H3. change (state_of (with_irq i IPC_IRQ_NONE (with_uio i (set_uio_irq IPC_IRQ_NONE u) d)) j)
      with (state_of (with_uio i (set_uio_irq IPC_IRQ_NONE u) d) j).
    rewrite (state_with_uio d i j (set_uio_irq IPC_IRQ_NONE u) u Hu). case_decide as E; [| reflexivity]. subst j. unfold state_of. now rewrite Hu.
  - intros j Hj. rewrite (irq_with_irq (with_uio i (set_uio_irq IPC_IRQ_NONE u) d) i j IPC_IRQ_NONE n Hn). case_decide; [reflexivity |].
    apply H4. lia.
Qed.

Lemma cleared_exact d0 d : cleared_below 4 d0 d -> idle_below 4 d0 -> devices_exact [] d.
Proof.
  intros (H1 & H2 & H3 & H4) Hid. constructor; [exact H1 | exact H2 | constructor | |].
  - intros i n. split; [intros Hin; now apply not_elem_of_nil in Hin |]. intros (Hn & Hne & _). exfalso.
    assert (Hi := Hn). unfold irq_of in Hi. apply nthZ_Some in Hi as [Hi Hl]. apply lookup_lt_Some in Hl.
    rewrite H4 in Hn by lia. congruence.
  - intros i j n Hi _ Hne. exfalso. assert (Hl := Hi). apply lookup_lt_Some in Hl.
    assert (Hz := H4 (Z.of_nat i) ltac:(lia)). unfold irq_of in Hz. apply nthZ_Some in Hz as [_ Hz]. rewrite Nat2Z.id in Hz. congruence.
Qed.

(** Region and character device; the class if the pointer to it is one, and a node
    in no other class. *)
Definition chrdev_up (r : uio_res) (d : ipc_pdev_priv_type) : Prop :=
  ur_region r = true /\ ur_cdev r = true /\ class_known r d /\ (ur_node r = true -> ur_class r = true).

(** The verdict of probe. *)
Definition probed (e : Z) (p : P) : Prop :=
  exists r d, uholds r d p /\ devices r = [] /\ devices_exact [] d /\ (e = 0 /\ chrdev_up r d \/ e <> 0 /\ no_chrdev r).

Lemma probe_tables_triple r d :
  length (pd_irq_num_init d) = 4%nat -> length (pd_uio_id d) = 4%nat -> idle_below 4 d ->
  triple (uholds r d)
    (cfor (R := unit) (Z.to_nat IPC_SHM_MAX_INSTANCES) 0 (fun i =>
       upd_uio i (set_uio_irq IPC_IRQ_NONE) ;;; set_irq_init i IPC_IRQ_NONE ;;; cret (inl tt)))
    (fun _ p => exists d, devices_exact [] d /\ uholds r d p).
Proof.
  intros H1 H2 Hid m p Hp.
  set (I := fun (i : Z) (s : memory * P) => exists d', uholds r d' s.2 /\ cleared_below i d d').
  match goal with |- context [cfor ?n ?i ?b] => destruct (cfor_inv (R := unit) I b n i (m, p)) as ([m' p'] & E & (d' & Hp' & Hc)) end.
  - exists d. split; [exact Hp |]. unfold cleared_below. split_and!; auto. intros j Hj. lia.
  - intros j [mj pj] Hj (dj & Hpj & Hcj). cbn [snd] in Hpj. change (Z.of_nat (Z.to_nat IPC_SHM_MAX_INSTANCES)) with 4 in Hj.
    destruct (clear_triple j r d dj Hcj ltac:(lia) mj pj Hpj) as (x & m1 & p1 & E1 & -> & Hd1). exists (m1, p1). auto.
  - exists (inl tt), m', p'. split; [exact E |]. exists d'. split; [now apply (cleared_exact d) | exact Hp'].
Qed.

Lemma fail_add_cdev_triple err r d :
  err <> 0 -> devices r = [] -> devices_exact [] d -> ur_cdev r = false /\ ur_class r = false /\ ur_node r = false ->
  triple (uholds r d) (fail_add_cdev err) probed.
Proof.
  intros He Hr Hd (H1 & H2 & H3). unfold fail_add_cdev. eapply triple_bind; [apply get_pdev_triple |]. intros a. apply triple_fact. intros ->.
  eapply triple_bind; [apply (uio_kern_known _ _ _ (with_region false)); intros k _; destruct (ul_unregion (pd_major d) k) as (k' & E); eauto |].
  intros []. apply triple_ret. intros p Hp. eexists _, d. split; [exact Hp |]. split_and!; auto. right. split; [exact He | now split_and!].
Qed.

Lemma fail_create_class_triple err r d :
  err <> 0 -> devices r = [] -> devices_exact [] d -> ur_class r = false /\ ur_node r = false ->
  triple (uholds r d) (fail_create_class err) probed.
Proof.
  intros He Hr Hd (H1 & H2). unfold fail_create_class.
  eapply triple_bind; [apply (uio_kern_known _ _ _ (with_cdev false)); intros k _; destruct (ul_cdev_del k) as (k' & E); eauto |].
  intros []. now apply fail_add_cdev_triple.
Qed.

(** The last two steps: class and node. *)
Lemma probe_class_triple n r d :
  devices r = [] -> devices_exact [] d -> ur_region r = true /\ ur_cdev r = true /\ ur_class r = false /\ ur_node r = false ->
  triple (uholds r d)
    (let* cls := on_kern class_create in
     upd_pdev (set_class cls) ;;;
     if cls =? NULL then fail_create_class (- EEXIST) else
     let* dev := on_kern (device_create cls n) in
     if dev =? NULL then fail_create_device (- EINVAL) else
     upd_pdev (set_mutex false) ;;;
     cret 0) probed.
Proof.
  intros Hr Hd (H1 & H2 & H3 & H4).
  assert (Hx : forall c, devices_exact [] (set_class c d)) by (intros c; now apply (devices_exact_ext [] d)).
  eapply triple_bind.
  { apply (uio_kern_triple _ _ _ (fun c r' => r' = with_class (negb (is_err_or_null c)) r)).
    intros k Ek. destruct (ul_class_create k) as (c & k' & E & [[Hc Eh] | [Hc Eh]]); exists c, k'; rewrite Hc, Eh, Ek; split; auto.
    destruct r; unfold with_class; cbn in *; congruence. }
  intros c. apply triple_ex. intros r1. apply triple_fact. intros ->. eapply triple_bind; [apply upd_pdev_triple |]. intros [].
  destruct (Z.eqb_spec c NULL) as [-> | Hc].
  { rewrite ul_null. apply fail_create_class_triple; [discriminate | exact Hr | apply Hx | auto]. }
  set (r1 := with_class _ r). eapply triple_bind.
  { apply (uio_kern_triple _ r1 _ (fun v r' => is_err_or_null v = true /\ r' = r1 \/ is_err_or_null c = false /\ is_err_or_null v = false /\ r' = with_node true r1)).
    intros k <-. apply ul_device_create. }
  intros v. apply triple_ex. intros r2. apply triple_fact. intros Hv. destruct (Z.eqb_spec v NULL) as [-> | Hnv].
  - destruct Hv as [[_ ->] | (_ & Hv & _)]; [| rewrite ul_null in Hv; discriminate].
    unfold fail_create_device. eapply triple_bind; [apply get_pdev_triple |]. intros x. apply triple_fact. intros ->. cbn [set_class pd_class].
    eapply triple_bind; [apply (uio_kern_known _ _ _ (fun _ => with_class false r1)) |].
    { intros k E. destruct (ul_class_destroy c k) as (k' & Ek & Eh). exists tt, k'. split; [exact Ek |]. rewrite Eh, E. unfold r1.
      destruct (is_err_or_null c); reflexivity. }
    intros []. apply fail_create_class_triple; [discriminate | exact Hr | apply Hx | auto].
  - eapply triple_bind; [apply upd_pdev_triple |]. intros []. apply triple_ret. intros p Hp.
    eexists _, _. split; [exact Hp |]. split_and!; [destruct Hv as [[_ ->] | (_ & _ & ->)]; exact Hr | now apply (devices_exact_ext [] (set_class c d)) |].
    left. split; [reflexivity |]. destruct Hv as [[_ ->] | (Hc1 & _ & ->)]; unfold chrdev_up, class_known, r1; cbn; split_and!; auto; [congruence |].
    now rewrite Hc1.
Qed.

Lemma ipc_shm_uio_probe_triple r d :
  length (pd_irq_num_init d) = 4%nat -> length (pd_uio_id d) = 4%nat -> idle_below 4 d -> devices r = [] -> no_chrdev r ->
  triple (uholds r d) ipc_shm_uio_probe probed.
Proof.
  intros Hl1 Hl2 Hid Hr (N1 & N2 & N3 & N4). unfold ipc_shm_uio_probe.
  eapply triple_bind; [now apply probe_tables_triple |]. intros x0. apply triple_ex. intros d1. clear x0 Hl1 Hl2 Hid d. rename d1 into d. apply triple_fact. intros Hd.
  assert (Hx : forall d', pd_irq_num_init d' = pd_irq_num_init d -> pd_uio_id d' = pd_uio_id d -> devices_exact [] d').
  { intros d' E1 E2. apply (devices_exact_ext [] d); auto; [now rewrite E2 |]. intros i. unfold state_of. now rewrite E2. }
  eapply (triple_bind _ _ (fun _ => uholds r d)).
  { intros m p [E1 E2]. destruct (ul_ioremap m (up_kern p)) as (a & m' & k' & E & Eh). eexists a, m', _. unfold on_mem_kern, czoom.
    cbn [fst snd]. rewrite E. split; [reflexivity |]. constructor; cbn; congruence. }
  intros reg. eapply triple_bind; [apply upd_pdev_triple |]. intros [].
  assert (Hno : forall e d', e <> 0 -> devices_exact [] d' -> triple (uholds r d') (cret e) probed).
  { intros e d' He Hd'. apply triple_ret. intros p Hp. exists r, d'. split_and!; auto. right. split; [exact He | now split_and!]. }
  destruct (is_err_or_null reg); [apply Hno; [discriminate | now apply Hx] |].
  eapply triple_bind.
  { apply (uio_kern_triple _ r _ (fun a r' => a.1 < 0 /\ r' = r \/ 0 <= a.1 /\ r' = with_region true r)).
    intros k <-. destruct (ul_alloc k) as (e & n & k' & E & Hk). exists (e, n), k'. auto. }
  intros a. apply triple_ex. intros r1. apply triple_fact. intros Ha.
  eapply triple_bind; [apply upd_pdev_triple |]. intros []. cbn [set_major].
  destruct Ha as [[Ha ->] | [Ha ->]]; [destruct (Z.ltb_spec a.1 0); [| lia]; apply Hno; [lia | now apply Hx] |].
  destruct (Z.ltb_spec a.1 0); [lia |].
  eapply triple_bind.
  { apply (uio_kern_triple _ _ _ (fun e r' => e < 0 /\ r' = with_region true r \/ 0 <= e /\ r' = with_cdev true (with_region true r))).
    intros k <-. apply ul_cdev_add. }
  intros e. apply triple_ex. intros r1. apply triple_fact. intros [[He ->] | [He ->]]; (destruct (Z.ltb_spec e 0); try lia).
  { apply fail_add_cdev_triple; [lia | exact Hr | now apply Hx | auto]. }
  apply probe_class_triple; [exact Hr | now apply Hx | cbn; auto].
Qed.

(** ** Life *)

(** What happens between probe and remove: requests on the character device, of any
    kind and with any data (the instance number is unsigned), and steps that leave
    interrupt numbers, states, the class and resources alone. *)
Inductive uio_request : memory * P -> memory * P -> Prop :=
| Request cmd arg user s e s' : (forall data, user = Some data -> 0 <= cd_instance data) ->
    ipc_cdev_ioctl cmd arg user s = Ret e s' -> uio_request s s'
| Request_other s s' : held (up_kern s'.2) = held (up_kern s.2) ->
    pd_irq_num_init (up_pdev s'.2) = pd_irq_num_init (up_pdev s.2) ->
    length (pd_uio_id (up_pdev s'.2)) = length (pd_uio_id (up_pdev s.2)) ->
    pd_class (up_pdev s'.2) = pd_class (up_pdev s.2) ->
    (forall i, state_of (up_pdev s'.2) i = state_of (up_pdev s.2) i) -> uio_request s s'.

(** Opening and closing the character device or a UIO device are such steps. *)
Lemma cdev_open_other e s s' : ipc_cdev_open s = Ret e s' -> uio_request s s'.
Proof.
  unfold ipc_cdev_open, get_pdev, upd_pdev. cunfold. destruct (pd_mmap_mutex _); intros [= _ <-]; now apply Request_other.
Qed.

Lemma cdev_release_other e s s' : ipc_cdev_release s = Ret e s' -> uio_request s s'.
Proof. unfold ipc_cdev_release, upd_pdev. cunfold. intros [= _ <-]. now apply Request_other. Qed.

Lemma set_refcnt_other i n u s s' : uio_at i s = Some u -> upd_uio i (set_refcnt n) s = Ret tt s' -> uio_request s s'.
Proof.
  intros Hu E. unfold upd_uio in E. rewrite (cbind_Ret _ _ _ _ _ (get_uio_eval _ _ _ Hu)) in E. injection E as <-.
  apply Request_other; [reflexivity | reflexivity | apply setZ_length | reflexivity |]. intros j. cbn [snd up_pdev].
  change (state_of (with_uio i (set_refcnt n u) (up_pdev s.2)) j = state_of (up_pdev s.2) j).
  rewrite (state_with_uio _ i j (set_refcnt n u) u Hu). case_decide as E; [| reflexivity]. subst j. unfold state_of. unfold uio_at in Hu. now rewrite Hu.
Qed.

Lemma exact_for_request r s s' : exact_for r s.2 -> uio_request s s' -> exact_for r s'.2 \/ slip s s'.
Proof.
  intros He Hs. destruct Hs as [cmd arg user s e s' Hpos E | s s' E1 E2 E3 E4 E5].
  - destruct (ioctl_exact cmd arg user s r He Hpos) as (e1 & s1 & E' & He'). rewrite E in E'. now injection E' as _ <-.
  - left. destruct He as (l & d & [Hr Hd] & He & Hcl). exists l, (up_pdev s'.2). split_and!; [constructor; congruence | |].
    + apply (devices_exact_ext l d); auto; [congruence | congruence |]. intros i. now rewrite E5, Hd.
    + unfold class_known in *. now rewrite E4, Hd.
Qed.

(** A step in which nothing slips. *)
Definition clean_step (s s' : memory * P) : Prop := uio_request s s' /\ ~ slip s s'.

Lemma exact_for_clean r s s' : exact_for r s.2 -> rtc clean_step s s' -> exact_for r s'.2.
Proof.
  intros He Hs. induction Hs as [s | s s1 s' [Hst Hsl] Hs IH]; [exact He |].
  destruct (exact_for_request r s s1 He Hst); [now apply IH | contradiction].
Qed.

Lemma exact_not_slip r s s' : exact_for r s'.2 -> ~ slip s s'.
Proof.
  intros (l & d & [Er Ed] & He & _) (arg & data & e & _ & _ & Hn & _). apply Hn. now rewrite Er, Ed.
Qed.

(** A sequence of requests is clean or has a first step that slips. *)
Lemma requests_split r s s' : exact_for r s.2 -> rtc uio_request s s' ->
  rtc clean_step s s' \/ exists s1 s2, rtc clean_step s s1 /\ slip s1 s2 /\ rtc uio_request s2 s'.
Proof.
  intros He Hs. induction Hs as [s | s s1 s' Hst Hs IH]; [left; apply rtc_refl |].
  destruct (exact_for_request r s s1 He Hst) as [He1 | Hsl].
  - assert (Hc : clean_step s s1) by (split; [exact Hst | now apply (exact_not_slip r)]).
    destruct (IH He1) as [? | (a & b & H1 & H2 & H3)]; [left; eapply rtc_l; eauto | right].
    exists a, b. split_and!; auto. eapply rtc_l; eauto.
  - right. exists s, s1. split_and!; auto. apply rtc_refl.
Qed.

End Module.

(** ** Property *)

