(* ===== verification/UserSpec.v ===== *)
(** * Correctness of the user-space OS layer

    The interface [PlatformLaws] of the driver over UIO commands, the mapping
    of shared memory through whole pages, and the receive thread. *)

From S2P Require Import Prelude Memory Types World KernelOs UioModule UserOs.

(** Commands written to a UIO device complete (the result is not looked at). *)
Class PosixLaws (U : Type) `{Posix U} : Type := {
  write_int_law fd c u : exists n u', write_int fd c u = Ret n u';
  sched_yield_law u : exists u', sched_yield u = Ret tt u'
}.

Section User.
Context {U : Type} `{PX : Posix U} `{PXL : !PosixLaws U}.
Abbreviation P := (userplat U).

Lemma get_id_eval i o m (p : P) : nthZ (us_id p) i = Some o -> get_id i (m, p) = Ret o (m, p).
Proof. unfold get_id, get_plat. cunfold. cbn [snd]. now intros ->. Qed.

Definition id_base (f : ipc_os_priv_instance -> Z) (i : Z) (p : P) : Z :=
  from_option f NULL (nthZ (us_id p) i).

(** A command to the device of instance [i] changes the system's state only. *)
Lemma uio_cmd_eval i cmd m (p : P) :
  is_Some (nthZ (us_id p) i) ->
  exists p', (let* o := get_id i in ipc_send_uio_cmd (us_uio_fd o) cmd) (m, p) = Ret tt (m, p') /\
    us_id p' = us_id p.
Proof.
  intros [o E]. rewrite (cbind_Ret _ _ _ _ _ (get_id_eval _ _ _ _ E)).
  destruct (write_int_law (us_uio_fd o) cmd (us_sys p)) as (n & u' & Eu).
  unfold ipc_send_uio_cmd, on_sys, czoom, cbind. cbn [fst snd]. rewrite Eu. eauto.
Qed.

#[export] Program Instance user_platform_laws (unset_cfg : ipc_shm_cfg) :
    @PlatformLaws P (user_platform unset_cfg) := {
  plat_live i _ p := is_Some (nthZ (us_id p) i);
  local_base := id_base us_local_virt_shm;
  remote_base := id_base us_remote_virt_shm
}.
Next Obligation.
  intros cfg i m p [o E]. cbn. unfold ipc_os_get_local_shm, id_base.
  now rewrite (cbind_Ret _ _ _ _ _ (get_id_eval _ _ _ _ E)), E.
Qed.
Next Obligation.
  intros cfg i m p [o E]. cbn. unfold ipc_os_get_remote_shm, id_base.
  now rewrite (cbind_Ret _ _ _ _ _ (get_id_eval _ _ _ _ E)), E.
Qed.
Next Obligation.
  intros cfg i m p Hl. destruct (uio_cmd_eval i IPC_UIO_ENABLE_CMD m p Hl) as (p' & E & Ei).
  exists p'. unfold id_base. rewrite Ei. auto.
Qed.
Next Obligation.
  intros cfg i m p Hl. destruct (uio_cmd_eval i IPC_UIO_DISABLE_CMD m p Hl) as (p' & E & Ei).
  exists p'. unfold id_base. rewrite Ei. auto.
Qed.
Next Obligation.
  intros cfg i m p Hl. destruct (uio_cmd_eval i IPC_UIO_TRIGGER_CMD m p Hl) as (p' & E & Ei).
  exists p'. unfold id_base. rewrite Ei. auto.
Qed.

(** ** The receive thread *)

Context (rx : Z -> Z -> M (world P) Z).

(** What the thread of instance [i] needs in each state: its data, and the
    driver behind the callback. *)
Definition thread_ready (i : Z) (w : world P) : Prop :=
  exists o, nthZ (us_id (w_plat w)) i = Some o /\ us_instance o = i /\ us_rx_cb o = RX_IPC_SHM_RX.

Lemma on_plat_get_id i o (w : world P) :
  nthZ (us_id (w_plat w)) i = Some o -> on_plat (get_id i) w = Ret o w.
Proof.
  intros E. unfold on_plat, czoom. rewrite (get_id_eval i o _ _ E). now destruct w.
Qed.

Lemma softirq_drain_eval i (pending : world P -> Z) :
  (forall w, thread_ready i w -> exists n w', rx i IPC_SOFTIRQ_BUDGET w = Ret n w' /\
     thread_ready i w' /\ pending w' = pending w - n /\ 0 <= n < 2 ^ 31 /\ 0 <= pending w') ->
  (forall w u, pending (World (w_mem w) (w_priv w) u) = pending w) ->
  forall fuel w, thread_ready i w -> pending w < 128 * Z.of_nat fuel ->
  exists w', softirq_drain fuel rx i w = Ret tt w' /\ thread_ready i w' /\
    0 <= pending w' <= pending w.
Proof.
  intros Hrx Hp. induction fuel as [|fuel IH]; intros w Hw Hf.
  { destruct (Hrx w Hw) as (n & w' & _ & _ & ? & ? & ?). lia. }
  cbn [softirq_drain]. destruct (Hw) as (o & Eo & Ei & Ecb).
  rewrite (cbind_Ret _ _ _ _ _ (on_plat_get_id i o w Eo)), Ecb, Ei. cbn [call_rx].
  destruct (Hrx w Hw) as (n & w1 & E1 & Hw1 & Hp1 & Hn & Hpos). rewrite (cbind_Ret _ _ _ _ _ E1).
  destruct (sched_yield_law (us_sys (w_plat w1))) as (u' & Eu).
  set (p1 := w_plat w1). set (w2 := World (w_mem w1) (w_priv w1)
    (UserPlat (us_is_files_opened p1) (us_cdev_fd p1) (us_module_fd p1) (us_id p1) u')).
  rewrite (cbind_Ret _ _ _ tt w2)
    by (unfold on_plat, on_sys, czoom; cbn [fst snd]; now rewrite Eu).
  assert (Hw2 : thread_ready i w2) by exact Hw1.
  assert (Hp2 : pending w2 = pending w1) by apply Hp.
  replace (i32 n) with n by (unfold i32; rewrite Z.mod_small; lia).
  unfold IPC_SOFTIRQ_BUDGET in *. destruct (Z.leb_spec 128 n).
  - destruct (IH w2 Hw2) as (w' & E' & Hw' & Hp'); [lia |]. exists w'. repeat split; auto; lia.
  - exists w2. repeat split; auto; lia.
Qed.

End User.

(** ** Initialisation *)

Section Init.
Context {U : Type} `{PX : Posix U}.
Abbreviation P := (userplat U).

(** The character device accepts its requests, and the system maps what is
    asked for at whole-page file offsets. *)
Definition mmap_succeeds : Prop :=
  0 < page_size < 2 ^ 32 /\
  (forall fd c a u, exists e u', ioctl_mmap fd c a u = Ret e u' /\ 0 <= e) /\
  (forall fd c d u, exists e u', ioctl_data fd c d u = Ret e u' /\ 0 <= e) /\
  (forall len fd off m u, 0 < len -> off mod page_size = 0 -> exists a u',
     mmap len fd off (m, u) = Ret a (map_region a len m, u') /\ 0 < a < 2 ^ 62).

Definition cfg_fits (cfg : ipc_shm_cfg) : Prop :=
  0 < cfg_shm_size cfg < 2 ^ 32 /\
  0 <= cfg_local_shm_addr cfg < 2 ^ 62 /\ 0 <= cfg_remote_shm_addr cfg < 2 ^ 62.

Lemma map_phys_eval addr size m (p : P) :
  mmap_succeeds -> 0 <= addr < 2 ^ 62 -> 0 < size < 2 ^ 32 ->
  exists a p', map_phys addr size (m, p)
      = Ret (a, addr mod page_size) (map_region a (addr mod page_size + size) m, p') /\
    0 < a < 2 ^ 62 /\ us_id p' = us_id p /\ us_cdev_fd p' = us_cdev_fd p.
Proof.
  intros (Hps & _ & _ & Hm) Ha Hs. assert (Hoff : 0 <= addr mod page_size < page_size) by (apply Z.mod_pos_bound; lia).
  assert (Hd : addr / page_size * page_size = addr - addr mod page_size)
    by (rewrite (Z.mod_eq addr page_size) by lia; lia).
  unfold map_phys, get_plat, cgets. rewrite Hd.
  replace (addr - (addr - addr mod page_size)) with (addr mod page_size) by lia.
  rewrite (u64_small (addr mod page_size)), (u64_small (addr mod page_size + size)) by lia.
  destruct (Hm (addr mod page_size + size) (us_cdev_fd p) (addr - addr mod page_size) m (us_sys p))
    as (a & u' & E & Hr); [lia | rewrite <- Hd; apply Z.mod_mul; lia |].
  exists a. eexists. unfold cbind, on_mem_sys, czoom. cbn [fst snd]. rewrite E.
  split; [reflexivity | auto].
Qed.

Lemma on_sys_eval {A} (c : M U A) a u' m (p : P) :
  c (us_sys p) = Ret a u' ->
  exists p', on_sys c (m, p) = Ret a (m, p') /\ us_id p' = us_id p /\ us_cdev_fd p' = us_cdev_fd p.
Proof. intros E. unfold on_sys, czoom. cbn [fst snd]. rewrite E. eauto. Qed.

Lemma upd_id_eval i o f m (p : P) :
  nthZ (us_id p) i = Some o ->
  exists p', upd_id i f (m, p) = Ret tt (m, p') /\ nthZ (us_id p') i = Some (f o) /\
    us_cdev_fd p' = us_cdev_fd p /\ us_is_files_opened p' = us_is_files_opened p.
Proof.
  intros E. unfold upd_id. rewrite (cbind_Ret _ _ _ _ _ (get_id_eval _ _ _ _ E)).
  unfold cmodify. eexists; split; [reflexivity |]. cbn. split; [| auto].
  now apply (nthZ_setZ _ _ _ o).
Qed.

Lemma mapped_new a off size m :
  0 < a -> 0 <= off -> mapped (map_region a (off + size) m) (a + off) size = true.
Proof.
  intros. unfold mapped, in_region. cbn. apply andb_true_iff. rewrite Z.ltb_lt. split; [lia |].
  apply orb_true_iff. left. apply andb_true_iff. rewrite !Z.leb_le. lia.
Qed.

Lemma mapped_more a n b k m : mapped m b k = true -> mapped (map_region a n m) b k = true.
Proof.
  unfold mapped. cbn. intros E. apply andb_true_iff in E as [-> ->]. apply orb_true_r.
Qed.

(** One side of the set-up: request, mapping, addresses stored with [setter]. *)
Lemma attach_eval i o fd cmd addr size (setter : Z -> Z -> Z -> _ -> _) (virt : _ -> Z)
    (X Y k : M (memory * P) Z) m (p : P) (G : _ -> Prop) :
  mmap_succeeds -> 0 <= addr < 2 ^ 62 -> 0 < size < 2 ^ 32 -> nthZ (us_id p) i = Some o ->
  (forall a p', 0 < a < 2 ^ 62 ->
    nthZ (us_id p') i = Some (setter (a + addr mod page_size) a (addr mod page_size)
                                (setter (virt o) a (addr mod page_size) o)) ->
    G (k (map_region a (addr mod page_size + size) m, p'))) ->
  G ((let* err := on_sys (ioctl_mmap fd cmd addr) in
     if err <? 0 then X else
     let* lm := map_phys addr size in
     let* o := get_id i in
     upd_id i (setter (virt o) lm.1 lm.2) ;;;
     if lm.1 =? MAP_FAILED then Y else
     upd_id i (setter (u64 (lm.1 + lm.2)) lm.1 lm.2) ;;; k) (m, p)).
Proof.
  intros HM Ha Hs Ho HG. destruct (HM) as (Hps & Hio & _ & _).
  assert (Hoff : 0 <= addr mod page_size < page_size) by (apply Z.mod_pos_bound; lia).
  destruct (Hio fd cmd addr (us_sys p)) as (e2 & u2 & E2 & He2).
  destruct (on_sys_eval _ _ _ m p E2) as (p2 & E2' & I2 & F2).
  rewrite (cbind_Ret _ _ _ _ _ E2'). destruct (Z.ltb_spec e2 0); [lia |].
  destruct (map_phys_eval addr size m p2 HM Ha Hs) as (a & p3 & E3 & Ha3 & I3 & F3).
  rewrite (cbind_Ret _ _ _ _ _ E3). cbn [fst snd]. set (m3 := map_region a _ m).
  assert (Ho3 : nthZ (us_id p3) i = Some o) by now rewrite I3, I2.
  rewrite (cbind_Ret _ _ _ _ _ (get_id_eval _ _ _ _ Ho3)).
  edestruct (upd_id_eval i _ (setter (virt o) a (addr mod page_size)) m3 p3 Ho3) as (p4 & E4 & Ho4 & _).
  rewrite (cbind_Ret _ _ _ _ _ E4). destruct (Z.eqb_spec a MAP_FAILED); [unfold MAP_FAILED in *; lia |].
  edestruct (upd_id_eval i _ (setter (u64 (a + addr mod page_size)) a (addr mod page_size)) m3 p4 Ho4)
    as (p5 & E5 & Ho5 & _).
  rewrite (cbind_Ret _ _ _ _ _ E5). rewrite u64_small in Ho5 by lia. now apply HG.
Qed.

Ltac attach cmd setter virt Ho :=
  match goal with |- context [cbind (on_sys (ioctl_mmap ?fd cmd ?a)) ?f ?st] =>
    pattern (cbind (on_sys (ioctl_mmap fd cmd a)) f st) end;
  eapply (attach_eval _ _ _ cmd _ _ setter virt); [assumption .. | exact Ho |].

Lemma ipc_os_init_polling i cfg m (p : P) o :
  mmap_succeeds -> us_is_files_opened p = true -> nthZ (us_id p) i = Some o ->
  cfg_inter_core_rx_irq cfg = IPC_IRQ_NONE -> cfg_fits cfg ->
  exists m' p' o', ipc_os_init i cfg RX_IPC_SHM_RX (m, p) = Ret 0 (m', p') /\
    nthZ (us_id p') i = Some o' /\ us_state o' = IPC_SHM_INSTANCE_ENABLED /\
    mapped m' (us_local_virt_shm o') (cfg_shm_size cfg) = true /\
    mapped m' (us_remote_virt_shm o') (cfg_shm_size cfg) = true /\
    us_local_virt_shm o' = us_local_shm_map o' + cfg_local_shm_addr cfg mod page_size /\
    us_remote_virt_shm o' = us_remote_shm_map o' + cfg_remote_shm_addr cfg mod page_size.
Proof.
  intros HM Hopen Ho Hirq (Hsz & Hla & Hra). destruct (HM) as (Hps & _ & Hiod & _).
  assert (0 <= cfg_local_shm_addr cfg mod page_size) by (apply Z.mod_pos_bound; lia).
  assert (0 <= cfg_remote_shm_addr cfg mod page_size) by (apply Z.mod_pos_bound; lia).
  unfold ipc_os_init.
  destruct (upd_id_eval i o (set_params i (cfg_shm_size cfg) RX_IPC_SHM_RX) m p Ho)
    as (p1 & E1 & Ho1 & F1 & O1). rewrite (cbind_Ret _ _ _ _ _ E1).
  rewrite (cbind_Ret _ _ (m, p1) 0 (m, p1)).
  2: { unfold ipc_os_module_init, get_plat, cbind, cgets. cbn [snd]. now rewrite O1, Hopen. }
  cbn [Z.eqb negb]. rewrite (cbind_Ret _ _ (m, p1) p1 (m, p1)) by reflexivity.
  attach IPC_IOC_MMAP_LOCAL set_local us_local_virt_shm Ho1. intros la p5 Hl Ho5.
  attach IPC_IOC_MMAP_REMOTE set_remote us_remote_virt_shm Ho5. intros ra p9 Hr Ho9.
  set (m9 := map_region ra _ _).
  edestruct (upd_id_eval i _ (set_irq (cfg_inter_core_rx_irq cfg)) m9 p9 Ho9) as (pa & Ea & Hoa & _).
  rewrite (cbind_Ret _ _ _ _ _ Ea).
  destruct (Hiod (us_cdev_fd p1) IPC_IOC_INIT (CdevData i cfg) (us_sys pa)) as (eb & ub & Eb & Heb).
  destruct (on_sys_eval _ _ _ m9 pa Eb) as (pb & Eb' & Ib & Fb).
  rewrite (cbind_Ret _ _ _ _ _ Eb'). destruct (Z.ltb_spec eb 0); [lia |].
  rewrite Hirq, Z.eqb_refl. rewrite <- Ib in Hoa.
  edestruct (upd_id_eval i _ (set_state IPC_SHM_INSTANCE_ENABLED) m9 pb Hoa) as (pc & Ec & Hoc & _).
  rewrite (cbind_Ret _ _ _ _ _ Ec).
  eexists m9, pc, _. split; [reflexivity |]. split; [exact Hoc |]. cbn.
  split_and!; auto; [apply mapped_more |]; apply mapped_new; lia.
Qed.

End Init.

(** ** Properties *)

(** In the user-space build a successful initialisation leaves both shared
    memories accessible: when the character device accepts the requests and the
    mappings succeed, [ipc_os_init] of a polling instance returns 0, asks for
    page-aligned file offsets only, and the two base addresses it stores lie
    inside the new mappings at the distance of the configured address from its
    page, with all [shm_size] bytes mapped from there. *)
Theorem user_init_maps {U : Type} `{PX : Posix U} i cfg m (p : userplat U) o :
  mmap_succeeds (U := U) -> us_is_files_opened p = true -> nthZ (us_id p) i = Some o ->
  cfg_inter_core_rx_irq cfg = IPC_IRQ_NONE -> cfg_fits cfg ->
  exists m' p' o', ipc_os_init i cfg RX_IPC_SHM_RX (m, p) = Ret 0 (m', p') /\
    nthZ (us_id p') i = Some o' /\ us_state o' = IPC_SHM_INSTANCE_ENABLED /\
    mapped m' (us_local_virt_shm o') (cfg_shm_size cfg) = true /\
    mapped m' (us_remote_virt_shm o') (cfg_shm_size cfg) = true /\
    us_local_virt_shm o' = us_local_shm_map o' + cfg_local_shm_addr cfg mod page_size /\
    us_remote_virt_shm o' = us_remote_shm_map o' + cfg_remote_shm_addr cfg mod page_size.
Proof. apply ipc_os_init_polling. Qed.

(** The receive thread drains its channels: when every receive call takes
    the messages it reports out of those pending, one turn of the loop over
    [softirq_drain] ends, with one call more than full budgets pending at most. *)
Theorem softirq_drain_terminates {U : Type} `{PX : Posix U} `{PXL : !PosixLaws U}
    (rx : Z -> Z -> M (world (userplat U)) Z) i (pending : world (userplat U) -> Z) w :
  (forall w, thread_ready i w -> exists n w', rx i IPC_SOFTIRQ_BUDGET w = Ret n w' /\
     thread_ready i w' /\ pending w' = pending w - n /\ 0 <= n < 2 ^ 31 /\ 0 <= pending w') ->
  (forall w u, pending (World (w_mem w) (w_priv w) u) = pending w) ->
  thread_ready i w -> 0 <= pending w ->
  exists w', softirq_drain (S (Z.to_nat (pending w / 128))) rx i w = Ret tt w' /\
    thread_ready i w' /\ 0 <= pending w' <= pending w.
Proof.
  intros Hrx Hp Hw H0. eapply softirq_drain_eval; eauto.
  assert (Hd := Z.div_mod (pending w) 128). assert (Hm := Z.mod_pos_bound (pending w) 128). lia.
Qed.
