(* ===== verification/UserRes.v ===== *)
(** * Resources of the user-space OS layer

    What [ipc_os_init] of src/os_uio/ipc-os.c holds of the system's descriptors,
    mappings and threads, whatever the system calls answer. *)

From Stdlib Require Import String.
From S2P Require Import Prelude Memory Types World ShmSpec Resources KernelOs UioModule UserOs.
From stdpp Require Import list.
#[local] Open Scope Z_scope.

(** ** Services *)

(** Descriptors from open, mappings, threads, and whether the kernel module is
    loaded. *)
Record posix_res : Type := PosixRes {
  fds : list Z;
  maps : list (Z * Z);
  threads : list Z;
  loaded : bool
}.

Definition with_fds (f : list Z -> list Z) (r : posix_res) : posix_res := PosixRes (f (fds r)) (maps r) (threads r) (loaded r).
Definition with_maps (f : list (Z * Z) -> list (Z * Z)) (r : posix_res) : posix_res :=
  PosixRes (fds r) (f (maps r)) (threads r) (loaded r).
Definition with_threads (f : list Z -> list Z) (r : posix_res) : posix_res :=
  PosixRes (fds r) (maps r) (f (threads r)) (loaded r).
Definition with_loaded (b : bool) (r : posix_res) : posix_res := PosixRes (fds r) (maps r) (threads r) b.

(** Documented behaviour of the system calls: every one returns; a descriptor is
    held from open to close, a mapping from mmap to munmap with the same address
    and length, a thread from its creation until it is joined; a module cannot be
    loaded twice; error numbers of the thread functions are positive. *)
Class PosixResources (U : Type) `{Posix U} : Type := {
  held : U -> posix_res;
  page_size_law : 0 < page_size < 2 ^ 32;
  open_law f u : exists fd u', open_file f u = Ret fd u' /\
    (fd = -1 /\ held u' = held u \/ 0 <= fd /\ held u' = with_fds (cons fd) (held u));
  close_law fd u : exists u', close_fd fd u = Ret tt u' /\ held u' = with_fds (remove_one fd) (held u);
  finit_law fd u : exists e u', finit_module fd u = Ret e u' /\
    (e = 0 /\ loaded (held u) = false /\ held u' = with_loaded true (held u) \/ e <> 0 /\ held u' = held u);
  delete_law u : exists e u', delete_module u = Ret e u' /\
    (e = 0 /\ held u' = with_loaded false (held u) \/ e <> 0 /\ held u' = held u);
  mmap_law len fd off m u : exists a m' u', mmap len fd off (m, u) = Ret a (m', u') /\
    (a = MAP_FAILED /\ held u' = held u \/ a <> MAP_FAILED /\ held u' = with_maps (cons (a, len)) (held u));
  munmap_law a len m u : exists e m' u', munmap a len (m, u) = Ret e (m', u') /\
    held u' = with_maps (remove_one (a, len)) (held u);
  create_law i u : exists e t u', pthread_create i u = Ret (e, t) u' /\
    (e = 0 /\ held u' = with_threads (cons t) (held u) \/ 0 < e < 128 /\ held u' = held u);
  join_law t u : exists u', pthread_join t u = Ret tt u' /\ held u' = with_threads (remove_one t) (held u);
  ioctl_mmap_law fd c a u : exists e u', ioctl_mmap fd c a u = Ret e u' /\ held u' = held u;
  ioctl_data_law fd c d u : exists e u', ioctl_data fd c d u = Ret e u' /\ held u' = held u;
  fopen_law f u : exists o u', fopen f u = Ret o u' /\ held u' = held u;
  fgets_law f n u : exists o u', fgets f n u = Ret o u' /\ held u' = held u;
  fclose_law f u : exists u', fclose f u = Ret tt u' /\ held u' = held u;
  scandir_law d u : exists o u', scandir d u = Ret o u' /\ held u' = held u;
  attr_init_law u : exists e u', pthread_attr_init u = Ret e u' /\ 0 <= e < 128 /\ held u' = held u;
  attr_policy_law u : exists e u', pthread_attr_setschedpolicy u = Ret e u' /\ 0 <= e < 128 /\ held u' = held u;
  attr_param_law u : exists e u', pthread_attr_setschedparam u = Ret e u' /\ 0 <= e < 128 /\ held u' = held u;
  cancel_law t u : exists u', pthread_cancel t u = Ret tt u' /\ held u' = held u;
  command_law fd c u : exists n u', write_int fd c u = Ret n u' /\ held u' = held u
}.

Section Triples.
Context {U : Type} `{PX : Posix U} `{PR : !PosixResources U}.
Abbreviation P := (userplat U).

(** The resources, the layer's file state and its table. *)
Record uholds (r : posix_res) (opened : bool) (cdev module : Z) (ids : list ipc_os_priv_instance) (p : P) : Prop := {
  uh_res : held (us_sys p) = r;
  uh_opened : us_is_files_opened p = opened;
  uh_cdev : us_cdev_fd p = cdev;
  uh_module : us_module_fd p = module;
  uh_ids : us_id p = ids
}.

Section Fixed.
Context (opened : bool) (cdev module : Z).
Abbreviation has r ids := (uholds r opened cdev module ids).

Lemma sys_triple {A} (c : M U A) r ids (R : A -> posix_res -> Prop) :
  (forall u, held u = r -> exists a u', c u = Ret a u' /\ R a (held u')) ->
  triple (has r ids) (on_sys c) (fun a p => exists r', R a r' /\ has r' ids p).
Proof.
  intros Hc m p [E1 E2 E3 E4 E5]. destruct (Hc (us_sys p) E1) as (a & u' & E & HR).
  eexists a, m, _. unfold on_sys, czoom. cbn [fst snd]. rewrite E. split; [reflexivity |]. exists (held u').
  split; [exact HR |]. now constructor.
Qed.

(** A call that changes no resource, or in a known way. *)
Lemma sys_known {A} (c : M U A) r ids (X : A -> Prop) (f : posix_res -> posix_res) :
  (forall u, exists a u', c u = Ret a u' /\ X a /\ held u' = f (held u)) ->
  triple (has r ids) (on_sys c) (fun a p => X a /\ has (f r) ids p).
Proof.
  intros Hc. eapply triple_post; [apply (sys_triple c r ids (fun a r' => X a /\ r' = f r)) |].
  - intros u <-. destruct (Hc u) as (a & u' & E & HX & Hu). eauto.
  - intros a p (r' & (HX & ->) & Hp). auto.
Qed.

Lemma sys_neutral {A} (c : M U A) r ids :
  (forall u, exists a u', c u = Ret a u' /\ held u' = held u) -> triple (has r ids) (on_sys c) (fun _ => has r ids).
Proof.
  intros Hc. eapply triple_post; [apply (sys_known c r ids (fun _ => True) id) |].
  - intros u. destruct (Hc u) as (a & u' & E & Hu). exists a, u'. auto.
  - intros a p [_ Hp]. exact Hp.
Qed.

Lemma memsys_triple {A} (c : M (memory * U) A) r ids (R : A -> posix_res -> Prop) :
  (forall m u, held u = r -> exists a m' u', c (m, u) = Ret a (m', u') /\ R a (held u')) ->
  triple (has r ids) (on_mem_sys c) (fun a p => exists r', R a r' /\ has r' ids p).
Proof.
  intros Hc m p [E1 E2 E3 E4 E5]. destruct (Hc m (us_sys p) E1) as (a & m' & u' & E & HR).
  eexists a, m', _. unfold on_mem_sys, czoom. cbn [fst snd]. rewrite E. split; [reflexivity |]. exists (held u').
  split; [exact HR |]. now constructor.
Qed.

Lemma open_triple f r ids :
  triple (has r ids) (on_sys (open_file f))
    (fun fd p => fd = -1 /\ has r ids p \/ 0 <= fd /\ has (with_fds (cons fd) r) ids p).
Proof.
  eapply triple_post; [apply (sys_triple _ r ids (fun fd r' => fd = -1 /\ r' = r \/ 0 <= fd /\ r' = with_fds (cons fd) r)) |].
  - intros u <-. apply open_law.
  - intros fd p (r' & [[-> ->] | [Hfd ->]] & Hp); auto.
Qed.

Lemma close_triple fd r ids :
  triple (has r ids) (on_sys (close_fd fd)) (fun _ => has (with_fds (remove_one fd) r) ids).
Proof.
  eapply triple_post; [apply (sys_known _ r ids (fun _ => True) (with_fds (remove_one fd))) | intros ? ? [_ Hp]; exact Hp].
  intros u. destruct (close_law fd u) as (u' & E & Eh). eauto.
Qed.

Lemma munmap_triple a len r ids :
  triple (has r ids) (on_mem_sys (munmap a len)) (fun _ => has (with_maps (remove_one (a, len)) r) ids).
Proof.
  eapply triple_post; [apply (memsys_triple _ r ids (fun _ r' => r' = with_maps (remove_one (a, len)) r)) |].
  - intros m u <-. apply munmap_law.
  - intros e p (r' & -> & Hp). exact Hp.
Qed.

Lemma get_plat_triple r ids :
  triple (has r ids) get_plat (fun q p => has r ids q /\ has r ids p).
Proof. intros m p Hp. exists p, m, p. auto. Qed.

Lemma get_id_triple i o r ids :
  nthZ ids i = Some o -> triple (has r ids) (get_id i) (fun a p => a = o /\ has r ids p).
Proof.
  intros Ho m p Hp. exists o, m, p. unfold get_id, get_plat. cunfold. cbn [snd].
  now rewrite (uh_ids _ _ _ _ _ _ Hp), Ho.
Qed.

Lemma upd_id_triple i f o r ids :
  nthZ ids i = Some o -> triple (has r ids) (upd_id i f) (fun _ => has r (setZ ids i (f o))).
Proof.
  intros Ho m p Hp. unfold upd_id. destruct (get_id_triple i o r ids Ho m p Hp) as (a & m1 & p1 & E & -> & [E1 E2 E3 E4 E5]).
  rewrite (cbind_Ret _ _ _ _ _ E). eexists tt, m1, _. split; [reflexivity |]. constructor; cbn; congruence.
Qed.

(** ** The search for the device *)

Lemma line_match_triple file filter r ids :
  triple (has r ids) (line_match file filter) (fun _ => has r ids).
Proof.
  unfold line_match. eapply (triple_bind _ _ (fun _ => has r ids)).
  - unfold line_from_file. eapply triple_bind; [apply sys_neutral, fopen_law |]. intros [f |]; [| now apply triple_ret].
    eapply triple_bind; [apply sys_neutral, fgets_law |]. intros [s |]; [| now apply triple_ret].
    eapply triple_bind; [apply sys_neutral | intros; now apply triple_ret].
    intros u. destruct (fclose_law f u) as (u' & E). eauto.
  - intros x. repeat case_match; now apply triple_ret.
Qed.

(** A name with no percent sign in it is copied as it is. *)
Lemma format_alone_plain s : Forall (fun c => percent c = false) (list_ascii_of_string s) -> format_alone s = s.
Proof.
  induction s as [| c s IH]; [reflexivity |]. cbn [list_ascii_of_string]. intros H.
  apply Forall_cons in H as [Hc Hs]. cbn [format_alone]. rewrite Hc. cbn [negb]. now rewrite IH.
Qed.

Lemma match_entries_triple names name r ids :
  triple (has r ids) (match_entries names name) (fun _ => has r ids).
Proof.
  induction names as [| d names IH]; cbn [match_entries]; [now apply triple_ret |].
  eapply triple_bind; [apply line_match_triple |]. intros e. destruct (negb _); [exact IH |].
  eapply triple_bind; [apply line_match_triple |]. intros e'. destruct (negb _); [exact IH | now apply triple_ret].
Qed.

Lemma get_uio_dev_name_triple i r ids :
  triple (has r ids) (get_uio_dev_name i) (fun _ => has r ids).
Proof.
  unfold get_uio_dev_name. eapply triple_bind; [apply sys_neutral, scandir_law |]. intros [names |]; [| now apply triple_ret].
  eapply triple_bind; [apply match_entries_triple |]. intros [d |]; now apply triple_ret.
Qed.

(** ** The table *)

Definition enabled (o : ipc_os_priv_instance) : Prop := us_state o = IPC_SHM_INSTANCE_ENABLED.
#[export] Instance enabled_dec o : Decision (enabled o).
Proof. unfold enabled. apply _. Defined.

Definition busy (ids : list ipc_os_priv_instance) : bool := existsb (fun o => us_state o =? IPC_SHM_INSTANCE_ENABLED) ids.

Lemma busy_spec ids : busy ids = true <-> exists i o, nthZ ids i = Some o /\ enabled o.
Proof.
  unfold busy. rewrite existsb_exists. split.
  - intros (o & Hin & He). apply list_elem_of_In, list_elem_of_lookup in Hin as [j Hj]. exists (Z.of_nat j), o.
    split; [apply nthZ_Some; rewrite Nat2Z.id; split; [lia | exact Hj] | now apply Z.eqb_eq in He].
  - intros (i & o & Ho & He). apply nthZ_Some in Ho as [_ Ho]. exists o.
    split; [apply list_elem_of_In; eapply list_elem_of_lookup_2; eauto | now apply Z.eqb_eq].
Qed.

Lemma busy_disabled ids i o o' : nthZ ids i = Some o -> ~ enabled o -> ~ enabled o' -> busy (setZ ids i o') = busy ids.
Proof.
  intros Ho Hd Hd'. apply eq_true_iff_eq. rewrite !busy_spec. assert (Hi := Ho). apply nthZ_Some in Hi as [Hi _].
  split; intros (j & oj & Ej & Hej); exists j, oj; (split; [| exact Hej]); destruct (Z.eq_dec i j) as [<- | Hne].
  - rewrite (nthZ_setZ _ _ _ _ Ho) in Ej. congruence.
  - now rewrite nthZ_setZ_ne in Ej by assumption.
  - congruence.
  - now rewrite nthZ_setZ_ne by assumption.
Qed.

Lemma any_enabled_triple r ids :
  length ids = 4%nat -> triple (has r ids) any_enabled (fun b p => b = busy ids /\ has r ids p).
Proof.
  intros Hl m p Hp. exists (busy ids), m, p. split; [| now split]. unfold any_enabled.
  set (b := fun j => match nthZ ids j with Some o => us_state o =? IPC_SHM_INSTANCE_ENABLED | None => false end).
  erewrite cbind_Ret; [| apply (cfor_search b)].
  - change (map _ _) with [0; 1; 2; 3].
    assert (existsb b [0; 1; 2; 3] = busy ids) as ->
      by (destruct ids as [| o0 [| o1 [| o2 [| o3 []]]]]; try discriminate Hl; reflexivity).
    now destruct (busy ids).
  - intros j Hj. change (Z.of_nat (Z.to_nat IPC_SHM_MAX_INSTANCES)) with 4 in Hj.
    destruct (nthZ_total ids j Hl) as [o Ho]; [lia |]. subst b. cbn beta. rewrite Ho.
    assert (E' : get_id j (m, p) = Ret o (m, p)).
    { unfold get_id, get_plat. cunfold. cbn [snd]. now rewrite (uh_ids _ _ _ _ _ _ Hp), Ho. }
    rewrite (cbind_Ret _ _ _ _ _ E'). now destruct (_ =? _).
Qed.

End Fixed.
End Triples.

(** ** What an entry holds *)

Definition local_map (o : ipc_os_priv_instance) : Z * Z := (us_local_shm_map o, u64 (us_local_shm_offset o + us_shm_size o)).
Definition remote_map (o : ipc_os_priv_instance) : Z * Z := (us_remote_shm_map o, u64 (us_remote_shm_offset o + us_shm_size o)).

(** Polling instances have no device and no thread. *)
Definition entry_maps (o : ipc_os_priv_instance) : list (Z * Z) := if decide (enabled o) then [remote_map o; local_map o] else [].
Definition entry_fds (o : ipc_os_priv_instance) : list Z :=
  if decide (enabled o) then (if us_irq_num o =? IPC_IRQ_NONE then [] else [us_uio_fd o]) else [].
Definition entry_threads (o : ipc_os_priv_instance) : list Z :=
  if decide (enabled o) then (if us_irq_num o =? IPC_IRQ_NONE then [] else [us_thread_id o]) else [].

Definition with_entry (o : ipc_os_priv_instance) (r : posix_res) : posix_res :=
  PosixRes (entry_fds o ++ fds r) (entry_maps o ++ maps r) (entry_threads o ++ threads r) (loaded r).

Lemma unmap_mapped x r : with_maps (remove_one x) (with_maps (cons x) r) = r.
Proof. destruct r. unfold with_maps. cbn. now rewrite decide_True. Qed.
Lemma close_opened fd r : with_fds (remove_one fd) (with_fds (cons fd) r) = r.
Proof. destruct r. unfold with_fds. cbn. now rewrite decide_True. Qed.

Lemma small_error err : -128 <= err < 128 -> i8 err = err.
Proof. apply i8_small. Qed.

Section Init.
Context {U : Type} `{PX : Posix U} `{PR : !PosixResources U}.
Abbreviation P := (userplat U).

(** The set-up of an instance the configuration asks for. *)
Record attached (i : Z) (cfg : ipc_shm_cfg) (o : ipc_os_priv_instance) : Prop := {
  at_instance : us_instance o = i;
  at_rx : us_rx_cb o = RX_IPC_SHM_RX;
  at_size : us_shm_size o = cfg_shm_size cfg;
  at_irq : us_irq_num o = cfg_inter_core_rx_irq cfg;
  at_local_off : us_local_shm_offset o = cfg_local_shm_addr cfg mod page_size;
  at_local : us_local_virt_shm o = u64 (us_local_shm_map o + us_local_shm_offset o);
  at_remote_off : us_remote_shm_offset o = cfg_remote_shm_addr cfg mod page_size;
  at_remote : us_remote_virt_shm o = u64 (us_remote_shm_map o + us_remote_shm_offset o);
  at_mapped : us_local_shm_map o <> MAP_FAILED /\ us_remote_shm_map o <> MAP_FAILED
}.

Lemma map_phys_triple opened c m addr size r ids :
  triple (uholds r opened c m ids) (map_phys addr size) (fun x p =>
    x.2 = addr mod page_size /\
    (x.1 = MAP_FAILED /\ uholds r opened c m ids p \/
     x.1 <> MAP_FAILED /\ uholds (with_maps (cons (x.1, u64 (addr mod page_size + size))) r) opened c m ids p)).
Proof.
  unfold map_phys. assert (Hps := page_size_law).
  assert (Eoff : u64 (addr - addr / page_size * page_size) = addr mod page_size).
  { rewrite (Z.mul_comm _ page_size), <- Z.mod_eq by lia. apply u64_small. assert (H := Z.mod_pos_bound addr page_size). lia. }
  rewrite Eoff. eapply triple_bind; [apply get_plat_triple |]. intros q. apply triple_fact. intros _.
  eapply triple_bind.
  - apply (memsys_triple _ _ _ _ r ids (fun a r' => a = MAP_FAILED /\ r' = r \/
      a <> MAP_FAILED /\ r' = with_maps (cons (a, u64 (addr mod page_size + size))) r)).
    intros mm u <-. apply mmap_law.
  - intros a. apply triple_ret. intros p (r' & [[-> ->] | [Ha ->]] & Hp); cbn [fst snd]; auto.
Qed.

(** From here on the device files are open and instance [i] is not enabled. *)
Section Open.
Context (c m : Z) (Hc : 0 <= c) (Hm : 0 <= m).
Context (i : Z) (cfg : ipc_shm_cfg) (ids : list ipc_os_priv_instance) (o0 : ipc_os_priv_instance).
Context (Hlen : length ids = 4%nat) (H0 : nthZ ids i = Some o0) (Hd : ~ enabled o0).
Abbreviation has r o := (uholds r true c m (setZ ids i o)).

(** Resources [r] were held before; the files go with the last instance. *)
Definition init_failed (r : posix_res) (p : P) : Prop :=
  exists o, ~ enabled o /\
    if busy ids then has r o p
    else uholds (with_fds (fun l => remove_one m (remove_one c l)) r) false c m (setZ ids i o) p.

Lemma at_i o : nthZ (setZ ids i o) i = Some o.
Proof. now apply (nthZ_setZ _ _ _ o0). Qed.

Lemma upd_triple f o r : triple (has r o) (upd_id i f) (fun _ => has r (f o)).
Proof. rewrite <- (setZ_setZ ids i o (f o)). apply upd_id_triple, at_i. Qed.

Lemma get_triple o r : triple (has r o) (get_id i) (fun a p => a = o /\ has r o p).
Proof. apply get_id_triple, at_i. Qed.

Lemma disabled_now o : ~ enabled (set_state IPC_SHM_INSTANCE_DISABLED o).
Proof. unfold enabled. vm_compute. discriminate. Qed.

Lemma err_close_ipc_dev_triple err o r :
  triple (has r o) (err_close_ipc_dev i err) (fun e p => e = i8 err /\ init_failed r p).
Proof.
  unfold err_close_ipc_dev. eapply triple_bind; [apply upd_triple |]. intros []. set (o1 := set_state _ o).
  assert (Hd1 := disabled_now o). fold o1 in Hd1.
  eapply triple_bind; [apply any_enabled_triple; now rewrite setZ_length |]. intros b. apply triple_fact. intros ->.
  rewrite (busy_disabled ids i o0 o1 H0 Hd Hd1). destruct (busy ids) eqn:Eb.
  { apply triple_ret. intros p Hp. split; [reflexivity |]. exists o1. rewrite Eb. now split. }
  eapply (triple_bind _ _ (fun _ => uholds r false c m (setZ ids i o1))).
  { intros mm p [E1 E2 E3 E4 E5]. eexists tt, mm, _. split; [reflexivity |]. now constructor. }
  intros []. eapply triple_bind; [apply get_plat_triple |]. intros q. apply triple_fact. intros [_ _ -> -> _].
  apply Z.leb_le in Hc as ->, Hm as ->.
  eapply triple_bind; [apply close_triple |]. intros []. eapply triple_bind; [apply close_triple |]. intros [].
  apply triple_ret. intros p Hp. split; [reflexivity |]. exists o1. rewrite Eb. now split.
Qed.

Lemma user_err_unmap_local_triple err o r :
  triple (has (with_maps (cons (local_map o)) r) o) (err_unmap_local_shm i err) (fun e p => e = i8 err /\ init_failed r p).
Proof.
  unfold err_unmap_local_shm, unmap_local.
  eapply (triple_bind _ _ (fun _ => has r o)); [| intros []; apply err_close_ipc_dev_triple].
  eapply triple_bind; [apply get_triple |]. intros o'. apply triple_fact. intros ->.
  eapply triple_bind; [apply munmap_triple |]. intros e. rewrite unmap_mapped. now apply triple_ret.
Qed.

Lemma user_err_unmap_remote_triple err o r :
  triple (has (with_maps (cons (remote_map o)) (with_maps (cons (local_map o)) r)) o) (err_unmap_remote_shm i err)
    (fun e p => e = i8 err /\ init_failed r p).
Proof.
  unfold err_unmap_remote_shm, unmap_remote.
  eapply (triple_bind _ _ (fun _ => has (with_maps (cons (local_map o)) r) o)); [| intros []; apply user_err_unmap_local_triple].
  eapply triple_bind; [apply get_triple |]. intros o'. apply triple_fact. intros ->.
  eapply triple_bind; [apply munmap_triple |]. intros e. rewrite unmap_mapped. now apply triple_ret.
Qed.

Lemma err_close_uio_triple err o r :
  triple (has (with_fds (cons (us_uio_fd o)) (with_maps (cons (remote_map o)) (with_maps (cons (local_map o)) r))) o)
    (err_close_uio_dev i err) (fun e p => e = i8 err /\ init_failed r p).
Proof.
  unfold err_close_uio_dev. eapply triple_bind; [apply get_triple |]. intros o'. apply triple_fact. intros ->.
  eapply triple_bind; [apply close_triple |]. intros []. rewrite close_opened. apply user_err_unmap_remote_triple.
Qed.

(** The result of initialisation. *)
Definition init_result (r : posix_res) (e : Z) (p : P) : Prop :=
  e = 0 /\ (exists o, enabled o /\ attached i cfg o /\ has (with_entry o r) o p) \/ e <> 0 /\ init_failed r p.

Lemma user_failed_result Q (prog : M (memory * P) Z) err r :
  triple Q prog (fun e p => e = i8 err /\ init_failed r p) -> -128 <= err < 128 -> err <> 0 ->
  triple Q prog (init_result r).
Proof.
  intros Ht He Hne. eapply triple_post; [exact Ht |]. intros e p [-> Hp]. right. rewrite small_error by exact He. now split.
Qed.

Lemma set_thread_same o : set_thread (us_thread_id o) o = o.
Proof. now destruct o. Qed.

Lemma softirq_init_triple o r :
  triple (has r o) (ipc_os_softirq_init i) (fun e p => exists t,
    e = 0 /\ has (with_threads (cons t) r) (set_thread t o) p \/ 0 < e < 128 /\ has r (set_thread t o) p).
Proof.
  assert (Hfail : forall e, 0 <= e < 128 -> (e =? 0) = false ->
            triple (has r o) (cret e) (fun e p => exists t,
              e = 0 /\ has (with_threads (cons t) r) (set_thread t o) p \/ 0 < e < 128 /\ has r (set_thread t o) p)).
  { intros e He Hne. apply triple_ret. intros p Hp. exists (us_thread_id o). right. rewrite set_thread_same. split; [lia | exact Hp]. }
  assert (Hattr : forall (call : M U Z) (k : M (memory * P) Z) T,
            (forall u, exists e u', call u = Ret e u' /\ 0 <= e < 128 /\ held u' = held u) ->
            (forall e, 0 <= e < 128 -> (e =? 0) = false -> triple (has r o) (cret e) T) ->
            triple (has r o) k T -> triple (has r o) (let* e := on_sys call in if negb (e =? 0) then cret e else k) T).
  { intros call k T Hcall HF Hk. eapply triple_bind; [exact (sys_known _ _ _ _ r _ (fun e => 0 <= e < 128) id Hcall) |].
    intros e. apply triple_fact. intros He. destruct (e =? 0) eqn:E; [exact Hk | now apply HF]. }
  unfold ipc_os_softirq_init. apply Hattr; [exact attr_init_law | exact Hfail |].
  apply Hattr; [exact attr_policy_law | exact Hfail |]. apply Hattr; [exact attr_param_law | exact Hfail |].
  eapply triple_bind.
  - apply (sys_triple _ _ _ _ r _ (fun a r' => a.1 = 0 /\ r' = with_threads (cons a.2) r \/ 0 < a.1 < 128 /\ r' = r)).
    intros u <-. destruct (create_law i u) as (x & t & u' & Eu & Hx). exists (x, t), u'. auto.
  - intros [x t]. cbn [fst snd]. apply triple_ex. intros r'. apply triple_fact. intros Hx.
    eapply triple_bind; [apply upd_triple |]. intros []. apply triple_ret. intros p Hp. exists t.
    destruct Hx as [[-> ->] | [Hx ->]]; auto.
Qed.

Abbreviation mapped_both o r := (with_maps (cons (remote_map o)) (with_maps (cons (local_map o)) r)).

(** Everything but the state is in place. *)
Lemma user_enable_triple o r r' :
  attached i cfg o -> r' = with_entry (set_state IPC_SHM_INSTANCE_ENABLED o) r ->
  triple (has r' o) (upd_id i (set_state IPC_SHM_INSTANCE_ENABLED) ;;; cret 0) (init_result r).
Proof.
  intros Ha ->. eapply triple_bind; [apply upd_triple |]. intros []. apply triple_ret. intros p Hp. left. split; [reflexivity |].
  eexists. split_and!; [| | exact Hp]; [reflexivity |]. now destruct Ha; constructor.
Qed.

Lemma init_uio_triple o r :
  attached i cfg o -> us_irq_num o <> IPC_IRQ_NONE -> ~ enabled o ->
  triple (has (mapped_both o r) o) (init_uio i) (init_result r).
Proof.
  intros Ha Hirq Hdo. unfold init_uio. eapply triple_bind; [apply get_uio_dev_name_triple |]. intros x.
  destruct (negb _).
  { eapply user_failed_result; [apply user_err_unmap_remote_triple | vm_compute; intuition discriminate ..]. }
  assert (Hopened : forall fd rf, fd = -1 /\ rf = mapped_both o r \/ 0 <= fd /\ rf = with_fds (cons fd) (mapped_both o r) ->
            triple (has rf o) (upd_id i (set_uio_fd fd) ;;;
              if fd =? -1 then err_unmap_remote_shm i (- ENODEV) else
              let* err := ipc_os_softirq_init i in
              if negb (err =? 0) then err_close_uio_dev i err else
              upd_id i (set_state IPC_SHM_INSTANCE_ENABLED) ;;; cret 0) (init_result r));
    [| eapply triple_bind; [apply open_triple |]; intros fd; apply triple_or; apply triple_fact; intros Hfd; apply Hopened; auto].
  intros fd rf Hf. eapply triple_bind; [apply upd_triple |]. intros []. set (o1 := set_uio_fd fd o).
  destruct Hf as [[-> ->] | [Hfd ->]]; [| destruct (Z.eqb_spec fd (-1)); [lia |]].
  { cbn [Z.eqb Pos.eqb]. eapply user_failed_result; [apply (user_err_unmap_remote_triple _ o1) | vm_compute; intuition discriminate ..]. }
  eapply triple_bind; [apply softirq_init_triple |]. intros e. apply triple_ex. intros t. apply triple_or; apply triple_fact.
  - intros ->. cbn [Z.eqb negb]. apply user_enable_triple; [now destruct Ha; constructor |].
    unfold with_entry, entry_fds, entry_maps, entry_threads. rewrite !decide_True by reflexivity.
    cbn [set_state set_thread us_irq_num us_uio_fd us_thread_id]. destruct (Z.eqb_spec (us_irq_num o1) IPC_IRQ_NONE); [contradiction |].
    reflexivity.
  - intros He. destruct (Z.eqb_spec e 0); [lia |]. cbn [negb].
    eapply user_failed_result; [apply (err_close_uio_triple e (set_thread t o1) r) | lia | lia].
Qed.

(** Request and mapping of one side, stored with [setter]. *)
Lemma attach_triple (setter : Z -> Z -> Z -> ipc_os_priv_instance -> ipc_os_priv_instance) (virt : ipc_os_priv_instance -> Z)
    fd cmd addr size (X Y k : M (memory * P) Z) o r T :
  (forall a b d a' b' d' o, setter a b d (setter a' b' d' o) = setter a b d o) ->
  triple (has r o) X T -> (forall v a off, triple (has r (setter v a off o)) Y T) ->
  (let off := addr mod page_size in forall a, a <> MAP_FAILED ->
     triple (has (with_maps (cons (a, u64 (off + size))) r) (setter (u64 (a + off)) a off o)) k T) ->
  triple (has r o)
    (let* err := on_sys (ioctl_mmap fd cmd addr) in
     if err <? 0 then X else
     let* lm := map_phys addr size in
     let* o := get_id i in
     upd_id i (setter (virt o) lm.1 lm.2) ;;;
     if lm.1 =? MAP_FAILED then Y else
     upd_id i (setter (u64 (lm.1 + lm.2)) lm.1 lm.2) ;;; k) T.
Proof.
  intros Hset HX HY Hk. eapply triple_bind; [apply sys_neutral, ioctl_mmap_law |]. intros e. destruct (e <? 0); [exact HX |].
  eapply triple_bind; [apply map_phys_triple |]. intros [a off]. cbn [fst snd]. apply triple_fact. intros ->.
  apply triple_or; apply triple_fact.
  - intros ->. eapply triple_bind; [apply get_triple |]. intros o'. apply triple_fact. intros ->.
    eapply triple_bind; [apply upd_triple |]. intros []. rewrite Z.eqb_refl. apply HY.
  - intros Ha. eapply triple_bind; [apply get_triple |]. intros o'. apply triple_fact. intros ->.
    eapply triple_bind; [apply upd_triple |]. intros []. apply Z.eqb_neq in Ha as E. rewrite E.
    eapply triple_bind; [apply upd_triple |]. intros []. rewrite Hset. now apply Hk.
Qed.

(** [ipc_os_init] once the files are open. *)
Lemma init_open_triple o r :
  us_state o = us_state o0 -> us_instance o = i -> us_rx_cb o = RX_IPC_SHM_RX -> us_shm_size o = cfg_shm_size cfg ->
  triple (has r o)
    (let* p := get_plat in
     let* err := on_sys (ioctl_mmap (us_cdev_fd p) IPC_IOC_MMAP_LOCAL (cfg_local_shm_addr cfg)) in
     if err <? 0 then err_close_ipc_dev i (- EINVAL) else
     let* lm := map_phys (cfg_local_shm_addr cfg) (cfg_shm_size cfg) in
     let* o := get_id i in
     upd_id i (set_local (us_local_virt_shm o) lm.1 lm.2) ;;;
     if lm.1 =? MAP_FAILED then err_close_ipc_dev i (- ENOMEM) else
     upd_id i (set_local (u64 (lm.1 + lm.2)) lm.1 lm.2) ;;;
     let* err := on_sys (ioctl_mmap (us_cdev_fd p) IPC_IOC_MMAP_REMOTE (cfg_remote_shm_addr cfg)) in
     if err <? 0 then err_unmap_local_shm i (- EINVAL) else
     let* rm := map_phys (cfg_remote_shm_addr cfg) (cfg_shm_size cfg) in
     let* o := get_id i in
     upd_id i (set_remote (us_remote_virt_shm o) rm.1 rm.2) ;;;
     if rm.1 =? MAP_FAILED then err_unmap_local_shm i (- ENOMEM) else
     upd_id i (set_remote (u64 (rm.1 + rm.2)) rm.1 rm.2) ;;;
     upd_id i (set_irq (cfg_inter_core_rx_irq cfg)) ;;;
     let* err := on_sys (ioctl_data (us_cdev_fd p) IPC_IOC_INIT (CdevData i cfg)) in
     if err <? 0 then err_unmap_remote_shm i (- EINVAL) else
     if cfg_inter_core_rx_irq cfg =? IPC_IRQ_NONE then
       upd_id i (set_state IPC_SHM_INSTANCE_ENABLED) ;;; cret 0
     else init_uio i) (init_result r).
Proof.
  intros Hst Hi Hrx Hsz. assert (Hdo : ~ enabled o) by (unfold enabled in *; congruence).
  assert (Hsmall : forall e Q prog, -128 <= e < 128 -> e <> 0 ->
            triple Q prog (fun x p => x = i8 e /\ init_failed r p) -> triple Q prog (init_result r))
    by (intros; eapply user_failed_result; eauto).
  eapply triple_bind; [apply get_plat_triple |]. intros q. apply triple_fact. intros _.
  apply (attach_triple set_local us_local_virt_shm); [reflexivity | | intros v a off | intros off la Hla].
  1, 2: eapply Hsmall; [| | apply err_close_ipc_dev_triple]; vm_compute; intuition discriminate.
  set (o1 := set_local _ _ _ o). replace (la, u64 (off + cfg_shm_size cfg)) with (local_map o1) by (unfold local_map; cbn; now rewrite Hsz).
  apply (attach_triple set_remote us_remote_virt_shm); [reflexivity | | intros v a off' | intros off' ra Hra].
  1: eapply Hsmall; [| | apply user_err_unmap_local_triple]; vm_compute; intuition discriminate.
  1: change (local_map o1) with (local_map (set_remote v a off' o1));
     eapply Hsmall; [| | apply user_err_unmap_local_triple]; vm_compute; intuition discriminate.
  eapply triple_bind; [apply upd_triple |]. intros []. set (o2 := set_irq _ _).
  replace (ra, u64 (off' + cfg_shm_size cfg)) with (remote_map o2) by (unfold remote_map; cbn; now rewrite Hsz).
  change (local_map o1) with (local_map o2).
  assert (Hat : attached i cfg o2) by (constructor; auto).
  eapply triple_bind; [apply sys_neutral, ioctl_data_law |]. intros e. destruct (e <? 0).
  { eapply Hsmall; [| | apply user_err_unmap_remote_triple]; vm_compute; intuition discriminate. }
  destruct (Z.eqb_spec (cfg_inter_core_rx_irq cfg) IPC_IRQ_NONE) as [En | En]; [| now apply init_uio_triple].
  apply user_enable_triple; [exact Hat |].
  unfold with_entry, entry_fds, entry_maps, entry_threads. rewrite !decide_True by reflexivity.
  cbn [set_state us_irq_num]. change (us_irq_num o2) with (cfg_inter_core_rx_irq cfg). rewrite En, Z.eqb_refl. reflexivity.
Qed.

End Open.

(** ** The files *)

(** What opening the files comes to: nothing to do, both opened and the module
    loaded, or an error that leaves none open. *)
Definition files_result (r : posix_res) (opened : bool) (c m : Z) ids (e : Z) (p : P) : Prop :=
  if opened then e = 0 /\ uholds r true c m ids p
  else e = 0 /\ loaded r = false /\ (exists c' m', 0 <= c' /\ 0 <= m' /\
         uholds (with_loaded true (with_fds (fun l => c' :: m' :: l) r)) true c' m' ids p) \/
       e = - ENODEV /\ (exists c' m' b, (loaded r = true -> b = true) /\ uholds (with_loaded b r) false c' m' ids p).

Lemma set_fd_triple (opened : bool) c m r ids (g : M (memory * P) unit) c' m' :
  (forall mm p, uholds r opened c m ids p -> exists p', g (mm, p) = Ret tt (mm, p') /\ uholds r opened c' m' ids p') ->
  triple (uholds r opened c m ids) g (fun _ => uholds r opened c' m' ids).
Proof. intros Hg mm p Hp. destruct (Hg mm p Hp) as (p' & E & Hp'). eauto 6. Qed.

Lemma module_init_triple r opened c m ids :
  triple (uholds r opened c m ids) ipc_os_module_init (files_result r opened c m ids).
Proof.
  unfold ipc_os_module_init. eapply triple_bind; [apply get_plat_triple |]. intros q. apply triple_fact. intros [_ -> _ _ _].
  unfold files_result. destruct opened; [apply triple_ret; auto |].
  assert (Esame : forall r, with_loaded (loaded r) r = r) by now intros [].
  assert (Hset : forall r b c m fd, triple (uholds r b c m ids) (set_module_fd fd) (fun _ => uholds r b c fd ids)).
  { intros. apply set_fd_triple. intros mm p [E1 E2 E3 E4 E5]. eexists. split; [reflexivity |]. now constructor. }
  assert (Hset' : forall r b c m fd, triple (uholds r b c m ids) (set_cdev_fd fd) (fun _ => uholds r b fd m ids)).
  { intros. apply set_fd_triple. intros mm p [E1 E2 E3 E4 E5]. eexists. split; [reflexivity |]. now constructor. }
  eapply triple_bind; [apply open_triple |]. intros fd. apply triple_or; apply triple_fact; [intros -> | intros Hfd].
  { eapply triple_bind; [apply Hset |]. intros []. apply triple_ret. intros p Hp. right. split; [reflexivity |].
    exists c, (-1), (loaded r). rewrite Esame. auto. }
  eapply triple_bind; [apply Hset |]. intros []. destruct (Z.eqb_spec fd (-1)); [lia |].
  eapply triple_bind.
  { apply (sys_triple _ _ _ _ _ _ (fun e r' => e = 0 /\ loaded r = false /\ r' = with_loaded true (with_fds (cons fd) r) \/
      e <> 0 /\ r' = with_fds (cons fd) r)). intros u E. rewrite <- E. change (loaded r) with (loaded (with_fds (cons fd) r)).
    rewrite <- E. apply finit_law. }
  intros e. apply triple_ex. intros r'. apply triple_fact. intros [(-> & El & ->) | [He ->]].
  2: { apply Z.eqb_neq in He as ->. cbn [negb]. eapply triple_bind; [apply close_triple |]. intros []. rewrite close_opened.
       apply triple_ret. intros p Hp. right. split; [reflexivity |]. exists c, fd, (loaded r). rewrite Esame. auto. }
  cbn [Z.eqb negb]. eapply triple_bind; [apply open_triple |]. intros cfd. apply triple_or; apply triple_fact; [intros -> | intros Hc].
  { eapply triple_bind; [apply Hset' |]. intros []. cbn [Z.eqb Pos.eqb]. eapply triple_bind; [apply close_triple |]. intros [].
    apply triple_ret. intros p Hp. right. split; [reflexivity |]. exists (-1), fd, true. split; [auto |].
    change (with_loaded true (with_fds (cons fd) r)) with (with_fds (cons fd) (with_loaded true r)) in Hp. now rewrite close_opened in Hp. }
  eapply triple_bind; [apply Hset' |]. intros []. destruct (Z.eqb_spec cfd (-1)); [lia |].
  eapply (triple_bind _ _ (fun _ => uholds (with_fds (cons cfd) (with_loaded true (with_fds (cons fd) r))) true cfd fd ids)).
  { intros mm p [E1 E2 E3 E4 E5]. eexists tt, mm, _. split; [reflexivity |]. now constructor. }
  intros []. apply triple_ret. intros p Hp. left. split_and!; auto. exists cfd, fd. auto.
Qed.

(** ** The two calls *)

Lemma user_ipc_os_init_triple i cfg r (opened : bool) c m ids o0 :
  length ids = 4%nat -> nthZ ids i = Some o0 -> ~ enabled o0 -> (opened = true -> 0 <= c /\ 0 <= m) ->
  triple (uholds r opened c m ids) (ipc_os_init i cfg RX_IPC_SHM_RX) (fun e p =>
    (exists r1 c1 m1, 0 <= c1 /\ 0 <= m1 /\
       (opened = true /\ r1 = r /\ c1 = c /\ m1 = m \/
        opened = false /\ loaded r = false /\ r1 = with_loaded true (with_fds (fun l => c1 :: m1 :: l) r)) /\
       init_result c1 m1 i cfg ids r1 e p) \/
    opened = false /\ e = - ENODEV /\ exists c' m' b o, ~ enabled o /\ (loaded r = true -> b = true) /\
      uholds (with_loaded b r) false c' m' (setZ ids i o) p).
Proof.
  intros Hlen Ho Hd Hfd. unfold ipc_os_init. eapply triple_bind; [apply upd_id_triple; exact Ho |]. intros []. cbn beta.
  set (o1 := set_params i (cfg_shm_size cfg) RX_IPC_SHM_RX o0). set (ids1 := setZ ids i o1).
  eapply triple_bind; [apply module_init_triple |]. intros e. unfold files_result.
  assert (Htail : forall r1 c1 m1, 0 <= c1 -> 0 <= m1 -> triple (uholds r1 true c1 m1 ids1) _ (init_result c1 m1 i cfg ids r1))
    by (intros r1 c1 m1 H1 H2; apply (init_open_triple c1 m1 H1 H2 i cfg ids o0 Hlen Ho Hd o1 r1); reflexivity).
  destruct opened; [apply triple_fact; intros ->; cbn [Z.eqb negb] | apply triple_or].
  - destruct (Hfd eq_refl). eapply triple_post; [apply Htail; assumption |]. intros e p Hp. left. exists r, c, m. split_and!; auto.
  - apply triple_fact. intros ->. apply triple_fact. intros El. cbn [Z.eqb negb].
    apply triple_ex. intros c'. apply triple_ex. intros m'. apply triple_fact. intros Hc'. apply triple_fact. intros Hm'.
    eapply triple_post; [apply Htail; assumption |]. intros e p Hp. left. eexists _, c', m'. split_and!; [.. | exact Hp]; auto.
  - apply triple_fact. intros ->. change (negb (0 =? - ENODEV)) with true. cbn iota. apply triple_ret.
    intros p (c' & m' & b & Hb & Hp). right. split_and!; auto. exists c', m', b, o1. split_and!; auto.
Qed.

(** What [ipc_os_free] leaves of the resources of an entry. *)
Definition without_entry (o : ipc_os_priv_instance) (r : posix_res) : posix_res :=
  PosixRes (remove_all (entry_fds o) (fds r)) (remove_all (entry_maps o) (maps r)) (remove_all (entry_threads o) (threads r)) (loaded r).

Lemma unmaps_triple i o r opened c m ids :
  nthZ ids i = Some o ->
  triple (uholds r opened c m ids) (unmap_remote i ;;; unmap_local i)
    (fun _ => uholds (with_maps (fun l => remove_one (local_map o) (remove_one (remote_map o) l)) r) opened c m ids).
Proof.
  intros Ho. unfold unmap_remote, unmap_local.
  eapply (triple_bind _ _ (fun _ => uholds (with_maps (remove_one (remote_map o)) r) opened c m ids)).
  - eapply triple_bind; [apply get_id_triple; exact Ho |]. intros o'. apply triple_fact. intros ->.
    eapply triple_bind; [apply munmap_triple |]. intros e. now apply triple_ret.
  - intros []. eapply triple_bind; [apply get_id_triple; exact Ho |]. intros o'. apply triple_fact. intros ->.
    eapply triple_bind; [apply munmap_triple |]. intros e. now apply triple_ret.
Qed.

Lemma stop_triple unset i o r opened c m ids :
  nthZ ids i = Some o ->
  triple (uholds r opened c m ids)
    (if negb (us_irq_num o =? IPC_IRQ_NONE) then
       ipc_hw_irq_disable i ;;;
       on_sys (pthread_cancel (us_thread_id o)) ;;;
       on_sys (pthread_join (us_thread_id o)) ;;;
       let* p := get_plat in
       let* _ := on_sys (ioctl_data (us_cdev_fd p) IPC_IOC_FREE (CdevData i unset)) in
       on_sys (close_fd (us_uio_fd o))
     else cret tt)
    (fun _ => uholds (if us_irq_num o =? IPC_IRQ_NONE then r
                      else with_fds (remove_one (us_uio_fd o)) (with_threads (remove_one (us_thread_id o)) r)) opened c m ids).
Proof.
  intros Ho. destruct (_ =? _); cbn [negb]; [now apply triple_ret |].
  eapply (triple_bind _ _ (fun _ => uholds r opened c m ids)).
  { unfold ipc_hw_irq_disable, ipc_send_uio_cmd. eapply triple_bind; [apply get_id_triple; exact Ho |]. intros o'.
    apply triple_fact. intros _. eapply triple_bind; [apply sys_neutral, command_law | intros; now apply triple_ret]. }
  intros []. eapply triple_bind; [apply sys_neutral; intros u; destruct (cancel_law (us_thread_id o) u) as (u' & E); eauto |].
  intros []. eapply triple_bind.
  { apply (sys_known _ _ _ _ r ids (fun _ => True) (with_threads (remove_one (us_thread_id o)))).
    intros u. destruct (join_law (us_thread_id o) u) as (u' & E & Eh). eauto. }
  intros []. apply triple_fact. intros _. eapply triple_bind; [apply get_plat_triple |]. intros q. apply triple_fact. intros _.
  eapply triple_bind; [apply sys_neutral, ioctl_data_law |]. intros e. apply close_triple.
Qed.

Lemma ipc_os_free_triple unset i r c m ids o :
  length ids = 4%nat -> nthZ ids i = Some o -> enabled o ->
  let ids' := setZ ids i (set_state IPC_SHM_INSTANCE_DISABLED o) in
  triple (uholds r true c m ids) (ipc_os_free unset i) (fun _ p =>
    if busy ids' then uholds (without_entry o r) true c m ids' p
    else exists b, uholds (with_loaded b (with_fds (remove_one c) (without_entry o r))) false c m ids' p).
Proof.
  intros Hlen Ho He ids'. unfold ipc_os_free. eapply triple_bind; [apply upd_id_triple; exact Ho |]. intros []. cbn beta. fold ids'.
  set (o1 := set_state _ o) in *. assert (Ho1 : nthZ ids' i = Some o1) by now apply (nthZ_setZ _ _ _ o).
  eapply triple_bind; [apply get_id_triple; exact Ho1 |]. intros o'. apply triple_fact. intros ->.
  eapply triple_bind; [apply stop_triple; exact Ho1 |]. intros [].
  assert (Hassoc : forall k : M (memory * P) unit, forall Q R,
            triple Q ((unmap_remote i ;;; unmap_local i) ;;; k) R -> triple Q (unmap_remote i ;;; unmap_local i ;;; k) R).
  { intros k Q R H mm p Hq. destruct (H mm p Hq) as (a & m' & p' & E & HR). exists a, m', p'. rewrite cbind_assoc in E. auto. }
  apply Hassoc. eapply triple_bind; [apply unmaps_triple; exact Ho1 |]. intros []. cbn beta.
  match goal with |- triple (uholds ?x _ _ _ _) _ _ => replace x with (without_entry o r) end.
  2: { unfold without_entry, entry_fds, entry_maps, entry_threads. rewrite !decide_True by exact He.
       change (us_irq_num o1) with (us_irq_num o). now destruct (_ =? _). }
  eapply triple_bind; [apply any_enabled_triple; unfold ids'; now rewrite setZ_length |]. intros b. apply triple_fact. intros ->.
  destruct (busy ids'); [now apply triple_ret |].
  eapply triple_bind; [apply get_plat_triple |]. intros q. apply triple_fact. intros [_ _ -> _ _].
  eapply triple_bind; [apply close_triple |]. intros [].
  eapply (triple_bind _ _ (fun _ => uholds (with_fds (remove_one c) (without_entry o r)) false c m ids')).
  { intros mm p [E1 E2 E3 E4 E5]. eexists tt, mm, _. split; [reflexivity |]. now constructor. }
  intros []. eapply triple_bind.
  - apply (sys_triple _ _ _ _ _ _ (fun _ r' => exists b, r' = with_loaded b (with_fds (remove_one c) (without_entry o r)))).
    intros u <-. destruct (delete_law u) as (e & u' & E & [[_ Eh] | [_ Eh]]); exists e, u'; (split; [exact E |]); rewrite Eh.
    + now exists false.
    + exists (loaded (held u)). now destruct (held u).
  - intros e. apply triple_ret. intros p (r' & (b & ->) & Hp). now exists b.
Qed.

End Init.
