(* ===== verification/UserLife.v ===== *)
(** * Life of the instances of the user-space layer

    Over every sequence of [ipc_os_init] and [ipc_os_free] calls, and whatever the
    system calls answer, the process holds the mappings, the device and the thread
    of each enabled instance, and the files of the layer while one is enabled; the
    descriptor of the kernel module is never given back by [ipc_os_free]. *)

From S2P Require Import Prelude Memory Types World ShmSpec Resources Atomic KernelOs UioModule UserOs UserRes.
From stdpp Require Import list.
#[local] Open Scope Z_scope.

Section Life.
Context {U : Type} `{PX : Posix U} `{PR : !PosixResources U}.
Abbreviation P := (userplat U).

(** ** Accounts *)

(** Descriptors of the layer itself. *)
Definition layer_files (p : P) : list Z := if us_is_files_opened p then [us_cdev_fd p; us_module_fd p] else [].

(** Resources of the process: those it had before, those of the enabled instances,
    the layer's files, and [lost] descriptors nobody will close. *)
Record shares (base : posix_res) (lost : nat) (r : posix_res) (files : list Z) (ids : list ipc_os_priv_instance) : Prop := {
  sh_maps : maps r ≡ₚ table entry_maps ids ++ maps base;
  sh_threads : threads r ≡ₚ table entry_threads ids ++ threads base;
  sh_fds : exists gone, length gone = lost /\ fds r ≡ₚ table entry_fds ids ++ files ++ gone ++ fds base
}.

Record accounted (base : posix_res) (lost : nat) (s : memory * P) : Prop := {
  ac_len : length (us_id s.2) = 4%nat;
  ac_shares : shares base lost (held (us_sys s.2)) (layer_files s.2) (us_id s.2);
  ac_opened : us_is_files_opened s.2 = busy (us_id s.2);
  ac_files : us_is_files_opened s.2 = true -> 0 <= us_cdev_fd s.2 /\ 0 <= us_module_fd s.2
}.

(** An account is about the resources and the layer's data only. *)
Lemma accounted_at base lost mm p r (opened : bool) c m ids :
  uholds r opened c m ids p -> length ids = 4%nat -> shares base lost r (if opened then [c; m] else []) ids ->
  opened = busy ids -> (opened = true -> 0 <= c /\ 0 <= m) -> accounted base lost (mm, p).
Proof. intros [<- <- <- <- <-] Hl Hs Ho Hp. now constructor. Qed.

Lemma uholds_self (p : P) : uholds (held (us_sys p)) (us_is_files_opened p) (us_cdev_fd p) (us_module_fd p) (us_id p) p.
Proof. now constructor. Qed.

(** ** Entries and files come and go *)

Lemma entry_disabled o : ~ enabled o -> entry_maps o = [] /\ entry_fds o = [] /\ entry_threads o = [].
Proof. intros Hd. unfold entry_maps, entry_fds, entry_threads. now rewrite !decide_False. Qed.

Lemma with_entry_disabled o r : ~ enabled o -> with_entry o r = r.
Proof. intros Hd. unfold with_entry. destruct (entry_disabled o Hd) as (-> & -> & ->). now destruct r. Qed.

Lemma table_gains {A} (f : ipc_os_priv_instance -> list A) ids i o o' x y :
  nthZ ids i = Some o -> f o = [] -> x ≡ₚ table f ids ++ y -> f o' ++ x ≡ₚ table f (setZ ids i o') ++ y.
Proof.
  intros Ho Ef Hx. destruct (table_split f ids i o Ho) as (rest & T1 & T2). rewrite Ef in T1.
  rewrite T2, Hx, T1. cbn [app]. now rewrite app_assoc.
Qed.

Lemma table_loses {A} `{EqDecision A} (f : ipc_os_priv_instance -> list A) ids i o o' x y :
  nthZ ids i = Some o -> f o' = [] -> x ≡ₚ table f ids ++ y -> remove_all (f o) x ≡ₚ table f (setZ ids i o') ++ y.
Proof.
  intros Ho Ef Hx. apply remove_all_perm. destruct (table_split f ids i o Ho) as (rest & T1 & T2).
  rewrite T2, Ef, Hx, T1. cbn [app]. now rewrite app_assoc.
Qed.

(** An entry that holds nothing is replaced. *)
Lemma shares_gain base lost r files ids i o o' :
  nthZ ids i = Some o -> ~ enabled o -> shares base lost r files ids ->
  shares base lost (with_entry o' r) files (setZ ids i o').
Proof.
  intros Ho Hd [Hm Ht (gone & Hg & Hf)]. destruct (entry_disabled o Hd) as (E1 & E2 & E3).
  constructor; cbn [with_entry maps threads fds]; [eapply table_gains; eauto .. |].
  exists gone. split; [exact Hg |]. eapply table_gains; eauto.
Qed.

Lemma shares_keep base lost r files ids i o o' :
  nthZ ids i = Some o -> ~ enabled o -> ~ enabled o' -> shares base lost r files ids -> shares base lost r files (setZ ids i o').
Proof. intros Ho Hd Hd' Hs. rewrite <- (with_entry_disabled o' r Hd'). eapply shares_gain; eauto. Qed.

(** An entry is replaced by one that holds nothing. *)
Lemma shares_lose base lost r files ids i o o' :
  nthZ ids i = Some o -> ~ enabled o' -> shares base lost r files ids ->
  shares base lost (without_entry o r) files (setZ ids i o').
Proof.
  intros Ho Hd [Hm Ht (gone & Hg & Hf)]. destruct (entry_disabled o' Hd) as (E1 & E2 & E3).
  constructor; cbn [without_entry maps threads fds]; [eapply table_loses; eauto .. |].
  exists gone. split; [exact Hg |]. eapply table_loses; eauto.
Qed.

Lemma shares_open base lost r ids c m b :
  shares base lost r [] ids -> shares base lost (with_loaded b (with_fds (fun l => c :: m :: l) r)) [c; m] ids.
Proof.
  intros [Hm Ht (gone & Hg & Hf)]. constructor; auto. exists gone. split; [exact Hg |].
  cbn [with_loaded with_fds fds]. rewrite Hf. cbn [app]. now rewrite Permutation_middle, Permutation_middle.
Qed.

Lemma shares_close base lost r ids c m :
  shares base lost r [c; m] ids -> shares base lost (with_fds (fun l => remove_one m (remove_one c l)) r) [] ids.
Proof.
  intros [Hm Ht (gone & Hg & Hf)]. constructor; auto. exists gone. split; [exact Hg |].
  apply remove_one_perm, remove_one_perm. rewrite Hf. cbn [app]. now rewrite <- !Permutation_middle.
Qed.

(** The character device alone is closed. *)
Lemma shares_abandon base lost r ids c m b :
  shares base lost r [c; m] ids -> shares base (S lost) (with_loaded b (with_fds (remove_one c) r)) [] ids.
Proof.
  intros [Hm Ht (gone & Hg & Hf)]. constructor; auto. exists (m :: gone). split; [cbn; now rewrite Hg |].
  cbn [with_loaded with_fds fds app]. apply remove_one_perm. rewrite Hf. cbn [app]. now rewrite <- Permutation_middle.
Qed.

Lemma shares_loaded base lost r files ids b : shares base lost r files ids -> shares base lost (with_loaded b r) files ids.
Proof. intros [Hm Ht Hf]. now constructor. Qed.

Lemma busy_enabled ids i o o' : nthZ ids i = Some o -> enabled o' -> busy (setZ ids i o') = true.
Proof. intros Ho He. apply busy_spec. exists i, o'. split; [now apply (nthZ_setZ _ _ _ o) | exact He]. Qed.

(** ** The two calls *)

(** The end of an initialisation whose files are open. *)
Lemma result_accounted base lost i cfg ids o r c m e mm p :
  length ids = 4%nat -> nthZ ids i = Some o -> ~ enabled o -> 0 <= c -> 0 <= m ->
  shares base lost r [c; m] ids -> init_result c m i cfg ids r e p ->
  accounted base lost (mm, p) /\
  exists o', nthZ (us_id p) i = Some o' /\ (e = 0 <-> enabled o') /\ (e = 0 -> attached i cfg o').
Proof.
  intros Hl Ho Hd Hc Hm Hs Hres.
  assert (Hlen : forall o', length (setZ ids i o') = 4%nat) by (intros; now rewrite setZ_length).
  assert (Hself : forall o', nthZ (setZ ids i o') i = Some o') by (intros; now apply (nthZ_setZ _ _ _ o)).
  destruct Hres as [(-> & o' & He' & Hat & Hp) | (Hne & o' & Hd' & Hp)].
  - split; [| exists o'; rewrite (uh_ids _ _ _ _ _ _ Hp); auto using conj].
    + eapply accounted_at; [exact Hp | apply Hlen | now apply (shares_gain _ _ _ _ _ _ o) | now rewrite (busy_enabled ids i o) | auto].
    + split_and!; auto. tauto.
  - destruct (busy ids) eqn:Eb; (split; [| exists o'; rewrite (uh_ids _ _ _ _ _ _ Hp); split_and!; auto; tauto]);
      assert (Eb' := busy_disabled ids i o o' Ho Hd Hd'); rewrite Eb in Eb'.
    + eapply accounted_at; [exact Hp | apply Hlen | now apply (shares_keep _ _ _ _ _ _ o) | now rewrite Eb' | auto].
    + eapply accounted_at; [exact Hp | apply Hlen | now apply (shares_keep _ _ _ _ _ _ o), shares_close | now rewrite Eb' | easy].
Qed.

(** What [ipc_os_init] does to the account. *)
Lemma user_init_accounted base lost i cfg mm p o :
  accounted base lost (mm, p) -> nthZ (us_id p) i = Some o -> ~ enabled o ->
  exists e mm' p' o', ipc_os_init i cfg RX_IPC_SHM_RX (mm, p) = Ret e (mm', p') /\ accounted base lost (mm', p') /\
    nthZ (us_id p') i = Some o' /\ (e = 0 <-> enabled o') /\ (e = 0 -> attached i cfg o') /\
    (us_is_files_opened p = false -> loaded (held (us_sys p)) = true ->
       e = - ENODEV /\ us_is_files_opened p' = false /\ loaded (held (us_sys p')) = true).
Proof.
  intros [Hl Hs Hb Hfd] Ho Hd. cbn [snd] in *. unfold layer_files in Hs.
  destruct (user_ipc_os_init_triple i cfg (held (us_sys p)) (us_is_files_opened p) (us_cdev_fd p) (us_module_fd p) (us_id p) o
              Hl Ho Hd Hfd mm p (uholds_self p)) as (e & mm' & p' & E & Hres). exists e, mm', p'.
  destruct Hres as [(r1 & c & m & Hc & Hm & Hopen & Hres) | (Eo & -> & c & m & b & o' & Hd' & Hlb & Hp)].
  - assert (Hr : shares base lost r1 [c; m] (us_id p)).
    { destruct Hopen as [(Eo & -> & -> & ->) | (Eo & _ & ->)]; rewrite Eo in Hs; [exact Hs | now apply shares_open]. }
    destruct (result_accounted base lost i cfg _ o r1 c m e mm' p' Hl Ho Hd Hc Hm Hr Hres) as (Ha & o' & H).
    exists o'. split_and!; auto; try apply H. intros Eo El. destruct Hopen as [[? _] | (_ & ? & _)]; congruence.
  - exists o'. rewrite Eo in Hs, Hb. rewrite (uh_ids _ _ _ _ _ _ Hp).
    split; [exact E |]. split; [| split; [now apply (nthZ_setZ _ _ _ o) |]; split; [split; [discriminate | tauto] |]; split; [discriminate |]].
    + eapply accounted_at; [exact Hp | now rewrite setZ_length | | now rewrite (busy_disabled _ i o) | easy].
      now apply (shares_keep _ _ _ _ _ _ o), shares_loaded.
    + intros _ El. destruct Hp as [-> -> _ _ _]. auto.
Qed.

(** What [ipc_os_free] does to it: the last instance takes the character device
    with it, and leaves the descriptor of the module. *)
Lemma user_free_accounted base lost unset i mm p o :
  accounted base lost (mm, p) -> nthZ (us_id p) i = Some o -> enabled o ->
  let o' := set_state IPC_SHM_INSTANCE_DISABLED o in
  exists mm' p', ipc_os_free unset i (mm, p) = Ret tt (mm', p') /\ us_id p' = setZ (us_id p) i o' /\
    accounted base (if us_is_files_opened p' then lost else S lost) (mm', p').
Proof.
  intros [Hl Hs Hb Hfd] Ho He o'. cbn [snd] in *.
  assert (Eb : us_is_files_opened p = true) by (rewrite Hb; apply busy_spec; eauto).
  unfold layer_files in Hs. assert (Hp := uholds_self p). rewrite Eb in Hp, Hs.
  destruct (ipc_os_free_triple unset i _ _ _ _ o Hl Ho He mm p Hp) as (x & mm' & p' & E & Hres).
  cbv zeta in Hres. fold o' in Hres. set (ids' := setZ (us_id p) i o') in *.
  assert (Hlen : length ids' = 4%nat) by (unfold ids'; now rewrite setZ_length).
  assert (Hd' : ~ enabled o') by (unfold enabled; vm_compute; discriminate).
  assert (Hs' := shares_lose base lost _ _ _ i o o' Ho Hd' Hs). fold ids' in Hs'.
  exists mm', p'. destruct x. split; [exact E |]. destruct (busy ids') eqn:Eb'; [| destruct Hres as (b & Hres)];
    rewrite (uh_ids _ _ _ _ _ _ Hres), (uh_opened _ _ _ _ _ _ Hres); (split; [reflexivity |]).
  - eapply accounted_at; [exact Hres | exact Hlen | exact Hs' | easy | auto].
  - eapply accounted_at; [exact Hres | exact Hlen | | easy | easy]. now apply (shares_abandon _ _ _ _ _ (us_module_fd p)).
Qed.

(** ** Calls in sequence *)

(** The driver initialises instances that are not in use and frees those that
    are; anything else may happen to the memory and the rest of the process.  The
    label tells whether a release gave the layer's files up. *)
Inductive life_step : memory * P -> bool -> memory * P -> Prop :=
| life_init i cfg m p o e m' p' :
    nthZ (us_id p) i = Some o -> ~ enabled o -> ipc_os_init i cfg RX_IPC_SHM_RX (m, p) = Ret e (m', p') ->
    life_step (m, p) false (m', p')
| life_free unset i m p o m' p' :
    nthZ (us_id p) i = Some o -> enabled o -> ipc_os_free unset i (m, p) = Ret tt (m', p') ->
    life_step (m, p) (negb (us_is_files_opened p')) (m', p')
| life_other m p m' p' r opened c md ids :
    uholds r opened c md ids p -> uholds r opened c md ids p' -> life_step (m, p) false (m', p').

Definition releases (es : list bool) : nat := length (List.filter id es).

Lemma user_life_step_accounted base lost s l s' :
  accounted base lost s -> life_step s l s' -> accounted base (lost + releases [l]) s'.
Proof.
  intros Ha Hs. destruct Hs as [i cfg m p o e m' p' Ho Hd E | unset i m p o m' p' Ho He E | m p m' p' r opened c md ids H1 H2].
  - destruct (user_init_accounted base lost i cfg m p o Ha Ho Hd) as (e1 & m1 & p1 & o' & E' & H' & _).
    rewrite E in E'. injection E' as <- <- <-. cbn. now rewrite Nat.add_0_r.
  - destruct (user_free_accounted base lost unset i m p o Ha Ho He) as (m1 & p1 & E' & _ & H').
    rewrite E in E'. injection E' as <- <-. destruct (us_is_files_opened p'); cbn; [now rewrite Nat.add_0_r | now rewrite Nat.add_1_r].
  - cbn. rewrite Nat.add_0_r. destruct H1 as [<- <- <- <- <-]. destruct Ha.
    eapply accounted_at; [exact H2 | assumption ..].
Qed.

Lemma life_accounted base s es s' :
  exec life_step s es s' -> forall lost, accounted base lost s -> accounted base (lost + releases es) s'.
Proof.
  induction 1 as [s | s l s1 es s' Hs _ IH]; intros lost Ha; [cbn; now rewrite Nat.add_0_r |].
  apply (user_life_step_accounted base lost s l s1 Ha) in Hs. apply IH in Hs.
  replace (lost + releases (l :: es))%nat with (lost + releases [l] + releases es)%nat; [exact Hs |].
  unfold releases. cbn [List.filter]. destruct l; cbn [length id]; lia.
Qed.

Lemma user_start_accounted m (p : P) :
  length (us_id p) = 4%nat -> (forall i o, nthZ (us_id p) i = Some o -> ~ enabled o) -> us_is_files_opened p = false ->
  accounted (held (us_sys p)) 0 (m, p).
Proof.
  intros Hl Hd Ho.
  assert (Hnil : forall {A} (f : ipc_os_priv_instance -> list A), (forall o, ~ enabled o -> f o = []) -> table f (us_id p) = []).
  { intros A f Hf. apply table_nil, Forall_lookup_2. intros j o Ej. apply Hf, (Hd (Z.of_nat j)).
    apply nthZ_Some. split; [lia |]. now rewrite Nat2Z.id. }
  assert (He := entry_disabled). eapply accounted_at; [apply uholds_self | exact Hl | | | now rewrite Ho].
  - rewrite Ho. constructor; [| | exists []; split; [reflexivity |]]; now rewrite Hnil by (intros; now apply He).
  - rewrite Ho. symmetry. destruct (busy (us_id p)) eqn:Eb; [| reflexivity].
    apply busy_spec in Eb as (i & o & Eo & Hen). now apply Hd in Eo.
Qed.

(** C35: the user-space layer holds what its enabled instances use.  Start with no
    instance enabled and the files closed.  Over every sequence of [ipc_os_init]
    and [ipc_os_free] calls the driver can make, and whatever the system calls answer:
    the mappings of the process are those it had and the two of each enabled
    instance, its threads those it had and one for each enabled instance that does
    not poll, its descriptors those it had, the device of each such instance, the
    two files of the layer while an instance is enabled, and one more for each
    release of the last instance, which closes the character device only.  The
    next call returns: initialisation enables the instance exactly if its result is
    0, and then the base addresses lie in its mappings at the distance of the
    configured addresses from their pages; release disables it.  Once the module is
    loaded and the files are closed, initialisation fails with -ENODEV and it
    stays so. *)
Theorem user_resources_exact m p es m' p' :
  length (us_id p) = 4%nat -> (forall i o, nthZ (us_id p) i = Some o -> ~ enabled o) -> us_is_files_opened p = false ->
  exec life_step (m, p) es (m', p') ->
  let r := held (us_sys p) in let r' := held (us_sys p') in
  maps r' ≡ₚ table entry_maps (us_id p') ++ maps r /\
  threads r' ≡ₚ table entry_threads (us_id p') ++ threads r /\
  (exists gone, length gone = releases es /\
     fds r' ≡ₚ table entry_fds (us_id p') ++ layer_files p' ++ gone ++ fds r) /\
  us_is_files_opened p' = busy (us_id p') /\
  (forall i cfg o, nthZ (us_id p') i = Some o -> ~ enabled o ->
     exists e m2 p2 o2, ipc_os_init i cfg RX_IPC_SHM_RX (m', p') = Ret e (m2, p2) /\ nthZ (us_id p2) i = Some o2 /\
       (e = 0 <-> enabled o2) /\ (e = 0 -> attached i cfg o2) /\
       (us_is_files_opened p' = false -> loaded r' = true ->
          e = - ENODEV /\ us_is_files_opened p2 = false /\ loaded (held (us_sys p2)) = true)) /\
  (forall unset i o, nthZ (us_id p') i = Some o -> enabled o ->
     exists m2 p2, ipc_os_free unset i (m', p') = Ret tt (m2, p2) /\
       us_id p2 = setZ (us_id p') i (set_state IPC_SHM_INSTANCE_DISABLED o)).
Proof.
  intros Hl Hd Ho He r r'.
  assert (Ha := life_accounted _ _ _ _ He 0%nat (user_start_accounted m p Hl Hd Ho)). fold r in Ha. cbn [Nat.add] in Ha.
  destruct (ac_shares _ _ _ Ha) as [Hm Ht Hf]. split_and!; try assumption; [apply Ha | |].
  - intros i cfg o Ei Hdo. destruct (user_init_accounted r (releases es) i cfg m' p' o Ha Ei Hdo) as (e & m2 & p2 & o2 & E & _ & H).
    exists e, m2, p2, o2. split; [exact E | exact H].
  - intros unset i o Ei Hen. destruct (user_free_accounted r (releases es) unset i m' p' o Ha Ei Hen) as (m2 & p2 & E & Eid & _).
    exists m2, p2. auto.
Qed.

End Life.
