(* ===== verification/OsSpec.v ===== *)
(** * What the operating system layers have in common

    The Xen layer discharges the interface [PlatformLaws] of the driver too, and
    polling has the same result in all three layers. *)

From S2P Require Import Prelude Memory Types Queue QueueSpec World Shm ShmSpec Traffic Mscm KernelOs KernelSpec.
From S2P Require XenOs UserOs UserSpec.
#[local] Open Scope Z_scope.

(** ** The Xen layer *)

Section Xen.
Import XenOs.
Context {K : Type} `{KS : Kernel K}.
Abbreviation P := (xplat K).

Lemma xen_get_id_eval i o m (p : P) : nthZ (xp_id p) i = Some o -> get_id i (m, p) = Ret o (m, p).
Proof. intros E. unfold get_id. cbn [snd]. now rewrite E. Qed.

Definition xen_base (f : ipc_os_priv_instance -> Z) (i : Z) (p : P) : Z := from_option f NULL (nthZ (xp_id p) i).

(** The interrupt functions of a guest do nothing. *)
#[export] Program Instance xen_platform_laws : PlatformLaws P := {
  plat_live i _ p := is_Some (nthZ (xp_id p) i);
  local_base := xen_base x_local_virt_shm;
  remote_base := xen_base x_remote_virt_shm
}.
Next Obligation.
  intros i m p [o E]. cbn. unfold ipc_os_get_local_shm, xen_base.
  now rewrite (cbind_Ret _ _ _ _ _ (xen_get_id_eval _ _ _ _ E)), E.
Qed.
Next Obligation.
  intros i m p [o E]. cbn. unfold ipc_os_get_remote_shm, xen_base.
  now rewrite (cbind_Ret _ _ _ _ _ (xen_get_id_eval _ _ _ _ E)), E.
Qed.
Next Obligation. intros i m p Hl. exists p. auto. Qed.
Next Obligation. intros i m p Hl. exists p. auto. Qed.
Next Obligation. intros i m p Hl. exists p. auto. Qed.

End Xen.

(** ** Polling *)

(** The number of messages, as the caller gets it. *)
Definition polled (n r : Z) : Prop := (n < 128 -> r = n) /\ (128 <= n -> r < 0).

Lemma polled_i8 n : 0 <= n < 256 -> polled n (i8 n).
Proof.
  intros Hn. split; intros; [apply i8_small; lia |]. unfold i8.
  replace (n + 2 ^ 7) with (n - 2 ^ 7 + 1 * 2 ^ 8) by lia. rewrite Z_mod_plus_full, Z.mod_small by lia. lia.
Qed.

Section Poll.
Context {P : Type} `{PL : Platform P} `{LW : !PlatformLaws P} `{AP : App P}.

(** The driver hands a poll of an operational instance to the OS layer. *)
Lemma poll_eval i p n (w w' : world P) :
  operational w i p ->
  World.ipc_os_poll_channels ipc_shm_rx i w = (let* n := ipc_shm_rx i IPC_SOFTIRQ_BUDGET in cret (i8 n)) w ->
  ipc_shm_rx i IPC_SOFTIRQ_BUDGET w = Ret n w' -> 0 <= n < 256 ->
  exists r, ipc_shm_poll_channels i w = Ret r w' /\ polled n r.
Proof.
  intros Hop Hos Hrx Hn. exists (i8 n). split; [| now apply polled_i8]. unfold ipc_shm_poll_channels.
  rewrite (cbind_Ret _ _ _ _ _ (ipc_instance_is_free_used _ _ _ (op_used _ _ _ Hop))).
  rewrite bool_decide_eq_true_2 by reflexivity. cbn [negb].
  rewrite (cbind_Ret _ _ _ _ _ (get_remote_eval _ _ (op_live _ _ _ Hop))). unfold global_state.
  erewrite cbind_Ret by (apply on_mem_read, read_uint_ok, (op_ready_mapped _ _ _ Hop)).
  rewrite (op_ready _ _ _ Hop), Z.eqb_refl. cbn [negb].
  rewrite Hos. now rewrite (cbind_Ret _ _ _ _ _ Hrx).
Qed.

End Poll.

#[local] Existing Instances XenOs.xen_platform UserSpec.user_platform_laws.

(** C31: polling.  On an instance without interrupt, in the kernel, as a Xen guest
    and in user space, [ipc_shm_poll_channels] receives with the budget of 128
    messages and returns their number narrowed to int8_t, which is that number up
    to 127 and negative (an error code for the caller) from 128 to 255. *)
Theorem poll_result i n :
  0 <= n < 256 ->
  (forall (H K : Type) (KS : Kernel K) (HO : HwOps (kplat H K)) (HL : HwOpsLaws (kplat H K)) (HK : HwKeepsOs H K)
     (AP : App (kplat H K)) w w' p o,
     operational w i p -> nthZ (kp_os (w_plat w)) i = Some o -> irq_num o = IPC_IRQ_NONE -> os_rx_cb o = RX_IPC_SHM_RX ->
     ipc_shm_rx i IPC_SOFTIRQ_BUDGET w = Ret n w' ->
     exists r, ipc_shm_poll_channels i w = Ret r w' /\ polled n r) /\
  (forall (K : Type) (KS : Kernel K) (AP : App (XenOs.xplat K)) w w' p o,
     operational w i p -> nthZ (XenOs.xp_id (w_plat w)) i = Some o -> XenOs.x_irq_num o = IPC_IRQ_NONE ->
     XenOs.xp_rx_cb (w_plat w) = RX_IPC_SHM_RX -> ipc_shm_rx i IPC_SOFTIRQ_BUDGET w = Ret n w' ->
     exists r, ipc_shm_poll_channels i w = Ret r w' /\ polled n r) /\
  (forall (U : Type) (PX : UserOs.Posix U) (PXL : UserSpec.PosixLaws U) unset_cfg (AP : App (UserOs.userplat U)) w w' p o,
     @operational _ (UserOs.user_platform unset_cfg) _ w i p ->
     nthZ (UserOs.us_id (w_plat w)) i = Some o -> UserOs.us_irq_num o = IPC_IRQ_NONE -> UserOs.us_rx_cb o = RX_IPC_SHM_RX ->
     @ipc_shm_rx _ (UserOs.user_platform unset_cfg) _ i IPC_SOFTIRQ_BUDGET w = Ret n w' ->
     exists r, @ipc_shm_poll_channels _ (UserOs.user_platform unset_cfg) _ i w = Ret r w' /\ polled n r).
Proof.
  intros Hn. split_and!.
  - intros * Hop Ho Hirq Hcb Hrx. apply (poll_eval i p n w w' Hop); [| exact Hrx | exact Hn].
    cbn [World.ipc_os_poll_channels kernel_platform]. unfold ipc_os_poll_channels.
    rewrite (cbind_Ret _ _ w o w); [| unfold on_plat, czoom, get_os; cbn [fst snd]; rewrite Ho; now destruct w].
    now rewrite Hirq, Z.eqb_refl, Hcb.
  - intros * Hop Ho Hirq Hcb Hrx. apply (poll_eval i p n w w' Hop); [| exact Hrx | exact Hn].
    cbn [World.ipc_os_poll_channels XenOs.xen_platform]. unfold XenOs.ipc_os_poll_channels.
    rewrite (cbind_Ret _ _ w o w); [| unfold on_plat, czoom, XenOs.get_id; cbn [fst snd]; rewrite Ho; now destruct w].
    rewrite Hirq, Z.eqb_refl. unfold cgets at 1. rewrite (cbind_Ret _ _ w (XenOs.xp_rx_cb (w_plat w)) w) by reflexivity.
    now rewrite Hcb.
  - intros * Hop Ho Hirq Hcb Hrx. apply (poll_eval i p n w w' Hop); [| exact Hrx | exact Hn].
    cbn [World.ipc_os_poll_channels UserOs.user_platform]. unfold UserOs.ipc_os_poll_channels.
    rewrite (cbind_Ret _ _ _ _ _ (UserSpec.on_plat_get_id i o w Ho)). now rewrite Hirq, Z.eqb_refl, Hcb.
Qed.
