(* ===== verification/System.v ===== *)
(** * A concrete system

    Two A53 cores of an S32gen1 with the kernel build of the driver, over a
    small simulated kernel: identity mapping of physical memory, registers that
    accept every access, received messages recorded in a log.  One instance
    with a managed channel (one pool of two buffers) and an unmanaged channel.
    Both ends are brought up by running [ipc_shm_init]. *)

From S2P Require Import Prelude Memory Types Queue World Shm Mscm Router.
From S2P Require S32gen1.
From S2P Require Import Resources KernelOs KernelRes KernelSpec.

(** ** The simulated kernel *)

Record sim : Type := Sim {
  sim_core : Z;                   (* number of the core, as CPXNUM reads *)
  sim_log : list (Z * Z);         (* messages received: address, size *)
  sim_regions : list (Z * Z);
  sim_irqs : list Z
}.

Definition MSCM_BASE : Z := 0x40198000.

#[export] Instance sim_kernel : Kernel sim := {
  request_mem_region a n k :=
    Ret true (Sim (sim_core k) (sim_log k) ((a, n) :: sim_regions k) (sim_irqs k));
  release_mem_region a n k :=
    Ret tt (Sim (sim_core k) (sim_log k) (remove_one (a, n) (sim_regions k)) (sim_irqs k));
  ioremap a n := fun s => Ret a (map_region a n s.1, s.2);
  iounmap a := fun s => Ret tt (unmap_region a s.1, s.2);
  of_find_compatible_node := cret 1;
  of_node_put _ := cret tt;
  of_irq_get _ n := cret (33 + n);
  of_address_to_resource _ := cret (0, (MSCM_BASE, 0x1000));
  request_irq n k := Ret 0 (Sim (sim_core k) (sim_log k) (sim_regions k) (n :: sim_irqs k));
  free_irq n k := Ret tt (Sim (sim_core k) (sim_log k) (sim_regions k) (remove_one n (sim_irqs k)));
  tasklet_schedule := cret tt;
  tasklet_kill := cret tt;
  bus_read n a k := Ret (if a =? MSCM_BASE + S32gen1.off_CPXNUM then sim_core k else 0) k;
  bus_write n a v := cret tt
}.

Abbreviation plat := (kplat ipc_hw_priv_type sim).
#[export] Existing Instance S32gen1.hw_ops.

Definition log_of (p : plat) : list (Z * Z) := sim_log (kp_kern p).
Definition log_msg (a n : Z) (p : plat) : plat :=
  let k := kp_kern p in
  KPlat (kp_hw p) (kp_os p) (Sim (sim_core k) (sim_log k ++ [(a, n)]) (sim_regions k) (sim_irqs k)).

(** The application records what it receives. *)
#[export] Instance sim_app : App plat := {
  managed_rx_cb f arg i ch buf size :=
    cmodify (fun w => World (w_mem w) (w_priv w) (log_msg buf size (w_plat w)));
  unmanaged_rx_cb f arg i ch mem :=
    cmodify (fun w => World (w_mem w) (w_priv w) (log_msg mem 0 (w_plat w)))
}.

(** ** Configuration *)

Definition RX_CB : Z := 0x7000.
Definition RX_CB_U : Z := 0x7100.
Definition BASE_A : Z := 0x10000.
Definition BASE_B : Z := 0x20000.

Definition channels : list ipc_shm_channel_cfg := [
  ChannelManaged (ManagedCfg 1 (Some [PoolCfg 2 16]) RX_CB 0);
  ChannelUnmanaged (UnmanagedCfg 64 RX_CB_U 0) ].

Definition cfg_A : ipc_shm_cfg :=
  ShmCfg BASE_A BASE_B 0x400 0 1 (LocalCore IPC_CORE_A53 IPC_CORE_INDEX_0 0x3)
    (RemoteCore IPC_CORE_A53 IPC_CORE_INDEX_1) 2 (Some channels).
Definition cfg_B : ipc_shm_cfg :=
  ShmCfg BASE_B BASE_A 0x400 1 0 (LocalCore IPC_CORE_A53 IPC_CORE_INDEX_1 0x3)
    (RemoteCore IPC_CORE_A53 IPC_CORE_INDEX_0) 2 (Some channels).

(** Static storage is zero; the core number is that of the CPU. *)
Definition reset (core : Z) : plat :=
  KPlat (replicate 4 hw_priv_zero) (replicate 4 os_priv_zero) (Sim core [] [] []).
Definition power_on (core : Z) (m : memory) : world plat := World m priv_data_zero (reset core).

Definition boot (core : Z) (cfg : ipc_shm_cfg) (m : memory) : option (world plat) :=
  match ipc_shm_init (Some (InstancesCfg 1 [cfg])) (power_on core m) with
  | Ret 0 w => Some w
  | _ => None
  end.

Definition blank : memory := Memory [] ∅.

(** A boots first, then B on the memory A left. *)
Definition boot_A : option (world plat) := boot 0 cfg_A blank.
Definition boot_B : option (world plat) := w ← boot_A; boot 1 cfg_B (w_mem w).

Definition dead : world plat := power_on 0 blank.
Definition priv_A : list ipc_shm_priv := Eval vm_compute in w_priv (default dead boot_A).
Definition plat_A : plat := Eval vm_compute in w_plat (default dead boot_A).
Definition priv_B : list ipc_shm_priv := Eval vm_compute in w_priv (default dead boot_B).
Definition plat_B : plat := Eval vm_compute in w_plat (default dead boot_B).

(** The shared memory once both ends are up: the bytes that are not zero. *)
Definition live_bytes : list (Z * Z) := Eval vm_compute in
  List.filter (fun e => negb (e.2 =? 0)) (map_to_list (mem_bytes (w_mem (default dead boot_B)))).
Definition live_mem : memory :=
  Memory [(BASE_A, 0x400); (BASE_B, 0x400); (MSCM_BASE, 0x1000)] (list_to_map live_bytes).

Definition world_A : world plat := World live_mem priv_A plat_A.
Definition world_B : world plat := World live_mem priv_B plat_B.

Definition inst_A : ipc_shm_priv := Eval vm_compute in nth 0 priv_A priv_zero.
Definition inst_B : ipc_shm_priv := Eval vm_compute in nth 0 priv_B priv_zero.
Definition chan_A : ipc_shm_channel := Eval vm_compute in nth 0 (p_channels inst_A) chan_zero.
Definition chan_B : ipc_shm_channel := Eval vm_compute in nth 0 (p_channels inst_B) chan_zero.
Definition pool_A : ipc_shm_pool := Eval vm_compute in nth 0 (pools (ch_mng chan_A)) pool_zero.
Definition uchan_A : ipc_shm_channel := Eval vm_compute in nth 1 (p_channels inst_A) chan_zero.
Definition uchan_B : ipc_shm_channel := Eval vm_compute in nth 1 (p_channels inst_B) chan_zero.
Definition hw_A : ipc_hw_priv_type := Eval vm_compute in nth 0 (kp_hw plat_A) hw_priv_zero.
Definition hw_B : ipc_hw_priv_type := Eval vm_compute in nth 0 (kp_hw plat_B) hw_priv_zero.
