(* ===== verification/SampleLib.v ===== *)
(** * C library and environment of the samples

    What src/sample*/sample*.c use of the C and kernel libraries: strings in
    shared memory and in local arrays, number formatting, and the numbers they
    read back; the constants of their configurations.  A string is the list of its bytes, without the final NUL. *)

From Stdlib Require Import String Ascii.
From S2P Require Import Prelude Memory Types World.
#[local] Open Scope Z_scope.

Definition CTRL_CHAN_ID : Z := 0.
Definition CTRL_CHAN_SIZE : Z := 64.
Definition MAX_SAMPLE_MSG_LEN : Z := 32.
Definition ERESTARTSYS : Z := 512.
Definition EINTR : Z := 4.

(** ** Shared parts of the sample configurations

    Files src/sample*/ipcf_Ip_Cfg_<soc>.c and the constants of ipcf_Ip_Cfg.h. *)

(** [IPC_CORE_INDEX_0 | IPC_CORE_INDEX_1 | ...] *)
Definition core_mask (l : list Z) : Z := fold_right Z.lor 0 l.

(** Instances of the multi-instance samples. *)
Definition INSTANCE_ID0 : Z := 0.
Definition INSTANCE_ID1 : Z := 1.
Definition INSTANCE_ID2 : Z := 2.
Definition SAMPLE_NUM_INST : Z := 3.

(** ** Strings *)

Fixpoint chars (s : string) : list Z :=
  match s with
  | EmptyString => []
  | String c s => Z.of_nat (nat_of_ascii c) :: chars s
  end.

(** %d *)
Fixpoint digits (fuel : nat) (n : Z) : list Z :=
  match fuel with
  | O => []
  | S k => if n <? 10 then [48 + n] else digits k (n / 10) ++ [48 + n mod 10]
  end.

(** An [int] has ten digits at most. *)
Definition fmt_d (n : Z) : list Z :=
  if n <? 0 then 45 :: digits 10 (- n) else digits 10 n.

(** [sprintf] into a local array of [cap] bytes: the characters written, in
    front of the NUL; writing past the array is a fault. *)
Definition csprintf {S} (cap : Z) (text : list Z) : M S (list Z) :=
  if Z.of_nat (length text) <? cap then cret text else cfault.

(** [strcpy] and the kernel's [strscpy] of a local string to memory. *)
Definition strcpy (dst : Z) (src : list Z) : M memory unit := write_bytes dst (src ++ [0]).
Definition strscpy (dst : Z) (src : list Z) (size : Z) : M memory unit :=
  if size =? 0 then cret tt else write_bytes dst (take (Z.to_nat (size - 1)) src ++ [0]).

(** [snprintf] into a local array of [cap] bytes at [tmp]: at most [n] bytes, NUL
    included, are written; the result is the length of the whole text. *)
Definition csnprintf (tmp cap n : Z) (text : list Z) : M memory Z :=
  let out := take (Z.to_nat (n - 1)) text ++ [0] in
  if n <=? 0 then cret (Z.of_nat (length text)) else
  if cap <? Z.of_nat (length out) then cfault else
  write_bytes tmp out ;;; cret (Z.of_nat (length text)).

(** ** Scanning memory

    Loops over the characters of a string in memory end at a character of their
    own or fault at an address that is not mapped: one turn per mapped byte, and
    one more, are enough ([scan_fuel_enough]). *)

Definition scan_fuel (m : memory) : nat :=
  S (fold_right (fun r n => Z.to_nat r.2 + n)%nat O (mem_regions m)).

Definition is_digit (c : Z) : bool := (48 <=? c) && (c <=? 57).
Definition is_space (c : Z) : bool := ((9 <=? c) && (c <=? 13)) || (c =? 32).

(** Address of the first character from [a] on that [p] does not hold of. *)
Fixpoint skip_while (p : Z -> bool) (fuel : nat) (a : Z) : M memory Z :=
  match fuel with
  | O => cfault
  | S k =>
      let* c := read_uint 1 a in
      if p c then skip_while p k (a + 1) else cret a
  end.

Definition strlen (a : Z) : M memory Z := fun m =>
  (let* e := skip_while (fun c => negb (c =? 0)) (scan_fuel m) a in cret (e - a)) m.

(** ** strtol, base 10 *)

Definition LONG_MAX : Z := 2 ^ 63 - 1.

(** Digits accumulate without limit here; the result is clamped at the end. *)
Fixpoint read_digits (fuel : nat) (a acc : Z) : M memory Z :=
  match fuel with
  | O => cfault
  | S k =>
      let* c := read_uint 1 a in
      if is_digit c then read_digits k (a + 1) (acc * 10 + (c - 48)) else cret acc
  end.

Definition strtol (a : Z) : M memory Z := fun m =>
  (let* a := skip_while is_space (scan_fuel m) a in
   let* c := read_uint 1 a in
   let neg := c =? 45 in
   let* v := read_digits (scan_fuel m) (if neg || (c =? 43) then a + 1 else a) 0 in
   cret (if neg then Z.max (- v) (- LONG_MAX - 1) else Z.min v LONG_MAX)) m.

(** ** Lemmas *)

(** A run of mapped addresses is no longer than the memory. *)
Lemma scan_fuel_enough m a n :
  (forall k, 0 <= k < Z.of_nat n -> mapped m (a + k) 1 = true) -> (n < scan_fuel m)%nat.
Proof.
  intros H. unfold scan_fuel.
  set (cells := concat (map (fun r => seqZ r.1 r.2) (mem_regions m))).
  assert (Hl : length cells = fold_right (fun r n => Z.to_nat r.2 + n)%nat O (mem_regions m)).
  { unfold cells. induction (mem_regions m) as [|r rs IH]; [reflexivity |].
    cbn [map concat fold_right]. now rewrite length_app, length_seqZ, IH. }
  rewrite <- Hl. apply Nat.lt_succ_r.
  rewrite <- (Nat2Z.id n), <- (length_seqZ a (Z.of_nat n)). apply submseteq_length, NoDup_submseteq.
  { apply NoDup_seqZ. }
  intros x Hx. apply elem_of_seqZ in Hx. assert (Hm := H (x - a) ltac:(lia)).
  replace (a + (x - a)) with x in Hm by lia. unfold mapped in Hm.
  apply andb_true_iff in Hm as [_ Hm]. apply existsb_exists in Hm as (r & Hr & Hin).
  apply list_elem_of_In. unfold cells. apply in_concat. exists (seqZ r.1 r.2). split; [exact (in_map (fun r => seqZ r.1 r.2) _ _ Hr) |].
  unfold in_region in Hin. bool_to_prop. apply list_elem_of_In, elem_of_seqZ. lia.
Qed.

(** Value of a list of digits. *)
Definition digits_value (ds : list Z) : Z := fold_left (fun v c => v * 10 + (c - 48)) ds 0.

Lemma digits_small fuel n :
  0 <= n < 10 ^ Z.of_nat fuel -> (0 < fuel)%nat ->
  Forall (fun c => is_digit c = true) (digits fuel n) /\ digits_value (digits fuel n) = n /\
  (0 < length (digits fuel n))%nat.
Proof.
  revert n; induction fuel as [|k IH]; intros n Hn Hf; [lia |]. cbn [digits].
  destruct (Z.ltb_spec n 10) as [Hlt | Hge].
  - split_and!; [| cbn; lia | cbn; lia]. constructor; [| constructor]. unfold is_digit.
    apply andb_true_iff. rewrite !Z.leb_le. lia.
  - rewrite Nat2Z.inj_succ, Z.pow_succ_r in Hn by lia.
    assert (Hk : (0 < k)%nat) by (destruct k; [cbn in Hn; lia | lia]).
    assert (Hm := Z.mod_pos_bound n 10 ltac:(lia)). assert (E := Z.div_mod n 10 ltac:(lia)).
    destruct (IH (n / 10)) as (D & V & L); [split; [apply Z.div_pos; lia | apply Z.div_lt_upper_bound; lia] | exact Hk |].
    split_and!.
    + apply Forall_app. split; [exact D |]. constructor; [| constructor]. unfold is_digit.
      apply andb_true_iff. rewrite !Z.leb_le. lia.
    + unfold digits_value in *. rewrite fold_left_app, V. cbn. lia.
    + rewrite length_app. cbn. lia.
Qed.

(** How many there are. *)
Lemma digits_length fuel n d :
  0 <= n < 10 ^ Z.of_nat d -> (0 < d <= fuel)%nat -> (length (digits fuel n) <= d)%nat.
Proof.
  revert n d; induction fuel as [|k IH]; intros n d Hn Hd; [lia |]. cbn [digits].
  destruct (Z.ltb_spec n 10) as [Hlt | Hge]; [cbn; lia |].
  destruct d as [|[|d]]; [lia | cbn in Hn; lia |].
  rewrite length_app. cbn [length]. rewrite Nat.add_1_r. apply le_n_S, IH; [| lia].
  rewrite Nat2Z.inj_succ, Z.pow_succ_r in Hn by lia.
  split; [apply Z.div_pos; lia | apply Z.div_lt_upper_bound; lia].
Qed.

Lemma digits_length_ge fuel n d :
  10 ^ Z.of_nat d <= n -> (d < fuel)%nat -> (d < length (digits fuel n))%nat.
Proof.
  revert n d; induction fuel as [|k IH]; intros n d Hn Hd; [lia |]. cbn [digits].
  destruct d as [|d].
  { destruct (n <? 10); [cbn; lia |]. rewrite length_app. cbn. lia. }
  rewrite Nat2Z.inj_succ, Z.pow_succ_r in Hn by lia.
  assert (0 < 10 ^ Z.of_nat d) by (apply Z.pow_pos_nonneg; lia).
  destruct (Z.ltb_spec n 10); [lia |]. rewrite length_app. cbn [length]. rewrite Nat.add_1_r.
  apply le_n_S, IH; [apply Z.div_le_lower_bound; lia | lia].
Qed.
