(* ===== verification/CfgMultiUser.v ===== *)
(** * Configurations of the user-space sample with three instances (src/sample_multi_instance_user)

    One group of definitions per file ipcf_Ip_Cfg_<soc>.c, named after the C
    objects with the system on chip as prefix.  The callbacks and their argument
    are symbols the application provides. *)

From S2P Require Import Prelude Types SampleLib.

Section Cfg.
Context (ctrl_chan_rx_cb data_chan_rx_cb rx_cb_arg : Z).

(** ** src/sample_multi_instance_user/ipcf_Ip_Cfg_s32g2.c *)

Definition s32g2_ipcf_shm_cfg_buf_pools0_1 : list ipc_shm_pool_cfg := [
    PoolCfg 5 32;
    PoolCfg 5 256;
    PoolCfg 5 4096 ].
Definition s32g2_ipcf_shm_cfg_buf_pools0_2 : list ipc_shm_pool_cfg := [
    PoolCfg 5 32;
    PoolCfg 5 256;
    PoolCfg 5 4096 ].
Definition s32g2_ipcf_shm_cfg_channels0 : list ipc_shm_channel_cfg := [
    ChannelUnmanaged (UnmanagedCfg 64 ctrl_chan_rx_cb rx_cb_arg);
    ChannelManaged (ManagedCfg 3 (Some s32g2_ipcf_shm_cfg_buf_pools0_1) data_chan_rx_cb rx_cb_arg);
    ChannelManaged (ManagedCfg 3 (Some s32g2_ipcf_shm_cfg_buf_pools0_2) data_chan_rx_cb rx_cb_arg) ].
Definition s32g2_ipcf_shm_cfg_buf_pools1_1 : list ipc_shm_pool_cfg := [
    PoolCfg 5 32;
    PoolCfg 5 256;
    PoolCfg 5 4096 ].
Definition s32g2_ipcf_shm_cfg_buf_pools1_2 : list ipc_shm_pool_cfg := [
    PoolCfg 5 32;
    PoolCfg 5 256;
    PoolCfg 5 4096 ].
Definition s32g2_ipcf_shm_cfg_channels1 : list ipc_shm_channel_cfg := [
    ChannelUnmanaged (UnmanagedCfg 64 ctrl_chan_rx_cb rx_cb_arg);
    ChannelManaged (ManagedCfg 3 (Some s32g2_ipcf_shm_cfg_buf_pools1_1) data_chan_rx_cb rx_cb_arg);
    ChannelManaged (ManagedCfg 3 (Some s32g2_ipcf_shm_cfg_buf_pools1_2) data_chan_rx_cb rx_cb_arg) ].
Definition s32g2_ipcf_shm_cfg_buf_pools2_1 : list ipc_shm_pool_cfg := [
    PoolCfg 5 32;
    PoolCfg 5 256;
    PoolCfg 5 4096 ].
Definition s32g2_ipcf_shm_cfg_buf_pools2_2 : list ipc_shm_pool_cfg := [
    PoolCfg 5 32;
    PoolCfg 5 256;
    PoolCfg 5 4096 ].
Definition s32g2_ipcf_shm_cfg_channels2 : list ipc_shm_channel_cfg := [
    ChannelUnmanaged (UnmanagedCfg 64 ctrl_chan_rx_cb rx_cb_arg);
    ChannelManaged (ManagedCfg 3 (Some s32g2_ipcf_shm_cfg_buf_pools2_1) data_chan_rx_cb rx_cb_arg);
    ChannelManaged (ManagedCfg 3 (Some s32g2_ipcf_shm_cfg_buf_pools2_2) data_chan_rx_cb rx_cb_arg) ].
Definition s32g2_ipcf_shm_cfg_instances : list ipc_shm_cfg := [
    ShmCfg 0x34100000 0x34200000 0x10000 2 1
      (LocalCore IPC_CORE_DEFAULT IPC_CORE_INDEX_0
         (core_mask [IPC_CORE_INDEX_0; IPC_CORE_INDEX_1; IPC_CORE_INDEX_2; IPC_CORE_INDEX_3]))
      (RemoteCore IPC_CORE_M7 IPC_CORE_INDEX_0) 3 (Some s32g2_ipcf_shm_cfg_channels0);
    ShmCfg 0x34080000 0x340C0000 0x10000 IPC_IRQ_NONE 0
      (LocalCore IPC_CORE_DEFAULT IPC_CORE_INDEX_0
         (core_mask [IPC_CORE_INDEX_0; IPC_CORE_INDEX_1; IPC_CORE_INDEX_2; IPC_CORE_INDEX_3]))
      (RemoteCore IPC_CORE_M7 IPC_CORE_INDEX_1) 3 (Some s32g2_ipcf_shm_cfg_channels1);
    ShmCfg 0x34090000 0x340D0000 0x10000 IPC_IRQ_NONE IPC_IRQ_NONE
      (LocalCore IPC_CORE_DEFAULT IPC_CORE_INDEX_0
         (core_mask [IPC_CORE_INDEX_0; IPC_CORE_INDEX_1; IPC_CORE_INDEX_2; IPC_CORE_INDEX_3]))
      (RemoteCore IPC_CORE_M7 IPC_CORE_INDEX_2) 3 (Some s32g2_ipcf_shm_cfg_channels2) ].
Definition s32g2_ipcf_shm_instances_cfg : ipc_shm_instances_cfg := InstancesCfg 3 s32g2_ipcf_shm_cfg_instances.

(** ** src/sample_multi_instance_user/ipcf_Ip_Cfg_s32g3.c *)

Definition s32g3_ipcf_shm_cfg_buf_pools0_1 : list ipc_shm_pool_cfg := [
    PoolCfg 5 32;
    PoolCfg 5 256;
    PoolCfg 5 4096 ].
Definition s32g3_ipcf_shm_cfg_buf_pools0_2 : list ipc_shm_pool_cfg := [
    PoolCfg 5 32;
    PoolCfg 5 256;
    PoolCfg 5 4096 ].
Definition s32g3_ipcf_shm_cfg_channels0 : list ipc_shm_channel_cfg := [
    ChannelUnmanaged (UnmanagedCfg 64 ctrl_chan_rx_cb rx_cb_arg);
    ChannelManaged (ManagedCfg 3 (Some s32g3_ipcf_shm_cfg_buf_pools0_1) data_chan_rx_cb rx_cb_arg);
    ChannelManaged (ManagedCfg 3 (Some s32g3_ipcf_shm_cfg_buf_pools0_2) data_chan_rx_cb rx_cb_arg) ].
Definition s32g3_ipcf_shm_cfg_buf_pools1_1 : list ipc_shm_pool_cfg := [
    PoolCfg 5 32;
    PoolCfg 5 256;
    PoolCfg 5 4096 ].
Definition s32g3_ipcf_shm_cfg_buf_pools1_2 : list ipc_shm_pool_cfg := [
    PoolCfg 5 32;
    PoolCfg 5 256;
    PoolCfg 5 4096 ].
Definition s32g3_ipcf_shm_cfg_channels1 : list ipc_shm_channel_cfg := [
    ChannelUnmanaged (UnmanagedCfg 64 ctrl_chan_rx_cb rx_cb_arg);
    ChannelManaged (ManagedCfg 3 (Some s32g3_ipcf_shm_cfg_buf_pools1_1) data_chan_rx_cb rx_cb_arg);
    ChannelManaged (ManagedCfg 3 (Some s32g3_ipcf_shm_cfg_buf_pools1_2) data_chan_rx_cb rx_cb_arg) ].
Definition s32g3_ipcf_shm_cfg_buf_pools2_1 : list ipc_shm_pool_cfg := [
    PoolCfg 5 32;
    PoolCfg 5 256;
    PoolCfg 5 4096 ].
Definition s32g3_ipcf_shm_cfg_buf_pools2_2 : list ipc_shm_pool_cfg := [
    PoolCfg 5 32;
    PoolCfg 5 256;
    PoolCfg 5 4096 ].
Definition s32g3_ipcf_shm_cfg_channels2 : list ipc_shm_channel_cfg := [
    ChannelUnmanaged (UnmanagedCfg 64 ctrl_chan_rx_cb rx_cb_arg);
    ChannelManaged (ManagedCfg 3 (Some s32g3_ipcf_shm_cfg_buf_pools2_1) data_chan_rx_cb rx_cb_arg);
    ChannelManaged (ManagedCfg 3 (Some s32g3_ipcf_shm_cfg_buf_pools2_2) data_chan_rx_cb rx_cb_arg) ].
Definition s32g3_ipcf_shm_cfg_instances : list ipc_shm_cfg := [
    ShmCfg 0x34080000 0x340A0000 0x10000 2 1
      (LocalCore IPC_CORE_DEFAULT IPC_CORE_INDEX_0
         (core_mask [IPC_CORE_INDEX_0; IPC_CORE_INDEX_1; IPC_CORE_INDEX_2; IPC_CORE_INDEX_3;
            IPC_CORE_INDEX_4; IPC_CORE_INDEX_5; IPC_CORE_INDEX_6; IPC_CORE_INDEX_7]))
      (RemoteCore IPC_CORE_M7 IPC_CORE_INDEX_0) 3 (Some s32g3_ipcf_shm_cfg_channels0);
    ShmCfg 0x340C0000 0x340E0000 0x10000 IPC_IRQ_NONE 0
      (LocalCore IPC_CORE_DEFAULT IPC_CORE_INDEX_0
         (core_mask [IPC_CORE_INDEX_0; IPC_CORE_INDEX_1; IPC_CORE_INDEX_2; IPC_CORE_INDEX_3;
            IPC_CORE_INDEX_4; IPC_CORE_INDEX_5; IPC_CORE_INDEX_6; IPC_CORE_INDEX_7]))
      (RemoteCore IPC_CORE_M7 IPC_CORE_INDEX_1) 3 (Some s32g3_ipcf_shm_cfg_channels1);
    ShmCfg 0x34110000 0x34120000 0x10000 IPC_IRQ_NONE IPC_IRQ_NONE
      (LocalCore IPC_CORE_DEFAULT IPC_CORE_INDEX_0
         (core_mask [IPC_CORE_INDEX_0; IPC_CORE_INDEX_1; IPC_CORE_INDEX_2; IPC_CORE_INDEX_3;
            IPC_CORE_INDEX_4; IPC_CORE_INDEX_5; IPC_CORE_INDEX_6; IPC_CORE_INDEX_7]))
      (RemoteCore IPC_CORE_M7 IPC_CORE_INDEX_2) 3 (Some s32g3_ipcf_shm_cfg_channels2) ].
Definition s32g3_ipcf_shm_instances_cfg : ipc_shm_instances_cfg := InstancesCfg 3 s32g3_ipcf_shm_cfg_instances.

(** ** src/sample_multi_instance_user/ipcf_Ip_Cfg_s32r45.c *)

Definition s32r45_ipcf_shm_cfg_buf_pools0_1 : list ipc_shm_pool_cfg := [
    PoolCfg 5 32;
    PoolCfg 5 256;
    PoolCfg 5 4096 ].
Definition s32r45_ipcf_shm_cfg_buf_pools0_2 : list ipc_shm_pool_cfg := [
    PoolCfg 5 32;
    PoolCfg 5 256;
    PoolCfg 5 4096 ].
Definition s32r45_ipcf_shm_cfg_channels0 : list ipc_shm_channel_cfg := [
    ChannelUnmanaged (UnmanagedCfg 64 ctrl_chan_rx_cb rx_cb_arg);
    ChannelManaged (ManagedCfg 3 (Some s32r45_ipcf_shm_cfg_buf_pools0_1) data_chan_rx_cb rx_cb_arg);
    ChannelManaged (ManagedCfg 3 (Some s32r45_ipcf_shm_cfg_buf_pools0_2) data_chan_rx_cb rx_cb_arg) ].
Definition s32r45_ipcf_shm_cfg_buf_pools1_1 : list ipc_shm_pool_cfg := [
    PoolCfg 5 32;
    PoolCfg 5 256;
    PoolCfg 5 4096 ].
Definition s32r45_ipcf_shm_cfg_buf_pools1_2 : list ipc_shm_pool_cfg := [
    PoolCfg 5 32;
    PoolCfg 5 256;
    PoolCfg 5 4096 ].
Definition s32r45_ipcf_shm_cfg_channels1 : list ipc_shm_channel_cfg := [
    ChannelUnmanaged (UnmanagedCfg 64 ctrl_chan_rx_cb rx_cb_arg);
    ChannelManaged (ManagedCfg 3 (Some s32r45_ipcf_shm_cfg_buf_pools1_1) data_chan_rx_cb rx_cb_arg);
    ChannelManaged (ManagedCfg 3 (Some s32r45_ipcf_shm_cfg_buf_pools1_2) data_chan_rx_cb rx_cb_arg) ].
Definition s32r45_ipcf_shm_cfg_buf_pools2_1 : list ipc_shm_pool_cfg := [
    PoolCfg 5 32;
    PoolCfg 5 256;
    PoolCfg 5 4096 ].
Definition s32r45_ipcf_shm_cfg_buf_pools2_2 : list ipc_shm_pool_cfg := [
    PoolCfg 5 32;
    PoolCfg 5 256;
    PoolCfg 5 4096 ].
Definition s32r45_ipcf_shm_cfg_channels2 : list ipc_shm_channel_cfg := [
    ChannelUnmanaged (UnmanagedCfg 64 ctrl_chan_rx_cb rx_cb_arg);
    ChannelManaged (ManagedCfg 3 (Some s32r45_ipcf_shm_cfg_buf_pools2_1) data_chan_rx_cb rx_cb_arg);
    ChannelManaged (ManagedCfg 3 (Some s32r45_ipcf_shm_cfg_buf_pools2_2) data_chan_rx_cb rx_cb_arg) ].
Definition s32r45_ipcf_shm_cfg_instances : list ipc_shm_cfg := [
    ShmCfg 0x34100000 0x34200000 0x10000 2 1
      (LocalCore IPC_CORE_DEFAULT IPC_CORE_INDEX_0
         (core_mask [IPC_CORE_INDEX_0; IPC_CORE_INDEX_1; IPC_CORE_INDEX_2; IPC_CORE_INDEX_3]))
      (RemoteCore IPC_CORE_M7 IPC_CORE_INDEX_0) 3 (Some s32r45_ipcf_shm_cfg_channels0);
    ShmCfg 0x34080000 0x340C0000 0x10000 IPC_IRQ_NONE 0
      (LocalCore IPC_CORE_DEFAULT IPC_CORE_INDEX_0
         (core_mask [IPC_CORE_INDEX_0; IPC_CORE_INDEX_1; IPC_CORE_INDEX_2; IPC_CORE_INDEX_3]))
      (RemoteCore IPC_CORE_M7 IPC_CORE_INDEX_1) 3 (Some s32r45_ipcf_shm_cfg_channels1);
    ShmCfg 0x34090000 0x340D0000 0x10000 IPC_IRQ_NONE IPC_IRQ_NONE
      (LocalCore IPC_CORE_DEFAULT IPC_CORE_INDEX_0
         (core_mask [IPC_CORE_INDEX_0; IPC_CORE_INDEX_1; IPC_CORE_INDEX_2; IPC_CORE_INDEX_3]))
      (RemoteCore IPC_CORE_M7 IPC_CORE_INDEX_2) 3 (Some s32r45_ipcf_shm_cfg_channels2) ].
Definition s32r45_ipcf_shm_instances_cfg : ipc_shm_instances_cfg := InstancesCfg 3 s32r45_ipcf_shm_cfg_instances.

(** ** src/sample_multi_instance_user/ipcf_Ip_Cfg_s32r47.c *)

Definition s32r47_ipcf_shm_cfg_buf_pools0_1 : list ipc_shm_pool_cfg := [
    PoolCfg 5 32;
    PoolCfg 5 256;
    PoolCfg 5 4096 ].
Definition s32r47_ipcf_shm_cfg_buf_pools0_2 : list ipc_shm_pool_cfg := [
    PoolCfg 5 32;
    PoolCfg 5 256;
    PoolCfg 5 4096 ].
Definition s32r47_ipcf_shm_cfg_channels0 : list ipc_shm_channel_cfg := [
    ChannelUnmanaged (UnmanagedCfg 64 ctrl_chan_rx_cb rx_cb_arg);
    ChannelManaged (ManagedCfg 3 (Some s32r47_ipcf_shm_cfg_buf_pools0_1) data_chan_rx_cb rx_cb_arg);
    ChannelManaged (ManagedCfg 3 (Some s32r47_ipcf_shm_cfg_buf_pools0_2) data_chan_rx_cb rx_cb_arg) ].
Definition s32r47_ipcf_shm_cfg_buf_pools1_1 : list ipc_shm_pool_cfg := [
    PoolCfg 5 32;
    PoolCfg 5 256;
    PoolCfg 5 4096 ].
Definition s32r47_ipcf_shm_cfg_buf_pools1_2 : list ipc_shm_pool_cfg := [
    PoolCfg 5 32;
    PoolCfg 5 256;
    PoolCfg 5 4096 ].
Definition s32r47_ipcf_shm_cfg_channels1 : list ipc_shm_channel_cfg := [
    ChannelUnmanaged (UnmanagedCfg 64 ctrl_chan_rx_cb rx_cb_arg);
    ChannelManaged (ManagedCfg 3 (Some s32r47_ipcf_shm_cfg_buf_pools1_1) data_chan_rx_cb rx_cb_arg);
    ChannelManaged (ManagedCfg 3 (Some s32r47_ipcf_shm_cfg_buf_pools1_2) data_chan_rx_cb rx_cb_arg) ].
Definition s32r47_ipcf_shm_cfg_buf_pools2_1 : list ipc_shm_pool_cfg := [
    PoolCfg 5 32;
    PoolCfg 5 256;
    PoolCfg 5 4096 ].
Definition s32r47_ipcf_shm_cfg_buf_pools2_2 : list ipc_shm_pool_cfg := [
    PoolCfg 5 32;
    PoolCfg 5 256;
    PoolCfg 5 4096 ].
Definition s32r47_ipcf_shm_cfg_channels2 : list ipc_shm_channel_cfg := [
    ChannelUnmanaged (UnmanagedCfg 64 ctrl_chan_rx_cb rx_cb_arg);
    ChannelManaged (ManagedCfg 3 (Some s32r47_ipcf_shm_cfg_buf_pools2_1) data_chan_rx_cb rx_cb_arg);
    ChannelManaged (ManagedCfg 3 (Some s32r47_ipcf_shm_cfg_buf_pools2_2) data_chan_rx_cb rx_cb_arg) ].
Definition s32r47_ipcf_shm_cfg_instances : list ipc_shm_cfg := [
    ShmCfg 0x34000000 0x34080000 0x10000 0 1
      (LocalCore IPC_CORE_DEFAULT IPC_CORE_INDEX_0
         (core_mask [IPC_CORE_INDEX_0; IPC_CORE_INDEX_1; IPC_CORE_INDEX_2; IPC_CORE_INDEX_3]))
      (RemoteCore IPC_CORE_M7 IPC_CORE_INDEX_0) 3 (Some s32r47_ipcf_shm_cfg_channels0);
    ShmCfg 0x34010000 0x34090000 0x10000 IPC_IRQ_NONE 2
      (LocalCore IPC_CORE_DEFAULT IPC_CORE_INDEX_0
         (core_mask [IPC_CORE_INDEX_0; IPC_CORE_INDEX_1; IPC_CORE_INDEX_2; IPC_CORE_INDEX_3]))
      (RemoteCore IPC_CORE_M7 IPC_CORE_INDEX_1) 3 (Some s32r47_ipcf_shm_cfg_channels1);
    ShmCfg 0x34020000 0x340A0000 0x10000 IPC_IRQ_NONE IPC_IRQ_NONE
      (LocalCore IPC_CORE_DEFAULT IPC_CORE_INDEX_0
         (core_mask [IPC_CORE_INDEX_0; IPC_CORE_INDEX_1; IPC_CORE_INDEX_2; IPC_CORE_INDEX_3]))
      (RemoteCore IPC_CORE_M7 IPC_CORE_INDEX_2) 3 (Some s32r47_ipcf_shm_cfg_channels2) ].
Definition s32r47_ipcf_shm_instances_cfg : ipc_shm_instances_cfg := InstancesCfg 3 s32r47_ipcf_shm_cfg_instances.

End Cfg.
