(* ===== verification/CfgXen.v ===== *)
(** * Configurations of the Xen samples (src/sample_xen)

    One group of definitions per file ipcf_Ip_Cfg_<soc>.c, named after the C
    objects with the system on chip as prefix.  The callbacks and their argument
    are symbols the application provides. *)

From S2P Require Import Prelude Types SampleLib.

Section Cfg.
Context (ctrl_chan_rx_cb data_chan_rx_cb rx_cb_arg : Z).

(** ** src/sample_xen/dom0/ipcf_Ip_Cfg_s32g2.c *)

Definition dom0_s32g2_ipcf_shm_cfg_buf_pools0 : list ipc_shm_pool_cfg := [
    PoolCfg 5 32;
    PoolCfg 5 256;
    PoolCfg 5 4096 ].
Definition dom0_s32g2_ipcf_shm_cfg_buf_pools1 : list ipc_shm_pool_cfg := [
    PoolCfg 5 32;
    PoolCfg 5 256;
    PoolCfg 5 4096 ].
Definition dom0_s32g2_ipcf_shm_cfg_channels : list ipc_shm_channel_cfg := [
    ChannelUnmanaged (UnmanagedCfg 64 ctrl_chan_rx_cb rx_cb_arg);
    ChannelManaged (ManagedCfg 3 (Some dom0_s32g2_ipcf_shm_cfg_buf_pools0) data_chan_rx_cb rx_cb_arg);
    ChannelManaged (ManagedCfg 3 (Some dom0_s32g2_ipcf_shm_cfg_buf_pools1) data_chan_rx_cb rx_cb_arg) ].
Definition dom0_s32g2_ipcf_shm_cfg_instances : list ipc_shm_cfg := [
    ShmCfg 0x84500000 0x84510000 0x10000 IPC_IRQ_NONE IPC_IRQ_NONE
      (LocalCore IPC_CORE_DEFAULT 0
         0)
      (RemoteCore IPC_CORE_DEFAULT 0) 3 (Some dom0_s32g2_ipcf_shm_cfg_channels) ].
Definition dom0_s32g2_ipcf_shm_instances_cfg : ipc_shm_instances_cfg := InstancesCfg 1 dom0_s32g2_ipcf_shm_cfg_instances.

(** ** src/sample_xen/dom0/ipcf_Ip_Cfg_s32g3.c *)

Definition dom0_s32g3_ipcf_shm_cfg_buf_pools0 : list ipc_shm_pool_cfg := [
    PoolCfg 5 32;
    PoolCfg 5 256;
    PoolCfg 5 4096 ].
Definition dom0_s32g3_ipcf_shm_cfg_buf_pools1 : list ipc_shm_pool_cfg := [
    PoolCfg 5 32;
    PoolCfg 5 256;
    PoolCfg 5 4096 ].
Definition dom0_s32g3_ipcf_shm_cfg_channels : list ipc_shm_channel_cfg := [
    ChannelUnmanaged (UnmanagedCfg 64 ctrl_chan_rx_cb rx_cb_arg);
    ChannelManaged (ManagedCfg 3 (Some dom0_s32g3_ipcf_shm_cfg_buf_pools0) data_chan_rx_cb rx_cb_arg);
    ChannelManaged (ManagedCfg 3 (Some dom0_s32g3_ipcf_shm_cfg_buf_pools1) data_chan_rx_cb rx_cb_arg) ].
Definition dom0_s32g3_ipcf_shm_cfg_instances : list ipc_shm_cfg := [
    ShmCfg 0x84500000 0x84510000 0x10000 IPC_IRQ_NONE IPC_IRQ_NONE
      (LocalCore IPC_CORE_DEFAULT 0
         0)
      (RemoteCore IPC_CORE_DEFAULT 0) 3 (Some dom0_s32g3_ipcf_shm_cfg_channels) ].
Definition dom0_s32g3_ipcf_shm_instances_cfg : ipc_shm_instances_cfg := InstancesCfg 1 dom0_s32g3_ipcf_shm_cfg_instances.

(** ** src/sample_xen/dom0/ipcf_Ip_Cfg_s32r45.c *)

Definition dom0_s32r45_ipcf_shm_cfg_buf_pools0 : list ipc_shm_pool_cfg := [
    PoolCfg 5 32;
    PoolCfg 5 256;
    PoolCfg 5 4096 ].
Definition dom0_s32r45_ipcf_shm_cfg_buf_pools1 : list ipc_shm_pool_cfg := [
    PoolCfg 5 32;
    PoolCfg 5 256;
    PoolCfg 5 4096 ].
Definition dom0_s32r45_ipcf_shm_cfg_channels : list ipc_shm_channel_cfg := [
    ChannelUnmanaged (UnmanagedCfg 64 ctrl_chan_rx_cb rx_cb_arg);
    ChannelManaged (ManagedCfg 3 (Some dom0_s32r45_ipcf_shm_cfg_buf_pools0) data_chan_rx_cb rx_cb_arg);
    ChannelManaged (ManagedCfg 3 (Some dom0_s32r45_ipcf_shm_cfg_buf_pools1) data_chan_rx_cb rx_cb_arg) ].
Definition dom0_s32r45_ipcf_shm_cfg_instances : list ipc_shm_cfg := [
    ShmCfg 0x84500000 0x84510000 0x10000 IPC_IRQ_NONE IPC_IRQ_NONE
      (LocalCore IPC_CORE_DEFAULT 0
         0)
      (RemoteCore IPC_CORE_DEFAULT 0) 3 (Some dom0_s32r45_ipcf_shm_cfg_channels) ].
Definition dom0_s32r45_ipcf_shm_instances_cfg : ipc_shm_instances_cfg := InstancesCfg 1 dom0_s32r45_ipcf_shm_cfg_instances.

(** ** src/sample_xen/dom0less/ipcf_Ip_Cfg_s32g2.c *)

Definition dom0less_s32g2_ipcf_shm_cfg_buf_pools0 : list ipc_shm_pool_cfg := [
    PoolCfg 5 32;
    PoolCfg 5 256;
    PoolCfg 5 4096 ].
Definition dom0less_s32g2_ipcf_shm_cfg_buf_pools1 : list ipc_shm_pool_cfg := [
    PoolCfg 5 32;
    PoolCfg 5 256;
    PoolCfg 5 4096 ].
Definition dom0less_s32g2_ipcf_shm_cfg_channels : list ipc_shm_channel_cfg := [
    ChannelUnmanaged (UnmanagedCfg 64 ctrl_chan_rx_cb rx_cb_arg);
    ChannelManaged (ManagedCfg 3 (Some dom0less_s32g2_ipcf_shm_cfg_buf_pools0) data_chan_rx_cb rx_cb_arg);
    ChannelManaged (ManagedCfg 3 (Some dom0less_s32g2_ipcf_shm_cfg_buf_pools1) data_chan_rx_cb rx_cb_arg) ].
Definition dom0less_s32g2_ipcf_shm_cfg_instances : list ipc_shm_cfg := [
    ShmCfg 0x84510000 0x84500000 0x10000 IPC_IRQ_NONE IPC_IRQ_NONE
      (LocalCore IPC_CORE_DEFAULT 0
         0)
      (RemoteCore IPC_CORE_DEFAULT 0) 3 (Some dom0less_s32g2_ipcf_shm_cfg_channels) ].
Definition dom0less_s32g2_ipcf_shm_instances_cfg : ipc_shm_instances_cfg := InstancesCfg 1 dom0less_s32g2_ipcf_shm_cfg_instances.

(** ** src/sample_xen/dom0less/ipcf_Ip_Cfg_s32g3.c *)

Definition dom0less_s32g3_ipcf_shm_cfg_buf_pools0 : list ipc_shm_pool_cfg := [
    PoolCfg 5 32;
    PoolCfg 5 256;
    PoolCfg 5 4096 ].
Definition dom0less_s32g3_ipcf_shm_cfg_buf_pools1 : list ipc_shm_pool_cfg := [
    PoolCfg 5 32;
    PoolCfg 5 256;
    PoolCfg 5 4096 ].
Definition dom0less_s32g3_ipcf_shm_cfg_channels : list ipc_shm_channel_cfg := [
    ChannelUnmanaged (UnmanagedCfg 64 ctrl_chan_rx_cb rx_cb_arg);
    ChannelManaged (ManagedCfg 3 (Some dom0less_s32g3_ipcf_shm_cfg_buf_pools0) data_chan_rx_cb rx_cb_arg);
    ChannelManaged (ManagedCfg 3 (Some dom0less_s32g3_ipcf_shm_cfg_buf_pools1) data_chan_rx_cb rx_cb_arg) ].
Definition dom0less_s32g3_ipcf_shm_cfg_instances : list ipc_shm_cfg := [
    ShmCfg 0x84510000 0x84500000 0x10000 IPC_IRQ_NONE IPC_IRQ_NONE
      (LocalCore IPC_CORE_DEFAULT 0
         0)
      (RemoteCore IPC_CORE_DEFAULT 0) 3 (Some dom0less_s32g3_ipcf_shm_cfg_channels) ].
Definition dom0less_s32g3_ipcf_shm_instances_cfg : ipc_shm_instances_cfg := InstancesCfg 1 dom0less_s32g3_ipcf_shm_cfg_instances.

(** ** src/sample_xen/dom0less/ipcf_Ip_Cfg_s32r45.c *)

Definition dom0less_s32r45_ipcf_shm_cfg_buf_pools0 : list ipc_shm_pool_cfg := [
    PoolCfg 5 32;
    PoolCfg 5 256;
    PoolCfg 5 4096 ].
Definition dom0less_s32r45_ipcf_shm_cfg_buf_pools1 : list ipc_shm_pool_cfg := [
    PoolCfg 5 32;
    PoolCfg 5 256;
    PoolCfg 5 4096 ].
Definition dom0less_s32r45_ipcf_shm_cfg_channels : list ipc_shm_channel_cfg := [
    ChannelUnmanaged (UnmanagedCfg 64 ctrl_chan_rx_cb rx_cb_arg);
    ChannelManaged (ManagedCfg 3 (Some dom0less_s32r45_ipcf_shm_cfg_buf_pools0) data_chan_rx_cb rx_cb_arg);
    ChannelManaged (ManagedCfg 3 (Some dom0less_s32r45_ipcf_shm_cfg_buf_pools1) data_chan_rx_cb rx_cb_arg) ].
Definition dom0less_s32r45_ipcf_shm_cfg_instances : list ipc_shm_cfg := [
    ShmCfg 0x84510000 0x84500000 0x10000 IPC_IRQ_NONE IPC_IRQ_NONE
      (LocalCore IPC_CORE_DEFAULT 0
         0)
      (RemoteCore IPC_CORE_DEFAULT 0) 3 (Some dom0less_s32r45_ipcf_shm_cfg_channels) ].
Definition dom0less_s32r45_ipcf_shm_instances_cfg : ipc_shm_instances_cfg := InstancesCfg 1 dom0less_s32r45_ipcf_shm_cfg_instances.

End Cfg.
