(* ===== verification/CfgSpec.v ===== *)
(** * The sample configurations are well formed

    An executable check of a configuration, its soundness for the hypotheses of
    the start-up theorems, and its verdict on every configuration of the
    repository. *)

From S2P Require Import Prelude Memory Types Queue QueueSpec World Shm ShmSpec Traffic Delivery.
From S2P Require Import Ownership RxLoop Unmanaged Init Boot Startup Instance InstanceSpec Mscm Router HwSpec.
From S2P Require S32gen1 S32g3xx S32r47.
From S2P Require Import SampleLib.
From S2P Require CfgSample CfgSampleUser CfgMulti CfgMultiUser CfgXen.
#[local] Open Scope Z_scope.

(** ** The check *)

Definition pool_valid (pc : ipc_shm_pool_cfg) : bool :=
  (0 <? pc_num_bufs pc) && (pc_num_bufs pc <=? IPC_SHM_MAX_BUFS_PER_POOL) && (0 <? pc_buf_size pc).

Definition mcfg_valid (mc : ipc_shm_managed_cfg) : bool :=
  match mc_pools mc with
  | None => false
  | Some ps =>
      (mc_num_pools mc =? Z.of_nat (length ps)) && (0 <? length ps)%nat && (length ps <=? 4)%nat
      && forallb pool_valid ps && bool_decide (pools_cfg_ok ps) && (chan_span ps <? 2 ^ 32)
  end.

Definition ccfg_valid (c : ipc_shm_channel_cfg) : bool :=
  match c with
  | ChannelManaged mc => mcfg_valid mc
  | ChannelUnmanaged uc => (0 <=? uc_size uc) && (uc_size uc <=? IPC_SHM_MAX_UMNG_SIZE)
  | ChannelUnknown _ => false
  end.

(** The callback of a channel. *)
Definition ccfg_cb (c : ipc_shm_channel_cfg) : Z :=
  match c with
  | ChannelManaged mc => mc_rx_cb mc
  | ChannelUnmanaged uc => uc_rx_cb uc
  | ChannelUnknown _ => NULL
  end.

Definition cfg_chs (cfg : ipc_shm_cfg) : list ipc_shm_channel_cfg := default [] (cfg_channels cfg).

Definition disjoint_areas (a n b k : Z) : bool := (a + n <=? b) || (b + k <=? a).

(** One instance: acceptable to the driver, and its two halves apart. *)
Definition cfg_valid (cfg : ipc_shm_cfg) : bool :=
  let chs := cfg_chs cfg in
  negb (cfg_local_shm_addr cfg =? NULL) && negb (cfg_remote_shm_addr cfg =? NULL)
  && bool_decide (is_Some (cfg_channels cfg))
  && (cfg_num_channels cfg =? Z.of_nat (length chs))
  && (1 <=? Z.of_nat (length chs)) && (Z.of_nat (length chs) <=? IPC_SHM_MAX_CHANNELS)
  && forallb ccfg_valid chs
  && (SIZEOF_GLOBAL + chans_bytes chs <=? cfg_shm_size cfg)
  && disjoint_areas (cfg_local_shm_addr cfg) (cfg_shm_size cfg)
       (cfg_remote_shm_addr cfg) (cfg_shm_size cfg).

(** Memory of two instances does not overlap, nor do they share an interrupt. *)
Definition cfgs_apart (a b : ipc_shm_cfg) : bool :=
  forallb (fun x => forallb (fun y => disjoint_areas x (cfg_shm_size a) y (cfg_shm_size b))
                      [cfg_local_shm_addr b; cfg_remote_shm_addr b])
    [cfg_local_shm_addr a; cfg_remote_shm_addr a]
  && ((cfg_inter_core_rx_irq a =? IPC_IRQ_NONE)
      || negb (cfg_inter_core_rx_irq a =? cfg_inter_core_rx_irq b))
  && ((cfg_inter_core_tx_irq a =? IPC_IRQ_NONE)
      || negb (cfg_inter_core_tx_irq a =? cfg_inter_core_tx_irq b)).

Fixpoint all_apart (cs : list ipc_shm_cfg) : bool :=
  match cs with
  | [] => true
  | c :: cs => forallb (cfgs_apart c) cs && all_apart cs
  end.

Definition instances_valid (ic : ipc_shm_instances_cfg) : bool :=
  (0 <? ic_num_instances ic) && (ic_num_instances ic <=? IPC_SHM_MAX_INSTANCES)
  && (ic_num_instances ic =? Z.of_nat (length (ic_shm_cfg ic)))
  && forallb cfg_valid (ic_shm_cfg ic) && all_apart (ic_shm_cfg ic).

(** ** Soundness *)

Lemma mcfg_valid_ok mc : mcfg_valid mc = true -> mc_rx_cb mc <> NULL -> mcfg_ok mc (mcfg_pools mc).
Proof.
  unfold mcfg_valid, mcfg_pools. destruct (mc_pools mc) as [ps |] eqn:E; [| discriminate].
  intros H Hcb. rewrite !andb_true_iff in H. destruct H as [[[[[H1 H2] H3] H4] H5] H6].
  apply Nat.ltb_lt in H2. apply Nat.leb_le in H3. bool_to_prop. apply bool_decide_eq_true in H5.
  change (default [] (Some ps)) with ps. constructor; auto. apply Forall_forall. intros pc Hpc.
  rewrite forallb_forall in H4. apply H4 in Hpc.
  unfold pool_valid in Hpc. bool_to_prop. split; auto.
Qed.

Lemma ccfg_valid_ok c : ccfg_valid c = true -> ccfg_cb c <> NULL -> ccfg_ok c.
Proof.
  destruct c as [mc | uc | v]; cbn [ccfg_valid ccfg_cb ccfg_ok]; [apply mcfg_valid_ok | | easy].
  intros H Hcb. bool_to_prop. auto.
Qed.

Lemma cfg_valid_ok cfg :
  cfg_valid cfg = true -> Forall (fun c => ccfg_cb c <> NULL) (cfg_chs cfg) -> cfg_ok cfg (cfg_chs cfg).
Proof.
  intros H Hcb. unfold cfg_valid in H. rewrite !andb_true_iff in H.
  destruct H as [[[[[[[[H1 H2] H3] H4] H5] H6] H7] H8] _]. apply bool_decide_eq_true in H3 as [chs Hc].
  bool_to_prop. constructor; auto.
  - unfold cfg_chs. now rewrite Hc.
  - rewrite forallb_forall in H7. apply Forall_forall. intros c Hin.
    apply ccfg_valid_ok; [apply H7; exact Hin | exact (proj1 (Forall_forall _ _) Hcb c Hin)].
Qed.

(** ** The configurations of the repository *)

(** Platform files of src/hw the samples are built with. *)
Inductive soc_file : Type := SOC_S32GEN1 | SOC_S32G3XX | SOC_S32R47.

(** Verdict of _ipc_hw_init on a configuration, when the processor number reads
    as [cpxnum] and the register that locks the routing as [ircpcfg]. *)
Definition hw_verdict (s : soc_file) (cfg : ipc_shm_cfg) (cpxnum ircpcfg : Z) : Z :=
  match s with
  | SOC_S32GEN1 => router_verdict S32gen1.soc cfg cpxnum ircpcfg
  | SOC_S32G3XX => router_verdict S32g3xx.soc cfg cpxnum ircpcfg
  | SOC_S32R47 => r47_verdict cfg cpxnum ircpcfg
  end.

(** Files built for Linux alone, with their platform. *)
Definition linux_cfgs (ctrl data arg : Z) : list (soc_file * ipc_shm_instances_cfg) := [
  (SOC_S32GEN1, CfgSample.s32g2_ipcf_shm_instances_cfg ctrl data arg);
  (SOC_S32G3XX, CfgSample.s32g3_ipcf_shm_instances_cfg ctrl data arg);
  (SOC_S32GEN1, CfgSample.s32r45_ipcf_shm_instances_cfg ctrl data arg);
  (SOC_S32R47, CfgSample.s32r47_ipcf_shm_instances_cfg ctrl data arg);
  (SOC_S32GEN1, CfgSampleUser.s32g2_ipcf_shm_instances_cfg ctrl data arg);
  (SOC_S32G3XX, CfgSampleUser.s32g3_ipcf_shm_instances_cfg ctrl data arg);
  (SOC_S32GEN1, CfgSampleUser.s32r45_ipcf_shm_instances_cfg ctrl data arg);
  (SOC_S32R47, CfgSampleUser.s32r47_ipcf_shm_instances_cfg ctrl data arg);
  (SOC_S32GEN1, CfgMulti.s32g2_ipcf_shm_instances_cfg ctrl data arg);
  (SOC_S32G3XX, CfgMulti.s32g3_ipcf_shm_instances_cfg ctrl data arg);
  (SOC_S32GEN1, CfgMulti.s32r45_ipcf_shm_instances_cfg ctrl data arg);
  (SOC_S32R47, CfgMulti.s32r47_ipcf_shm_instances_cfg ctrl data arg);
  (SOC_S32GEN1, CfgMultiUser.s32g2_ipcf_shm_instances_cfg ctrl data arg);
  (SOC_S32G3XX, CfgMultiUser.s32g3_ipcf_shm_instances_cfg ctrl data arg);
  (SOC_S32GEN1, CfgMultiUser.s32r45_ipcf_shm_instances_cfg ctrl data arg);
  (SOC_S32R47, CfgMultiUser.s32r47_ipcf_shm_instances_cfg ctrl data arg) ].

(** Pairs of files of the two Xen domains, which are each other's remote. *)
Definition xen_cfgs (ctrl data arg : Z) : list (ipc_shm_instances_cfg * ipc_shm_instances_cfg) := [
  (CfgXen.dom0_s32g2_ipcf_shm_instances_cfg ctrl data arg,
   CfgXen.dom0less_s32g2_ipcf_shm_instances_cfg ctrl data arg);
  (CfgXen.dom0_s32g3_ipcf_shm_instances_cfg ctrl data arg,
   CfgXen.dom0less_s32g3_ipcf_shm_instances_cfg ctrl data arg);
  (CfgXen.dom0_s32r45_ipcf_shm_instances_cfg ctrl data arg,
   CfgXen.dom0less_s32r45_ipcf_shm_instances_cfg ctrl data arg) ].

(** Every instance is acceptable to the driver. *)
Definition instances_ok (ic : ipc_shm_instances_cfg) : Prop :=
  1 <= ic_num_instances ic <= IPC_SHM_MAX_INSTANCES /\
  ic_num_instances ic = Z.of_nat (length (ic_shm_cfg ic)) /\
  Forall (fun cfg => cfg_ok cfg (cfg_chs cfg)) (ic_shm_cfg ic) /\
  all_apart (ic_shm_cfg ic) = true.

Lemma instances_valid_ok ic :
  instances_valid ic = true ->
  Forall (fun cfg => Forall (fun c => ccfg_cb c <> NULL) (cfg_chs cfg)) (ic_shm_cfg ic) ->
  instances_ok ic.
Proof.
  unfold instances_valid. intros H Hcb. rewrite !andb_true_iff in H.
  destruct H as [[[[H1 H2] H3] H4] H5]. bool_to_prop. split_and!; auto; [lia |].
  rewrite forallb_forall in H4. apply Forall_forall. intros c Hin.
  apply cfg_valid_ok; [apply H4; exact Hin | exact (proj1 (Forall_forall _ _) Hcb c Hin)].
Qed.

(** The ends of a pair: same memory seen from the other side, same layout. *)
Definition mirrored (a b : ipc_shm_cfg) : Prop :=
  cfg_local_shm_addr a = cfg_remote_shm_addr b /\ cfg_remote_shm_addr a = cfg_local_shm_addr b /\
  cfg_shm_size a = cfg_shm_size b /\ Forall2 same_layout (cfg_chs a) (cfg_chs b).

(** Callbacks of the application, all given. *)
Ltac cfg_by_check :=
  apply instances_valid_ok; [vm_compute; reflexivity | repeat constructor; cbn; assumption].

(** C36: the configurations in the repository.  For applications that provide
    the two callbacks, every file ipcf_Ip_Cfg_<soc>.c describes instances whose
    parameters the driver accepts, whose channels fit the shared memory, and
    which share neither memory nor interrupts with each other; the platform file
    it is built with accepts each of them on every core of the local cluster
    while the routing registers are not locked; the files of the two Xen domains
    mirror each other, with the same channel layout. *)
Theorem sample_configurations_accepted ctrl data arg :
  ctrl <> NULL -> data <> NULL ->
  Forall (fun '(s, ic) => instances_ok ic /\
    forall cpxnum ircpcfg, 0 <= cpxnum < 4 -> Z.testbit ircpcfg 31 = false ->
      Forall (fun cfg => hw_verdict s cfg cpxnum ircpcfg = 0) (ic_shm_cfg ic))
    (linux_cfgs ctrl data arg) /\
  Forall (fun '(a, b) => instances_ok a /\ instances_ok b /\
    Forall2 mirrored (ic_shm_cfg a) (ic_shm_cfg b)) (xen_cfgs ctrl data arg).
Proof.
  intros Hc Hd. split; unfold linux_cfgs, xen_cfgs;
    repeat apply Forall_cons; try apply Forall_nil.
  1-16: split; [cfg_by_check |]; intros v w Hv Hw; repeat apply Forall_cons; try apply Forall_nil;
    assert (Hv' : v = 0 \/ v = 1 \/ v = 2 \/ v = 3) by lia;
    destruct Hv' as [-> | [-> | [-> | ->]]]; cbv [hw_verdict router_verdict r47_verdict]; rewrite Hw;
    vm_compute; reflexivity.
  all: split_and!; [cfg_by_check | cfg_by_check |];
    repeat constructor; cbn; repeat constructor; reflexivity.
Qed.
