(* ===== verification/SampleEnv.v ===== *)
(** * What the sample applications run on

    The services the applications under src/sample* use besides the driver are
    not code of the repository: they are the classes below.  The static data of
    an application is part of the platform state [P] and reached through
    [HasApp], because the receive callbacks run on the driver's state. *)

From S2P Require Import Prelude Memory Types World SampleLib.
#[local] Open Scope Z_scope.

(** The application's static data inside the platform state. *)
Class HasApp (A P : Type) : Type := {
  get_app : P -> A;
  set_app : A -> P -> P
}.

Class HasAppLaws (A P : Type) `{HasApp A P} : Type := {
  get_set_app a p : get_app (set_app a p) = a;
  set_set_app a b p : set_app a (set_app b p) = set_app a p;
  set_get_app p : set_app (get_app p) p = p
}.

Section App.
Context {A P : Type} `{HA : HasApp A P}.

Definition app : M (world P) A := cgets (fun w => get_app (w_plat w)).
Definition upd_app (f : A -> A) : M (world P) unit :=
  cmodify (fun w => World (w_mem w) (w_priv w) (set_app (f (get_app (w_plat w))) (w_plat w))).

End App.

(** Functions behind the pointers of a sysfs attribute, by instance. *)
Inductive sysfs_fn : Type :=
| FN_NULL
| IPC_SYSFS_SHOW (instance : Z)
| IPC_SYSFS_STORE (instance : Z).

(** struct kobj_attribute; the name of a zeroed one is a null pointer. *)
Record kobj_attribute : Type := KobjAttr {
  attr_name : option (list Z);
  attr_mode : Z;
  attr_show : sysfs_fn;
  attr_store : sysfs_fn
}.
Definition kobj_attribute_zero : kobj_attribute := KobjAttr None 0 FN_NULL FN_NULL.

(** Kernel services of the modules. *)
Class SampleKernel (P : Type) : Type := {
  complete : Z -> M (world P) unit;
  init_completion : Z -> M (world P) unit;
  kobject_create_and_add : list Z -> M (world P) Z;
  kobject_put : Z -> M (world P) unit;
  sysfs_create_file : Z -> kobj_attribute -> M (world P) Z;
  kstrtoint : list Z -> Z -> Z * Z;                     (* error and value *)
  request_mem_region : Z -> Z -> M (memory * P) bool;
  release_mem_region : Z -> Z -> M (memory * P) unit;
  ioremap : Z -> Z -> M (memory * P) Z;
  iounmap : Z -> M (memory * P) unit
}.

(** Waiting: other activities run, the receive callbacks among them.
    [meanwhile] is what the rest of the system does while a busy-wait loop turns
    once. *)
Class SampleWait (P : Type) : Type := {
  wait_for_completion_interruptible : Z -> M (world P) Z;
  meanwhile : M (world P) unit
}.

(** POSIX services of the user-space applications; [errno] is read after a call,
    [scanf_d] is the number [scanf] stores, if any.  [sem_wait] lets the receive
    thread run, [user_meanwhile] is [meanwhile]. *)
Class SamplePosix (P : Type) : Type := {
  sem_post : M (world P) unit;
  sem_init : M (world P) unit;
  sem_destroy : M (world P) unit;
  sigaction_int : M (world P) unit
}.

Class SamplePosixWait (P : Type) : Type := {
  sem_wait : M (world P) unit;
  errno : M (world P) Z;
  scanf_d : M (world P) (option Z);
  user_meanwhile : M (world P) unit
}.

(** strcmp(a, b) == 0 *)
Definition same_name {S} (a b : option (list Z)) : M S bool :=
  match a, b with
  | Some x, Some y => cret (bool_decide (x = y))
  | _, _ => cfault
  end.

(** [do { err = body } while (again err)]: followed for [fuel] turns. *)
Fixpoint do_while {St} (fuel : nat) (body : M St Z) (again : Z -> bool) (idle : M St unit) : M St Z :=
  match fuel with
  | O => cfault
  | S k =>
      let* err := body in
      if again err then idle ;;; do_while k body again idle else cret err
  end.

(** [while (cond) body]: followed for [fuel] turns. *)
Fixpoint while_do {St} (fuel : nat) (cond : M St bool) (body idle : M St unit) : M St unit :=
  let* go := cond in
  if go then
    match fuel with
    | O => cfault
    | S k => body ;;; idle ;;; while_do k cond body idle
    end
  else cret tt.

(** memset_io of [n] bytes *)
Definition memset_io (dst v n : Z) : M memory unit := write_bytes dst (replicate (Z.to_nat n) v).
