(* ===== verification/Sample.v ===== *)
(** * The kernel sample (src/sample/sample.c)

    One definition per function.  [ipcf_shm_instances_cfg] is the configuration
    the module is linked with ([CfgSample]), [rx_cb_arg] the address of the
    variable the configuration passes to the callbacks, [spin] the number of
    turns a busy-wait loop is followed for. *)

From Stdlib Require Import String.
From S2P Require Import Prelude Memory Types World Shm SampleLib SampleEnv.
#[local] Open Scope Z_scope.

Definition MODULE_NAME : list Z := chars "ipc-shm-sample".

Record ipc_sample_app : Type := SampleApp {
  num_channels : Z;
  num_msgs : Z;
  ctrl_shm : Z;
  last_rx_no_msg : Z;
  ipc_kobj : Z;
  ping_attr : kobj_attribute;
  instance : Z;            (* uint8_t *)
  local_virt_shm : Z;
  (* module parameters *)
  msg_sizes : list Z;
  msg_sizes_argc : Z
}.

Definition app_zero : ipc_sample_app :=
  SampleApp 0 0 NULL 0 NULL kobj_attribute_zero 0 0
    (MAX_SAMPLE_MSG_LEN :: replicate (Z.to_nat (IPC_SHM_MAX_POOLS - 1)) 0) 1.

Definition set_num_channels (v : Z) (a : ipc_sample_app) : ipc_sample_app :=
  SampleApp v (num_msgs a) (ctrl_shm a) (last_rx_no_msg a) (ipc_kobj a) (ping_attr a) (instance a)
    (local_virt_shm a) (msg_sizes a) (msg_sizes_argc a).
Definition set_num_msgs (v : Z) (a : ipc_sample_app) : ipc_sample_app :=
  SampleApp (num_channels a) v (ctrl_shm a) (last_rx_no_msg a) (ipc_kobj a) (ping_attr a) (instance a)
    (local_virt_shm a) (msg_sizes a) (msg_sizes_argc a).
Definition set_ctrl_shm (v : Z) (a : ipc_sample_app) : ipc_sample_app :=
  SampleApp (num_channels a) (num_msgs a) v (last_rx_no_msg a) (ipc_kobj a) (ping_attr a) (instance a)
    (local_virt_shm a) (msg_sizes a) (msg_sizes_argc a).
Definition set_last_rx_no_msg (v : Z) (a : ipc_sample_app) : ipc_sample_app :=
  SampleApp (num_channels a) (num_msgs a) (ctrl_shm a) v (ipc_kobj a) (ping_attr a) (instance a)
    (local_virt_shm a) (msg_sizes a) (msg_sizes_argc a).
Definition set_ipc_kobj (v : Z) (a : ipc_sample_app) : ipc_sample_app :=
  SampleApp (num_channels a) (num_msgs a) (ctrl_shm a) (last_rx_no_msg a) v (ping_attr a) (instance a)
    (local_virt_shm a) (msg_sizes a) (msg_sizes_argc a).
Definition set_ping_attr (v : kobj_attribute) (a : ipc_sample_app) : ipc_sample_app :=
  SampleApp (num_channels a) (num_msgs a) (ctrl_shm a) (last_rx_no_msg a) (ipc_kobj a) v (instance a)
    (local_virt_shm a) (msg_sizes a) (msg_sizes_argc a).
Definition set_local_virt_shm (v : Z) (a : ipc_sample_app) : ipc_sample_app :=
  SampleApp (num_channels a) (num_msgs a) (ctrl_shm a) (last_rx_no_msg a) (ipc_kobj a) (ping_attr a)
    (instance a) v (msg_sizes a) (msg_sizes_argc a).

Section Sample.
Context {P : Type} `{PL : Platform P} `{HA : HasApp ipc_sample_app P} `{SK : SampleKernel P}.
Context (ipcf_shm_instances_cfg : ipc_shm_instances_cfg) (rx_cb_arg : Z) (spin : nat).

(** Completion variable used to sync send_msg func with shm_rx_cb *)
Definition reply_received : Z := 0.

(** ** Receive callbacks *)

(** alternative implementation of kstrtol *)
Fixpoint ipc_strtol_loop (fuel : nat) (src res : Z) : M memory Z :=
  match fuel with
  | O => cfault
  | S k =>
      let* c := read_uint 1 src in
      if (48 <=? c) && (c <=? 57)
      then ipc_strtol_loop k (src + 1) (u32 (u32 (res * 10) + (c - 48)))
      else cret res
  end.
Definition ipc_strtol (src : Z) : M memory Z := fun m => ipc_strtol_loop (scan_fuel m) src 0 m.

(** [*((uintptr_t * )arg)], which is [&app] when [arg] is [&rx_cb_arg]; what lies
    at another address is not known. *)
Definition deref_cb_arg (arg : Z) : M (world P) unit :=
  if arg =? rx_cb_arg then cret tt else cfault.

(** data channel Rx callback *)
Definition data_chan_rx_cb (arg instance chan_id buf size : Z) : M (world P) unit :=
  deref_cb_arg arg ;;;
  (* consume received data: get number of message *)
  let* n := on_mem (ipc_strtol (buf + 1)) in
  upd_app (set_last_rx_no_msg (i32 n)) ;;;
  (* release the buffer *)
  let* err := ipc_shm_release_buf instance chan_id buf in
  (* notify send_msg function a reply was received *)
  complete reply_received.

(** control channel Rx callback *)
Definition ctrl_chan_rx_cb (arg instance chan_id mem : Z) : M (world P) unit :=
  deref_cb_arg arg ;;;
  let* len := on_mem (strlen mem) in
  cret tt.

Context `{AP : App P} `{SW : SampleWait P}.

(** ** Initialisation *)

Definition init_ipc_shm : M (world P) Z :=
  let* err := do_while spin (ipc_shm_init (Some ipcf_shm_instances_cfg))
                (fun err => err =? - EAGAIN) meanwhile in
  if negb (err =? 0) then cret err else
  let* c := copt (nthZ (ic_shm_cfg ipcf_shm_instances_cfg) 0) in
  upd_app (set_num_channels (cfg_num_channels c)) ;;;
  (* acquire control channel memory once *)
  let* a := app in
  let* shm := ipc_shm_unmanaged_acquire (instance a) CTRL_CHAN_ID in
  upd_app (set_ctrl_shm shm) ;;;
  if shm =? NULL then cret (- ENOMEM) else cret 0.

(** ** Sending *)

Definition send_ctrl_msg (instance : Z) : M (world P) Z :=
  let chan_id := CTRL_CHAN_ID in
  let* a := app in
  let* tmp := csprintf CTRL_CHAN_SIZE (chars "SENDING MESSAGES: " ++ fmt_d (num_msgs a)) in
  on_mem (strcpy (ctrl_shm a) tmp) ;;;
  (* notify remote *)
  let* err := ipc_shm_unmanaged_tx instance chan_id in
  if negb (err =? 0) then cret err else cret 0.

Definition generate_msg (s len msg_no : Z) : M (world P) unit :=
  let* tmp := csprintf MAX_SAMPLE_MSG_LEN
                (chars "#" ++ fmt_d msg_no ++ chars " HELLO WORLD! from KERNEL") in
  on_mem (strcpy s tmp).

Definition send_data_msg (instance msg_len msg_no chan_id : Z) : M (world P) Z :=
  let* buf := ipc_shm_acquire_buf instance (u8 chan_id) (u32 msg_len) in
  if buf =? NULL then cret (- ENOMEM) else
  (* write data to acquired buffer *)
  generate_msg buf msg_len msg_no ;;;
  (* send data to remote peer *)
  let* err := ipc_shm_tx instance chan_id buf (u32 msg_len) in
  if negb (err =? 0) then cret err else
  (* wait for echo reply from remote (signaled from Rx callback) *)
  let* err := wait_for_completion_interruptible reply_received in
  if err =? - ERESTARTSYS then cret err else
  (* check if received message not match with sent message *)
  let* a := app in
  if negb (last_rx_no_msg a =? msg_no) then cret (- EINVAL) else cret 0.

(** The loops of [run_demo]: [inl] is the number of the next message, [inr] the
    value the function returns.  *)
Fixpoint run_demo_sizes (n : nat) (i ch msg num_msgs : Z) : M (world P) (Z + Z) :=
  match n with
  | O => cret (inl msg)
  | S k =>
      let* a := app in
      let* size := copt (nthZ (msg_sizes a) i) in
      let* err := send_data_msg (instance a) size msg ch in
      if negb (err =? 0) then cret (inr err) else
      if msg + 1 =? num_msgs then cret (inr 0) else
      run_demo_sizes k (i + 1) ch (msg + 1) num_msgs
  end.

Fixpoint run_demo_channels (fuel : nat) (ch msg num_msgs : Z) : M (world P) (Z + Z) :=
  let* a := app in
  if negb (ch <? num_channels a) then cret (inl msg) else
  match fuel with
  | O => cfault
  | S k =>
      let* r := run_demo_sizes (Z.to_nat (msg_sizes_argc a)) 0 ch msg num_msgs in
      match r with
      | inl msg => run_demo_channels k (ch + 1) msg num_msgs
      | inr v => cret (inr v)
      end
  end.

(** [num_channels] comes from a uint8_t: 256 turns are enough. *)
Fixpoint run_demo_loop (fuel : nat) (msg num_msgs : Z) : M (world P) Z :=
  if negb (msg <? num_msgs) then cret 0 else
  match fuel with
  | O => cfault
  | S k =>
      let* r := run_demo_channels 256 (CTRL_CHAN_ID + 1) msg num_msgs in
      match r with
      | inl msg => run_demo_loop k msg num_msgs
      | inr v => cret v
      end
  end.

(** Every turn of the outer loop sends a message when there is a data channel;
    otherwise it turns forever, which [Fault] stands for too. *)
Definition run_demo (num_msgs : Z) : M (world P) Z :=
  let* a := app in
  let* err := send_ctrl_msg (instance a) in
  if negb (err =? 0) then cret err else
  run_demo_loop (Z.to_nat num_msgs) 0 num_msgs.

(** ** sysfs interface *)

(** callback called when reading sysfs command file: result and the text
    written to the page *)
Definition ipc_sysfs_show (attr : kobj_attribute) : M (world P) (Z * list Z) :=
  let* a := app in
  let* same := same_name (attr_name attr) (attr_name (ping_attr a)) in
  let value := if same then num_msgs a else 0 in
  let text := fmt_d value ++ [10] in
  cret (Z.of_nat (length text), text).

(** callback called when writing in sysfs command file *)
Definition ipc_sysfs_store (attr : kobj_attribute) (buf : list Z) (count : Z) : M (world P) Z :=
  let '(err, value) := kstrtoint buf 0 in
  if negb (err =? 0) then cret err else
  let* a := app in
  let* same := same_name (attr_name attr) (attr_name (ping_attr a)) in
  (if same then
     upd_app (set_num_msgs value) ;;;
     let* _ := run_demo value in cret tt
   else cret tt) ;;;
  cret count.

Definition ping : kobj_attribute :=
  KobjAttr (Some (chars "ping")) 384 (IPC_SYSFS_SHOW 0) (IPC_SYSFS_STORE 0).

Definition init_sysfs : M (world P) Z :=
  upd_app (set_ping_attr ping) ;;;
  (* create ipc-sample folder in sys/kernel *)
  let* kobj := kobject_create_and_add MODULE_NAME in
  upd_app (set_ipc_kobj kobj) ;;;
  if kobj =? NULL then cret (- ENOMEM) else
  (* create sysfs file for ipc sample ping command *)
  let* a := app in
  let* err := sysfs_create_file (ipc_kobj a) (ping_attr a) in
  if negb (err =? 0) then
    let* a := app in
    kobject_put (ipc_kobj a) ;;; cret err
  else cret 0.

Definition free_sysfs : M (world P) unit :=
  let* a := app in kobject_put (ipc_kobj a).

(** ** Module *)

Definition sample_mod_init : M (world P) Z :=
  let* err := init_ipc_shm in
  if negb (err =? 0) then cret err else
  let* err := init_sysfs in
  if negb (err =? 0) then cret err else cret 0.

Definition sample_mod_exit : M (world P) unit :=
  free_sysfs ;;;
  ipc_shm_free ;;;
  let* c := copt (nthZ (ic_shm_cfg ipcf_shm_instances_cfg) 0) in
  let local_addr := u32 (cfg_local_shm_addr c) in
  let shm_size := cfg_shm_size c in
  let* res := on_plat (request_mem_region local_addr shm_size) in
  if negb res then cret tt else
  let* v := on_plat (ioremap local_addr shm_size) in
  upd_app (set_local_virt_shm v) ;;;
  let* a := app in
  on_mem (memset_io (local_virt_shm a) 0 shm_size) ;;;
  let* a := app in
  on_plat (iounmap (local_virt_shm a)) ;;;
  on_plat (release_mem_region local_addr shm_size).

End Sample.
