(* ===== verification/MultiSample.v ===== *)
(** * The kernel sample with three instances
    (src/sample_multi_instance/sample_multi_instance.c)

    One definition per function; the static array [app] has a record per
    instance.  Parameters as in [Sample]. *)

From Stdlib Require Import String.
From S2P Require Import Prelude Memory Types World Shm SampleLib SampleEnv.
From S2P Require Sample.
#[local] Open Scope Z_scope.

Record ipc_sample_app : Type := SampleApp {
  num_tx_msg : Z;
  num_rx_msg : Z;
  expected_msgs : Z;
  num_channels : Z;
  num_msgs : Z;
  ctrl_shm : Z;
  last_rx_no_msg : Z;
  reply_received : Z;      (* the completion of the instance *)
  ipc_kobj_ins : Z;
  ping_attr_ins : kobj_attribute;
  local_virt_shm : Z
}.

(** Static data of the module. *)
Record module_data : Type := ModuleData {
  apps : list ipc_sample_app;
  msg_sizes : list Z;
  msg_sizes_argc : Z
}.

Definition app_zero (n : Z) : ipc_sample_app :=
  SampleApp 0 0 0 0 0 NULL 0 n NULL kobj_attribute_zero 0.
Definition data_zero : module_data :=
  ModuleData [app_zero 0; app_zero 1; app_zero 2]
    (MAX_SAMPLE_MSG_LEN :: replicate (Z.to_nat (IPC_SHM_MAX_POOLS - 1)) 0) 1.

Definition set_num_tx_msg (v : Z) (a : ipc_sample_app) : ipc_sample_app :=
  SampleApp v (num_rx_msg a) (expected_msgs a) (num_channels a) (num_msgs a) (ctrl_shm a)
    (last_rx_no_msg a) (reply_received a) (ipc_kobj_ins a) (ping_attr_ins a) (local_virt_shm a).
Definition set_num_rx_msg (v : Z) (a : ipc_sample_app) : ipc_sample_app :=
  SampleApp (num_tx_msg a) v (expected_msgs a) (num_channels a) (num_msgs a) (ctrl_shm a)
    (last_rx_no_msg a) (reply_received a) (ipc_kobj_ins a) (ping_attr_ins a) (local_virt_shm a).
Definition set_expected_msgs (v : Z) (a : ipc_sample_app) : ipc_sample_app :=
  SampleApp (num_tx_msg a) (num_rx_msg a) v (num_channels a) (num_msgs a) (ctrl_shm a)
    (last_rx_no_msg a) (reply_received a) (ipc_kobj_ins a) (ping_attr_ins a) (local_virt_shm a).
Definition set_num_channels (v : Z) (a : ipc_sample_app) : ipc_sample_app :=
  SampleApp (num_tx_msg a) (num_rx_msg a) (expected_msgs a) v (num_msgs a) (ctrl_shm a)
    (last_rx_no_msg a) (reply_received a) (ipc_kobj_ins a) (ping_attr_ins a) (local_virt_shm a).
Definition set_num_msgs (v : Z) (a : ipc_sample_app) : ipc_sample_app :=
  SampleApp (num_tx_msg a) (num_rx_msg a) (expected_msgs a) (num_channels a) v (ctrl_shm a)
    (last_rx_no_msg a) (reply_received a) (ipc_kobj_ins a) (ping_attr_ins a) (local_virt_shm a).
Definition set_ctrl_shm (v : Z) (a : ipc_sample_app) : ipc_sample_app :=
  SampleApp (num_tx_msg a) (num_rx_msg a) (expected_msgs a) (num_channels a) (num_msgs a) v
    (last_rx_no_msg a) (reply_received a) (ipc_kobj_ins a) (ping_attr_ins a) (local_virt_shm a).
Definition set_last_rx_no_msg (v : Z) (a : ipc_sample_app) : ipc_sample_app :=
  SampleApp (num_tx_msg a) (num_rx_msg a) (expected_msgs a) (num_channels a) (num_msgs a) (ctrl_shm a)
    v (reply_received a) (ipc_kobj_ins a) (ping_attr_ins a) (local_virt_shm a).
Definition set_ipc_kobj_ins (v : Z) (a : ipc_sample_app) : ipc_sample_app :=
  SampleApp (num_tx_msg a) (num_rx_msg a) (expected_msgs a) (num_channels a) (num_msgs a) (ctrl_shm a)
    (last_rx_no_msg a) (reply_received a) v (ping_attr_ins a) (local_virt_shm a).
Definition set_ping_attr_ins (v : kobj_attribute) (a : ipc_sample_app) : ipc_sample_app :=
  SampleApp (num_tx_msg a) (num_rx_msg a) (expected_msgs a) (num_channels a) (num_msgs a) (ctrl_shm a)
    (last_rx_no_msg a) (reply_received a) (ipc_kobj_ins a) v (local_virt_shm a).
Definition set_local_virt_shm (v : Z) (a : ipc_sample_app) : ipc_sample_app :=
  SampleApp (num_tx_msg a) (num_rx_msg a) (expected_msgs a) (num_channels a) (num_msgs a) (ctrl_shm a)
    (last_rx_no_msg a) (reply_received a) (ipc_kobj_ins a) (ping_attr_ins a) v.

Section Multi.
Context {P : Type} `{PL : Platform P} `{HA : HasApp module_data P} `{SK : SampleKernel P}.
Context (ipcf_shm_instances_cfg : ipc_shm_instances_cfg) (rx_cb_arg : Z) (spin : nat).

(** app[i], and assignments to its members *)
Definition app_at (i : Z) : M (world P) ipc_sample_app :=
  let* d := app in copt (nthZ (apps d) i).
Definition upd_at (i : Z) (f : ipc_sample_app -> ipc_sample_app) : M (world P) unit :=
  let* a := app_at i in
  upd_app (fun d => ModuleData (setZ (apps d) i (f a)) (msg_sizes d) (msg_sizes_argc d)).

(** ** Receive callbacks *)

Definition ipc_strtol : Z -> M memory Z := Sample.ipc_strtol.

(** [&((struct ipc_sample_app * )( *(uintptr_t * )arg))[instance]] *)
Definition deref_cb_arg (arg instance : Z) : M (world P) ipc_sample_app :=
  if arg =? rx_cb_arg then app_at instance else cfault.

Definition data_chan_rx_cb (arg instance chan_id buf size : Z) : M (world P) unit :=
  let* _ := deref_cb_arg arg instance in
  let* n := on_mem (ipc_strtol (buf + 1)) in
  upd_at instance (set_last_rx_no_msg (i32 n)) ;;;
  let* a := app_at instance in
  upd_at instance (set_num_rx_msg (i32 (num_rx_msg a + 1))) ;;;
  (* release the buffer *)
  let* err := ipc_shm_release_buf instance chan_id buf in
  (* notify send_msg function a reply was received *)
  let* a := app_at instance in
  complete (reply_received a).

Definition ctrl_chan_rx_cb (arg instance chan_id mem : Z) : M (world P) unit :=
  let* _ := deref_cb_arg arg instance in
  let* len := on_mem (strlen mem) in
  let* n := on_mem (ipc_strtol (mem + Z.of_nat (length (chars "REPLIED MESSAGES: ")))) in
  upd_at instance (set_expected_msgs (i32 n)).

Context `{AP : App P} `{SW : SampleWait P}.

(** ** Initialisation *)

Definition init_ipc_shm : M (world P) Z :=
  let* err := do_while spin (ipc_shm_init (Some ipcf_shm_instances_cfg))
                (fun err => err =? - EAGAIN) meanwhile in
  if negb (err =? 0) then cret err else
  (* acquire control channel memory once *)
  let* r := cfor (Z.to_nat SAMPLE_NUM_INST) 0 (fun i =>
    let* c := copt (nthZ (ic_shm_cfg ipcf_shm_instances_cfg) i) in
    upd_at i (set_num_channels (cfg_num_channels c)) ;;;
    let* shm := ipc_shm_unmanaged_acquire i CTRL_CHAN_ID in
    upd_at i (set_ctrl_shm shm) ;;;
    if shm =? NULL then cret (inr (- ENOMEM)) else cret (inl tt)) in
  match r with
  | inl _ => cret 0
  | inr err => cret err
  end.

(** ** Sending *)

Definition send_ctrl_msg (instance : Z) : M (world P) Z :=
  let chan_id := CTRL_CHAN_ID in
  let* a := app_at instance in
  let* tmp := csprintf CTRL_CHAN_SIZE (chars "SENDING MESSAGES: " ++ fmt_d (num_msgs a)) in
  on_mem (strscpy (ctrl_shm a) tmp CTRL_CHAN_SIZE) ;;;
  (* notify remote *)
  let* err := ipc_shm_unmanaged_tx instance chan_id in
  if negb (err =? 0) then cret err else cret 0.

Definition generate_msg (s len msg_no : Z) : M (world P) unit :=
  let* tmp := csprintf MAX_SAMPLE_MSG_LEN
                (chars "#" ++ fmt_d msg_no ++ chars " HELLO WORLD! from KERNEL") in
  on_mem (strscpy s tmp MAX_SAMPLE_MSG_LEN).

Definition send_data_msg (instance msg_len msg_no chan_id : Z) : M (world P) Z :=
  let* buf := ipc_shm_acquire_buf instance (u8 chan_id) (u32 msg_len) in
  if buf =? NULL then cret (- ENOMEM) else
  (* write data to acquired buffer *)
  generate_msg buf msg_len msg_no ;;;
  (* send data to remote peer *)
  let* err := ipc_shm_tx instance chan_id buf (u32 msg_len) in
  if negb (err =? 0) then cret err else
  (* wait for echo reply from remote (signaled from Rx callback) *)
  let* a := app_at instance in
  let* err := wait_for_completion_interruptible (reply_received a) in
  if err =? - ERESTARTSYS then cret err else
  (* check if received message not match with sent message *)
  let* a := app_at instance in
  if negb (last_rx_no_msg a =? msg_no) then cret (- EINVAL) else cret 0.

(** if there is no free buffer left wait *)
Definition acquire_poll (instance chan_id msg_len : Z) : M (world P) Z :=
  do_while spin (ipc_shm_acquire_buf instance (u8 chan_id) (u32 msg_len))
    (fun buf => buf =? NULL) meanwhile.

Definition send_data_poll (instance msg_len msg_no chan_id : Z) : M (world P) Z :=
  let* buf := acquire_poll instance chan_id msg_len in
  (* write data to acquired buffer *)
  generate_msg buf msg_len msg_no ;;;
  (* send data to remote peer *)
  let* err := ipc_shm_tx instance chan_id buf (u32 msg_len) in
  if negb (err =? 0) then cret err else cret 0.

(** The loops of [run_demo_ins0] and [run_demo_ins1], as in [Sample]. *)
Fixpoint run_demo_sizes (n : nat) (id i ch msg num_msgs : Z) : M (world P) (Z + Z) :=
  match n with
  | O => cret (inl msg)
  | S k =>
      let* d := app in
      let* size := copt (nthZ (msg_sizes d) i) in
      let* err := send_data_msg id size msg ch in
      if negb (err =? 0) then cret (inr err) else
      if msg + 1 =? num_msgs then cret (inr 0) else
      run_demo_sizes k id (i + 1) ch (msg + 1) num_msgs
  end.

Fixpoint run_demo_channels (fuel : nat) (id ch msg num_msgs : Z) : M (world P) (Z + Z) :=
  let* a := app_at id in
  if negb (ch <? num_channels a) then cret (inl msg) else
  match fuel with
  | O => cfault
  | S k =>
      let* d := app in
      let* r := run_demo_sizes (Z.to_nat (msg_sizes_argc d)) id 0 ch msg num_msgs in
      match r with
      | inl msg => run_demo_channels k id (ch + 1) msg num_msgs
      | inr v => cret (inr v)
      end
  end.

Fixpoint run_demo_loop (fuel : nat) (id msg num_msgs : Z) : M (world P) Z :=
  if negb (msg <? num_msgs) then cret 0 else
  match fuel with
  | O => cfault
  | S k =>
      let* r := run_demo_channels 256 id (CTRL_CHAN_ID + 1) msg num_msgs in
      match r with
      | inl msg => run_demo_loop k id msg num_msgs
      | inr v => cret v
      end
  end.

Definition run_demo_ins0 (num_msgs : Z) : M (world P) Z :=
  let* err := send_ctrl_msg INSTANCE_ID0 in
  if negb (err =? 0) then cret err else
  run_demo_loop (Z.to_nat num_msgs) INSTANCE_ID0 0 num_msgs.

Definition run_demo_ins1 (num_msgs : Z) : M (world P) Z :=
  let* err := send_ctrl_msg INSTANCE_ID1 in
  if negb (err =? 0) then cret err else
  run_demo_loop (Z.to_nat num_msgs) INSTANCE_ID1 0 num_msgs.

(** The loops of [run_demo_poll]; after the last message, poll until all
    replies and the control reply are in. *)
Definition poll_replies : M (world P) unit :=
  while_do spin
    (let* a := app_at INSTANCE_ID2 in
     cret (negb (num_tx_msg a =? num_rx_msg a) || (expected_msgs a =? 0)))
    (let* _ := ipc_shm_poll_channels INSTANCE_ID2 in cret tt) meanwhile.

Fixpoint run_demo_poll_channels (fuel : nat) (ch msg num_msgs : Z) : M (world P) (Z + Z) :=
  let* a := app_at INSTANCE_ID2 in
  if negb (ch <? num_channels a) then cret (inl msg) else
  match fuel with
  | O => cfault
  | S k =>
      let* err := send_data_poll INSTANCE_ID2 MAX_SAMPLE_MSG_LEN msg ch in
      if negb (err =? 0) then cret (inr err) else
      let* a := app_at INSTANCE_ID2 in
      upd_at INSTANCE_ID2 (set_num_tx_msg (i32 (num_tx_msg a + 1))) ;;;
      if msg + 1 =? num_msgs then poll_replies ;;; cret (inr 0) else
      run_demo_poll_channels k (ch + 1) (msg + 1) num_msgs
  end.

Fixpoint run_demo_poll_loop (fuel : nat) (msg num_msgs : Z) : M (world P) Z :=
  if negb (msg <? num_msgs) then cret 0 else
  match fuel with
  | O => cfault
  | S k =>
      let* r := run_demo_poll_channels 256 (CTRL_CHAN_ID + 1) msg num_msgs in
      match r with
      | inl msg => run_demo_poll_loop k msg num_msgs
      | inr v => cret v
      end
  end.

Definition run_demo_poll (num_msgs : Z) : M (world P) Z :=
  upd_at INSTANCE_ID2 (set_expected_msgs 0) ;;;
  let* err := send_ctrl_msg INSTANCE_ID2 in
  if negb (err =? 0) then cret err else
  run_demo_poll_loop (Z.to_nat num_msgs) 0 num_msgs.

(** ** sysfs interface *)

(** The callbacks of the three instances differ in the index and in the demo
    they run. *)
Definition sysfs_show (id : Z) (attr : kobj_attribute) : M (world P) (Z * list Z) :=
  let* a := app_at id in
  let* same := same_name (attr_name attr) (attr_name (ping_attr_ins a)) in
  let value := if same then num_msgs a else 0 in
  let text := fmt_d value ++ [10] in
  cret (Z.of_nat (length text), text).

Definition ipc_sysfs_show_ins0 : kobj_attribute -> M (world P) (Z * list Z) := sysfs_show INSTANCE_ID0.
Definition ipc_sysfs_show_ins1 : kobj_attribute -> M (world P) (Z * list Z) := sysfs_show INSTANCE_ID1.
Definition ipc_sysfs_show_ins2 : kobj_attribute -> M (world P) (Z * list Z) := sysfs_show INSTANCE_ID2.

Definition sysfs_store (id : Z) (demo : Z -> M (world P) Z) (attr : kobj_attribute) (buf : list Z)
    (count : Z) : M (world P) Z :=
  let '(err, value) := kstrtoint buf 0 in
  if negb (err =? 0) then cret err else
  let* a := app_at id in
  let* same := same_name (attr_name attr) (attr_name (ping_attr_ins a)) in
  (if same then
     upd_at id (set_num_msgs value) ;;;
     let* _ := demo value in cret tt
   else cret tt) ;;;
  cret count.

Definition ipc_sysfs_store_ins0 : kobj_attribute -> list Z -> Z -> M (world P) Z :=
  sysfs_store INSTANCE_ID0 run_demo_ins0.
Definition ipc_sysfs_store_ins1 : kobj_attribute -> list Z -> Z -> M (world P) Z :=
  sysfs_store INSTANCE_ID1 run_demo_ins1.
Definition ipc_sysfs_store_ins2 : kobj_attribute -> list Z -> Z -> M (world P) Z :=
  sysfs_store INSTANCE_ID2 run_demo_poll.

Definition ping (id : Z) : kobj_attribute :=
  KobjAttr (Some (chars "ping")) 384 (IPC_SYSFS_SHOW id) (IPC_SYSFS_STORE id).

Definition init_sysfs : M (world P) Z :=
  upd_at 0 (set_ping_attr_ins (ping 0)) ;;;
  upd_at 1 (set_ping_attr_ins (ping 1)) ;;;
  upd_at 2 (set_ping_attr_ins (ping 2)) ;;;
  (* create ipc-sample folder in sys/kernel *)
  let* k0 := kobject_create_and_add (chars "ipc-shm-sample-instance0") in
  upd_at 0 (set_ipc_kobj_ins k0) ;;;
  if k0 =? NULL then cret (- ENOMEM) else
  let* k1 := kobject_create_and_add (chars "ipc-shm-sample-instance1") in
  upd_at 1 (set_ipc_kobj_ins k1) ;;;
  if k1 =? NULL then cret (- ENOMEM) else
  let* k2 := kobject_create_and_add (chars "ipc-shm-sample-instance2") in
  upd_at 2 (set_ipc_kobj_ins k2) ;;;
  if k2 =? NULL then cret (- ENOMEM) else
  (* create sysfs file for ipc sample ping command *)
  let* r := cfor (Z.to_nat SAMPLE_NUM_INST) 0 (fun i =>
    let* a := app_at i in
    let* err := sysfs_create_file (ipc_kobj_ins a) (ping_attr_ins a) in
    if negb (err =? 0) then
      let* a := app_at i in
      kobject_put (ipc_kobj_ins a) ;;; cret (inr err)
    else cret (inl tt)) in
  match r with
  | inl _ => cret 0
  | inr err => cret err
  end.

Definition free_sysfs : M (world P) unit :=
  let* _ := cfor (R := unit) (Z.to_nat SAMPLE_NUM_INST) 0 (fun i =>
    let* a := app_at i in
    kobject_put (ipc_kobj_ins a) ;;; cret (inl tt)) in
  cret tt.

(** ** Module *)

Definition sample_mod_init : M (world P) Z :=
  let* err := init_ipc_shm in
  if negb (err =? 0) then cret err else
  (* Init completion *)
  let* _ := cfor (R := unit) (Z.to_nat SAMPLE_NUM_INST) 0 (fun i =>
    let* a := app_at i in
    init_completion (reply_received a) ;;; cret (inl tt)) in
  (* init sample sysfs UI *)
  let* err := init_sysfs in
  if negb (err =? 0) then cret err else cret 0.

Definition sample_mod_exit : M (world P) unit :=
  free_sysfs ;;;
  ipc_shm_free ;;;
  (* clear shared memory region *)
  let* _ := cfor (Z.to_nat (ic_num_instances ipcf_shm_instances_cfg)) 0 (fun i =>
    let* c := copt (nthZ (ic_shm_cfg ipcf_shm_instances_cfg) i) in
    let local_addr := u32 (cfg_local_shm_addr c) in
    let shm_size := cfg_shm_size c in
    let* res := on_plat (request_mem_region local_addr shm_size) in
    if negb res then cret (inr tt) else
    let* v := on_plat (ioremap local_addr shm_size) in
    upd_at i (set_local_virt_shm v) ;;;
    let* a := app_at i in
    on_mem (memset_io (local_virt_shm a) 0 shm_size) ;;;
    let* a := app_at i in
    on_plat (iounmap (local_virt_shm a)) ;;;
    on_plat (release_mem_region local_addr shm_size) ;;;
    cret (inl tt)) in
  cret tt.

End Multi.
