(* ===== verification/XenSample.v ===== *)
(** * The Xen samples (src/sample_xen/dom0/sample.c, src/sample_xen/dom0less/sample.c)

    The two files differ in the name of the module and in the domain named in
    the messages, which are parameters here: [DOM0_MODULE_NAME] and [DOM0] for
    the first file, those of [XenDom0less] for the second.  The driver is used
    by polling.  Other parameters as in [Sample]. *)

From Stdlib Require Import String.
From S2P Require Import Prelude Memory Types World Shm SampleLib SampleEnv.
From S2P Require Sample.
#[local] Open Scope Z_scope.

Definition DOM0_MODULE_NAME : list Z := chars "ipc-shm-sample_xen_dom0".
Definition DOM0 : list Z := chars "DOM0".

Record ipc_sample_app : Type := SampleApp {
  num_tx_msg : Z;
  num_rx_msg : Z;
  expected_msgs : Z;
  num_channels : Z;
  num_msgs : Z;
  ctrl_shm : Z;
  last_rx_no_msg : Z;
  ipc_kobj : Z;
  ping_attr : kobj_attribute;
  instance : Z;            (* uint8_t *)
  local_virt_shm : Z
}.

Definition app_zero : ipc_sample_app := SampleApp 0 0 0 0 0 NULL 0 NULL kobj_attribute_zero 0 0.

Definition set_num_tx_msg (v : Z) (a : ipc_sample_app) : ipc_sample_app :=
  SampleApp v (num_rx_msg a) (expected_msgs a) (num_channels a) (num_msgs a) (ctrl_shm a)
    (last_rx_no_msg a) (ipc_kobj a) (ping_attr a) (instance a) (local_virt_shm a).
Definition set_num_rx_msg (v : Z) (a : ipc_sample_app) : ipc_sample_app :=
  SampleApp (num_tx_msg a) v (expected_msgs a) (num_channels a) (num_msgs a) (ctrl_shm a)
    (last_rx_no_msg a) (ipc_kobj a) (ping_attr a) (instance a) (local_virt_shm a).
Definition set_expected_msgs (v : Z) (a : ipc_sample_app) : ipc_sample_app :=
  SampleApp (num_tx_msg a) (num_rx_msg a) v (num_channels a) (num_msgs a) (ctrl_shm a)
    (last_rx_no_msg a) (ipc_kobj a) (ping_attr a) (instance a) (local_virt_shm a).
Definition set_num_channels (v : Z) (a : ipc_sample_app) : ipc_sample_app :=
  SampleApp (num_tx_msg a) (num_rx_msg a) (expected_msgs a) v (num_msgs a) (ctrl_shm a)
    (last_rx_no_msg a) (ipc_kobj a) (ping_attr a) (instance a) (local_virt_shm a).
Definition set_num_msgs (v : Z) (a : ipc_sample_app) : ipc_sample_app :=
  SampleApp (num_tx_msg a) (num_rx_msg a) (expected_msgs a) (num_channels a) v (ctrl_shm a)
    (last_rx_no_msg a) (ipc_kobj a) (ping_attr a) (instance a) (local_virt_shm a).
Definition set_ctrl_shm (v : Z) (a : ipc_sample_app) : ipc_sample_app :=
  SampleApp (num_tx_msg a) (num_rx_msg a) (expected_msgs a) (num_channels a) (num_msgs a) v
    (last_rx_no_msg a) (ipc_kobj a) (ping_attr a) (instance a) (local_virt_shm a).
Definition set_last_rx_no_msg (v : Z) (a : ipc_sample_app) : ipc_sample_app :=
  SampleApp (num_tx_msg a) (num_rx_msg a) (expected_msgs a) (num_channels a) (num_msgs a) (ctrl_shm a)
    v (ipc_kobj a) (ping_attr a) (instance a) (local_virt_shm a).
Definition set_ipc_kobj (v : Z) (a : ipc_sample_app) : ipc_sample_app :=
  SampleApp (num_tx_msg a) (num_rx_msg a) (expected_msgs a) (num_channels a) (num_msgs a) (ctrl_shm a)
    (last_rx_no_msg a) v (ping_attr a) (instance a) (local_virt_shm a).
Definition set_ping_attr (v : kobj_attribute) (a : ipc_sample_app) : ipc_sample_app :=
  SampleApp (num_tx_msg a) (num_rx_msg a) (expected_msgs a) (num_channels a) (num_msgs a) (ctrl_shm a)
    (last_rx_no_msg a) (ipc_kobj a) v (instance a) (local_virt_shm a).
Definition set_local_virt_shm (v : Z) (a : ipc_sample_app) : ipc_sample_app :=
  SampleApp (num_tx_msg a) (num_rx_msg a) (expected_msgs a) (num_channels a) (num_msgs a) (ctrl_shm a)
    (last_rx_no_msg a) (ipc_kobj a) (ping_attr a) (instance a) v.

Section Xen.
Context {P : Type} `{PL : Platform P} `{HA : HasApp ipc_sample_app P} `{SK : SampleKernel P}.
Context (MODULE_NAME domain : list Z).
Context (ipcf_shm_instances_cfg : ipc_shm_instances_cfg) (rx_cb_arg : Z) (spin : nat).

Definition reply_received : Z := 0.

(** ** Receive callbacks *)

Definition ipc_strtol : Z -> M memory Z := Sample.ipc_strtol.

(** [*((uintptr_t * )arg)] is [&app] *)
Definition deref_cb_arg (arg : Z) : M (world P) unit :=
  if arg =? rx_cb_arg then cret tt else cfault.

Definition data_chan_rx_cb (arg instance chan_id buf size : Z) : M (world P) unit :=
  deref_cb_arg arg ;;;
  let* n := on_mem (ipc_strtol (buf + 1)) in
  upd_app (set_last_rx_no_msg (i32 n)) ;;;
  let* a := app in
  upd_app (set_num_rx_msg (i32 (num_rx_msg a + 1))) ;;;
  (* release the buffer *)
  let* err := ipc_shm_release_buf instance chan_id buf in
  (* notify send_msg function a reply was received *)
  complete reply_received.

Definition ctrl_chan_rx_cb (arg instance chan_id mem : Z) : M (world P) unit :=
  deref_cb_arg arg ;;;
  let* len := on_mem (strlen mem) in
  let* n := on_mem (ipc_strtol (mem + Z.of_nat (length (chars "SENDING MESSAGES: ")))) in
  upd_app (set_expected_msgs (i32 n)).

Context `{AP : App P} `{SW : SampleWait P}.

(** ** Initialisation *)

Definition init_ipc_shm : M (world P) Z :=
  let* err := do_while spin (ipc_shm_init (Some ipcf_shm_instances_cfg))
                (fun err => err =? - EAGAIN) meanwhile in
  if negb (err =? 0) then cret err else
  let* c := copt (nthZ (ic_shm_cfg ipcf_shm_instances_cfg) 0) in
  upd_app (set_num_channels (cfg_num_channels c)) ;;;
  cret 0.

(** ** Sending *)

Definition generate_msg (s len msg_no : Z) : M (world P) unit :=
  let* tmp := csprintf MAX_SAMPLE_MSG_LEN
                (chars "#" ++ fmt_d msg_no ++ chars " HELLO WORLD! from " ++ domain) in
  on_mem (strscpy s tmp MAX_SAMPLE_MSG_LEN).

Definition send_ctrl_msg (instance : Z) : M (world P) Z :=
  let chan_id := CTRL_CHAN_ID in
  (* acquire control channel memory once *)
  let* shm := ipc_shm_unmanaged_acquire 0 CTRL_CHAN_ID in
  upd_app (set_ctrl_shm shm) ;;;
  if shm =? NULL then cret (- ENOMEM) else
  let* a := app in
  let* tmp := csprintf CTRL_CHAN_SIZE (chars "SENDING MESSAGES: " ++ fmt_d (num_msgs a)) in
  on_mem (strscpy (ctrl_shm a) tmp CTRL_CHAN_SIZE) ;;;
  (* notify remote *)
  let* err := ipc_shm_unmanaged_tx instance chan_id in
  if negb (err =? 0) then cret err else cret 0.

(** if there is no free buffer left wait *)
Definition acquire_poll (instance chan_id msg_len : Z) : M (world P) Z :=
  do_while spin (ipc_shm_acquire_buf instance (u8 chan_id) (u32 msg_len))
    (fun buf => buf =? NULL) meanwhile.

Definition send_data_poll (instance msg_len msg_no chan_id : Z) : M (world P) Z :=
  let* buf := acquire_poll instance chan_id msg_len in
  (* write data to acquired buffer *)
  generate_msg buf msg_len msg_no ;;;
  (* send data to remote peer *)
  let* err := ipc_shm_tx instance chan_id buf (u32 msg_len) in
  if negb (err =? 0) then cret err else cret 0.

(** The loops of [run_demo_poll]; after the last message, poll until as many
    messages were received as were sent. *)
Definition poll_replies : M (world P) unit :=
  while_do spin
    (let* a := app in cret (negb (num_tx_msg a =? num_rx_msg a)))
    (let* _ := ipc_shm_poll_channels 0 in cret tt) meanwhile.

Fixpoint run_demo_poll_channels (fuel : nat) (ch msg num_msgs : Z) : M (world P) (Z + Z) :=
  let* a := app in
  if negb (ch <? num_channels a) then cret (inl msg) else
  match fuel with
  | O => cfault
  | S k =>
      let* err := send_data_poll 0 MAX_SAMPLE_MSG_LEN msg ch in
      if negb (err =? 0) then cret (inr err) else
      let* a := app in
      upd_app (set_num_tx_msg (i32 (num_tx_msg a + 1))) ;;;
      if msg + 1 =? num_msgs then poll_replies ;;; cret (inr 0) else
      run_demo_poll_channels k (ch + 1) (msg + 1) num_msgs
  end.

Fixpoint run_demo_poll_loop (fuel : nat) (msg num_msgs : Z) : M (world P) Z :=
  if negb (msg <? num_msgs) then cret 0 else
  match fuel with
  | O => cfault
  | S k =>
      let* r := run_demo_poll_channels 256 (CTRL_CHAN_ID + 1) msg num_msgs in
      match r with
      | inl msg => run_demo_poll_loop k msg num_msgs
      | inr v => cret v
      end
  end.

Definition run_demo_poll (num_msgs : Z) : M (world P) Z :=
  let* err := send_ctrl_msg 0 in
  if negb (err =? 0) then cret err else
  run_demo_poll_loop (Z.to_nat num_msgs) 0 num_msgs.

(** ** sysfs interface *)

(** wait for incoming message by interrupt *)
Definition poll_incoming : M (world P) unit :=
  while_do spin
    (let* a := app in
     cret (negb (num_rx_msg a =? expected_msgs a) || (expected_msgs a =? 0)))
    (let* _ := ipc_shm_poll_channels 0 in cret tt) meanwhile.

(** The messages sent back; the bound of the loop is read in every turn, and may
    change while the loop waits for a buffer. *)
Fixpoint echo_loop (fuel : nat) (i : Z) : M (world P) (unit + Z) :=
  let* a := app in
  if negb (i <? expected_msgs a) then cret (inl tt) else
  match fuel with
  | O => cfault
  | S k =>
      (* alternate MANAGE channel *)
      let chan_id := Z.rem i 2 + 1 in
      let* err := send_data_poll 0 MAX_SAMPLE_MSG_LEN i chan_id in
      if negb (err =? 0) then cret (inr err) else echo_loop k (i + 1)
  end.

(** callback called when reading sysfs command file; nothing is written to the
    page *)
Definition ipc_sysfs_show (attr : kobj_attribute) : M (world P) Z :=
  upd_app (set_num_rx_msg 0) ;;;
  upd_app (set_expected_msgs 0) ;;;
  poll_incoming ;;;
  let* _ := send_ctrl_msg 0 in
  let* r := echo_loop spin 0 in
  match r with
  | inr err => cret err
  | inl _ =>
      upd_app (set_num_rx_msg 0) ;;;
      let* a := app in
      cret (expected_msgs a)
  end.

(** callback called when writing in sysfs command file *)
Definition ipc_sysfs_store (attr : kobj_attribute) (buf : list Z) (count : Z) : M (world P) Z :=
  let '(err, value) := kstrtoint buf 0 in
  if negb (err =? 0) then cret err else
  let* a := app in
  let* same := same_name (attr_name attr) (attr_name (ping_attr a)) in
  (if same then
     upd_app (set_num_msgs value) ;;;
     let* _ := run_demo_poll value in cret tt
   else cret tt) ;;;
  cret count.

Definition ping : kobj_attribute :=
  KobjAttr (Some (chars "ping")) 384 (IPC_SYSFS_SHOW 0) (IPC_SYSFS_STORE 0).

Definition init_sysfs : M (world P) Z :=
  upd_app (set_ping_attr ping) ;;;
  let* kobj := kobject_create_and_add MODULE_NAME in
  upd_app (set_ipc_kobj kobj) ;;;
  if kobj =? NULL then cret (- ENOMEM) else
  (* create sysfs file for ipc sample ping command *)
  let* a := app in
  let* err := sysfs_create_file (ipc_kobj a) (ping_attr a) in
  if negb (err =? 0) then
    let* a := app in
    kobject_put (ipc_kobj a) ;;; cret err
  else cret 0.

Definition free_sysfs : M (world P) unit :=
  let* a := app in kobject_put (ipc_kobj a).

(** ** Module *)

Definition sample_mod_init : M (world P) Z :=
  let* err := init_ipc_shm in
  if negb (err =? 0) then cret err else
  let* err := init_sysfs in
  if negb (err =? 0) then cret err else cret 0.

Definition sample_mod_exit : M (world P) unit :=
  free_sysfs ;;;
  ipc_shm_free ;;;
  let* c := copt (nthZ (ic_shm_cfg ipcf_shm_instances_cfg) 0) in
  let local_addr := u32 (cfg_local_shm_addr c) in
  let shm_size := cfg_shm_size c in
  let* res := on_plat (request_mem_region local_addr shm_size) in
  if negb res then cret tt else
  let* v := on_plat (ioremap local_addr shm_size) in
  upd_app (set_local_virt_shm v) ;;;
  let* a := app in
  on_mem (memset_io (local_virt_shm a) 0 shm_size) ;;;
  let* a := app in
  on_plat (iounmap (local_virt_shm a)) ;;;
  on_plat (release_mem_region local_addr shm_size).

End Xen.
