(* ===== verification/XenDom0less.v ===== *)
(** * The sample of the second Xen domain (src/sample_xen/dom0less/sample.c)

    The text of the file is that of [XenSample] with another module name and
    another sender in the messages. *)

From Stdlib Require Import String.
From S2P Require Import Prelude Memory Types World Shm SampleLib SampleEnv.
From S2P Require XenSample.
#[local] Open Scope Z_scope.

Definition MODULE_NAME : list Z := chars "ipc-shm-sample_xen_dom0less".
Definition DOMAIN : list Z := chars "DOM1".

Definition ipc_sample_app : Type := XenSample.ipc_sample_app.

Section Dom0less.
Context {P : Type} `{PL : Platform P} `{HA : HasApp XenSample.ipc_sample_app P} `{SK : SampleKernel P}.
Context (ipcf_shm_instances_cfg : ipc_shm_instances_cfg) (rx_cb_arg : Z) (spin : nat).

Definition ipc_strtol : Z -> M memory Z := XenSample.ipc_strtol.
Definition data_chan_rx_cb : Z -> Z -> Z -> Z -> Z -> M (world P) unit :=
  XenSample.data_chan_rx_cb rx_cb_arg.
Definition ctrl_chan_rx_cb : Z -> Z -> Z -> Z -> M (world P) unit :=
  XenSample.ctrl_chan_rx_cb rx_cb_arg.

Context `{AP : App P} `{SW : SampleWait P}.

Definition init_ipc_shm : M (world P) Z := XenSample.init_ipc_shm ipcf_shm_instances_cfg spin.
Definition generate_msg : Z -> Z -> Z -> M (world P) unit := XenSample.generate_msg DOMAIN.
Definition send_ctrl_msg : Z -> M (world P) Z := XenSample.send_ctrl_msg.
Definition send_data_poll : Z -> Z -> Z -> Z -> M (world P) Z := XenSample.send_data_poll DOMAIN spin.
Definition run_demo_poll : Z -> M (world P) Z := XenSample.run_demo_poll DOMAIN spin.
Definition ipc_sysfs_show : kobj_attribute -> M (world P) Z := XenSample.ipc_sysfs_show DOMAIN spin.
Definition ipc_sysfs_store : kobj_attribute -> list Z -> Z -> M (world P) Z :=
  XenSample.ipc_sysfs_store DOMAIN spin.
Definition init_sysfs : M (world P) Z := XenSample.init_sysfs MODULE_NAME.
Definition free_sysfs : M (world P) unit := XenSample.free_sysfs.
Definition sample_mod_init : M (world P) Z :=
  XenSample.sample_mod_init MODULE_NAME ipcf_shm_instances_cfg spin.
Definition sample_mod_exit : M (world P) unit := XenSample.sample_mod_exit ipcf_shm_instances_cfg.

End Dom0less.
