(* ===== verification/UserSample.v ===== *)
(** * The user-space sample (src/sample_user/sample.c)

    One definition per function.  Local arrays that are passed by address, and
    the array [last_tx_msg] of the static data, lie in the memory of the process
    at addresses that are parameters.  A failed [assert] ends the process, which
    is a fault.  Other parameters as in [Sample]. *)

From Stdlib Require Import String.
From S2P Require Import Prelude Memory Types World Shm SampleLib SampleEnv.
#[local] Open Scope Z_scope.

Definition IPC_MEMCPY_BYTES_ALIGNED : Z := 8.
Definition L_BUF_LEN : Z := 4096.

(** ((x) & (a - 1)) == 0 *)
Definition IS_ALIGNED (x a : Z) : bool := Z.land x (a - 1) =? 0.

(** ** Copies to and from IO memory *)

(** [*dst_casted = *buf_casted] *)
Definition copy_byte (dst buf : Z) : M memory unit :=
  let* c := read_uint 1 buf in write_uint 1 dst c.

(** The first loop of both routines, up to an aligned IO address [io dst buf];
    pointers and count at its end. *)
Fixpoint copy_unaligned (io : Z -> Z -> Z) (fuel : nat) (dst buf count : Z) : M memory (Z * Z * Z) :=
  if negb (count =? 0) && negb (IS_ALIGNED (io dst buf) IPC_MEMCPY_BYTES_ALIGNED) then
    match fuel with
    | O => cfault
    | S k => copy_byte dst buf ;;; copy_unaligned io k (dst + 1) (buf + 1) (count - 1)
    end
  else cret (dst, buf, count).

(** The second loop: eight bytes at a time. *)
Fixpoint copy_words (fuel : nat) (dst buf count : Z) : M memory (Z * Z * Z) :=
  if IPC_MEMCPY_BYTES_ALIGNED <=? count then
    match fuel with
    | O => cfault
    | S k =>
        let* bs := read_bytes (Z.to_nat IPC_MEMCPY_BYTES_ALIGNED) buf in
        write_bytes dst bs ;;;
        copy_words k (dst + IPC_MEMCPY_BYTES_ALIGNED) (buf + IPC_MEMCPY_BYTES_ALIGNED)
          (count - IPC_MEMCPY_BYTES_ALIGNED)
    end
  else cret (dst, buf, count).

(** The third loop: what is left. *)
Fixpoint copy_rest (fuel : nat) (dst buf count : Z) : M memory unit :=
  if negb (count =? 0) then
    match fuel with
    | O => cfault
    | S k => copy_byte dst buf ;;; copy_rest k (dst + 1) (buf + 1) (count - 1)
    end
  else cret tt.

(** Every turn copies a byte at least: [count] turns are enough for each loop. *)
Definition ipc_memcpy (io : Z -> Z -> Z) (dst buf count : Z) : M memory unit :=
  if (dst =? NULL) || (buf =? NULL) || (count =? 0) then cret tt else
  let fuel := Z.to_nat count in
  let* '(dst, buf, count) := copy_unaligned io fuel dst buf count in
  let* '(dst, buf, count) := copy_words fuel dst buf count in
  copy_rest fuel dst buf count.

(** ipc implementation of memcpy to IO memory space *)
Definition ipc_memcpy_toio (dst buf count : Z) : M memory unit :=
  ipc_memcpy (fun dst buf => dst) dst buf count.

(** ipc implementation of memcpy from IO memory space *)
Definition ipc_memcpy_fromio (dst buf count : Z) : M memory unit :=
  ipc_memcpy (fun dst buf => buf) dst buf count.

(** ** Static data *)

Record ipc_sample_app : Type := SampleApp {
  num_channels : Z;
  num_msgs : Z;
  ctrl_shm : Z;
  last_rx_no_msg : Z;
  instance : Z;            (* uint8_t *)
  msg_sizes : list Z;
  msg_sizes_count : Z
}.

Definition app_zero : ipc_sample_app :=
  SampleApp 0 0 NULL 0 0 (MAX_SAMPLE_MSG_LEN :: replicate (Z.to_nat (IPC_SHM_MAX_POOLS - 1)) 0) 1.

Definition set_num_channels (v : Z) (a : ipc_sample_app) : ipc_sample_app :=
  SampleApp v (num_msgs a) (ctrl_shm a) (last_rx_no_msg a) (instance a) (msg_sizes a) (msg_sizes_count a).
Definition set_num_msgs (v : Z) (a : ipc_sample_app) : ipc_sample_app :=
  SampleApp (num_channels a) v (ctrl_shm a) (last_rx_no_msg a) (instance a) (msg_sizes a)
    (msg_sizes_count a).
Definition set_ctrl_shm (v : Z) (a : ipc_sample_app) : ipc_sample_app :=
  SampleApp (num_channels a) (num_msgs a) v (last_rx_no_msg a) (instance a) (msg_sizes a)
    (msg_sizes_count a).
Definition set_last_rx_no_msg (v : Z) (a : ipc_sample_app) : ipc_sample_app :=
  SampleApp (num_channels a) (num_msgs a) (ctrl_shm a) v (instance a) (msg_sizes a) (msg_sizes_count a).
Definition set_instance (v : Z) (a : ipc_sample_app) : ipc_sample_app :=
  SampleApp (num_channels a) (num_msgs a) (ctrl_shm a) (last_rx_no_msg a) v (msg_sizes a)
    (msg_sizes_count a).

(** Local arrays named [tmp], one per function, and the last message sent. *)
Record arrays : Type := Arrays {
  tmp_data_rx : Z;         (* char tmp[MAX_SAMPLE_MSG_LEN] of data_chan_rx_cb *)
  tmp_ctrl_rx : Z;         (* char tmp[CTRL_CHAN_SIZE] of ctrl_chan_rx_cb *)
  tmp_ctrl_tx : Z;         (* char tmp[CTRL_CHAN_SIZE] of send_ctrl_msg *)
  tmp_generate : Z;        (* char tmp[MAX_SAMPLE_MSG_LEN] of generate_msg *)
  last_tx_msg : Z          (* char last_tx_msg[L_BUF_LEN] *)
}.

Definition cassert {S} (b : bool) : M S unit := if b then cret tt else cfault.

Section User.
Context {P : Type} `{PL : Platform P} `{HA : HasApp ipc_sample_app P} `{SP : SamplePosix P}.
Context (ipcf_shm_instances_cfg : ipc_shm_instances_cfg) (loc : arrays) (spin : nat).

(** ** Receive callbacks *)

Definition data_chan_rx_cb (arg instance chan_id buf data_size : Z) : M (world P) unit :=
  cassert (data_size <=? MAX_SAMPLE_MSG_LEN) ;;;
  (* process the received data *)
  on_mem (ipc_memcpy_fromio (tmp_data_rx loc) buf data_size) ;;;
  (* consume received data: get number of message *)
  let* n := on_mem (strtol (buf + 1)) in
  upd_app (set_last_rx_no_msg (i32 n)) ;;;
  (* release the buffer *)
  let* err := ipc_shm_release_buf instance chan_id buf in
  (* notify send_msg function a reply was received *)
  sem_post.

Definition ctrl_chan_rx_cb (arg instance chan_id mem : Z) : M (world P) unit :=
  cassert (chan_id =? CTRL_CHAN_ID) ;;;
  let* len := on_mem (strlen mem) in
  cassert (len <=? CTRL_CHAN_SIZE) ;;;
  on_mem (ipc_memcpy_fromio (tmp_ctrl_rx loc) mem CTRL_CHAN_SIZE) ;;;
  (* notify run_demo() the ctrl reply was received and demo can end *)
  sem_post.

Context `{AP : App P} `{SW : SamplePosixWait P}.

(** ** Initialisation *)

Definition init_ipc_shm : M (world P) Z :=
  let* err := do_while spin (ipc_shm_init (Some ipcf_shm_instances_cfg))
                (fun err => err =? - EAGAIN) user_meanwhile in
  if negb (err =? 0) then cret err else
  let* c := copt (nthZ (ic_shm_cfg ipcf_shm_instances_cfg) 0) in
  upd_app (set_num_channels (cfg_num_channels c)) ;;;
  (* acquire control channel memory once *)
  let* a := app in
  let* shm := ipc_shm_unmanaged_acquire (instance a) CTRL_CHAN_ID in
  upd_app (set_ctrl_shm shm) ;;;
  if shm =? NULL then cret (- ENOMEM) else cret 0.

(** ** Sending *)

Definition send_ctrl_msg (instance : Z) : M (world P) Z :=
  let chan_id := CTRL_CHAN_ID in
  (* char tmp[CTRL_CHAN_SIZE] = {0} *)
  on_mem (write_bytes (tmp_ctrl_tx loc) (replicate (Z.to_nat CTRL_CHAN_SIZE) 0)) ;;;
  let* a := app in
  let* text := csprintf CTRL_CHAN_SIZE (chars "SENDING MESSAGES: " ++ fmt_d (num_msgs a)) in
  on_mem (strcpy (tmp_ctrl_tx loc) text) ;;;
  on_mem (ipc_memcpy_toio (ctrl_shm a) (tmp_ctrl_tx loc) CTRL_CHAN_SIZE) ;;;
  (* notify remote *)
  let* err := ipc_shm_unmanaged_tx instance chan_id in
  if negb (err =? 0) then cret err else cret 0.

(** The text of message [msg_no]. *)
Definition msg_text (msg_no : Z) : list Z :=
  chars "#" ++ fmt_d msg_no ++ chars " HELLO WORLD! FROM USER".

Definition generate_msg (dest len msg_no : Z) : M (world P) unit :=
  let* ret := on_mem (csnprintf (tmp_generate loc) MAX_SAMPLE_MSG_LEN (u64 len) (msg_text msg_no)) in
  on_mem (ipc_memcpy_toio dest (tmp_generate loc) ret).

Definition send_data_msg (instance msg_len msg_no chan_id : Z) : M (world P) Z :=
  let* buf := ipc_shm_acquire_buf instance (u8 chan_id) (u32 msg_len) in
  if buf =? NULL then cret (- ENOMEM) else
  (* write data to acquired buffer *)
  generate_msg buf msg_len msg_no ;;;
  (* save data for comparison with echo reply *)
  on_mem (ipc_memcpy_fromio (last_tx_msg loc) buf (u64 msg_len)) ;;;
  (* send data to remote peer *)
  let* err := ipc_shm_tx instance chan_id buf (u32 msg_len) in
  if negb (err =? 0) then cret err else
  (* wait for echo reply from remote (signaled from Rx callback) *)
  sem_wait ;;;
  let* e := errno in
  if e =? EINTR then cret err else cret 0.

(** The loops of [run_demo], as in [Sample]. *)
Fixpoint run_demo_sizes (n : nat) (i ch msg num_msgs : Z) : M (world P) (Z + Z) :=
  match n with
  | O => cret (inl msg)
  | S k =>
      let* a := app in
      let* size := copt (nthZ (msg_sizes a) i) in
      let* err := send_data_msg (instance a) size msg ch in
      if negb (err =? 0) then cret (inr err) else
      (* wait for ctrl msg reply *)
      if msg + 1 =? num_msgs then sem_wait ;;; cret (inr 0) else
      run_demo_sizes k (i + 1) ch (msg + 1) num_msgs
  end.

Fixpoint run_demo_channels (fuel : nat) (ch msg num_msgs : Z) : M (world P) (Z + Z) :=
  let* a := app in
  if negb (ch <? num_channels a) then cret (inl msg) else
  match fuel with
  | O => cfault
  | S k =>
      let* r := run_demo_sizes (Z.to_nat (msg_sizes_count a)) 0 ch msg num_msgs in
      match r with
      | inl msg => run_demo_channels k (ch + 1) msg num_msgs
      | inr v => cret (inr v)
      end
  end.

Fixpoint run_demo_loop (fuel : nat) (msg num_msgs : Z) : M (world P) Z :=
  if negb (msg <? num_msgs) then cret 0 else
  match fuel with
  | O => cfault
  | S k =>
      let* r := run_demo_channels 256 (CTRL_CHAN_ID + 1) msg num_msgs in
      match r with
      | inl msg => run_demo_loop k msg num_msgs
      | inr v => cret v
      end
  end.

Definition run_demo (num_msgs : Z) : M (world P) Z :=
  let* a := app in
  let* err := send_ctrl_msg (instance a) in
  if negb (err =? 0) then cret err else
  run_demo_loop (Z.to_nat num_msgs) 0 num_msgs.

(** interrupt signal handler for terminating the sample execution gracefully *)
Definition int_handler (signum : Z) : M (world P) unit := upd_app (set_num_msgs 0).

(** ** main *)

(** scanf("%d", &app.num_msgs) *)
Definition scan_num_msgs : M (world P) unit :=
  let* n := scanf_d in
  match n with
  | Some v => upd_app (set_num_msgs (i32 v))
  | None => cret tt
  end.

(** One turn per line of input. *)
Fixpoint main_loop (fuel : nat) (err : Z) : M (world P) Z :=
  let* a := app in
  if num_msgs a =? 0 then cret err else
  match fuel with
  | O => cfault
  | S k =>
      scan_num_msgs ;;;
      let* a := app in
      if num_msgs a =? 0 then cret err else
      let* err := run_demo (num_msgs a) in
      if negb (err =? 0) then cret err else main_loop k err
  end.

Definition main : M (world P) Z :=
  upd_app (set_instance 0) ;;;
  sem_init ;;;
  (* init ipc shm driver *)
  let* err := init_ipc_shm in
  if negb (err =? 0) then cret err else
  (* catch interrupt signals to terminate the execution gracefully *)
  sigaction_int ;;;
  upd_app (set_num_msgs 1) ;;;
  let* err := main_loop spin err in
  ipc_shm_free ;;;
  sem_destroy ;;;
  cret err.

End User.
