(* ===== verification/MultiUserSample.v ===== *)
(** * The user-space sample with several instances
    (src/sample_multi_instance_user/sample_multi_instance.c)

    One definition per function; the copy routines and the text of messages are
    those of [UserSample].  [last_tx_msg] is the address of the array of each
    instance.  Other parameters as in [UserSample]. *)

From Stdlib Require Import String.
From S2P Require Import Prelude Memory Types World Shm SampleLib SampleEnv.
From S2P Require UserSample.
#[local] Open Scope Z_scope.

Definition MAX_CONTINUOUS_MSG_PER_CHANNEL : Z := 1.

Definition ipc_memcpy_toio : Z -> Z -> Z -> M memory unit := UserSample.ipc_memcpy_toio.
Definition ipc_memcpy_fromio : Z -> Z -> Z -> M memory unit := UserSample.ipc_memcpy_fromio.

(** struct instance_id *)
Record instance_id : Type := InstanceId {
  tx_count : Z;
  rx_count : Z;
  expected_msgs : Z;
  num_channels : Z;
  ctrl_shm : Z;
  last_rx_no_msg : Z
}.

Record ipc_sample_app : Type := SampleApp {
  instance : Z;            (* uint8_t *)
  num_msgs : Z;
  ids : list instance_id;
  msg_sizes : list Z
}.

Definition app_zero : ipc_sample_app :=
  SampleApp 0 0 (replicate (Z.to_nat IPC_SHM_MAX_INSTANCES) (InstanceId 0 0 0 0 NULL 0))
    (MAX_SAMPLE_MSG_LEN :: replicate (Z.to_nat (IPC_SHM_MAX_POOLS - 1)) 0).

Definition set_tx_count (v : Z) (a : instance_id) : instance_id :=
  InstanceId v (rx_count a) (expected_msgs a) (num_channels a) (ctrl_shm a) (last_rx_no_msg a).
Definition set_rx_count (v : Z) (a : instance_id) : instance_id :=
  InstanceId (tx_count a) v (expected_msgs a) (num_channels a) (ctrl_shm a) (last_rx_no_msg a).
Definition set_expected_msgs (v : Z) (a : instance_id) : instance_id :=
  InstanceId (tx_count a) (rx_count a) v (num_channels a) (ctrl_shm a) (last_rx_no_msg a).
Definition set_num_channels (v : Z) (a : instance_id) : instance_id :=
  InstanceId (tx_count a) (rx_count a) (expected_msgs a) v (ctrl_shm a) (last_rx_no_msg a).
Definition set_ctrl_shm (v : Z) (a : instance_id) : instance_id :=
  InstanceId (tx_count a) (rx_count a) (expected_msgs a) (num_channels a) v (last_rx_no_msg a).
Definition set_last_rx_no_msg (v : Z) (a : instance_id) : instance_id :=
  InstanceId (tx_count a) (rx_count a) (expected_msgs a) (num_channels a) (ctrl_shm a) v.
Definition set_instance (v : Z) (a : ipc_sample_app) : ipc_sample_app :=
  SampleApp v (num_msgs a) (ids a) (msg_sizes a).
Definition set_num_msgs (v : Z) (a : ipc_sample_app) : ipc_sample_app :=
  SampleApp (instance a) v (ids a) (msg_sizes a).

(** Local arrays named [tmp], one per function, and the last message sent on
    each instance. *)
Record arrays : Type := Arrays {
  tmp_data_rx : Z;
  tmp_ctrl_rx : Z;
  tmp_ctrl_tx : Z;
  tmp_generate : Z;
  last_tx_msg : Z -> Z
}.

Section MultiUser.
Context {P : Type} `{PL : Platform P} `{HA : HasApp ipc_sample_app P} `{SP : SamplePosix P}.
Context (ipcf_shm_instances_cfg : ipc_shm_instances_cfg) (loc : arrays) (spin : nat).

(** app.id[i], and assignments to its members *)
Definition id_at (i : Z) : M (world P) instance_id :=
  let* a := app in copt (nthZ (ids a) i).
Definition upd_id (i : Z) (f : instance_id -> instance_id) : M (world P) unit :=
  let* x := id_at i in
  upd_app (fun a => SampleApp (instance a) (num_msgs a) (setZ (ids a) i (f x)) (msg_sizes a)).

(** ** Receive callbacks *)

Definition data_chan_rx_cb (arg instance chan_id buf data_size : Z) : M (world P) unit :=
  UserSample.cassert (data_size <=? MAX_SAMPLE_MSG_LEN) ;;;
  (* process the received data *)
  on_mem (ipc_memcpy_fromio (tmp_data_rx loc) buf data_size) ;;;
  (* consume received data: get number of message *)
  let* n := on_mem (strtol (buf + 1)) in
  upd_id instance (set_last_rx_no_msg (i32 n)) ;;;
  let* x := id_at instance in
  upd_id instance (set_rx_count (i32 (rx_count x + 1))) ;;;
  (* release the buffer *)
  let* err := ipc_shm_release_buf instance chan_id buf in
  (* notify send_msg function a reply was received *)
  sem_post.

Definition ctrl_chan_rx_cb (arg instance chan_id mem : Z) : M (world P) unit :=
  UserSample.cassert (chan_id =? CTRL_CHAN_ID) ;;;
  let* len := on_mem (strlen mem) in
  UserSample.cassert (len <=? CTRL_CHAN_SIZE) ;;;
  on_mem (ipc_memcpy_fromio (tmp_ctrl_rx loc) mem CTRL_CHAN_SIZE) ;;;
  let* n := on_mem (strtol (mem + Z.of_nat (length (chars "REPLIED MESSAGES: ")))) in
  upd_id instance (set_expected_msgs (i32 n)) ;;;
  (* notify run_demo() the ctrl reply was received and demo can end *)
  sem_post.

Context `{AP : App P} `{SW : SamplePosixWait P}.

(** ** Initialisation *)

Definition init_ipc_shm : M (world P) Z :=
  let* err := do_while spin (ipc_shm_init (Some ipcf_shm_instances_cfg))
                (fun err => err =? - EAGAIN) user_meanwhile in
  if negb (err =? 0) then cret err else
  let* r := cfor (Z.to_nat (ic_num_instances ipcf_shm_instances_cfg)) 0 (fun i =>
    let* c := copt (nthZ (ic_shm_cfg ipcf_shm_instances_cfg) i) in
    upd_id i (set_num_channels (cfg_num_channels c)) ;;;
    (* acquire control channel memory once *)
    let* shm := ipc_shm_unmanaged_acquire i CTRL_CHAN_ID in
    upd_id i (set_ctrl_shm shm) ;;;
    if shm =? NULL then cret (inr (- ENOMEM)) else cret (inl tt)) in
  match r with
  | inl _ => cret 0
  | inr err => cret err
  end.

(** ** Sending *)

Definition send_ctrl_msg (instance : Z) : M (world P) Z :=
  let chan_id := CTRL_CHAN_ID in
  (* char tmp[CTRL_CHAN_SIZE] = {0} *)
  on_mem (write_bytes (tmp_ctrl_tx loc) (replicate (Z.to_nat CTRL_CHAN_SIZE) 0)) ;;;
  let* a := app in
  let* text := csprintf CTRL_CHAN_SIZE (chars "SENDING MESSAGES: " ++ fmt_d (num_msgs a)) in
  on_mem (strcpy (tmp_ctrl_tx loc) text) ;;;
  let* x := id_at instance in
  on_mem (ipc_memcpy_toio (ctrl_shm x) (tmp_ctrl_tx loc) CTRL_CHAN_SIZE) ;;;
  (* notify remote *)
  let* err := ipc_shm_unmanaged_tx instance chan_id in
  if negb (err =? 0) then cret err else cret 0.

Definition generate_msg (dest len msg_no : Z) : M (world P) unit :=
  let* ret := on_mem (csnprintf (tmp_generate loc) MAX_SAMPLE_MSG_LEN (u64 len)
                        (UserSample.msg_text msg_no)) in
  on_mem (ipc_memcpy_toio dest (tmp_generate loc) ret).

Definition send_data_msg (instance msg_len msg_no chan_id : Z) : M (world P) Z :=
  let* buf := ipc_shm_acquire_buf instance (u8 chan_id) (u32 msg_len) in
  if buf =? NULL then cret (- ENOMEM) else
  (* write data to acquired buffer *)
  generate_msg buf msg_len msg_no ;;;
  (* save data for comparison with echo reply *)
  let* _ := id_at instance in
  on_mem (ipc_memcpy_fromio (last_tx_msg loc instance) buf (u64 msg_len)) ;;;
  (* send data to remote peer *)
  let* err := ipc_shm_tx instance chan_id buf (u32 msg_len) in
  if negb (err =? 0) then cret err else
  (* wait for echo reply from remote (signaled from Rx callback) *)
  sem_wait ;;;
  let* e := errno in
  if e =? EINTR then cret err else cret 0.

(** if there is no free buffer left wait *)
Definition acquire_poll (instance chan_id msg_len : Z) : M (world P) Z :=
  do_while spin (ipc_shm_acquire_buf instance (u8 chan_id) (u32 msg_len))
    (fun buf => buf =? NULL) user_meanwhile.

Definition send_data_poll (instance msg_len msg_no chan_id : Z) : M (world P) Z :=
  let* buf := acquire_poll instance chan_id msg_len in
  (* write data to acquired buffer *)
  generate_msg buf msg_len msg_no ;;;
  let* _ := id_at instance in
  on_mem (ipc_memcpy_fromio (last_tx_msg loc instance) buf (u64 msg_len)) ;;;
  (* send data to remote peer *)
  let* err := ipc_shm_tx instance chan_id buf (u32 msg_len) in
  if negb (err =? 0) then cret err else cret 0.

(** The loops of [run_demo]; the parameter names the instance whose channels are
    counted, [app.instance] the one that sends. *)
Fixpoint run_demo_sizes (n : nat) (i ch msg num_msgs : Z) : M (world P) (Z + Z) :=
  match n with
  | O => cret (inl msg)
  | S k =>
      let* a := app in
      let* size := copt (nthZ (msg_sizes a) i) in
      let* err := send_data_msg (instance a) size msg ch in
      if negb (err =? 0) then cret (inr err) else
      (* wait for ctrl msg reply *)
      if msg + 1 =? num_msgs then sem_wait ;;; cret (inr 0) else
      run_demo_sizes k (i + 1) ch (msg + 1) num_msgs
  end.

Fixpoint run_demo_channels (fuel : nat) (inst ch msg num_msgs : Z) : M (world P) (Z + Z) :=
  let* x := id_at inst in
  if negb (ch <? num_channels x) then cret (inl msg) else
  match fuel with
  | O => cfault
  | S k =>
      let* r := run_demo_sizes (Z.to_nat MAX_CONTINUOUS_MSG_PER_CHANNEL) 0 ch msg num_msgs in
      match r with
      | inl msg => run_demo_channels k inst (ch + 1) msg num_msgs
      | inr v => cret (inr v)
      end
  end.

Fixpoint run_demo_loop (fuel : nat) (inst msg num_msgs : Z) : M (world P) Z :=
  if negb (msg <? num_msgs) then cret 0 else
  match fuel with
  | O => cfault
  | S k =>
      let* r := run_demo_channels 256 inst (CTRL_CHAN_ID + 1) msg num_msgs in
      match r with
      | inl msg => run_demo_loop k inst msg num_msgs
      | inr v => cret v
      end
  end.

Definition run_demo (num_msgs inst : Z) : M (world P) Z :=
  let* a := app in
  let* err := send_ctrl_msg (instance a) in
  if negb (err =? 0) then cret err else
  run_demo_loop (Z.to_nat num_msgs) inst 0 num_msgs.

(** The loops of [run_demo_poll]; after the last message, poll until all
    replies and the control reply are in, then take back what the callbacks
    posted. *)
Definition poll_replies (inst : Z) : M (world P) unit :=
  while_do spin
    (let* x := id_at inst in
     cret (negb (tx_count x =? rx_count x) || (expected_msgs x =? 0)))
    (let* _ := ipc_shm_poll_channels inst in cret tt) user_meanwhile.

Definition drain_sema (num_msgs : Z) : M (world P) unit :=
  let* _ := cfor (R := unit) (Z.to_nat (num_msgs + 1)) 0 (fun _ => sem_wait ;;; cret (inl tt)) in
  cret tt.

Fixpoint run_demo_poll_channels (fuel : nat) (inst ch msg num_msgs : Z) : M (world P) (Z + Z) :=
  let* x := id_at inst in
  if negb (ch <? num_channels x) then cret (inl msg) else
  match fuel with
  | O => cfault
  | S k =>
      let* err := send_data_poll inst MAX_SAMPLE_MSG_LEN msg ch in
      if negb (err =? 0) then cret (inr err) else
      let* x := id_at inst in
      upd_id inst (set_tx_count (i32 (tx_count x + 1))) ;;;
      if msg + 1 =? num_msgs then
        poll_replies inst ;;; drain_sema num_msgs ;;; cret (inr 0)
      else run_demo_poll_channels k inst (ch + 1) (msg + 1) num_msgs
  end.

Fixpoint run_demo_poll_loop (fuel : nat) (inst msg num_msgs : Z) : M (world P) Z :=
  if negb (msg <? num_msgs) then cret 0 else
  match fuel with
  | O => cfault
  | S k =>
      let* r := run_demo_poll_channels 256 inst (CTRL_CHAN_ID + 1) msg num_msgs in
      match r with
      | inl msg => run_demo_poll_loop k inst msg num_msgs
      | inr v => cret v
      end
  end.

Definition run_demo_poll (num_msgs inst : Z) : M (world P) Z :=
  upd_id inst (set_expected_msgs 0) ;;;
  let* err := send_ctrl_msg inst in
  if negb (err =? 0) then cret err else
  run_demo_poll_loop (Z.to_nat num_msgs) inst 0 num_msgs.

Definition int_handler (signum : Z) : M (world P) unit :=
  upd_app (set_num_msgs 0) ;;;
  upd_app (set_instance 0).

(** ** main *)

Definition scan_num_msgs : M (world P) unit :=
  let* n := scanf_d in
  match n with
  | Some v => upd_app (set_num_msgs (i32 v))
  | None => cret tt
  end.

(** scanf("%d", &app.instance) stores an int; the member is its first byte and
    padding follows. *)
Definition scan_instance : M (world P) unit :=
  let* n := scanf_d in
  match n with
  | Some v => upd_app (set_instance (u8 v))
  | None => cret tt
  end.

(** The demo the instance is configured for. *)
Definition run_selected : M (world P) Z :=
  let* a := app in
  let* c := copt (nthZ (ic_shm_cfg ipcf_shm_instances_cfg) (instance a)) in
  if (cfg_inter_core_tx_irq c =? IPC_IRQ_NONE) && (cfg_inter_core_rx_irq c =? IPC_IRQ_NONE)
  then run_demo_poll (num_msgs a) (instance a)
  else run_demo (num_msgs a) (instance a).

Fixpoint main_loop (fuel : nat) (err : Z) : M (world P) Z :=
  let* a := app in
  if num_msgs a =? 0 then cret err else
  match fuel with
  | O => cfault
  | S k =>
      scan_instance ;;;
      let* a := app in
      if ic_num_instances ipcf_shm_instances_cfg <=? instance a then main_loop k err else
      scan_num_msgs ;;;
      let* a := app in
      if num_msgs a =? 0 then cret err else
      let* err := run_selected in
      if negb (err =? 0) then cret err else main_loop k err
  end.

Definition main : M (world P) Z :=
  sem_init ;;;
  (* init ipc shm driver *)
  let* err := init_ipc_shm in
  if negb (err =? 0) then cret err else
  (* catch interrupt signals to terminate the execution gracefully *)
  sigaction_int ;;;
  upd_app (set_num_msgs 1) ;;;
  upd_app (set_instance 0) ;;;
  let* err := main_loop spin err in
  ipc_shm_free ;;;
  sem_destroy ;;;
  cret err.

End MultiUser.
