(* ===== verification/CopySpec.v ===== *)
(** * The copy routines of the user-space samples

    [ipc_memcpy_toio] and [ipc_memcpy_fromio] copy byte by byte up to an aligned
    address, then words, then the rest; together they are a plain copy. *)

From S2P Require Import Prelude Memory World SampleLib UserSample.
#[local] Open Scope Z_scope.

(** ** Writes in a row *)

Lemma store_cons f a b r : store_bytes f a (b :: r) = <[a := b]> (store_bytes f (a + 1) r).
Proof. reflexivity. Qed.

Lemma insert_store_commute f a bs x v :
  ~ range a (Z.of_nat (length bs)) x ->
  store_bytes (<[x := v]> f) a bs = <[x := v]> (store_bytes f a bs).
Proof.
  revert a; induction bs as [|b r IH]; intros a Hx; [reflexivity |]. rewrite !store_cons.
  unfold range in *. cbn [length] in Hx. rewrite IH by (unfold range; lia).
  apply insert_insert_ne. lia.
Qed.

Lemma store_app f a xs ys :
  store_bytes (store_bytes f a xs) (a + Z.of_nat (length xs)) ys = store_bytes f a (xs ++ ys).
Proof.
  revert f a; induction xs as [|x xs IH]; intros f a; cbn [app length].
  { now rewrite Z.add_0_r. }
  rewrite !store_cons. replace (a + Z.of_nat (S (length xs))) with (a + 1 + Z.of_nat (length xs)) by lia.
  rewrite insert_store_commute by (unfold range; lia). now rewrite IH.
Qed.

Lemma load_app f a n k :
  load_bytes f a (n + k) = load_bytes f a n ++ load_bytes f (a + Z.of_nat n) k.
Proof.
  revert a; induction n as [|n IH]; intros a; cbn [Nat.add].
  { now rewrite Z.add_0_r. }
  change (load_bytes f a (S (n + k))) with (byte_at f a :: load_bytes f (a + 1) (n + k)).
  change (load_bytes f a (S n)) with (byte_at f a :: load_bytes f (a + 1) n).
  rewrite IH. cbn [app]. do 3 f_equal. lia.
Qed.

Lemma set_bytes_nil m a : set_bytes m a [] = m.
Proof. now destruct m. Qed.

(** ** Partial copies *)

Section Copy.
Context (m : memory) (dst buf : Z) (n : nat).
Context (Hd : mapped m dst (Z.of_nat n) = true) (Hb : mapped m buf (Z.of_nat n) = true).
Context (Hdis : disjoint_ranges dst (Z.of_nat n) buf (Z.of_nat n)).

(** The memory after the first [k] bytes. *)
Definition copied (k : nat) : memory := set_bytes m dst (load_bytes (mem_bytes m) buf k).

Lemma copied_load k j : (k + j <= n)%nat ->
  load_bytes (mem_bytes (copied k)) (buf + Z.of_nat k) j = load_bytes (mem_bytes m) (buf + Z.of_nat k) j.
Proof.
  intros Hk. unfold copied, set_bytes. cbn [mem_bytes]. apply load_store_disjoint.
  rewrite load_bytes_length. unfold disjoint_ranges in *. lia.
Qed.

Lemma copied_step k j : (k + j <= n)%nat ->
  set_bytes (copied k) (dst + Z.of_nat k) (load_bytes (mem_bytes m) (buf + Z.of_nat k) j) = copied (k + j).
Proof.
  intros Hk. unfold copied, set_bytes. cbn [mem_bytes mem_regions]. f_equal.
  rewrite load_app, <- store_app, load_bytes_length. reflexivity.
Qed.

Lemma copied_mapped k a j : mapped (copied k) a j = mapped m a j.
Proof. reflexivity. Qed.

Lemma copy_byte_eval k : mem_ok m -> (k < n)%nat ->
  copy_byte (dst + Z.of_nat k) (buf + Z.of_nat k) (copied k) = Ret tt (copied (k + 1)).
Proof.
  intros Hok Hk. unfold copy_byte.
  rewrite (cbind_Ret _ _ _ _ _ (read_uint_ok 1 (buf + Z.of_nat k) (copied k)
    ltac:(rewrite copied_mapped; eapply mapped_sub; [exact Hb | lia | lia]))).
  rewrite write_uint_ok by (rewrite copied_mapped; eapply mapped_sub; [exact Hd | lia | lia]).
  rewrite <- copied_step by lia. do 2 f_equal. unfold uint_at. rewrite copied_load by lia.
  rewrite <- (load_bytes_length (mem_bytes m) (buf + Z.of_nat k) 1) at 1.
  apply le_encode_decode, load_bytes_ok, Hok.
Qed.

Lemma copy_word_eval k : (k + 8 <= n)%nat ->
  (let* bs := read_bytes (Z.to_nat IPC_MEMCPY_BYTES_ALIGNED) (buf + Z.of_nat k) in
   write_bytes (dst + Z.of_nat k) bs) (copied k) = Ret tt (copied (k + 8)).
Proof.
  intros Hk. change (Z.to_nat IPC_MEMCPY_BYTES_ALIGNED) with 8%nat.
  rewrite (cbind_Ret _ _ _ _ _ (read_bytes_ok 8 (buf + Z.of_nat k) (copied k)
    ltac:(rewrite copied_mapped; eapply mapped_sub; [exact Hb | lia | lia]))).
  rewrite copied_load by lia. rewrite write_bytes_ok.
  - now rewrite copied_step by lia.
  - rewrite load_bytes_length, copied_mapped. eapply mapped_sub; [exact Hd | lia | lia].
Qed.

(** ** The three loops *)

Lemma copy_unaligned_eval io fuel : mem_ok m -> forall k,
  (k <= n)%nat -> (n - k <= fuel)%nat ->
  exists j, (k <= j <= n)%nat /\
    copy_unaligned io fuel (dst + Z.of_nat k) (buf + Z.of_nat k) (Z.of_nat (n - k)) (copied k)
      = Ret (dst + Z.of_nat j, buf + Z.of_nat j, Z.of_nat (n - j)) (copied j).
Proof.
  intros Hok. induction fuel as [|f IH]; intros k Hk Hf; cbn [copy_unaligned];
    destruct (negb _ && negb _) eqn:E.
  - apply andb_true_iff in E as [E _]. bool_to_prop. lia.
  - exists k. split; [lia | reflexivity].
  - apply andb_true_iff in E as [E _]. bool_to_prop.
    rewrite (cbind_Ret _ _ _ _ _ (copy_byte_eval k Hok ltac:(lia))).
    destruct (IH (k + 1)%nat) as (j & Hj & Ej); [lia | lia |]. exists j. split; [lia |].
    rewrite <- Ej. f_equal; lia.
  - exists k. split; [lia | reflexivity].
Qed.

Lemma copy_words_eval fuel : forall k,
  (k <= n)%nat -> (n - k <= fuel)%nat ->
  exists j, (k <= j <= n)%nat /\
    copy_words fuel (dst + Z.of_nat k) (buf + Z.of_nat k) (Z.of_nat (n - k)) (copied k)
      = Ret (dst + Z.of_nat j, buf + Z.of_nat j, Z.of_nat (n - j)) (copied j).
Proof.
  induction fuel as [|f IH]; intros k Hk Hf; cbn [copy_words]; unfold IPC_MEMCPY_BYTES_ALIGNED;
    (destruct (Z.leb_spec 8 (Z.of_nat (n - k))); [| exists k; split; [lia | reflexivity]]); [lia |].
  assert (E := copy_word_eval k ltac:(lia)). unfold IPC_MEMCPY_BYTES_ALIGNED in E.
  rewrite <- cbind_assoc, (cbind_Ret _ _ _ _ _ E).
  destruct (IH (k + 8)%nat) as (j & Hj & Ej); [lia | lia |]. exists j. split; [lia |].
  rewrite <- Ej. f_equal; lia.
Qed.

Lemma copy_rest_eval fuel : mem_ok m -> forall k,
  (k <= n)%nat -> (n - k <= fuel)%nat ->
  copy_rest fuel (dst + Z.of_nat k) (buf + Z.of_nat k) (Z.of_nat (n - k)) (copied k) = Ret tt (copied n).
Proof.
  intros Hok. induction fuel as [|f IH]; intros k Hk Hf; cbn [copy_rest];
    destruct (Z.eqb_spec (Z.of_nat (n - k)) 0) as [E | E]; cbn [negb].
  - now replace n with k by lia.
  - lia.
  - now replace n with k by lia.
  - rewrite (cbind_Ret _ _ _ _ _ (copy_byte_eval k Hok ltac:(lia))).
    rewrite <- (IH (k + 1)%nat) by lia. f_equal; lia.
Qed.

End Copy.

Lemma ipc_memcpy_eval io m dst buf count :
  mem_ok m -> 0 <= count -> mapped m dst count = true -> mapped m buf count = true ->
  disjoint_ranges dst count buf count ->
  ipc_memcpy io dst buf count m
    = Ret tt (set_bytes m dst (load_bytes (mem_bytes m) buf (Z.to_nat count))).
Proof.
  intros Hok Hc Hd Hb Hdis. unfold ipc_memcpy.
  assert (Hnz : forall a, mapped m a count = true -> (a =? NULL) = false).
  { intros a Ha. apply Z.eqb_neq. intros ->. discriminate Ha. }
  rewrite !Hnz by assumption. cbn [orb]. destruct (Z.eqb_spec count 0) as [-> | Hnz0].
  { cbn. now rewrite set_bytes_nil. }
  rewrite <- (Z2Nat.id count) in Hd, Hb, Hdis by lia. set (n := Z.to_nat count) in *.
  destruct (copy_unaligned_eval m dst buf n Hd Hb Hdis io n Hok 0) as (j1 & H1 & E1); [lia | lia |].
  rewrite !Z.add_0_r, Nat.sub_0_r in E1. unfold n at 2 in E1. rewrite Z2Nat.id in E1 by lia.
  change (copied m dst buf 0) with (set_bytes m dst []) in E1. rewrite set_bytes_nil in E1.
  rewrite (cbind_Ret _ _ _ _ _ E1).
  destruct (copy_words_eval m dst buf n Hd Hb Hdis n j1) as (j2 & H2 & E2); [lia | lia |].
  rewrite (cbind_Ret _ _ _ _ _ E2). now rewrite copy_rest_eval by (auto; lia).
Qed.

(** C37: the copy routines are memcpy.  For source and destination that are
    mapped and do not overlap, [ipc_memcpy_toio] and [ipc_memcpy_fromio] return
    for every count and alignment, and what they leave is the memory with the
    [count] bytes of the source stored at the destination; they do nothing when
    the destination, the source or the count is 0. *)
Theorem ipc_memcpy_is_memcpy m dst buf count :
  mem_ok m -> 0 <= count ->
  (mapped m dst count = true -> mapped m buf count = true -> disjoint_ranges dst count buf count ->
   let m' := set_bytes m dst (load_bytes (mem_bytes m) buf (Z.to_nat count)) in
   ipc_memcpy_toio dst buf count m = Ret tt m' /\ ipc_memcpy_fromio dst buf count m = Ret tt m') /\
  (dst = NULL \/ buf = NULL \/ count = 0 ->
   ipc_memcpy_toio dst buf count m = Ret tt m /\ ipc_memcpy_fromio dst buf count m = Ret tt m).
Proof.
  intros Hok Hc. split.
  - intros Hd Hb Hdis. split; now apply ipc_memcpy_eval.
  - intros H. unfold ipc_memcpy_toio, ipc_memcpy_fromio, ipc_memcpy.
    replace (_ || _) with true; [easy |]. symmetry. rewrite !orb_true_iff, !Z.eqb_eq. tauto.
Qed.

(** Five bytes from an odd address, and nine. *)
Lemma ipc_memcpy_is_memcpy_witness :
  let m := set_bytes (Memory [(0x1000, 64)] ∅) 0x1003 [1; 2; 3; 4; 5; 6; 7; 8; 9; 10; 11; 12; 13; 14; 15; 16; 17] in
  ipc_memcpy_toio 0x1021 0x1003 17 m
    = Ret tt (set_bytes m 0x1021 [1; 2; 3; 4; 5; 6; 7; 8; 9; 10; 11; 12; 13; 14; 15; 16; 17]).
Proof.
  intros m. assert (Hok : mem_ok m).
  { unfold m. apply set_bytes_ok; [| repeat constructor; lia].
    intros x. unfold byte_at. cbn [mem_bytes]. rewrite lookup_empty. cbn. lia. }
  destruct (ipc_memcpy_is_memcpy m 0x1021 0x1003 17 Hok ltac:(lia)) as [H _].
  destruct H as [E _]; [reflexivity | reflexivity | right; cbn; lia |]. exact E.
Defined.
