(* ===== verification/MessageSpec.v ===== *)
(** * Message numbers of the samples

    A sample writes the number of a message into its text and reads it back from
    the text it receives: the round trip, and the numbers it fails for. *)

From Stdlib Require Import String.
From S2P Require Import Prelude Memory World Shm ShmSpec SampleLib SampleEnv CopySpec.
From S2P Require Sample MultiSample XenSample XenDom0less UserSample MultiUserSample.
#[local] Open Scope Z_scope.

(** ** Numbers in memory *)

(** The bytes [cs] lie at [a]. *)
Definition text_at (m : memory) (a : Z) (cs : list Z) : Prop :=
  mapped m a (Z.of_nat (length cs)) = true /\ load_bytes (mem_bytes m) a (length cs) = cs.

Lemma text_at_cons m a c cs :
  text_at m a (c :: cs) ->
  read_uint 1 a m = Ret c m /\ (cs <> [] -> text_at m (a + 1) cs).
Proof.
  intros [Hm Hl]. cbn [length] in Hm, Hl. injection Hl as H1 H2. split.
  - unfold read_uint. rewrite (mapped_sub _ _ _ a (Z.of_nat 1) Hm) by lia.
    unfold uint_at. change (load_bytes (mem_bytes m) a 1) with [byte_at (mem_bytes m) a].
    rewrite H1. f_equal. cbv [le_decode]. lia.
  - intros _. split; [eapply mapped_sub; [exact Hm | lia | lia] | exact H2].
Qed.

Lemma text_at_app m a xs ys : text_at m a (xs ++ ys) -> text_at m (a + Z.of_nat (length xs)) ys.
Proof.
  intros [Hm Hl]. rewrite length_app in Hm, Hl. split; [eapply mapped_sub; [exact Hm | lia | lia] |].
  rewrite load_app in Hl. apply app_inj_1 in Hl as [_ H]; [exact H | apply load_bytes_length].
Qed.

Lemma text_at_prefix m a xs ys : text_at m a (xs ++ ys) -> text_at m a xs.
Proof.
  intros [Hm Hl]. rewrite length_app in Hm, Hl. split; [eapply mapped_sub; [exact Hm | lia | lia] |].
  rewrite load_app in Hl. apply app_inj_1 in Hl as [H _]; [exact H | apply load_bytes_length].
Qed.

Lemma text_at_fuel m a cs : text_at m a cs -> (length cs < scan_fuel m)%nat.
Proof.
  intros [Hm _]. apply (scan_fuel_enough m a). intros k Hk. eapply mapped_sub; [exact Hm | lia | lia].
Qed.

Lemma u32_step v d : u32 (u32 (u32 v * 10) + d) = u32 (v * 10 + d).
Proof.
  unfold u32. rewrite Zplus_mod_idemp_l, <- (Zplus_mod_idemp_l (v mod 2 ^ 32 * 10)).
  rewrite Zmult_mod_idemp_l, Zplus_mod_idemp_l. reflexivity.
Qed.

(** [ipc_strtol] reads the digits up to the first other character, modulo 2^32. *)
Lemma ipc_strtol_loop_eval m ds c : Forall (fun d => is_digit d = true) ds -> is_digit c = false ->
  forall fuel a v, (length ds < fuel)%nat -> text_at m a (ds ++ [c]) ->
  Sample.ipc_strtol_loop fuel a (u32 v) m
    = Ret (u32 (fold_left (fun v c => v * 10 + (c - 48)) ds v)) m.
Proof.
  intros Hds Hc. induction Hds as [|d ds Hd Hds IH]; intros [|fuel] a v Hf Ht; cbn [length] in Hf; try lia;
    cbn [Sample.ipc_strtol_loop app fold_left] in *; destruct (text_at_cons _ _ _ _ Ht) as [R Hn];
    rewrite (cbind_Ret _ _ _ _ _ R).
  - unfold is_digit in Hc. now rewrite Hc.
  - unfold is_digit in Hd. rewrite Hd, u32_step. apply IH; [lia | apply Hn]. now destruct ds.
Qed.

Lemma ipc_strtol_eval m a ds c :
  Forall (fun d => is_digit d = true) ds -> is_digit c = false -> text_at m a (ds ++ [c]) ->
  Sample.ipc_strtol a m = Ret (u32 (digits_value ds)) m.
Proof.
  intros Hds Hc Ht. apply (ipc_strtol_loop_eval m ds c Hds Hc (scan_fuel m) a 0); [| exact Ht].
  assert (H := text_at_fuel _ _ _ Ht). rewrite length_app in H. cbn in H. lia.
Qed.

Lemma read_digits_eval m ds c : Forall (fun d => is_digit d = true) ds -> is_digit c = false ->
  forall fuel a v, (length ds < fuel)%nat -> text_at m a (ds ++ [c]) ->
  read_digits fuel a v m = Ret (fold_left (fun v c => v * 10 + (c - 48)) ds v) m.
Proof.
  intros Hds Hc. induction Hds as [|d ds Hd Hds IH]; intros [|fuel] a v Hf Ht; cbn [length] in Hf; try lia;
    cbn [read_digits app fold_left] in *; destruct (text_at_cons _ _ _ _ Ht) as [R Hn];
    rewrite (cbind_Ret _ _ _ _ _ R).
  - now rewrite Hc.
  - rewrite Hd. apply IH; [lia | apply Hn]. now destruct ds.
Qed.

(** A digit is neither a space nor a sign. *)
Lemma digit_plain d : is_digit d = true -> is_space d = false /\ (d =? 45) = false /\ (d =? 43) = false.
Proof.
  unfold is_digit, is_space. intros H. bool_to_prop. split_and!; [| apply Z.eqb_neq; lia ..].
  apply orb_false_iff. rewrite andb_false_iff, !Z.leb_gt, Z.eqb_neq. lia.
Qed.

(** [strtol] reads them up to [LONG_MAX]. *)
Lemma strtol_eval m a ds c :
  ds <> [] -> Forall (fun d => is_digit d = true) ds -> is_digit c = false -> text_at m a (ds ++ [c]) ->
  strtol a m = Ret (Z.min (digits_value ds) LONG_MAX) m.
Proof.
  intros Hne Hds Hc Ht. destruct ds as [|d ds]; [easy |]. assert (Hd := Forall_inv Hds).
  destruct (digit_plain d Hd) as (Hsp & H1 & H2). destruct (text_at_cons _ _ _ _ Ht) as [R _].
  assert (Hf := text_at_fuel _ _ _ Ht). rewrite length_app in Hf. cbn [length] in Hf.
  unfold strtol. destruct (scan_fuel m) as [|f] eqn:Ef; [lia |].
  assert (Es : skip_while is_space (S f) a m = Ret a m).
  { cbn [skip_while]. rewrite (cbind_Ret _ _ _ _ _ R). now rewrite Hsp. }
  rewrite (cbind_Ret _ _ _ _ _ Es), (cbind_Ret _ _ _ _ _ R), H1, H2. cbn [orb].
  rewrite (cbind_Ret _ _ _ _ _ (read_digits_eval m (d :: ds) c Hds Hc (S f) a 0 ltac:(cbn; lia) Ht)).
  reflexivity.
Qed.

(** Text written is text there. *)
Lemma set_bytes_text m a cs n :
  mapped m a n = true -> Z.of_nat (length cs) <= n -> text_at (set_bytes m a cs) a cs.
Proof.
  intros Hm Hl. split; [rewrite mapped_set; eapply mapped_sub; [exact Hm | lia | lia] |].
  apply load_store_same.
Qed.

(** ** The kernel samples *)

(** The text of message [n] with the sender at the end. *)
Definition msg_text (who : list Z) (n : Z) : list Z :=
  chars "#" ++ fmt_d n ++ chars " HELLO WORLD! from " ++ who.

Lemma fmt_d_digits n :
  0 <= n < 2 ^ 31 -> Forall (fun d => is_digit d = true) (fmt_d n) /\ digits_value (fmt_d n) = n /\
  fmt_d n <> [].
Proof.
  intros Hn. unfold fmt_d. replace (n <? 0) with false by (symmetry; apply Z.ltb_ge; lia).
  destruct (digits_small 10 n) as (D & V & L); [change (10 ^ Z.of_nat 10) with 10000000000; lia | lia |].
  split_and!; auto. intros E. rewrite E in L. cbn in L. lia.
Qed.

Lemma fmt_d_length n d :
  0 <= n < 2 ^ 31 -> (0 < d <= 10)%nat ->
  (n < 10 ^ Z.of_nat d -> (length (fmt_d n) <= d)%nat) /\
  (10 ^ Z.of_nat d <= n -> (d < 10)%nat -> (d < length (fmt_d n))%nat).
Proof.
  intros Hn Hd. unfold fmt_d. replace (n <? 0) with false by (symmetry; apply Z.ltb_ge; lia). split.
  - intros Hlt. apply digits_length; lia.
  - intros Hge Hd'. apply digits_length_ge; lia.
Qed.

(** A text with the number of a message behind its first character reads back. *)
Lemma msg_text_reads m a who n :
  0 <= n < 2 ^ 31 -> text_at m a (msg_text who n) -> Sample.ipc_strtol (a + 1) m = Ret n m.
Proof.
  intros Hn Ht. destruct (fmt_d_digits n Hn) as (D & V & _).
  unfold msg_text in Ht. apply text_at_app in Ht. change (Z.of_nat (length (chars "#"))) with 1 in Ht.
  rewrite (ipc_strtol_eval m (a + 1) (fmt_d n) 32 D eq_refl).
  - now rewrite V, u32_small by lia.
  - apply (text_at_prefix _ _ _ (chars "HELLO WORLD! from " ++ who)). rewrite <- app_assoc. exact Ht.
Qed.

(** [gen] writes readable numbers below [limit] into the 32 bytes of a message
    buffer, touches nothing else, and overflows its local array from [limit] on. *)
Definition numbers_messages {P} (gen : Z -> Z -> Z -> M (world P) unit) (limit : Z) : Prop :=
  (forall w buf len n, 0 <= n < limit -> mapped (w_mem w) buf MAX_SAMPLE_MSG_LEN = true ->
     exists m', gen buf len n w = Ret tt (with_mem w m') /\
       same_except (range buf MAX_SAMPLE_MSG_LEN) (w_mem w) m' /\
       Sample.ipc_strtol (buf + 1) m' = Ret n m') /\
  (forall w buf len n, limit <= n < 2 ^ 31 -> gen buf len n w = Fault).

Lemma generate_numbers {P} (gen : Z -> Z -> Z -> M (world P) unit) who d :
  (0 < d < 10)%nat -> (length who + d = 11)%nat ->
  (forall w buf len n, 0 <= n < 2 ^ 31 ->
     gen buf len n w =
       if Z.of_nat (length (msg_text who n)) <? MAX_SAMPLE_MSG_LEN
       then on_mem (write_bytes buf (msg_text who n ++ [0])) w else Fault) ->
  numbers_messages gen (10 ^ Z.of_nat d).
Proof.
  intros Hd Hw Hg. unfold numbers_messages, MAX_SAMPLE_MSG_LEN in *.
  assert (Hl : forall n, length (msg_text who n) = (20 + length (fmt_d n) + length who)%nat).
  { intros n. unfold msg_text. rewrite !length_app. cbn. lia. }
  assert (H31 : 10 ^ Z.of_nat d <= 10 ^ 9) by (apply Z.pow_le_mono_r; lia).
  change (10 ^ 9) with 1000000000 in H31. split.
  - intros w buf len n Hn Hm. assert (Hn' : 0 <= n < 2 ^ 31) by lia.
    destruct (fmt_d_length n d Hn') as [HL _]; [lia |]. specialize (HL ltac:(lia)).
    rewrite Hg by exact Hn'. replace (_ <? 32) with true by (symmetry; apply Z.ltb_lt; rewrite Hl; lia).
    assert (Hlen : Z.of_nat (length (msg_text who n ++ [0])) <= 32) by (rewrite length_app, Hl; cbn; lia).
    exists (set_bytes (w_mem w) buf (msg_text who n ++ [0])). split_and!.
    + apply on_mem_Ret, write_bytes_ok. eapply mapped_sub; [exact Hm | lia | lia].
    + apply set_bytes_same_except. unfold range. intros x Hx. lia.
    + apply (msg_text_reads _ _ who); [exact Hn' |]. eapply text_at_prefix, set_bytes_text; eassumption.
  - intros w buf len n Hn. assert (Hn' : 0 <= n < 2 ^ 31) by lia.
    destruct (fmt_d_length n d Hn') as [_ HL]; [lia |]. specialize (HL ltac:(lia) ltac:(lia)).
    rewrite Hg by exact Hn'. replace (_ <? 32) with false; [reflexivity |].
    symmetry. apply Z.ltb_ge. rewrite Hl. lia.
Qed.

(** Formatting into the local array and copying it out; [strscpy] into 32 bytes
    does not cut a text that fits the array. *)
Lemma gen_strcpy {P} s text (w : world P) :
  (let* tmp := csprintf MAX_SAMPLE_MSG_LEN text in on_mem (strcpy s tmp)) w
    = if Z.of_nat (length text) <? MAX_SAMPLE_MSG_LEN
      then on_mem (write_bytes s (text ++ [0])) w else Fault.
Proof. unfold csprintf. now destruct (_ <? _). Qed.

Lemma gen_strscpy {P} s text (w : world P) :
  (let* tmp := csprintf MAX_SAMPLE_MSG_LEN text in on_mem (strscpy s tmp MAX_SAMPLE_MSG_LEN)) w
    = if Z.of_nat (length text) <? MAX_SAMPLE_MSG_LEN
      then on_mem (write_bytes s (text ++ [0])) w else Fault.
Proof.
  unfold csprintf. destruct (Z.ltb_spec (Z.of_nat (length text)) MAX_SAMPLE_MSG_LEN) as [H |]; [| reflexivity].
  rewrite cbind_cret. unfold strscpy, MAX_SAMPLE_MSG_LEN in *. cbn [Z.eqb]. now rewrite take_ge by lia.
Qed.

(** ** The user-space samples *)

(** [gen], whose local array is at [tmp], writes readable numbers below 10^7 into
    a message buffer of 32 bytes and touches nothing else. *)
Definition user_numbers {P} (gen : Z -> Z -> Z -> M (world P) unit) (tmp : Z) : Prop :=
  forall w dest n, mem_ok (w_mem w) -> 0 <= n < 10 ^ 7 ->
    mapped (w_mem w) tmp MAX_SAMPLE_MSG_LEN = true -> mapped (w_mem w) dest MAX_SAMPLE_MSG_LEN = true ->
    disjoint_ranges tmp MAX_SAMPLE_MSG_LEN dest MAX_SAMPLE_MSG_LEN ->
    exists m', gen dest MAX_SAMPLE_MSG_LEN n w = Ret tt (with_mem w m') /\
      same_except (fun x => range dest MAX_SAMPLE_MSG_LEN x \/ range tmp MAX_SAMPLE_MSG_LEN x) (w_mem w) m' /\
      strtol (dest + 1) m' = Ret n m'.

Lemma chars_bytes s : bytes_ok (chars s).
Proof.
  induction s as [|c s IH]; cbn [chars]; constructor; auto. assert (H := Ascii.nat_ascii_bounded c). lia.
Qed.

Lemma digits_bytes ds : Forall (fun d => is_digit d = true) ds -> bytes_ok ds.
Proof. intros H. eapply Forall_impl; [| exact H]. unfold is_digit. intros d Hd. bool_to_prop. lia. Qed.

(** The text and its length. *)
Lemma user_text n :
  0 <= n < 10 ^ 7 ->
  let t := UserSample.msg_text n in
  bytes_ok t /\ Z.of_nat (length t) < 32 /\
  exists rest, t = chars "#" ++ fmt_d n ++ [32] ++ rest.
Proof.
  intros Hn t. assert (Hn' : 0 <= n < 2 ^ 31) by lia. destruct (fmt_d_digits n Hn') as (D & _ & _).
  destruct (fmt_d_length n 7 Hn') as [HL _]; [lia |]. specialize (HL ltac:(lia)).
  unfold t, UserSample.msg_text. split_and!.
  - repeat apply Forall_app_2; [apply chars_bytes | now apply digits_bytes | apply chars_bytes].
  - rewrite !length_app. cbn. lia.
  - exists (chars "HELLO WORLD! FROM USER"). reflexivity.
Qed.

Lemma user_gen_numbers {P} tmp :
  user_numbers (P := P) (fun dest len n =>
    let* ret := on_mem (csnprintf tmp MAX_SAMPLE_MSG_LEN (u64 len) (UserSample.msg_text n)) in
    on_mem (UserSample.ipc_memcpy_toio dest tmp ret)) tmp.
Proof.
  intros w dest n Hok Hn Ht Hd Hdis. assert (Hn' : 0 <= n < 2 ^ 31) by lia.
  destruct (user_text n Hn) as (Hb & Hl & rest & Et). set (t := UserSample.msg_text n) in *.
  unfold MAX_SAMPLE_MSG_LEN in *. set (m1 := set_bytes (w_mem w) tmp (t ++ [0])).
  assert (E1 : csnprintf tmp 32 (u64 32) t (w_mem w) = Ret (Z.of_nat (length t)) m1).
  { unfold csnprintf. change (u64 32) with 32. cbn [Z.leb Z.compare]. rewrite take_ge by lia.
    rewrite length_app. cbn [length].
    replace (_ <? _) with false by (symmetry; apply Z.ltb_ge; lia).
    rewrite (cbind_Ret _ _ _ tt m1); [reflexivity |]. apply write_bytes_ok. rewrite length_app. cbn [length].
    eapply mapped_sub; [exact Ht | lia | lia]. }
  assert (Hm1 : mem_ok m1) by (apply set_bytes_ok; [exact Hok |]; apply Forall_app_2; [exact Hb |];
    repeat constructor; lia).
  assert (E2 : UserSample.ipc_memcpy_toio dest tmp (Z.of_nat (length t)) m1 = Ret tt (set_bytes m1 dest t)).
  { unfold UserSample.ipc_memcpy_toio. rewrite ipc_memcpy_eval; [| exact Hm1 | lia | ..].
    - rewrite Nat2Z.id. do 2 f_equal.
      assert (H := set_bytes_text (w_mem w) tmp (t ++ [0]) 32 Ht ltac:(rewrite length_app; cbn [length]; lia)).
      apply text_at_prefix in H as [_ H]. exact H.
    - unfold m1. rewrite mapped_set. eapply mapped_sub; [exact Hd | lia | lia].
    - unfold m1. rewrite mapped_set. eapply mapped_sub; [exact Ht | lia | lia].
    - unfold disjoint_ranges in *. lia. }
  exists (set_bytes m1 dest t). split_and!.
  - rewrite (cbind_Ret _ _ _ _ _ (on_mem_Ret _ _ _ _ E1)). exact (on_mem_Ret _ _ _ _ E2).
  - transitivity m1; apply set_bytes_same_except; intros x Hx; [right | left];
      revert Hx; unfold range; rewrite ?length_app; cbn [length]; lia.
  - destruct (fmt_d_digits n Hn') as (D & V & Hne).
    assert (HT := set_bytes_text m1 dest t 32 Hd ltac:(lia)). set (m2 := set_bytes m1 dest t) in *.
    rewrite Et in HT. apply text_at_app in HT. change (Z.of_nat (length (chars "#"))) with 1 in HT.
    rewrite app_assoc in HT. apply text_at_prefix in HT.
    rewrite (strtol_eval _ _ (fmt_d n) 32 Hne D eq_refl HT), V.
    rewrite Z.min_l by (unfold LONG_MAX; lia). reflexivity.
Qed.

(** C38: message numbers.  [generate_msg] of each kernel sample writes the number
    of a message so that [ipc_strtol], which the receiver calls on the text
    behind its first character, returns it, for numbers below 10^5 (below 10^7
    in the Xen samples) and within the 32 bytes of the buffer; from that limit
    on it overflows its local array.  In the user-space samples [strtol] returns
    the number written for every number below 10^7. *)
Theorem message_numbers_round_trip (P : Type) :
  numbers_messages (P := P) Sample.generate_msg (10 ^ 5) /\
  numbers_messages (P := P) MultiSample.generate_msg (10 ^ 5) /\
  numbers_messages (P := P) (XenSample.generate_msg XenSample.DOM0) (10 ^ 7) /\
  numbers_messages (P := P) XenDom0less.generate_msg (10 ^ 7) /\
  (forall loc, user_numbers (P := P) (UserSample.generate_msg loc) (UserSample.tmp_generate loc)) /\
  (forall loc, user_numbers (P := P) (MultiUserSample.generate_msg loc) (MultiUserSample.tmp_generate loc)).
Proof.
  split_and!;
    [apply (generate_numbers _ (chars "KERNEL") 5) | apply (generate_numbers _ (chars "KERNEL") 5)
    | apply (generate_numbers _ XenSample.DOM0 7) | apply (generate_numbers _ XenDom0less.DOMAIN 7)
    | intros loc; apply user_gen_numbers ..];
    try lia; try reflexivity; intros w buf len n Hn; first [apply gen_strcpy | apply gen_strscpy].
Qed.
