(* ===== verification/DemoLoop.v ===== *)
(** * What the demos have in common

    Every sample application has the same nest of loops: until all messages are
    sent, for every data channel, for every message size.  Here the nest is taken
    apart from what the applications do in it: [channels] and [sizes] read the
    bounds, [step i ch msg] sends message [msg] of size number [i] on channel
    [ch], [last] runs after the last message.

    What an application keeps in its static data is out of the driver's
    reach: the calls it makes change it only where they run its callbacks.  An
    observation [obs] of the platform state that the platform's own steps leave
    alone is left alone by acquire, send and receive-free calls of the driver. *)

From S2P Require Import Prelude Memory Types Queue World Shm SampleLib SampleEnv.
#[local] Open Scope Z_scope.

(** ** Driver calls and the data of the application *)

Section Keeps.
Context {P V : Type} `{PL : Platform P} (obs : P -> V).

(** A computation that leaves the observation as it was. *)
Definition keeps {A} (c : M (world P) A) : Prop :=
  forall w a w', c w = Ret a w' -> obs (w_plat w') = obs (w_plat w).

(** The platform calls behind the driver calls of a sender. *)
Class Undisturbed : Prop := {
  keeps_get_local i : keeps (on_plat (ipc_os_get_local_shm i));
  keeps_get_remote i : keeps (on_plat (ipc_os_get_remote_shm i));
  keeps_notify i : keeps (on_plat (ipc_hw_irq_notify i))
}.

Lemma keeps_bind {A B} (c : M (world P) A) (k : A -> M (world P) B) :
  keeps c -> (forall a, keeps (k a)) -> keeps (cbind c k).
Proof.
  intros Hc Hk w b w' E. apply cbind_inv in E as (a & w1 & E1 & E2).
  rewrite (Hk _ _ _ _ E2). exact (Hc _ _ _ E1).
Qed.

Lemma keeps_ret {A} (a : A) : keeps (cret a).
Proof. intros w b w' E. now apply cret_inv in E as [_ ->]. Qed.

Lemma keeps_fault {A} : keeps (cfault (A := A)).
Proof. intros w b w' E. discriminate E. Qed.

Lemma keeps_opt {A} (o : option A) : keeps (copt o).
Proof. destruct o; [apply keeps_ret | apply keeps_fault]. Qed.

Lemma keeps_mem {A} (c : M memory A) : keeps (on_mem c).
Proof.
  intros w a w' E. unfold on_mem, czoom in E. destruct (c (w_mem w)); [| discriminate E].
  now injection E as <- <-.
Qed.

Lemma keeps_priv i : keeps (get_priv i).
Proof. intros w a w' E. unfold get_priv in E. destruct (nthZ _ _); [| discriminate E]. now injection E as <- <-. Qed.

Lemma keeps_app {A} `{HasApp A P} : keeps app.
Proof. intros w a w' E. now injection E as <- <-. Qed.

Lemma keeps_upd {A} `{HasApp A P} f :
  (forall p, obs (set_app (f (get_app p)) p) = obs p) -> keeps (upd_app f).
Proof. intros Hf w a w' E. injection E as <- <-. apply Hf. Qed.

Lemma keeps_csprintf cap text : keeps (csprintf cap text).
Proof. unfold csprintf. destruct (_ <? _); [apply keeps_ret | apply keeps_fault]. Qed.

Lemma keeps_do_while fuel body again idle :
  keeps body -> keeps idle -> keeps (do_while fuel body again idle).
Proof.
  intros Hb Hi. induction fuel as [|k IH]; cbn [do_while]; [apply keeps_fault |].
  apply keeps_bind; [exact Hb |]. intros err. destruct (again err); [| apply keeps_ret].
  now apply keeps_bind.
Qed.

Lemma keeps_for {R} n : forall lo (body : Z -> M (world P) (unit + R)),
  (forall j, keeps (body j)) -> keeps (cfor n lo body).
Proof.
  induction n as [|n IH]; intros lo body Hb; cbn [cfor]; [apply keeps_ret |].
  apply keeps_bind; [apply Hb |]. intros [? | ?]; [auto | apply keeps_ret].
Qed.

End Keeps.

Create HintDb keeps.
#[export] Hint Resolve keeps_ret keeps_fault keeps_opt keeps_mem keeps_priv keeps_app keeps_csprintf
  keeps_get_local keeps_get_remote keeps_notify : keeps.

(** Split along the structure of a monadic term. *)
Ltac keep :=
  repeat first
    [ assumption
    | solve [auto 3 with keeps nocore]
    | apply keeps_bind; [| intros ?]
    | apply keeps_for; intros ?
    | apply keeps_do_while
    | match goal with |- keeps _ (if ?b then _ else _) => destruct b end
    | match goal with |- keeps _ (match ?x with _ => _ end) => destruct x end ].

Section Calls.
Context {P V : Type} `{PL : Platform P} (obs : P -> V) `{UD : !Undisturbed obs}.

Lemma keeps_find_pool n : forall ps id buf remote, keeps obs (find_pool_for_buf n ps id buf remote).
Proof. induction n as [|n IH]; intros; cbn [find_pool_for_buf]; keep. Qed.

Lemma keeps_acquire_pools ps : forall size, keeps obs (acquire_from_pools ps size).
Proof. induction ps as [|p ps IH]; intros; cbn [acquire_from_pools]; keep. Qed.

#[local] Hint Resolve keeps_find_pool keeps_acquire_pools : keeps.

Lemma keeps_acquire i ch size : keeps obs (ipc_shm_acquire_buf i ch size).
Proof.
  unfold ipc_shm_acquire_buf, ipc_shm_is_remote_ready, ipc_instance_is_free, global_state,
    get_managed_chan, get_channel, get_channel_priv, ipc_check_mchan_integrity. keep.
Qed.

Lemma keeps_tx i ch buf size : keeps obs (ipc_shm_tx i ch buf size).
Proof.
  unfold ipc_shm_tx, ipc_shm_is_remote_ready, ipc_instance_is_free, global_state,
    get_managed_chan, get_channel, get_channel_priv, ipc_check_mchan_integrity, udiv. keep.
Qed.

Lemma keeps_unmanaged_acquire i ch : keeps obs (ipc_shm_unmanaged_acquire i ch).
Proof.
  unfold ipc_shm_unmanaged_acquire, ipc_instance_is_free, global_state, ipc_check_uchan_local_integrity,
    get_unmanaged_chan, get_channel, get_channel_priv, ipc_check_uchan_integrity, umem_get, umem_set. keep.
Qed.

Lemma keeps_unmanaged_tx i ch : keeps obs (ipc_shm_unmanaged_tx i ch).
Proof.
  unfold ipc_shm_unmanaged_tx, ipc_shm_is_remote_ready, ipc_instance_is_free, global_state,
    get_unmanaged_chan, get_channel, get_channel_priv, ipc_check_uchan_integrity, umem_get, umem_set. keep.
Qed.

End Calls.

#[export] Hint Resolve keeps_acquire keeps_tx keeps_unmanaged_acquire keeps_unmanaged_tx : keeps.

(** ** The loops *)

Section Loops.
Context {St : Type} (channels sizes : M St Z) (step : Z -> Z -> Z -> M St Z) (last : M St unit).

Fixpoint size_loop (n : nat) (i ch msg num : Z) : M St (Z + Z) :=
  match n with
  | O => cret (inl msg)
  | S k =>
      let* err := step i ch msg in
      if negb (err =? 0) then cret (inr err) else
      if msg + 1 =? num then last ;;; cret (inr 0) else
      size_loop k (i + 1) ch (msg + 1) num
  end.

Fixpoint channel_loop (fuel : nat) (ch msg num : Z) : M St (Z + Z) :=
  let* c := channels in
  if negb (ch <? c) then cret (inl msg) else
  match fuel with
  | O => cfault
  | S k =>
      let* s := sizes in
      let* r := size_loop (Z.to_nat s) 0 ch msg num in
      match r with
      | inl msg => channel_loop k (ch + 1) msg num
      | inr v => cret (inr v)
      end
  end.

Fixpoint message_loop (fuel : nat) (msg num : Z) : M St Z :=
  if negb (msg <? num) then cret 0 else
  match fuel with
  | O => cfault
  | S k =>
      let* r := channel_loop 256 (CTRL_CHAN_ID + 1) msg num in
      match r with
      | inl msg => message_loop k msg num
      | inr v => cret v
      end
  end.

(** Messages [j], [j + 1], ..., [n] of them, over [C - 1] data channels and [A]
    sizes: the channel changes after every round of sizes.  Stops at the first
    error. *)
Fixpoint send_all (A C : Z) (n : nat) (j : Z) : M St Z :=
  match n with
  | O => cret 0
  | S k =>
      let* err := step (j mod A) (1 + (j / A) mod (C - 1)) j in
      if negb (err =? 0) then cret err else
      match k with
      | O => last ;;; cret 0
      | S _ => send_all A C k (j + 1)
      end
  end.

(** Rest of a loop once an inner loop has ended. *)
Definition resume (F : Z -> M St Z) (r : Z + Z) : M St Z :=
  match r with
  | inl msg => F msg
  | inr v => cret v
  end.

Context (Inv : St -> Prop) (A C num : Z).
Context (channels_inv : forall w, Inv w -> channels w = Ret C w).
Context (sizes_inv : forall w, Inv w -> sizes w = Ret A w).
Context (step_inv : forall i ch msg w w', Inv w -> step i ch msg w = Ret 0 w' -> Inv w').
Context (HC : 2 <= C <= 256) (HA : 1 <= A).
Abbreviation D := (C - 1).

(** Message number of size [i] of channel [c + 1] in round [s]. *)
Lemma schedule_index s c i :
  0 <= c < D -> 0 <= i < A -> let j := (s * D + c) * A + i in
  j mod A = i /\ 1 + (j / A) mod D = c + 1.
Proof.
  intros Hc Hi j. unfold j. rewrite Z.div_add_l, (Z.div_small i), Z.add_0_r by lia.
  split; [rewrite Z.add_comm, Z.mod_add by lia; now apply Z.mod_small |].
  rewrite Z.add_comm, (Z.add_comm (s * D)), Z.mod_add, Z.mod_small by lia. reflexivity.
Qed.

(** From a state of the demo: all messages from [j] on. *)
Definition sends (F : M St Z) (j : Z) : Prop :=
  forall w, Inv w -> F w = send_all A C (Z.to_nat (num - j)) j w.

Lemma send_one s c i w (K : M St Z) :
  0 <= c < D -> 0 <= i < A -> Inv w -> let j := (s * D + c) * A + i in
  j < num -> (j + 1 < num -> sends K (j + 1)) ->
  (let* err := step i (c + 1) j in
   if negb (err =? 0) then cret err else
   if j + 1 =? num then last ;;; cret 0 else K) w = send_all A C (Z.to_nat (num - j)) j w.
Proof.
  intros Hc Hi Hw j Hj HK. destruct (schedule_index s c i Hc Hi) as [E1 E2]. fold j in E1, E2.
  replace (Z.to_nat (num - j)) with (S (Z.to_nat (num - (j + 1)))) by lia. cbn [send_all].
  rewrite E1, E2. unfold cbind. destruct (step _ _ _ w) as [e w2 |] eqn:Es; [| reflexivity].
  destruct (Z.eqb_spec e 0) as [-> | _]; cbn [negb]; [| reflexivity].
  destruct (Z.eqb_spec (j + 1) num) as [<- | Hne].
  - now rewrite Z.sub_diag.
  - rewrite HK; [| lia | exact (step_inv _ _ _ _ _ Hw Es)].
    replace (Z.to_nat (num - (j + 1))) with (S (Z.to_nat (num - (j + 1) - 1))) by lia. reflexivity.
Qed.

Lemma sizes_send F s c : 0 <= c < D -> forall k i w,
  Z.of_nat k + i = A -> 0 <= i -> Inv w ->
  let j := (s * D + c) * A + i in let j' := (s * D + c) * A + A in
  j < num -> (j' < num -> sends (F j') j') ->
  (let* r := size_loop k i (c + 1) j num in resume F r) w = send_all A C (Z.to_nat (num - j)) j w.
Proof.
  intros Hc. induction k as [|k IH]; intros i w Hk Hi Hs j j' Hj HF.
  - cbn [size_loop]. rewrite cbind_cret. cbn [resume].
    assert (E : j = j') by (unfold j, j'; lia). rewrite E in *. now apply HF.
  - assert (E := send_one s c i w (let* r := size_loop k (i + 1) (c + 1) (j + 1) num in resume F r) Hc
                  ltac:(lia) Hs). cbv zeta in E. fold j in E. rewrite <- E; [| exact Hj |].
    + cbn [size_loop]. unfold cbind.
      destruct (step _ _ _ w) as [e w1 |]; [| reflexivity]. destruct (negb (e =? 0)); [reflexivity |].
      destruct (j + 1 =? num); [| reflexivity]. now destruct (last w1).
    + intros Hlt w' Hs'. replace (j + 1) with ((s * D + c) * A + (i + 1)) by (unfold j; lia).
      apply IH; auto; lia.
Qed.

Lemma channels_send F s : forall fuel c w,
  0 <= c <= D -> D - c <= Z.of_nat fuel -> Inv w ->
  let j := (s * D + c) * A in let j' := (s + 1) * D * A in
  j < num -> (j' < num -> sends (F j') j') ->
  (let* r := channel_loop fuel (c + 1) j num in resume F r) w = send_all A C (Z.to_nat (num - j)) j w.
Proof.
  induction fuel as [|fuel IH]; intros c w Hc Hf Hs j j' Hj HF; cbn [channel_loop];
    rewrite cbind_assoc, (cbind_Ret _ _ _ _ _ (channels_inv w Hs));
    (destruct (Z.ltb_spec (c + 1) C); cbn [negb]; [| rewrite cbind_cret; cbn [resume];
      assert (E : j = j') by (unfold j, j'; replace c with D by lia; ring); rewrite E in *; now apply HF]); [lia |].
  rewrite cbind_assoc, (cbind_Ret _ _ _ _ _ (sizes_inv w Hs)), cbind_assoc.
  transitivity ((let* r := size_loop (Z.to_nat A) 0 (c + 1) ((s * D + c) * A + 0) num in
                 resume (fun msg => let* r := channel_loop fuel (c + 1 + 1) msg num in resume F r) r) w).
  { rewrite Z.add_0_r. unfold cbind. fold j. destruct (size_loop _ _ _ _ _ w) as [[m | v] w1 |]; reflexivity. }
  assert (Ej : (s * D + c) * A + A = (s * D + (c + 1)) * A) by ring.
  rewrite (sizes_send _ s c); [unfold j; now rewrite Z.add_0_r | lia | lia | lia | exact Hs | lia |].
  rewrite Ej. intros Hlt w' Hs'. apply IH; auto; lia.
Qed.

Lemma loop_sends : forall fuel s w,
  0 <= s -> num - s * D * A <= Z.of_nat fuel -> Inv w ->
  message_loop fuel (s * D * A) num w = send_all A C (Z.to_nat (num - s * D * A)) (s * D * A) w.
Proof.
  induction fuel as [|fuel IH]; intros s w Hs0 Hf Hs; cbn [message_loop];
    (destruct (Z.ltb_spec (s * D * A) num); cbn [negb];
     [| now replace (Z.to_nat (num - s * D * A)) with 0%nat by lia]); [lia |].
  assert (E := channels_send (fun msg => message_loop fuel msg num) s 256 0 w ltac:(lia) ltac:(lia) Hs).
  cbv zeta in E. rewrite Z.add_0_r in E. rewrite <- E; [reflexivity | lia |].
  intros Hlt w' Hs'. apply IH; [lia | nia | exact Hs'].
Qed.

(** The nest of loops sends the messages in order and needs one turn of the outer
    loop per message at most. *)
Lemma message_loop_sends w :
  Inv w -> message_loop (Z.to_nat num) 0 num w = send_all A C (Z.to_nat num) 0 w.
Proof.
  intros Hw. assert (H := loop_sends (Z.to_nat num) 0 w ltac:(lia) ltac:(lia) Hw).
  now rewrite !Z.mul_0_l, Z.sub_0_r in H.
Qed.

End Loops.

(** ** Sequencing up to equal results *)

Lemma cbind_cong {S A B} (c c' : M S A) (k k' : A -> M S B) s :
  c s = c' s -> (forall a s', k a s' = k' a s') -> cbind c k s = cbind c' k' s.
Proof. intros E Hk. unfold cbind. rewrite E. destruct (c' s); auto. Qed.
