(* ===== verification/DemoSpec.v ===== *)
(** * The demos of the samples

    The loops of each application are the nest of [DemoLoop]; they send the
    messages 0, 1, 2, ... in order, going round the data channels and, on each,
    through the configured sizes. *)

From S2P Require Import Prelude Memory Types World Shm SampleLib SampleEnv DemoLoop.
From S2P Require Sample XenSample.
#[local] Open Scope Z_scope.

(** Waiting changes nothing of what the loops read. *)
Class WaitLaws {P V : Type} `{SampleWait P} (obs : P -> V) : Prop := {
  keeps_wait c : keeps obs (wait_for_completion_interruptible c);
  keeps_meanwhile : keeps obs meanwhile
}.
#[export] Hint Resolve keeps_wait keeps_meanwhile : keeps.

(** Two loops agree on a turn: follow it, case by case, to the recursive calls. *)
Ltac same_turn :=
  unfold cbind;
  repeat (first [reflexivity | solve [auto 2] | match goal with
    |- context [match ?x with _ => _ end] =>
      lazymatch x with context [match _ with _ => _ end] => fail | _ => destruct x end
    end]).

(** A demo announces itself, then runs the loops; what the loops read does not
    change under their feet. *)
Lemma demo_sends {P V : Type} (obs : P -> V) ctrl channels sizes step last A C n (w : world P) :
  keeps obs ctrl -> (forall i ch msg, keeps obs (step i ch msg)) ->
  (forall w', obs (w_plat w') = obs (w_plat w) -> channels w' = Ret C w' /\ sizes w' = Ret A w') ->
  2 <= C <= 256 -> 1 <= A ->
  (let* err := ctrl in
   if negb (err =? 0) then cret err else message_loop channels sizes step last (Z.to_nat n) 0 n) w
  = (let* err := ctrl in
     if negb (err =? 0) then cret err else send_all step last A C (Z.to_nat n) 0) w.
Proof.
  intros Kc Ks Hr HC HA. unfold cbind. destruct (ctrl w) as [err w1 |] eqn:E; [| reflexivity].
  destruct (negb _); [reflexivity |].
  apply (message_loop_sends _ _ _ _ (fun w' => obs (w_plat w') = obs (w_plat w))); auto.
  - intros w' H. apply (Hr w' H).
  - intros w' H. apply (Hr w' H).
  - intros i ch msg w' w2 H Es. rewrite (Ks _ _ _ _ _ _ Es). exact H.
  - exact (Kc _ _ _ E).
Qed.

(** ** The kernel sample *)

Module Kernel.
Import Sample.

(** What the loops read of the static data. *)
Definition view {P} `{HasApp ipc_sample_app P} (p : P) : Z * Z * list Z * Z :=
  let a := get_app p in (num_channels a, instance a, msg_sizes a, msg_sizes_argc a).

Section Demo.
Context {P : Type} `{PL : Platform P} `{HA : HasApp ipc_sample_app P} `{SK : SampleKernel P}.
Context `{AP : App P} `{SW : SampleWait P} `{UD : !Undisturbed (view (P := P))}.
Context `{WL : !WaitLaws (view (P := P))}.

(** One message. *)
Definition send_step (i ch msg : Z) : M (world P) Z :=
  let* a := app in
  let* size := copt (nthZ (msg_sizes a) i) in
  send_data_msg (instance a) size msg ch.

Definition channels : M (world P) Z := let* a := app in cret (num_channels a).
Definition sizes : M (world P) Z := let* a := app in cret (msg_sizes_argc a).

Lemma keeps_step i ch msg : keeps view (send_step i ch msg).
Proof. unfold send_step, send_data_msg, generate_msg. keep. Qed.

Lemma keeps_ctrl i : keeps view (send_ctrl_msg i).
Proof. unfold send_ctrl_msg. keep. Qed.

Lemma sizes_eq n : forall i ch msg num w,
  run_demo_sizes n i ch msg num w = size_loop send_step (cret tt) n i ch msg num w.
Proof.
  induction n as [|n IH]; intros; cbn [run_demo_sizes size_loop]; [reflexivity |].
  unfold send_step. same_turn.
Qed.

Lemma channels_eq fuel : forall ch msg num w,
  run_demo_channels fuel ch msg num w = channel_loop channels sizes send_step (cret tt) fuel ch msg num w.
Proof.
  induction fuel as [|k IH]; intros; cbn [run_demo_channels channel_loop]; unfold channels, sizes;
    rewrite (cbind_assoc app), !(cbind_Ret app _ w (get_app (w_plat w)) w eq_refl), cbind_cret;
    (destruct (negb _); [reflexivity |]); [reflexivity |].
  rewrite (cbind_assoc app), (cbind_Ret app _ w (get_app (w_plat w)) w eq_refl), cbind_cret.
  apply cbind_cong; [apply sizes_eq |]. intros [m | v] s; auto.
Qed.

Lemma loop_eq fuel : forall msg num w,
  run_demo_loop fuel msg num w = message_loop channels sizes send_step (cret tt) fuel msg num w.
Proof.
  induction fuel as [|k IH]; intros; cbn [run_demo_loop message_loop]; destruct (negb _); try reflexivity.
  apply cbind_cong; [apply channels_eq |]. intros [m | v] s; auto.
Qed.

(** C39: the demo of the kernel sample.  With at least one data channel and one
    message size, [run_demo n] is the same computation as announcing the demo on
    the control channel and then sending the messages 0 to n - 1 in order, message
    [j] with size number [j mod argc] on data channel
    [1 + (j / argc) mod (num_channels - 1)], up to the first error, which is
    returned: no message is skipped or repeated and the loops end with the last
    message. *)
Theorem run_demo_round_robin (w : world P) n :
  let a := get_app (w_plat w) in
  2 <= num_channels a <= 256 -> 1 <= msg_sizes_argc a ->
  run_demo n w =
    (let* err := send_ctrl_msg (instance a) in
     if negb (err =? 0) then cret err else
     send_all send_step (cret tt) (msg_sizes_argc a) (num_channels a) (Z.to_nat n) 0) w.
Proof.
  intros a Hch Hargc. unfold run_demo. rewrite (cbind_Ret app _ w a w eq_refl).
  etransitivity; [| apply (demo_sends view (send_ctrl_msg (instance a)) channels sizes send_step
                             (cret tt) (msg_sizes_argc a) (num_channels a) n w)].
  - apply cbind_cong; [reflexivity |]. intros err s. destruct (negb _); [reflexivity | apply loop_eq].
  - apply keeps_ctrl.
  - exact keeps_step.
  - intros w' E. unfold view in E. injection E as E1 E2 E3 E4. unfold channels, sizes.
    now rewrite !(cbind_Ret app _ w' (get_app (w_plat w')) w' eq_refl), E1, E4.
  - exact Hch.
  - exact Hargc.
Qed.

End Demo.
End Kernel.

(** ** The Xen samples *)

Module Xen.
Import XenSample.

Definition view {P} `{HasApp ipc_sample_app P} (p : P) : Z := num_channels (get_app p).

(** Replies are all in: as many messages received as sent. *)
Definition all_replied {P} `{HasApp ipc_sample_app P} (w : world P) : Prop :=
  num_rx_msg (get_app (w_plat w)) = num_tx_msg (get_app (w_plat w)).

Section Demo.
Context {P : Type} `{PL : Platform P} `{HA : HasApp ipc_sample_app P} `{HL : !HasAppLaws ipc_sample_app P}.
Context `{SK : SampleKernel P} `{AP : App P} `{SW : SampleWait P} `{UD : !Undisturbed (view (P := P))}.
Context `{WL : !WaitLaws (view (P := P))} (domain : list Z) (spin : nat).

(** One message, counted. *)
Definition send_step (i ch msg : Z) : M (world P) Z :=
  let* err := send_data_poll domain spin 0 MAX_SAMPLE_MSG_LEN msg ch in
  if negb (err =? 0) then cret err else
  let* a := app in
  upd_app (set_num_tx_msg (i32 (num_tx_msg a + 1))) ;;; cret 0.

Definition channels : M (world P) Z := let* a := app in cret (num_channels a).

Lemma keeps_count v : keeps view (upd_app (set_num_tx_msg v)).
Proof. apply keeps_upd. intros p. unfold view. now rewrite get_set_app. Qed.

Lemma keeps_ctrl_shm v : keeps view (upd_app (set_ctrl_shm v)).
Proof. apply keeps_upd. intros p. unfold view. now rewrite get_set_app. Qed.

#[local] Hint Resolve keeps_count keeps_ctrl_shm : keeps.

Lemma keeps_poll_step i ch msg : keeps view (send_step i ch msg).
Proof. unfold send_step, send_data_poll, acquire_poll, generate_msg. keep. Qed.

Lemma keeps_poll_ctrl i : keeps view (send_ctrl_msg i).
Proof. unfold send_ctrl_msg. keep. Qed.

Lemma poll_channels_eq fuel : forall ch msg num w,
  run_demo_poll_channels domain spin fuel ch msg num w
    = channel_loop channels (cret 1) send_step (poll_replies spin) fuel ch msg num w.
Proof.
  induction fuel as [|k IH]; intros; cbn [run_demo_poll_channels channel_loop]; unfold channels;
    rewrite (cbind_assoc app), !(cbind_Ret app _ w (get_app (w_plat w)) w eq_refl), cbind_cret;
    (destruct (negb _); [reflexivity |]); [reflexivity |].
  rewrite cbind_cret. change (Z.to_nat 1) with 1%nat. cbn [size_loop]. unfold send_step, cbind.
  destruct (send_data_poll _ _ _ _ _ _ w) as [err w1 |]; [| reflexivity].
  destruct (negb (err =? 0)) eqn:He; cbn; [now rewrite He |]. destruct (msg + 1 =? num); [| apply IH].
  now destruct (poll_replies _ _).
Qed.

Lemma poll_loop_eq fuel : forall msg num w,
  run_demo_poll_loop domain spin fuel msg num w
    = message_loop channels (cret 1) send_step (poll_replies spin) fuel msg num w.
Proof.
  induction fuel as [|k IH]; intros; cbn [run_demo_poll_loop message_loop]; destruct (negb _); try reflexivity.
  apply cbind_cong; [apply poll_channels_eq |]. intros [m | v] s; auto.
Qed.

(** Polling stops only when every message has its reply. *)
Lemma poll_replies_done w w' : poll_replies spin w = Ret tt w' -> all_replied w'.
Proof.
  unfold poll_replies. revert w. induction spin as [|k IH]; intros w E; cbn [while_do] in E;
    rewrite cbind_assoc, (cbind_Ret app _ w (get_app (w_plat w)) w eq_refl), cbind_cret in E;
    destruct (Z.eqb_spec (num_tx_msg (get_app (w_plat w))) (num_rx_msg (get_app (w_plat w)))) as [Et | _];
    cbn [negb] in E; try (apply cret_inv in E as [_ ->]; now unfold all_replied).
  - discriminate E.
  - apply cbind_inv in E as (? & w1 & _ & E). apply cbind_inv in E as (? & w2 & _ & E). exact (IH _ E).
Qed.

Lemma sent_all_replied C n : forall j w w',
  (0 < n)%nat -> send_all send_step (poll_replies spin) 1 C n j w = Ret 0 w' -> all_replied w'.
Proof.
  induction n as [|n IH]; intros j w w' Hn R; [lia |]. cbn [send_all] in R.
  apply cbind_inv in R as (err & w1 & _ & R). destruct (Z.eqb_spec err 0) as [-> | Hne]; cbn [negb] in R;
    [| apply cret_inv in R as [? _]; congruence].
  destruct n as [|n]; [| apply (IH _ _ _ ltac:(lia) R)].
  apply cbind_inv in R as ([] & w2 & R1 & R2). apply cret_inv in R2 as [_ ->].
  exact (poll_replies_done _ _ R1).
Qed.

(** C40: the demo of the Xen samples.  With at least one data channel,
    [run_demo_poll n] is the same computation as announcing the demo and then
    sending the messages 0 to n - 1 in order over the data channels in turn,
    counting each, up to the first error, and polling for the replies after the
    last one; it returns 0 only when as many messages were received as were
    sent. *)
Theorem run_demo_poll_all_replied (w : world P) n :
  let C := num_channels (get_app (w_plat w)) in
  2 <= C <= 256 ->
  run_demo_poll domain spin n w =
    (let* err := send_ctrl_msg 0 in
     if negb (err =? 0) then cret err else
     send_all send_step (poll_replies spin) 1 C (Z.to_nat n) 0) w /\
  (0 < n -> forall w', run_demo_poll domain spin n w = Ret 0 w' -> all_replied w').
Proof.
  intros C HC.
  assert (E : run_demo_poll domain spin n w =
    (let* err := send_ctrl_msg 0 in
     if negb (err =? 0) then cret err else
     send_all send_step (poll_replies spin) 1 C (Z.to_nat n) 0) w).
  { unfold run_demo_poll.
    etransitivity; [| apply (demo_sends view (send_ctrl_msg 0) channels (cret 1) send_step
                               (poll_replies spin) 1 C n w)].
    - apply cbind_cong; [reflexivity |]. intros err s. destruct (negb _); [reflexivity | apply poll_loop_eq].
    - apply keeps_poll_ctrl.
    - exact keeps_poll_step.
    - intros w' E. unfold view in E. unfold channels.
      now rewrite (cbind_Ret app _ w' (get_app (w_plat w')) w' eq_refl), E.
    - exact HC.
    - lia. }
  split; [exact E |]. intros Hn w' R. rewrite E in R.
  apply cbind_inv in R as (err & w1 & _ & R). destruct (Z.eqb_spec err 0) as [-> | Hne]; cbn [negb] in R;
    [| apply cret_inv in R as [? _]; congruence].
  exact (sent_all_replied C (Z.to_nat n) 0 w1 w' ltac:(lia) R).
Qed.

End Demo.
End Xen.
