(* ===== verification/SampleSystem.v ===== *)
(** * The samples on a concrete system

    The kernel sample with its S32G2 configuration over the simulated kernel of
    [System], and a peer that runs the same driver and echoes every message.
    Waiting for a reply lets the peer work, then the local softirq.  The Xen
    sample runs over the same kernel with the same peer. *)

From S2P Require Import Prelude Memory Types Queue QueueSpec World Shm ShmSpec Mscm Router.
From S2P Require S32gen1.
From S2P Require Import KernelOs KernelSpec System SampleLib SampleEnv Sample DemoLoop DemoSpec.
From S2P Require CfgSample XenSample.
#[local] Open Scope Z_scope.

(** ** The kernel with the module's data *)

Record skern (D : Type) : Type := SKern {
  sk_sim : sim;
  sk_app : D;
  sk_done : Z                  (* completions signalled *)
}.
Arguments SKern {D}.
Arguments sk_sim {D}.
Arguments sk_app {D}.
Arguments sk_done {D}.

Section Data.
Context {D : Type}.

Definition on_sim {A} : M sim A -> M (skern D) A :=
  czoom sk_sim (fun s k => SKern s (sk_app k) (sk_done k)).
Definition on_sim_mem {A} : M (memory * sim) A -> M (memory * skern D) A :=
  czoom (fun s => (s.1, sk_sim s.2)) (fun t s => (t.1, SKern t.2 (sk_app s.2) (sk_done s.2))).

#[export] Instance skern_kernel : Kernel (skern D) := {
  KernelOs.request_mem_region a n := on_sim (KernelOs.request_mem_region a n);
  KernelOs.release_mem_region a n := on_sim (KernelOs.release_mem_region a n);
  KernelOs.ioremap a n := on_sim_mem (KernelOs.ioremap a n);
  KernelOs.iounmap a := on_sim_mem (KernelOs.iounmap a);
  KernelOs.of_find_compatible_node := on_sim KernelOs.of_find_compatible_node;
  KernelOs.of_node_put n := on_sim (KernelOs.of_node_put n);
  KernelOs.of_irq_get n i := on_sim (KernelOs.of_irq_get n i);
  KernelOs.of_address_to_resource n := on_sim (KernelOs.of_address_to_resource n);
  KernelOs.request_irq n := on_sim (KernelOs.request_irq n);
  KernelOs.free_irq n := on_sim (KernelOs.free_irq n);
  KernelOs.tasklet_schedule := on_sim KernelOs.tasklet_schedule;
  KernelOs.tasklet_kill := on_sim KernelOs.tasklet_kill;
  KernelOs.bus_read n a := on_sim (KernelOs.bus_read n a);
  KernelOs.bus_write n a v := on_sim (KernelOs.bus_write n a v)
}.

Abbreviation splat := (kplat ipc_hw_priv_type (skern D)).

#[export] Instance splat_app : HasApp D splat := {
  get_app p := sk_app (kp_kern p);
  set_app a p := KPlat (kp_hw p) (kp_os p) (SKern (sk_sim (kp_kern p)) a (sk_done (kp_kern p)))
}.

#[export] Instance splat_app_laws : HasAppLaws D splat.
Proof. split; [reflexivity | reflexivity |]. now intros [? ? [? ? ?]]. Qed.

Definition set_done (f : Z -> Z) (w : world splat) : world splat :=
  let p := w_plat w in let k := kp_kern p in
  World (w_mem w) (w_priv w) (KPlat (kp_hw p) (kp_os p) (SKern (sk_sim k) (sk_app k) (f (sk_done k)))).

(** sysfs objects are created without error; numbers are given in decimal. *)
#[export] Instance splat_kernel : SampleKernel splat := {
  complete _ := cmodify (set_done Z.succ);
  init_completion _ := cmodify (set_done (fun _ => 0));
  kobject_create_and_add _ := cret 1;
  kobject_put _ := cret tt;
  sysfs_create_file _ _ := cret 0;
  kstrtoint s _ := (0, digits_value s);
  request_mem_region a n := KernelOs.on_kern (KernelOs.request_mem_region a n);
  release_mem_region a n := KernelOs.on_kern (KernelOs.release_mem_region a n);
  ioremap a n := KernelOs.on_mem_kern (KernelOs.ioremap a n);
  iounmap a := KernelOs.on_mem_kern (KernelOs.iounmap a)
}.

(** ** The platform leaves the data of the module alone *)

(** A step of the platform that does not change the module's data. *)
Definition quiet {A} (c : M (memory * splat) A) : Prop :=
  forall s a s', c s = Ret a s' -> sk_app (kp_kern s'.2) = sk_app (kp_kern s.2).

Lemma quiet_ret {A} (a : A) : quiet (cret a).
Proof. intros s b s' E. now apply cret_inv in E as [_ ->]. Qed.

Lemma quiet_bind {A B} (c : M (memory * splat) A) (k : A -> M (memory * splat) B) :
  quiet c -> (forall a, quiet (k a)) -> quiet (cbind c k).
Proof.
  intros Hc Hk s b s' E. apply cbind_inv in E as (a & s1 & E1 & E2).
  rewrite (Hk _ _ _ _ E2). exact (Hc _ _ _ E1).
Qed.

Lemma quiet_gets {A} (f : memory * splat -> option A) :
  quiet (fun s => match f s with Some a => Ret a s | None => Fault end).
Proof. intros s b s' E. destruct (f s); [now injection E as <- <- | discriminate E]. Qed.

Lemma quiet_keeps {V A} (f : D -> V) (c : M (memory * splat) A) :
  quiet c -> keeps (fun p => f (get_app p)) (on_plat c).
Proof.
  intros Hc w a w' E. unfold on_plat, czoom in E. destruct (c _) as [b t |] eqn:Ec; [| discriminate E].
  injection E as <- <-. cbn. now rewrite (Hc _ _ _ Ec).
Qed.

Lemma quiet_get_os i : quiet (get_os i).
Proof. exact (quiet_gets (fun s => nthZ (kp_os s.2) i)). Qed.

Lemma quiet_reg base sz n i : quiet (reg_array base sz n i).
Proof. unfold reg_array. destruct (_ && _); [apply quiet_ret | intros s a s' E; discriminate E]. Qed.

Lemma quiet_notify i : quiet (S32gen1.ipc_hw_irq_notify i).
Proof.
  unfold S32gen1.ipc_hw_irq_notify, router_irq_notify, raise_irq, ircp_reg, writel, io_write.
  apply quiet_bind; [exact (quiet_gets (fun s => nthZ (kp_hw s.2) i)) |]. intros h.
  destruct (negb _); [| apply quiet_ret]. apply quiet_bind.
  - apply quiet_bind; intros; apply quiet_reg.
  - intros r s a s' E. destruct (mapped _ _ _); [| discriminate E]. now injection E as <- <-.
Qed.

#[export] Instance splat_undisturbed {V} (f : D -> V) : Undisturbed (P := splat) (fun p => f (get_app p)).
Proof.
  split; intros i.
  - apply quiet_keeps, quiet_bind; [apply quiet_get_os | intros; apply quiet_ret].
  - apply quiet_keeps, quiet_bind; [apply quiet_get_os | intros; apply quiet_ret].
  - apply quiet_keeps, quiet_notify.
Qed.

End Data.
Abbreviation splat_of D := (kplat ipc_hw_priv_type (skern D)).
Abbreviation splat := (splat_of ipc_sample_app).

(** ** Local end *)

Definition CTRL_CB : Z := 0x7000.
Definition DATA_CB : Z := 0x7100.
Definition CB_ARG : Z := 0x8000.
Definition sample_cfg : ipc_shm_instances_cfg :=
  CfgSample.s32g2_ipcf_shm_instances_cfg CTRL_CB DATA_CB CB_ARG.

#[export] Instance splat_rx : App splat := {
  managed_rx_cb f arg i ch buf size := data_chan_rx_cb CB_ARG arg i ch buf size;
  unmanaged_rx_cb f arg i ch mem := ctrl_chan_rx_cb CB_ARG arg i ch mem
}.

(** ** The peer: it copies a message to a buffer of its own and sends it back *)

Definition ECHO_CB : Z := 0x7200.
Definition peer_channels : list ipc_shm_channel_cfg := [
  ChannelUnmanaged (UnmanagedCfg 64 ECHO_CB 0);
  ChannelManaged (ManagedCfg 3 (Some [PoolCfg 5 32; PoolCfg 5 256; PoolCfg 5 4096]) ECHO_CB 0);
  ChannelManaged (ManagedCfg 3 (Some [PoolCfg 5 32; PoolCfg 5 256; PoolCfg 5 4096]) ECHO_CB 0) ].
Definition peer_cfg : ipc_shm_cfg :=
  ShmCfg 0x34200000 0x34100000 0x100000 1 2 (LocalCore IPC_CORE_A53 IPC_CORE_INDEX_1 0x3)
    (RemoteCore IPC_CORE_A53 IPC_CORE_INDEX_0) 3 (Some peer_channels).

#[local] Instance echo_app : App plat := {
  managed_rx_cb f arg i ch buf size :=
    let* out := ipc_shm_acquire_buf i ch size in
    let* bs := on_mem (read_bytes (Z.to_nat size) buf) in
    on_mem (write_bytes out bs) ;;;
    let* _ := ipc_shm_release_buf i ch buf in
    let* _ := ipc_shm_tx i ch out size in cret tt;
  unmanaged_rx_cb f arg i ch mem := cret tt
}.

(** ** Both ends up *)

Definition sample_reset : splat :=
  KPlat (replicate 4 hw_priv_zero) (replicate 4 KernelOs.os_priv_zero) (SKern (Sim 0 [] [] []) app_zero 0).

(** The peer starts on the memory the module found, then the module; both work on
    one address map. *)
Definition peer_boot : world plat :=
  match ipc_shm_init (Some (InstancesCfg 1 [peer_cfg])) (power_on 1 blank) with
  | Ret _ w => w
  | Fault => power_on 1 blank
  end.

(** The peer handles what is in the shared memory; then the local softirq runs. *)
Definition peer_turn (m : memory) : memory :=
  match ipc_shm_rx 0 128 (World m (w_priv peer_boot) (w_plat peer_boot)) with
  | Ret _ w => w_mem w
  | Fault => m
  end.
Definition serve (w : world splat) : world splat :=
  match ipc_shm_rx 0 128 (World (peer_turn (w_mem w)) (w_priv w) (w_plat w)) with
  | Ret _ w' => w'
  | Fault => w
  end.

#[export] Instance splat_wait : SampleWait splat := {
  wait_for_completion_interruptible _ w :=
    let w' := serve w in
    let p := w_plat w' in let k := kp_kern p in
    Ret 0 (World (w_mem w') (w_priv w')
             (KPlat (kp_hw p) (kp_os p)
                (SKern (sk_sim k) (set_last_rx_no_msg (last_rx_no_msg (sk_app k)) (get_app (w_plat w)))
                   (sk_done k - 1))));
  meanwhile := cret tt
}.

Definition module_loaded : outcome (world splat) Z :=
  sample_mod_init sample_cfg 1 (World (w_mem peer_boot) priv_data_zero sample_reset).

#[export] Instance splat_view : Undisturbed (P := splat) Kernel.view :=
  splat_undisturbed (fun a => (num_channels a, instance a, msg_sizes a, msg_sizes_argc a)).

#[export] Instance splat_wait_laws : WaitLaws (P := splat) Kernel.view.
Proof.
  split.
  - intros c w a w' E. cbn [wait_for_completion_interruptible splat_wait] in E.
    generalize dependent (serve w). intros w1 E. injection E as <- <-. reflexivity.
  - exact (keeps_ret _ tt).
Qed.

(** ** The Xen sample: as above, without interrupts *)

Abbreviation xplat := (splat_of XenSample.ipc_sample_app).

Definition xen_cfg : ipc_shm_instances_cfg :=
  InstancesCfg 1 [ShmCfg 0x34100000 0x34200000 0x100000 IPC_IRQ_NONE IPC_IRQ_NONE
    (LocalCore IPC_CORE_A53 IPC_CORE_INDEX_0 0x3) (RemoteCore IPC_CORE_A53 IPC_CORE_INDEX_1) 3
    (Some (CfgSample.s32g2_ipcf_shm_cfg_channels CTRL_CB DATA_CB CB_ARG))].

#[export] Instance xplat_rx : App xplat := {
  managed_rx_cb f arg i ch buf size := XenSample.data_chan_rx_cb CB_ARG arg i ch buf size;
  unmanaged_rx_cb f arg i ch mem := XenSample.ctrl_chan_rx_cb CB_ARG arg i ch mem
}.

(** The peer works while the module waits. *)
#[export] Instance xplat_wait : SampleWait xplat := {
  wait_for_completion_interruptible _ := cret 0;
  meanwhile := on_mem (fun m => Ret tt (peer_turn m))
}.

#[export] Instance xplat_view : Undisturbed (P := xplat) Xen.view :=
  splat_undisturbed XenSample.num_channels.

#[export] Instance xplat_wait_laws : WaitLaws (P := xplat) Xen.view.
Proof. split; [intros c; exact (keeps_ret _ 0) | apply keeps_mem]. Qed.

Definition xen_reset : xplat :=
  KPlat (replicate 4 hw_priv_zero) (replicate 4 KernelOs.os_priv_zero)
    (SKern (Sim 0 [] [] []) XenSample.app_zero 0).

Definition xen_loaded : outcome (world xplat) Z :=
  XenSample.sample_mod_init XenSample.DOM0_MODULE_NAME xen_cfg 1
    (World (w_mem peer_boot) priv_data_zero xen_reset).
