(* ===== verification/Witness.v ===== *)
(** * The theorems on a concrete system

    Every theorem with hypotheses is applied to the system of [System], whose
    two ends were brought up by the driver itself. *)

From S2P Require Import Prelude Memory Types Queue QueueSpec World Shm ShmSpec Traffic Delivery.
From S2P Require Import Ownership RxLoop Unmanaged Init Mscm Router.
From S2P Require S32gen1.
From S2P Require Import HwSpec KernelOs KernelSpec System.

#[local] Open Scope Z_scope.

#[export] Instance sim_bus : BusLaws sim.
Proof. split; intros; cbn; eauto. Qed.

#[export] Existing Instance gen1_laws.

(** Address ranges of concrete queues and buffers do not meet. *)
Ltac apart_rings :=
  intros x; unfold in_rings, range, ring_bytes, local_buf, RING_SIZE; cbn -[Z.add Z.mul Z.le Z.lt]; lia.

(** ** The channel of the two ends *)

Ltac by_compute := vm_compute; intuition discriminate.

Lemma live_shape m q :
  mem_regions m = mem_regions live_mem -> q = bd_queue (ch_mng chan_A) \/ q = pool_bd_queue pool_A ->
  link_shape m (tx_link q).
Proof.
  intros H [-> | ->]; (constructor; try (cbn; lia); unfold mapped; rewrite ?H; try reflexivity);
    (left; vm_compute; discriminate).
Qed.

(** The queue [q] is in order in the concrete memory. *)
Ltac queue_in_order q :=
  constructor; [constructor | constructor | |]; try (apply live_shape; vm_compute; auto; fail);
  try (apply (link_shape_mirror _ q), live_shape; vm_compute; auto; fail); by_compute.

Ltac chan_in_order :=
  constructor; [by_compute | reflexivity | queue_in_order (bd_queue (ch_mng chan_A)) | reflexivity |];
  constructor; [| constructor]; constructor; [queue_in_order (pool_bd_queue pool_A) | by_compute ..].

Lemma live_chan : mchan_wf live_mem (ch_mng chan_A).
Proof. chan_in_order. Qed.

Lemma operational_A : operational world_A 0 inst_A.
Proof.
  constructor; [constructor; by_compute | | by_compute ..].
  split; [| now eexists]. exists hw_A. split; [by_compute |]. split; [constructor; by_compute | by_compute].
Qed.

(** The driver brings both ends up: initialisation returns 0 on each. *)
Example both_ends_boot :
  match boot_B with
  | Some w => uint_at 8 (w_mem w) BASE_A =? IPC_SHM_STATE_READY
  | None => false
  end = true.
Proof. vm_compute. reflexivity. Qed.

Lemma managed_A : has_managed inst_A (u8 0) (ch_mng chan_A).
Proof. constructor; [by_compute |]. exists chan_A. by_compute. Qed.

Lemma apart_A : pools_apart local_pool_addr (active_pools (ch_mng chan_A)).
Proof. intros [|[|i]] [|[|j]] p q Hp Hq Hne; try discriminate; lia. Qed.

(** ** Traffic *)

Lemma ipc_shm_tx_queues_descriptor_witness :
  exists w', ipc_shm_tx 0 0 (local_buf pool_A 1) 10 world_A = Ret 0 w' /\
    contents (w_mem w') (tx_link (bd_queue (ch_mng chan_A))) = [bd_encode (BD 0 1 10)].
Proof.
  assert (H := ipc_shm_tx_queues_descriptor world_A 0 0 inst_A (ch_mng chan_A) 0 1 pool_A 10
            operational_A managed_A live_chan apart_A
            ltac:(by_compute) ltac:(by_compute) ltac:(by_compute) ltac:(discriminate)).
  cbv zeta in H. destruct (decide _) as [Hd | Hd] in H.
  - destruct H as (w' & E & _ & C & _). exists w'. split; [exact E |]. rewrite C. by_compute.
  - exfalso. apply Hd. by_compute.
Defined.

Lemma ipc_shm_acquire_buf_first_fit_witness :
  exists m', ipc_shm_acquire_buf 0 0 12 world_A = Ret (local_buf pool_A 0) (with_mem world_A m').
Proof.
  destruct (ipc_shm_acquire_buf_first_fit world_A 0 0 inst_A (ch_mng chan_A) 12 (BD 0 0 0)
              [bd_encode (BD 0 1 0)] [] pool_A [] operational_A managed_A live_chan)
    as (m' & E & _); [by_compute | discriminate | constructor | by_compute .. |].
  exists m'. exact E.
Defined.

(** ** Delivery *)

Lemma peer_AB : peer_chan (ch_mng chan_A) (ch_mng chan_B).
Proof. constructor; [by_compute | by_compute |]. repeat constructor. Qed.

Lemma live_chan_B m : mchan_wf m (ch_mng chan_A) -> mchan_wf m (ch_mng chan_B).
Proof.
  intros [H1 H2 H3 H4 H5]. constructor; [by_compute | reflexivity | | reflexivity |].
  - exact (queue_wf_mirror _ _ H3).
  - inversion H5 as [|p ps Hp _]; subst. constructor; [| constructor].
    constructor; [| by_compute ..]. exact (queue_wf_mirror _ _ (pw_queue _ _ Hp)).
Qed.

Lemma ready_B w :
  w_priv w = priv_B -> w_plat w = plat_B -> mem_regions (w_mem w) = mem_regions live_mem ->
  mchan_wf (w_mem w) (ch_mng chan_A) -> chan_ready w 0 0 inst_B chan_B.
Proof.
  intros Ep El Er Hw. constructor; rewrite ?Ep, ?El, ?Er; [by_compute | | by_compute | by_compute | |].
  - split; [| now eexists]. exists hw_B. split; [by_compute |]. split; [constructor; by_compute | by_compute].
  - now apply live_chan_B.
  - constructor.
    + constructor; [| constructor]. apart_rings.
    + intros [|[|i]] [|[|j]] p q Hp Hq Hne; try discriminate; lia.
Qed.

Lemma records_B : cb_records 0 0 inst_B chan_B log_of.
Proof.
  intros w buf size [H1 H2 H3 H4 H5 H6].
  exists (World (w_mem w) (w_priv w) (log_msg buf size (w_plat w))).
  split; [reflexivity |]. split; [constructor; auto |]. auto.
Qed.

(** Buffer 1 sent by A. *)
Definition ex_sent : world plat :=
  match ipc_shm_tx 0 0 (local_buf pool_A 1) 10 world_A with Ret _ w => w | Fault => world_A end.

Definition ex_receiver : world plat := World (w_mem ex_sent) priv_B plat_B.

Lemma ex_receiver_ready : chan_ready ex_receiver 0 0 inst_B chan_B.
Proof. apply ready_B; [reflexivity | reflexivity | vm_compute; reflexivity | chan_in_order]. Qed.

(** It arrives at B. *)
Lemma message_reaches_peer_witness :
  exists wB', ipc_channel_rx 0 0 128 ex_receiver = Ret 1 wB' /\
    log_of (w_plat wB') = [(local_buf pool_A 1, 10)].
Proof.
  edestruct (message_reaches_peer (PA := plat) (PB := plat) world_A 0 0 inst_A (ch_mng chan_A) 0 1
               pool_A 10 [] 0 0 inst_B chan_B log_of 128 operational_A managed_A live_chan apart_A)
    as (wA' & E & HB); [by_compute .. | | exact peer_AB | exact records_B | by_compute |].
  { apart_rings. }
  destruct (HB ex_receiver) as (_ & wB' & E' & _ & L).
  - cbn [ex_receiver w_mem]. unfold ex_sent. now rewrite E.
  - exact ex_receiver_ready.
  - constructor; [| constructor]. split; [by_compute |]. split; [by_compute |].
    eexists. split; [by_compute |]. by_compute.
  - exists wB'. split; [exact E' |]. rewrite L. by_compute.
Defined.

(** ** Ownership *)

Lemma setup_AB : setup 0 inst_A (ch_mng chan_A) 0 inst_B (ch_mng chan_B).
Proof.
  constructor; [exact managed_A | by_compute | | | exact apart_A | exact peer_AB | by_compute].
  - constructor; [by_compute |]. exists chan_B. by_compute.
  - constructor; [| intros [|[|i]] [|[|j]] p q Hp Hq Hne; try discriminate; lia].
    constructor; [| constructor]. apart_rings.
Qed.

(** After both ends booted, every buffer of A is free. *)
Lemma accounted_A : accounted (ch_mng chan_A) (live_mem, [], []).
Proof.
  exists [[BD 0 0 0; BD 0 1 0]], []. constructor; [exact live_chan | by_compute | | by_compute | constructor |].
  - intros [|[|k]] p f Hp Hf; try discriminate. vm_compute in Hp. injection Hp as <-. injection Hf as <-.
    split; [by_compute |]. repeat constructor; by_compute.
  - vm_compute. reflexivity.
Qed.

Lemma used_B : used world_B 0 inst_B.
Proof. constructor; by_compute. Qed.

Lemma live_mem_ok : mem_ok live_mem.
Proof.
  intros x. unfold byte_at. destruct (mem_bytes live_mem !! x) as [v |] eqn:E; [| cbn; lia].
  cbn [default option_fmap from_option id]. apply elem_of_list_to_map_2 in E.
  assert (HF : Forall (fun e : Z * Z => 0 <= e.2 < 256) live_bytes).
  { repeat constructor; cbn; lia. }
  rewrite Forall_forall in HF. apply list_elem_of_In in E. exact (HF _ E).
Qed.

Lemma live_uchan_A : uchan_wf live_mem (ch_umng uchan_A).
Proof. constructor; by_compute. Qed.

Lemma live_uchan_B : uchan_wf live_mem (ch_umng uchan_B).
Proof. constructor; by_compute. Qed.

Lemma unmanaged_A : has_unmanaged inst_A 1 uchan_A.
Proof. constructor; by_compute. Qed.

Lemma unmanaged_B : has_unmanaged inst_B 1 uchan_B.
Proof. constructor; by_compute. Qed.

(** Nothing is pending at B: a receive call changes nothing. *)
Lemma idle_B ch b :
  0 <= ch < 2 -> 1 <= b -> ipc_channel_rx 0 ch b world_B = Ret 0 world_B.
Proof.
  intros Hch Hb. assert (ch = 0 \/ ch = 1) as [-> | ->] by lia.
  - assert (Hr : chan_ready world_B 0 0 inst_B chan_B)
      by (apply ready_B; [reflexivity .. | exact live_chan]).
    rewrite (ipc_channel_rx_managed _ _ _ _ _ _ Hr).
    destruct (Z.to_nat b) as [|n] eqn:En; [lia |]. cbn [managed_rx_loop].
    destruct (Z.ltb_spec 0 b); [| lia].
    now rewrite (cbind_Ret _ _ _ _ _ (managed_rx_one_empty _ _ _ _ _ Hr eq_refl)).
  - assert (H := ipc_channel_rx_unmanaged world_B 0 inst_B 1 uchan_B b
                   ltac:(by_compute) unmanaged_B live_uchan_B live_mem_ok).
    cbv zeta in H. rewrite decide_True in H by by_compute. exact H.
Qed.

Lemma ipc_shm_rx_terminates_witness :
  managed_rx_loop 200 0 0 128 0 world_B = managed_rx_loop 128 0 0 128 0 world_B /\
  exists work, ipc_shm_rx 0 128 world_B = Ret work world_B /\ 0 <= work <= 129.
Proof.
  destruct (ipc_shm_rx_terminates world_B 0 inst_B 128 (eq world_B) used_B) as [[H1 _] H2]; [by_compute | lia |].
  split; [exact (H1 0 72%nat) |].
  destruct H2 as (work & w' & E & <- & H); [| reflexivity |].
  - intros ch b w Hch Hb <-. exists 0, world_B. split; [| reflexivity].
    apply idle_B; [exact Hch | exact Hb].
  - exists work. split; [exact E |]. change (p_num_channels inst_B) with 2 in H. lia.
Defined.

(** B booted before A did anything. *)
Definition lonely : world plat :=
  World (Memory (mem_regions live_mem) (list_to_map (List.filter (fun e => BASE_B <=? e.1) live_bytes)))
    priv_B plat_B.

Lemma lonely_down : remote_down lonely 0 inst_B BASE_A.
Proof.
  constructor; [constructor; by_compute | | by_compute | by_compute].
  unfold lonely. vm_compute. reflexivity.
Qed.

Lemma calls_out_of_turn_rejected_witness :
  ipc_shm_tx 2 0 0x1000 8 world_A = Ret (- EINVAL) world_A /\
  ipc_shm_tx 0 0 (BASE_B + 0x58) 8 lonely = Ret (- EINVAL) lonely /\
  ipc_shm_unmanaged_acquire 0 1 lonely = Ret (local_mem (ch_umng uchan_B) + UMEM_MEM) lonely.
Proof.
  split_and!.
  - apply (proj1 (calls_out_of_turn_rejected world_A 2 0 0x1000 8)). right. exists priv_zero. by_compute.
  - apply (proj2 (calls_out_of_turn_rejected lonely 0 0 (BASE_B + 0x58) 8) inst_B BASE_A lonely_down).
  - destruct (proj2 (calls_out_of_turn_rejected lonely 0 1 0 8) inst_B BASE_A lonely_down)
      as (_ & _ & _ & _ & _ & H).
    rewrite (H uchan_B unmanaged_B) by by_compute. rewrite decide_True by by_compute. reflexivity.
Defined.

(** ** Unmanaged channels *)

Lemma unmanaged_tx_noticed_once_witness :
  exists wA', ipc_shm_unmanaged_tx 0 1 world_A = Ret 0 wA' /\
    tx_count (w_mem wA') (local_mem (ch_umng uchan_A)) = 1.
Proof.
  destruct (unmanaged_tx_noticed_once (PA := plat) (PB := plat) world_A 0 inst_A 1 uchan_A 0 inst_B 1
              uchan_B 128 operational_A unmanaged_A live_uchan_A)
    as (wA' & E & _ & T & _); [by_compute | by_compute | exact unmanaged_B | exact live_mem_ok | by_compute |].
  exists wA'. split; [exact E |]. rewrite T. by_compute.
Defined.

(** ** Initialisation *)

Lemma instance_life_cycle_witness :
  ipc_shm_init_instance 0 (Some cfg_A) world_A = Ret (- EINVAL) world_A /\
  ipc_shm_init_instance 2 None world_A = Ret (- EINVAL) world_A /\
  total_bufs_loop 2 [PoolCfg 3 16; PoolCfg 5 64] 0 0 world_A = Ret 8 world_A.
Proof.
  destruct (instance_life_cycle world_A 0 (Some cfg_A) ltac:(by_compute)) as (_ & _ & Hused & _ & Hpools).
  destruct (instance_life_cycle world_A 2 None ltac:(by_compute)) as (_ & Hbad & _).
  split_and!.
  - apply (Hused inst_A), operational_A.
  - apply (proj1 (Hbad ltac:(right; exists priv_zero; by_compute))). intros [].
  - specialize (Hpools [PoolCfg 3 16; PoolCfg 5 64] ltac:(repeat constructor; cbn; lia)). cbn [length] in Hpools. rewrite Hpools. f_equal.
Defined.
