(* ===== verification/WitnessChannel.v ===== *)
(** * The channels of a concrete system under concurrent use

    A buffer of the managed channel of [System] goes from one end to the other; both
    ends acquire, send, receive and
    release at the same time, one memory access each in turn; one call runs against
    a hostile peer; on the unmanaged channel transmissions overtake a reception. *)

From S2P Require Import Prelude Memory Types Queue QueueSpec Atomic QueueSteps Linear.
From S2P Require Import World Shm ShmSpec Traffic Delivery Ownership Clients ChannelSteps ChannelProto Concurrent Unmanaged UnmanagedSteps ChannelCalls Hostile UnmanagedConc.
From S2P Require Import HwSpec KernelOs KernelSpec System Witness.
#[local] Open Scope Z_scope.

Definition end_view (e : endpoint) : view :=
  match e with
  | Near => View (ch_mng chan_A) BASE_A BASE_A BASE_B 0x400
  | Far => View (ch_mng chan_B) BASE_B BASE_B BASE_A 0x400
  end.

Lemma word_apart e k x :
  in_channel (ch_mng chan_A) k -> range (v_local (end_view e)) 8 x -> ~ in_rings (own_queue (ch_mng chan_A) k) x.
Proof.
  intros Hk. destruct k as [[|i] |]; [change (own_queue (ch_mng chan_A) (Some 0%nat)) with (pool_bd_queue pool_A) | change (S i < 1)%nat in Hk; lia |]; unfold in_rings, range, ring_bytes, RING_SIZE;
    destruct e; cbn -[Z.add Z.mul Z.le Z.lt]; unfold BASE_A, BASE_B; lia.
Qed.

Lemma apart_B : pools_apart local_pool_addr (active_pools (ch_mng chan_B)).
Proof. intros [|[|i]] [|[|j]] p q Hp Hq Hne; try discriminate; lia. Qed.

Lemma peer_BA : peer_chan (ch_mng chan_B) (ch_mng chan_A).
Proof. constructor; [by_compute | by_compute |]. repeat constructor. Qed.

Lemma connected_AB : connected end_view live_mem.
Proof.
  constructor.
  - intros []; [exact live_chan | exact (live_chan_B _ live_chan)].
  - exact (su_sep _ _ _ _ _ _ setup_AB).
  - intros []; [exact apart_A | exact apart_B].
  - intros []; [exact peer_AB | exact peer_BA].
  - intros []; by_compute.
  - intros []; (constructor; [by_compute | constructor]).
  - intros []; by_compute.
  - intros []; reflexivity.
  - intros []; by_compute.
  - exact word_apart.
Qed.

Lemma accounted_B : accounted (ch_mng chan_B) (live_mem, [], []).
Proof.
  exists [[BD 0 0 0; BD 0 1 0]], []. constructor; [exact (live_chan_B _ live_chan) | by_compute | | by_compute | constructor |].
  - intros [|[|k]] p f Hp Hf; try discriminate. vm_compute in Hp. injection Hp as <-. injection Hf as <-.
    split; [by_compute |]. repeat constructor; by_compute.
  - vm_compute. reflexivity.
Qed.

(** ** Ownership of buffers: A acquires and sends, B receives *)

Lemma setup_BA : setup 0 inst_B (ch_mng chan_B) 0 inst_A (ch_mng chan_A).
Proof.
  constructor; [| reflexivity | exact managed_A | | exact apart_B | exact peer_BA | by_compute].
  - constructor; [by_compute |]. exists chan_B. by_compute.
  - constructor; [| intros [|[|i]] [|[|j]] p q Hp Hq Hne; try discriminate; lia].
    constructor; [| constructor]. apart_rings.
Qed.

(** The applications log what their callbacks are given, and keep every buffer. *)
Definition notes_of (p : plat) : Ownership.hands := ([], reverse (log_of p).*1).

Definition station_A : station plat := Station 0 0 inst_A (ch_mng chan_A) notes_of.
Definition station_B : station plat := Station 0 0 inst_B (ch_mng chan_B) notes_of.

Lemma logs_handle i ch p c fits : m_rx_cb c <> NULL -> cb_handles (P := plat) i ch p c notes_of fits.
Proof.
  intros Ecb w buf size own lent k Hsd _ En _.
  exists (World (w_mem w) (w_priv w) (log_msg buf size (w_plat w))). unfold call_managed_cb. apply Z.eqb_neq in Ecb as ->.
  split; [reflexivity |]. destruct Hsd as [[U L M R] Sl Sr Sg Sw]. split; [constructor; auto; constructor; auto; now destruct U |].
  cbn [w_mem w_plat]. replace (notes_of (log_msg buf size (w_plat w))) with ((own, buf :: lent) : Ownership.hands); [reflexivity |].
  unfold notes_of in *. injection En as <- <-. f_equal.
  unfold log_of at 2, log_msg. cbn [kp_kern sim_log]. now rewrite fmap_app, reverse_app.
Qed.

Definition ends_in {A} (r : outcome (world plat) A) : world plat :=
  match r with Ret _ w => w | Fault => world_A end.

Definition returns {A} (f : A -> bool) (r : outcome (world plat) A) : bool :=
  match r with Ret a _ => f a | Fault => false end.

Lemma returns_ret (z : Z) (r : outcome (world plat) Z) :
  returns (Z.eqb z) r = true -> r = Ret z (ends_in r).
Proof. destruct r as [a w |]; cbn; [| discriminate]. intros H. apply Z.eqb_eq in H. now subst. Qed.

Definition own_acquired : world plat := ends_in (ipc_shm_acquire_buf 0 0 12 world_A).
Definition own_sent : world plat := ends_in (ipc_shm_tx 0 0 (local_buf pool_A 0) 10 own_acquired).
Definition own_arrived : world plat := World (w_mem own_sent) priv_B plat_B.
Definition own_received : world plat := ends_in (ipc_channel_rx 0 0 128 own_arrived).

Lemma own_acquired_ret : ipc_shm_acquire_buf 0 0 12 world_A = Ret (local_buf pool_A 0) own_acquired.
Proof. apply returns_ret. vm_compute. reflexivity. Qed.

Lemma own_sent_ret : ipc_shm_tx 0 0 (local_buf pool_A 0) 10 own_acquired = Ret 0 own_sent.
Proof. apply returns_ret. vm_compute. reflexivity. Qed.

Lemma own_received_ret : ipc_channel_rx 0 0 128 own_arrived = Ret 1 own_received.
Proof. apply returns_ret. vm_compute. reflexivity. Qed.

Lemma base_clear (b : Z) : b = BASE_A \/ b = BASE_B -> clear_of_rings (ch_mng chan_A) (range b 8).
Proof.
  intros Hb x Hx. unfold range, BASE_A, BASE_B in *. split; [| constructor; [| constructor]];
    unfold in_rings, range, ring_bytes, RING_SIZE; cbn -[Z.add Z.mul Z.le Z.lt]; lia.
Qed.

Lemma base_clear_B (b : Z) : b = BASE_A \/ b = BASE_B -> clear_of_rings (ch_mng chan_B) (range b 8).
Proof. intros Hb. eapply peer_clear; [exact peer_AB | now apply base_clear]. Qed.

Ltac end_in_operation hw clear own other :=
  constructor;
  [ constructor; [constructor; by_compute | | by_compute ..];
    split; [| vm_compute; eexists; reflexivity]; exists hw;
    split; [by_compute |]; split; [constructor; by_compute | by_compute]
  | constructor; [by_compute | constructor] | constructor; [by_compute | constructor]
  | change (p_global _) with own; apply clear; auto
  | replace (remote_base _ _) with other by (vm_compute; reflexivity); apply clear; auto ].

Lemma own_side_A : side 0 inst_A (ch_mng chan_A) world_A.
Proof. end_in_operation hw_A base_clear BASE_A BASE_B. Qed.

Lemma own_side_acquired : side 0 inst_A (ch_mng chan_A) own_acquired.
Proof. end_in_operation hw_A base_clear BASE_A BASE_B. Qed.

Lemma own_side_arrived : side 0 inst_B (ch_mng chan_B) own_arrived.
Proof. end_in_operation hw_B base_clear_B BASE_B BASE_A. Qed.

(** A acquires a buffer, sends it, and B receives it. *)
Lemma message_passed :
  rtc (traffic_step station_A station_B) (live_mem, ([], []), ([], []))
    (w_mem own_received, ([], []), ([], [local_buf pool_A 0])).
Proof.
  eapply rtc_l; [| eapply rtc_l; [| eapply rtc_once]].
  - apply ts_A, es_app. exact (as_acquire 0 0 inst_A _ world_A 12 _ _ [] [] own_side_A own_acquired_ret).
  - apply ts_A, es_app.
    exact (as_tx 0 0 inst_A _ own_acquired _ 10 0 own_sent [] [] [] own_side_acquired ltac:(lia) own_sent_ret).
  - assert (En : notes_of (w_plat own_received) = ([], [local_buf pool_A 0])) by (vm_compute; reflexivity).
    rewrite <- En. apply ts_B.
    exact (es_rx 0 0 inst_B _ notes_of own_arrived 128 1 own_received own_side_arrived ltac:(lia) own_received_ret).
Qed.

Lemma station_cb_AB : station_cb station_A station_B.
Proof. apply logs_handle. by_compute. Qed.

Lemma station_cb_BA : station_cb station_B station_A.
Proof. apply logs_handle. by_compute. Qed.

(** The buffer is then with B, which can give it back. *)
Lemma buffers_conserved_witness :
  each_once (ch_mng chan_A) (w_mem own_received) [] [local_buf pool_A 0] /\
  exists w, ipc_shm_release_buf 0 0 (local_buf pool_A 0) own_received = Ret 0 w.
Proof.
  destruct (buffers_conserved station_A station_B (live_mem, ([], []), ([], [])) _ _ _ setup_AB setup_BA
              station_cb_AB station_cb_BA (conj accounted_A accounted_B) message_passed) as (H & _ & _ & HB).
  split; [exact H |]. destruct (HB own_received eq_refl) as (_ & Hrel & _).
  apply Hrel; [constructor; by_compute | left].
Defined.

Definition nothing_owned : owner := fun _ => ([], []).

Lemma all_accounted e : accounted (v_chan (end_view e)) (live_mem, (nothing_owned e).1, (nothing_owned e).2).
Proof. destruct e; [exact accounted_A | exact accounted_B]. Qed.

(** Both ends acquire, then both send while both receive threads poll, access
    by access in turn. *)
Definition buf_A : Z := local_buf pool_A 0.
Definition buf_B : Z := local_buf (nth 0 (pools (ch_mng chan_B)) pool_zero) 0.

Definition in_turn (n : nat) (ts : list (user * call)) : list (user * call) := concat (replicate n ts).
Definition plan_acquire : list (user * call) :=
  in_turn 21 [((Near, FAcquire), CallAcquire 12); ((Far, FAcquire), CallAcquire 12)].
Definition plan_exchange : list (user * call) :=
  in_turn 19 [((Near, FTx), CallTx buf_A 10); ((Far, FTx), CallTx buf_B 7)] ++
  in_turn 15 [((Near, FRx), CallRx); ((Far, FRx), CallRx)].
Definition plan_release : list (user * call) :=
  in_turn 17 [((Far, FRelease), CallRelease buf_A); ((Near, FAcquire), CallAcquire 12); ((Near, FRelease), CallRelease buf_B)].

Definition idle_all : conf user answer * owner := ((live_mem, fun _ => Idle), nothing_owned).
Definition after (plan : list (user * call)) (x : conf user answer * owner) : list chan_event * (conf user answer * owner) :=
  default ([], x) (play_channel end_view plan x).

Definition plan_ok (plan : list (user * call)) : bool :=
  forallb (fun p => match p.1.2, p.2 with
                    | FTx, CallTx _ size => (0 <? size) && (size <? 4294967296)
                    | FAcquire, CallAcquire _ | FRx, CallRx | FRelease, CallRelease _ => true
                    | _, _ => false
                    end) plan.

Lemma plan_ok_may plan : plan_ok plan = true -> Forall (fun p => may_call p.1 p.2) plan.
Proof.
  unfold plan_ok. rewrite forallb_forall. intros H. apply list.Forall_forall. intros [[e f] op] Hp.
  apply list_elem_of_In, H in Hp. unfold may_call. cbn [fst snd] in *.
  destruct f, op; try discriminate Hp; try exact I. apply andb_true_iff in Hp as [H1 H2].
  apply Z.ltb_lt in H1, H2. auto.
Qed.

Lemma after_exec plan x :
  plan_ok plan = true -> exec (channel_step end_view) x (after plan x).1 (after plan x).2.
Proof.
  intros Hp. unfold after. destruct (play_channel end_view plan x) as [[es y] |] eqn:E; [| apply exec_nil].
  apply (play_channel_exec _ plan); [now apply plan_ok_may | exact E].
Qed.

(** Both messages cross; at the end both releases and a further acquire are in
    progress. *)
Definition plan_all : list (user * call) := plan_acquire ++ plan_exchange ++ plan_release.

Example messages_cross :
  visible (after plan_all idle_all).1 =
  [ECall (Near, FAcquire) (CallAcquire 12); ECall (Far, FAcquire) (CallAcquire 12);
   EReturn (Near, FAcquire) (AAddr buf_A); EReturn (Far, FAcquire) (AAddr buf_B);
   ECall (Near, FTx) (CallTx buf_A 10); ECall (Far, FTx) (CallTx buf_B 7);
   EReturn (Near, FTx) (ACode 0); EReturn (Far, FTx) (ACode 0);
   ECall (Near, FRx) CallRx; ECall (Far, FRx) CallRx;
   EReturn (Near, FRx) (AMsg (Some (Some (buf_B, 7)))); EReturn (Far, FRx) (AMsg (Some (Some (buf_A, 10))));
   ECall (Far, FRelease) (CallRelease buf_A); ECall (Near, FAcquire) (CallAcquire 12);
   ECall (Near, FRelease) (CallRelease buf_B)].
Proof. vm_compute. reflexivity. Qed.

Lemma channel_calls_concurrent_witness :
  let r := after plan_all idle_all in
  Forall (served end_view) r.1 /\
  exists hand, accounted (ch_mng chan_A) (r.2.1.1, (r.2.2 Near).1 ++ hands hand Near, (r.2.2 Near).2).
Proof.
  assert (He := after_exec plan_all idle_all eq_refl). cbv zeta.
  destruct (after plan_all idle_all) as [es [c o]]. cbn [fst snd] in *.
  destruct (channel_calls_concurrent end_view live_mem nothing_owned es c o connected_AB all_accounted He)
    as (_ & Hs & hand & _ & H).
  split; [exact Hs |]. exists hand. exact (proj1 (H Near)).
Defined.

(** The near end has acquired; it begins to send, the far end stops in the
    middle of its call. *)
Definition acquired : conf user answer * owner := (after plan_acquire idle_all).2.
Definition sending : conf user answer * owner := (after [((Near, FTx), CallTx buf_A 10)] acquired).2.
Definition half_way : list chan_event * (conf user answer * owner) :=
  after ([((Far, FTx), CallTx buf_B 7); ((Far, FTx), CallTx buf_B 7)] ++ in_turn 9 [((Near, FTx), CallTx buf_A 10)]) sending.

Lemma exec_one {S E} (st : S -> E -> S -> Prop) x ev y : exec st x [ev] y -> st x ev y.
Proof. intros H. inversion H as [| ? ? ? ? ? H1 H2]; subst. inversion H2; now subst. Qed.

Lemma begin_sending : channel_step end_view acquired (ECall (Near, FTx) (CallTx buf_A 10)) sending.
Proof.
  apply exec_one. unfold sending. generalize (after_exec [((Near, FTx), CallTx buf_A 10)] acquired eq_refl).
  replace (after [((Near, FTx), CallTx buf_A 10)] acquired).1 with [ECall (R := answer) (Near, FTx) (CallTx buf_A 10)]
    by (vm_compute; reflexivity).
  intros H. exact H.
Qed.

Lemma half_way_exec : exec (channel_step end_view) sending half_way.1 half_way.2.
Proof. apply after_exec. reflexivity. Qed.

Lemma half_way_accesses : accesses (Near, FTx) half_way.1 = 9%nat /\ forall r, EReturn (Near, FTx) r ∉ half_way.1.
Proof.
  split; [vm_compute; reflexivity |].
  assert (Hc : forallb (fun e => match e with EReturn _ _ => false | _ => true end) half_way.1 = true)
    by (vm_compute; reflexivity).
  intros r Hr. rewrite forallb_forall in Hc. apply list_elem_of_In, Hc in Hr. discriminate Hr.
Qed.

Lemma channel_calls_wait_free_witness :
  (accesses (Near, FTx) half_way.1 <= 25)%nat /\
  exists e x, channel_step end_view half_way.2 e x /\ (e = EAccess (Near, FTx) \/ exists r, e = EReturn (Near, FTx) r).
Proof.
  assert (H1 := after_exec plan_acquire idle_all eq_refl). assert (H2 := begin_sending).
  assert (H3 := half_way_exec). assert (H4 := proj2 half_way_accesses).
  fold acquired in H1. destruct acquired as [c1 o1], sending as [c2 o2], half_way as [es [c3 o3]].
  exact (channel_calls_wait_free end_view live_mem nothing_owned _ c1 o1 (Near, FTx) (CallTx buf_A 10) c2 o2 es c3 o3
           connected_AB all_accounted H1 H2 H3 H4).
Defined.

Lemma view_of_A : has_view world_A 0 0 inst_A (end_view Near).
Proof.
  constructor; [by_compute | reflexivity | by_compute | exact (op_live _ _ _ operational_A) | exact managed_A
    | by_compute | reflexivity ..].
Qed.

(** The unmanaged channel as its two ends see it. *)
Definition uend_view (e : endpoint) : uview :=
  match e with
  | Near => UView (ch_umng uchan_A) BASE_A BASE_B
  | Far => UView (ch_umng uchan_B) BASE_B BASE_A
  end.

Lemma uview_of_A : has_uview world_A 0 1 inst_A uchan_A (uend_view Near).
Proof.
  constructor; [by_compute | reflexivity | by_compute | exact (op_live _ _ _ operational_A) | exact unmanaged_A | reflexivity ..].
Qed.

Lemma channel_calls_uninterrupted_witness :
  on_mem (run (channel_code end_view (Near, FAcquire) (CallAcquire 12))) world_A
  = (let* a := ipc_shm_acquire_buf 0 0 12 in cret (AAddr a)) world_A /\
  ipc_shm_unmanaged_tx 0 1 world_A
  = (let* r := on_mem (run (ipc_shm_unmanaged_tx_steps (uend_view Near))) in
     if r =? 0 then on_plat (ipc_hw_irq_notify 0) ;;; cret 0 else cret r) world_A.
Proof.
  destruct (channel_calls_uninterrupted world_A 0 0 inst_A end_view Near connected_AB view_of_A live_mem_ok eq_refl)
    as (H & _ & _ & _ & U).
  split; [exact (H 12) | exact (proj1 (U 1 uchan_A (uend_view Near) uview_of_A))].
Defined.

(** ** A hostile peer *)

Lemma private_AB e : private_ok live_mem (end_view e).
Proof.
  apply wf_private; [exact (cn_wf _ _ connected_AB e) | destruct e; by_compute .. |].
  destruct e; cbn [end_view v_chan];
    match goal with |- Forall _ ?l => let x := eval vm_compute in l in change l with x end;
    repeat (constructor; [by_compute |]); constructor.
Qed.

Definition own_turns (n : nat) : list (option (Z * list Z)) := replicate n None.
Definition near_call (op : call) : prog answer := expand (own_queue (ch_mng chan_A)) Near (call_steps (end_view Near) op).

(** A descriptor of a buffer that does not exist is stored while the call runs:
    nothing is handed out. *)
Definition forge_buffer : list (option (Z * list Z)) :=
  own_turns 8 ++ [Some (pop_ring (pool_bd_queue pool_A) + RING_DATA, replicate 8 255)] ++ own_turns 13.

Example forged_buffer_refused :
  (under_attack forge_buffer (live_mem, near_call (CallAcquire 12))).2.2 = Done (AAddr NULL).
Proof. vm_compute. reflexivity. Qed.

(** A descriptor with the number of a pool the channel does not have. *)
Definition forge_pool : list (option (Z * list Z)) :=
  [Some (pop_ring (bd_queue (ch_mng chan_A)) + RING_DATA, 77 :: replicate 7 0);
   Some (pop_ring (bd_queue (ch_mng chan_A)) + RING_WRITE, 1 :: replicate 3 0)] ++ own_turns 13.

Example forged_pool_number :
  (under_attack forge_pool (live_mem, near_call CallRx)).2.2 = Wrong.
Proof. vm_compute. reflexivity. Qed.

Lemma calls_withstand_corruption_witness :
  let r := under_attack forge_buffer (live_mem, near_call (CallAcquire 12)) in
  (own_steps r.1 <= 64)%nat /\ exists a, r.2.2 = Done a /\ answer_ok (end_view Near) (CallAcquire 12) a.
Proof.
  assert (Hok : mem_ok live_mem) by exact live_mem_ok.
  assert (He := under_attack_exec forge_buffer (live_mem, near_call (CallAcquire 12)) eq_refl Hok).
  assert (Er := forged_buffer_refused). cbv zeta.
  destruct (under_attack forge_buffer (live_mem, near_call (CallAcquire 12))) as [ls [m' p]]. cbn [fst snd] in *.
  destruct (calls_withstand_corruption (end_view Near) (CallAcquire 12) live_mem ls m' p (private_AB Near) Hok He) as [Hn Hp].
  rewrite Er in *. split; [exact Hn |]. exists (AAddr NULL). split; [reflexivity | exact Hp].
Defined.

(** ** The unmanaged channel *)

Lemma uconnected_AB : uconnected uend_view live_mem.
Proof.
  constructor.
  - intros n a v [[] | [] | [] | []]; split; by_compute.
  - intros []; by_compute.
  - intros []; reflexivity.
  - unfold disjoint_ranges. by_compute.
  - intros [] [] x; unfold range; cbn -[Z.add Z.le Z.lt]; unfold BASE_A, BASE_B, UMEM_SIZE; lia.
Qed.

(** Near transmits; far's reception has read the counter when near transmits once
    more, and returns; far's second reception finds the second transmission while
    near is in the middle of a third. *)
Definition uturns : list (uthread * ucall) :=
  let near := ((Near, Sender), USend) in let far := ((Far, Receiver), UPoll) in
  repeat near 8 ++ repeat far 4 ++ repeat near 8 ++ repeat far 3 ++ repeat near 6 ++ repeat far 7.

Lemma uturns_allowed : Forall (fun p => uallowed p.1 p.2) uturns.
Proof. repeat constructor. Qed.

Definition uplay : list uevent * conf uthread uanswer := play (ucode uend_view) uturns (live_mem, fun _ => Idle).

(** Both receptions ran the callback. *)
Lemma unmanaged_channel_linearizable_witness :
  uplay.1 = take 29 uplay.1 ++ ECall (Far, Receiver) UPoll :: take 5 (drop 30 uplay.1) ++ [EReturn (Far, Receiver) (UFound true)] /\
  callbacks Far uplay.1 = 2 /\ 2 <= transmissions Near uplay.1 /\
  exists k, 2 <= k <= 3 /\ seen_count uplay.2.1 (local_mem (ch_umng uchan_B)) = u32 k.
Proof.
  assert (Ees : uplay.1 = take 29 uplay.1 ++ ECall (Far, Receiver) UPoll :: take 5 (drop 30 uplay.1) ++
                          [EReturn (Far, Receiver) (UFound true)]) by (vm_compute; reflexivity).
  split; [exact Ees |]. split; [vm_compute; reflexivity |].
  destruct (unmanaged_channel_linearizable uend_view live_mem uplay.1 uplay.2 uconnected_AB live_mem_ok)
    as (_ & _ & _ & Hc & Hn); [intros []; by_compute | apply play_exec; exact uturns_allowed |].
  assert (Ec : callbacks Far uplay.1 = 2) by (vm_compute; reflexivity).
  split; [specialize (Hc Far); rewrite Ec in Hc; exact Hc |].
  destruct (Hn Far _ _ _ Ees) as (k & Hk & E); [by_compute |].
  exists k. split; [| exact E].
  replace (completed (peer Far) (take 29 uplay.1)) with 2 in Hk by (vm_compute; reflexivity).
  replace (transmissions (peer Far) uplay.1) with 3 in Hk by (vm_compute; reflexivity). exact Hk.
Defined.
