(* ===== verification/WitnessBoot.v ===== *)
(** * Start-up on a concrete system

    The two cores of [System] bring up their instance, a managed and an
    unmanaged channel, one after the other from cleared memory. *)

From S2P Require Import Prelude Memory Types Queue QueueSpec World Shm ShmSpec Traffic Delivery.
From S2P Require Import Ownership RxLoop Unmanaged Init Boot Startup Instance InstanceSpec AllInstances Mscm Router.
From S2P Require S32gen1.
From S2P Require Import HwSpec KernelOs KernelSpec System Witness.
#[local] Open Scope Z_scope.

Lemma channels_ok : Forall ccfg_ok channels.
Proof.
  repeat constructor; try (vm_compute; intuition discriminate); cbn; unfold IPC_SHM_MAX_BUFS_PER_POOL; lia.
Qed.

Lemma cfg_A_ok : cfg_ok cfg_A channels.
Proof. constructor; try exact channels_ok; by_compute. Qed.

Lemma cfg_B_ok : cfg_ok cfg_B channels.
Proof. constructor; try exact channels_ok; by_compute. Qed.

(** The platform after hardware and operating system layer came up. *)
Definition regions_up (b : Z) (r : Z) : list (Z * Z) :=
  [(r, 0x400); (b, 0x400); (MSCM_BASE, 0x1000)].
Definition plat_up (core : Z) (cfg : ipc_shm_cfg) : plat :=
  match ipc_hw_init 0 cfg (blank, reset core) with
  | Ret _ s => match ipc_os_init 0 cfg RX_IPC_SHM_RX s with Ret _ s => s.2 | Fault => reset core end
  | Fault => reset core
  end.

Lemma fresh_on core m : fresh (power_on core m) 0 priv_zero.
Proof.
  constructor; [easy | right; exists priv_zero; split_and!; [reflexivity | easy | now left] | reflexivity |].
  split; [reflexivity |]. repeat constructor.
Qed.

(** Bringing the platform up maps the halves and leaves every byte alone. *)
Lemma up_A b : brought_up (power_on 0 (Memory [] b)) 0 cfg_A (Memory (regions_up BASE_A BASE_B) b) (plat_up 0 cfg_A).
Proof.
  constructor.
  - eexists _, _. split; vm_compute; reflexivity.
  - split; [| now eexists]. eexists. split; [vm_compute; reflexivity |].
    split; [constructor; by_compute | by_compute].
  - constructor; [reflexivity | reflexivity | left; vm_compute; discriminate | by_compute].
Qed.

Lemma up_B b : brought_up (power_on 1 (Memory [] b)) 0 cfg_B (Memory (regions_up BASE_B BASE_A) b) (plat_up 1 cfg_B).
Proof.
  constructor.
  - eexists _, _. split; vm_compute; reflexivity.
  - split; [| now eexists]. eexists. split; [vm_compute; reflexivity |].
    split; [constructor; by_compute | by_compute].
  - constructor; [reflexivity | reflexivity | right; vm_compute; discriminate | by_compute].
Qed.

Lemma blank_cleared r x : byte_at (mem_bytes (Memory r ∅)) x = 0.
Proof. unfold byte_at. cbn [mem_bytes]. now rewrite lookup_empty. Qed.

Lemma same_channels : Forall2 same_layout channels channels.
Proof. repeat constructor. Qed.

Lemma zero_olds : peer_olds priv_zero priv_zero.
Proof. repeat constructor. Qed.

Lemma instance_starts_witness :
  exists w' p', ipc_shm_init_instance 0 (Some cfg_A) (power_on 0 blank) = Ret 0 w' /\ used w' 0 p'.
Proof.
  destruct (fresh_on 0 blank) as [H1 H2 H3 H4].
  destruct (instance_starts (power_on 0 blank) 0 cfg_A channels priv_zero _ _ H1 H2 H3 H4 cfg_A_ok (up_A ∅))
    as (w' & p' & E & _ & U & _).
  - apply chans_all_intro; [exact channels_ok |]. intros l r c Hc _ _ _. apply chan_peer_cleared; [exact Hc |].
    intros x _. apply blank_cleared.
  - exists w', p'. split; [exact E | exact U].
Defined.

Lemma instances_start_witness :
  exists wA' wB', ipc_shm_init_instance 0 (Some cfg_A) (power_on 0 blank) = Ret 0 wA' /\
    ipc_shm_init_instance 0 (Some cfg_B) (power_on 1 (Memory [] (mem_bytes (w_mem wA')))) = Ret 0 wB' /\
    uint_at 8 (w_mem wB') BASE_A = IPC_SHM_STATE_READY /\ uint_at 8 (w_mem wB') BASE_B = IPC_SHM_STATE_READY.
Proof.
  destruct (instances_start (PA := plat) (PB := plat) (power_on 0 blank) 0 cfg_A channels priv_zero _ _
              cfg_B channels priv_zero (fresh_on 0 blank) cfg_A_ok (up_A ∅))
    as (wA' & pA' & E1 & _ & HB).
  - intros x _. apply blank_cleared.
  - exact cfg_B_ok.
  - reflexivity.
  - exact same_channels.
  - exact (fr_shape _ _ _ (fresh_on 0 blank)).
  - exact zero_olds.
  - destruct (HB _ 0 _ _ (fresh_on 1 _) (up_B (mem_bytes (w_mem wA'))) eq_refl eq_refl)
      as (wB' & pB' & E2 & _ & RA & RB & _); [reflexivity |].
    exists wA', wB'. split; [exact E1 |]. split; [exact E2 | split; [exact RA | exact RB]].
Defined.

(** ** Two instances *)

(** Core A with a second instance, polled, towards the same remote core. *)
Definition cfg_A2 : ipc_shm_cfg :=
  ShmCfg 0x30000 0x40000 0x400 2 IPC_IRQ_NONE (LocalCore IPC_CORE_A53 IPC_CORE_INDEX_0 0x3)
    (RemoteCore IPC_CORE_A53 IPC_CORE_INDEX_1) 2 (Some channels).
Definition seats : list seat := [Seat cfg_A channels BASE_A BASE_B; Seat cfg_A2 channels 0x30000 0x40000].

(** Platform and mapping once the first instance is up. *)
Definition first_up : option (plat * list (Z * Z)) := Eval vm_compute in
  match ipc_shm_init_instance 0 (Some cfg_A) (power_on 0 blank) with
  | Ret _ w => Some (w_plat w, mem_regions (w_mem w))
  | Fault => None
  end.
Definition second_up : plat * list (Z * Z) := Eval vm_compute in
  match first_up with
  | Some (pl, r) =>
      match ipc_hw_init 1 cfg_A2 (Memory r ∅, pl) with
      | Ret _ s => match ipc_os_init 1 cfg_A2 RX_IPC_SHM_RX s with Ret _ s => (s.2, mem_regions s.1) | Fault => (pl, r) end
      | Fault => (pl, r)
      end
  | None => (reset 0, [])
  end.

Lemma first_instance w' :
  ipc_shm_init_instance 0 (Some cfg_A) (power_on 0 blank) = Ret 0 w' ->
  first_up = Some (w_plat w', mem_regions (w_mem w')).
Proof.
  intros E.
  assert (H : match ipc_shm_init_instance 0 (Some cfg_A) (power_on 0 blank) with
              | Ret _ w => Some (w_plat w, mem_regions (w_mem w)) | Fault => None end = first_up)
    by (vm_compute; reflexivity).
  rewrite E in H. symmetry. exact H.
Qed.

Lemma seats_come_up : all_come_up (power_on 0 blank) 0 seats.
Proof.
  split.
  - eexists _, _. split; [exact (up_A ∅) |]. split; [| split; vm_compute; reflexivity].
    constructor; [| reflexivity]. intros a n H. apply andb_true_iff in H as [_ H]. discriminate H.
  - intros w' E. apply first_instance in E. destruct w' as [[r b] pr pl]. cbn [w_plat w_mem mem_regions] in E.
    injection E as <- <-. split; [| easy].
    exists (Memory second_up.2 b), second_up.1. split; [constructor |]; cbn [w_mem w_plat].
    + eexists _, _. split; vm_compute; reflexivity.
    + split; [| now eexists]. eexists. split; [vm_compute; reflexivity |].
      split; [constructor; by_compute | by_compute].
    + constructor; [reflexivity | reflexivity | left; vm_compute; discriminate | by_compute].
    + split; [| split; vm_compute; reflexivity]. constructor; [| reflexivity].
      intros a n H. unfold mapped in *. apply andb_true_iff in H as [H1 H2]. rewrite H1. cbn [mem_regions] in *.
      apply existsb_exists in H2 as (x & Hx & Hi). apply existsb_exists. exists x. split; [| exact Hi].
      vm_compute in Hx |- *. tauto.
Qed.

Lemma all_instances_start_witness :
  exists w', ipc_shm_init (Some (InstancesCfg 2 [cfg_A; cfg_A2])) (power_on 0 blank) = Ret 0 w' /\
    uint_at 8 (w_mem w') BASE_A = IPC_SHM_STATE_READY /\ uint_at 8 (w_mem w') 0x30000 = IPC_SHM_STATE_READY /\
    ipc_shm_init (Some (InstancesCfg 2 [cfg_A; cfg_A2])) w' = Ret 0 w'.
Proof.
  destruct (all_instances_start (power_on 0 blank) (InstancesCfg 2 [cfg_A; cfg_A2]) seats)
    as (w' & E & R & _ & E2).
  - reflexivity.
  - by_compute.
  - intros j s Hj. destruct j as [| [| j]]; [injection Hj as <- | injection Hj as <- | discriminate Hj];
      (split; [reflexivity |]; constructor;
        [| exists priv_zero; split_and!; [reflexivity | reflexivity | exact (fr_shape _ _ _ (fresh_on 0 blank))]
         | apply chans_all_intro; [exact channels_ok |]; intros l r c Hc _ _ _; apply chan_peer_cleared;
           [exact Hc | intros x _; apply blank_cleared]]).
    + exact cfg_A_ok.
    + constructor; try exact channels_ok; by_compute.
  - repeat constructor; intros [H1 H2]; unfold local_half, remote_half, range, BASE_A, BASE_B in *; cbn in *; lia.
  - exact seats_come_up.
  - exists w'. split; [exact E |]. split; [exact (proj1 (proj2 (R 0%nat _ eq_refl))) |].
    split; [exact (proj1 (proj2 (R 1%nat _ eq_refl))) | exact E2].
Defined.
