(* ===== verification/WitnessOs.v ===== *)
(** * The theorems on the platform layers on concrete systems *)

From Stdlib Require Import String.
From stdpp Require Import relations.
From S2P Require Import Prelude Memory Types Queue QueueSpec World Shm ShmSpec Traffic Delivery.
From S2P Require Import Mscm Router.
From S2P Require S32gen1 S32g3xx S32r47.
From S2P Require Import HwSpec Atomic Resources KernelOs KernelRes KernelLife KernelSpec.
From S2P Require UioModule UserOs UioSpec UioLife UserRes UserSpec UserLife.
From S2P Require Import OsSpec.
From S2P Require Import System Witness.
#[local] Open Scope Z_scope.

(** ** Platform files: a bus that keeps its accesses, every register reads as zero *)

#[local] Instance bare_env (H : Type) : HwEnv H (list H * list hw_io) := {
  hw_privs p := p.1;
  set_hw_privs l p := (l, p.2);
  mmio_read n a p := Ret 0 (p.1, p.2 ++ [HwRead n a 0]);
  mmio_write n a v p := Ret tt (p.1, p.2 ++ [HwWrite n a v]);
  ipc_os_map_intc := cret MSCM_BASE;
  ipc_os_unmap_intc _ := cret tt
}.

#[local] Program Instance bare_laws (H : Type) : HwEnvLaws H (list H * list hw_io) := {
  os_part := unit;
  os_of _ := tt
}.
Solve All Obligations with (intros; cbn; eauto).

#[local] Program Instance bare_trace (H : Type) : HwTrace H (list H * list hw_io) := { hw_trace p := p.2 }.
Next Obligation. reflexivity. Qed.
Next Obligation. now intros H n a p v p' [= <- <-]. Qed.
Next Obligation. now intros H n a v p p' [= <-]. Qed.

Definition mscm_mem : memory := Memory [(MSCM_BASE, 0x1000)] ∅.

(** Instance 0 of [System] raises interrupt 0 of core 1 through IRCP1IGR0. *)
Lemma registers_where_documented_witness :
  S32gen1.ipc_hw_irq_notify 0 (mscm_mem, ([hw_A], []))
    = writel 1 (MSCM_BASE + 0x224) (mscm_mem, ([hw_A], [] : list hw_io)).
Proof.
  destruct registers_where_documented as (_ & H & _).
  destruct (H _ (bare_env _) 0 hw_A mscm_mem ([hw_A], []) eq_refl) as (Hircp & _).
  destruct (Hircp 1 0 0x220 0x224) as (Hn & _).
  - unfold s32gen1_ircp_documented. set_solver.
  - apply Hn; by_compute.
Defined.

(** Core 0 may talk to core 1; CPXNUM reads as 0. *)
Lemma accepted_A c : accepted c cfg_A 0 0 1.
Proof.
  constructor.
  - exists 0. destruct c; by_compute.
  - exists 1. destruct c; by_compute.
  - split; [| exists 0; destruct c; by_compute]. intros _ k Hk Ht.
    destruct (Z.lt_ge_cases k 4); [assumption |]. exfalso. change (lc_trusted _) with (Z.ones 2) in Ht.
    rewrite Z.ones_spec_high in Ht by lia. discriminate.
  - right. destruct c; by_compute.
  - right. destruct c; (split; [by_compute |]); intros; by_compute.
  - intros E. discriminate E.
  - by_compute.
Qed.

Lemma accepted_effect c a e t : init_effect c cfg_A a 0 0 e t ->
  e = 0 /\ In (HwWrite 4 (a + 0x400) (trust_bits c 3)) t.
Proof.
  intros [(_ & Hno & _) | (-> & _ & x & ->)].
  - destruct (Hno 0 1). apply accepted_A.
  - split; [reflexivity |]. rewrite !in_app_iff. right; right; right. left. destruct c; reflexivity.
Qed.


Lemma configured_A : configured S32gen1.soc cfg_A hw_A.
Proof.
  split_and!; try by_compute.
  - exists (set_msi_tx 0), hw_priv_zero. by_compute.
  - exists (set_rx_index 2 1), hw_priv_zero. by_compute.
Qed.

Lemma configured_B : configured S32gen1.soc cfg_B hw_B.
Proof.
  split_and!; try by_compute.
  - exists (set_msi_tx 1), hw_priv_zero. by_compute.
  - exists (set_rx_index 1 0), hw_priv_zero. by_compute.
Qed.

(** A raises interrupt 0 of core 1, B acknowledges it for core 0. *)
Lemma notify_matches_clear_witness :
  exists off, router_irq_notify S32gen1.soc 0 (live_mem, plat_A)
                = writel 1 (MSCM_BASE + off + 4) (live_mem, plat_A) /\
    router_irq_clear S32gen1.soc 0 (live_mem, plat_B)
      = writel 1 (MSCM_BASE + off) (live_mem, plat_B).
Proof.
  destruct (notify_matches_clear (P := plat) (HL := kplat_env_laws) S32gen1.soc 0 0 cfg_A cfg_B hw_A hw_B
              (kp_os plat_A) (kp_os plat_B) live_mem live_mem plat_A plat_B)
    as (off & _ & _ & E1 & E2);
    [now left | split; by_compute | constructor; by_compute | exact configured_A
    | split; by_compute | constructor; by_compute | exact configured_B | by_compute ..|].
  exists off. split; [exact E1 | exact E2].
Defined.

(** ** Kernel layer *)

Lemma tx_raises_remote_irq_witness :
  exists m' k', ipc_shm_tx 0 0 (local_buf pool_A 1) 10 world_A
    = Ret 0 (World m' priv_A (KPlat (kp_hw plat_A) (kp_os plat_A) k')).
Proof.
  destruct (tx_raises_remote_irq world_A 0 0 inst_A (ch_mng chan_A) 0 1 pool_A 10 hw_A
              operational_A managed_A live_chan apart_A)
    as (m' & k' & E & _);
    [by_compute | by_compute | by_compute | by_compute | by_compute | by_compute
    | constructor; by_compute | by_compute | by_compute |].
  exists m', k'. exact E.
Defined.

#[local] Program Instance sim_laws : KernelLaws sim := {
  regions := sim_regions;
  irqs := sim_irqs
}.
Next Obligation. intros; cbn. eauto. Qed.
Next Obligation. intros; cbn. eauto. Qed.
Next Obligation. intros; cbn. eauto 6. Qed.
Next Obligation. intros; cbn. eauto 6. Qed.
Next Obligation. intros; cbn. eauto 6. Qed.
Next Obligation. intros; cbn. eauto 6. Qed.
Next Obligation. intros; cbn. eauto 6. Qed.
Next Obligation. intros; cbn. eauto 7. Qed.
Next Obligation. intros; cbn. eauto. Qed.

#[local] Instance sim_bus_keeps : BusKeeps sim.
Proof. constructor; intros; cbn; eauto. Qed.

(** Two instances with the same interrupt. *)
Definition ready_hw : plat := KPlat (replicate 4 hw_A) (replicate 4 os_priv_zero) (Sim 0 [] [] []).
Definition cfg_A1 : ipc_shm_cfg :=
  ShmCfg (BASE_A + 0x1000) (BASE_B + 0x1000) 0x400 0 1 (LocalCore IPC_CORE_A53 IPC_CORE_INDEX_0 0x3)
    (RemoteCore IPC_CORE_A53 IPC_CORE_INDEX_1) 2 (Some channels).

Definition after_call {A} (c : M (memory * plat) A) (s : memory * plat) : memory * plat :=
  match c s with Ret _ s' => s' | Fault => s end.
Definition first_up : memory * plat := after_call (ipc_os_init 0 cfg_A RX_IPC_SHM_RX) (mscm_mem, ready_hw).
Definition both_up : memory * plat := after_call (ipc_os_init 1 cfg_A1 RX_IPC_SHM_RX) first_up.
Definition one_left : memory * plat := after_call (ipc_os_free 0) both_up.

Abbreviation lives := (life_step (HL := gen1_laws (HL := kplat_resource_laws))).

Definition returns {A} (c : M (memory * plat) A) (s : memory * plat) : bool :=
  match c s with Ret _ _ => true | Fault => false end.

Lemma init_lives i cfg s o :
  0 <= i < 4 -> nthZ (kp_os s.2) i = Some o -> ~ enabled o -> is_Some (nthZ (kp_hw s.2) i) ->
  0 <= cfg_shm_size cfg < 2 ^ 31 -> returns (ipc_os_init i cfg RX_IPC_SHM_RX) s = true ->
  lives s tt (after_call (ipc_os_init i cfg RX_IPC_SHM_RX) s).
Proof.
  intros Hi Ho Hd Hh Hs. unfold returns, after_call. destruct (ipc_os_init i cfg RX_IPC_SHM_RX s) as [e [m' p'] |] eqn:E;
    [| discriminate]. intros _. destruct s as [m p]. now apply (life_init i cfg m p o e).
Qed.

Lemma free_lives i s o :
  0 <= i -> nthZ (kp_os s.2) i = Some o -> enabled o ->
  hw_live (HwOpsLaws := gen1_laws (HL := kplat_resource_laws)) i (mem_regions s.1) s.2 ->
  returns (ipc_os_free i) s = true -> lives s tt (after_call (ipc_os_free i) s).
Proof.
  intros Hi Ho He Hl. unfold returns, after_call. destruct (ipc_os_free i s) as [[] [m' p'] |] eqn:E;
    [| discriminate]. intros _. destruct s as [m p]. now apply (life_free i m p o).
Qed.

Definition entry (i : nat) (s : memory * plat) : ipc_os_priv_instance := nth i (kp_os s.2) os_priv_zero.

Lemma fresh_table i o : nthZ (replicate 4 os_priv_zero) i = Some o -> ~ enabled o /\ irq_num o <= 0.
Proof. intros E. apply nthZ_Some in E as [_ E]. apply lookup_replicate in E as [-> _]. by_compute. Qed.

Lemma sim_get_rx i m (p : plat) :
  is_Some (nthZ (kp_hw p) i) -> hw_get_rx_irq i (m, p) = Ret (from_option mscm_rx_irq 0 (nthZ (kp_hw p) i)) (m, p).
Proof. intros [h E]. cbn. unfold S32gen1.ipc_hw_get_rx_irq, router_get_rx_irq, get_hw, cbind. cbn. now rewrite E. Qed.

(** The first instance leaves; the line stays with the second. *)
Lemma kernel_resources_exact_witness :
  sim_irqs (kp_kern both_up.2) = [34] /\ sim_irqs (kp_kern one_left.2) = [34] /\
  sim_regions (kp_kern one_left.2) ≡ₚ [(BASE_B + 0x1000, 0x400); (BASE_A + 0x1000, 0x400)] ++ [].
Proof.
  split; [vm_compute; reflexivity |]. split; [vm_compute; reflexivity |].
  assert (He : exec lives (mscm_mem, ready_hw) [tt; tt; tt] (one_left.1, one_left.2)).
  { rewrite <- surjective_pairing.
    apply exec_cons with first_up; [| apply exec_cons with both_up; [| apply exec_cons with one_left; [| apply exec_nil]]].
    - apply (init_lives 0 cfg_A _ (entry 0 (mscm_mem, ready_hw))); [lia | reflexivity | by_compute | vm_compute; eauto | by_compute | by_compute].
    - apply (init_lives 1 cfg_A1 _ (entry 1 first_up)); [lia | by_compute | by_compute | vm_compute; eauto | by_compute | by_compute].
    - apply (free_lives 0 _ (entry 0 both_up)); [lia | by_compute | by_compute | | by_compute].
      exists hw_A. split; [by_compute |]. split; [constructor; by_compute | by_compute]. }
  destruct (kernel_resources_exact (KL := sim_laws) (HR := gen1_keeps_resources) (fun l i => from_option mscm_rx_irq 0 (nthZ l i))
              sim_get_rx mscm_mem ready_hw [tt; tt; tt] one_left.1 one_left.2 eq_refl fresh_table eq_refl He) as [Hr _].
  exact Hr.
Defined.

(** B as a polling instance. *)
Definition polling : world plat :=
  World live_mem priv_B
    (KPlat (kp_hw plat_B) (map (set_irq IPC_IRQ_NONE) (kp_os plat_B)) (kp_kern plat_B)).

Lemma operational_polling : operational polling 0 inst_B.
Proof.
  constructor; [constructor; by_compute | | by_compute ..].
  split; [| vm_compute; eexists; reflexivity]. exists hw_B. split; [by_compute |].
  split; [constructor; by_compute | by_compute].
Qed.

Lemma poll_result_witness : exists r, ipc_shm_poll_channels 0 polling = Ret r polling /\ r = 0.
Proof.
  destruct (poll_result 0 0 ltac:(lia)) as (Hk & _).
  edestruct (Hk ipc_hw_priv_type sim _ _ _ _ _ polling polling inst_B) as (r & E & Hr & _);
    [exact operational_polling | vm_compute; reflexivity | reflexivity | reflexivity | vm_compute; reflexivity |].
  exists r. split; [exact E | apply Hr; lia].
Defined.

(** ** Failed initialisation *)

(** A kernel that maps physical memory at another virtual address, and whose
    interrupt is taken. *)
Definition VIRT : Z := 0xFFFF000000.

#[local] Instance busy_kernel : Kernel unit := {
  request_mem_region _ _ := cret true;
  release_mem_region _ _ := cret tt;
  ioremap a n := fun s => Ret (a + VIRT) (map_region (a + VIRT) n s.1, s.2);
  iounmap a := fun s => Ret tt (unmap_region a s.1, s.2);
  of_find_compatible_node := cret 1;
  of_node_put _ := cret tt;
  of_irq_get _ n := cret (33 + n);
  of_address_to_resource _ := cret (0, (MSCM_BASE, 0x1000));
  request_irq _ := cret (- EBUSY);
  free_irq _ := cret tt;
  tasklet_schedule := cret tt;
  tasklet_kill := cret tt;
  bus_read _ _ := cret 0;
  bus_write _ _ _ := cret tt
}.

Definition busy_reset : kplat ipc_hw_priv_type unit :=
  KPlat (replicate 4 hw_priv_zero) (replicate 4 os_priv_zero) tt.

(** The error path of [ipc_os_init] passes physical addresses to iounmap:
    when the interrupt cannot be requested, initialisation fails with -EBUSY
    and both mappings made on the way stay in place. *)
Theorem failed_init_keeps_mappings :
  match ipc_os_init (H := ipc_hw_priv_type) 0 cfg_A RX_IPC_SHM_RX (blank, busy_reset) with
  | Ret e (m, _) => e = - EBUSY /\ mem_regions m = [(BASE_B + VIRT, 0x400); (BASE_A + VIRT, 0x400)]
  | Fault => False
  end.
Proof. vm_compute. split; reflexivity. Qed.

(** A kernel that refuses the first request of a line and grants the later ones. *)
#[local] Instance moody_kernel : Kernel (bool * list Z) := {
  request_mem_region _ _ := cret true;
  release_mem_region _ _ := cret tt;
  ioremap a n := fun s => Ret a (map_region a n s.1, s.2);
  iounmap a := fun s => Ret tt (unmap_region a s.1, s.2);
  of_find_compatible_node := cret 1;
  of_node_put _ := cret tt;
  of_irq_get _ n := cret (33 + n);
  of_address_to_resource _ := cret (0, (MSCM_BASE, 0x1000));
  request_irq n k := if k.1 then Ret 0 (true, n :: k.2) else Ret (- EBUSY) (true, k.2);
  free_irq n k := Ret tt (k.1, remove_one n k.2);
  tasklet_schedule := cret tt;
  tasklet_kill := cret tt;
  bus_read _ _ := cret 0;
  bus_write _ _ _ := cret tt
}.

(** The number of an instance whose request was refused stays in the table: a
    second instance with the same interrupt takes it for one in use, and is
    enabled without the line having been requested. *)
Theorem refused_line_never_requested :
  match ipc_os_init (H := ipc_hw_priv_type) 0 cfg_A RX_IPC_SHM_RX
          (blank, KPlat (replicate 4 hw_A) (replicate 4 os_priv_zero) (false, [])) with
  | Ret e (m, p) => e = - EBUSY /\
      match ipc_os_init 1 cfg_A1 RX_IPC_SHM_RX (m, p) with
      | Ret e' (_, p') => e' = 0 /\ (kp_kern p').2 = [] /\
          os_state (nth 1 (kp_os p') os_priv_zero) = IPC_SHM_INSTANCE_ENABLED /\ irq_num (nth 1 (kp_os p') os_priv_zero) = 34
      | Fault => False
      end
  | Fault => False
  end.
Proof. vm_compute. repeat split; reflexivity. Qed.

(** ** UIO module *)

Module Uio.
Import UioModule UioSpec UioLife.

(** The kernel side: it remembers the pages it mapped. *)
#[local] Instance sim_uio : UioKernel (list (Z * Z * Z)) := {
  platform_get_irq n := cret (33 + n);
  uio_register_device _ _ := cret 0;
  uio_unregister_device _ := cret tt;
  devm_ioremap_resource := fun s => Ret MSCM_BASE (map_region MSCM_BASE 0x1000 s.1, s.2);
  is_err_or_null a := a =? NULL;
  alloc_chrdev_region := cret (0, 240);
  unregister_chrdev_region _ := cret tt;
  cdev_add _ := cret 0;
  cdev_del := cret tt;
  class_create := cret 1;
  class_destroy _ := cret tt;
  device_create _ _ := cret 1;
  device_destroy _ _ := cret tt;
  remap_pfn_range a f n k := Ret 0 (k ++ [(a, f, n)]);
  uio_bus_read _ _ := cret 0;
  uio_bus_write _ _ _ := cret tt
}.

Abbreviation uplat' := (uplat unit (list (Z * Z * Z))).

(** A platform file without hardware. *)
#[local] Instance no_hw {K} : HwOps (uplat unit K) := {
  hw_init _ _ := cret 0;
  hw_free _ := cret tt;
  hw_get_rx_irq i := cret i;
  hw_irq_enable _ := cret tt;
  hw_irq_disable _ := cret tt;
  hw_irq_notify _ := cret tt;
  hw_irq_clear _ := cret tt
}.

Definition uio_zero : ipc_uio_priv_type := UioPriv 0 0 1 0 (CdevData 0 cfg_A).
Definition module_state : memory * uplat' :=
  (blank, UPlat [] (Pdev 0 (replicate 4 IPC_IRQ_NONE) IPC_IOC_MMAP_LOCAL 0x34000000 0 0
                      (replicate 4 uio_zero) false) []).

(** Two processes open the device; the first one gets it, the second one has been
    refused and has still to take its decrement back. *)
Definition counter_at (n : Z) : memory * uplat' :=
  (blank, UPlat [] (Pdev 0 (replicate 4 IPC_IRQ_NONE) IPC_IOC_MMAP_LOCAL 0x34000000 0 0
                      (set_refcnt n uio_zero :: replicate 3 uio_zero) false) []).
Definition undo : refcnt_prog := RAtomic Inc (fun _ => RDone (- EBUSY)).

Lemma two_openers :
  rtc (uio_step 0) (module_state, [Outside; Outside]) (counter_at (-1), [Inside; Opening undo]).
Proof.
  apply (rtc_l _ _ (counter_at 1, [Opening ipc_shm_uio_open_steps; Outside]));
    [exact (step_open 0 (counter_at 1) [Outside; Outside] 0 eq_refl) |].
  apply (rtc_l _ _ (counter_at 0, [Opening (RDone 0); Outside]));
    [exact (step_open_access 0 (counter_at 1) (counter_at 0) [Opening ipc_shm_uio_open_steps; Outside]
              0 _ _ true eq_refl eq_refl) |].
  apply (rtc_l _ _ (counter_at 0, [Opening (RDone 0); Opening ipc_shm_uio_open_steps]));
    [exact (step_open 0 (counter_at 0) [Opening (RDone 0); Outside] 1 eq_refl) |].
  apply (rtc_l _ _ (counter_at (-1), [Opening (RDone 0); Opening undo]));
    [exact (step_open_access 0 (counter_at 0) (counter_at (-1))
              [Opening (RDone 0); Opening ipc_shm_uio_open_steps] 1 _ _ false eq_refl eq_refl) |].
  apply rtc_once. exact (step_opened 0 (counter_at (-1)) [Opening (RDone 0); Opening undo] 0 0 eq_refl).
Qed.

Lemma uio_device_exclusive_witness :
  exists s' ps', rtc (uio_step 0) (module_state, [Outside; Outside]) (s', ps') /\
    refcnt_is 0 (-1) s' /\
    exists s'', ipc_shm_uio_open 0 s' = Ret (- EBUSY) s'' /\ refcnt_is 0 (-1) s''.
Proof.
  eexists _, _. split; [exact two_openers |].
  destruct (uio_device_exclusive 0 module_state [Outside; Outside] _ _
              ltac:(eexists; split; reflexivity) ltac:(repeat constructor) two_openers)
    as (_ & _ & Hr & _ & Ho & _).
  split; [exact Hr | exact Ho].
Defined.

#[local] Instance sim_services : UioServices (H := unit) (K := list (Z * Z * Z)).
Proof. constructor; intros; cbn; eauto 6. Qed.

(** Instance 2 is initialised from user space. *)
Lemma uio_irqs_stay_distinct_witness :
  exists e s', ipc_cdev_ioctl IPC_IOC_INIT 0 (Some (CdevData 2 cfg_A)) module_state = Ret e s' /\
    irqs_distinct (irq_table s').
Proof.
  destruct (uio_irqs_stay_distinct (H := unit) (K := list (Z * Z * Z)) IPC_IOC_INIT 0
              (Some (CdevData 2 cfg_A)) module_state) as (e & s' & E & _ & Hd).
  - split; reflexivity.
  - intros i j n Hi Hj Hn. exfalso. apply Hn.
    change (irq_table module_state) with (replicate 4 IPC_IRQ_NONE) in Hi.
    now apply lookup_replicate in Hi as [-> _].
  - intros data [= <-]. cbn. lia.
  - exists e, s'. split; [exact E | exact Hd].
Defined.

(** 10000 bytes take three pages. *)
Lemma ipc_cdev_mmap_pages_witness :
  exists r s' k, ipc_cdev_mmap 0x7f0000000000 0x7f0000002710 module_state = Ret r s' /\
    up_kern s'.2 = map (page_call 0x7f0000000000 0x34000000) (seq 0 k) /\
    (r = 0 /\ k = 3%nat \/ r = - EINVAL /\ (0 < k <= 3)%nat).
Proof.
  destruct (ipc_cdev_mmap_pages (H := unit) (K := list (Z * Z * Z)) id 0x7f0000000000 0x7f0000002710
              module_state) as (_ & r & s' & k & E & Ec & Hr).
  - intros a f n k. cbn. eauto.
  - lia.
  - lia.
  - now left.
  - exists r, s', k. split; [exact E |]. split; [exact Ec | exact Hr].
Defined.

(** *** Resources *)

(** A kernel that counts: what it holds, and how many registrations it still
    grants. *)
Record uio_kern : Type := UioKern { uk_res : uio_res; uk_grants : nat }.

Definition uk_give (f : uio_res -> uio_res) : M uio_kern unit := cmodify (fun k => UioKern (f (uk_res k)) (uk_grants k)).

(** The last 4095 addresses are error pointers. *)
Definition IS_ERR_OR_NULL (a : Z) : bool := (a =? NULL) || (2 ^ 64 - 4095 <=? a).

(** With [no_node] it answers the last step of probe with an error pointer. *)
Definition counting (no_node : bool) : UioKernel uio_kern := {|
  platform_get_irq n := cret (33 + n);
  uio_register_device i n k :=
    match uk_grants k with
    | O => Ret (- ENOMEM) k
    | S g => Ret 0 (UioKern (with_devices (cons (i, n)) (uk_res k)) g)
    end;
  uio_unregister_device i k := if bool_decide (i ∈ (devices (uk_res k)).*1) then uk_give (with_devices (drop_device i)) k else Fault;
  devm_ioremap_resource := fun s => Ret MSCM_BASE (map_region MSCM_BASE 0x1000 s.1, s.2);
  is_err_or_null := IS_ERR_OR_NULL;
  alloc_chrdev_region := uk_give (with_region true) ;;; cret (0, 240);
  unregister_chrdev_region _ := uk_give (with_region false);
  cdev_add _ := uk_give (with_cdev true) ;;; cret 0;
  cdev_del := uk_give (with_cdev false);
  class_create := uk_give (with_class true) ;;; cret 1;
  class_destroy c := if IS_ERR_OR_NULL c then cret tt else uk_give (with_class false);
  device_create c _ :=
    if no_node || IS_ERR_OR_NULL c then cret (2 ^ 64 - ENOMEM) else uk_give (with_node true) ;;; cret 1;
  device_destroy _ _ := uk_give (with_node false);
  remap_pfn_range _ _ _ := cret 0;
  uio_bus_read _ _ := cret 0;
  uio_bus_write _ _ _ := cret tt
|}.
#[local] Instance counting_kernel : UioKernel uio_kern := counting false.

Abbreviation rplat := (uplat unit uio_kern).

Lemma counting_laws : UioResources unit uio_kern.
Proof.
  refine {| held := uk_res |}; intros; cbn; eauto 8.
  - destruct (uk_grants k); eexists _, _; (split; [reflexivity |]); [now right | now left].
  - rewrite bool_decide_eq_true_2 by assumption. eexists. split; reflexivity.
  - do 3 eexists. split; [reflexivity |]. right. split; [lia | reflexivity].
  - do 2 eexists. split; [reflexivity |]. right. split; [lia | reflexivity].
  - destruct (IS_ERR_OR_NULL c); eexists; split; reflexivity.
  - destruct (IS_ERR_OR_NULL c) eqn:Ec; do 2 eexists; (split; [reflexivity |]); [left | right]; auto.
Defined.
#[local] Existing Instance counting_laws.

Definition before_probe (grants : nat) : memory * rplat :=
  (blank, UPlat [] (up_pdev module_state.2) (UioKern (UioRes [] false false false false) grants)).

Definition request (c : ioc_cmd) : M (memory * rplat) Z := ipc_cdev_ioctl c 0 (Some (CdevData 2 cfg_A)).

(** The first initialisation of an instance does not slip: there is no device and
    nothing is enabled. *)
Lemma fresh_does_not_slip (s s' : memory * rplat) :
  devices (uk_res (up_kern s.2)) = [] -> (forall i, state_of (up_pdev s.2) i <> Some IPC_SHM_INSTANCE_ENABLED) -> ~ slip s s'.
Proof.
  intros Hd Hst (arg & data & e & _ & _ & _ & irq & _ & _ & _ & [Hi | (_ & _ & Hs)]).
  - cbn [held counting_laws] in Hi. rewrite Hd in Hi. now apply not_elem_of_nil in Hi.
  - now apply Hst in Hs.
Qed.

Lemma states_zero (d : ipc_pdev_priv_type) i :
  uio_state <$> pd_uio_id d = [0; 0; 0; 0] -> state_of d i <> Some IPC_SHM_INSTANCE_ENABLED.
Proof.
  intros Hz Hs. unfold state_of in Hs. destruct (nthZ (pd_uio_id d) i) as [u |] eqn:Hu; [| discriminate].
  apply nthZ_Some in Hu as [_ Hu]. apply (f_equal (fmap uio_state)) in Hu. rewrite <- list_lookup_fmap, Hz in Hu.
  apply list_elem_of_lookup_2 in Hu. injection Hs as Hs. cbn [fmap option_fmap] in Hu. rewrite Hs in Hu.
  unfold IPC_SHM_INSTANCE_ENABLED in Hu. set_solver by lia.
Qed.


(** Instance 2 is initialised and freed; its next initialisation registers no
    device, and freeing it again unregisters one. *)
Theorem free_without_device :
  match (let* _ := ipc_shm_uio_probe in let* a := request IPC_IOC_INIT in let* b := request IPC_IOC_FREE in let* c := request IPC_IOC_INIT in
         cret (a, b, c)) (before_probe 1) with
  | Ret r s => r = (0, 0, - ENOMEM) /\ state_of (up_pdev s.2) 2 = Some IPC_SHM_INSTANCE_ENABLED /\
      devices (uk_res (up_kern s.2)) = [] /\ request IPC_IOC_FREE s = Fault
  | Fault => False
  end.
Proof. vm_compute. split_and!; reflexivity. Qed.

(** Probe succeeds although the kernel made no device node: it answers with an
    error pointer, the code tests for NULL. *)
Theorem probe_succeeds_without_node :
  match ipc_shm_uio_probe (UK := counting true) (before_probe 1) with
  | Ret e s => e = 0 /\ ur_node (uk_res (up_kern s.2)) = false
  | Fault => False
  end.
Proof. vm_compute. split; reflexivity. Qed.

End Uio.

(** ** User space *)

Module User.
Import UioModule UserOs UserRes UserSpec UserLife.

#[local] Instance sim_posix : Posix unit := {
  UIO_MODULE_PATH := "/lib/modules/ipc-shm-uio.ko"%string;
  open_file _ := cret 3;
  close_fd _ := cret tt;
  finit_module _ := cret 0;
  delete_module := cret 0;
  ioctl_mmap _ _ _ := cret 0;
  ioctl_data _ _ _ := cret 0;
  page_size := 4096;
  mmap len _ _ := fun s => Ret 0x1000000 (map_region 0x1000000 len s.1, s.2);
  munmap a _ := fun s => Ret 0 (unmap_region a s.1, s.2);
  fopen _ := cret None;
  fgets _ _ := cret None;
  fclose _ := cret tt;
  scandir _ := cret None;
  pthread_attr_init := cret 0;
  pthread_attr_setschedpolicy := cret 0;
  pthread_attr_setschedparam := cret 0;
  pthread_create _ := cret (0, 1);
  pthread_cancel _ := cret tt;
  pthread_join _ := cret tt;
  read_fd _ := cret tt;
  write_int _ _ := cret 4;
  sched_yield := cret tt;
  no_argument _ := EmptyString
}.

#[local] Instance sim_posix_laws : PosixLaws unit.
Proof. constructor; intros; cbn; eauto. Qed.

Definition user_state : userplat unit := UserPlat true 4 3 (replicate 4 user_priv_zero) tt.

(** Shared memory that does not start at a page. *)
Definition cfg_poll : ipc_shm_cfg :=
  ShmCfg 0x34000100 0x34100200 0x400 IPC_IRQ_NONE IPC_IRQ_NONE
    (LocalCore IPC_CORE_A53 IPC_CORE_INDEX_0 0x3) (RemoteCore IPC_CORE_A53 IPC_CORE_INDEX_1) 2
    (Some channels).

Lemma user_init_maps_witness :
  exists m' p' o', ipc_os_init 0 cfg_poll RX_IPC_SHM_RX (blank, user_state) = Ret 0 (m', p') /\
    nthZ (us_id p') 0 = Some o' /\ us_local_virt_shm o' = us_local_shm_map o' + 0x100.
Proof.
  destruct (user_init_maps 0 cfg_poll blank user_state user_priv_zero)
    as (m' & p' & o' & E & Ho & _ & _ & _ & Ev & _).
  - unfold mmap_succeeds. split_and!; [by_compute | by_compute | intros; cbn; eauto with lia .. |].
    intros. cbn. eexists _, _. split; [reflexivity | lia].
  - reflexivity.
  - reflexivity.
  - reflexivity.
  - unfold cfg_fits. by_compute.
  - exists m', p', o'. split; [exact E |]. split; [exact Ho | exact Ev].
Defined.

(** *** Resources *)

(** A system that numbers descriptors, mappings and threads, has one UIO device,
    that of instance 1, and may refuse the next mapping. *)
Record csys : Type := CSys { cs_res : posix_res; cs_next : nat; cs_refuse : bool }.

Definition numbered (f : Z -> posix_res -> posix_res) : M csys Z :=
  fun u => let n := Z.of_nat (cs_next u) in Ret n (CSys (f n (cs_res u)) (S (cs_next u)) (cs_refuse u)).
Definition tracked {A} (res : A) (f : posix_res -> posix_res) : M csys A :=
  fun u => Ret res (CSys (f (cs_res u)) (cs_next u) (cs_refuse u)).

#[local] Instance counting_posix : Posix csys := {
  UIO_MODULE_PATH := "/lib/modules/ipc-shm-uio.ko"%string;
  open_file _ := numbered (fun fd => with_fds (cons fd));
  close_fd fd := tracked tt (with_fds (remove_one fd));
  finit_module _ := fun u => if loaded (cs_res u) then Ret (-1) u else tracked 0 (with_loaded true) u;
  delete_module := tracked 0 (with_loaded false);
  ioctl_mmap _ _ _ := cret 0;
  ioctl_data _ _ _ := cret 0;
  page_size := 4096;
  mmap len _ _ := fun s =>
    let u := s.2 in
    if cs_refuse u then Ret MAP_FAILED (s.1, CSys (cs_res u) (cs_next u) false) else
    let a := 4096 * Z.of_nat (cs_next u) in
    Ret a (map_region a len s.1, CSys (with_maps (cons (a, len)) (cs_res u)) (S (cs_next u)) false);
  munmap a len := fun s =>
    let u := s.2 in
    Ret 0 (unmap_region a s.1, CSys (with_maps (remove_one (a, len)) (cs_res u)) (cs_next u) (cs_refuse u));
  fopen f := cret (Some (if decide (f = "/sys/class/uio/uio0/name"%string) then 1 else 2));
  fgets f _ := cret (Some (if f =? 1 then "instance_1"%string else "2.0"%string));
  fclose _ := cret tt;
  scandir _ := cret (Some ["uio0"%string]);
  pthread_attr_init := cret 0;
  pthread_attr_setschedpolicy := cret 0;
  pthread_attr_setschedparam := cret 0;
  pthread_create _ := let* t := numbered (fun t => with_threads (cons t)) in cret (0, t);
  pthread_cancel _ := cret tt;
  pthread_join t := tracked tt (with_threads (remove_one t));
  read_fd _ := cret tt;
  write_int _ _ := cret 4;
  sched_yield := cret tt;
  no_argument _ := EmptyString
}.

#[local] Program Instance counting_resources : PosixResources csys := { held := cs_res }.
Next Obligation. cbn. lia. Qed.
Next Obligation. intros f u. eexists _, _. split; [reflexivity |]. right. split; [cbn; lia | reflexivity]. Qed.
Next Obligation. intros fd u. eexists. split; reflexivity. Qed.
Next Obligation.
  intros fd u. cbn. destruct (loaded (cs_res u)) eqn:E; eexists _, _; (split; [reflexivity |]); [now right | now left].
Qed.
Next Obligation. intros u. eexists _, _. split; [reflexivity | now left]. Qed.
Next Obligation.
  intros len fd off m u. cbn. destruct (cs_refuse u); eexists _, _, _; (split; [reflexivity |]); [now left | right].
  split; [unfold MAP_FAILED; lia | reflexivity].
Qed.
Next Obligation. intros a len m u. eexists _, _, _. split; reflexivity. Qed.
Next Obligation. intros i u. eexists _, _, _. split; [reflexivity | now left]. Qed.
Next Obligation. intros t u. eexists. split; reflexivity. Qed.
Solve All Obligations with (intros; cbn; eauto 6 with lia).

Definition cfg_irq : ipc_shm_cfg :=
  ShmCfg 0x34200000 0x34300000 0x400 1 2
    (LocalCore IPC_CORE_A53 IPC_CORE_INDEX_0 0x3) (RemoteCore IPC_CORE_A53 IPC_CORE_INDEX_1) 2 (Some channels).

Abbreviation cstate := (memory * userplat csys)%type.

Definition cold (refuse : bool) : cstate :=
  (blank, UserPlat false 0 0 (replicate 4 user_priv_zero) (CSys (PosixRes [] [] [] false) 3 refuse)).

Definition after_init (i : Z) (cfg : ipc_shm_cfg) (s : cstate) : option (Z * cstate) :=
  match ipc_os_init i cfg RX_IPC_SHM_RX s with Ret e s' => Some (e, s') | Fault => None end.
Definition after_free (i : Z) (s : cstate) : option cstate :=
  match ipc_os_free cfg_poll i s with Ret _ s' => Some s' | Fault => None end.

Definition state_of (o : option (Z * cstate)) : cstate := default (cold false) (snd <$> o).
Definition one_polls : cstate := Eval vm_compute in state_of (after_init 0 cfg_poll (cold false)).
Definition both_run : cstate := Eval vm_compute in state_of (after_init 1 cfg_irq one_polls).
Definition irq_runs : cstate := Eval vm_compute in default (cold false) (after_free 0 both_run).
Definition none_runs : cstate := Eval vm_compute in default (cold false) (after_free 1 irq_runs).

Lemma user_init_lives i cfg s e s' o :
  nthZ (us_id s.2) i = Some o -> ~ enabled o -> after_init i cfg s = Some (e, s') -> life_step s false s'.
Proof.
  unfold after_init. intros Ho Hd E. destruct (ipc_os_init _ _ _ s) as [e1 s1 |] eqn:Ei; [| discriminate]. injection E as -> ->.
  destruct s as [m p], s' as [m' p']. now apply (life_init i cfg m p o e).
Qed.

Lemma user_free_lives i s s' o l :
  nthZ (us_id s.2) i = Some o -> enabled o -> after_free i s = Some s' -> l = negb (us_is_files_opened s'.2) -> life_step s l s'.
Proof.
  unfold after_free. intros Ho He E ->. destruct (ipc_os_free _ _ s) as [[] s1 |] eqn:Ei; [| discriminate]. injection E as ->.
  destruct s as [m p], s' as [m' p']. now apply (life_free cfg_poll i m p o).
Qed.

(** A polling instance and one with a device come up and go again: the descriptor
    of the module stays. *)
Lemma user_resources_exact_witness :
  let res s := cs_res (us_sys s.2) in
  res both_run = PosixRes [9; 4; 3] [(4096 * 8, 0x400); (4096 * 7, 0x400); (4096 * 6, 0x600); (4096 * 5, 0x500)] [10] true /\
  exists gone, length gone = 1%nat /\ fds (res none_runs) ≡ₚ gone.
Proof.
  split; [vm_compute; reflexivity |].
  assert (He : exec life_step (cold false) [false; false; false; true] (none_runs.1, none_runs.2)).
  { apply exec_cons with one_polls; [| apply exec_cons with both_run; [| apply exec_cons with irq_runs; [| apply exec_cons with none_runs; [| apply exec_nil]]]].
    - eapply (user_init_lives 0 cfg_poll); [reflexivity | by_compute | vm_compute; reflexivity].
    - eapply (user_init_lives 1 cfg_irq); [vm_compute; reflexivity | by_compute | vm_compute; reflexivity].
    - eapply (user_free_lives 0); [vm_compute; reflexivity | by_compute | vm_compute; reflexivity | reflexivity].
    - eapply (user_free_lives 1); [vm_compute; reflexivity | by_compute | vm_compute; reflexivity | reflexivity]. }
  destruct (user_resources_exact blank (cold false).2 [false; false; false; true] none_runs.1 none_runs.2 eq_refl) as (_ & _ & (gone & Hg & Hf) & _).
  - intros i o Eo. apply nthZ_Some in Eo as [_ Eo]. apply lookup_replicate in Eo as [-> _]. by_compute.
  - reflexivity.
  - exact He.
  - exists gone. split; [rewrite Hg; reflexivity |]. change (cs_res (us_sys none_runs.2)) with (held (us_sys none_runs.2)).
    rewrite Hf. vm_compute (layer_files _). vm_compute (table _ _). cbn [app fds held us_sys snd cold cs_res]. now rewrite app_nil_r.
Defined.

(** The first mapping is refused: the error path closes the files but leaves the
    module loaded, and from then on no instance can be initialised. *)
Theorem module_stays_loaded :
  let first := after_init 0 cfg_poll (cold true) in let second := after_init 0 cfg_poll (state_of first) in
  fst <$> first = Some (- ENOMEM) /\ cs_res (us_sys (state_of first).2) = PosixRes [] [] [] true /\
  fst <$> second = Some (- ENODEV).
Proof. vm_compute. split_and!; reflexivity. Qed.

(** A driver with as many messages pending as its private data has entries. *)
Definition sim_rx (i b : Z) : M (world (userplat unit)) Z := fun w =>
  let n := Nat.min 128 (List.length (w_priv w)) in
  Ret (Z.of_nat n) (World (w_mem w) (drop n (w_priv w)) (w_plat w)).

Definition backlog : world (userplat unit) :=
  World blank (replicate 300 priv_zero)
    (UserPlat true 4 3 (replicate 4 (set_params 0 0x400 RX_IPC_SHM_RX user_priv_zero)) tt).

Lemma softirq_drain_terminates_witness :
  exists w', softirq_drain 3 sim_rx 0 backlog = Ret tt w'.
Proof.
  destruct (softirq_drain_terminates sim_rx 0 (fun w => Z.of_nat (List.length (w_priv w))) backlog)
    as (w' & E & _).
  - intros w Hw. unfold sim_rx. eexists _, _. split; [reflexivity |]. split; [exact Hw |].
    cbn [w_priv]. rewrite length_drop. lia.
  - reflexivity.
  - eexists. split; [reflexivity |]. split; reflexivity.
  - lia.
  - exists w'. exact E.
Defined.

End User.
