(* ===== verification/WitnessSample.v ===== *)
(** * The demos on a concrete system

    The demos of the kernel sample and of the Xen sample, run over the driver
    against the echoing peer of [SampleSystem]. *)

From S2P Require Import Prelude Memory Types World Shm KernelOs System SampleLib SampleEnv DemoLoop DemoSpec SampleSystem.
From S2P Require Sample XenSample CfgSpec.
#[local] Open Scope Z_scope.

(** The state a module is left in when it was loaded. *)
Definition loaded {S} (o : outcome S Z) (d : S) : S :=
  match o with
  | Ret 0 w => w
  | _ => d
  end.
Definition sample_world : world splat := loaded module_loaded (World blank priv_data_zero sample_reset).
Definition xen_world : world xplat := loaded xen_loaded (World blank priv_data_zero xen_reset).

Lemma run_demo_round_robin_witness :
  let a := get_app (w_plat sample_world) in
  Sample.num_channels a = 3 /\ Sample.msg_sizes_argc a = 1 /\
  Sample.run_demo 3 sample_world =
    (let* err := Sample.send_ctrl_msg (Sample.instance a) in
     if negb (err =? 0) then cret err else
     send_all Kernel.send_step (cret tt) (Sample.msg_sizes_argc a) (Sample.num_channels a) 3 0) sample_world /\
  match Sample.run_demo 3 sample_world with
  | Ret err w => err = 0 /\ Sample.last_rx_no_msg (get_app (w_plat w)) = 2
  | Fault => False
  end.
Proof.
  split_and!; [vm_compute; reflexivity | vm_compute; reflexivity | | vm_compute; split; reflexivity].
  apply (Kernel.run_demo_round_robin sample_world 3); vm_compute; intuition discriminate.
Defined.

(** Result of a run. *)
Definition result {S} (o : outcome S Z) : option Z :=
  match o with
  | Ret v _ => Some v
  | Fault => None
  end.

Lemma result_Ret {S} (o : outcome S Z) v : result o = Some v -> exists w, o = Ret v w.
Proof. destruct o as [u w |]; [| discriminate]. intros H. injection H as ->. now exists w. Qed.

Lemma run_demo_poll_all_replied_witness :
  XenSample.num_channels (get_app (w_plat xen_world)) = 3 /\
  exists w, XenSample.run_demo_poll XenSample.DOM0 8 3 xen_world = Ret 0 w /\ Xen.all_replied w.
Proof.
  split; [vm_compute; reflexivity |].
  destruct (result_Ret (XenSample.run_demo_poll XenSample.DOM0 8 3 xen_world) 0) as [w E];
    [vm_compute; reflexivity |].
  exists w. split; [exact E |].
  refine (proj2 (Xen.run_demo_poll_all_replied XenSample.DOM0 8 xen_world 3 _) eq_refl w E).
  vm_compute; intuition discriminate.
Defined.

Lemma sample_configurations_accepted_witness :
  Forall (fun '(s, ic) => CfgSpec.instances_ok ic /\
    forall cpxnum ircpcfg, 0 <= cpxnum < 4 -> Z.testbit ircpcfg 31 = false ->
      Forall (fun cfg => CfgSpec.hw_verdict s cfg cpxnum ircpcfg = 0) (ic_shm_cfg ic))
    (CfgSpec.linux_cfgs CTRL_CB DATA_CB CB_ARG) /\
  length (CfgSpec.linux_cfgs CTRL_CB DATA_CB CB_ARG) = 16%nat.
Proof.
  split; [| reflexivity].
  exact (proj1 (CfgSpec.sample_configurations_accepted CTRL_CB DATA_CB CB_ARG ltac:(discriminate) ltac:(discriminate))).
Defined.
